(* ===== verification/_CoqProject ===== *)
-Q . S2P
Prelude.v
Text.v
Float64.v
Common.v
Pool.v
Activity.v
ActivityRestart.v
Twap.v
AdaUsd.v
Cbor.v
Djed.v
Agreement.v
Mempool.v
Spectrum.v
Ledger.v
Minswap.v
SundaeSwap.v
Splash.v
AssetCbor.v
WingRiders.v
CSwap.v
VyFi.v
Parsers.v
Watches.v
KeyValue.v
JsonString.v
ServeMux.v
Base64.v
Rfc3339.v
JsonNumber.v
FloatText.v
FloatRange.v
GoFloat.v
Json.v
JsonRecord.v
Table.v
Indigo.v
PoolJson.v
OracleStorage.v
ActivityStorage.v
Subscribers.v
Oracle.v
OracleSync.v
OracleRestart.v
Liqwid.v
Lending.v
LendingJson.v
LendingOracle.v
TxRelay.v
ChainSync.v
UtxoStore.v
Indexer.v
SyncLog.v
SpectrumDatum.v
Batcher.v
TxSubmit.v
TwapStorage.v
Connections.v
Endpoint.v
Origin.v
OracleApi.v
ApiJson.v
Routes.v
Profiles.v
Wrappers.v
Process.v
Startup.v
Pipeline.v
Strike.v
Saturn.v
SaturnJson.v
