(* ===== verification/Prelude.v ===== *)
(** * A verified model of the Shai price oracle and batcher

    Shai follows the Cardano chain, keeps the state of decentralised-exchange
    pools, debt positions and lending markets, derives prices from them, relays
    transactions and builds batching transactions. This development models the
    deterministic core of the Go program under [src/] and proves that it does what
    it is meant to, and where it does not.

    ** How the program fits together

    The program starts the profiles that its configuration selects. The node
    follows the chain of its peers and relays blocks and transactions; the indexer
    follows the chain from its stored cursor and hands every transaction to its
    handlers. It keeps the outputs of its own wallet in a key-value store and fires
    the watches that callers registered. The pool oracle parses the datums of pool
    outputs with the parser of its protocol, infers swaps from successive states of
    a pool, keeps a rolling window of them in memory and on disk, tracks what
    pending transactions will do to the pools, and publishes updates to
    subscribers. The lending oracle does the like for markets and positions. The web
    interfaces answer queries about both. The price packages turn pool states into
    an ADA/USD estimate, qualify it by recent activity, average it over time and
    cross-check it against the Djed oracle. The batcher finds the pool of a swap
    order, computes the outcome and the transaction that executes it, and hands
    that to the submission, which gives it to the node or to a web interface.

    ** Where each part is

    - [Prelude]: machine integers, time, errors, orders and sorting, rationals
      as [math/big] keeps them, map iteration ([RangeOrder]), list lemmas.
    - [Text]: decimal and hexadecimal text, byte slices, letter case, splitting of
      strings and network addresses. [Float64]: IEEE 754 doubles, computable, on the
      Standard Library's specification. [JsonString], [Base64], [Rfc3339], [JsonNumber],
      [FloatText], [FloatRange], [GoFloat]: how the standard library of Go writes and
      reads strings, byte slices, times, integers and doubles. [Json], [JsonRecord]:
      [encoding/json], with a renderer, a parser and one round-trip theorem for every
      struct with tags. [ServeMux]: the patterns of [net/http] and how a request finds
      one.
    - [Common], [AssetCbor] (common/types.go): assets, compared by content, with a
      setoid; their text and CBOR form.
    - [Pool] (dex/models.go): pool states, prices, fees, quotes. [PoolJson]: the JSON
      and the text form of a pool and of its parts.
    - [Activity], [ActivityRestart] (dex/activity.go, dex/activity_state.go): the
      swap tracker; the log of all swaps it refines; snapshot and restore.
    - [Twap], [TwapStorage] (price/twap.go, internal/storage/twap.go): the
      time-weighted average engine, the history it refines, its storage.
    - [AdaUsd] (price/ada_usd.go, price/stablecoins.go): the liquidity-weighted
      median of ADA/stablecoin pools, with and without activity qualification.
    - [Cbor]: the interface of the external CBOR decoder and writer, with a
      concrete instance. [Djed] (price/djed/): the oracle datum and its tracker.
    - [Agreement] (price/agreement.go): the cross-check of the two prices.
    - [Mempool] (internal/oracle/mempool.go): pending effects on the pools.
    - [Ledger]: transaction outputs as the parsers see them, the lookup of an
      asset that four parsers repeat, and [PoolParser], the class every parser
      implements with the contract its callers rely on. [Minswap], [SundaeSwap],
      [Splash], [WingRiders], [CSwap], [VyFi] (dex/<name>/): datum decoding and
      parsing, each discharging that contract. [Parsers] (cmd/shai/main.go): the
      choice of a parser, proved against the class.
      [Wrappers] (dex/*.go): what package [dex] exports.
    - [KeyValue]: the classes of transactional key-value stores and of record
      codecs. [Table]: records under a prefix, shared by three storages.
    - [Indigo] (internal/oracle/indigo/): debt positions and the class [CDPParser].
      [OracleStorage] (internal/oracle/storage.go): pool and position records.
      [ActivityStorage] (internal/oracle/activity_storage.go): the durable form of
      the tracker, written, pruned and rolled back in bounded transactions.
    - [Subscribers]: the channel of an update subscriber. [Oracle]
      (internal/oracle/oracle.go, dex.go): events, rollbacks, loading and queries of
      the pool oracle. [OracleSync], [OracleRestart]: memory and disk agree.
    - [Liqwid] (dex/liqwid/), [Lending] (internal/oracle/lending_adapters.go),
      [LendingOracle] (lending_oracle.go, lending_storage.go): lending datums, the
      class [LendingParser], the lending oracle and its storage. [LendingJson]: the
      record that it stores.
    - [Origin], [OracleApi] (internal/oracle/api.go, lending_api.go): which pages may
      open a stream; the handlers of both web interfaces and the registry of streams.
      [ApiJson]: the bodies of their responses. [Routes]: the routes of both, and the program from a block of the chain
      to the body that a client decodes.
    - [Watches] (internal/indexer/watches.go): the watch manager and the registry
      it refines. [UtxoStore] (internal/storage/storage.go): the storage, over
      the class [KV], and the list of unspent outputs it refines. [Indexer]
      (internal/indexer/indexer.go): the intercept point and the handler that
      composes the two. [SyncLog] (the same file): the timer of the catch-up messages.
    - [ChainSync] (internal/node/chainsync.go, node.go, peersharing.go): what the node
      answers to its peers. [TxRelay] (internal/node/txsubmission.go and its local
      side): the mempool and the relay of transactions. [Connections] (node.go): how
      connections are dialed, accepted, recorded, lost and dialed again.
    - [Spectrum] (internal/spectrum/pool.go, tx.go): the batcher's arithmetic,
      the guards of the swap transaction, collateral, input indexes. [SpectrumDatum]
      (models.go): its datums. [Batcher] (spectrum.go, tx.go, internal/storage/utxo.go): how
      pools and orders are found and the steps of the swap transaction. [TxSubmit]
      (internal/txsubmit/): the way of a transaction out of the process.
    - [Profiles] (internal/config/, dex/locator.go): the tables of profiles and pool
      addresses, and the configuration. [Startup] (cmd/shai/main.go): the start of the
      configured profiles. [Pipeline] (the same file, indexer.go): [main] from its flags
      on, the handlers of events in the order of their registration, and the start of
      the indexer. [Process] (internal/wallet/, internal/logging/,
      internal/version/, cmd/mk-script-address/): the seed file of the wallet, the
      logger under concurrent first use, and the tool for script addresses.
    - [Endpoint]: addresses of remote services. [Strike] (dex/strike/, batch/strike/):
      targets, signatures and client of the Strike service. [Saturn]
      (dex/saturnswap/): decimals, fees, pool states and client of SaturnSwap.
      [SaturnJson] (the same, api_models.go): its requests and responses as JSON.

    ** Conventions

    A [uint64] or [int64] is a [Z] with [u64] or [i64] at the operations that can
    wrap. A function returning an error returns [result], with one constructor
    per error of the source; a runtime panic is a constructor of its own. State
    is passed explicitly and an operation of a locked object is one step: the
    locks are held for whole bodies, so concurrent callers interleave whole
    operations, which the theorems over arbitrary operation sequences cover; where
    a lock is released in between, as for the streams of the web interface and the
    pages of a rollback, the recording of a connection, the catch-up messages and the
    first use of the logger, the steps are separate. What ranges over a Go map takes the
    order as a parameter. Maps are [gmap]s. External code is a class or a parameter
    whose laws state its documented behaviour, with a concrete instance: the CBOR and
    ledger libraries, the key-value database with the budget of a transaction, the
    SHA-256 (without collisions on the keys it digests), the
    URL parser, the builder and signer of transactions, a peer. The clock is an
    argument, and so is how much each consumer of a channel reads meanwhile.

    Every loop of the modelled code is structural, except for some that have fuel: the
    shortest decimal of a double in [Float64], 400 steps for the decimal exponent,
    which lies between -323 and 309 for every finite double, and 17 digits, which
    always identify a double; the decimal form of a double in [FloatText], 1100
    places after the point, which every finite double can be written with, and at most
    400 zeros at the end to remove; the parser of [Json], twice the length of the text and two, proved to
    be enough for whatever the renderer writes; and the batches
    of a rollback in [ActivityStorage], one
    more than there are stored swaps, proved to be always enough.

    ** What the theorems show

    - refinement: the TWAP engine against the complete history of observations,
      the activity tracker and its durable form against the complete log of swaps,
      pending effects against what the transactions commit pools to, the Djed tracker
      against the chain cut at the rollback point, the watch index against the set of
      live watches, the storage against the list of unspent outputs, the indexer's
      handler against the wallet's outputs, the pool of a batcher against the chain;
    - durability: whatever events with recordable states, rollbacks and restarts there
      were, what is on disk is what is in memory, a restart is invisible, and a rollback
      leaves nothing of later blocks; the batched rollback terminates. Volumes are those
      of the complete log from the highest slot observed on;
    - the way out: whatever events, rollbacks and restarts there were, the interface
      answers with the JSON of the tracked pool, which decodes into it; every endpoint is
      reached by its requests and no other method reaches a handler but one; every struct
      survives its JSON; a client returns what its service lists;
    - the way in: a program that comes up has a handler for every configured profile and
      follows the chain from the stored cursor or from no later than any of them;
    - safety of prices: what a successful estimate, quote, median or cross-check
      guarantees, and that no result depends on map order;
    - conservation of value in quotes and, for ADA pairs, in swap transactions; a submitted transaction
      executes the order it was made for;
    - sound profiles start exactly when at most one of them is a pool or debt-position
      oracle; requests to a remote service are encrypted, go to the configured host,
      and a signature speaks for one request;
    - the node serves every block and every announced transaction, a slow subscriber
      ends at the newest update, a stream of the web interface does not leak, an open
      connection always has one owner, and no peer of the topology is given up unless
      its connection ends while it is being recorded;
    - round trips of snapshots, datums and records; exact error conditions; overflow
      and saturation bounds; every pool that any parser accepts can be quoted.

    Some theorems record behaviour that falls short: a pool of two equal assets keeps
    the oracle from starting again; a second oracle profile keeps the program from
    starting at all; after a rollback the volume endpoint fails; a forged pool takes
    the place of a real one; the default configuration never sends a transaction; a
    rollback before the intersection is lost and a silent peer blocks the node; a
    connection that ends early loses its peer for good, or ends the process;
    lending positions are never removed when they are spent; the indexer keeps outputs
    that were rolled back; activity is undercounted after a rollback past the
    retained window; the fee arithmetic of SundaeSwap V3 overflows.

    ** What is not modelled

    Left out: sockets, deadlines and protocols; the decoders of YAML and of the
    environment; the rules of URL texts, of which the model takes the parser as a
    parameter; tickers and goroutines as such; the texts of log lines and errors; the
    nesting limit of the JSON decoder and white space inside the raw members that it
    hands to a method of a type; records of remote services that nothing reads; the
    wrappers of [internal/oracle] that only forward to the packages modelled here; and
    how a database fails while it is open. *)
From Stdlib Require Export ZArith QArith Qminmax Lqa Lia.
From Stdlib Require OrdersEx.
From stdpp Require Export prelude gmap strings list sorting fin_maps.

#[global] Open Scope Z_scope.

Declare Scope go_scope.
Delimit Scope go_scope with go.
#[global] Open Scope go_scope.

(** ** Fixed-width integers

    A Go [uint64], [uint32], [uint8] or [int64] is a [Z] kept in range; the
    arithmetic that can wrap is written with [u64] or [i64] at the place where
    the source computes it. *)

Definition MaxUint64 : Z := 18446744073709551615.
Definition MaxInt64 : Z := 9223372036854775807.
Definition MinInt64 : Z := -9223372036854775808.

Definition u64 (z : Z) : Z := z mod 18446744073709551616.
Definition i64 (z : Z) : Z :=
  (z + 9223372036854775808) mod 18446744073709551616 - 9223372036854775808.

Definition is_u64 (z : Z) : Prop := 0 <= z <= MaxUint64.
Definition is_i64 (z : Z) : Prop := MinInt64 <= z <= MaxInt64.

(** The nearest [int64] to an exact integer. *)
Definition clamp_i64 (z : Z) : Z := Z.max MinInt64 (Z.min MaxInt64 z).

Ltac int_unfold :=
  unfold is_u64, is_i64, clamp_i64, MaxUint64, MaxInt64, MinInt64 in *.
Ltac int_lia := int_unfold; lia.

Lemma u64_small z : is_u64 z -> u64 z = z.
Proof. intros H. unfold u64. apply Z.mod_small. int_lia. Qed.

Lemma u64_range z : is_u64 (u64 z).
Proof.
  unfold u64. pose proof (Z.mod_pos_bound z 18446744073709551616 eq_refl).
  int_lia.
Qed.

Lemma i64_small z : is_i64 z -> i64 z = z.
Proof. intros H. unfold i64. rewrite Z.mod_small; int_lia. Qed.

Lemma i64_range z : is_i64 (i64 z).
Proof.
  unfold i64.
  pose proof (Z.mod_pos_bound (z + 9223372036854775808) 18446744073709551616 eq_refl).
  int_lia.
Qed.

Lemma clamp_i64_small z : is_i64 z -> clamp_i64 z = z.
Proof. int_lia. Qed.

Lemma clamp_i64_range z : is_i64 (clamp_i64 z).
Proof. int_lia. Qed.

(** Wrap-around of a sum of two machine words, as a case distinction. *)
Lemma u64_add_cases a b :
  is_u64 a -> is_u64 b ->
  u64 (a + b) = if decide (a + b <= MaxUint64) then a + b else a + b - 2 ^ 64.
Proof.
  intros Ha Hb. unfold u64. case_decide.
  - apply Z.mod_small; int_lia.
  - rewrite <- (Z.mod_add _ (-1)) by lia. rewrite Z.mod_small; int_lia.
Qed.

(** ** Time

    A [time.Time] is the number of nanoseconds since the zero time and a
    [time.Duration] a number of nanoseconds; locations do not take part in the
    comparisons of the program, which are all on instants. *)

Abbreviation gotime := Z (only parsing).
Abbreviation duration := Z (only parsing).

Definition IsZero (t : gotime) : bool := t =? 0.
(** [time.UnixMilli]: the zero time is 62135596800 seconds before the epoch. *)
Definition UnixMilli (ms : Z) : Z := (62135596800 * 1000 + ms) * 1000000.
Definition After (a b : gotime) : bool := b <? a.
Definition Before (a b : gotime) : bool := a <? b.

(** [Time.Sub] saturates at the bounds of a [Duration]. *)
Definition Sub (a b : gotime) : duration := clamp_i64 (a - b).
Definition Add (t : gotime) (d : duration) : gotime := t + d.

(** ** Errors

    A function that returns [(T, error)] returns [result E T] with one
    constructor of [E] per error of the source. *)

Inductive result (E A : Type) : Type :=
| Ok (a : A)
| Err (e : E).
Arguments Ok {E A} a.
Arguments Err {E A} e.

#[export] Instance result_ret E : MRet (result E) := fun _ a => Ok a.
#[export] Instance result_bind E : MBind (result E) :=
  fun _ _ f r => match r with Ok a => f a | Err e => Err e end.
#[export] Instance result_fmap E : FMap (result E) :=
  fun _ _ f r => match r with Ok a => Ok (f a) | Err e => Err e end.

(** [if cond { return err }] *)
Definition reject_if {E} (cond : bool) (e : E) : result E unit :=
  if cond then Err e else Ok tt.

(** [fmt.Errorf("...: %w", err)]: the wrapped error keeps its cause. *)
Definition map_err {E F A} (f : E -> F) (r : result E A) : result F A :=
  match r with Ok a => Ok a | Err e => Err (f e) end.

Definition is_ok {E A} (r : result E A) : bool :=
  match r with Ok _ => true | Err _ => false end.

Lemma bind_ok {E A B} (r : result E A) (f : A -> result E B) b :
  r ≫= f = Ok b <-> exists a, r = Ok a /\ f a = Ok b.
Proof. destruct r; cbn; naive_solver. Qed.

Lemma bind_err {E A B} (r : result E A) (f : A -> result E B) e :
  r ≫= f = Err e <-> r = Err e \/ exists a, r = Ok a /\ f a = Err e.
Proof. destruct r; cbn; naive_solver. Qed.

Lemma reject_if_ok {E} c (e : E) u : reject_if c e = Ok u <-> c = false.
Proof. destruct c, u; cbn; naive_solver. Qed.

Lemma reject_if_err {E} c (e e' : E) : reject_if c e = Err e' <-> c = true /\ e = e'.
Proof. destruct c; cbn; naive_solver. Qed.

(** The case analysis of a handler: split every test of the code. *)
Ltac go_cases :=
  repeat (case_match || case_decide); simplify_eq/=.

(** Read the boolean tests of the code as propositions. *)
Ltac bool_prop :=
  repeat match goal with
  | H : _ && _ = true |- _ => apply andb_prop in H; destruct H
  | H : _ || _ = false |- _ => apply orb_false_iff in H; destruct H
  | H : negb _ = true |- _ => apply negb_true_iff in H
  | H : negb _ = false |- _ => apply negb_false_iff in H
  | H : (_ =? _) = true |- _ => apply Z.eqb_eq in H
  | H : (_ =? _) = false |- _ => apply Z.eqb_neq in H
  | H : (_ <? _) = true |- _ => apply Z.ltb_lt in H
  | H : (_ <? _) = false |- _ => apply Z.ltb_ge in H
  | H : (_ <=? _) = true |- _ => apply Z.leb_le in H
  | H : (_ <=? _) = false |- _ => apply Z.leb_gt in H
  | H : bool_decide _ = true |- _ => apply bool_decide_eq_true in H
  | H : bool_decide _ = false |- _ => apply bool_decide_eq_false in H
  end.

(** ** Orders

    The less-than functions of the program compare a few fields in turn. Each
    is the lexicographic order on a tuple of integers and strings, which is an
    instance of the class below. *)

Class Ord (A : Type) := {
  cmp : A -> A -> comparison;
  cmp_eq : forall x y, cmp x y = Eq <-> x = y;
  cmp_sym : forall x y, cmp y x = CompOpp (cmp x y);
  cmp_trans : forall x y z, cmp x y = Lt -> cmp y z = Lt -> cmp x z = Lt;
}.

#[export, program] Instance ord_Z : Ord Z := {| cmp := Z.compare |}.
Next Obligation. apply Z.compare_eq_iff. Qed.
Next Obligation. intros. apply Z.compare_antisym. Qed.
Next Obligation. intros x y z. rewrite !Z.compare_lt_iff. lia. Qed.

#[export, program] Instance ord_string : Ord string := {| cmp := String.compare |}.
Next Obligation.
  split; [apply String.compare_eq_iff | intros ->].
  pose proof (String.compare_antisym y y) as H.
  destruct (y ?= y)%string; done.
Qed.
Next Obligation. intros. apply String.compare_antisym. Qed.
Next Obligation. exact (@StrictOrder_Transitive _ _ OrdersEx.String_as_OT.lt_strorder). Qed.

Definition lex {A B} `{Ord A, Ord B} (x y : A * B) : comparison :=
  match cmp x.1 y.1 with Eq => cmp x.2 y.2 | c => c end.

#[export, program] Instance ord_prod {A B} `{Ord A, Ord B} : Ord (A * B) :=
  {| cmp := lex |}.
Next Obligation.
  intros A B HA HB [a b] [a' b']. unfold lex; simpl.
  destruct (cmp a a') eqn:E; rewrite ?cmp_eq.
  - apply cmp_eq in E as ->. split; congruence.
  - split; [done|]. intros [= -> ->]. pose proof (proj2 (cmp_eq a' a') eq_refl). congruence.
  - split; [done|]. intros [= -> ->]. pose proof (proj2 (cmp_eq a' a') eq_refl). congruence.
Qed.
Next Obligation.
  intros A B HA HB [a b] [a' b']. unfold lex; simpl.
  rewrite (cmp_sym a a'). destruct (cmp a a'); simpl; [apply cmp_sym | done..].
Qed.
Next Obligation.
  intros A B HA HB [a b] [a' b'] [a'' b'']. unfold lex; simpl.
  destruct (cmp a a') eqn:E1; [apply cmp_eq in E1 as -> | | done];
    destruct (cmp a' a'') eqn:E2; try done.
  - apply cmp_trans.
  - apply cmp_eq in E2 as <-. rewrite E1. done.
  - rewrite (cmp_trans _ _ _ E1 E2). done.
Qed.

(** [x < y] as a Go boolean. *)
Definition ltb {A} `{Ord A} (x y : A) : bool :=
  match cmp x y with Lt => true | _ => false end.
Definition leb {A} `{Ord A} (x y : A) : bool := negb (ltb y x).

Section OrdFacts.
Context {A : Type} `{Ord A}.

Lemma cmp_refl (x : A) : cmp x x = Eq.
Proof. by apply cmp_eq. Qed.

Lemma ltb_lt (x y : A) : ltb x y = true <-> cmp x y = Lt.
Proof. unfold ltb. destruct (cmp x y); done. Qed.

Lemma ltb_irrefl (x : A) : ltb x x = false.
Proof. unfold ltb. by rewrite cmp_refl. Qed.

Lemma ltb_trans (x y z : A) : ltb x y = true -> ltb y z = true -> ltb x z = true.
Proof. rewrite !ltb_lt. apply cmp_trans. Qed.

Lemma ltb_asym (x y : A) : ltb x y = true -> ltb y x = false.
Proof. unfold ltb. rewrite (cmp_sym x y). destruct (cmp x y); done. Qed.

Lemma ltb_connected (x y : A) : ltb x y = false -> ltb y x = false -> x = y.
Proof.
  unfold ltb. rewrite (cmp_sym x y). destruct (cmp x y) eqn:E; try done.
  intros _ _. by apply cmp_eq.
Qed.

Lemma leb_total (x y : A) : leb x y = true \/ leb y x = true.
Proof.
  unfold leb. destruct (ltb y x) eqn:E; [right | by left].
  by rewrite (ltb_asym _ _ E).
Qed.

Lemma leb_refl (x : A) : leb x x = true.
Proof. unfold leb. by rewrite ltb_irrefl. Qed.

Lemma leb_antisym (x y : A) : leb x y = true -> leb y x = true -> x = y.
Proof.
  unfold leb. rewrite !negb_true_iff. intros. by apply ltb_connected.
Qed.

Lemma leb_trans (x y z : A) : leb x y = true -> leb y z = true -> leb x z = true.
Proof.
  unfold leb. rewrite !negb_true_iff. intros Hyx Hzy.
  destruct (ltb z x) eqn:E; [|done].
  destruct (cmp x y) eqn:Exy.
  - apply cmp_eq in Exy as ->. congruence.
  - assert (ltb x y = true) by (by apply ltb_lt).
    pose proof (ltb_trans _ _ _ E H0). congruence.
  - unfold ltb in Hyx. rewrite (cmp_sym x y), Exy in Hyx. done.
Qed.
End OrdFacts.

Lemma leb_Z (x y : Z) : leb x y = true <-> x <= y.
Proof.
  unfold leb, ltb. cbn. destruct (Z.compare_spec y x); cbn; split; (done || lia).
Qed.

Lemma ltb_Z (x y : Z) : ltb x y = (x <? y).
Proof. unfold ltb. cbn. rewrite Z.ltb_compare. done. Qed.

Lemma ltb_pair {A} `{Ord A} (x y : Z * A) :
  ltb x y = (x.1 <? y.1) || ((x.1 =? y.1) && ltb x.2 y.2).
Proof.
  unfold ltb. change (cmp x y) with (lex x y). unfold lex.
  change (cmp x.1 y.1) with (x.1 ?= y.1). rewrite Z.ltb_compare, Z.eqb_compare.
  by destruct (x.1 ?= y.1).
Qed.

Lemma leb_fst {A B} `{Ord A, Ord B} (x y : A * B) : leb x y = true -> leb x.1 y.1 = true.
Proof.
  unfold leb, ltb. change (cmp y x) with (lex y x). unfold lex.
  by destruct (cmp y.1 x.1).
Qed.

(** ** Sorting

    [sort.Slice] and [slices.SortStableFunc] both yield a permutation in which
    no element is less than an earlier one; [sort_by] is the stable such
    permutation. Where the source uses the unstable [sort.Slice], a theorem
    shows that the keys tell all elements apart, so that the sorted
    permutation is unique ([sort_by_unique]). *)

Section Sort.
Context {A K : Type} `{Ord K} (key : A -> K).

Fixpoint insert_by (x : A) (l : list A) : list A :=
  match l with
  | [] => [x]
  | y :: l' => if leb (key x) (key y) then x :: l else y :: insert_by x l'
  end.

Definition sort_by (l : list A) : list A := foldr insert_by [] l.

Definition key_le (x y : A) : Prop := leb (key x) (key y) = true.

Lemma insert_by_perm x l : insert_by x l ≡ₚ x :: l.
Proof.
  induction l as [|y l IH]; simpl; [done|].
  case_match; [done|]. rewrite IH. constructor.
Qed.

Lemma sort_by_perm l : sort_by l ≡ₚ l.
Proof. induction l as [|x l IH]; simpl; [done|]. by rewrite insert_by_perm, IH. Qed.

Lemma insert_by_sorted x l :
  StronglySorted key_le l -> StronglySorted key_le (insert_by x l).
Proof.
  induction 1 as [|y l Hs IH Hy]; simpl; [by repeat constructor|].
  case_match eqn:E; constructor.
  - by constructor.
  - constructor; [done|]. eapply Forall_impl; [exact Hy|].
    intros z. by apply leb_trans.
  - done.
  - rewrite insert_by_perm. constructor; [|done].
    unfold key_le. destruct (leb_total (key x) (key y)); congruence.
Qed.

Lemma sort_by_sorted l : StronglySorted key_le (sort_by l).
Proof. induction l; simpl; [constructor | by apply insert_by_sorted]. Qed.

Lemma elem_of_sort_by x l : x ∈ sort_by l <-> x ∈ l.
Proof. by rewrite sort_by_perm. Qed.

Lemma length_sort_by l : length (sort_by l) = length l.
Proof. by rewrite sort_by_perm. Qed.

(** Any sorted permutation of a list whose keys are distinct is the result of
    [sort_by]: the outcome does not depend on the sorting algorithm. *)
Lemma sort_by_unique l l' :
  NoDup (key <$> l) -> l' ≡ₚ l -> StronglySorted key_le l' -> l' = sort_by l.
Proof.
  intros Hnd Hp Hs. eapply StronglySorted_unique_strong;
    [| exact Hs | apply sort_by_sorted | by rewrite sort_by_perm].
  intros x y Hx Hy Hxy Hyx. rewrite Hp in Hx. rewrite sort_by_perm in Hy.
  pose proof (leb_antisym _ _ Hxy Hyx) as Hk.
  apply list_elem_of_lookup in Hx as [i Hi].
  apply list_elem_of_lookup in Hy as [j Hj].
  assert (i = j) as ->; [|congruence].
  eapply (NoDup_lookup (key <$> l)); [done | |]; rewrite list_lookup_fmap.
  - rewrite Hi. done.
  - rewrite Hj. simpl. by rewrite Hk.
Qed.

Lemma sort_by_perm_eq l l' :
  NoDup (key <$> l) -> l' ≡ₚ l -> sort_by l' = sort_by l.
Proof.
  intros Hnd Hp. apply sort_by_unique; [done | by rewrite sort_by_perm |].
  apply sort_by_sorted.
Qed.

Lemma sort_by_id l : StronglySorted key_le l -> sort_by l = l.
Proof.
  induction 1 as [|x l Hs IH Hx]; simpl; [done|]. rewrite IH.
  destruct l as [|y l]; simpl; [done|].
  apply Forall_cons in Hx as [-> _]. done.
Qed.
End Sort.

(** ** Rationals

    A [*big.Rat] always holds a fraction in lowest terms, so its operations are
    those of [Q] followed by [Qred]: two values are equal as rationals exactly
    when they are equal as fractions. *)

Abbreviation rat := Q (only parsing).

Definition SetFrac (num den : Z) : rat :=
  Qred (if den <? 0 then Z.opp num # Z.to_pos (Z.opp den) else num # Z.to_pos den).
Definition SetInt (z : Z) : rat := inject_Z z.
Definition Num (q : rat) : Z := Qnum q.
Definition Denom (q : rat) : Z := Zpos (Qden q).
Definition RatAdd (a b : rat) : rat := Qred (a + b).
Definition RatSub (a b : rat) : rat := Qred (a - b).
Definition RatMul (a b : rat) : rat := Qred (a * b).
Definition RatQuo (a b : rat) : rat := Qred (a / b).

(** [a.Cmp(b) > 0] and the like. *)
Definition RatLt (a b : rat) : bool :=
  match (a ?= b)%Q with Lt => true | _ => false end.
(** [Sign() > 0] *)
Definition RatPos (a : rat) : bool := 0 <? Qnum a.

(** A fraction in lowest terms. *)
Definition canonical (q : rat) : Prop := Qred q = q.

Lemma canonical_Qred q : canonical (Qred q).
Proof. apply Qred_complete, Qred_correct. Qed.

Lemma canonical_SetFrac n d : canonical (SetFrac n d).
Proof. apply canonical_Qred. Qed.

Lemma canonical_eq a b : canonical a -> canonical b -> (a == b)%Q -> a = b.
Proof. intros Ha Hb Hab. rewrite <- Ha, <- Hb. by apply Qred_complete. Qed.

(** The numerator and denominator that are persisted determine the value. *)
Lemma SetFrac_Num_Denom q : canonical q -> SetFrac (Num q) (Denom q) = q.
Proof. intros Hq. unfold SetFrac, Num, Denom. destruct q as [n d]. exact Hq. Qed.

Lemma SetFrac_eq n d : 0 < d -> (SetFrac n d == n # Z.to_pos d)%Q.
Proof.
  intros Hd. unfold SetFrac. rewrite (proj2 (Z.ltb_ge _ _)) by lia.
  apply Qred_correct.
Qed.

Lemma RatLt_spec a b : RatLt a b = true <-> (a < b)%Q.
Proof. unfold RatLt. rewrite Qlt_alt. destruct (a ?= b)%Q; done. Qed.

Lemma RatLt_false a b : RatLt a b = false <-> (b <= a)%Q.
Proof.
  rewrite <- not_true_iff_false, RatLt_spec. split.
  - apply Qnot_lt_le.
  - apply Qle_not_lt.
Qed.

Lemma RatPos_spec a : RatPos a = true <-> (0 < a)%Q.
Proof.
  unfold RatPos. rewrite Z.ltb_lt. unfold Qlt. simpl. lia.
Qed.

Lemma RatAdd_eq a b : (RatAdd a b == a + b)%Q.
Proof. apply Qred_correct. Qed.
Lemma RatSub_eq a b : (RatSub a b == a - b)%Q.
Proof. apply Qred_correct. Qed.
Lemma RatMul_eq a b : (RatMul a b == a * b)%Q.
Proof. apply Qred_correct. Qed.
Lemma RatQuo_eq a b : (RatQuo a b == a / b)%Q.
Proof. apply Qred_correct. Qed.

#[export] Hint Rewrite RatAdd_eq RatSub_eq RatMul_eq RatQuo_eq : rat.

#[export] Instance RatLt_proper : Proper (Qeq ==> Qeq ==> eq) RatLt.
Proof. intros a a' Ha b b' Hb. unfold RatLt. by rewrite Ha, Hb. Qed.

(** Rationals as integers over a common denominator. *)
Lemma Qle_frac a b c d :
  0 < b -> 0 < d -> (a # Z.to_pos b <= c # Z.to_pos d)%Q <-> a * d <= c * b.
Proof. intros. unfold Qle. simpl. by rewrite !Z2Pos.id. Qed.

Lemma Qlt_frac a b c d :
  0 < b -> 0 < d -> (a # Z.to_pos b < c # Z.to_pos d)%Q <-> a * d < c * b.
Proof. intros. unfold Qlt. simpl. by rewrite !Z2Pos.id. Qed.

(** ** Lists *)

Section Filter.
Context {A : Type} (P : A -> Prop) `{forall x, Decision (P x)}.

Lemma filter_all l : Forall P l -> filter P l = l.
Proof.
  induction 1 as [|x l Hx Hl IH]; [done|].
  rewrite filter_cons_True by done. by rewrite IH.
Qed.

Lemma filter_none l : Forall (fun x => ~ P x) l -> filter P l = [].
Proof.
  induction 1 as [|x l Hx Hl IH]; [done|]. by rewrite filter_cons_False.
Qed.

Lemma Forall_filter_sub (Q : A -> Prop) l : Forall Q l -> Forall Q (filter P l).
Proof.
  rewrite !Forall_forall. intros HQ x. rewrite list_elem_of_filter.
  intros [_ Hx]. by apply HQ.
Qed.

Lemma Forall_filter_holds l : Forall P (filter P l).
Proof. apply Forall_forall. intros x. rewrite list_elem_of_filter. tauto. Qed.

Lemma StronglySorted_filter R l : StronglySorted R l -> StronglySorted R (filter P l).
Proof.
  induction 1 as [|x l Hs IH Hx]; [constructor|].
  rewrite filter_cons. case_decide; [|done].
  constructor; [done | by apply Forall_filter_sub].
Qed.
End Filter.

Lemma filter_Forall_ext {A} (P Q : A -> Prop)
    `{!forall x, Decision (P x), !forall x, Decision (Q x)} l :
  Forall (fun x => P x <-> Q x) l -> filter P l = filter Q l.
Proof.
  induction 1 as [|x l Hx _ IH]; [done|]. rewrite !filter_cons, IH.
  repeat case_decide; tauto.
Qed.

(** The sum of an integer measure of the elements. *)
Definition sum_of {A} (f : A -> Z) (l : list A) : Z := foldr (fun x n => f x + n) 0 l.

Lemma sum_of_app {A} (f : A -> Z) l1 l2 : sum_of f (l1 ++ l2) = sum_of f l1 + sum_of f l2.
Proof. induction l1 as [|x l1 IH]; simpl; [done|]. rewrite IH. lia. Qed.

Lemma sum_of_nonneg {A} (f : A -> Z) l : Forall (fun x => 0 <= f x) l -> 0 <= sum_of f l.
Proof. induction 1; simpl; lia. Qed.

#[export] Instance sum_of_perm {A} (f : A -> Z) : Proper ((≡ₚ) ==> eq) (sum_of f).
Proof. intros l l' Hp. induction Hp; simpl; lia. Qed.

Lemma sum_of_filter_split {A} (f : A -> Z) (P : A -> Prop) `{forall x, Decision (P x)} l :
  sum_of f l = sum_of f (filter P l) + sum_of f (filter (fun x => ~ P x) l).
Proof.
  induction l as [|x l IH]; [done|]. rewrite !filter_cons.
  repeat case_decide; simpl; try tauto; lia.
Qed.

Lemma sum_of_filter_le {A} (f : A -> Z) (P : A -> Prop) `{forall x, Decision (P x)} l :
  Forall (fun x => 0 <= f x) l -> sum_of f (filter P l) <= sum_of f l.
Proof.
  intros Hf. rewrite (sum_of_filter_split f P l).
  enough (0 <= sum_of f (filter (fun x => ~ P x) l)) by lia.
  apply sum_of_nonneg. by apply Forall_filter_sub.
Qed.

Lemma sum_of_elem {A} (f : A -> Z) l x :
  Forall (fun x => 0 <= f x) l -> x ∈ l -> f x <= sum_of f l.
Proof.
  intros Hf. induction 1 as [x l | x y l Hx IH]; apply Forall_cons in Hf as [Hy Hl]; simpl.
  - pose proof (sum_of_nonneg f l Hl). lia.
  - specialize (IH Hl). lia.
Qed.

(** The prefix kept while walking back from the end of a slice, and the suffix
    left after walking forward from its start. *)
Fixpoint drop_while {A} (p : A -> bool) (l : list A) : list A :=
  match l with
  | [] => []
  | x :: l' => if p x then drop_while p l' else l
  end.

Definition drop_back {A} (p : A -> bool) (l : list A) : list A :=
  reverse (drop_while p (reverse l)).

Lemma drop_while_suffix {A} (p : A -> bool) l :
  exists k, l = k ++ drop_while p l /\ Forall (fun x => p x = true) k.
Proof.
  induction l as [|x l [k [Hk Hp]]]; simpl; [by exists []|].
  destruct (p x) eqn:E; [|by exists []].
  exists (x :: k). split; [by rewrite Hk at 1 | by constructor].
Qed.

Lemma drop_while_head {A} (p : A -> bool) l x l' :
  drop_while p l = x :: l' -> p x = false.
Proof. induction l as [|y l IH]; simpl; [done|]. case_match; naive_solver. Qed.

Lemma drop_back_prefix {A} (p : A -> bool) l :
  exists k, l = drop_back p l ++ k /\ Forall (fun x => p x = true) k.
Proof.
  destruct (drop_while_suffix p (reverse l)) as [k [Hk Hp]].
  exists (reverse k). split.
  - unfold drop_back. rewrite <- reverse_app, <- Hk. by rewrite reverse_involutive.
  - by rewrite reverse_Permutation.
Qed.

Lemma drop_back_last {A} (p : A -> bool) l l' x :
  drop_back p l = l' ++ [x] -> p x = false.
Proof.
  unfold drop_back. intros H. apply (f_equal reverse) in H.
  rewrite reverse_involutive, reverse_app in H. simpl in H.
  by eapply drop_while_head.
Qed.

Lemma StronglySorted_reverse {A} (R : A -> A -> Prop) l :
  StronglySorted R l -> StronglySorted (flip R) (reverse l).
Proof.
  induction 1 as [|x l Hs IH Hx]; [constructor|]. rewrite reverse_cons.
  apply StronglySorted_app. split_and!; [|done|by repeat constructor].
  intros y z Hy ->%list_elem_of_singleton. rewrite reverse_Permutation in Hy.
  rewrite Forall_forall in Hx. by apply Hx.
Qed.

(** On a list sorted by [f], dropping while below a bound is filtering. *)
Lemma drop_while_sorted {A} (f : A -> Z) c l :
  StronglySorted (fun x y => f x <= f y) l ->
  drop_while (fun x => f x <? c) l = filter (fun x => c <= f x) l.
Proof.
  induction 1 as [|x l Hs IH Hx]; [done|]. cbn [drop_while]. rewrite filter_cons.
  destruct (f x <? c) eqn:E; bool_prop; case_decide; try lia; [done|].
  f_equal. symmetry. apply filter_all. eapply Forall_impl; [exact Hx|]. simpl. lia.
Qed.

Lemma drop_back_sorted {A} (f : A -> Z) c l :
  StronglySorted (fun x y => f x <= f y) l ->
  drop_back (fun x => c <=? f x) l = filter (fun x => f x < c) l.
Proof.
  intros Hs. destruct (drop_back_prefix (fun x => c <=? f x) l) as [k [Hk Hp]].
  rewrite Hk at 2. rewrite filter_app.
  rewrite (filter_none _ k), app_nil_r.
  2:{ eapply Forall_impl; [exact Hp|]. simpl. intros; bool_prop; lia. }
  symmetry. apply filter_all.
  destruct (drop_back _ l) as [|x l' _] eqn:E using rev_ind; [constructor|].
  pose proof (drop_back_last _ _ _ _ E) as Hx. simpl in Hx. bool_prop.
  rewrite Hk in Hs. apply Forall_app. split; [|by apply Forall_singleton; lia].
  apply StronglySorted_app in Hs as (_ & Hs & _).
  apply StronglySorted_app in Hs as (Hl & _ & _).
  apply Forall_forall. intros y Hy.
  specialize (Hl y x Hy (list_elem_of_here _ _)). lia.
Qed.

(** ** Ranging over a map

    Go leaves the order in which [range] visits a map unspecified: code that
    ranges over a map takes the order as a parameter, and what does not depend
    on it is proved for every order. *)
Class RangeOrder := {
  range : forall {A}, list A -> list A;
  range_perm : forall {A} (l : list A), range l ≡ₚ l;
}.

Definition in_key_order : RangeOrder := {| range A l := l; range_perm A l := Permutation_refl l |}.
Definition in_reverse_order : RangeOrder :=
  {| range A l := reverse l; range_perm A l := reverse_Permutation l |}.
