(* ===== verification/Text.v ===== *)
(** * Text: decimal and hexadecimal conversions of Go's [fmt], [strconv],
    [math/big] and [encoding/hex], as far as the program uses them. *)
From Stdlib Require Import DecimalString DecimalFacts DecimalN DecimalZ.
From Stdlib Require Export Strings.Byte Ascii.
From S2P Require Import Prelude.

(** ** Decimal *)

(** [%d] of an unsigned integer. *)
Definition FormatUint (z : Z) : string :=
  NilZero.string_of_uint (N.to_uint (Z.to_N z)).

(** [big.Int.String] and [%d] of a signed integer. *)
Definition IntString (z : Z) : string := NilZero.string_of_int (Z.to_int z).

(** [strconv.ParseUint(s, 10, 64)]: decimal digits only, at least one, and a
    value that fits 64 bits. *)
Definition ParseUint (s : string) : option Z :=
  match NilZero.uint_of_string s with
  | Some d =>
      let z := Z.of_N (N.of_uint d) in
      if z <=? MaxUint64 then Some z else None
  | None => None
  end.

(** [big.Int.SetString(s, 10)]: an optional sign and decimal digits. *)
Definition SetString (s : string) : option Z :=
  match s with
  | String "+"%char s' => option_map (fun d => Z.of_N (N.of_uint d)) (NilZero.uint_of_string s')
  | _ => option_map Z.of_int (NilZero.int_of_string s)
  end.

Lemma to_uint_nonnil n : N.to_uint n <> Decimal.Nil.
Proof. destruct n; [done|]. apply DecimalPos.Unsigned.to_uint_nonnil. Qed.

Lemma ParseUint_FormatUint z : is_u64 z -> ParseUint (FormatUint z) = Some z.
Proof.
  intros Hz. unfold ParseUint, FormatUint.
  rewrite NilZero.usu by apply to_uint_nonnil.
  rewrite Unsigned.of_to, Z2N.id by int_lia.
  by rewrite (proj2 (Z.leb_le _ _)) by int_lia.
Qed.

Lemma FormatUint_inj a b : is_u64 a -> is_u64 b -> FormatUint a = FormatUint b -> a = b.
Proof.
  intros Ha Hb Hab. apply ParseUint_FormatUint in Ha, Hb. congruence.
Qed.

Lemma int_of_IntString z : NilZero.int_of_string (IntString z) = Some (Z.to_int z).
Proof.
  unfold IntString. apply NilZero.isi; destruct z; simpl; try done;
    intros [= H]; by eapply DecimalPos.Unsigned.to_uint_nonnil.
Qed.

Lemma string_of_uint_not_plus d s : NilEmpty.string_of_uint d <> String "+"%char s.
Proof. by destruct d. Qed.

Lemma IntString_not_plus z s : IntString z <> String "+"%char s.
Proof.
  unfold IntString, NilZero.string_of_int, NilZero.string_of_uint.
  destruct (Z.to_int z) as [d|d]; [|done].
  destruct d; [done|..]; apply string_of_uint_not_plus.
Qed.

(** Printing an integer and reading it back gives the integer. *)
Lemma SetString_IntString z : SetString (IntString z) = Some z.
Proof.
  assert (SetString (IntString z) = option_map Z.of_int (NilZero.int_of_string (IntString z))) as ->.
  { unfold SetString. pose proof (IntString_not_plus z) as Hn.
    destruct (IntString z) as [|[[] [] [] [] [] [] [] []] s]; try done.
    by destruct (Hn s). }
  rewrite int_of_IntString. simpl. by rewrite DecimalZ.of_to.
Qed.

(** ** Byte slices

    A [[]byte] is [None] when nil and [Some l] otherwise; [bytes.Equal], [len]
    and iteration see a nil slice as the empty one. *)

Abbreviation slice := (option (list byte)) (only parsing).
Definition contents (s : slice) : list byte := default [] s.

#[export] Instance byte_eq_dec : EqDecision byte.
Proof. intros a b. destruct (Byte.byte_eq_dec a b); [by left | by right]. Defined.

(** [bytes.Equal] *)
Definition BytesEqual (a b : slice) : bool := bool_decide (contents a = contents b).

Lemma BytesEqual_refl a : BytesEqual a a = true.
Proof. by apply bool_decide_eq_true. Qed.
Lemma BytesEqual_sym a b : BytesEqual a b = BytesEqual b a.
Proof. apply bool_decide_ext. done. Qed.

(** [string(b)] *)
Definition string_of_bytes (s : slice) : string :=
  foldr (fun b r => String (ascii_of_byte b) r) EmptyString (contents s).

Lemma string_of_bytes_inj a b :
  string_of_bytes a = string_of_bytes b -> contents a = contents b.
Proof.
  unfold string_of_bytes. generalize (contents a) (contents b).
  induction l as [|x l IH]; intros [|y l']; simpl; try done.
  intros [= Hxy Hl]. f_equal; [|by apply IH].
  rewrite <- (byte_of_ascii_of_byte x), <- (byte_of_ascii_of_byte y). by f_equal.
Qed.

(** ** Hexadecimal *)

Definition hex_digit (n : N) : ascii :=
  ascii_of_N (if (n <? 10)%N then 48 + n else 87 + n)%N.

Definition hex_value (c : ascii) : option N :=
  let n := N_of_ascii c in
  if ((48 <=? n) && (n <=? 57))%N then Some (n - 48)%N
  else if ((97 <=? n) && (n <=? 102))%N then Some (n - 87)%N
  else if ((65 <=? n) && (n <=? 70))%N then Some (n - 55)%N
  else None.

(** [hex.EncodeToString], and [%x] of a byte slice *)
Fixpoint hex_encode (l : list byte) : string :=
  match l with
  | [] => EmptyString
  | b :: l' =>
      String (hex_digit (Byte.to_N b / 16))
        (String (hex_digit (Byte.to_N b mod 16)) (hex_encode l'))
  end.
Definition EncodeToString (s : slice) : string := hex_encode (contents s).

(** [hex.DecodeString]; the result is never nil. *)
Fixpoint hex_decode (s : string) : option (list byte) :=
  match s with
  | EmptyString => Some []
  | String _ EmptyString => None
  | String c (String d s') =>
      match hex_value c, hex_value d, hex_decode s' with
      | Some h, Some l, Some r =>
          match Byte.of_N (16 * h + l) with Some b => Some (b :: r) | None => None end
      | _, _, _ => None
      end
  end.
Definition DecodeString (s : string) : option slice :=
  match hex_decode s with Some l => Some (Some l) | None => None end.

Lemma hex_decode_encode l : hex_decode (hex_encode l) = Some l.
Proof.
  induction l as [|b l IH]; [done|]. simpl. rewrite IH.
  destruct b; reflexivity.
Qed.

Lemma EncodeToString_inj a b :
  EncodeToString a = EncodeToString b -> contents a = contents b.
Proof.
  unfold EncodeToString. intros H. apply (f_equal hex_decode) in H.
  rewrite !hex_decode_encode in H. congruence.
Qed.

Lemma length_hex_encode l : String.length (hex_encode l) = (2 * length l)%nat.
Proof. induction l; simpl; lia. Qed.

(** A separator that cannot occur in the left part determines the split. *)
Fixpoint char_free (c : ascii) (s : string) : bool :=
  match s with
  | EmptyString => true
  | String d s' => negb (Ascii.eqb c d) && char_free c s'
  end.

Lemma append_sep_inj c a b a' b' :
  char_free c a = true -> char_free c a' = true ->
  (a +:+ String c b) = (a' +:+ String c b') -> a = a' /\ b = b'.
Proof.
  revert a'. induction a as [|x a IH]; intros [|x' a']; simpl; intros Ha Ha'.
  - intros [= ->]. done.
  - intros [= <- _]. rewrite Ascii.eqb_refl in Ha'. done.
  - intros [= -> _]. rewrite Ascii.eqb_refl in Ha. done.
  - intros [= -> H]. apply andb_prop in Ha as [_ Ha]. apply andb_prop in Ha' as [_ Ha'].
    destruct (IH a' Ha Ha' H) as [-> ->]. done.
Qed.

Lemma char_free_hex c l :
  hex_value c = None -> char_free c (hex_encode l) = true.
Proof.
  intros Hc. induction l as [|b l IH]; [done|]. simpl. rewrite IH.
  assert (hex_value (hex_digit (Byte.to_N b / 16)) <> None /\
          hex_value (hex_digit (Byte.to_N b mod 16)) <> None) as [H1 H2]
    by (destruct b; done).
  destruct (Ascii.eqb_spec c (hex_digit (Byte.to_N b / 16))) as [->|]; [done|].
  destruct (Ascii.eqb_spec c (hex_digit (Byte.to_N b mod 16))) as [->|]; [done|].
  done.
Qed.

Lemma char_free_app c a b : char_free c (a +:+ b) = char_free c a && char_free c b.
Proof. induction a as [|x a IH]; [done|]. cbn. by rewrite <- andb_assoc, <- IH. Qed.

Lemma append_inj_l s a b : (s +:+ a) = (s +:+ b) -> a = b.
Proof. induction s; simpl; [done|]. intros [= H]. auto. Qed.

Lemma append_assoc (a b c : string) : ((a +:+ b) +:+ c) = (a +:+ (b +:+ c)).
Proof. induction a as [|x a IH]; [done|]. exact (f_equal (String x) IH). Qed.

(** ** Letter case *)

(** [strings.ToLower] on ASCII *)
Definition lower_char (c : ascii) : ascii :=
  let n := Ascii.nat_of_ascii c in
  if (65 <=? n)%nat && (n <=? 90)%nat then Ascii.ascii_of_nat (n + 32) else c.
Fixpoint ToLower (s : string) : string :=
  match s with
  | EmptyString => EmptyString
  | String c s' => String (lower_char c) (ToLower s')
  end.

Lemma lower_char_idem c : lower_char (lower_char c) = lower_char c.
Proof. by destruct c as [[] [] [] [] [] [] [] []]. Qed.
Lemma ToLower_idem s : ToLower (ToLower s) = ToLower s.
Proof. induction s as [|c s IH]; [done|]. cbn. by rewrite lower_char_idem, IH. Qed.

Lemma ToLower_app a b : ToLower (a +:+ b) = (ToLower a +:+ ToLower b).
Proof. induction a as [|x a IH]; [done|]. exact (f_equal (String (lower_char x)) IH). Qed.

(** Every character satisfies a predicate. *)
Fixpoint all_chars (p : ascii -> bool) (s : string) : bool :=
  match s with
  | EmptyString => true
  | String c s' => p c && all_chars p s'
  end.

Lemma all_chars_free p c s : p c = false -> all_chars p s = true -> char_free c s = true.
Proof.
  intros Hc. induction s as [|d s IH]; [done|]. cbn. intros [Hd Hs]%andb_prop.
  destruct (Ascii.eqb_spec c d) as [<-|]; [congruence|]. by apply IH.
Qed.

Lemma all_chars_ToLower p s :
  (forall c, p c = true -> p (lower_char c) = true) -> all_chars p s = true ->
  all_chars p (ToLower s) = true.
Proof.
  intros Hp. induction s as [|c s IH]; [done|]. cbn. intros [Hc Hs]%andb_prop.
  by rewrite Hp, IH.
Qed.

(** ** Network addresses *)

(** [net.JoinHostPort] *)
Definition JoinHostPort (host port : string) : string :=
  if char_free ":" host && char_free "%" host then host +:+ ":" +:+ port
  else "[" +:+ host +:+ "]:" +:+ port.

(** The string before and after the first, and the last, occurrence of a character *)
Fixpoint split_first (c : ascii) (s : string) : option (string * string) :=
  match s with
  | EmptyString => None
  | String d s' =>
      if Ascii.eqb c d then Some (EmptyString, s')
      else match split_first c s' with Some (a, b) => Some (String d a, b) | None => None end
  end.
Fixpoint split_last (c : ascii) (s : string) : option (string * string) :=
  match s with
  | EmptyString => None
  | String d s' =>
      match split_last c s' with
      | Some (a, b) => Some (String d a, b)
      | None => if Ascii.eqb c d then Some (EmptyString, s') else None
      end
  end.

Lemma split_last_free c s : char_free c s = true -> split_last c s = None.
Proof.
  induction s as [|d s IH]; [done|]. cbn. intros [Hd Hs]%andb_prop. rewrite IH by done.
  by destruct (Ascii.eqb c d).
Qed.

Lemma split_last_app c a b : char_free c b = true -> split_last c (a +:+ String c b) = Some (a, b).
Proof.
  intros Hb. induction a as [|d a IH].
  - change ("" +:+ String c b) with (String c b). cbn [split_last].
    by rewrite split_last_free, Ascii.eqb_refl.
  - change ((String d a +:+ String c b)) with (String d (a +:+ String c b)). cbn. by rewrite IH.
Qed.

(** [net.SplitHostPort]; nothing for each of its errors *)
Definition SplitHostPort (hostport : string) : option (string * string) :=
  match split_last ":" hostport with
  | None => None
  | Some (before, port) =>
      match hostport with
      | String "[" rest =>
          match split_first "]" rest with
          | None => None
          | Some (host, after) =>
              if bool_decide (after = String ":" port) && char_free "[" rest && char_free "]" after
              then Some (host, port) else None
          end
      | _ =>
          if char_free ":" before && char_free "[" hostport && char_free "]" hostport
          then Some (before, port) else None
      end
  end.

(** [strings.Trim] *)
Fixpoint trim_left (p : ascii -> bool) (s : string) : string :=
  match s with
  | EmptyString => EmptyString
  | String c s' => if p c then trim_left p s' else s
  end.
Fixpoint trim_right (p : ascii -> bool) (s : string) : string :=
  match s with
  | EmptyString => EmptyString
  | String c s' =>
      match trim_right p s' with
      | EmptyString => if p c then EmptyString else String c EmptyString
      | t => String c t
      end
  end.
Definition Trim (p : ascii -> bool) (s : string) : string := trim_right p (trim_left p s).

Lemma Trim_none p s : all_chars (fun c => negb (p c)) s = true -> Trim p s = s.
Proof.
  intros Hs. unfold Trim.
  assert (trim_left p s = s) as ->.
  { destruct s as [|c s]; [done|]. cbn in *. apply andb_prop in Hs as [Hc _]. by destruct (p c). }
  induction s as [|c s IH]; [done|]. cbn in *. apply andb_prop in Hs as [Hc Hs]. rewrite IH by done.
  destruct s; [by destruct (p c)|done].
Qed.

Lemma trim_right_cons p c s :
  trim_right p (String c s) =
  match trim_right p s with
  | EmptyString => if p c then EmptyString else String c EmptyString
  | t => String c t
  end.
Proof. done. Qed.

Lemma trim_right_idem p s : trim_right p (trim_right p s) = trim_right p s.
Proof.
  induction s as [|c s IH]; [done|]. rewrite trim_right_cons.
  destruct (trim_right p s) as [|d t].
  - destruct (p c) eqn:Hc; [done|]. rewrite trim_right_cons. cbn. by rewrite Hc.
  - by rewrite trim_right_cons, IH.
Qed.

Lemma trim_right_all p s : trim_right p s = "" <-> all_chars p s = true.
Proof.
  induction s as [|c s IH]; [done|]. rewrite trim_right_cons. cbn [all_chars].
  destruct (trim_right p s) as [|d t].
  - rewrite (proj1 IH eq_refl), andb_true_r. by destruct (p c).
  - destruct (all_chars p s); [by specialize (proj2 IH eq_refl)|]. by rewrite andb_false_r.
Qed.

Lemma split_first_free c s : char_free c s = true -> split_first c s = None.
Proof.
  induction s as [|d s IH]; [done|]. cbn. intros [Hd Hs]%andb_prop. rewrite IH by done.
  by destruct (Ascii.eqb c d).
Qed.
Lemma split_first_app c a b : char_free c a = true -> split_first c (a +:+ String c b) = Some (a, b).
Proof.
  induction a as [|d a IH].
  { change ("" +:+ String c b) with (String c b). cbn [split_first]. by rewrite Ascii.eqb_refl. }
  change (String d a +:+ String c b) with (String d (a +:+ String c b)). cbn [split_first char_free].
  intros [Hd Ha]%andb_prop. rewrite IH by done. by destruct (Ascii.eqb c d).
Qed.
Lemma split_first_some c s a b : split_first c s = Some (a, b) -> s = (a +:+ String c b).
Proof.
  revert a b. induction s as [|d s IH]; [done|]. intros a b. cbn. destruct (Ascii.eqb_spec c d) as [->|_].
  - by intros [= <- <-].
  - destruct (split_first c s) as [[a' b']|] eqn:E; [|done]. intros [= <- <-]. by rewrite (IH _ _ eq_refl).
Qed.

Lemma append_sep_inj_r c a b a' b' :
  char_free c b = true -> char_free c b' = true ->
  (a +:+ String c b) = (a' +:+ String c b') -> a = a' /\ b = b'.
Proof.
  intros Hb Hb' E. pose proof (split_last_app c a b Hb) as H1. pose proof (split_last_app c a' b' Hb') as H2.
  rewrite E, H2 in H1. by injection H1 as -> ->.
Qed.

Lemma uint_free d : char_free ":" (NilEmpty.string_of_uint d) = true.
Proof. induction d; [done|exact IHd..]. Qed.

Lemma IntString_free z : char_free ":" (IntString z) = true.
Proof.
  unfold IntString. assert (forall d, char_free ":" (NilZero.string_of_uint d) = true) as Hu.
  { intros d. destruct d; first [done | exact (uint_free _)]. }
  destruct (Z.to_int z) as [d|d]; [apply Hu|]. cbn. apply Hu.
Qed.

Lemma IntString_inj a b : IntString a = IntString b -> a = b.
Proof. intros E%(f_equal SetString). rewrite !SetString_IntString in E. by injection E. Qed.

Lemma char_free_substring c n m s : char_free c s = true -> char_free c (String.substring n m s) = true.
Proof.
  revert n m. induction s as [|d s IH]; intros n m; [by destruct n, m|]. intros Hs.
  pose proof Hs as Hs'. cbn in Hs. apply andb_prop in Hs as [Hd Hs].
  destruct n as [|n]; [|by apply IH]. destruct m as [|m]; [done|].
  change (String.substring 0 (S m) (String d s)) with (String d (String.substring 0 m s)).
  cbn. rewrite Hd. by apply IH.
Qed.
