(* ===== verification/Float64.v ===== *)
(** * Float64: the [float64] arithmetic of the program, on the IEEE 754
    specification of the Standard Library ([spec_float] with 53 bits of
    precision and exponent bound 1024), so that every price is computable. *)
From Stdlib Require Export SpecFloat.
From S2P Require Import Prelude.

Abbreviation float64 := spec_float (only parsing).

#[export] Instance spec_float_eq_dec : EqDecision spec_float.
Proof. solve_decision. Defined.

Definition prec64 : Z := 53.
Definition emax64 : Z := 1024.

Definition fdiv : float64 -> float64 -> float64 := SFdiv prec64 emax64.
Definition fmul : float64 -> float64 -> float64 := SFmul prec64 emax64.
Definition fadd : float64 -> float64 -> float64 := SFadd prec64 emax64.
Definition fsub : float64 -> float64 -> float64 := SFsub prec64 emax64.

(** [float64(z)] of an integer, rounded to the nearest, ties to even *)
Definition float_of_Z (z : Z) : float64 := binary_normalize prec64 emax64 z 0 false.

Definition fzero : float64 := S754_zero false.

(** [a > b] and the like; every comparison with a NaN is false. *)
Definition fgt (a b : float64) : bool := SFltb b a.
Definition fge (a b : float64) : bool := SFleb b a.

Definition IsNaN (f : float64) : bool :=
  match f with S754_nan => true | _ => false end.
Definition IsInf (f : float64) : bool :=
  match f with S754_infinity _ => true | _ => false end.

(** [big.Rat.Float64]: the nearest float to an exact rational. *)
Definition RatFloat64 (q : rat) : float64 :=
  match Qnum q with
  | 0 => fzero
  | n =>
      let '(m, e, l) := SFdiv_core_binary prec64 emax64 (Z.abs n) 0 (Zpos (Qden q)) 0 in
      binary_round_aux prec64 emax64 (n <? 0) m e l
  end.

(** The exact value of a finite float. *)
Definition Q_of_float (f : float64) : rat :=
  match f with
  | S754_finite s m e =>
      let z := if s then Zneg m else Zpos m in
      if 0 <=? e then Qred (inject_Z (z * 2 ^ e))
      else Qred (z # Z.to_pos (2 ^ (- e)))
  | _ => 0%Q
  end.

(** [int64(f)]: truncation toward zero; the program converts only values that
    are within range. *)
Definition int64_of_float (f : float64) : Z :=
  let q := Q_of_float f in Z.quot (Qnum q) (Zpos (Qden q)).

(** [time.Duration.Seconds] *)
Definition Seconds (d : duration) : float64 :=
  fadd (float_of_Z (Z.quot d 1000000000))
       (fdiv (float_of_Z (Z.rem d 1000000000)) (float_of_Z 1000000000)).

(** ** Shortest decimal

    [strconv.FormatFloat(f, 'g', -1, 64)] prints the decimal with the fewest
    digits that reads back as [f], and the nearest one among those. *)

(** The decimal exponent [k] with [10^(k-1) <= n/d < 10^k]. *)
Fixpoint exp_up (fuel : nat) (n d : Z) (k : Z) : Z :=
  match fuel with
  | O => k
  | S fuel' => if n <? d then k else exp_up fuel' n (d * 10) (k + 1)
  end.
Fixpoint exp_down (fuel : nat) (n d : Z) (k : Z) : Z :=
  match fuel with
  | O => k
  | S fuel' => if d <=? n * 10 then k else exp_down fuel' (n * 10) d (k - 1)
  end.
Definition decimal_exp (n d : Z) : Z :=
  if d <=? n then exp_up 400 n d 0 else exp_down 400 n d 0.

(** [c * 10^(-s)] *)
Definition scaled (c s : Z) : rat :=
  if 0 <=? s then SetFrac c (10 ^ s) else SetFrac (c * 10 ^ (- s)) 1.

Definition digits_candidate (f : float64) (v : rat) (nd : Z) : option rat :=
  let n := Qnum v in let d := Zpos (Qden v) in
  let s := nd - decimal_exp n d in
  let '(n', d') := if 0 <=? s then (n * 10 ^ s, d) else (n, d * 10 ^ (- s)) in
  let lo := n' / d' in
  let r := n' mod d' in
  let ok c := bool_decide (RatFloat64 (scaled c s) = f) in
  if r =? 0 then (if ok lo then Some (scaled lo s) else None)
  else
    match ok lo, ok (lo + 1) with
    | true, true =>
        if (2 * r <? d') || ((2 * r =? d') && Z.even lo)
        then Some (scaled lo s) else Some (scaled (lo + 1) s)
    | true, false => Some (scaled lo s)
    | false, true => Some (scaled (lo + 1) s)
    | false, false => None
    end.

Fixpoint shortest_from (fuel : nat) (f : float64) (v : rat) (nd : Z) : rat :=
  match fuel with
  | O => v
  | S fuel' =>
      match digits_candidate f v nd with
      | Some q => q
      | None => shortest_from fuel' f v (nd + 1)
      end
  end.

(** The rational read back from the shortest decimal of a finite float; at most
    17 digits are needed. *)
Definition shortest_decimal (f : float64) : rat :=
  match f with
  | S754_finite false _ _ => shortest_from 17 f (Q_of_float f) 1
  | S754_finite true m e =>
      Qred (- shortest_from 17 (S754_finite false m e) (Q_of_float (S754_finite false m e)) 1)
  | _ => 0%Q
  end.

Example shortest_three_quarters :
  shortest_decimal (RatFloat64 (3 # 4)) = (3 # 4)%Q.
Proof. vm_compute. reflexivity. Qed.

Example shortest_one_twentieth :
  shortest_decimal (RatFloat64 (1 # 20)) = (1 # 20)%Q.
Proof. vm_compute. reflexivity. Qed.

Example shortest_one_third :
  shortest_decimal (RatFloat64 (1 # 3)) = (3333333333333333 # 10000000000000000)%Q.
Proof. vm_compute. reflexivity. Qed.

Example shortest_large :
  shortest_decimal (float_of_Z 123456789) = (123456789 # 1)%Q.
Proof. vm_compute. reflexivity. Qed.

Example seconds_truncated : int64_of_float (Seconds (-2500000000)) = -2.
Proof. vm_compute. reflexivity. Qed.

(** [finiteFloat64]: the float approximation of a rational, unless it
    overflows. *)
Definition finiteFloat64 (value : rat) : option float64 :=
  let approximation := RatFloat64 value in
  if IsInf approximation || IsNaN approximation then None else Some approximation.
