(* ===== verification/Common.v ===== *)
(** * Common: assets ([common/types.go]).

    An asset class is a pair of byte slices; the program compares assets by
    content, so [AssetClass] carries an equivalence coarser than equality (a nil
    and an empty policy id denote the same asset) that every operation on assets
    respects. *)
From S2P Require Import Prelude.
From S2P Require Import Text.

Record AssetClass := mkAssetClass {
  PolicyId : option (list byte);
  Name : option (list byte);
}.

Record AssetAmount := mkAssetAmount {
  aa_Class : AssetClass;
  aa_Amount : Z;
}.

#[export] Instance AssetClass_eq_dec : EqDecision AssetClass.
Proof. solve_decision. Defined.
#[export] Instance AssetAmount_eq_dec : EqDecision AssetAmount.
Proof. solve_decision. Defined.

(** [AssetClass.IsLovelace] *)
Definition IsLovelace (a : AssetClass) : bool :=
  Nat.eqb (length (contents (PolicyId a))) 0 && Nat.eqb (length (contents (Name a))) 0.

Definition PolicyIdHex (a : AssetClass) : string := EncodeToString (PolicyId a).
Definition NameHex (a : AssetClass) : string := EncodeToString (Name a).

Definition Fingerprint (a : AssetClass) : string :=
  if IsLovelace a then "lovelace"
  else PolicyIdHex a +:+ String "."%char (NameHex a).

Inductive asset_error := InvalidPolicyIdHex | InvalidNameHex.

Definition NewAssetClass (policyIdHex nameHex : string) : result asset_error AssetClass :=
  match DecodeString policyIdHex with
  | None => Err InvalidPolicyIdHex
  | Some policyId =>
      match DecodeString nameHex with
      | None => Err InvalidNameHex
      | Some name => Ok (mkAssetClass policyId name)
      end
  end.

(** [Lovelace()] *)
Definition Lovelace : AssetClass := mkAssetClass None None.

(** [AssetAmount.IsAsset]; also the comparisons of asset classes that the
    source writes out with [bytes.Equal]. *)
Definition same_asset (a b : AssetClass) : bool :=
  BytesEqual (PolicyId a) (PolicyId b) && BytesEqual (Name a) (Name b).
Definition IsAsset (a : AssetAmount) (other : AssetClass) : bool :=
  same_asset (aa_Class a) other.

(** [AssetAmount.IsLovelace] *)
Definition aa_IsLovelace (a : AssetAmount) : bool := IsLovelace (aa_Class a).

(** ** The equivalence of assets *)

#[export] Instance asset_equiv : Equiv AssetClass := fun a b =>
  contents (PolicyId a) = contents (PolicyId b) /\ contents (Name a) = contents (Name b).

#[export] Instance asset_equivalence : Equivalence (≡@{AssetClass}).
Proof.
  split.
  - intros a. done.
  - intros a b [H1 H2]. split; congruence.
  - intros a b c [H1 H2] [H3 H4]. split; congruence.
Qed.

Lemma same_asset_spec a b : same_asset a b = true <-> a ≡ b.
Proof.
  unfold same_asset, BytesEqual. rewrite andb_true_iff, !bool_decide_eq_true. done.
Qed.

Lemma same_asset_refl a : same_asset a a = true.
Proof. by apply same_asset_spec. Qed.

#[export] Instance same_asset_proper : Proper ((≡) ==> (≡) ==> eq) same_asset.
Proof.
  intros a a' Ha b b' Hb. apply eq_bool_prop_intro.
  rewrite !Is_true_true, !same_asset_spec. by rewrite Ha, Hb.
Qed.

#[export] Instance IsLovelace_proper : Proper ((≡) ==> eq) IsLovelace.
Proof. intros a b [Hp Hn]. unfold IsLovelace. by rewrite Hp, Hn. Qed.

#[export] Instance Fingerprint_proper : Proper ((≡) ==> eq) Fingerprint.
Proof.
  intros a b Hab. unfold Fingerprint, PolicyIdHex, NameHex, EncodeToString.
  rewrite Hab. destruct Hab as [-> ->]. done.
Qed.

Lemma IsLovelace_spec a : IsLovelace a = true <-> a ≡ Lovelace.
Proof.
  unfold IsLovelace, Lovelace, equiv, asset_equiv. simpl.
  rewrite andb_true_iff, !Nat.eqb_eq, !length_zero_iff_nil. done.
Qed.

Lemma hex_not_l l c s : c = "l"%char -> hex_encode l +:+ String "."%char s <> String c "ovelace".
Proof.
  intros -> H. destruct l as [|b l]; [done|]. simpl in H.
  injection H as H _. destruct b; discriminate H.
Qed.

(** [Fingerprint] is a faithful identifier: two asset classes have the same
    fingerprint exactly when they are the same asset, lovelace included. *)
Theorem Fingerprint_identifies a b : Fingerprint a = Fingerprint b <-> a ≡ b.
Proof.
  split; [|by intros ->].
  unfold Fingerprint, PolicyIdHex, NameHex, EncodeToString.
  destruct (IsLovelace a) eqn:Ha, (IsLovelace b) eqn:Hb.
  - apply IsLovelace_spec in Ha, Hb. by rewrite Ha, Hb.
  - intros H. by edestruct hex_not_l.
  - intros H. by edestruct hex_not_l.
  - intros H. apply append_sep_inj in H as [Hp Hn]; [|by apply char_free_hex..].
    split; by apply EncodeToString_inj.
Qed.

(** An asset class is recovered from its hexadecimal form. *)
Lemma NewAssetClass_hex a :
  exists b, NewAssetClass (PolicyIdHex a) (NameHex a) = Ok b /\ b ≡ a.
Proof.
  unfold NewAssetClass, DecodeString, PolicyIdHex, NameHex, EncodeToString.
  rewrite !hex_decode_encode. by eexists.
Qed.
