(* ===== verification/Pool.v ===== *)
(** * Pool: pool states, prices and constant-product quotes ([dex/models.go]). *)
From S2P Require Import Prelude.
From S2P Require Import Text.
From S2P Require Import Float64.
From S2P Require Import Common.

Record PoolState := mkPoolState {
  ps_PoolId : string;
  ps_Network : string;
  ps_Protocol : string;
  ps_AssetX : AssetAmount;
  ps_AssetY : AssetAmount;
  ps_FeeNum : Z;
  ps_FeeDenom : Z;
  ps_Slot : Z;
  ps_BlockHash : string;
  ps_TxHash : string;
  ps_TxIndex : Z;
  ps_Timestamp : Z;
  ps_UpdatedAt : Z;
  ps_FromMempool : bool;
}.

#[export] Instance PoolState_eq_dec : EqDecision PoolState.
Proof. solve_decision. Defined.

(** The reserves of a pool. *)
Definition ps_X (p : PoolState) : Z := aa_Amount (ps_AssetX p).
Definition ps_Y (p : PoolState) : Z := aa_Amount (ps_AssetY p).

(** The ranges that the Go types give to the fields. *)
Record wf_pool (p : PoolState) : Prop := {
  wf_X : is_u64 (ps_X p);
  wf_Y : is_u64 (ps_Y p);
  wf_FeeNum : is_u64 (ps_FeeNum p);
  wf_FeeDenom : is_u64 (ps_FeeDenom p);
  wf_Slot : is_u64 (ps_Slot p);
}.

(** [cloneBytes]: nil stays nil, an empty slice stays empty. *)
Definition cloneBytes (src : option (list byte)) : option (list byte) :=
  match src with None => None | Some l => Some l end.
Definition cloneAssetAmount (amount : AssetAmount) : AssetAmount :=
  mkAssetAmount
    (mkAssetClass (cloneBytes (PolicyId (aa_Class amount))) (cloneBytes (Name (aa_Class amount))))
    (aa_Amount amount).
Definition ClonePoolState (state : option PoolState) : option PoolState :=
  match state with
  | None => None
  | Some s =>
      Some (mkPoolState (ps_PoolId s) (ps_Network s) (ps_Protocol s)
              (cloneAssetAmount (ps_AssetX s)) (cloneAssetAmount (ps_AssetY s))
              (ps_FeeNum s) (ps_FeeDenom s) (ps_Slot s) (ps_BlockHash s) (ps_TxHash s)
              (ps_TxIndex s) (ps_Timestamp s) (ps_UpdatedAt s) (ps_FromMempool s))
  end.

Definition PriceXY (p : PoolState) : float64 :=
  if ps_X p =? 0 then fzero else fdiv (float_of_Z (ps_Y p)) (float_of_Z (ps_X p)).
Definition PriceYX (p : PoolState) : float64 :=
  if ps_Y p =? 0 then fzero else fdiv (float_of_Z (ps_X p)) (float_of_Z (ps_Y p)).

(** The sum of the reserves, capped instead of wrapped. *)
Definition TVL (p : PoolState) : Z :=
  let sum := u64 (ps_X p + ps_Y p) in
  if sum <? ps_X p then MaxUint64 else sum.

Definition EffectiveFee (p : PoolState) : float64 :=
  if ps_FeeDenom p =? 0 then fzero
  else fsub (float_of_Z 1) (fdiv (float_of_Z (ps_FeeNum p)) (float_of_Z (ps_FeeDenom p))).

Definition colon : string := ":".
Definition pool_key (network protocol poolId : string) : string :=
  network +:+ colon +:+ protocol +:+ colon +:+ poolId.
(** [PoolState.Key] *)
Definition Key (p : PoolState) : string :=
  pool_key (ps_Network p) (ps_Protocol p) (ps_PoolId p).

(** ** Quotes *)

Inductive quote_error :=
| ZeroFeeDenominator
| FeeExceedsDenominator
| AssetNotInPool
| ZeroReserves
| ZeroSwapDenominator
| OutputOverflow.

(** The reserves on the input and output side of a swap of the given asset. *)
Definition quote_reserves (p : PoolState) (assetIn : AssetClass) : option (Z * Z) :=
  let matchesX := same_asset (aa_Class (ps_AssetX p)) assetIn in
  let matchesY := same_asset (aa_Class (ps_AssetY p)) assetIn in
  if matchesX then Some (ps_X p, ps_Y p)
  else if matchesY then Some (ps_Y p, ps_X p)
  else None.

Definition price_impact (reserveIn reserveOut amountIn amountOut : Z) : float64 :=
  let spot := fdiv (float_of_Z reserveOut) (float_of_Z reserveIn) in
  if fgt spot fzero then
    let execution := fdiv (float_of_Z amountOut) (float_of_Z amountIn) in
    fmul (fdiv (fsub spot execution) spot) (float_of_Z 100)
  else fzero.

Definition Quote (p : PoolState) (assetInPolicy assetInName : option (list byte)) (amountIn : Z)
  : result quote_error (Z * float64) :=
  if ps_FeeDenom p =? 0 then Err ZeroFeeDenominator
  else if ps_FeeDenom p <? ps_FeeNum p then Err FeeExceedsDenominator
  else
    match quote_reserves p (mkAssetClass assetInPolicy assetInName) with
    | None => Err AssetNotInPool
    | Some (reserveIn, reserveOut) =>
        if (reserveIn =? 0) || (reserveOut =? 0) then Err ZeroReserves
        else if amountIn =? 0 then Ok (0, fzero)
        else
          let amountInFee := amountIn * ps_FeeNum p in
          let numerator := reserveOut * amountInFee in
          let denominator := reserveIn * ps_FeeDenom p + amountInFee in
          if denominator =? 0 then Err ZeroSwapDenominator
          else
            let out := Z.quot numerator denominator in
            if negb ((0 <=? out) && (out <=? MaxUint64)) then Err OutputOverflow
            else Ok (out, price_impact reserveIn reserveOut amountIn out)
    end.

(** ** Price updates *)

Record PriceUpdate := mkPriceUpdate {
  pu_PoolId : string;
  pu_Protocol : string;
  pu_AssetX : string;
  pu_AssetY : string;
  pu_PriceXY : float64;
  pu_PriceYX : float64;
  pu_ReserveX : Z;
  pu_ReserveY : Z;
  pu_Slot : Z;
  pu_Timestamp : Z;
  pu_PrevPriceXY : float64;
  pu_PriceChangeX : float64;
}.

Definition NewPriceUpdate (state : option PoolState) (prevPrice : float64)
  : option PriceUpdate :=
  match state with
  | None => None
  | Some s =>
      let change :=
        if fgt prevPrice fzero
        then fmul (fdiv (fsub (PriceXY s) prevPrice) prevPrice) (float_of_Z 100)
        else fzero in
      Some (mkPriceUpdate (ps_PoolId s) (ps_Protocol s)
              (Fingerprint (aa_Class (ps_AssetX s))) (Fingerprint (aa_Class (ps_AssetY s)))
              (PriceXY s) (PriceYX s) (ps_X s) (ps_Y s) (ps_Slot s) (ps_Timestamp s)
              prevPrice change)
  end.

(** ** The reference: constant-product swap arithmetic *)

Definition amm_out (rin rout fn fd a : Z) : Z := (rout * (a * fn)) / (rin * fd + a * fn).

Section Amm.
Context (rin rout fn fd : Z).
Context (Hrin : 0 < rin) (Hrout : 0 < rout) (Hfn : 0 <= fn <= fd) (Hfd : 0 < fd).

Lemma amm_den_pos a : 0 <= a -> 0 < rin * fd + a * fn.
Proof. nia. Qed.

Lemma amm_out_mul a :
  0 <= a -> amm_out rin rout fn fd a * (rin * fd + a * fn) <= rout * (a * fn).
Proof.
  intros Ha. unfold amm_out. rewrite Z.mul_comm.
  apply Z.mul_div_le. by apply amm_den_pos.
Qed.

Lemma amm_out_range a : 0 <= a -> 0 <= amm_out rin rout fn fd a < rout.
Proof.
  intros Ha. pose proof (amm_den_pos a Ha) as Hd. unfold amm_out. split.
  - apply Z.div_pos; [|lia]. apply Z.mul_nonneg_nonneg; nia.
  - apply Z.div_lt_upper_bound; nia.
Qed.

(** The product of the reserves does not decrease. *)
Lemma amm_out_product a :
  0 <= a ->
  rin * rout <= (rin + a) * (rout - amm_out rin rout fn fd a).
Proof.
  intros Ha. pose proof (amm_out_mul a Ha) as Hm.
  pose proof (amm_out_range a Ha) as Ho.
  set (o := amm_out rin rout fn fd a) in *.
  assert (o * rin * fd <= (rout - o) * (a * fd)) as H.
  { transitivity ((rout - o) * (a * fn)); [nia|].
    apply Z.mul_le_mono_nonneg_l; [lia|]. apply Z.mul_le_mono_nonneg_l; lia. }
  assert (o * rin <= (rout - o) * a) by nia. nia.
Qed.

Lemma amm_out_mono a b :
  0 <= a <= b -> amm_out rin rout fn fd a <= amm_out rin rout fn fd b.
Proof.
  intros Hab. pose proof (amm_out_mul a ltac:(lia)) as Hm.
  pose proof (amm_out_range a ltac:(lia)) as Ho.
  pose proof (amm_den_pos b ltac:(lia)) as Hb.
  unfold amm_out at 2. apply Z.div_le_lower_bound; [lia|].
  set (o := amm_out rin rout fn fd a) in *. clearbody o.
  assert (o * (rin * fd) <= (rout - o) * (a * fn)) by nia.
  assert ((rout - o) * (a * fn) <= (rout - o) * (b * fn)).
  { apply Z.mul_le_mono_nonneg_l; [lia|]. apply Z.mul_le_mono_nonneg_r; lia. }
  nia.
Qed.
End Amm.

(** Swapping the proceeds back returns at most the amount put in. *)
Lemma amm_round_trip rin rout fn fd a :
  0 < rin -> 0 < rout -> 0 <= fn <= fd -> 0 < fd -> 0 <= a ->
  let out := amm_out rin rout fn fd a in
  amm_out (rout - out) (rin + a) fn fd out <= a.
Proof.
  intros Hrin Hrout Hfn Hfd Ha out.
  pose proof (amm_out_range rin rout fn fd Hrin Hrout Hfn Hfd a Ha) as Ho.
  pose proof (amm_out_product rin rout fn fd Hrin Hrout Hfn Hfd a Ha) as Hp.
  fold out in Ho, Hp. clearbody out.
  pose proof (amm_out_product (rout - out) (rin + a) fn fd
                ltac:(lia) ltac:(lia) Hfn Hfd out ltac:(lia)) as Hq.
  pose proof (amm_out_range (rout - out) (rin + a) fn fd
                ltac:(lia) ltac:(lia) Hfn Hfd out ltac:(lia)) as Hb.
  set (back := amm_out (rout - out) (rin + a) fn fd out) in *. clearbody back.
  replace (rout - out + out) with rout in Hq by lia.
  destruct (Z.le_gt_cases back a); [done|]. nia.
Qed.

(** ** What a quote is *)

Lemma quote_reserves_u64 p asset rin rout :
  wf_pool p -> quote_reserves p asset = Some (rin, rout) -> is_u64 rin /\ is_u64 rout.
Proof. intros [] H. unfold quote_reserves in H. go_cases; done. Qed.

(** A pool that can quote a swap of [asset] against reserves [rin] and [rout]. *)
Record quotable (p : PoolState) (asset : AssetClass) (rin rout : Z) : Prop := {
  qt_denom : 0 < ps_FeeDenom p;
  qt_fee : 0 <= ps_FeeNum p <= ps_FeeDenom p;
  qt_reserves : quote_reserves p asset = Some (rin, rout);
  qt_in : 0 < rin;
  qt_out : 0 < rout <= MaxUint64;
}.

Lemma Quote_value p pol nm rin rout a :
  quotable p (mkAssetClass pol nm) rin rout -> 0 <= a ->
  exists impact, Quote p pol nm a = Ok (amm_out rin rout (ps_FeeNum p) (ps_FeeDenom p) a, impact).
Proof.
  intros [Hd Hf Hr Hi Ho] Ha. unfold Quote.
  rewrite (proj2 (Z.eqb_neq _ _)) by lia.
  rewrite (proj2 (Z.ltb_ge _ _)) by lia. rewrite Hr.
  rewrite !(proj2 (Z.eqb_neq _ 0)) by lia. simpl.
  destruct (Z.eqb_spec a 0) as [->|Ha0].
  { eexists. unfold amm_out. rewrite Z.mul_0_l, Z.mul_0_r, Z.div_0_l by nia. done. }
  pose proof (amm_den_pos rin (ps_FeeNum p) (ps_FeeDenom p) Hi Hf Hd a Ha) as Hden.
  rewrite (proj2 (Z.eqb_neq _ _)) by lia.
  rewrite Z.quot_div_nonneg by nia.
  fold (amm_out rin rout (ps_FeeNum p) (ps_FeeDenom p) a).
  pose proof (amm_out_range rin rout _ _ Hi (proj1 Ho) Hf Hd a Ha) as Hrange.
  rewrite (proj2 (Z.leb_le _ _)), (proj2 (Z.leb_le _ _)) by lia. by eexists.
Qed.

Lemma Quote_ok_quotable p pol nm a res :
  wf_pool p -> Quote p pol nm a = Ok res ->
  exists rin rout, quotable p (mkAssetClass pol nm) rin rout.
Proof.
  intros Hwf H. unfold Quote in H.
  destruct (Z.eqb_spec (ps_FeeDenom p) 0); [done|].
  destruct (Z.ltb_spec (ps_FeeDenom p) (ps_FeeNum p)); [done|].
  destruct (quote_reserves p _) as [[rin rout]|] eqn:Hr; [|done].
  pose proof (quote_reserves_u64 _ _ _ _ Hwf Hr) as [Hi Ho]. destruct Hwf.
  destruct ((rin =? 0) || (rout =? 0)) eqn:Hz; [done|]. bool_prop.
  exists rin, rout. split; int_lia || done.
Qed.

(** C35: a swap never decreases the product of the reserves and never empties the
    output side: if [Quote] answers [out] for an input of [a], then the reserves
    after the swap satisfy [(in + a) * (out_reserve - out) >= in * out_reserve]
    and [out < out_reserve]. *)
Theorem Quote_constant_product p pol nm a out impact rin rout :
  wf_pool p -> is_u64 a ->
  quote_reserves p (mkAssetClass pol nm) = Some (rin, rout) ->
  Quote p pol nm a = Ok (out, impact) ->
  0 <= out < rout /\ rin * rout <= (rin + a) * (rout - out).
Proof.
  intros Hwf Ha Hr H. pose proof (Quote_ok_quotable _ _ _ _ _ Hwf H) as (ri & ro & Hq).
  assert ((ri, ro) = (rin, rout)) as [= -> ->] by (destruct Hq; congruence).
  destruct (Quote_value p pol nm rin rout a Hq ltac:(int_lia)) as [i Hv].
  rewrite Hv in H. injection H as <- <-. destruct Hq.
  split; [apply amm_out_range | apply amm_out_product]; int_lia.
Qed.

(** A pool that cannot quote is rejected by one of the first four tests. *)
Lemma Quote_rejects p pol nm a e :
  wf_pool p -> 0 <= a -> Quote p pol nm a = Err e ->
  e = ZeroFeeDenominator \/ e = FeeExceedsDenominator \/ e = AssetNotInPool \/ e = ZeroReserves.
Proof.
  intros Hwf Ha H. pose proof H as H'. unfold Quote in H.
  destruct (Z.eqb_spec (ps_FeeDenom p) 0); [naive_solver|].
  destruct (Z.ltb_spec (ps_FeeDenom p) (ps_FeeNum p)); [naive_solver|].
  destruct (quote_reserves p _) as [[rin rout]|] eqn:Hr; [|naive_solver].
  destruct ((rin =? 0) || (rout =? 0)) eqn:Hz; [naive_solver|]. bool_prop.
  pose proof (quote_reserves_u64 _ _ _ _ Hwf Hr) as [Hi Ho]. destruct Hwf.
  destruct (Quote_value p pol nm rin rout a) as [i Hv]; [split; int_lia || done | done |].
  congruence.
Qed.

(** [Quote] succeeds exactly when the fee multiplier is a fraction of at most
    one, the asset is in the pool and both reserves are positive; the two
    remaining error paths (zero swap denominator, output overflow) are
    unreachable for 64-bit pools. *)
Theorem Quote_succeeds_iff p pol nm a :
  wf_pool p -> is_u64 a ->
  (is_ok (Quote p pol nm a) = true <->
     exists rin rout, quotable p (mkAssetClass pol nm) rin rout) /\
  Quote p pol nm a <> Err ZeroSwapDenominator /\
  Quote p pol nm a <> Err OutputOverflow.
Proof.
  intros Hwf Ha. split; [split|split].
  - destruct (Quote p pol nm a) eqn:H; [intros _ | done]. by eapply Quote_ok_quotable.
  - intros (rin & rout & Hq).
    destruct (Quote_value p pol nm rin rout a Hq) as [i ->]; [int_lia | done].
  - intros H. apply Quote_rejects in H; [naive_solver | done | int_lia].
  - intros H. apply Quote_rejects in H; [naive_solver | done | int_lia].
Qed.

(** The conditions in the form in which the callers meet them. *)
Lemma Quote_accepts p pol nm a :
  wf_pool p -> is_u64 a -> 0 < ps_FeeDenom p -> ps_FeeNum p <= ps_FeeDenom p ->
  ps_X p <> 0 -> ps_Y p <> 0 ->
  same_asset (aa_Class (ps_AssetX p)) (mkAssetClass pol nm) = true \/
  same_asset (aa_Class (ps_AssetY p)) (mkAssetClass pol nm) = true ->
  is_ok (Quote p pol nm a) = true.
Proof.
  intros Hwf Ha Hd Hn Hx Hy Hasset.
  assert (exists rin rout, quotable p (mkAssetClass pol nm) rin rout) as (rin & rout & Hq).
  { destruct Hwf. destruct (same_asset (aa_Class (ps_AssetX p)) (mkAssetClass pol nm)) eqn:E.
    - exists (ps_X p), (ps_Y p). split; try int_lia. unfold quote_reserves. by rewrite E.
    - exists (ps_Y p), (ps_X p). destruct Hasset as [|E']; [done|].
      split; try int_lia. unfold quote_reserves. by rewrite E, E'. }
  destruct (Quote_value p pol nm rin rout a Hq) as [i ->]; [int_lia | done].
Qed.

(** A larger input never yields a smaller output. *)
Theorem Quote_monotone p pol nm a b out out' i i' :
  wf_pool p -> is_u64 a -> is_u64 b -> a <= b ->
  Quote p pol nm a = Ok (out, i) -> Quote p pol nm b = Ok (out', i') -> out <= out'.
Proof.
  intros Hwf Ha Hb Hab H H'.
  pose proof (Quote_ok_quotable _ _ _ _ _ Hwf H) as (rin & rout & Hq).
  destruct (Quote_value p pol nm rin rout a Hq ltac:(int_lia)) as [j Hv].
  destruct (Quote_value p pol nm rin rout b Hq ltac:(int_lia)) as [j' Hv'].
  destruct Hq. assert (out = amm_out rin rout (ps_FeeNum p) (ps_FeeDenom p) a) as -> by congruence.
  assert (out' = amm_out rin rout (ps_FeeNum p) (ps_FeeDenom p) b) as -> by congruence.
  apply amm_out_mono; int_lia.
Qed.

(** The pool after a swap of [a] in and [out] out. *)
Definition set_amount (x : AssetAmount) (n : Z) : AssetAmount := mkAssetAmount (aa_Class x) n.
Definition with_reserves (p : PoolState) (x y : Z) : PoolState :=
  mkPoolState (ps_PoolId p) (ps_Network p) (ps_Protocol p)
    (set_amount (ps_AssetX p) x) (set_amount (ps_AssetY p) y)
    (ps_FeeNum p) (ps_FeeDenom p) (ps_Slot p) (ps_BlockHash p) (ps_TxHash p)
    (ps_TxIndex p) (ps_Timestamp p) (ps_UpdatedAt p) (ps_FromMempool p).

(** No round trip is profitable: swapping [a] of X into Y and then the
    proceeds back, at the reserves the first swap leaves, returns at most [a]. *)
Theorem Quote_round_trip p a out i :
  wf_pool p -> is_u64 a -> is_u64 (ps_X p + a) ->
  same_asset (aa_Class (ps_AssetX p)) (aa_Class (ps_AssetY p)) = false ->
  Quote p (PolicyId (aa_Class (ps_AssetX p))) (Name (aa_Class (ps_AssetX p))) a = Ok (out, i) ->
  exists back j,
    Quote (with_reserves p (ps_X p + a) (ps_Y p - out))
      (PolicyId (aa_Class (ps_AssetY p))) (Name (aa_Class (ps_AssetY p))) out = Ok (back, j)
    /\ back <= a.
Proof.
  intros Hwf Ha Hxa Hne H.
  pose proof (Quote_ok_quotable _ _ _ _ _ Hwf H) as (rin & rout & Hq).
  destruct (Quote_value _ _ _ rin rout a Hq ltac:(int_lia)) as [j Hv].
  assert (out = amm_out rin rout (ps_FeeNum p) (ps_FeeDenom p) a) as Hout by congruence.
  destruct Hq as [Hd Hf Hr Hi Ho].
  assert (rin = ps_X p /\ rout = ps_Y p) as [-> ->].
  { unfold quote_reserves in Hr. destruct (aa_Class (ps_AssetX p)) as [px nx] eqn:E.
    simpl in Hr. rewrite same_asset_refl in Hr. by injection Hr. }
  pose proof (amm_out_range (ps_X p) (ps_Y p) _ _ Hi (proj1 Ho) Hf Hd a ltac:(int_lia)) as Hrange.
  rewrite <- Hout in Hrange.
  destruct (Quote_value (with_reserves p (ps_X p + a) (ps_Y p - out))
    (PolicyId (aa_Class (ps_AssetY p))) (Name (aa_Class (ps_AssetY p)))
    (ps_Y p - out) (ps_X p + a) out) as [k Hk]; [|lia|].
  - split; cbn; try int_lia. unfold quote_reserves; cbn.
    destruct (aa_Class (ps_AssetY p)) as [py ny]; cbn. rewrite Hne, same_asset_refl. done.
  - eexists _, k. split; [exact Hk|]. cbn. rewrite Hout.
    apply amm_round_trip; int_lia.
Qed.

(** [TVL] is the sum of the reserves, saturated at the largest 64-bit value:
    it never wraps to a small value. *)
Theorem TVL_saturates p :
  wf_pool p -> TVL p = Z.min (ps_X p + ps_Y p) MaxUint64.
Proof.
  intros []. unfold TVL. rewrite u64_add_cases by done.
  case_decide; case_match eqn:E; bool_prop; int_lia.
Qed.

Lemma ClonePoolState_id s : ClonePoolState s = s.
Proof.
  destruct s as [[? ? ? [[[] []] ?] [[[] []] ?] ? ? ? ? ? ? ? ? ?]|]; reflexivity.
Qed.

(** ** Sample pool: the theorems above at concrete inputs *)

Definition sample_token : AssetClass :=
  mkAssetClass (Some [x01; x02; x03]) (Some [x55; x53; x44]).
Definition sample_pool : PoolState :=
  mkPoolState "pool1" "mainnet" "cswap"
    (mkAssetAmount Lovelace 10000000000) (mkAssetAmount sample_token 4000000000)
    997 1000 100 "block" "tx" 0 1000 1000 false.

Lemma wf_sample_pool : wf_pool sample_pool.
Proof. split; vm_compute; split; discriminate. Qed.

Ltac u64_closed := vm_compute; split; discriminate.

Lemma Quote_constant_product_witness :
  exists out impact,
    Quote sample_pool None None 1000000 = Ok (out, impact) /\
    0 <= out < 4000000000 /\
    10000000000 * 4000000000 <= (10000000000 + 1000000) * (4000000000 - out).
Proof.
  eexists _, _. split; [vm_compute; reflexivity|].
  eapply (Quote_constant_product sample_pool None None 1000000);
    [exact wf_sample_pool | u64_closed | reflexivity | vm_compute; reflexivity].
Defined.

Lemma Quote_succeeds_iff_witness :
  Quote sample_pool None None 5 <> Err OutputOverflow.
Proof.
  apply (Quote_succeeds_iff sample_pool None None 5); [exact wf_sample_pool | u64_closed].
Defined.

Lemma Quote_monotone_witness :
  exists out out' i i',
    Quote sample_pool None None 1000 = Ok (out, i) /\
    Quote sample_pool None None 2000 = Ok (out', i') /\ out <= out'.
Proof.
  eexists _, _, _, _. split; [vm_compute; reflexivity|]. split; [vm_compute; reflexivity|].
  eapply (Quote_monotone sample_pool None None 1000 2000);
    [exact wf_sample_pool | u64_closed | u64_closed | lia
    | vm_compute; reflexivity | vm_compute; reflexivity].
Defined.

Lemma Quote_round_trip_witness :
  exists out i back j,
    Quote sample_pool None None 1000000 = Ok (out, i) /\
    Quote (with_reserves sample_pool (10000000000 + 1000000) (4000000000 - out))
      (Some [x01; x02; x03]) (Some [x55; x53; x44]) out = Ok (back, j) /\ back <= 1000000.
Proof.
  eexists _, _.
  assert (exists back j,
    Quote (with_reserves sample_pool (10000000000 + 1000000) (4000000000 - 398760))
      (Some [x01; x02; x03]) (Some [x55; x53; x44]) 398760 = Ok (back, j) /\ back <= 1000000)
    as (back & j & H).
  { eapply (Quote_round_trip sample_pool 1000000 398760);
      [exact wf_sample_pool | u64_closed | u64_closed | reflexivity | vm_compute; reflexivity]. }
  exists back, j. split; [vm_compute; reflexivity | exact H].
Defined.

Lemma TVL_saturates_witness : TVL sample_pool = 14000000000.
Proof. rewrite (TVL_saturates sample_pool wf_sample_pool). reflexivity. Defined.
