(* ===== verification/Activity.v ===== *)
(** * Activity: the rolling swap-activity tracker
    ([dex/activity.go], [dex/activity_state.go]). *)
From S2P Require Import Prelude.
From S2P Require Import Text.
From S2P Require Import Common.
From S2P Require Import Pool.

Inductive activity_error :=
| ErrInvalidActivityWindow
| ErrMismatchedPoolTransition
| ErrOutOfOrderActivity
| ErrVolumeOverflow
| ErrInvalidActivityState
| ErrActivityWindowChanged.

Record SwapTransition := mkSwap {
  sw_PoolID : string;
  sw_Network : string;
  sw_Protocol : string;
  sw_AssetX : AssetClass;
  sw_AssetY : AssetClass;
  sw_AmountX : Z;
  sw_AmountY : Z;
  sw_InputIsX : bool;
  sw_Slot : Z;
  sw_BlockHash : string;
  sw_TxHash : string;
  sw_TxIndex : Z;
}.

#[export] Instance SwapTransition_eq_dec : EqDecision SwapTransition.
Proof. solve_decision. Defined.

(** [SwapTransition{}] *)
Definition zeroSwap : SwapTransition :=
  mkSwap "" "" "" Lovelace Lovelace 0 0 false 0 "" "" 0.

Record PoolVolume := mkVolume {
  pv_PoolID : string;
  pv_Network : string;
  pv_Protocol : string;
  pv_AssetX : AssetClass;
  pv_AssetY : AssetClass;
  pv_VolumeX : Z;
  pv_VolumeY : Z;
  pv_SwapCount : Z;
  pv_WindowSlots : Z;
  pv_WindowEnd : Z;
  pv_FirstSwapSlot : Z;
  pv_LastSwapSlot : Z;
}.

(** [PoolVolume.Key], and the key of the pool a swap belongs to. *)
Definition pv_Key (v : PoolVolume) : string :=
  pool_key (pv_Network v) (pv_Protocol v) (pv_PoolID v).
Definition sw_Key (s : SwapTransition) : string :=
  pool_key (sw_Network s) (sw_Protocol s) (sw_PoolID s).

Record ActivityTracker := mkTracker {
  windowSlots : Z;
  latestSlot : Z;
  swaps : gmap string (list SwapTransition);
}.

Definition NewActivityTracker (w : Z) : result activity_error ActivityTracker :=
  if w =? 0 then Err ErrInvalidActivityWindow else Ok (mkTracker w 0 ∅).

(** The swaps retained under a key; a missing key reads as the empty slice. *)
Definition swaps_of (t : ActivityTracker) (k : string) : list SwapTransition :=
  default [] (swaps t !! k).

(** The first slot inside the window that ends at [atSlot]. *)
Definition cutoff_at (w atSlot : Z) : Z := if w <? atSlot then atSlot - w else 0.

Definition InferSwapTransition (previous current : option PoolState)
  : result activity_error (option SwapTransition) :=
  match previous, current with
  | Some p, Some c =>
      if ps_FromMempool p || ps_FromMempool c then Ok None
      else if negb (bool_decide (Key p = Key c))
              || negb (IsAsset (ps_AssetX p) (aa_Class (ps_AssetX c)))
              || negb (IsAsset (ps_AssetY p) (aa_Class (ps_AssetY c)))
      then Err ErrMismatchedPoolTransition
      else
        let xIn := ps_X p <? ps_X c in
        let xOut := ps_X c <? ps_X p in
        let yIn := ps_Y p <? ps_Y c in
        let yOut := ps_Y c <? ps_Y p in
        if negb ((xIn && yOut) || (xOut && yIn)) then Ok None
        else
          let '(amountX, amountY) :=
            if xIn then (u64 (ps_X c - ps_X p), u64 (ps_Y p - ps_Y c))
            else (u64 (ps_X p - ps_X c), u64 (ps_Y c - ps_Y p)) in
          Ok (Some (mkSwap (ps_PoolId c) (ps_Network c) (ps_Protocol c)
                      (aa_Class (ps_AssetX c)) (aa_Class (ps_AssetY c))
                      amountX amountY xIn (ps_Slot c) (ps_BlockHash c)
                      (ps_TxHash c) (ps_TxIndex c)))
  | _, _ => Ok None
  end.

(** [prune]: drop the swaps below the window, and the keys left empty. *)
Definition prune_list (cutoff : Z) (l : list SwapTransition) : option (list SwapTransition) :=
  match drop_while (fun s => sw_Slot s <? cutoff) l with
  | [] => None
  | l' => Some l'
  end.
Definition prune (atSlot : Z) (t : ActivityTracker) : ActivityTracker :=
  let cutoff := cutoff_at (windowSlots t) atSlot in
  mkTracker (windowSlots t) (latestSlot t) (omap (prune_list cutoff) (swaps t)).

(** [t.latestSlot = slot] followed by [t.prune(slot)] *)
Definition advance (slot : Z) (t : ActivityTracker) : ActivityTracker :=
  prune slot (mkTracker (windowSlots t) slot (swaps t)).

(** [t.swaps[key] = append(t.swaps[key], transition)] *)
Definition append_swap (k : string) (s : SwapTransition) (t : ActivityTracker) : ActivityTracker :=
  mkTracker (windowSlots t) (latestSlot t) (<[k := swaps_of t k ++ [s]]> (swaps t)).

Definition Observe (previous current : option PoolState) (t : ActivityTracker)
  : ActivityTracker * result activity_error bool :=
  match current with
  | None => (t, Ok false)
  | Some c =>
      if ps_FromMempool c then (t, Ok false)
      else if ps_Slot c <? latestSlot t then (t, Err ErrOutOfOrderActivity)
      else
        match InferSwapTransition previous current with
        | Err e => (t, Err e)
        | Ok None => (advance (ps_Slot c) t, Ok false)
        | Ok (Some transition) =>
            (append_swap (Key c) transition (advance (ps_Slot c) t), Ok true)
        end
  end.

(** [append([]byte(nil), b...)]: an empty slice becomes nil. *)
Definition appendNil (b : option (list byte)) : option (list byte) :=
  match contents b with [] => None | l => Some l end.
Definition cloneClass (a : AssetClass) : AssetClass :=
  mkAssetClass (appendNil (PolicyId a)) (appendNil (Name a)).
Definition cloneSwapTransition (s : SwapTransition) : SwapTransition :=
  mkSwap (sw_PoolID s) (sw_Network s) (sw_Protocol s)
    (cloneClass (sw_AssetX s)) (cloneClass (sw_AssetY s))
    (sw_AmountX s) (sw_AmountY s) (sw_InputIsX s) (sw_Slot s)
    (sw_BlockHash s) (sw_TxHash s) (sw_TxIndex s).

(** The fields that identify a swap, in the order in which swaps are sorted. *)
Abbreviation identity := (Z * (string * (Z * (string * (string * string)))))%type (only parsing).
Definition swap_identity (s : SwapTransition) : identity :=
  (sw_Slot s, (sw_TxHash s, (sw_TxIndex s, (sw_Network s, (sw_Protocol s, sw_PoolID s))))).

Definition sortSwapTransitions : list SwapTransition -> list SwapTransition :=
  sort_by swap_identity.

Definition sameSwapIdentity (a b : SwapTransition) : bool :=
  (sw_Slot a =? sw_Slot b)
  && bool_decide (sw_TxHash a = sw_TxHash b)
  && (sw_TxIndex a =? sw_TxIndex b)
  && bool_decide (sw_Network a = sw_Network b)
  && bool_decide (sw_Protocol a = sw_Protocol b)
  && bool_decide (sw_PoolID a = sw_PoolID b).

Definition equalSwapTransition (a b : SwapTransition) : bool :=
  sameSwapIdentity a b
  && (sw_AmountX a =? sw_AmountX b)
  && (sw_AmountY a =? sw_AmountY b)
  && Bool.eqb (sw_InputIsX a) (sw_InputIsX b)
  && bool_decide (sw_BlockHash a = sw_BlockHash b)
  && BytesEqual (PolicyId (sw_AssetX a)) (PolicyId (sw_AssetX b))
  && BytesEqual (Name (sw_AssetX a)) (Name (sw_AssetX b))
  && BytesEqual (PolicyId (sw_AssetY a)) (PolicyId (sw_AssetY b))
  && BytesEqual (Name (sw_AssetY a)) (Name (sw_AssetY b)).

(** The loop over the retained swaps of the pool: the first one with the same
    identity decides. *)
Fixpoint find_duplicate (transition : SwapTransition) (l : list SwapTransition)
  : result activity_error bool :=
  match l with
  | [] => Ok false
  | existing :: l' =>
      if negb (sw_Slot existing =? sw_Slot transition)
         || negb (sameSwapIdentity existing transition)
      then find_duplicate transition l'
      else if negb (equalSwapTransition existing transition) then Err ErrInvalidActivityState
      else Ok true
  end.

Definition ObserveTransition (previous current : option PoolState) (t : ActivityTracker)
  : ActivityTracker * result activity_error (SwapTransition * bool) :=
  match current with
  | None => (t, Ok (zeroSwap, false))
  | Some c =>
      if ps_FromMempool c then (t, Ok (zeroSwap, false))
      else if ps_Slot c <? latestSlot t then (t, Err ErrOutOfOrderActivity)
      else
        match InferSwapTransition previous current with
        | Err e => (t, Err e)
        | Ok None => (advance (ps_Slot c) t, Ok (zeroSwap, false))
        | Ok (Some transition) =>
            match find_duplicate transition (swaps_of t (Key c)) with
            | Err e => (t, Err e)
            | Ok true => (advance (ps_Slot c) t, Ok (cloneSwapTransition transition, false))
            | Ok false =>
                (append_swap (Key c) (cloneSwapTransition transition) (advance (ps_Slot c) t),
                 Ok (cloneSwapTransition transition, true))
            end
        end
  end.

(** The loop of [Volume] over the retained swaps of a pool. *)
Fixpoint volume_loop (cutoff : Z) (l : list SwapTransition) (v : PoolVolume)
  : result activity_error PoolVolume :=
  match l with
  | [] => Ok v
  | s :: l' =>
      if sw_Slot s <? cutoff then volume_loop cutoff l' v
      else if (u64 (MaxUint64 - pv_VolumeX v) <? sw_AmountX s)
              || (u64 (MaxUint64 - pv_VolumeY v) <? sw_AmountY s)
              || (pv_SwapCount v =? MaxUint64)
      then Err ErrVolumeOverflow
      else
        let fresh := pv_SwapCount v =? 0 in
        volume_loop cutoff l'
          (mkVolume (pv_PoolID v) (pv_Network v) (pv_Protocol v)
             (if fresh then sw_AssetX s else pv_AssetX v)
             (if fresh then sw_AssetY s else pv_AssetY v)
             (u64 (pv_VolumeX v + sw_AmountX s)) (u64 (pv_VolumeY v + sw_AmountY s))
             (u64 (pv_SwapCount v + 1)) (pv_WindowSlots v) (pv_WindowEnd v)
             (if fresh then sw_Slot s else pv_FirstSwapSlot v) (sw_Slot s))
  end.

Definition Volume (network protocol poolID : string) (atSlot : Z) (t : ActivityTracker)
  : result activity_error (option PoolVolume) :=
  if atSlot <? latestSlot t then Err ErrOutOfOrderActivity
  else
    let l := swaps_of t (pool_key network protocol poolID) in
    let volume :=
      mkVolume poolID network protocol Lovelace Lovelace 0 0 0 (windowSlots t) atSlot 0 0 in
    match volume_loop (cutoff_at (windowSlots t) atSlot) l volume with
    | Err e => Err e
    | Ok v => if pv_SwapCount v =? 0 then Ok None else Ok (Some v)
    end.

Definition rollback_list (slot : Z) (l : list SwapTransition) : option (list SwapTransition) :=
  match drop_back (fun s => slot <=? sw_Slot s) l with
  | [] => None
  | l' => Some l'
  end.

Definition Rollback (slot : Z) (t : ActivityTracker) : ActivityTracker :=
  let swaps' := omap (rollback_list slot) (swaps t) in
  let latest := if 0 <? slot then slot - 1 else 0 in
  let latest' := if latest <? latestSlot t then latest else latestSlot t in
  prune latest' (mkTracker (windowSlots t) latest' swaps').

(** ** Durable state *)

Record ActivityState := mkActivityState {
  as_WindowSlots : Z;
  as_LatestSlot : Z;
  as_Swaps : list SwapTransition;
}.

Definition all_swaps (t : ActivityTracker) : list SwapTransition :=
  mjoin (map_to_list (swaps t)).*2.

Definition Snapshot (t : ActivityTracker) : ActivityState :=
  mkActivityState (windowSlots t) (latestSlot t)
    (sortSwapTransitions (cloneSwapTransition <$> all_swaps t)).

Definition validateSwapTransition (s : SwapTransition) (latestSlot : Z)
  : result activity_error unit :=
  reject_if
    (bool_decide (sw_PoolID s = "") || bool_decide (sw_Network s = "")
     || bool_decide (sw_Protocol s = "") || (sw_AmountX s =? 0) || (sw_AmountY s =? 0)
     || (latestSlot <? sw_Slot s) || same_asset (sw_AssetX s) (sw_AssetY s))
    ErrInvalidActivityState.

(** The validation loop of [Restore]. *)
Fixpoint validate_all (latestSlot : Z) (l : list SwapTransition)
  : result activity_error (list SwapTransition) :=
  match l with
  | [] => Ok []
  | s :: l' =>
      _ ← validateSwapTransition s latestSlot;
      rest ← validate_all latestSlot l';
      Ok (cloneSwapTransition s :: rest)
  end.

(** The loop of [Restore] that distributes the sorted swaps over the pools. *)
Fixpoint restore_loop (l : list SwapTransition) (restored : gmap string (list SwapTransition))
  : result activity_error (gmap string (list SwapTransition)) :=
  match l with
  | [] => Ok restored
  | s :: l' =>
      let poolSwaps := default [] (restored !! sw_Key s) in
      match last poolSwaps with
      | Some prev =>
          if sameSwapIdentity prev s then Err ErrInvalidActivityState
          else restore_loop l' (<[sw_Key s := poolSwaps ++ [s]]> restored)
      | None => restore_loop l' (<[sw_Key s := poolSwaps ++ [s]]> restored)
      end
  end.

Definition Restore (state : ActivityState) (t : ActivityTracker)
  : ActivityTracker * result activity_error unit :=
  if as_WindowSlots state =? 0 then (t, Err ErrInvalidActivityState)
  else if negb (as_WindowSlots state =? windowSlots t) then (t, Err ErrActivityWindowChanged)
  else
    match validate_all (as_LatestSlot state) (as_Swaps state) with
    | Err e => (t, Err e)
    | Ok l =>
        match restore_loop (sortSwapTransitions l) ∅ with
        | Err e => (t, Err e)
        | Ok restored =>
            (prune (as_LatestSlot state)
               (mkTracker (windowSlots t) (as_LatestSlot state) restored), Ok tt)
        end
    end.

(** ** The tracker as a state machine *)

Inductive op :=
| OpObserve (previous current : option PoolState)
| OpObserveTransition (previous current : option PoolState)
| OpRollback (slot : Z).

(** What one operation does to the tracker, and the swap it reports as
    recorded, if any. *)
Definition step (o : op) (t : ActivityTracker) : ActivityTracker * option SwapTransition :=
  match o with
  | OpObserve p c =>
      let '(t', r) := Observe p c t in
      (t', match r, InferSwapTransition p c with
           | Ok true, Ok (Some s) => Some s
           | _, _ => None
           end)
  | OpObserveTransition p c =>
      let '(t', r) := ObserveTransition p c t in
      (t', match r with Ok (s, true) => Some s | _ => None end)
  | OpRollback slot => (Rollback slot t, None)
  end.

(** The specification keeps the whole log of recorded swaps, forgetting only
    what a rollback removes, and the highest slot ever observed. *)
Record ActivityLog := mkLog { log : list SwapTransition; high : Z }.

Definition log_step (o : op) (t' : ActivityTracker) (recorded : option SwapTransition)
    (L : ActivityLog) : ActivityLog :=
  let kept :=
    match o with
    | OpRollback slot => filter (fun s => sw_Slot s < slot) (log L)
    | _ => log L
    end in
  mkLog (kept ++ option_list recorded) (Z.max (high L) (latestSlot t')).

Fixpoint run (ops : list op) (t : ActivityTracker) (L : ActivityLog)
  : ActivityTracker * ActivityLog :=
  match ops with
  | [] => (t, L)
  | o :: ops' =>
      let '(t', recorded) := step o t in run ops' t' (log_step o t' recorded L)
  end.

(** The volume of a pool over a window, from the complete log. *)
Definition window_swaps (k : string) (cutoff : Z) (l : list SwapTransition) : list SwapTransition :=
  filter (fun s => sw_Key s = k /\ cutoff <= sw_Slot s) l.

Definition volume_spec (w : Z) (network protocol poolID : string) (atSlot : Z)
    (l : list SwapTransition) : result activity_error (option PoolVolume) :=
  let ws := window_swaps (pool_key network protocol poolID) (cutoff_at w atSlot) l in
  match ws with
  | [] => Ok None
  | first :: rest =>
      let vx := sum_of sw_AmountX ws in
      let vy := sum_of sw_AmountY ws in
      let n := Z.of_nat (length ws) in
      if (MaxUint64 <? vx) || (MaxUint64 <? vy) || (MaxUint64 <? n)
      then Err ErrVolumeOverflow
      else
        Ok (Some (mkVolume poolID network protocol (sw_AssetX first) (sw_AssetY first)
                    vx vy n w atSlot (sw_Slot first) (sw_Slot (default first (last rest)))))
  end.

Arguments window_swaps : simpl never.
Arguments swaps_of : simpl never.
Arguments cutoff_at : simpl never.

(** ** Classification of reserve transitions *)

(** A pair of confirmed states of the same pool is a swap exactly when the
    reserves moved in opposite directions; the recorded amounts are the absolute
    changes (with no wrap-around) and the input side is the one that grew.
    Mismatched states are an error, mempool states are ignored. *)
Theorem InferSwapTransition_classifies p c :
  wf_pool p -> wf_pool c ->
  InferSwapTransition (Some p) (Some c) =
    let dX := ps_X c - ps_X p in
    let dY := ps_Y c - ps_Y p in
    if ps_FromMempool p || ps_FromMempool c then Ok None
    else if negb (bool_decide (Key p = Key c)
                  && same_asset (aa_Class (ps_AssetX p)) (aa_Class (ps_AssetX c))
                  && same_asset (aa_Class (ps_AssetY p)) (aa_Class (ps_AssetY c)))
    then Err ErrMismatchedPoolTransition
    else if dX * dY <? 0 then
      Ok (Some (mkSwap (ps_PoolId c) (ps_Network c) (ps_Protocol c)
                  (aa_Class (ps_AssetX c)) (aa_Class (ps_AssetY c))
                  (Z.abs dX) (Z.abs dY) (0 <? dX) (ps_Slot c) (ps_BlockHash c)
                  (ps_TxHash c) (ps_TxIndex c)))
    else Ok None.
Proof.
  intros [] []. cbn. unfold IsAsset.
  destruct (ps_FromMempool p || ps_FromMempool c); [done|].
  rewrite !negb_andb.
  destruct (negb (bool_decide (Key p = Key c)) || _ || _); [done|].
  destruct (Z.ltb_spec (ps_X p) (ps_X c)), (Z.ltb_spec (ps_X c) (ps_X p)),
    (Z.ltb_spec (ps_Y p) (ps_Y c)), (Z.ltb_spec (ps_Y c) (ps_Y p)); try lia; cbn.
  all: destruct (Z.ltb_spec ((ps_X c - ps_X p) * (ps_Y c - ps_Y p)) 0); try nia; try done.
  all: rewrite !u64_small by int_lia; destruct (Z.ltb_spec 0 (ps_X c - ps_X p)); try lia;
    repeat f_equal; lia.
Qed.

(** A recorded swap belongs to the pool and slot of the new state and has
    positive 64-bit amounts. *)
Record wf_swap (s : SwapTransition) : Prop := {
  ws_X : 0 < sw_AmountX s <= MaxUint64;
  ws_Y : 0 < sw_AmountY s <= MaxUint64;
}.

Definition wf_state (o : option PoolState) : Prop :=
  match o with None => True | Some p => wf_pool p end.

Lemma InferSwapTransition_some previous c s :
  wf_state previous -> wf_pool c ->
  InferSwapTransition previous (Some c) = Ok (Some s) ->
  sw_Key s = Key c /\ sw_Slot s = ps_Slot c /\ wf_swap s.
Proof.
  intros Hp Hc H. destruct previous as [p|]; [|done].
  rewrite InferSwapTransition_classifies in H by done. cbn zeta in H.
  destruct Hp, Hc. go_cases. split_and!; [done..|].
  bool_prop. split; cbn; int_unfold; nia.
Qed.

(** ** The retained lists *)

Definition slot_le (a b : SwapTransition) : Prop := sw_Slot a <= sw_Slot b.

Lemma default_omap_list (f : list SwapTransition -> list SwapTransition)
    (g : list SwapTransition -> option (list SwapTransition)) (o : option (list SwapTransition)) :
  f [] = [] -> (forall l, g l = match f l with [] => None | l' => Some l' end) ->
  default [] (o ≫= g) = f (default [] o).
Proof. intros Hf Hg. destruct o as [l|]; cbn; [|done]. rewrite Hg. by destruct (f l). Qed.

Lemma swaps_of_prune a t k :
  StronglySorted slot_le (swaps_of t k) ->
  swaps_of (prune a t) k =
    filter (fun s => cutoff_at (windowSlots t) a <= sw_Slot s) (swaps_of t k).
Proof.
  intros Hs. unfold swaps_of, prune. cbn. rewrite lookup_omap.
  rewrite (default_omap_list (drop_while (fun s => sw_Slot s <? cutoff_at (windowSlots t) a)));
    [|done..].
  by apply drop_while_sorted.
Qed.

Lemma swaps_of_advance slot t k :
  StronglySorted slot_le (swaps_of t k) ->
  swaps_of (advance slot t) k =
    filter (fun s => cutoff_at (windowSlots t) slot <= sw_Slot s) (swaps_of t k).
Proof. apply (swaps_of_prune slot (mkTracker _ slot (swaps t)) k). Qed.

Lemma swaps_of_rollback_lists slot w l t k :
  StronglySorted slot_le (swaps_of t k) ->
  swaps_of (mkTracker w l (omap (rollback_list slot) (swaps t))) k =
    filter (fun s => sw_Slot s < slot) (swaps_of t k).
Proof.
  intros Hs. unfold swaps_of. cbn. rewrite lookup_omap.
  rewrite (default_omap_list (drop_back (fun s => slot <=? sw_Slot s))); [|done..].
  by apply drop_back_sorted.
Qed.

Lemma swaps_of_append k s t k' :
  swaps_of (append_swap k s t) k' =
    if decide (k = k') then swaps_of t k' ++ [s] else swaps_of t k'.
Proof.
  unfold swaps_of at 1. cbn. rewrite lookup_insert. by case_decide; subst.
Qed.

Lemma append_to_empty {A} (l : list A) x : l ++ [x] <> [].
Proof. by destruct l. Qed.

(** The well-formedness invariant of a tracker. *)
Record wf_tracker (t : ActivityTracker) : Prop := {
  wt_window : 0 < windowSlots t;
  wt_latest : 0 <= latestSlot t;
  wt_nonempty : forall k, swaps t !! k <> Some [];
  wt_sorted : forall k, StronglySorted slot_le (swaps_of t k);
  wt_swaps : forall k, Forall (fun s =>
    sw_Key s = k /\ wf_swap s /\
    cutoff_at (windowSlots t) (latestSlot t) <= sw_Slot s <= latestSlot t) (swaps_of t k);
}.

Lemma cutoff_mono w a b : 0 < w -> a <= b -> cutoff_at w a <= cutoff_at w b.
Proof. intros. unfold cutoff_at. go_cases; bool_prop; lia. Qed.

Lemma cutoff_le w a : 0 < w -> 0 <= a -> 0 <= cutoff_at w a <= a.
Proof. intros. unfold cutoff_at. go_cases; bool_prop; lia. Qed.

Lemma prune_nonempty a t k : swaps (prune a t) !! k <> Some [].
Proof.
  cbn. rewrite lookup_omap. destruct (swaps t !! k) as [l|]; cbn; [|done].
  unfold prune_list. by destruct (drop_while _ l).
Qed.

Lemma wf_new w t : NewActivityTracker w = Ok t -> 0 <= w -> wf_tracker t.
Proof.
  unfold NewActivityTracker. intros H Hw. go_cases. bool_prop.
  split; cbn; try lia; intros k; unfold swaps_of; cbn; rewrite lookup_empty; done || constructor.
Qed.

Lemma wf_advance slot t :
  wf_tracker t -> latestSlot t <= slot -> wf_tracker (advance slot t).
Proof.
  intros [Hw Hl Hn Hs Hf] Hle.
  split; [done | cbn; lia | apply prune_nonempty | | ]; intros k;
    rewrite swaps_of_advance by apply Hs.
  - by apply StronglySorted_filter.
  - apply Forall_forall. intros s [Hc Hin]%list_elem_of_filter.
    specialize (Hf k). rewrite Forall_forall in Hf. specialize (Hf s Hin). cbn.
    destruct Hf as (? & ? & ?). split_and!; [done..|lia|lia].
Qed.

Lemma wf_append k s t :
  wf_tracker t -> sw_Key s = k -> sw_Slot s = latestSlot t -> wf_swap s ->
  wf_tracker (append_swap k s t).
Proof.
  intros [Hw Hl Hn Hs Hf] Hk Hslot Hsw. pose proof (cutoff_le _ _ Hw Hl) as Hc.
  split; cbn; [done..| | |]; intros k'.
  - rewrite lookup_insert. case_decide; [|done]. intros [= Habs]. by eapply append_to_empty.
  - rewrite swaps_of_append. case_decide; [subst k'|done].
    apply StronglySorted_app. split_and!; [|apply Hs|by repeat constructor].
    intros x y Hx ->%list_elem_of_singleton. unfold slot_le. rewrite Hslot.
    specialize (Hf k). rewrite Forall_forall in Hf. apply (Hf x Hx).
  - rewrite swaps_of_append. case_decide; [subst k'|apply Hf].
    apply Forall_app. split; [apply Hf|]. apply Forall_singleton. split_and!; done || lia.
Qed.

(** Where a rollback leaves the latest slot. *)
Lemma latestSlot_Rollback slot t :
  0 <= slot -> latestSlot (Rollback slot t) = Z.min (latestSlot t) (Z.max 0 (slot - 1)).
Proof.
  intros. unfold Rollback, prune. cbn.
  destruct (Z.ltb_spec 0 slot).
  - destruct (Z.ltb_spec (slot - 1) (latestSlot t)); lia.
  - destruct (Z.ltb_spec 0 (latestSlot t)); lia.
Qed.

Lemma swaps_of_Rollback slot t k :
  StronglySorted slot_le (swaps_of t k) ->
  swaps_of (Rollback slot t) k =
    filter (fun s => cutoff_at (windowSlots t) (latestSlot (Rollback slot t)) <= sw_Slot s)
      (filter (fun s => sw_Slot s < slot) (swaps_of t k)).
Proof.
  intros Hs. unfold Rollback. cbn [latestSlot prune].
  rewrite swaps_of_prune; rewrite swaps_of_rollback_lists by done; [done|].
  by apply StronglySorted_filter.
Qed.

Lemma wf_rollback slot t :
  wf_tracker t -> 0 <= slot -> wf_tracker (Rollback slot t).
Proof.
  intros [Hw Hl Hn Hs Hf] Hslot.
  pose proof (latestSlot_Rollback slot t Hslot) as Hl'.
  split; [done | lia | apply prune_nonempty | |]; intros k;
    rewrite swaps_of_Rollback by apply Hs.
  - by apply StronglySorted_filter, StronglySorted_filter.
  - change (windowSlots (Rollback slot t)) with (windowSlots t).
    apply Forall_forall. intros s [Hc [Hlt Hin]%list_elem_of_filter]%list_elem_of_filter.
    specialize (Hf k). rewrite Forall_forall in Hf.
    destruct (Hf s Hin) as (? & ? & ?). split_and!; [done..|].
    pose proof (cutoff_le _ _ Hw Hl). lia.
Qed.

Lemma Observe_wf p c t :
  wf_state p -> wf_state c -> wf_tracker t -> wf_tracker (Observe p c t).1.
Proof.
  intros Hp Hc Ht. unfold Observe. destruct c as [c|]; [|done].
  destruct (ps_FromMempool c); [done|].
  destruct (Z.ltb_spec (ps_Slot c) (latestSlot t)); [done|].
  destruct (InferSwapTransition p (Some c)) as [[s|]|e] eqn:E; cbn; [| |done].
  - apply InferSwapTransition_some in E as (? & ? & ?); [|done..].
    apply wf_append; [|done..]. by apply wf_advance.
  - by apply wf_advance.
Qed.

Lemma wf_cloneSwap s : wf_swap s -> wf_swap (cloneSwapTransition s).
Proof. by intros []. Qed.

Lemma ObserveTransition_wf p c t :
  wf_state p -> wf_state c -> wf_tracker t -> wf_tracker (ObserveTransition p c t).1.
Proof.
  intros Hp Hc Ht. unfold ObserveTransition. destruct c as [c|]; [|done].
  destruct (ps_FromMempool c); [done|].
  destruct (Z.ltb_spec (ps_Slot c) (latestSlot t)); [done|].
  destruct (InferSwapTransition p (Some c)) as [[s|]|e] eqn:E; cbn; [| |done].
  - apply InferSwapTransition_some in E as (? & ? & ?); [|done..].
    destruct (find_duplicate _ _) as [[]|]; cbn; [by apply wf_advance| |done].
    apply wf_append; [by apply wf_advance | done | done | by apply wf_cloneSwap].
  - by apply wf_advance.
Qed.

Definition wf_op (o : op) : Prop :=
  match o with
  | OpObserve p c | OpObserveTransition p c => wf_state p /\ wf_state c
  | OpRollback slot => 0 <= slot
  end.

(** Every operation preserves the tracker invariant: no key is left empty,
    each pool's swaps are in slot order, carry positive 64-bit amounts, belong
    to their key, and lie between the window's cutoff and the latest slot. *)
Theorem step_preserves_invariant o t :
  wf_op o -> wf_tracker t -> wf_tracker (step o t).1.
Proof.
  intros Ho Ht. destruct o as [p c|p c|slot]; cbn in *.
  - pose proof (Observe_wf p c t) as H. destruct (Observe p c t). naive_solver.
  - pose proof (ObserveTransition_wf p c t) as H. destruct (ObserveTransition p c t). naive_solver.
  - by apply wf_rollback.
Qed.

(** ** Refinement: the pruned tracker against the complete log *)

Record refines (t : ActivityTracker) (L : ActivityLog) : Prop := {
  rf_wf : wf_tracker t;
  rf_high : latestSlot t <= high L;
  rf_log : Forall (fun s => wf_swap s /\ sw_Slot s <= latestSlot t) (log L);
  rf_complete : forall k,
    filter (fun s => cutoff_at (windowSlots t) (high L) <= sw_Slot s) (swaps_of t k) =
    window_swaps k (cutoff_at (windowSlots t) (high L)) (log L);
  rf_kept : forall k, swaps_of t k `sublist_of` log L;
}.

Lemma sublist_filter_mono (P : SwapTransition -> Prop) `{!forall s, Decision (P s)} l1 l2 :
  l1 `sublist_of` l2 -> filter P l1 `sublist_of` filter P l2.
Proof.
  induction 1 as [|x l1 l2 _ IH|x l1 l2 _ IH]; [done|..]; rewrite ?filter_cons.
  - case_decide; [by constructor | done].
  - case_decide; [by constructor | done].
Qed.

Lemma filter_weaken c c' (l : list SwapTransition) :
  c <= c' ->
  filter (fun s : SwapTransition => c' <= sw_Slot s) (filter (fun s => c <= sw_Slot s) l) =
  filter (fun s => c' <= sw_Slot s) l.
Proof. intros. apply list_filter_filter_l. lia. Qed.

Lemma window_weaken k c c' l :
  c <= c' -> filter (fun s => c' <= sw_Slot s) (window_swaps k c l) = window_swaps k c' l.
Proof.
  intros. unfold window_swaps. rewrite list_filter_filter.
  apply list_filter_iff. intros s. split; [tauto|]. intros []. split_and!; done || lia.
Qed.

(** A refined tracker determines every window above the high-water cutoff. *)
Lemma refines_window t L k c :
  refines t L -> cutoff_at (windowSlots t) (high L) <= c ->
  filter (fun s => c <= sw_Slot s) (swaps_of t k) = window_swaps k c (log L).
Proof.
  intros [] Hc. rewrite <- (filter_weaken _ c _ Hc), rf_complete0. by apply window_weaken.
Qed.

Lemma windowSlots_advance slot t : windowSlots (advance slot t) = windowSlots t.
Proof. done. Qed.

Lemma refines_advance slot t L :
  refines t L -> latestSlot t <= slot ->
  refines (advance slot t) (mkLog (log L) (Z.max (high L) slot)).
Proof.
  intros HR Hle. pose proof HR as [Hwf Hh Hlog Hc Hk]. pose proof (wt_window _ Hwf) as Hw.
  split; cbn.
  - by apply wf_advance.
  - lia.
  - eapply Forall_impl; [exact Hlog|]. cbn. intros s []. split; [done|lia].
  - intros k. rewrite <- (refines_window t L) by (done || apply cutoff_mono; lia).
    rewrite swaps_of_advance by apply Hwf. apply filter_weaken. cbn. apply cutoff_mono; lia.
  - intros k. rewrite swaps_of_advance by apply Hwf. etrans; [apply sublist_filter | apply Hk].
Qed.

Lemma refines_append k s t L :
  refines t L -> sw_Key s = k -> sw_Slot s = latestSlot t -> wf_swap s ->
  refines (append_swap k s t) (mkLog (log L ++ [s]) (high L)).
Proof.
  intros [Hwf Hh Hlog Hc Hkept] Hk Hslot Hs. split; cbn.
  - by apply wf_append.
  - done.
  - apply Forall_app. split; [done|]. apply Forall_singleton. split; [done|lia].
  - intros k'. rewrite swaps_of_append. unfold window_swaps. rewrite filter_app.
    fold (window_swaps k' (cutoff_at (windowSlots t) (high L)) (log L)). rewrite <- Hc.
    case_decide as Hkk.
    + rewrite filter_app. f_equal. rewrite !filter_cons. subst k'.
      repeat case_decide; naive_solver.
    + rewrite filter_cons. case_decide; [naive_solver|]. by rewrite app_nil_r.
  - intros k'. rewrite swaps_of_append. case_decide as Hkk.
    + subst k'. by apply sublist_app.
    + by apply sublist_inserts_r.
Qed.

Lemma refines_rollback slot t L :
  refines t L -> 0 <= slot ->
  refines (Rollback slot t) (mkLog (filter (fun s => sw_Slot s < slot) (log L)) (high L)).
Proof.
  intros [Hwf Hh Hlog Hc Hk] Hslot. pose proof (wf_rollback slot t Hwf Hslot) as Hwf'.
  pose proof (wt_window _ Hwf) as Hw. pose proof (wt_latest _ Hwf) as Hl.
  split; [done | | | |]; rewrite ?latestSlot_Rollback by done.
  - cbn [high]. lia.
  - apply Forall_forall. intros s [Hlt Hin]%list_elem_of_filter.
    rewrite Forall_forall in Hlog. destruct (Hlog s Hin) as [? ?]. split; [done|lia].
  - intros k. change (windowSlots (Rollback slot t)) with (windowSlots t). cbn [log high].
    rewrite swaps_of_Rollback by apply Hwf.
    rewrite filter_weaken by (apply cutoff_mono; [done|]; rewrite latestSlot_Rollback by done; lia).
    transitivity (filter (fun s => sw_Slot s < slot)
      (filter (fun s => cutoff_at (windowSlots t) (high L) <= sw_Slot s) (swaps_of t k))).
    { rewrite !list_filter_filter. apply list_filter_iff. tauto. }
    rewrite Hc. unfold window_swaps. rewrite !list_filter_filter.
    apply list_filter_iff. tauto.
  - intros k. rewrite swaps_of_Rollback by apply Hwf. cbn [log].
    etrans; [apply sublist_filter | by apply sublist_filter_mono].
Qed.

Lemma refines_same t L : refines t L -> refines t (mkLog (log L ++ []) (Z.max (high L) (latestSlot t))).
Proof.
  intros HR. pose proof HR as []. rewrite app_nil_r, Z.max_l by done. by destruct L.
Qed.

Lemma refines_step o t L :
  wf_op o -> refines t L ->
  let '(t', r) := step o t in refines t' (log_step o t' r L).
Proof.
  intros Ho HR. pose proof (rf_wf _ _ HR) as Hwf. destruct o as [p c|p c|slot].
  - cbn. unfold Observe. destruct c as [c|]; [|by apply refines_same].
    destruct (ps_FromMempool c); [by apply refines_same|].
    destruct (Z.ltb_spec (ps_Slot c) (latestSlot t)); [by apply refines_same|].
    destruct Ho as [Hp Hc].
    destruct (InferSwapTransition p (Some c)) as [[s|]|e] eqn:E; [| |by apply refines_same].
    + apply InferSwapTransition_some in E as (? & ? & ?); [|done..].
      apply (refines_append _ _ _ (mkLog (log L) (Z.max (high L) (ps_Slot c)))); [|done..].
      by apply refines_advance.
    + unfold log_step. cbn [log option_list]. rewrite app_nil_r. by apply refines_advance.
  - cbn. unfold ObserveTransition. destruct c as [c|]; [|by apply refines_same].
    destruct (ps_FromMempool c); [by apply refines_same|].
    destruct (Z.ltb_spec (ps_Slot c) (latestSlot t)); [by apply refines_same|].
    destruct Ho as [Hp Hc].
    destruct (InferSwapTransition p (Some c)) as [[s|]|e] eqn:E; [| |by apply refines_same].
    + apply InferSwapTransition_some in E as (? & ? & ?); [|done..].
      destruct (find_duplicate _ _) as [[]|]; [| |by apply refines_same].
      * unfold log_step. cbn [log option_list]. rewrite app_nil_r. by apply refines_advance.
      * apply (refines_append _ _ _ (mkLog (log L) (Z.max (high L) (ps_Slot c))));
          [|done|done|by apply wf_cloneSwap].
        by apply refines_advance.
    + unfold log_step. cbn [log option_list]. rewrite app_nil_r. by apply refines_advance.
  - cbn [step]. unfold log_step. cbn [log option_list]. rewrite app_nil_r.
    rewrite Z.max_l.
    + by apply refines_rollback.
    + destruct HR. rewrite latestSlot_Rollback by done. lia.
Qed.

Lemma refines_run ops t L :
  Forall wf_op ops -> refines t L ->
  refines (run ops t L).1 (run ops t L).2.
Proof.
  intros Hops. revert t L. induction Hops as [|o ops Ho _ IH]; intros t L HR; cbn; [done|].
  pose proof (refines_step o t L Ho HR) as Hs. destruct (step o t). by apply IH.
Qed.

Lemma refines_new w t : NewActivityTracker w = Ok t -> 0 <= w -> refines t (mkLog [] 0).
Proof.
  intros Ht Hw. pose proof (wf_new _ _ Ht Hw) as Hwf. unfold NewActivityTracker in Ht. go_cases.
  split; cbn; [done | done | constructor | |]; intros k; unfold swaps_of; cbn; by rewrite lookup_empty.
Qed.

(** ** The volume loop in closed form *)

Definition add_swaps (v : PoolVolume) (l : list SwapTransition) : PoolVolume :=
  match l with
  | [] => v
  | first :: rest =>
      let fresh := pv_SwapCount v =? 0 in
      mkVolume (pv_PoolID v) (pv_Network v) (pv_Protocol v)
        (if fresh then sw_AssetX first else pv_AssetX v)
        (if fresh then sw_AssetY first else pv_AssetY v)
        (pv_VolumeX v + sum_of sw_AmountX l) (pv_VolumeY v + sum_of sw_AmountY l)
        (pv_SwapCount v + Z.of_nat (length l)) (pv_WindowSlots v) (pv_WindowEnd v)
        (if fresh then sw_Slot first else pv_FirstSwapSlot v)
        (sw_Slot (default first (last rest)))
  end.

Definition overflows (v : PoolVolume) (l : list SwapTransition) : bool :=
  (MaxUint64 <? pv_VolumeX v + sum_of sw_AmountX l)
  || (MaxUint64 <? pv_VolumeY v + sum_of sw_AmountY l)
  || (MaxUint64 <? pv_SwapCount v + Z.of_nat (length l)).

Lemma volume_loop_filter c l v :
  volume_loop c l v = volume_loop c (filter (fun s => c <= sw_Slot s) l) v.
Proof.
  revert v. induction l as [|s l IH]; intros v; [done|]. rewrite filter_cons. cbn.
  destruct (Z.ltb_spec (sw_Slot s) c); case_decide; try lia; [apply IH|]. cbn.
  rewrite (proj2 (Z.ltb_ge (sw_Slot s) c)) by done.
  case_match; [done|]. apply IH.
Qed.

Lemma sum_wf_nonneg l :
  Forall wf_swap l -> 0 <= sum_of sw_AmountX l /\ 0 <= sum_of sw_AmountY l.
Proof.
  intros Hl. split; apply sum_of_nonneg; (eapply Forall_impl; [exact Hl|]);
    intros s []; lia.
Qed.

Lemma volume_loop_sum c l v :
  Forall wf_swap l -> Forall (fun s => c <= sw_Slot s) l ->
  is_u64 (pv_VolumeX v) -> is_u64 (pv_VolumeY v) -> is_u64 (pv_SwapCount v) ->
  volume_loop c l v = if overflows v l then Err ErrVolumeOverflow else Ok (add_swaps v l).
Proof.
  intros Hl Hc. revert v. induction Hl as [|s l [HX HY] Hl IH]; intros v Hx Hy Hn.
  { unfold overflows. cbn. rewrite !(proj2 (Z.ltb_ge _ _)) by int_lia. done. }
  apply Forall_cons in Hc as [Hs Hc]. specialize (IH Hc).
  pose proof (sum_wf_nonneg l Hl) as [HsX HsY].
  cbn [volume_loop]. rewrite (proj2 (Z.ltb_ge (sw_Slot s) c)) by done.
  rewrite !u64_small by int_lia.
  destruct ((_ <? sw_AmountX s) || _ || _) eqn:E.
  - unfold overflows. cbn [sum_of foldr length]. fold (sum_of sw_AmountX l) (sum_of sw_AmountY l).
    rewrite !orb_true_iff, !Z.ltb_lt, Z.eqb_eq in E.
    destruct (Z.ltb_spec MaxUint64 (pv_VolumeX v + (sw_AmountX s + sum_of sw_AmountX l))); [done|].
    destruct (Z.ltb_spec MaxUint64 (pv_VolumeY v + (sw_AmountY s + sum_of sw_AmountY l))); [done|].
    rewrite (proj2 (Z.ltb_lt _ _)); [done|int_lia].
  - bool_prop. rewrite !u64_small by int_lia. rewrite IH by (cbn; int_lia).
    unfold overflows, add_swaps. cbn [length pv_VolumeX pv_VolumeY pv_SwapCount].
    change (sum_of sw_AmountX (s :: l)) with (sw_AmountX s + sum_of sw_AmountX l).
    change (sum_of sw_AmountY (s :: l)) with (sw_AmountY s + sum_of sw_AmountY l).
    replace (Z.of_nat (S (length l))) with (1 + Z.of_nat (length l)) by lia.
    rewrite !Z.add_assoc. case_match; [done|]. f_equal.
    rewrite (proj2 (Z.eqb_neq (pv_SwapCount v + 1) 0)) by int_lia.
    destruct l as [|s' l]; cbn.
    + f_equal; lia.
    + f_equal; first [reflexivity | lia | rewrite last_cons; by destruct (last l)].
Qed.

(** On the swaps of the window, [Volume] computes the specified volume. *)
Lemma Volume_of_window w network protocol poolID atSlot t l :
  windowSlots t = w -> latestSlot t <= atSlot -> Forall wf_swap l ->
  filter (fun s => cutoff_at w atSlot <= sw_Slot s)
    (swaps_of t (pool_key network protocol poolID)) =
  window_swaps (pool_key network protocol poolID) (cutoff_at w atSlot) l ->
  Volume network protocol poolID atSlot t = volume_spec w network protocol poolID atSlot l.
Proof.
  intros <- Hat Hl Heq. unfold Volume, volume_spec.
  rewrite (proj2 (Z.ltb_ge _ _)) by done.
  rewrite volume_loop_filter, Heq.
  set (ws := window_swaps _ _ l).
  assert (Forall wf_swap ws) by (by apply Forall_filter_sub).
  assert (Forall (fun s => cutoff_at (windowSlots t) atSlot <= sw_Slot s) ws).
  { eapply Forall_impl; [apply Forall_filter_holds|]. naive_solver. }
  rewrite volume_loop_sum by (done || int_lia).
  unfold overflows. cbn [pv_VolumeX pv_VolumeY pv_SwapCount]. rewrite !Z.add_0_l.
  destruct ws as [|s ws]; [done|].
  destruct (_ || _ || (MaxUint64 <? Z.of_nat (length (s :: ws)))); [done|].
  cbn [add_swaps pv_SwapCount].
  rewrite (proj2 (Z.eqb_neq _ _)) by (cbn; lia). cbn [pv_VolumeX pv_VolumeY].
  rewrite !Z.add_0_l. done.
Qed.

(** A well-formed tracker reports the volume of its retained swaps. *)
Lemma Volume_retained network protocol poolID atSlot t :
  wf_tracker t -> latestSlot t <= atSlot ->
  Volume network protocol poolID atSlot t =
    volume_spec (windowSlots t) network protocol poolID atSlot
      (swaps_of t (pool_key network protocol poolID)).
Proof.
  intros Hwf Hat. pose proof (wt_swaps _ Hwf (pool_key network protocol poolID)) as Hs.
  apply Volume_of_window; [done..| |].
  - eapply Forall_impl; [exact Hs|]. naive_solver.
  - unfold window_swaps. set (l := swaps_of t _) in *. clearbody l.
    induction Hs as [|s l Hs _ IH]; [done|]. rewrite !filter_cons.
    case_decide as H1; case_decide as H2; [by f_equal | | | done].
    + destruct H2. split; [apply Hs | done].
    + destruct H1. apply H2.
Qed.

Lemma windowSlots_run ops t L : windowSlots (run ops t L).1 = windowSlots t.
Proof.
  revert t L. induction ops as [|o ops IH]; intros t L; [done|]. cbn.
  destruct (step o t) as [t' r] eqn:E. rewrite IH.
  destruct o; cbn in E; unfold Observe, ObserveTransition in E; go_cases; done.
Qed.

(** C11: the tracker implements its specification. After any sequence of
    observations and rollbacks on a new tracker, the volume reported at a slot no
    earlier than the highest slot ever observed is the volume of the window
    computed from the complete log of recorded swaps (rolled-back ones removed).
    After a rollback the tracker can also be asked at slots before that mark; it then
    reports the volume of a part of the log, in which nothing is missing but swaps
    below the window of the mark, and nothing is counted twice or after it was rolled
    back. A query before the latest slot is refused. *)
Theorem Volume_refines_log w t0 ops network protocol poolID atSlot :
  0 <= w -> NewActivityTracker w = Ok t0 -> Forall wf_op ops ->
  let '(t, L) := run ops t0 (mkLog [] 0) in
  let k := pool_key network protocol poolID in
  latestSlot t <= high L /\
  (atSlot < latestSlot t -> Volume network protocol poolID atSlot t = Err ErrOutOfOrderActivity) /\
  (high L <= atSlot ->
    Volume network protocol poolID atSlot t = volume_spec w network protocol poolID atSlot (log L)) /\
  exists kept, kept `sublist_of` log L /\
    window_swaps k (cutoff_at w (high L)) kept = window_swaps k (cutoff_at w (high L)) (log L) /\
    (latestSlot t <= atSlot ->
      Volume network protocol poolID atSlot t = volume_spec w network protocol poolID atSlot kept).
Proof.
  intros Hw Ht0 Hops. pose proof (refines_new _ _ Ht0 Hw) as HR0.
  pose proof (refines_run ops _ _ Hops HR0) as HR.
  assert (windowSlots t0 = w) as Hw0 by (unfold NewActivityTracker in Ht0; go_cases; done).
  assert (windowSlots (run ops t0 (mkLog [] 0)).1 = w) as Hwt by (by rewrite windowSlots_run).
  destruct (run ops t0 (mkLog [] 0)) as [t L]. cbn [fst snd] in HR, Hwt. cbv zeta.
  pose proof HR as [Hwf Hhigh Hlog Hc Hkept]. split_and!; [done | | |].
  - intros Hat. unfold Volume. by rewrite (proj2 (Z.ltb_lt _ _)).
  - intros Hat. apply Volume_of_window; [done | lia | |].
    + eapply Forall_impl; [exact Hlog|]. naive_solver.
    + rewrite <- Hwt. apply refines_window; [done|]. apply cutoff_mono; [apply Hwf | lia].
  - exists (swaps_of t (pool_key network protocol poolID)). split; [apply Hkept|]. rewrite <- Hwt. split.
    + rewrite <- Hc. unfold window_swaps. apply filter_Forall_ext.
      eapply Forall_impl; [apply (wt_swaps _ Hwf)|]. cbn. tauto.
    + intros Hat. by apply Volume_retained.
Qed.

(** ** Sample runs *)

Definition sample_at (x y slot : Z) : option PoolState :=
  Some (mkPoolState "pool1" "mainnet" "cswap"
    (mkAssetAmount Lovelace x) (mkAssetAmount sample_token y)
    997 1000 slot "block" "tx" 0 1000 1000 false).

Ltac wf_pools :=
  repeat (apply Forall_cons; split); try apply Forall_nil;
  repeat split; vm_compute; intuition discriminate.

Definition sample_ops : list op :=
  [ OpObserveTransition None (sample_at 1000 1000 1);
    OpObserveTransition (sample_at 1000 1000 1) (sample_at 1100 910 2);
    OpObserve (sample_at 1100 910 2) (sample_at 1050 955 20) ].

Lemma sample_ops_wf : Forall wf_op sample_ops.
Proof. wf_pools. Qed.

Definition sample_tracker : ActivityTracker := mkTracker 10 0 ∅.

Lemma Volume_refines_log_witness :
  Volume "mainnet" "cswap" "pool1" 20 (run sample_ops sample_tracker (mkLog [] 0)).1 =
  volume_spec 10 "mainnet" "cswap" "pool1" 20
    (log (run sample_ops sample_tracker (mkLog [] 0)).2).
Proof.
  pose proof (Volume_refines_log 10 sample_tracker sample_ops "mainnet" "cswap" "pool1" 20
    ltac:(lia) eq_refl sample_ops_wf) as H.
  destruct (run sample_ops sample_tracker (mkLog [] 0)) as [t L] eqn:E. cbv zeta in H.
  apply H. vm_compute in E. injection E as <- <-. discriminate.
Defined.

Lemma InferSwapTransition_classifies_witness :
  exists s, InferSwapTransition (sample_at 1000 1000 1) (sample_at 1100 910 2) = Ok (Some s).
Proof.
  eexists. etransitivity.
  - apply (InferSwapTransition_classifies (default sample_pool (sample_at 1000 1000 1))
      (default sample_pool (sample_at 1100 910 2))); wf_pools.
  - vm_compute. reflexivity.
Defined.

Lemma step_preserves_invariant_witness :
  wf_tracker (step (OpRollback 5) sample_tracker).1.
Proof.
  apply (step_preserves_invariant (OpRollback 5) sample_tracker); [vm_compute; discriminate|].
  exact (wf_new 10 sample_tracker eq_refl ltac:(lia)).
Defined.

(** Below the high-water mark the reported volume can be too small: a swap
    pruned before a deep rollback stays lost, although it is back inside the
    window, so the volume is not the exact turnover of the window. *)
Theorem Rollback_can_undercount :
  exists ops atSlot,
    Forall wf_op ops /\
    let '(t, L) := run ops sample_tracker (mkLog [] 0) in
    latestSlot t <= atSlot /\
    Volume "mainnet" "cswap" "pool1" atSlot t = Ok None /\
    exists v, volume_spec 10 "mainnet" "cswap" "pool1" atSlot (log L) = Ok (Some v) /\
      pv_SwapCount v = 1 /\ pv_VolumeX v = 100.
Proof.
  exists (sample_ops ++ [OpRollback 6]), 6. split.
  - apply Forall_app. split; [apply sample_ops_wf | by apply Forall_singleton].
  - vm_compute. split; [discriminate|]. split; [reflexivity|].
    eexists. split; [reflexivity|]. split; reflexivity.
Qed.
