(* ===== verification/ActivityRestart.v ===== *)
(** * ActivityRestart: a tracker survives a snapshot and a restore
    ([dex/activity_state.go]).

    A restored tracker holds the same swaps per pool, but possibly in another
    order within a slot: the equivalence [tracker_equiv] is coarser than
    equality, and every reported total respects it. *)
From S2P Require Import Prelude.
From S2P Require Import Text.
From S2P Require Import Common.
From S2P Require Import Pool.
From S2P Require Import Activity.

#[export] Instance tracker_equiv : Equiv ActivityTracker := fun t1 t2 =>
  windowSlots t1 = windowSlots t2 /\ latestSlot t1 = latestSlot t2 /\
  forall k, swaps_of t1 k ≡ₚ swaps_of t2 k.

#[export] Instance tracker_equivalence : Equivalence (≡@{ActivityTracker}).
Proof.
  split.
  - intros t. done.
  - intros t1 t2 (? & ? & H). split_and!; [done..|]. intros k. by rewrite H.
  - intros t1 t2 t3 (? & ? & H) (? & ? & H'). split_and!; [congruence..|].
    intros k. by rewrite H.
Qed.

(** The totals of a reported volume. *)
Definition totals (r : result activity_error (option PoolVolume))
  : result activity_error (option (Z * Z * Z)) :=
  match r with
  | Err e => Err e
  | Ok None => Ok None
  | Ok (Some v) => Ok (Some (pv_VolumeX v, pv_VolumeY v, pv_SwapCount v))
  end.

(** The totals depend only on the swaps of the window, in any order. *)
Lemma totals_spec_window w network protocol poolID atSlot l l' :
  window_swaps (pool_key network protocol poolID) (cutoff_at w atSlot) l ≡ₚ
    window_swaps (pool_key network protocol poolID) (cutoff_at w atSlot) l' ->
  totals (volume_spec w network protocol poolID atSlot l) =
  totals (volume_spec w network protocol poolID atSlot l').
Proof.
  unfold volume_spec. generalize (window_swaps (pool_key network protocol poolID) (cutoff_at w atSlot) l).
  generalize (window_swaps (pool_key network protocol poolID) (cutoff_at w atSlot) l').
  intros ws' ws Hw. destruct ws as [|s ws], ws' as [|s' ws'].
  - done.
  - by apply Permutation_nil_cons in Hw.
  - symmetry in Hw. by apply Permutation_nil_cons in Hw.
  - rewrite Hw at 1 2 3. case_match; [done|]. cbn [totals pv_VolumeX pv_VolumeY pv_SwapCount].
    by rewrite Hw.
Qed.

Lemma totals_spec_perm w network protocol poolID atSlot l l' :
  l ≡ₚ l' ->
  totals (volume_spec w network protocol poolID atSlot l) =
  totals (volume_spec w network protocol poolID atSlot l').
Proof. intros Hp. apply totals_spec_window. unfold window_swaps. by rewrite Hp. Qed.

Lemma Volume_totals_equiv network protocol poolID atSlot t t' :
  wf_tracker t -> wf_tracker t' -> t ≡ t' ->
  totals (Volume network protocol poolID atSlot t) =
  totals (Volume network protocol poolID atSlot t').
Proof.
  intros Hwf Hwf' (Hw & Hl & Hs). destruct (Z.ltb_spec atSlot (latestSlot t)).
  - unfold Volume. rewrite <- Hl, (proj2 (Z.ltb_lt _ _)) by done. done.
  - rewrite !Volume_retained by (done || lia). rewrite <- Hw. apply totals_spec_perm, Hs.
Qed.

(** ** What makes a tracker durable *)

(** [Restore] accepts a swap that passes [validateSwapTransition]. *)
Definition valid_ids (s : SwapTransition) : Prop :=
  sw_PoolID s <> "" /\ sw_Network s <> "" /\ sw_Protocol s <> "" /\
  same_asset (sw_AssetX s) (sw_AssetY s) = false.

Record durable (t : ActivityTracker) : Prop := {
  du_unique : forall k, NoDup (swap_identity <$> swaps_of t k);
  du_swaps : forall k,
    Forall (fun s => cloneSwapTransition s = s /\ valid_ids s) (swaps_of t k);
}.

Definition valid_pool (p : PoolState) : Prop :=
  ps_PoolId p <> "" /\ ps_Network p <> "" /\ ps_Protocol p <> "" /\
  same_asset (aa_Class (ps_AssetX p)) (aa_Class (ps_AssetY p)) = false.

(** The operations of the oracle: it records with [ObserveTransition]. *)
Definition durable_op (o : op) : Prop :=
  match o with
  | OpObserve _ _ => False
  | OpObserveTransition _ c => match c with Some p => valid_pool p | None => True end
  | OpRollback _ => True
  end.

Lemma sameSwapIdentity_spec a b : sameSwapIdentity a b = true <-> swap_identity a = swap_identity b.
Proof.
  unfold sameSwapIdentity, swap_identity.
  rewrite !andb_true_iff, !Z.eqb_eq, !bool_decide_eq_true. split.
  - intros (((((-> & ->) & ->) & ->) & ->) & ->). done.
  - intros [= -> -> -> -> -> ->]. done.
Qed.

Lemma identity_key a b : swap_identity a = swap_identity b -> sw_Key a = sw_Key b.
Proof. unfold swap_identity, sw_Key. intros [= _ _ _ -> -> ->]. done. Qed.

Lemma identity_clone s : swap_identity (cloneSwapTransition s) = swap_identity s.
Proof. done. Qed.

Lemma contents_appendNil b : contents (appendNil b) = contents b.
Proof. unfold appendNil. by destruct b as [[|]|]. Qed.

Lemma cloneClass_equiv a : cloneClass a ≡ a.
Proof. split; apply contents_appendNil. Qed.

Lemma appendNil_idemp b : appendNil (appendNil b) = appendNil b.
Proof. unfold appendNil at 1. rewrite contents_appendNil. done. Qed.

Lemma cloneSwap_idemp s : cloneSwapTransition (cloneSwapTransition s) = cloneSwapTransition s.
Proof.
  unfold cloneSwapTransition, cloneClass. cbn. by rewrite !appendNil_idemp.
Qed.

Lemma find_duplicate_false s l :
  find_duplicate s l = Ok false -> swap_identity s ∉ (swap_identity <$> l).
Proof.
  induction l as [|x l IH]; cbn; intros H; [apply not_elem_of_nil|].
  rewrite not_elem_of_cons.
  assert (sameSwapIdentity x s = false /\ find_duplicate s l = Ok false) as [Hx Hl].
  { destruct (sameSwapIdentity x s) eqn:E.
    - apply sameSwapIdentity_spec in E as Hid. injection Hid as Hslot _ _ _ _ _.
      rewrite Hslot, Z.eqb_refl in H. cbn in H. go_cases.
    - rewrite orb_true_r in H. done. }
  split; [|by apply IH]. intros Heq. symmetry in Heq. apply sameSwapIdentity_spec in Heq.
  congruence.
Qed.

Lemma durable_filter (P : SwapTransition -> Prop) `{forall s, Decision (P s)} t t' :
  durable t -> (forall k, swaps_of t' k = filter P (swaps_of t k)) -> durable t'.
Proof.
  intros [Hu Hs] Heq. split; intros k; rewrite Heq.
  - eapply sublist_NoDup; [apply Hu|]. apply fmap_sublist, sublist_filter.
  - by apply Forall_filter_sub.
Qed.

Lemma durable_append k s t :
  durable t -> swap_identity s ∉ (swap_identity <$> swaps_of t k) ->
  cloneSwapTransition s = s -> valid_ids s -> durable (append_swap k s t).
Proof.
  intros [Hu Hs] Hn Hc Hv. split; intros k'; rewrite swaps_of_append;
    (case_decide; [subst k'|]); auto.
  - rewrite fmap_app. apply NoDup_app. split_and!; [apply Hu | | apply NoDup_singleton].
    intros i Hi ->%list_elem_of_singleton. done.
  - apply Forall_app. split; [apply Hs | by apply Forall_singleton].
Qed.

Lemma ObserveTransition_durable p c t :
  wf_state p -> wf_state c -> wf_tracker t ->
  match c with Some q => valid_pool q | None => True end ->
  durable t -> durable (ObserveTransition p c t).1.
Proof.
  intros Hp Hc Ht Hv Hd. unfold ObserveTransition. destruct c as [c|]; [|done].
  destruct (ps_FromMempool c); [done|].
  destruct (Z.ltb_spec (ps_Slot c) (latestSlot t)) as [|Hle]; [done|].
  assert (durable (advance (ps_Slot c) t)) as Hadv.
  { apply (durable_filter (fun s => cutoff_at (windowSlots t) (ps_Slot c) <= sw_Slot s) t); [done|].
    intros k. apply swaps_of_advance, Ht. }
  destruct (InferSwapTransition p (Some c)) as [[s|]|e] eqn:E; [| done | done].
  destruct (find_duplicate s (swaps_of t (Key c))) as [[]|] eqn:Hf; [done| |done].
  cbn. apply durable_append; [done | | apply cloneSwap_idemp |].
  - rewrite identity_clone, swaps_of_advance by apply Ht.
    apply find_duplicate_false in Hf. contradict Hf.
    eapply elem_of_sublist; [exact Hf|]. apply fmap_sublist, sublist_filter.
  - destruct p as [p|]; [|done]. rewrite InferSwapTransition_classifies in E by done.
    cbn zeta in E. go_cases. destruct Hv as (? & ? & ? & ?).
    split_and!; [done..|]. cbn. by rewrite !cloneClass_equiv.
Qed.

Lemma step_durable o t :
  wf_op o -> durable_op o -> wf_tracker t -> durable t -> durable (step o t).1.
Proof.
  intros Ho Hdo Ht Hd. destruct o as [p c|p c|slot]; [done| |]; cbn in *.
  - pose proof (ObserveTransition_durable p c t) as H. destruct (ObserveTransition p c t).
    naive_solver.
  - eapply (durable_filter (fun s =>
      cutoff_at (windowSlots t) (latestSlot (Rollback slot t)) <= sw_Slot s /\ sw_Slot s < slot));
      [exact Hd|].
    intros k. rewrite swaps_of_Rollback by apply Ht. apply list_filter_filter.
Qed.

(** ** The contents of a snapshot *)

Section MapConcat.
Context (ml : list (string * list SwapTransition)).
Context (Hkeys : forall k l, (k, l) ∈ ml -> Forall (fun s => sw_Key s = k) l).

Lemma elem_of_concat_snd s :
  s ∈ mjoin ml.*2 -> exists l, (sw_Key s, l) ∈ ml /\ s ∈ l.
Proof.
  intros (l & Hs & Hl)%list_elem_of_join.
  apply list_elem_of_fmap in Hl as [[k l'] [-> Hl]].
  exists l'. split; [|done]. pose proof (Hkeys k l' Hl) as Hk.
  rewrite Forall_forall in Hk. by rewrite (Hk s Hs).
Qed.
End MapConcat.

Lemma NoDup_concat_keys (ml : list (string * list SwapTransition)) :
  NoDup ml.*1 ->
  (forall k l, (k, l) ∈ ml ->
    NoDup (swap_identity <$> l) /\ Forall (fun s => sw_Key s = k) l) ->
  NoDup (swap_identity <$> mjoin ml.*2).
Proof.
  induction ml as [|[k l] ml IH]; cbn; intros Hnd Hml; [constructor|].
  apply NoDup_cons in Hnd as [Hk Hnd]. rewrite fmap_app. apply NoDup_app.
  destruct (Hml k l) as [Hl Hlk]; [left|].
  split_and!; [done | | apply IH; [done|]; intros; apply Hml; by right].
  intros i Hi Hi'. apply list_elem_of_fmap in Hi as (s & -> & Hs).
  apply list_elem_of_fmap in Hi' as (s' & Hid & Hs').
  apply elem_of_concat_snd in Hs' as (l' & Hl' & _); [|intros; apply Hml; by right].
  rewrite Forall_forall in Hlk. rewrite <- (identity_key _ _ Hid), (Hlk s Hs) in Hl'.
  apply Hk. by eapply (list_elem_of_fmap_2 fst _ (k, l')).
Qed.

Lemma filter_concat_keys (ml : list (string * list SwapTransition)) k :
  NoDup ml.*1 ->
  (forall k l, (k, l) ∈ ml -> Forall (fun s => sw_Key s = k) l) ->
  filter (fun s => sw_Key s = k) (mjoin ml.*2) = default [] (list_to_map (M:=gmap string _) ml !! k).
Proof.
  induction ml as [|[k' l] ml IH]; intros Hnd Hml; [done|].
  apply NoDup_cons in Hnd as [Hk Hnd].
  change (mjoin ((k', l) :: ml).*2) with (l ++ mjoin ml.*2). rewrite filter_app.
  change (list_to_map (M:=gmap string (list SwapTransition)) ((k', l) :: ml))
    with (<[k':=l]> (list_to_map (M:=gmap string (list SwapTransition)) ml)).
  rewrite IH; [|done|intros; apply Hml; by right].
  pose proof (Hml k' l) as Hl. rewrite lookup_insert. case_decide as Hkk.
  - subst k'. rewrite filter_all by (apply Hl; left). cbn.
    rewrite not_elem_of_list_to_map_1 by done. by rewrite app_nil_r.
  - rewrite filter_none; [done|]. eapply Forall_impl; [apply Hl; left|]. cbn. congruence.
Qed.

Lemma map_swaps_key t k l :
  wf_tracker t -> (k, l) ∈ map_to_list (swaps t) -> Forall (fun s => sw_Key s = k) l.
Proof.
  intros Hwf Hl%elem_of_map_to_list. pose proof (wt_swaps _ Hwf k) as Hs.
  unfold swaps_of in Hs. rewrite Hl in Hs. eapply Forall_impl; [exact Hs|]. naive_solver.
Qed.

Lemma all_swaps_key t k :
  wf_tracker t -> filter (fun s => sw_Key s = k) (all_swaps t) = swaps_of t k.
Proof.
  intros Hwf. unfold all_swaps. rewrite filter_concat_keys.
  - by rewrite list_to_map_to_list.
  - apply NoDup_fst_map_to_list.
  - intros ? ?. by apply map_swaps_key.
Qed.

Lemma elem_of_all_swaps t s : wf_tracker t -> s ∈ all_swaps t -> s ∈ swaps_of t (sw_Key s).
Proof.
  intros Hwf Hs. rewrite <- all_swaps_key by done. by apply list_elem_of_filter.
Qed.

Lemma all_swaps_unique t :
  wf_tracker t -> durable t -> NoDup (swap_identity <$> all_swaps t).
Proof.
  intros Hwf [Hu _]. apply NoDup_concat_keys; [apply NoDup_fst_map_to_list|].
  intros k l Hl. split; [|by eapply map_swaps_key].
  apply elem_of_map_to_list in Hl. specialize (Hu k). unfold swaps_of in Hu.
  by rewrite Hl in Hu.
Qed.

Lemma all_swaps_clone t :
  wf_tracker t -> durable t -> cloneSwapTransition <$> all_swaps t = all_swaps t.
Proof.
  intros Hwf [_ Hs]. rewrite <- (list_fmap_id (all_swaps t)) at 2. apply list_fmap_ext.
  intros i s Hi. apply list_elem_of_lookup_2 in Hi. apply elem_of_all_swaps in Hi; [|done].
  specialize (Hs (sw_Key s)). rewrite Forall_forall in Hs. by apply Hs.
Qed.

(** ** Restoring a snapshot *)

Lemma validate_all_ok latest l :
  Forall (fun s => valid_ids s /\ wf_swap s /\ sw_Slot s <= latest) l ->
  validate_all latest l = Ok (cloneSwapTransition <$> l).
Proof.
  induction 1 as [|s l [(Hp & Hn & Hpr & Ha) [[HX HY] Hs]] _ IH]; [done|].
  cbn [validate_all]. rewrite IH. unfold validateSwapTransition, reject_if.
  rewrite !bool_decide_eq_false_2, Ha by done.
  rewrite !(proj2 (Z.eqb_neq _ 0)), (proj2 (Z.ltb_ge _ _)) by lia. done.
Qed.

(** The loop succeeds on swaps with distinct identities and groups them by
    key in order. *)
Lemma restore_loop_ok l : forall m0,
  (forall k, NoDup (swap_identity <$>
    (default [] (m0 !! k) ++ filter (fun s => sw_Key s = k) l))) ->
  (forall k, m0 !! k <> Some []) ->
  exists m, restore_loop l m0 = Ok m /\ (forall k, m !! k <> Some []) /\
    forall k, default [] (m !! k) = default [] (m0 !! k) ++ filter (fun s => sw_Key s = k) l.
Proof.
  induction l as [|s l IH]; intros m0 Hnd Hne.
  { exists m0. split_and!; [done..|]. intros k. by rewrite app_nil_r. }
  set (acc := default [] (m0 !! sw_Key s)).
  assert (exists m, restore_loop l (<[sw_Key s := acc ++ [s]]> m0) = Ok m /\
    (forall k, m !! k <> Some []) /\
    forall k, default [] (m !! k) =
      default [] (m0 !! k) ++ filter (fun s => sw_Key s = k) (s :: l)) as (m & Hm & Hm').
  { destruct (IH (<[sw_Key s := acc ++ [s]]> m0)) as (m & Hm & Hne' & Heq).
    - intros k. specialize (Hnd k). rewrite lookup_insert. case_decide as Hk.
      + subst k. rewrite filter_cons_True in Hnd by done. cbn. by rewrite <- app_assoc.
      + rewrite filter_cons_False in Hnd by done. done.
    - intros k. rewrite lookup_insert. case_decide; [|done].
      intros [= Hnil]. by eapply append_to_empty.
    - exists m. split_and!; [done..|]. intros k. rewrite Heq, lookup_insert, filter_cons.
      case_decide as Hk; [|done]. subst k. cbn. by rewrite <- app_assoc. }
  exists m. split; [|done]. cbn. fold acc. destruct (last acc) as [prev|] eqn:Hl; [|done].
  destruct (sameSwapIdentity prev s) eqn:Hid; [|done].
  apply sameSwapIdentity_spec in Hid. apply last_Some in Hl as [acc' Hacc].
  specialize (Hnd (sw_Key s)). fold acc in Hnd. rewrite filter_cons_True in Hnd by done.
  rewrite fmap_app in Hnd. apply NoDup_app in Hnd as (_ & Hdis & _).
  exfalso. apply (Hdis (swap_identity s)).
  - rewrite Hacc, fmap_app. apply elem_of_app. right. cbn. rewrite Hid. left.
  - cbn. left.
Qed.

Lemma identity_le_slot a b : key_le swap_identity a b -> slot_le a b.
Proof.
  intros H%leb_fst. by apply leb_Z in H.
Qed.

Lemma StronglySorted_impl {A} (R S : A -> A -> Prop) l :
  (forall x y, R x y -> S x y) -> StronglySorted R l -> StronglySorted S l.
Proof.
  intros HRS. induction 1 as [|x l Hs IH Hx]; constructor; [done|].
  eapply Forall_impl; [exact Hx|]. auto.
Qed.

Lemma sorted_swaps_slots l : StronglySorted slot_le (sortSwapTransitions l).
Proof. eapply StronglySorted_impl; [apply identity_le_slot | apply sort_by_sorted]. Qed.

(** The snapshot does not depend on the order in which the map of swaps is
    iterated: the sort key tells all retained swaps apart. *)
Lemma Snapshot_order_independent t l :
  wf_tracker t -> durable t -> l ≡ₚ all_swaps t ->
  as_Swaps (Snapshot t) = sortSwapTransitions (cloneSwapTransition <$> l).
Proof.
  intros Hwf Hd Hl. cbn. rewrite all_swaps_clone by done.
  symmetry. apply sort_by_perm_eq; [by apply all_swaps_unique|].
  rewrite Hl. by rewrite all_swaps_clone.
Qed.

(** [Restore] accepts any valid swaps with distinct identities, in any order,
    and keeps those inside the window. *)
Lemma Restore_ok w latest S t0 :
  0 < w -> 0 <= latest -> windowSlots t0 = w ->
  Forall (fun s => cloneSwapTransition s = s /\ valid_ids s /\ wf_swap s /\ sw_Slot s <= latest) S ->
  NoDup (swap_identity <$> S) ->
  exists t', Restore (mkActivityState w latest S) t0 = (t', Ok tt) /\ wf_tracker t' /\
    windowSlots t' = w /\ latestSlot t' = latest /\
    forall k, swaps_of t' k ≡ₚ filter (fun s => sw_Key s = k /\ cutoff_at w latest <= sw_Slot s) S.
Proof.
  intros Hpos Hlat Hw Hval Hnd. unfold Restore. cbn [as_WindowSlots as_LatestSlot as_Swaps].
  rewrite (proj2 (Z.eqb_neq _ _)) by lia. rewrite Hw, Z.eqb_refl. cbn [negb].
  rewrite validate_all_ok by (eapply Forall_impl; [exact Hval|]; cbn; tauto).
  assert (cloneSwapTransition <$> S = S) as ->.
  { rewrite <- (list_fmap_id S) at 2. apply list_fmap_ext. intros i s Hi%list_elem_of_lookup_2.
    rewrite Forall_forall in Hval. by apply Hval. }
  set (S' := sortSwapTransitions S).
  assert (S' ≡ₚ S) as HS by apply sort_by_perm.
  destruct (restore_loop_ok S' ∅) as (m & -> & Hne & Hm).
  { intros k. rewrite lookup_empty. cbn. eapply sublist_NoDup; [|apply fmap_sublist, sublist_filter].
    by rewrite HS. }
  { intros k. by rewrite lookup_empty. }
  set (t1 := mkTracker w latest m).
  assert (forall k, swaps_of t1 k = filter (fun s => sw_Key s = k) S') as Ht1.
  { intros k. unfold swaps_of, t1. cbn. by rewrite Hm, lookup_empty. }
  assert (forall k, StronglySorted slot_le (swaps_of t1 k)) as Hsort.
  { intros k. rewrite Ht1. apply StronglySorted_filter, sorted_swaps_slots. }
  assert (forall k, swaps_of (prune latest t1) k =
    filter (fun s => sw_Key s = k /\ cutoff_at w latest <= sw_Slot s) S') as Ht'.
  { intros k. rewrite swaps_of_prune, Ht1, list_filter_filter by done.
    apply list_filter_iff. intros s. cbn. tauto. }
  exists (prune latest t1). split_and!; [done | | done | done | intros k; by rewrite Ht', HS].
  split; [done | done | apply prune_nonempty | |]; intros k; rewrite Ht'.
  - apply StronglySorted_filter, sorted_swaps_slots.
  - rewrite HS. apply Forall_forall. intros s [[Hk Hc] Hs]%list_elem_of_filter.
    rewrite Forall_forall in Hval. specialize (Hval s Hs). cbn. naive_solver.
Qed.

Lemma Restore_Snapshot t t0 :
  wf_tracker t -> durable t -> windowSlots t0 = windowSlots t ->
  exists t', Restore (Snapshot t) t0 = (t', Ok tt) /\ wf_tracker t' /\ t' ≡ t.
Proof.
  intros Hwf Hd Hw. unfold Snapshot. rewrite all_swaps_clone by done.
  assert (sortSwapTransitions (all_swaps t) ≡ₚ all_swaps t) as HS by apply sort_by_perm.
  assert (forall s, s ∈ all_swaps t -> s ∈ swaps_of t (sw_Key s)) as Hin
    by (intros; by apply elem_of_all_swaps).
  destruct (Restore_ok (windowSlots t) (latestSlot t) (sortSwapTransitions (all_swaps t)) t0)
    as (t' & HR & Hwf' & Hw' & Hl' & Hk).
  - apply Hwf.
  - apply Hwf.
  - done.
  - rewrite HS. apply Forall_forall. intros s Hs%Hin.
    pose proof (du_swaps _ Hd (sw_Key s)) as Hv. pose proof (wt_swaps _ Hwf (sw_Key s)) as Hf.
    rewrite Forall_forall in Hv, Hf. destruct (Hv s Hs), (Hf s Hs) as (? & ? & ?).
    split_and!; [done..|lia].
  - rewrite HS. by apply all_swaps_unique.
  - exists t'. split_and!; [done..|]. split_and!; [done..|]. intros k.
    rewrite Hk, HS, <- all_swaps_key by done. erewrite filter_Forall_ext; [done|].
    apply Forall_forall. intros s Hs%Hin. split; [tauto|]. intros Hsk. split; [done|].
    pose proof (wt_swaps _ Hwf (sw_Key s)) as Hf. rewrite Forall_forall in Hf. by apply Hf.
Qed.

(** ** Restarting after any run *)

Lemma durable_new w t : NewActivityTracker w = Ok t -> durable t.
Proof.
  unfold NewActivityTracker. intros H. go_cases.
  split; intros k; unfold swaps_of; cbn; rewrite lookup_empty; constructor.
Qed.

Lemma run_durable ops t L :
  Forall wf_op ops -> Forall durable_op ops -> wf_tracker t -> durable t ->
  wf_tracker (run ops t L).1 /\ durable (run ops t L).1.
Proof.
  intros Ho. revert t L. induction Ho as [|o ops Ho _ IH]; intros t L Hd Ht Hdt; [done|].
  apply Forall_cons in Hd as [Hd Hds]. cbn.
  pose proof (step_preserves_invariant o t Ho Ht) as H1.
  pose proof (step_durable o t Ho Hd Ht Hdt) as H2.
  destruct (step o t) as [t' r]. by apply IH.
Qed.

(** A restart is invisible. Whatever valid observations and rollbacks a
    tracker has seen, its snapshot restores without error into a tracker with
    the same window, giving a well-formed tracker with the same swaps per pool,
    and every volume total it reports is unchanged. *)
Theorem restart_preserves_activity w t0 fresh ops network protocol poolID atSlot :
  0 <= w -> NewActivityTracker w = Ok t0 -> NewActivityTracker w = Ok fresh ->
  Forall wf_op ops -> Forall durable_op ops ->
  exists t', Restore (Snapshot (run ops t0 (mkLog [] 0)).1) fresh = (t', Ok tt) /\
    t' ≡ (run ops t0 (mkLog [] 0)).1 /\
    totals (Volume network protocol poolID atSlot t') =
    totals (Volume network protocol poolID atSlot (run ops t0 (mkLog [] 0)).1).
Proof.
  intros Hw Ht0 Hfresh Hops Hd.
  destruct (run_durable ops t0 (mkLog [] 0) Hops Hd (wf_new _ _ Ht0 Hw) (durable_new _ _ Ht0))
    as [Hwf Hdt].
  assert (windowSlots fresh = windowSlots (run ops t0 (mkLog [] 0)).1) as Hwin.
  { rewrite windowSlots_run. unfold NewActivityTracker in *. go_cases. done. }
  destruct (Restore_Snapshot _ fresh Hwf Hdt Hwin) as (t' & HR & Hwf' & Heq).
  exists t'. split_and!; [done..|]. by apply Volume_totals_equiv.
Qed.

Definition restart_ops : list op :=
  [ OpObserveTransition None (sample_at 1000 1000 1);
    OpObserveTransition (sample_at 1000 1000 1) (sample_at 1100 910 2);
    OpObserveTransition (sample_at 1100 910 2) (sample_at 1050 955 7);
    OpObserveTransition (sample_at 1050 955 7) (sample_at 1150 870 9);
    OpRollback 9 ].

Lemma restart_preserves_activity_witness :
  exists t', Restore (Snapshot (run restart_ops sample_tracker (mkLog [] 0)).1) sample_tracker
    = (t', Ok tt) /\
    totals (Volume "mainnet" "cswap" "pool1" 9 t') = Ok (Some (150, 135, 2)).
Proof.
  destruct (restart_preserves_activity 10 sample_tracker sample_tracker restart_ops
    "mainnet" "cswap" "pool1" 9) as (t' & HR & _ & HV);
    [lia | reflexivity | reflexivity | wf_pools | wf_pools |].
  exists t'. split; [exact HR|]. rewrite HV. vm_compute. reflexivity.
Defined.
