(* ===== verification/Twap.v ===== *)
(** * Twap: the time-weighted average price engine ([price/twap.go]). *)
From S2P Require Import Prelude.
From S2P Require Import Text.
From S2P Require Import Float64.

Inductive twap_error :=
| ErrInvalidTWAPConfig
| ErrInvalidTWAPObservation
| ErrOutOfOrderTWAP
| ErrInsufficientTWAPHistory
| ErrStaleTWAP
| ErrTWAPRollbackUnavailable
| ErrInvalidTWAPState
| ErrTWAPNonFinitePrice.

Record TWAPConfig := mkTWAPConfig {
  Window : Z;
  MinCoverage : Z;
  MaxStaleness : Z;
  MaxObservations : Z;
}.

Record TWAPResult := mkTWAPResult {
  tr_PriceNum : string;
  tr_PriceDen : string;
  tr_Price : float64;
  tr_WindowStart : Z;
  tr_WindowEnd : Z;
  tr_Coverage : Z;
  tr_ObservationCount : Z;
  tr_LastSlot : Z;
  tr_LastObservedAt : Z;
  tr_price : rat;
}.

(** The persisted form of an observation. *)
Record TWAPObservation := mkTWAPObservation {
  po_Slot : Z;
  po_At : Z;
  po_PriceNum : string;
  po_PriceDen : string;
}.

Record TWAPState := mkTWAPState {
  ts_Config : TWAPConfig;
  ts_Observations : list TWAPObservation;
  ts_HistoryPruned : bool;
}.

Record twapObservation := mkObs { o_slot : Z; o_at : Z; o_price : rat }.

Record TWAPEngine := mkEngine {
  config : TWAPConfig;
  observations : list twapObservation;
  historyPruned : bool;
}.

Definition NewTWAPEngine (c : TWAPConfig) : result twap_error TWAPEngine :=
  if (Window c <=? 0) || (MinCoverage c <=? 0) || (Window c <? MinCoverage c)
     || (MaxStaleness c <? 0) || (MaxObservations c <? 1)
  then Err ErrInvalidTWAPConfig
  else Ok (mkEngine c [] false).

(** The number of leading observations that satisfy a test. *)
Fixpoint leading {A} (p : A -> bool) (l : list A) : nat :=
  match l with
  | [] => 0
  | x :: l' => if p x then S (leading p l') else 0
  end.

Definition prune (latest : Z) (e : TWAPEngine) : TWAPEngine :=
  let cutoff := Add latest (- Window (config e)) in
  let firstAfter := leading (fun o => negb (After (o_at o) cutoff)) (observations e) in
  let keepFrom := if (0 <? firstAfter)%nat then (firstAfter - 1)%nat else 0%nat in
  let remaining := Z.of_nat (length (observations e)) - Z.of_nat keepFrom in
  let keepFrom :=
    if MaxObservations (config e) <? remaining
    then (keepFrom + Z.to_nat (remaining - MaxObservations (config e)))%nat
    else keepFrom in
  if Nat.eqb keepFrom 0 then e
  else mkEngine (config e) (drop keepFrom (observations e)) true.

Definition Observe (slot observedAt : Z) (value : option rat) (e : TWAPEngine)
  : TWAPEngine * result twap_error unit :=
  match value with
  | None => (e, Err ErrInvalidTWAPObservation)
  | Some v =>
      if IsZero observedAt || negb (RatPos v) then (e, Err ErrInvalidTWAPObservation)
      else
        let accept :=
          (prune observedAt
             (mkEngine (config e) (observations e ++ [mkObs slot observedAt v]) (historyPruned e)),
           Ok tt) in
        match last (observations e) with
        | Some latest =>
            if (slot <=? o_slot latest) || negb (After observedAt (o_at latest))
            then (e, Err ErrOutOfOrderTWAP)
            else accept
        | None => accept
        end
  end.

Definition addWeightedPrice (total value : rat) (d : Z) : rat :=
  if d <=? 0 then total else RatAdd total (RatMul value (SetInt d)).

(** The loop of [TWAPAt] over the observations after the first. *)
Fixpoint weigh (l : list twapObservation) (weighted : rat) (current : twapObservation)
    (intervalStart count : Z) : rat * twapObservation * Z * Z :=
  match l with
  | [] => (weighted, current, intervalStart, count)
  | o :: l' =>
      if negb (After (o_at o) intervalStart) then weigh l' weighted o intervalStart count
      else
        weigh l' (addWeightedPrice weighted (o_price current) (Sub (o_at o) intervalStart))
          o (o_at o) (count + 1)
  end.

Definition TWAPAt (now : Z) (e : TWAPEngine) : result twap_error TWAPResult :=
  let upto := drop_back (fun o => After (o_at o) now) (observations e) in
  match last upto with
  | None => Err ErrInsufficientTWAPHistory
  | Some latest =>
      if MaxStaleness (config e) <? Sub now (o_at latest) then Err ErrStaleTWAP
      else
        let windowStart := Add now (- Window (config e)) in
        let start := leading (fun o => Before (o_at o) windowStart) upto in
        let start := if (0 <? start)%nat then (start - 1)%nat else start in
        match drop start upto with
        | [] => Err ErrInsufficientTWAPHistory
        | first :: rest =>
            let coverageStart :=
              if After (o_at first) windowStart then o_at first else windowStart in
            let coverage := Sub now coverageStart in
            if coverage <? MinCoverage (config e) then Err ErrInsufficientTWAPHistory
            else
              let intervalStart :=
                if After (o_at first) coverageStart then o_at first else coverageStart in
              let '(weighted, current, intervalStart, count) :=
                weigh rest 0%Q first intervalStart 1 in
              let weighted := addWeightedPrice weighted (o_price current) (Sub now intervalStart) in
              let weighted := RatQuo weighted (SetInt coverage) in
              match finiteFloat64 weighted with
              | None => Err ErrTWAPNonFinitePrice
              | Some value =>
                  Ok (mkTWAPResult (IntString (Num weighted)) (IntString (Denom weighted)) value
                        windowStart now coverage count (o_slot latest) (o_at latest) weighted)
              end
        end
  end.

Definition Rollback (slot : Z) (e : TWAPEngine) : TWAPEngine * result twap_error unit :=
  match last (observations e) with
  | Some latest =>
      if o_slot latest <=? slot then (e, Ok tt)
      else
        if historyPruned e
           && match head (observations e) with Some o => slot <? o_slot o | None => true end
        then (e, Err ErrTWAPRollbackUnavailable)
        else
          (mkEngine (config e) (drop_back (fun o => slot <? o_slot o) (observations e))
             (historyPruned e), Ok tt)
  | None =>
      if historyPruned e then (e, Err ErrTWAPRollbackUnavailable) else (e, Ok tt)
  end.

Definition Snapshot (e : TWAPEngine) : TWAPState :=
  mkTWAPState (config e)
    ((fun o => mkTWAPObservation (o_slot o) (o_at o)
                 (IntString (Num (o_price o))) (IntString (Denom (o_price o))))
       <$> observations e)
    (historyPruned e).

(** The loop of [NewTWAPEngineFromState]. *)
Fixpoint replay (l : list TWAPObservation) (e : TWAPEngine) : result twap_error TWAPEngine :=
  match l with
  | [] => Ok e
  | o :: l' =>
      match SetString (po_PriceNum o), SetString (po_PriceDen o) with
      | Some numerator, Some denominator =>
          if denominator <=? 0 then Err ErrInvalidTWAPState
          else
            match Observe (po_Slot o) (po_At o) (Some (SetFrac numerator denominator)) e with
            | (e', Ok _) => replay l' e'
            | (_, Err _) => Err ErrInvalidTWAPState
            end
      | _, _ => Err ErrInvalidTWAPState
      end
  end.

Definition NewTWAPEngineFromState (s : TWAPState) : result twap_error TWAPEngine :=
  match NewTWAPEngine (ts_Config s) with
  | Err _ => Err ErrInvalidTWAPState
  | Ok e0 =>
      match replay (ts_Observations s) (mkEngine (config e0) (observations e0) (ts_HistoryPruned s)) with
      | Err err => Err err
      | Ok e =>
          if negb (Nat.eqb (length (observations e)) (length (ts_Observations s)))
          then Err ErrInvalidTWAPState
          else Ok (mkEngine (config e) (observations e) (ts_HistoryPruned s))
      end
  end.

(** ** The engine invariant *)

Definition valid_config (c : TWAPConfig) : Prop :=
  0 < MinCoverage c <= Window c /\ 0 <= MaxStaleness c /\ 1 <= MaxObservations c.

(** The window is a [time.Duration]. *)
Definition wf_config (c : TWAPConfig) : Prop := valid_config c /\ is_i64 (Window c).

Definition earlier (a b : twapObservation) : Prop := o_slot a < o_slot b /\ o_at a < o_at b.

Definition wf_obs (o : twapObservation) : Prop :=
  o_at o <> 0 /\ (0 < o_price o)%Q /\ canonical (o_price o).

(** Everything after the first observation is inside the window that ends at
    the last one. *)
Definition in_window (w : Z) (l : list twapObservation) : Prop :=
  match last l with
  | Some z => Forall (fun o => o_at z - w < o_at o) (tail l)
  | None => True
  end.

Record wf_engine (e : TWAPEngine) : Prop := {
  we_config : wf_config (config e);
  we_sorted : StronglySorted earlier (observations e);
  we_obs : Forall wf_obs (observations e);
  we_bound : Z.of_nat (length (observations e)) <= MaxObservations (config e);
  we_window : in_window (Window (config e)) (observations e);
}.

Lemma NewTWAPEngine_ok c e :
  NewTWAPEngine c = Ok e <-> valid_config c /\ e = mkEngine c [] false.
Proof.
  unfold NewTWAPEngine, valid_config. split.
  - intros H. go_cases. bool_prop. split; [lia|done].
  - intros [H ->]. case_match eqn:E; [|done].
    rewrite !orb_true_iff, !Z.ltb_lt, !Z.leb_le in E. lia.
Qed.

Lemma wf_engine_new c e : is_i64 (Window c) -> NewTWAPEngine c = Ok e -> wf_engine e.
Proof.
  intros Hw [Hc ->]%NewTWAPEngine_ok.
  split; cbn; try done; [constructor.. | unfold valid_config in Hc; lia].
Qed.

Lemma leading_le {A} (p : A -> bool) l : (leading p l <= length l)%nat.
Proof. induction l; cbn; [lia|]. case_match; lia. Qed.

Lemma leading_drop {A} (p : A -> bool) l : drop (leading p l) l = drop_while p l.
Proof. induction l as [|x l IH]; cbn; [done|]. by case_match. Qed.

(** The suffix from one before the first element that fails the test: all but
    its head fail it, when the test is monotone along the list. *)
Lemma drop_leading_tail (p : twapObservation -> bool) l :
  StronglySorted earlier l ->
  (forall a b, earlier a b -> p b = true -> p a = true) ->
  Forall (fun o => p o = false) (tail (drop (leading p l - 1) l)).
Proof.
  intros Hs Hp. assert (Forall (fun o => p o = false) (drop (leading p l) l)) as Hd.
  { rewrite leading_drop. induction Hs as [|x l Hs IH Hx]; cbn; [constructor|].
    destruct (p x) eqn:E; [done|]. constructor; [done|].
    eapply Forall_impl; [exact Hx|]. cbn. intros y Hxy.
    destruct (p y) eqn:Ey; [|done]. rewrite (Hp _ _ Hxy Ey) in E. done. }
  destruct (leading p l) as [|n] eqn:E.
  - cbn in *. by destruct Hd.
  - replace (S n - 1)%nat with n by lia. destruct (drop n l) as [|x d] eqn:Ed; [constructor|].
    rewrite <- Nat.add_1_r, <- drop_drop, Ed in Hd. done.
Qed.

Lemma last_drop {A} (l : list A) k : (k < length l)%nat -> last (drop k l) = last l.
Proof.
  intros Hk. rewrite <- (take_drop k l) at 2. rewrite last_app.
  destruct (last (drop k l)) eqn:E; [done|].
  apply last_None in E. apply (f_equal length) in E. rewrite length_drop in E. cbn in E. lia.
Qed.

Lemma tail_drop_Forall {A} (P : A -> Prop) (l : list A) k :
  Forall P (tail l) -> Forall P (tail (drop k l)).
Proof.
  intros H. destruct k as [|k]; [done|]. destruct l as [|x l]; [done|]. cbn in *.
  rewrite <- (drop_drop l k 1) || idtac.
  assert (tail (drop k l) = drop (S k) l) as ->.
  { clear. revert l. induction k; intros [|y l]; cbn; auto. }
  by apply Forall_drop.
Qed.

(** What pruning keeps: a non-empty suffix that ends at the latest observation,
    within the bounds; [historyPruned] records whether anything was dropped. *)
Lemma prune_spec e latest z :
  valid_config (config e) -> StronglySorted earlier (observations e) ->
  last (observations e) = Some z -> o_at z = latest ->
  exists k, (k < length (observations e))%nat /\
    config (prune latest e) = config e /\
    observations (prune latest e) = drop k (observations e) /\
    historyPruned (prune latest e) = (historyPruned e || (0 <? k)%nat) /\
    Z.of_nat (length (drop k (observations e))) <= MaxObservations (config e) /\
    in_window (Window (config e)) (drop k (observations e)).
Proof.
  intros Hc Hs Hz <-. unfold prune, Add.
  set (p := fun o => negb (After (o_at o) (o_at z + - Window (config e)))).
  set (l := observations e) in *. set (n := leading p l).
  assert (0 < length l)%nat as Hlen by (destruct l; [done | cbn; lia]).
  assert (n - 1 < length l)%nat as Hn by (pose proof (leading_le p l); lia).
  assert (Forall (fun o => o_at z - Window (config e) < o_at o) (tail (drop (n - 1) l))) as Ht.
  { eapply Forall_impl; [apply (drop_leading_tail p); [done|]|].
    - intros a b [_ Hab]. unfold p, After. rewrite !negb_true_iff, !Z.ltb_ge. lia.
    - cbn. intros o. unfold p, After. rewrite negb_false_iff, Z.ltb_lt. lia. }
  assert ((if (0 <? n)%nat then (n - 1)%nat else 0%nat) = (n - 1)%nat) as ->
    by (destruct (Nat.ltb_spec 0 n); lia).
  set (r := Z.of_nat (length l) - Z.of_nat (n - 1)).
  set (k := if MaxObservations (config e) <? r
            then ((n - 1) + Z.to_nat (r - MaxObservations (config e)))%nat else (n - 1)%nat).
  unfold valid_config in Hc.
  assert ((n - 1 <= k < length l)%nat /\
    Z.of_nat (length (drop k l)) <= MaxObservations (config e)) as [Hk Hb].
  { rewrite length_drop. unfold k, r. destruct (Z.ltb_spec (MaxObservations (config e))
      (Z.of_nat (length l) - Z.of_nat (n - 1))); lia. }
  assert (in_window (Window (config e)) (drop k l)) as Hwin.
  { unfold in_window. rewrite last_drop, Hz by lia.
    replace k with ((n - 1) + (k - (n - 1)))%nat by lia. rewrite <- drop_drop.
    by apply tail_drop_Forall. }
  exists k. destruct (Nat.eqb_spec k 0) as [Hk0|Hk0]; cbn [config observations historyPruned].
  - rewrite Hk0 in *. cbn [Nat.ltb Nat.leb drop]. rewrite orb_false_r. split_and!; [lia|done..].
  - rewrite (proj2 (Nat.ltb_lt 0 k)), orb_true_r by lia. split_and!; [lia|done..].
Qed.

(** Nothing is pruned from observations that are already within bounds. *)
Lemma prune_id e latest :
  in_window (Window (config e)) (observations e) ->
  match last (observations e) with Some z => o_at z = latest | None => True end ->
  Z.of_nat (length (observations e)) <= MaxObservations (config e) ->
  prune latest e = e.
Proof.
  intros Hw Hl Hb. unfold prune, Add, in_window in *.
  set (p := fun o => negb (After (o_at o) (latest + - Window (config e)))).
  assert (leading p (observations e) <= 1)%nat as Hlead.
  { destruct (observations e) as [|x [|y l]] eqn:E; cbn [leading]; [lia|destruct (p x); lia|].
    destruct (last (x :: y :: l)) as [z|] eqn:Hz; [|by rewrite last_None in Hz].
    subst latest. cbn [tail] in Hw. apply Forall_cons in Hw as [Hy _].
    assert (p y = false) as ->.
    { unfold p, After. apply negb_false_iff, Z.ltb_lt. lia. }
    destruct (p x); lia. }
  assert ((if (0 <? leading p (observations e))%nat
           then (leading p (observations e) - 1)%nat else 0%nat) = 0%nat) as ->
    by (destruct (Nat.ltb_spec 0 (leading p (observations e))); lia).
  rewrite (proj2 (Z.ltb_ge (MaxObservations (config e)) _)) by lia. done.
Qed.

Lemma in_window_prefix w l1 l2 :
  StronglySorted earlier (l1 ++ l2) -> in_window w (l1 ++ l2) -> in_window w l1.
Proof.
  intros Hs Hw. unfold in_window in *. rewrite last_app in Hw.
  destruct (last l1) as [z|] eqn:Hz; [|done].
  assert (Forall (fun o => match last l2 with Some y => o_at y | None => o_at z end - w < o_at o)
            (tail l1)) as Ht.
  { destruct l1 as [|x l1]; [done|]. destruct (last l2); cbn in *;
      (apply Forall_app in Hw as [Hw _] || idtac); done. }
  eapply Forall_impl; [exact Ht|]. cbn. intros o Ho.
  destruct (last l2) as [y|] eqn:Hy; [|done].
  apply StronglySorted_app in Hs as (Hs & _ & _).
  enough (o_at z < o_at y) by lia.
  apply Hs; apply list_elem_of_lookup.
  - exists (pred (length l1)). by rewrite <- last_lookup.
  - exists (pred (length l2)). by rewrite <- last_lookup.
Qed.

(** The observation that is appended, and when. *)
Lemma Observe_ok slot at_ value e e' :
  Observe slot at_ value e = (e', Ok tt) <->
  exists v, value = Some v /\ at_ <> 0 /\ (0 < v)%Q /\
    (forall z, last (observations e) = Some z -> earlier z (mkObs slot at_ v)) /\
    e' = prune at_ (mkEngine (config e) (observations e ++ [mkObs slot at_ v]) (historyPruned e)).
Proof.
  unfold Observe, earlier. split.
  - intros H. destruct value as [v|]; [|done]. exists v.
    destruct (IsZero at_ || negb (RatPos v)) eqn:E1; [done|].
    unfold IsZero in E1. bool_prop. rewrite RatPos_spec in *.
    split; [done|]. split; [done|]. split; [done|].
    destruct (last (observations e)) as [z|]; [|naive_solver].
    destruct ((slot <=? o_slot z) || negb (After at_ (o_at z))) eqn:E2; [done|].
    unfold After in E2. bool_prop. split; [|congruence]. intros ? [= <-]. cbn. lia.
  - intros (v & -> & H0 & Hv & Hl & ->).
    rewrite <- RatPos_spec in Hv. unfold IsZero. rewrite Hv, (proj2 (Z.eqb_neq _ _) H0). cbn [orb negb].
    destruct (last (observations e)) as [z|]; [|done].
    destruct (Hl z eq_refl) as [H1 H2]. cbn in *. unfold After.
    rewrite (proj2 (Z.leb_gt slot (o_slot z)) H1), (proj2 (Z.ltb_lt (o_at z) at_) H2). done.
Qed.

Lemma Observe_err slot at_ value e e' err :
  Observe slot at_ value e = (e', Err err) -> e' = e.
Proof. unfold Observe. intros H. go_cases; done. Qed.

Lemma sorted_snoc l o :
  StronglySorted earlier l -> (forall z, last l = Some z -> earlier z o) ->
  StronglySorted earlier (l ++ [o]).
Proof.
  intros Hs Hl. apply StronglySorted_app. split_and!; [|done|by repeat constructor].
  intros x y Hx ->%list_elem_of_singleton.
  destruct l as [|z l _] using rev_ind; [by apply not_elem_of_nil in Hx|].
  specialize (Hl z). rewrite last_snoc in Hl. specialize (Hl eq_refl).
  apply elem_of_app in Hx as [Hx | ->%list_elem_of_singleton]; [|done].
  apply StronglySorted_app in Hs as (Hs & _ & _).
  specialize (Hs x z Hx (list_elem_of_here _ _)). unfold earlier in *. lia.
Qed.

(** What is in the engine after an accepted observation: a non-empty suffix of
    the history with the new observation at its end. *)
Lemma Observe_spec slot at_ v e e' :
  wf_engine e -> canonical v -> Observe slot at_ (Some v) e = (e', Ok tt) ->
  wf_engine e' /\ config e' = config e /\
  exists k, (k < length (observations e ++ [mkObs slot at_ v]))%nat /\
    observations e' = drop k (observations e ++ [mkObs slot at_ v]) /\
    historyPruned e' = (historyPruned e || (0 <? k)%nat).
Proof.
  intros [[Hc Hw] Hs Ho Hb Hin] Hcan H.
  apply Observe_ok in H as (v' & [= <-] & H0 & Hv & Hl & ->).
  pose proof (sorted_snoc _ _ Hs Hl) as Hs'.
  destruct (prune_spec (mkEngine (config e) (observations e ++ [mkObs slot at_ v]) (historyPruned e))
    at_ (mkObs slot at_ v)) as (k & Hk & E1 & E2 & E3 & Hb' & Hin'); [done|done|apply last_snoc|done|].
  cbn [config observations historyPruned] in *.
  assert (Forall wf_obs (observations e ++ [mkObs slot at_ v])) as Ho'
    by (apply Forall_app; split; [done | by repeat constructor]).
  split; [|by split; [done|exists k]].
  rewrite <- (take_drop k) in Hs', Ho'.
  split; rewrite ?E1, ?E2; [done| | |done..].
  - by apply StronglySorted_app in Hs' as (_ & _ & ?).
  - by apply Forall_app in Ho' as [_ ?].
Qed.

Lemma sorted_slots l :
  StronglySorted earlier l -> StronglySorted (fun x y => o_slot x <= o_slot y) l.
Proof.
  induction 1 as [|x l _ IH Hx]; constructor; [done|].
  eapply Forall_impl; [exact Hx|]. unfold earlier. cbn. lia.
Qed.

Lemma sorted_times l :
  StronglySorted earlier l -> StronglySorted (fun x y => o_at x <= o_at y) l.
Proof.
  induction 1 as [|x l _ IH Hx]; constructor; [done|].
  eapply Forall_impl; [exact Hx|]. unfold earlier. cbn. lia.
Qed.

(** Walking back from the end of the observations is filtering by slot or time. *)
Lemma drop_back_slot slot l :
  StronglySorted earlier l ->
  drop_back (fun o => slot <? o_slot o) l = filter (fun o => o_slot o <= slot) l.
Proof.
  intros Hs%sorted_slots. erewrite list_filter_iff.
  - rewrite <- (drop_back_sorted o_slot (slot + 1) l Hs). unfold drop_back. f_equal.
    induction (reverse l) as [|x l' IH]; [done|]. cbn.
    rewrite IH. destruct (Z.ltb_spec slot (o_slot x)), (Z.leb_spec (slot + 1) (o_slot x)); (done || lia).
  - intros o. cbn. lia.
Qed.

Lemma drop_back_time now l :
  StronglySorted earlier l ->
  drop_back (fun o => After (o_at o) now) l = filter (fun o => o_at o <= now) l.
Proof.
  intros Hs%sorted_times. erewrite list_filter_iff.
  - rewrite <- (drop_back_sorted o_at (now + 1) l Hs). unfold drop_back, After. f_equal.
    induction (reverse l) as [|x l' IH]; [done|]. cbn.
    rewrite IH. destruct (Z.ltb_spec now (o_at x)), (Z.leb_spec (now + 1) (o_at x)); (done || lia).
  - intros o. cbn. lia.
Qed.

Lemma wf_engine_prefix e l1 l2 :
  wf_engine e -> observations e = l1 ++ l2 -> wf_engine (mkEngine (config e) l1 (historyPruned e)).
Proof.
  intros [Hc Hs Ho Hb Hin] Hl. rewrite Hl in *. split; cbn [config observations]; [done| | | |].
  - by apply StronglySorted_app in Hs as (_ & ? & _).
  - by apply Forall_app in Ho as [? _].
  - rewrite length_app in Hb. lia.
  - by eapply in_window_prefix.
Qed.

(** Every branch of [Rollback], as a filter. *)
Lemma Rollback_spec slot e :
  wf_engine e ->
  Rollback slot e =
    if historyPruned e && match head (observations e) with Some o => slot <? o_slot o | None => true end
    then (e, Err ErrTWAPRollbackUnavailable)
    else (mkEngine (config e) (filter (fun o => o_slot o <= slot) (observations e))
            (historyPruned e), Ok tt).
Proof.
  intros [_ Hs _ _ _]. unfold Rollback. rewrite drop_back_slot by done.
  destruct e as [c l h]; cbn [config observations historyPruned] in *.
  destruct (last l) as [z|] eqn:Hz.
  - destruct (Z.leb_spec (o_slot z) slot) as [Hle|]; [|done].
    assert (Forall (fun o => o_slot o <= slot) l) as Hall.
    { destruct l as [|y l _] using rev_ind; [done|]. rewrite last_snoc in Hz. injection Hz as ->.
      apply Forall_app. split; [|by apply Forall_singleton].
      apply StronglySorted_app in Hs as (Hs & _ & _). apply Forall_forall. intros x Hx.
      specialize (Hs x z Hx (list_elem_of_here _ _)). unfold earlier in Hs. lia. }
    rewrite filter_all by done. destruct l as [|y l]; [done|]. cbn [head].
    apply Forall_cons in Hall as [Hy _]. rewrite (proj2 (Z.ltb_ge slot (o_slot y))) by lia.
    by rewrite andb_false_r.
  - apply last_None in Hz as ->. cbn. by destruct h.
Qed.

Lemma wf_engine_Rollback slot e : wf_engine e -> wf_engine (Rollback slot e).1.
Proof.
  intros Hwf. rewrite Rollback_spec by done. case_match; [done|]. cbn [fst].
  rewrite <- drop_back_slot by apply Hwf.
  destruct (drop_back_prefix (fun o => slot <? o_slot o) (observations e)) as [k [Hk _]].
  by eapply wf_engine_prefix.
Qed.

(** ** The complete history

    The specification keeps every accepted observation and forgets exactly what
    a successful rollback takes away. *)

Inductive op :=
| OpObserve (slot at_ : Z) (value : option rat)
| OpRollback (slot : Z).

Definition wf_op (o : op) : Prop :=
  match o with OpObserve _ _ (Some v) => canonical v | _ => True end.

Definition step (o : op) (e : TWAPEngine) : TWAPEngine * result twap_error unit :=
  match o with
  | OpObserve slot at_ value => Observe slot at_ value e
  | OpRollback slot => Rollback slot e
  end.

Definition history_step (o : op) (r : result twap_error unit) (h : list twapObservation)
  : list twapObservation :=
  match r, o with
  | Err _, _ => h
  | Ok _, OpObserve slot at_ (Some v) => h ++ [mkObs slot at_ v]
  | Ok _, OpObserve _ _ None => h
  | Ok _, OpRollback slot => filter (fun o => o_slot o <= slot) h
  end.

Fixpoint run (ops : list op) (e : TWAPEngine) (h : list twapObservation)
  : TWAPEngine * list twapObservation :=
  match ops with
  | [] => (e, h)
  | o :: ops' => let '(e', r) := step o e in run ops' e' (history_step o r h)
  end.

(** The engine holds the end of the history, all of it unless it says that it
    pruned, and never prunes the latest observation. *)
Record refines (e : TWAPEngine) (h : list twapObservation) : Prop := {
  rf_wf : wf_engine e;
  rf_sorted : StronglySorted earlier h;
  rf_suffix : exists pre, h = pre ++ observations e /\
    (historyPruned e = false -> pre = []) /\ (observations e = [] -> pre = []);
}.

Lemma refines_observe slot at_ v e e' h :
  refines e h -> canonical v -> Observe slot at_ (Some v) e = (e', Ok tt) ->
  refines e' (h ++ [mkObs slot at_ v]).
Proof.
  intros [Hwf Hs (pre & -> & Hp & Hne)] Hcan HO.
  destruct (Observe_spec _ _ _ _ _ Hwf Hcan HO) as (Hwf' & Hc & k & Hk & Hobs & Hpr).
  split; [done| |].
  - apply sorted_snoc; [done|]. intros z Hz.
    apply Observe_ok in HO as (v' & [= <-] & _ & _ & Hl & _). apply Hl.
    rewrite last_app in Hz. destruct (last (observations e)) eqn:E; [done|].
    apply last_None in E. by rewrite Hne in Hz.
  - exists (pre ++ take k (observations e ++ [mkObs slot at_ v])).
    rewrite Hobs, <- !app_assoc, take_drop. split; [done|]. split.
    + rewrite Hpr. intros [Hf Hk0]%orb_false_iff. apply Nat.ltb_ge in Hk0.
      rewrite Hp by done. by replace k with 0%nat by lia.
    + intros Hd. apply (f_equal length) in Hd. rewrite length_drop in Hd. cbn in Hd. lia.
Qed.

Lemma history_rollback slot e e' h :
  refines e h -> Rollback slot e = (e', Ok tt) ->
  refines e' (filter (fun o => o_slot o <= slot) h).
Proof.
  intros [Hwf Hs (pre & -> & Hp & Hne)] HR.
  pose proof (wf_engine_Rollback slot e Hwf) as Hwf'. rewrite HR in Hwf'.
  rewrite Rollback_spec in HR by done. case_match eqn:E; [done|]. injection HR as <-.
  split; [done|by apply StronglySorted_filter|]. cbn [observations historyPruned].
  apply andb_false_iff in E as [E|E].
  { rewrite (Hp E). exists []. split; [|done]. done. }
  destruct (observations e) as [|o l] eqn:Hl; [done|]. cbn [head] in E. bool_prop.
  exists pre. rewrite filter_app. split.
  - f_equal. apply filter_all, Forall_forall. intros x Hx.
    apply StronglySorted_app in Hs as (Hs & _ & _).
    specialize (Hs x o Hx (list_elem_of_here _ _)). unfold earlier in Hs. lia.
  - split; [done|]. rewrite filter_cons_True by lia. done.
Qed.

Lemma history_refines_step o e h :
  wf_op o -> refines e h ->
  refines (step o e).1 (history_step o (step o e).2 h).
Proof.
  intros Ho HR. destruct o as [slot at_ [v|]|slot]; cbn [step].
  - destruct (Observe slot at_ (Some v) e) as [e' [[]|err]] eqn:E; cbn.
    + by eapply refines_observe.
    + by apply Observe_err in E as ->.
  - done.
  - destruct (Rollback slot e) as [e' [[]|err]] eqn:E; cbn [fst snd history_step].
    + by eapply history_rollback.
    + rewrite Rollback_spec in E by apply HR. case_match; [|done]. by injection E as <- _.
Qed.

Lemma history_run ops e h :
  Forall wf_op ops -> refines e h -> refines (run ops e h).1 (run ops e h).2.
Proof.
  intros Hops. revert e h. induction Hops as [|o ops Ho _ IH]; intros e h HR; [done|].
  cbn [run]. pose proof (history_refines_step o e h Ho HR) as Hs. destruct (step o e). by apply IH.
Qed.

Lemma history_new c e : is_i64 (Window c) -> NewTWAPEngine c = Ok e -> refines e [].
Proof.
  intros Hw HN. split; [by eapply wf_engine_new|constructor|].
  apply NewTWAPEngine_ok in HN as [_ ->]. by exists [].
Qed.

(** ** The average, as an integral

    An observation's price is in force from its time to that of the next one:
    the integral of that step function from [a] to [b]. *)
Definition until (b : Z) (l : list twapObservation) : Z :=
  match l with o :: _ => Z.min b (o_at o) | [] => b end.

Fixpoint integral (a b : Z) (l : list twapObservation) : Q :=
  match l with
  | [] => 0
  | o :: l' =>
      o_price o * inject_Z (Z.max 0 (until b l' - Z.max a (o_at o))) + integral a b l'
  end%Q.

Lemma addWeightedPrice_eq t v d :
  (addWeightedPrice t v d == t + v * inject_Z (Z.max 0 d))%Q.
Proof.
  unfold addWeightedPrice, SetInt. destruct (Z.leb_spec d 0).
  - rewrite Z.max_l by lia. ring.
  - autorewrite with rat. rewrite Z.max_r by lia. ring.
Qed.

Lemma Sub_small a b : is_i64 (a - b) -> Sub a b = a - b.
Proof. apply clamp_i64_small. Qed.

(** The loop accumulates the integral up to the observation in force. *)
Lemma weigh_spec a b l w c s n w' c' s' n' :
  StronglySorted earlier (c :: l) -> Forall (fun o => o_at o <= b) (c :: l) ->
  a <= b -> is_i64 (b - a) -> s = Z.max a (o_at c) ->
  weigh l w c s n = (w', c', s', n') ->
  (w' + o_price c' * inject_Z (b - s') == w + integral a b (c :: l))%Q /\
  a <= s' <= b.
Proof.
  intros Hs Hb Hab Hr. revert w c s n Hs Hb. induction l as [|o l IH]; intros w c s n Hs Hb -> Hw.
  - cbn in *. injection Hw as <- <- <- <-. apply Forall_cons in Hb as [Hc _].
    rewrite (Z.max_r 0) by lia. split; [ring|lia].
  - apply StronglySorted_cons in Hs as [Hco Hs]. apply Forall_cons in Hb as [Hc Hb].
    apply Forall_cons in Hco as [[_ Hco] _]. pose proof (Forall_inv Hb) as Ho. cbn in Ho.
    cbn [weigh] in Hw. change (integral a b (c :: o :: l)) with
      (o_price c * inject_Z (Z.max 0 (Z.min b (o_at o) - Z.max a (o_at c))) + integral a b (o :: l))%Q.
    unfold After in Hw. destruct (Z.ltb_spec (Z.max a (o_at c)) (o_at o)); cbn [negb] in Hw.
    + destruct (fun E => IH _ _ _ _ Hs Hb E Hw) as [Heq Hs']; [lia|]. split; [|lia].
      rewrite Heq, addWeightedPrice_eq, Sub_small by int_lia.
      rewrite (Z.min_r b) by lia. ring.
    + destruct (fun E => IH _ _ _ _ Hs Hb E Hw) as [Heq Hs']; [lia|]. split; [|lia].
      rewrite Heq, (Z.max_l 0) by lia. ring.
Qed.

Lemma integral_app a b l1 o l2 :
  StronglySorted earlier (l1 ++ o :: l2) -> o_at o <= a ->
  (integral a b (l1 ++ o :: l2) == integral a b (o :: l2))%Q.
Proof.
  intros Hs Ho. induction l1 as [|x l1 IH]; [done|]. cbn [app] in *.
  apply StronglySorted_cons in Hs as [Hx Hs].
  cbn [integral]. rewrite (IH Hs), Z.max_l; [cbn [integral]; ring|].
  assert (Forall (fun y => o_at y <= a) (l1 ++ [o])) as Hl.
  { apply Forall_app. split; [|by apply Forall_singleton].
    apply StronglySorted_app in Hs as (Hs & _ & _). apply Forall_forall. intros y Hy.
    specialize (Hs y o Hy (list_elem_of_here _ _)). unfold earlier in Hs. lia. }
  destruct l1 as [|y l1]; cbn in *; apply Forall_cons in Hl as [Hy _]; lia.
Qed.

(** Observations after [b] do not contribute. *)
Lemma integral_future a b l1 l2 :
  Forall (fun o => b < o_at o) l2 ->
  (integral a b (l1 ++ l2) == integral a b l1)%Q.
Proof.
  intros Hl2. assert (integral a b l2 == 0)%Q as H0.
  { induction Hl2 as [|o l Ho Hl IH]; [done|]. cbn [integral]. rewrite IH, Z.max_l; [ring|].
    cbn in Ho. destruct l; cbn [until]; lia. }
  assert (until b l2 = b) as Hu by (destruct Hl2; cbn; lia).
  induction l1 as [|x l1 IH]; [done|]. cbn [app integral]. rewrite IH.
  enough (until b (l1 ++ l2) = until b l1) as -> by done. by destruct l1.
Qed.

(** The integral of a price that stays within bounds does. *)
Lemma integral_bounds lo hi a b c l :
  StronglySorted earlier (c :: l) -> Forall (fun o => o_at o <= b) (c :: l) -> a <= b ->
  Forall (fun o => lo <= o_price o <= hi)%Q (c :: l) ->
  (lo * inject_Z (b - Z.max a (o_at c)) <= integral a b (c :: l) <=
   hi * inject_Z (b - Z.max a (o_at c)))%Q.
Proof.
  intros Hs Hb Hab. revert c Hs Hb. induction l as [|o l IH]; intros c Hs Hb Hp.
  - cbn [integral until]. apply Forall_inv in Hb, Hp. cbn in Hb, Hp. rewrite (Z.max_r 0) by lia.
    rewrite Qplus_0_r. assert (0 <= inject_Z (b - Z.max a (o_at c)))%Q
      by (change 0%Q with (inject_Z 0); rewrite <- Zle_Qle; lia). split; apply Qmult_le_compat_r; tauto.
  - apply StronglySorted_cons in Hs as [Hco Hs]. apply Forall_cons in Hb as [Hc Hb], Hp as [Hpc Hp].
    apply Forall_cons in Hco as [[_ Hco] _]. pose proof (Forall_inv Hb) as Ho. cbn in Ho.
    specialize (IH o Hs Hb Hp).
    change (integral a b (c :: o :: l)) with
      (o_price c * inject_Z (Z.max 0 (Z.min b (o_at o) - Z.max a (o_at c))) + integral a b (o :: l))%Q.
    set (d := Z.max 0 (Z.min b (o_at o) - Z.max a (o_at c))).
    replace (b - Z.max a (o_at c)) with (d + (b - Z.max a (o_at o))) by (unfold d; lia).
    rewrite inject_Z_plus, !Qmult_plus_distr_r.
    assert (0 <= inject_Z d)%Q by (change 0%Q with (inject_Z 0); rewrite <- Zle_Qle; unfold d; lia).
    split; apply Qplus_le_compat; (apply Qmult_le_compat_r; tauto) || tauto.
Qed.

(** What [TWAPAt] computes from the observations made by [now]: their average
    over the part of the window that they cover, which starts at the first of
    them at the earliest. *)
Definition made_by (now : Z) (l : list twapObservation) : list twapObservation :=
  filter (fun o => o_at o <= now) l.

Definition average (a b : Z) (l : list twapObservation) : rat :=
  Qred (integral a b l / inject_Z (b - a)).

Definition TWAP_spec (c : TWAPConfig) (now : Z) (l : list twapObservation)
  : result twap_error TWAPResult :=
  match head (made_by now l), last (made_by now l) with
  | Some first, Some latest =>
      let coverage := Z.min (Window c) (now - o_at first) in
      let p := average (now - coverage) now l in
      let changes := Z.of_nat (length (filter (fun o => now - coverage < o_at o <= now) l)) in
      if MaxStaleness c <? Sub now (o_at latest) then Err ErrStaleTWAP
      else if coverage <? MinCoverage c then Err ErrInsufficientTWAPHistory
      else
        match finiteFloat64 p with
        | None => Err ErrTWAPNonFinitePrice
        | Some value =>
            Ok (mkTWAPResult (IntString (Num p)) (IntString (Denom p)) value
                  (now - Window c) now coverage
                  (1 + changes) (o_slot latest) (o_at latest) p)
        end
  | _, _ => Err ErrInsufficientTWAPHistory
  end.

Lemma leading_last {A} (p : A -> bool) l c rest :
  drop (leading p l - 1) l = c :: rest -> (0 < leading p l)%nat -> p c = true.
Proof.
  induction l as [|x l IH]; cbn [leading]; [done|].
  destruct (p x) eqn:E; [|lia]. destruct (leading p l) as [|k] eqn:Ek; cbn.
  - intros [= -> _] _. done.
  - intros H _. apply IH; [|lia]. by replace (S k - 1)%nat with k by lia.
Qed.

(** The observation that anchors the average: the part of the window that is
    covered starts at it, or with the window. *)
Lemma anchor ws x l c rest :
  StronglySorted earlier (x :: l) ->
  drop (leading (fun o => Before (o_at o) ws) (x :: l) - 1) (x :: l) = c :: rest ->
  Z.max ws (o_at c) = Z.max ws (o_at x).
Proof.
  intros Hs Hd. destruct (leading (fun o => Before (o_at o) ws) (x :: l)) as [|k] eqn:Ek.
  - cbn in Hd. by injection Hd as -> _.
  - assert (Before (o_at c) ws = true) as Hc by (rewrite <- Ek in Hd; apply (leading_last (fun o => Before (o_at o) ws) _ _ _ Hd); lia).
    cbn [leading] in Ek. destruct (Before (o_at x) ws) eqn:Hx; [|done].
    unfold Before in *. bool_prop. lia.
Qed.

Lemma weigh_count a l w c s n w' c' s' n' :
  StronglySorted earlier (c :: l) -> s = Z.max a (o_at c) ->
  weigh l w c s n = (w', c', s', n') ->
  n' = n + Z.of_nat (length (filter (fun o => a < o_at o) l)).
Proof.
  revert w c s n. induction l as [|o l IH]; intros w c s n Hs -> Hw.
  - cbn in *. injection Hw as <- <- <- <-. lia.
  - apply StronglySorted_cons in Hs as [Hco Hs]. apply Forall_cons in Hco as [[_ Hco] _].
    cbn [weigh] in Hw. unfold After in Hw. rewrite filter_cons.
    destruct (Z.ltb_spec (Z.max a (o_at c)) (o_at o)); cbn [negb] in Hw.
    + rewrite decide_True by lia. apply IH in Hw; [|done|lia]. cbn [length]. lia.
    + rewrite decide_False by lia. apply IH in Hw; [|done|lia]. lia.
Qed.

Lemma made_by_split now l :
  StronglySorted earlier l ->
  exists k, l = made_by now l ++ k /\ Forall (fun o => now < o_at o) k.
Proof.
  intros Hs. unfold made_by. rewrite <- drop_back_time by done.
  destruct (drop_back_prefix (fun o => After (o_at o) now) l) as [k [Hk Hp]].
  exists k. split; [done|]. eapply Forall_impl; [exact Hp|].
  intros o. unfold After. cbn. by rewrite Z.ltb_lt.
Qed.

(** The counted price changes: those after the anchor. *)
Lemma changes_eq a now pre c rest k :
  StronglySorted earlier (pre ++ c :: rest) -> o_at c <= a ->
  Forall (fun o => o_at o <= now) (pre ++ c :: rest) -> Forall (fun o => now < o_at o) k ->
  length (filter (fun o => a < o_at o <= now) ((pre ++ c :: rest) ++ k)) =
  length (filter (fun o => a < o_at o) rest).
Proof.
  intros Hs Hc Hn Hk. rewrite !filter_app, filter_cons, decide_False by lia.
  rewrite (filter_none _ pre), (filter_none _ k), app_nil_r; cbn [app].
  - f_equal. apply filter_Forall_ext. apply Forall_app in Hn as [_ Hn]. apply Forall_cons in Hn as [_ Hn].
    eapply Forall_impl; [exact Hn|]. cbn. lia.
  - eapply Forall_impl; [exact Hk|]. cbn. lia.
  - apply StronglySorted_app in Hs as (Hs & _ & _). apply Forall_forall. intros y Hy.
    specialize (Hs y c Hy (list_elem_of_here _ _)). unfold earlier in Hs. lia.
Qed.

#[local] Arguments integral : simpl never.

Lemma average_proper a b l l' :
  (integral a b l == integral a b l')%Q -> average a b l = average a b l'.
Proof. intros H. unfold average. apply Qred_complete. by rewrite H. Qed.

(** The tail of [TWAPAt], once the anchor is known. *)
Lemma weigh_average a now c rest w' c' s' n' :
  StronglySorted earlier (c :: rest) -> Forall (fun o => o_at o <= now) (c :: rest) ->
  a < now -> is_i64 (now - a) -> o_at c <= a ->
  weigh rest 0 c a 1 = (w', c', s', n') ->
  RatQuo (addWeightedPrice w' (o_price c') (Sub now s')) (SetInt (now - a)) =
  average a now (c :: rest).
Proof.
  intros Hs Hn Ha Hr Hc Hw.
  destruct (weigh_spec a now rest 0 c a 1 w' c' s' n') as [Heq Hs']; [done|done|lia|done|lia|done|].
  unfold RatQuo, average, SetInt. apply Qred_complete.
  rewrite addWeightedPrice_eq, Sub_small by int_lia.
  rewrite Z.max_r by lia. rewrite Heq, Qplus_0_l. done.
Qed.

Lemma TWAPAt_eq now e :
  wf_engine e -> TWAPAt now e = TWAP_spec (config e) now (observations e).
Proof.
  intros [[Hc Hw] Hs _ _ _]. unfold TWAPAt, TWAP_spec. rewrite drop_back_time by done.
  change (filter (fun o => o_at o <= now) (observations e)) with (made_by now (observations e)).
  destruct (made_by_split now _ Hs) as (k & Hk & Hfut).
  assert (StronglySorted earlier (made_by now (observations e))) as Hsl
    by by apply StronglySorted_filter.
  pose proof (Forall_filter_holds (fun o => o_at o <= now) (observations e)) as Hnow.
  fold (made_by now (observations e)) in Hnow.
  destruct (made_by now (observations e)) as [|x l] eqn:Hl; [done|]. cbn [head].
  destruct (last (x :: l)) as [z|] eqn:Hz; [|by rewrite last_None in Hz].
  destruct (MaxStaleness (config e) <? Sub now (o_at z)); [done|].
  unfold Add. set (ws := now + - Window (config e)).
  set (n := leading (fun o => Before (o_at o) ws) (x :: l)).
  assert ((if (0 <? n)%nat then (n - 1)%nat else n) = (n - 1)%nat) as ->
    by (destruct (Nat.ltb_spec 0 n); lia).
  pose proof (leading_le (fun o => Before (o_at o) ws) (x :: l)) as Hle. fold n in Hle.
  destruct (drop (n - 1) (x :: l)) as [|c rest] eqn:Hd.
  { apply (f_equal length) in Hd. rewrite length_drop in Hd. cbn in Hd, Hle. lia. }
  pose proof (anchor _ _ _ _ _ Hsl Hd) as Hanchor.
  set (coverage := Z.min (Window (config e)) (now - o_at x)).
  assert (now - coverage = Z.max ws (o_at x)) as Ha by (unfold coverage, ws; lia).
  pose proof (Forall_inv Hnow) as Hx. cbn in Hx. unfold valid_config in Hc.
  assert ((if After (o_at c) ws then o_at c else ws) = now - coverage) as ->
    by (unfold After; destruct (Z.ltb_spec ws (o_at c)); lia).
  assert (is_i64 coverage) as Hi by (unfold coverage; int_lia).
  rewrite Sub_small by (replace (now - (now - coverage)) with coverage by lia; done).
  replace (now - (now - coverage)) with coverage by lia.
  destruct (Z.ltb_spec coverage (MinCoverage (config e))); [done|].
  assert ((if After (o_at c) (now - coverage) then o_at c else now - coverage) = now - coverage) as ->
    by (unfold After; destruct (Z.ltb_spec (now - coverage) (o_at c)); lia).
  destruct (weigh rest 0 c (now - coverage) 1) as [[[w' c'] s'] n'] eqn:Hwe.
  rewrite <- (take_drop (n - 1) (x :: l)), Hd in Hk, Hsl, Hnow.
  set (pre := take (n - 1) (x :: l)) in *.
  pose proof (proj2 (proj2 (proj1 (StronglySorted_app _ _ _) Hsl))) as Hsc.
  pose proof (proj2 (proj1 (Forall_app _ _ _) Hnow)) as Hnc.
  assert (is_i64 (now - (now - coverage))) as Hi'
    by (replace (now - (now - coverage)) with coverage by lia; done).
  pose proof (weigh_average (now - coverage) now c rest w' c' s' n'
    Hsc Hnc ltac:(lia) Hi' ltac:(lia) Hwe) as Hav.
  replace (now - (now - coverage)) with coverage in Hav by lia. rewrite Hav.
  rewrite (average_proper (now - coverage) now (c :: rest) (observations e)).
  - rewrite (weigh_count (now - coverage) rest 0%Q c (now - coverage) 1 w' c' s' n' Hsc ltac:(lia) Hwe).
    rewrite Hk. rewrite changes_eq by (done || lia). rewrite <- Hk.
    case_match; [|done]. do 2 f_equal; unfold ws; lia.
  - rewrite Hk, integral_future by done. symmetry. apply integral_app; [done|lia].
Qed.

(** ** Persistence *)

Lemma replay_prefix e l1 l2 :
  wf_engine e -> observations e = l1 ++ l2 ->
  replay ((fun o => mkTWAPObservation (o_slot o) (o_at o)
             (IntString (Num (o_price o))) (IntString (Denom (o_price o)))) <$> l2)
    (mkEngine (config e) l1 (historyPruned e)) = Ok e.
Proof.
  intros Hwf. revert l1. induction l2 as [|o l2 IH]; intros l1 Hl.
  - rewrite app_nil_r in Hl. cbn. rewrite <- Hl. by destruct e.
  - rewrite fmap_cons. cbn [replay po_PriceNum po_PriceDen po_Slot po_At].
    rewrite !SetString_IntString.
    rewrite (proj2 (Z.leb_gt (Denom (o_price o)) 0)) by done.
    assert (observations e = (l1 ++ [o]) ++ l2) as Hl' by (by rewrite <- app_assoc).
    pose proof (wf_engine_prefix _ _ _ Hwf Hl') as [Hc Hs Ho Hb Hin].
    cbn [config observations] in *.
    apply Forall_app in Ho as [_ (H0 & Hp & Hcan)%Forall_inv].
    rewrite SetFrac_Num_Denom by done.
    assert (Observe (o_slot o) (o_at o) (Some (o_price o)) (mkEngine (config e) l1 (historyPruned e)) =
      (mkEngine (config e) (l1 ++ [o]) (historyPruned e), Ok tt)) as ->; [|by apply IH].
    apply Observe_ok. exists (o_price o). split_and!; [done..| |].
    + cbn [observations]. intros z Hz. destruct o. apply StronglySorted_app in Hs as (Hs & _ & _).
      apply Hs; [|apply list_elem_of_here]. destruct l1 as [|? ? _] using rev_ind; [done|].
      rewrite last_snoc in Hz. injection Hz as ->. apply elem_of_app. right. apply list_elem_of_here.
    + cbn [config observations historyPruned]. destruct o as [slot at_ v]. cbn [o_slot o_at o_price].
      symmetry. apply prune_id; cbn [config observations]; [done|by rewrite last_snoc|done].
Qed.

Lemma wf_replay l e e' : wf_engine e -> replay l e = Ok e' -> wf_engine e'.
Proof.
  revert e. induction l as [|o l IH]; intros e Hwf; cbn [replay]; [congruence|].
  destruct (SetString _) as [n|]; [|done]. destruct (SetString _) as [d|]; [|done].
  destruct (d <=? 0); [done|]. destruct (Observe (po_Slot o) (po_At o) (Some (SetFrac n d)) e) as [e1 [[]|]] eqn:E; [|done].
  apply IH. by destruct (Observe_spec _ _ _ _ _ Hwf (canonical_SetFrac n d) E).
Qed.

(** A restart loses nothing: an engine that satisfies the invariant is
    rebuilt exactly from its persisted snapshot, prices included. *)
Theorem restore_Snapshot e :
  wf_engine e -> NewTWAPEngineFromState (Snapshot e) = Ok e.
Proof.
  intros Hwf. unfold NewTWAPEngineFromState. cbn [Snapshot ts_Config ts_HistoryPruned ts_Observations].
  pose proof (proj1 (we_config _ Hwf)) as Hc.
  rewrite (proj2 (NewTWAPEngine_ok (config e) _) (conj Hc eq_refl)). cbn [config observations].
  rewrite (replay_prefix e [] (observations e) Hwf eq_refl).
  rewrite length_fmap, Nat.eqb_refl. by destruct e.
Qed.

(** C24: Whatever a persisted state holds, what is restored from it without an
    error satisfies the engine invariant: ordered slots and times, positive
    prices in lowest terms, within the configured retention. *)
Theorem restored_engine_is_well_formed s e :
  is_i64 (Window (ts_Config s)) -> NewTWAPEngineFromState s = Ok e ->
  wf_engine e /\ length (observations e) = length (ts_Observations s).
Proof.
  intros Hw. unfold NewTWAPEngineFromState.
  destruct (NewTWAPEngine (ts_Config s)) as [e0|] eqn:E0; [|done].
  destruct (replay _ _) as [e1|] eqn:E1; [|done].
  destruct (Nat.eqb_spec (length (observations e1)) (length (ts_Observations s))); [|done].
  intros [= <-]. split; [|done].
  apply wf_engine_new in E0; [|done]. apply wf_replay in E1; [by destruct E1|].
  by destruct E0.
Qed.

(** ** The properties of the average *)

Lemma refines_config e h now :
  refines e h -> forall z, last (made_by now (observations e)) = Some z ->
  last (made_by now h) = Some z.
Proof.
  intros [_ _ (pre & -> & _ & _)] z Hz. unfold made_by in *.
  by rewrite filter_app, last_app, Hz.
Qed.

(** From the start of the coverage on, the retained observations determine the
    average. *)
Lemma refines_average e h now a first :
  refines e h -> head (observations e) = Some first -> o_at first <= a ->
  average a now (observations e) = average a now h.
Proof.
  intros [_ Hs (pre & -> & _ & _)] Hf Ha. apply average_proper.
  destruct (observations e) as [|x l]; [done|]. injection Hf as ->.
  symmetry. by apply integral_app.
Qed.

Lemma head_made_by now l x :
  StronglySorted earlier l -> head (made_by now l) = Some x -> head l = Some x.
Proof.
  intros Hs Hx. destruct (made_by_split now l Hs) as (k & -> & _).
  by destruct (made_by now l).
Qed.

Lemma refines_TWAPAt e h now r :
  refines e h -> TWAPAt now e = Ok r ->
  0 < MinCoverage (config e) <= tr_Coverage r /\ tr_Coverage r <= Window (config e) /\
  tr_price r = average (now - tr_Coverage r) now h /\
  exists latest, last (made_by now h) = Some latest /\
    tr_LastSlot r = o_slot latest /\ tr_LastObservedAt r = o_at latest /\
    Sub now (o_at latest) <= MaxStaleness (config e).
Proof.
  intros HR. rewrite TWAPAt_eq by apply HR. unfold TWAP_spec. intros H.
  destruct (head (made_by now (observations e))) as [x|] eqn:Hx; [|done].
  destruct (last (made_by now (observations e))) as [z|] eqn:Hz; [|done].
  destruct (Z.ltb_spec (MaxStaleness (config e)) (Sub now (o_at z))); [done|].
  destruct (Z.ltb_spec (Z.min (Window (config e)) (now - o_at x)) (MinCoverage (config e))); [done|].
  destruct (finiteFloat64 _) as [v|]; [|done]. injection H as <-. cbn [tr_Coverage tr_price
    tr_LastSlot tr_LastObservedAt].
  destruct (we_config _ (rf_wf _ _ HR)) as [Hc _]. unfold valid_config in Hc.
  split; [lia|]. split; [lia|]. split.
  - apply (refines_average _ _ _ _ x HR); [|lia].
    by apply (head_made_by now), Hx; apply HR.
  - exists z. split; [by eapply refines_config|]. done.
Qed.

(** C2: the average of an engine that has gone through any sequence of
    observations and rollbacks, with all its pruning, is the exact integral of
    the price over the covered part of the window, divided by its length,
    computed from the complete history of accepted observations less what was
    rolled back. The coverage is at least the configured minimum and at most
    the window, and the newest observation of the history is fresh enough. *)
Theorem TWAPAt_averages_history c e0 ops now r :
  is_i64 (Window c) -> NewTWAPEngine c = Ok e0 -> Forall wf_op ops ->
  let '(e, h) := run ops e0 [] in
  TWAPAt now e = Ok r ->
  0 < MinCoverage (config e) <= tr_Coverage r /\ tr_Coverage r <= Window (config e) /\
  (tr_price r == integral (now - tr_Coverage r) now h / inject_Z (tr_Coverage r))%Q /\
  exists latest, last (made_by now h) = Some latest /\
    tr_LastSlot r = o_slot latest /\ tr_LastObservedAt r = o_at latest /\
    Sub now (o_at latest) <= MaxStaleness (config e).
Proof.
  intros Hw HN Hops. pose proof (history_run ops e0 [] Hops (history_new c e0 Hw HN)) as HR.
  destruct (run ops e0 []) as [e h]. intros H.
  destruct (refines_TWAPAt e h now r HR H) as (Hc & Hcov & Hp & Hlatest).
  do 2 (split; [done|]). split; [|done]. rewrite Hp. unfold average. rewrite Qred_correct.
  by replace (now - (now - tr_Coverage r)) with (tr_Coverage r) by lia.
Qed.

(** C25: The average lies between the lowest and the highest price that was in
    force. *)
Theorem TWAPAt_within_prices e now r lo hi :
  wf_engine e -> TWAPAt now e = Ok r ->
  Forall (fun o => lo <= o_price o <= hi)%Q (made_by now (observations e)) ->
  (lo <= tr_price r <= hi)%Q.
Proof.
  intros Hwf H Hb. rewrite TWAPAt_eq in H by done. unfold TWAP_spec in H.
  destruct (made_by_split now _ (we_sorted _ Hwf)) as (k & Hk & Hfut).
  assert (StronglySorted earlier (made_by now (observations e))) as Hs
    by (apply StronglySorted_filter, Hwf).
  pose proof (Forall_filter_holds (fun o => o_at o <= now) (observations e)) as Hnow.
  fold (made_by now (observations e)) in Hnow.
  destruct (made_by now (observations e)) as [|x l]; [done|]. cbn [head] in H.
  destruct (last (x :: l)) as [z|]; [|done].
  destruct (_ <? Sub now (o_at z)); [done|].
  set (cov := Z.min (Window (config e)) (now - o_at x)) in *.
  destruct (Z.ltb_spec cov (MinCoverage (config e))); [done|].
  destruct (finiteFloat64 _) as [v|]; [|done]. injection H as <-. cbn [tr_price].
  destruct (we_config _ Hwf) as [Hc _]. unfold valid_config in Hc.
  destruct (integral_bounds lo hi (now - cov) now x l Hs Hnow ltac:(lia) Hb) as [Hlo Hhi].
  unfold average. rewrite Qred_correct, Hk, integral_future by done.
  replace (now - Z.max (now - cov) (o_at x)) with cov in Hlo, Hhi by lia.
  replace (now - (now - cov)) with cov by lia.
  assert (0 < inject_Z cov)%Q by (change 0%Q with (inject_Z 0); rewrite <- Zlt_Qlt; lia).
  split; [apply Qle_shift_div_l | apply Qle_shift_div_r]; done.
Qed.

(** Rollbacks are never silently lossy. A rollback that reports success
    leaves the engine with the end of the rolled-back history, its latest
    observation included; one that cannot, because pruning has dropped the
    observations it would need, says so and changes nothing. *)
Theorem Rollback_restores_history c e0 ops slot :
  is_i64 (Window c) -> NewTWAPEngine c = Ok e0 -> Forall wf_op ops ->
  let '(e, h) := run ops e0 [] in
  match Rollback slot e with
  | (e', Ok _) =>
      let h' := filter (fun o => o_slot o <= slot) h in
      wf_engine e' /\ (exists dropped, h' = dropped ++ observations e') /\
      last (observations e') = last h' /\ (historyPruned e' = false -> observations e' = h')
  | (e', Err err) =>
      e' = e /\ err = ErrTWAPRollbackUnavailable /\ historyPruned e = true /\
      Forall (fun o => slot < o_slot o) (observations e)
  end.
Proof.
  intros Hw HN Hops. pose proof (history_run ops e0 [] Hops (history_new c e0 Hw HN)) as HR.
  destruct (run ops e0 []) as [e h]. cbn [fst snd] in HR.
  destruct (Rollback slot e) as [e' [[]|err]] eqn:E.
  - apply (history_rollback _ _ _ _ HR) in E as [Hwf _ (pre & Hpre & Hnp & Hne)].
    rewrite Hpre. split; [done|]. split; [by eexists|]. split.
    + rewrite last_app. destruct (last (observations e')) eqn:El; [done|].
      apply last_None in El. by rewrite Hne.
    + intros Hf. by rewrite Hnp.
  - rewrite Rollback_spec in E by apply HR. case_match eqn:Eb; [|done]. injection E as <- <-.
    apply andb_prop in Eb as [Hp Hh]. do 3 (split; [done|]).
    pose proof (we_sorted _ (rf_wf _ _ HR)) as Hs.
    destruct (observations e) as [|x l]; [done|]. cbn [head] in Hh. bool_prop.
    constructor; [done|]. apply StronglySorted_cons in Hs as [Hx _].
    eapply Forall_impl; [exact Hx|]. unfold earlier. cbn. lia.
Qed.

(** ** Witnesses *)

#[local] Ltac closed_range := vm_compute; split; discriminate.

Definition sample_config : TWAPConfig := mkTWAPConfig 100 10 50 3.

Definition sample_ops : list op :=
  [OpObserve 1 1000 (Some 2%Q); OpObserve 2 1050 (Some (1 # 2)%Q);
   OpObserve 2 1060 (Some 3%Q); OpObserve 3 1120 (Some 4%Q); OpObserve 4 1190 (Some 1%Q);
   OpRollback 0; OpObserve 5 1195 (Some 9%Q); OpRollback 4].

Definition sample_engine : TWAPEngine := (run sample_ops (mkEngine sample_config [] false) []).1.

Lemma sample_twap_ops_wf : Forall wf_op sample_ops.
Proof. by repeat constructor. Defined.

Lemma sample_engine_wf : wf_engine sample_engine.
Proof.
  apply rf_wf with (h := (run sample_ops (mkEngine sample_config [] false) []).2).
  apply history_run; [apply sample_twap_ops_wf|].
  apply (history_new sample_config); [closed_range | done].
Defined.

Lemma restore_Snapshot_witness :
  length (observations sample_engine) = 2%nat /\ historyPruned sample_engine = true /\
  NewTWAPEngineFromState (Snapshot sample_engine) = Ok sample_engine.
Proof.
  split; [by vm_compute|]. split; [by vm_compute|].
  apply (restore_Snapshot sample_engine sample_engine_wf).
Defined.

Lemma restored_engine_is_well_formed_witness :
  wf_engine sample_engine /\
  length (observations sample_engine) = length (ts_Observations (Snapshot sample_engine)).
Proof.
  apply (restored_engine_is_well_formed (Snapshot sample_engine) sample_engine);
    [closed_range | by vm_compute].
Defined.

Definition sample_result : TWAPResult :=
  Eval vm_compute in
    match TWAPAt 1200 sample_engine with
    | Ok r => r
    | Err _ => mkTWAPResult "" "" fzero 0 0 0 0 0 0 0%Q
    end.

Lemma sample_result_ok : TWAPAt 1200 sample_engine = Ok sample_result.
Proof. by vm_compute. Defined.

Lemma TWAPAt_averages_history_witness :
  TWAPAt 1200 sample_engine = Ok sample_result /\ tr_Coverage sample_result = 80 /\
  (tr_price sample_result == (4 * 70 + 1 * 10) / 80)%Q /\
  (tr_price sample_result ==
   integral (1200 - 80) 1200 (run sample_ops (mkEngine sample_config [] false) []).2 / inject_Z 80)%Q.
Proof.
  split; [apply sample_result_ok|]. split; [done|]. split; [done|].
  pose proof (TWAPAt_averages_history sample_config (mkEngine sample_config [] false)
    sample_ops 1200 sample_result ltac:(closed_range) eq_refl sample_twap_ops_wf) as H.
  rewrite (surjective_pairing (run _ _ _)) in H. apply H, sample_result_ok.
Defined.

Lemma TWAPAt_within_prices_witness :
  TWAPAt 1200 sample_engine = Ok sample_result /\ (1 <= tr_price sample_result <= 4)%Q.
Proof.
  split; [apply sample_result_ok|].
  apply (TWAPAt_within_prices sample_engine 1200 _ 1 4 sample_engine_wf);
    [apply sample_result_ok|].
  vm_compute. repeat constructor; discriminate.
Defined.

Lemma Rollback_restores_history_witness :
  let '(e, h) := run sample_ops (mkEngine sample_config [] false) [] in
  (is_ok (Rollback 3 e).2 = true /\
   last (observations (Rollback 3 e).1) = last (filter (fun o => o_slot o <= 3) h)) /\
  (Rollback 2 e).2 = Err ErrTWAPRollbackUnavailable /\ (Rollback 2 e).1 = e.
Proof.
  pose proof (fun slot => Rollback_restores_history sample_config (mkEngine sample_config [] false)
    sample_ops slot ltac:(closed_range) eq_refl sample_twap_ops_wf) as H.
  pose proof (H 3) as H3. pose proof (H 2) as H2. clear H.
  vm_compute in H2, H3 |- *. naive_solver.
Defined.
