(* ===== verification/AdaUsd.v ===== *)
(** * AdaUsd: the liquidity-weighted ADA/USD estimate ([price/ada_usd.go],
    [price/stablecoins.go]). *)
From S2P Require Import Prelude.
From S2P Require Import Text.
From S2P Require Import Float64.
From S2P Require Import Common.
From S2P Require Import Pool.
From S2P Require Import Activity.

Inductive usd_error :=
| ErrInsufficientObservations
| ErrInsufficientDiversity
| ErrConcentratedLiquidity
| ErrDivergentPrices
| ErrNonFinitePrice
| ErrInvalidActivityConfig
| ErrInvalidPoolActivity
| NoStablecoinsConfigured
| MinimumCountsNotPositive
| MaxPoolShareRange
| MaxDivergenceNegative
| InvalidObservationPrice
| LiquidityOverflow.

#[export] Instance usd_error_eq_dec : EqDecision usd_error.
Proof. solve_decision. Defined.

Record Stablecoin := mkStablecoin {
  sc_Symbol : string;
  sc_Asset : AssetClass;
  sc_Decimals : Z;
}.

Definition USDMPolicyID : string := "c48cbb3d5e57ed56e276bc45f99ab39abe94e6cd7ac39fb402da47ad".
Definition USDMAssetName : string := "0014df105553444d".
Definition USDCxPolicyID : string := "1f3aec8bfe7ea4fe14c5f121e2a92e301afe414147860d557cac7e34".
Definition USDCxAssetName : string := "5553444378".

(** [mustStablecoin]; [None] is its panic. *)
Definition mustStablecoin (symbol policyID assetName : string) (decimals : Z) : option Stablecoin :=
  match NewAssetClass policyID assetName with
  | Ok asset => Some (mkStablecoin symbol asset decimals)
  | Err _ => None
  end.

Definition MainnetStablecoins : option (list Stablecoin) :=
  usdm ← mustStablecoin "USDM" USDMPolicyID USDMAssetName 6;
  usdcx ← mustStablecoin "USDCx" USDCxPolicyID USDCxAssetName 6;
  Some [usdm; usdcx].

Record Config := mkConfig {
  Stablecoins : list Stablecoin;
  MinADAReserve : Z;
  MinStableUSD : Z;
  MinObservations : Z;
  MinStablecoins : Z;
  MaxPoolShare : float64;
  MaxDivergence : float64;
  IncludeMempool : bool;
}.

Record ActivityConfig := mkActivityConfig { MinSwapCount : Z; MinStableVolume : Z }.

Definition DefaultActivityConfig : ActivityConfig := mkActivityConfig 1 100000000.

Definition DefaultConfig : Config :=
  mkConfig (default [] MainnetStablecoins) 1000000000 100000000 2 2
    (RatFloat64 (3 # 4)) (RatFloat64 (1 # 20)) false.

Inductive validation := ValidationNone | ValidationQualified | ValidationUnavailable.

Record PoolObservation := mkObservation {
  ob_PoolID : string;
  ob_Protocol : string;
  ob_Stablecoin : string;
  ob_ADAReserve : Z;
  ob_StableReserve : Z;
  ob_StableMicros : Z;
  ob_PriceNum : string;
  ob_PriceDen : string;
  ob_Price : float64;
  ob_Slot : Z;
  ob_BlockHash : string;
  ob_TxHash : string;
  ob_TxIndex : Z;
  ob_ObservedAt : Z;
  ob_AgeSeconds : option Z;
  ob_Validation : validation;
  ob_StableVolumeMicros : Z;
  ob_SwapCount : Z;
  ob_ActivitySlots : Z;
  ob_price : option rat;
}.

(** [Result]; the pair, source and method are constants of every result but the
    zero one. *)
Record Result := mkResult {
  re_Pair : string;
  re_Source : string;
  re_Method : string;
  re_Validation : validation;
  re_ObservedAt : Z;
  re_AgeSeconds : option Z;
  re_PriceNum : string;
  re_PriceDen : string;
  re_Price : float64;
  re_Spread : float64;
  re_Observations : list PoolObservation;
  re_price : option rat;
}.

Definition zeroResult : Result :=
  mkResult "" "" "" ValidationNone 0 None "" "" fzero fzero [] None.

(** [Result.Rat] *)
Definition Rat (r : Result) : rat := default 0%Q (re_price r).

Definition usdMicrosDecimals : Z := 6.

Fixpoint pow10_loop (power : nat) (value : Z) : Z :=
  match power with
  | O => value
  | S power' => if MaxUint64 / 10 <? value then 0 else pow10_loop power' (u64 (value * 10))
  end.
Definition pow10Uint (power : Z) : Z := pow10_loop (Z.to_nat power) 1.
Definition pow10Big (power : Z) : Z := 10 ^ power.

Definition normalizeToMicros (amount decimals : Z) : option Z :=
  if decimals =? usdMicrosDecimals then Some amount
  else if decimals <? usdMicrosDecimals then
    let multiplier := pow10Uint (usdMicrosDecimals - decimals) in
    if (multiplier =? 0) || (MaxUint64 / multiplier <? amount) then None
    else Some (u64 (amount * multiplier))
  else
    let divisor := pow10Uint (decimals - usdMicrosDecimals) in
    if divisor =? 0 then None else Some (amount / divisor).

Definition validateConfig (c : Config) : result usd_error unit :=
  reject_if (Nat.eqb (length (Stablecoins c)) 0) NoStablecoinsConfigured ;;
  reject_if ((MinObservations c <? 1) || (MinStablecoins c <? 1)) MinimumCountsNotPositive ;;
  reject_if (IsNaN (MaxPoolShare c) || IsInf (MaxPoolShare c)
             || SFleb (MaxPoolShare c) fzero || fgt (MaxPoolShare c) (float_of_Z 1)) MaxPoolShareRange ;;
  reject_if (IsNaN (MaxDivergence c) || IsInf (MaxDivergence c)
             || SFltb (MaxDivergence c) fzero) MaxDivergenceNegative.

Definition configRatio (value : float64) : rat := shortest_decimal value.

(** The first configured stablecoin that an amount is of. *)
Definition find_stablecoin (l : list Stablecoin) (stable : AssetAmount) : option Stablecoin :=
  snd <$> list_find (fun candidate => IsAsset stable (sc_Asset candidate) = true) l.

Definition zeroStablecoin : Stablecoin := mkStablecoin "" Lovelace 0.

(** The ADA and the other side of a pool, if one side is lovelace. *)
Definition ada_side (pool : PoolState) : option (AssetAmount * AssetAmount) :=
  if aa_IsLovelace (ps_AssetX pool) then Some (ps_AssetX pool, ps_AssetY pool)
  else if aa_IsLovelace (ps_AssetY pool) then Some (ps_AssetY pool, ps_AssetX pool)
  else None.

Definition observationFromPool (pool : PoolState) (c : Config) (now : Z)
  : result usd_error (option PoolObservation) :=
  match ada_side pool with
  | None => Ok None
  | Some (ada, stable) =>
      let stablecoin := default zeroStablecoin (find_stablecoin (Stablecoins c) stable) in
      if bool_decide (sc_Symbol stablecoin = "") || (aa_Amount ada =? 0) || (aa_Amount stable =? 0)
         || (aa_Amount ada <? MinADAReserve c)
      then Ok None
      else
        match normalizeToMicros (aa_Amount stable) (sc_Decimals stablecoin) with
        | None => Ok None
        | Some stableMicros =>
            if stableMicros <? MinStableUSD c then Ok None
            else
              let price := SetFrac (aa_Amount stable * pow10Big usdMicrosDecimals)
                             (aa_Amount ada * pow10Big (sc_Decimals stablecoin)) in
              match finiteFloat64 price with
              | None => Err ErrNonFinitePrice
              | Some priceFloat =>
                  let ageSeconds :=
                    if negb (IsZero (ps_Timestamp pool))
                    then Some (int64_of_float (Seconds (Sub now (ps_Timestamp pool)))) else None in
                  Ok (Some (mkObservation (ps_PoolId pool) (ps_Protocol pool) (sc_Symbol stablecoin)
                        (aa_Amount ada) (aa_Amount stable) stableMicros
                        (IntString (Num price)) (IntString (Denom price)) priceFloat
                        (ps_Slot pool) (ps_BlockHash pool) (ps_TxHash pool) (ps_TxIndex pool)
                        (ps_Timestamp pool) ageSeconds ValidationQualified 0 0 0 (Some price)))
              end
        end
  end.

(** The key of the map of latest states. *)
Definition latest_key (pool : PoolState) : string := ps_Protocol pool +:+ ":" +:+ ps_PoolId pool.

(** [pool] replaces [current]: later by slot, then transaction index, then hash. *)
Definition newer (pool current : PoolState) : bool :=
  (ps_Slot current <? ps_Slot pool)
  || ((ps_Slot pool =? ps_Slot current) && (ps_TxIndex current <? ps_TxIndex pool))
  || ((ps_Slot pool =? ps_Slot current) && (ps_TxIndex pool =? ps_TxIndex current)
      && Prelude.ltb (ps_TxHash current) (ps_TxHash pool)).

Definition keep_latest (c : Config) (latest : gmap string PoolState) (pool : option PoolState)
  : gmap string PoolState :=
  match pool with
  | None => latest
  | Some pool =>
      if negb (IncludeMempool c) && ps_FromMempool pool then latest
      else
        match latest !! latest_key pool with
        | None => <[latest_key pool := pool]> latest
        | Some current =>
            if newer pool current then <[latest_key pool := pool]> latest else latest
        end
  end.

Definition latest_pools (c : Config) (pools : list (option PoolState)) : gmap string PoolState :=
  foldl (keep_latest c) ∅ pools.

Fixpoint observe_all (c : Config) (now : Z) (pools : list PoolState)
    (observations : list PoolObservation) : result usd_error (list PoolObservation) :=
  match pools with
  | [] => Ok observations
  | pool :: pools' =>
      match observationFromPool pool c now with
      | Err e => Err e
      | Ok None => observe_all c now pools' observations
      | Ok (Some o) => observe_all c now pools' (observations ++ [o])
      end
  end.

Definition ob_key (o : PoolObservation) : string * (string * string) :=
  (ob_Stablecoin o, (ob_Protocol o, ob_PoolID o)).

Definition observationsFromPools `{RangeOrder} (pools : list (option PoolState)) (c : Config) (now : Z)
  : result usd_error (list PoolObservation) :=
  match observe_all c now (range ((map_to_list (latest_pools c pools)).*2)) [] with
  | Err e => Err e
  | Ok observations => Ok (sort_by ob_key observations)
  end.

(** ** The weighted median *)

(** The price of an observation; the code reads it after checking that it is
    not nil. *)
Definition price_of (o : PoolObservation) : rat := default 0%Q (ob_price o).

(** [slices.SortStableFunc] by price. *)
Fixpoint insert_price (x : PoolObservation) (l : list PoolObservation) : list PoolObservation :=
  match l with
  | [] => [x]
  | y :: l' => if RatLt (price_of y) (price_of x) then y :: insert_price x l' else x :: l
  end.
Definition sort_price (l : list PoolObservation) : list PoolObservation := foldr insert_price [] l.

Fixpoint total_weight (l : list PoolObservation) (total : Z) : option Z :=
  match l with
  | [] => Some total
  | o :: l' =>
      if MaxUint64 - total <? ob_StableMicros o then None
      else total_weight l' (u64 (total + ob_StableMicros o))
  end.

Fixpoint next_weighted (l : list PoolObservation) : option PoolObservation :=
  match l with
  | [] => None
  | o :: l' => if ob_StableMicros o =? 0 then next_weighted l' else Some o
  end.

Fixpoint median_loop (l : list PoolObservation) (cumulative total : Z) : option rat :=
  match l with
  | [] => None
  | o :: l' =>
      if ob_StableMicros o =? 0 then median_loop l' cumulative total
      else
        let cumulative := u64 (cumulative + ob_StableMicros o) in
        let remaining := u64 (total - cumulative) in
        if remaining <? cumulative then Some (price_of o)
        else if cumulative =? remaining then
          match next_weighted l' with
          | Some next => Some (RatQuo (RatAdd (price_of o) (price_of next)) (SetInt 2))
          | None => median_loop l' cumulative total
          end
        else median_loop l' cumulative total
  end.

Definition liquidityWeightedMedian (observations : list PoolObservation)
  : result usd_error (rat * Z) :=
  if existsb (fun o => match ob_price o with None => true | Some p => negb (RatPos p) end) observations
  then Err InvalidObservationPrice
  else
    let ordered := sort_price observations in
    match total_weight ordered 0 with
    | None => Err LiquidityOverflow
    | Some totalWeight =>
        if totalWeight =? 0 then Err ErrInsufficientObservations
        else
          match median_loop ordered 0 totalWeight with
          | Some median => Ok (median, totalWeight)
          | None => Err ErrInsufficientObservations
          end
    end.

(** ** The aggregate *)

(** The results of a stage that failed. *)
Definition unavailable (observations : list PoolObservation) (spread : float64) : Result :=
  mkResult "ADA/USD" "local-dex-stablecoins" "local-dex-liquidity-weighted-median"
    ValidationUnavailable 0 None "" "" fzero spread observations None.

Definition symbols (observations : list PoolObservation) : gset string :=
  list_to_set (ob_Stablecoin <$> observations).

Definition min_max_price (first : rat) (l : list PoolObservation) : rat * rat :=
  foldl (fun '(lo, hi) o =>
           (if RatLt (price_of o) lo then price_of o else lo,
            if RatLt hi (price_of o) then price_of o else hi)) (first, first) l.

(** The oldest known observation time and its age. *)
Definition oldest (l : list PoolObservation) : Z * option Z :=
  foldl (fun '(at_, age) o =>
           if IsZero (ob_ObservedAt o) then (at_, age)
           else if IsZero at_ || Before (ob_ObservedAt o) at_
           then (ob_ObservedAt o, ob_AgeSeconds o) else (at_, age)) (0, None) l.

Definition aggregate (observations : list PoolObservation) (c : Config)
  : Result * option usd_error :=
  let r0 := unavailable observations fzero in
  if Z.of_nat (length observations) <? MinObservations c then (r0, Some ErrInsufficientObservations)
  else if Z.of_nat (size (symbols observations)) <? MinStablecoins c
  then (r0, Some ErrInsufficientDiversity)
  else
    match liquidityWeightedMedian observations with
    | Err e => (r0, Some e)
    | Ok (medianPrice, totalWeight) =>
        let maxPoolShare := configRatio (MaxPoolShare c) in
        if existsb (fun o => RatLt maxPoolShare (SetFrac (ob_StableMicros o) totalWeight)) observations
        then (r0, Some ErrConcentratedLiquidity)
        else
          let '(minPrice, maxPrice) :=
            min_max_price (price_of (List.hd (mkObservation "" "" "" 0 0 0 "" "" fzero 0 "" "" 0 0
              None ValidationNone 0 0 0 None) observations)) observations in
          let spread := RatQuo (RatSub maxPrice minPrice) minPrice in
          match finiteFloat64 spread with
          | None => (r0, Some ErrNonFinitePrice)
          | Some spreadFloat =>
              if RatLt (configRatio (MaxDivergence c)) spread
              then (unavailable observations spreadFloat, Some ErrDivergentPrices)
              else
                let num := IntString (Num medianPrice) in
                let den := IntString (Denom medianPrice) in
                match finiteFloat64 medianPrice with
                | None =>
                    (mkResult "ADA/USD" "local-dex-stablecoins" "local-dex-liquidity-weighted-median"
                       ValidationUnavailable 0 None num den fzero spreadFloat observations
                       (Some medianPrice), Some ErrNonFinitePrice)
                | Some value =>
                    let '(observedAt, age) := oldest observations in
                    (mkResult "ADA/USD" "local-dex-stablecoins" "local-dex-liquidity-weighted-median"
                       ValidationQualified observedAt age num den value spreadFloat observations
                       (Some medianPrice), None)
                end
          end
    end.

Definition AggregateADAUSDAt `{RangeOrder} (pools : list (option PoolState)) (c : Config) (now : Z)
  : Result * option usd_error :=
  match validateConfig c with
  | Err e => (zeroResult, Some e)
  | Ok _ =>
      match observationsFromPools pools c now with
      | Err e => (zeroResult, Some e)
      | Ok observations => aggregate observations c
      end
  end.

(** The estimate now *)
Definition AggregateADAUSD `{RangeOrder} (Now : Z) (pools : list (option PoolState)) (c : Config)
  : Result * option usd_error := AggregateADAUSDAt pools c Now.

(** ** Qualification by confirmed volume *)

Definition stableVolumeMicros (pool : PoolState) (volume : PoolVolume) (c : Config)
  : result usd_error Z :=
  if negb (bool_decide (pv_Key volume = Key pool))
     || (pv_WindowSlots volume =? 0)
     || (pv_WindowEnd volume <? ps_Slot pool)
     || negb (IsAsset (ps_AssetX pool) (pv_AssetX volume))
     || negb (IsAsset (ps_AssetY pool) (pv_AssetY volume))
  then Err ErrInvalidPoolActivity
  else
    match
      (if aa_IsLovelace (ps_AssetX pool) then Some (ps_AssetY pool, pv_VolumeY volume)
       else if aa_IsLovelace (ps_AssetY pool) then Some (ps_AssetX pool, pv_VolumeX volume)
       else None)
    with
    | None => Err ErrInvalidPoolActivity
    | Some (stable, amount) =>
        match find_stablecoin (Stablecoins c) stable with
        | None => Err ErrInvalidPoolActivity
        | Some candidate =>
            match normalizeToMicros amount (sc_Decimals candidate) with
            | None => Err ErrInvalidPoolActivity
            | Some normalized => Ok normalized
            end
        end
    end.

Fixpoint index_volumes (volumes : list PoolVolume) (m : gmap string PoolVolume)
  : result usd_error (gmap string PoolVolume) :=
  match volumes with
  | [] => Ok m
  | v :: volumes' =>
      if bool_decide (pv_PoolID v = "") || bool_decide (pv_Network v = "")
         || bool_decide (pv_Protocol v = "")
      then Err ErrInvalidPoolActivity
      else
        match m !! pv_Key v with
        | Some _ => Err ErrInvalidPoolActivity
        | None => index_volumes volumes' (<[pv_Key v := v]> m)
        end
  end.

(** The pools with enough confirmed volume, in order, and their volumes. *)
Fixpoint qualify (pools : list (option PoolState)) (activity : gmap string PoolVolume) (c : Config)
    (ac : ActivityConfig) (qualified : list PoolState) (qualifiedActivity : gmap string PoolVolume)
  : result usd_error (list PoolState * gmap string PoolVolume) :=
  match pools with
  | [] => Ok (qualified, qualifiedActivity)
  | None :: pools' => qualify pools' activity c ac qualified qualifiedActivity
  | Some pool :: pools' =>
      match activity !! Key pool with
      | None => qualify pools' activity c ac qualified qualifiedActivity
      | Some volume =>
          match stableVolumeMicros pool volume c with
          | Err e => Err e
          | Ok stableVolume =>
              if (stableVolume <? MinStableVolume ac) || (pv_SwapCount volume <? MinSwapCount ac)
              then qualify pools' activity c ac qualified qualifiedActivity
              else qualify pools' activity c ac (qualified ++ [pool])
                     (<[Key pool := volume]> qualifiedActivity)
          end
      end
  end.

Definition zeroVolume : PoolVolume := mkVolume "" "" "" Lovelace Lovelace 0 0 0 0 0 0 0.

Definition with_activity (o : PoolObservation) (stableVolume swaps slots : Z) : PoolObservation :=
  mkObservation (ob_PoolID o) (ob_Protocol o) (ob_Stablecoin o) (ob_ADAReserve o) (ob_StableReserve o)
    (ob_StableMicros o) (ob_PriceNum o) (ob_PriceDen o) (ob_Price o) (ob_Slot o) (ob_BlockHash o)
    (ob_TxHash o) (ob_TxIndex o) (ob_ObservedAt o) (ob_AgeSeconds o) (ob_Validation o)
    stableVolume swaps slots (ob_price o).

(** The inner loop that annotates one observation: the first qualified pool
    with its id and protocol. *)
Definition annotate (qualified : list PoolState) (activity : gmap string PoolVolume) (c : Config)
    (o : PoolObservation) : result usd_error PoolObservation :=
  match list_find (fun p => ps_PoolId p = ob_PoolID o /\ ps_Protocol p = ob_Protocol o) qualified with
  | None => Ok o
  | Some (_, pool) =>
      let volume := default zeroVolume (activity !! Key pool) in
      match stableVolumeMicros pool volume c with
      | Err e => Err e
      | Ok stableVolume =>
          Ok (with_activity o stableVolume (pv_SwapCount volume) (pv_WindowSlots volume))
      end
  end.

Fixpoint annotate_all (qualified : list PoolState) (activity : gmap string PoolVolume) (c : Config)
    (l : list PoolObservation) : result usd_error (list PoolObservation) :=
  match l with
  | [] => Ok []
  | o :: l' =>
      match annotate qualified activity c o with
      | Err e => Err e
      | Ok o' => (cons o') <$> annotate_all qualified activity c l'
      end
  end.

Definition with_observations (r : Result) (l : list PoolObservation) : Result :=
  mkResult (re_Pair r) (re_Source r) (re_Method r) (re_Validation r) (re_ObservedAt r)
    (re_AgeSeconds r) (re_PriceNum r) (re_PriceDen r) (re_Price r) (re_Spread r) l (re_price r).

Definition AggregateADAUSDWithActivityAt `{RangeOrder} (pools : list (option PoolState))
    (volumes : list PoolVolume) (c : Config) (ac : ActivityConfig) (now : Z)
  : Result * option usd_error :=
  if (MinSwapCount ac =? 0) || (MinStableVolume ac =? 0) then (zeroResult, Some ErrInvalidActivityConfig)
  else
    match index_volumes volumes ∅ with
    | Err e => (zeroResult, Some e)
    | Ok activityByPool =>
        match qualify pools activityByPool c ac [] ∅ with
        | Err e => (zeroResult, Some e)
        | Ok (qualified, qualifiedActivity) =>
            let '(r, err) := AggregateADAUSDAt (Some <$> qualified) c now in
            match annotate_all qualified qualifiedActivity c (re_Observations r) with
            | Err e => (zeroResult, Some e)
            | Ok l => (with_observations r l, err)
            end
        end
    end.

Definition AggregateADAUSDWithActivity `{RangeOrder} (Now : Z) (pools : list (option PoolState))
    (volumes : list PoolVolume) (c : Config) (ac : ActivityConfig) : Result * option usd_error :=
  AggregateADAUSDWithActivityAt pools volumes c ac Now.

(** ** Normalization *)

Lemma pow10_loop_spec n k :
  (k <= 19)%nat ->
  pow10_loop n (10 ^ Z.of_nat k) = if (n + k <=? 19)%nat then 10 ^ Z.of_nat (n + k) else 0.
Proof.
  revert k. induction n as [|n IH]; intros k Hk; cbn [pow10_loop Nat.add].
  - by rewrite (proj2 (Nat.leb_le k 19%nat)) by lia.
  - assert (10 ^ Z.of_nat k <= 10 ^ 19) as Hle by (apply Z.pow_le_mono_r; lia).
    assert (0 < 10 ^ Z.of_nat k) by (apply Z.pow_pos_nonneg; lia).
    destruct (Nat.eq_dec k 19%nat) as [->|Hk'].
    + rewrite (proj2 (Z.ltb_lt _ _)) by (vm_compute; reflexivity).
      by rewrite (proj2 (Nat.leb_gt (S (n + 19)) 19%nat)) by lia.
    + assert (10 ^ Z.of_nat k <= 10 ^ 18) by (apply Z.pow_le_mono_r; lia).
      rewrite (proj2 (Z.ltb_ge _ _)).
      2:{ change (10 ^ 18) with 1000000000000000000 in *.
          change (MaxUint64 / 10) with 1844674407370955161. lia. }
      assert (10 ^ Z.of_nat k * 10 = 10 ^ Z.of_nat (S k)) as Hs
        by (rewrite Nat2Z.inj_succ, Z.pow_succ_r by lia; lia).
      rewrite Hs, u64_small.
      * rewrite IH by lia. replace (n + S k)%nat with (S (n + k)) by lia. done.
      * rewrite <- Hs. change (10 ^ 18) with 1000000000000000000 in *. int_lia.
Qed.

(** [pow10Uint] is the power, or zero when it does not fit 64 bits. *)
Lemma pow10Uint_spec p :
  0 <= p -> pow10Uint p = if decide (p <= 19) then 10 ^ p else 0.
Proof.
  intros Hp. unfold pow10Uint. change 1 with (10 ^ Z.of_nat 0) at 1.
  rewrite pow10_loop_spec by lia.
  rewrite Nat.add_0_r, Z2Nat.id by lia.
  destruct (Nat.leb_spec (Z.to_nat p) 19%nat); case_decide; (done || lia).
Qed.

(** [normalizeToMicros] is the exact conversion of an on-chain amount to
    six decimals, rounded down, exactly when it fits 64 bits and the token has
    at most 25 decimals; it never wraps. *)
Theorem normalizeToMicros_exact amount decimals :
  is_u64 amount -> 0 <= decimals <= 255 ->
  normalizeToMicros amount decimals =
    let micros := amount * 10 ^ 6 / 10 ^ decimals in
    if decide (decimals <= 25 /\ micros <= MaxUint64) then Some micros else None.
Proof.
  intros Ha Hd. unfold normalizeToMicros, usdMicrosDecimals. cbn zeta.
  destruct (Z.eqb_spec decimals 6) as [->|H6].
  { rewrite Z.div_mul by lia. rewrite decide_True by int_lia. done. }
  destruct (Z.ltb_spec decimals 6) as [Hlt|Hge].
  - rewrite pow10Uint_spec, decide_True by lia.
    assert (10 ^ 6 = 10 ^ (6 - decimals) * 10 ^ decimals) as ->
      by (rewrite <- Z.pow_add_r by lia; f_equal; lia).
    assert (0 < 10 ^ (6 - decimals)) by (apply Z.pow_pos_nonneg; lia).
    assert (0 < 10 ^ decimals) by (apply Z.pow_pos_nonneg; lia).
    rewrite Z.mul_assoc, Z.div_mul by lia.
    rewrite (proj2 (Z.eqb_neq (10 ^ (6 - decimals)) 0)) by lia. cbn [orb].
    destruct (Z.ltb_spec (MaxUint64 / 10 ^ (6 - decimals)) amount) as [Hov|Hfit].
    + rewrite decide_False; [done|]. intros [_ Hle].
      assert (amount <= MaxUint64 / 10 ^ (6 - decimals))
        by (apply Z.div_le_lower_bound; lia). lia.
    + assert (amount * 10 ^ (6 - decimals) <= MaxUint64).
      { pose proof (Z.mul_div_le MaxUint64 (10 ^ (6 - decimals)) ltac:(lia)). nia. }
      rewrite decide_True by lia. rewrite u64_small by int_lia. done.
  - rewrite pow10Uint_spec by lia.
    assert (10 ^ decimals = 10 ^ 6 * 10 ^ (decimals - 6)) as ->
      by (rewrite <- Z.pow_add_r by lia; f_equal; lia).
    assert (0 < 10 ^ (decimals - 6)) by (apply Z.pow_pos_nonneg; lia).
    rewrite (Z.mul_comm amount), Z.div_mul_cancel_l by lia.
    case_decide as H19.
    + rewrite (proj2 (Z.eqb_neq (10 ^ (decimals - 6)) 0)) by lia.
      rewrite decide_True; [done|]. split; [lia|].
      apply Z.div_le_upper_bound; int_lia || (int_unfold; nia).
    + cbn [Z.eqb]. rewrite decide_False by lia. done.
Qed.

(** ** Correctness of the weighted median *)

Definition weight (l : list PoolObservation) : Z := sum_of ob_StableMicros l.

(** The liquidity of the observations whose price satisfies a test. *)
Definition weight_where (p : rat -> bool) (l : list PoolObservation) : Z :=
  sum_of (fun o => if p (price_of o) then ob_StableMicros o else 0) l.

Definition below (m : rat) (p : rat) : bool := RatLt p m.
Definition above (m : rat) (p : rat) : bool := RatLt m p.

Definition price_le (x y : PoolObservation) : Prop := (price_of x <= price_of y)%Q.

Lemma insert_price_perm x l : insert_price x l ≡ₚ x :: l.
Proof.
  induction l as [|y l IH]; cbn; [done|]. case_match; [|done]. rewrite IH. constructor.
Qed.

Lemma sort_price_perm l : sort_price l ≡ₚ l.
Proof. induction l as [|x l IH]; cbn; [done|]. by rewrite insert_price_perm, IH. Qed.

Lemma insert_price_sorted x l :
  StronglySorted price_le l -> StronglySorted price_le (insert_price x l).
Proof.
  induction 1 as [|y l Hs IH Hy]; cbn; [by repeat constructor|].
  destruct (RatLt (price_of y) (price_of x)) eqn:E.
  - constructor; [done|]. rewrite insert_price_perm. constructor; [|done].
    apply RatLt_spec in E. by apply Qlt_le_weak.
  - apply RatLt_false in E. constructor; [by constructor|].
    constructor; [done|]. eapply Forall_impl; [exact Hy|].
    intros z. unfold price_le. intros. eapply Qle_trans; eassumption.
Qed.

Lemma sort_price_sorted l : StronglySorted price_le (sort_price l).
Proof. induction l; cbn; [constructor | by apply insert_price_sorted]. Qed.

Definition wf_weights (l : list PoolObservation) : Prop := Forall (fun o => is_u64 (ob_StableMicros o)) l.

Lemma weight_nonneg l : wf_weights l -> 0 <= weight l.
Proof. intros H. apply sum_of_nonneg. eapply Forall_impl; [exact H|]. cbn. int_lia. Qed.

Lemma weight_app l1 l2 : weight (l1 ++ l2) = weight l1 + weight l2.
Proof. apply sum_of_app. Qed.

Lemma total_weight_spec l t :
  wf_weights l -> is_u64 t ->
  total_weight l t = if decide (t + weight l <= MaxUint64) then Some (t + weight l) else None.
Proof.
  intros Hl. revert t. induction Hl as [|o l Ho Hl IH]; intros t Ht; cbn [total_weight].
  - change (weight []) with 0. rewrite decide_True by int_lia. f_equal. lia.
  - pose proof (weight_nonneg l Hl).
    change (weight (o :: l)) with (ob_StableMicros o + weight l).
    destruct (Z.ltb_spec (MaxUint64 - t) (ob_StableMicros o)).
    + rewrite decide_False by lia. done.
    + rewrite u64_small by int_lia. rewrite IH by int_lia.
      replace (t + ob_StableMicros o + weight l) with (t + (ob_StableMicros o + weight l)) by lia.
      done.
Qed.

Lemma weight_where_le p l : wf_weights l -> weight_where p l <= weight l.
Proof.
  induction 1 as [|o l Ho Hl IH]; [done|].
  change (weight (o :: l)) with (ob_StableMicros o + weight l).
  change (weight_where p (o :: l)) with
    ((if p (price_of o) then ob_StableMicros o else 0) + weight_where p l).
  case_match; int_lia.
Qed.

Lemma weight_where_app p l1 l2 : weight_where p (l1 ++ l2) = weight_where p l1 + weight_where p l2.
Proof. apply sum_of_app. Qed.

Lemma weight_where_none p l : Forall (fun o => p (price_of o) = false) l -> weight_where p l = 0.
Proof.
  induction 1 as [|o l Ho _ IH]; [done|].
  change (weight_where p (o :: l)) with
    ((if p (price_of o) then ob_StableMicros o else 0) + weight_where p l).
  by rewrite Ho, IH.
Qed.

(** Cutting a list sorted by price: the liquidity strictly below a price that
    bounds the right part is on the left, and conversely. *)
Lemma weight_below_cut m l1 l2 :
  wf_weights l1 -> Forall (fun o => m <= price_of o)%Q l2 ->
  weight_where (below m) (l1 ++ l2) <= weight l1.
Proof.
  intros Hw Hm. rewrite weight_where_app, (weight_where_none _ l2).
  - pose proof (weight_where_le (below m) l1 Hw). lia.
  - eapply Forall_impl; [exact Hm|]. intros o. cbn. apply RatLt_false.
Qed.

Lemma weight_above_cut m l1 l2 :
  wf_weights l2 -> Forall (fun o => price_of o <= m)%Q l1 ->
  weight_where (above m) (l1 ++ l2) <= weight l2.
Proof.
  intros Hw Hm. rewrite weight_where_app, (weight_where_none _ l1).
  - pose proof (weight_where_le (above m) l2 Hw). lia.
  - eapply Forall_impl; [exact Hm|]. intros o. cbn. apply RatLt_false.
Qed.

(** [m] splits the liquidity: at most half of it is priced below, and at most
    half above. *)
Definition splits (m : rat) (l : list PoolObservation) : Prop :=
  2 * weight_where (below m) l <= weight l /\ 2 * weight_where (above m) l <= weight l.

Lemma sorted_cut pre o l :
  StronglySorted price_le (pre ++ o :: l) ->
  Forall (fun x => price_of x <= price_of o)%Q (pre ++ [o]) /\
  Forall (fun x => price_of o <= price_of x)%Q (o :: l).
Proof.
  intros (Hp & _ & Ho)%StronglySorted_app. apply StronglySorted_cons in Ho as [Ho _].
  split.
  - apply Forall_app. split; [|apply Forall_singleton, Qle_refl].
    apply Forall_forall. intros x Hx. apply (Hp x o Hx (list_elem_of_here _ _)).
  - constructor; [apply Qle_refl | exact Ho].
Qed.

Lemma next_weighted_spec l :
  match next_weighted l with
  | Some n => exists z l', l = z ++ n :: l' /\ weight z = 0
  | None => weight l = 0
  end.
Proof.
  induction l as [|o l IH]; [done|]. cbn [next_weighted].
  destruct (Z.eqb_spec (ob_StableMicros o) 0) as [H0|].
  - destruct (next_weighted l) as [n|].
    + destruct IH as (z & l' & -> & Hz). exists (o :: z), l'. split; [done|].
      change (weight (o :: z)) with (ob_StableMicros o + weight z). lia.
    + change (weight (o :: l)) with (ob_StableMicros o + weight l). lia.
  - by exists [], l.
Qed.

Definition within_prices (m : rat) (l : list PoolObservation) : Prop :=
  exists o1 o2, o1 ∈ l /\ o2 ∈ l /\ (price_of o1 <= m <= price_of o2)%Q.

Lemma midpoint a b : (a <= b)%Q -> (a <= RatQuo (RatAdd a b) (SetInt 2) <= b)%Q.
Proof.
  intros Hab. autorewrite with rat. change (SetInt 2) with 2%Q.
  split; [apply Qle_shift_div_l | apply Qle_shift_div_r]; lra.
Qed.

(** A price between two neighbours splits the liquidity, if each side holds at
    most half of it. *)
Lemma splits_cut m l1 l2 :
  wf_weights (l1 ++ l2) ->
  Forall (fun o => price_of o <= m)%Q l1 -> Forall (fun o => m <= price_of o)%Q l2 ->
  2 * weight l1 <= weight (l1 ++ l2) -> 2 * weight l2 <= weight (l1 ++ l2) ->
  splits m (l1 ++ l2).
Proof.
  intros Hw H1 H2 Hl1 Hl2. apply Forall_app in Hw as [Hw1 Hw2].
  pose proof (weight_below_cut m l1 l2 Hw1 H2). pose proof (weight_above_cut m l1 l2 Hw2 H1).
  unfold splits. lia.
Qed.

(** The price of the observation at which the cumulative liquidity passes
    half. *)
Lemma splits_at pre o l :
  wf_weights (pre ++ o :: l) -> StronglySorted price_le (pre ++ o :: l) ->
  2 * weight pre <= weight (pre ++ o :: l) -> 2 * weight l <= weight (pre ++ o :: l) ->
  splits (price_of o) (pre ++ o :: l).
Proof.
  intros Hw Hs H1 H2. destruct (sorted_cut _ _ _ Hs) as [Hpre Hpost].
  pose proof (proj1 (Forall_app _ _ _) Hw) as [Hw1 Hw2]. split.
  - pose proof (weight_below_cut (price_of o) pre (o :: l) Hw1 Hpost). lia.
  - apply Forall_cons in Hw2 as [_ Hw2].
    pose proof (weight_above_cut (price_of o) (pre ++ [o]) l Hw2 Hpre) as Ha.
    rewrite <- app_assoc in Ha. cbn in Ha. lia.
Qed.

(** The mean of two observations between which the liquidity is cut in half. *)
Lemma splits_between pre o z n l :
  wf_weights (pre ++ o :: z ++ n :: l) -> StronglySorted price_le (pre ++ o :: z ++ n :: l) ->
  weight z = 0 -> 2 * (weight pre + ob_StableMicros o) = weight (pre ++ o :: z ++ n :: l) ->
  splits (RatQuo (RatAdd (price_of o) (price_of n)) (SetInt 2)) (pre ++ o :: z ++ n :: l).
Proof.
  intros Hw Hs Hz Hhalf. set (m := RatQuo _ _).
  assert (price_of o <= price_of n)%Q as Hon.
  { apply StronglySorted_app in Hs as (_ & _ & Hs). apply StronglySorted_cons in Hs as [Ho _].
    apply Forall_app in Ho as [_ Ho]. by apply Forall_inv in Ho. }
  pose proof (midpoint _ _ Hon) as [Hom Hmn]. fold m in Hom, Hmn.
  destruct (sorted_cut _ _ _ Hs) as [Hpre _].
  replace (pre ++ o :: z ++ n :: l) with ((pre ++ o :: z) ++ n :: l) in *
    by (rewrite <- app_assoc; done).
  destruct (sorted_cut _ _ _ Hs) as [_ Hpost].
  assert (weight (pre ++ o :: z) = weight pre + ob_StableMicros o) as Hcum.
  { rewrite weight_app. change (weight (o :: z)) with (ob_StableMicros o + weight z). lia. }
  assert (weight ((pre ++ o :: z) ++ n :: l) = weight pre + ob_StableMicros o + weight (n :: l))
    as Htot by (rewrite weight_app; lia).
  split.
  - pose proof (weight_below_cut m (pre ++ o :: z) (n :: l)) as Hb.
    apply Forall_app in Hw as [Hw1 _]. specialize (Hb Hw1).
    enough (Forall (fun x => m <= price_of x)%Q (n :: l)) by (specialize (Hb H); lia).
    eapply Forall_impl; [exact Hpost|]. intros x. cbn. by apply Qle_trans.
  - rewrite <- app_assoc in *. cbn [app] in *.
    replace (pre ++ o :: z ++ n :: l) with ((pre ++ [o]) ++ z ++ n :: l) in *
      by (rewrite <- app_assoc; done).
    pose proof (weight_above_cut m (pre ++ [o]) (z ++ n :: l)) as Ha.
    apply Forall_app in Hw as [_ Hw2]. specialize (Ha Hw2).
    assert (weight (z ++ n :: l) = weight (n :: l)) by (rewrite weight_app; lia).
    enough (Forall (fun x => price_of x <= m)%Q (pre ++ [o])) by (specialize (Ha H0); lia).
    eapply Forall_impl; [exact Hpre|]. intros x. cbn. intros. by eapply Qle_trans.
Qed.

Lemma elem_of_mid {A} (l1 : list A) x l2 : x ∈ l1 ++ x :: l2.
Proof. apply elem_of_app. right. apply list_elem_of_here. Qed.

Lemma median_loop_spec l pre total :
  wf_weights (pre ++ l) -> StronglySorted price_le (pre ++ l) ->
  total = weight (pre ++ l) -> 0 < total <= MaxUint64 -> 2 * weight pre < total ->
  exists m, median_loop l (weight pre) total = Some m /\ splits m (pre ++ l) /\
    within_prices m (pre ++ l).
Proof.
  revert pre. induction l as [|o l IH]; intros pre Hw Hs Ht Hpos Hpre.
  { rewrite app_nil_r in Ht. lia. }
  cbn [median_loop]. pose proof (proj1 (Forall_app _ _ _) Hw) as [Hwp Hwl].
  apply Forall_cons in Hwl as [Ho Hwl].
  pose proof (weight_nonneg pre Hwp). pose proof (weight_nonneg l Hwl).
  assert (total = weight pre + ob_StableMicros o + weight l) as Ht'.
  { rewrite Ht, weight_app. change (weight (o :: l)) with (ob_StableMicros o + weight l). lia. }
  assert (weight (pre ++ [o]) = weight pre + ob_StableMicros o) as Hsnoc.
  { rewrite weight_app. change (weight [o]) with (ob_StableMicros o + 0). lia. }
  assert (forall x, 2 * weight (pre ++ [o]) < total -> x = weight (pre ++ [o]) ->
    exists m, median_loop l x total = Some m /\ splits m (pre ++ o :: l) /\
      within_prices m (pre ++ o :: l)) as Hnext.
  { intros x Hlt ->. specialize (IH (pre ++ [o])). rewrite <- app_assoc in IH. by apply IH. }
  destruct (Z.eqb_spec (ob_StableMicros o) 0) as [Hz0|Hz0]; [apply Hnext; lia|].
  rewrite (u64_small (weight pre + ob_StableMicros o)), u64_small by int_lia.
  replace (total - (weight pre + ob_StableMicros o)) with (weight l) by lia.
  destruct (Z.ltb_spec (weight l) (weight pre + ob_StableMicros o)) as [Hlt|Hge].
  { exists (price_of o). split; [done|]. split; [apply splits_at; lia || done|].
    exists o, o. split_and!; [apply elem_of_mid.. | apply Qle_refl | apply Qle_refl]. }
  destruct (Z.eqb_spec (weight pre + ob_StableMicros o) (weight l)) as [Heq|]; [|apply Hnext; lia].
  pose proof (next_weighted_spec l) as Hn. destruct (next_weighted l) as [n|]; [|int_lia].
  destruct Hn as (z & l' & -> & Hz). eexists. split; [done|]. split.
  - apply splits_between; lia || done.
  - exists o, n. split; [apply elem_of_mid|]. split.
    + apply elem_of_app. right. apply list_elem_of_further, elem_of_mid.
    + apply midpoint. apply StronglySorted_app in Hs as (_ & _ & Hs).
      apply StronglySorted_cons in Hs as [Hs _]. apply Forall_app in Hs as [_ Hs].
      by apply Forall_inv in Hs.
Qed.

#[export] Instance weight_perm : Proper ((≡ₚ) ==> eq) weight.
Proof. apply sum_of_perm. Qed.
#[export] Instance weight_where_perm p : Proper ((≡ₚ) ==> eq) (weight_where p).
Proof. apply sum_of_perm. Qed.
#[export] Instance splits_perm m : Proper ((≡ₚ) ==> iff) (splits m).
Proof. intros l l' Hp. unfold splits. by rewrite Hp. Qed.
#[export] Instance within_prices_perm m : Proper ((≡ₚ) ==> iff) (within_prices m).
Proof. intros l l' Hp. unfold within_prices. by setoid_rewrite Hp. Qed.
#[export] Instance wf_weights_perm : Proper ((≡ₚ) ==> iff) wf_weights.
Proof. intros l l' Hp. unfold wf_weights. by rewrite Hp. Qed.

(** A price that the median accepts. *)
Definition priced (o : PoolObservation) : Prop := exists p, ob_price o = Some p /\ (0 < p)%Q.

Lemma priced_spec l :
  existsb (fun o => match ob_price o with None => true | Some p => negb (RatPos p) end) l = false
  <-> Forall priced l.
Proof.
  rewrite <- not_true_iff_false, existsb_exists, Forall_forall. unfold priced. split.
  - intros H o Ho. apply list_elem_of_In in Ho. destruct (ob_price o) as [p|] eqn:E.
    + exists p. split; [done|]. apply RatPos_spec. destruct (RatPos p) eqn:Ep; [done|].
      destruct H. exists o. by rewrite E, Ep.
    + destruct H. exists o. by rewrite E.
  - intros H (o & Ho & Hb). apply list_elem_of_In in Ho. destruct (H o Ho) as (p & E & Hp).
    rewrite E in Hb. apply RatPos_spec in Hp. by rewrite Hp in Hb.
Qed.

Lemma price_of_pos o : priced o -> (0 < price_of o)%Q.
Proof. intros (p & E & Hp). unfold price_of. by rewrite E. Qed.

Lemma liquidityWeightedMedian_spec observations :
  wf_weights observations ->
  match liquidityWeightedMedian observations with
  | Ok (m, total) =>
      Forall priced observations /\ total = weight observations /\ 0 < total <= MaxUint64 /\
      splits m observations /\ within_prices m observations
  | Err InvalidObservationPrice => ~ Forall priced observations
  | Err LiquidityOverflow => Forall priced observations /\ MaxUint64 < weight observations
  | Err ErrInsufficientObservations => Forall priced observations /\ weight observations = 0
  | Err _ => False
  end.
Proof.
  intros Hw. unfold liquidityWeightedMedian.
  destruct (existsb _ _) eqn:Ep; [by rewrite <- priced_spec, Ep|].
  apply priced_spec in Ep.
  assert (wf_weights (sort_price observations)) as Hws by by rewrite sort_price_perm.
  assert (weight (sort_price observations) = weight observations) as Hwt by by rewrite sort_price_perm.
  rewrite total_weight_spec, Z.add_0_l, Hwt by (done || int_lia).
  pose proof (weight_nonneg _ Hw). case_decide; [|split; [done|lia]].
  destruct (Z.eqb_spec (weight observations) 0); [done|].
  destruct (median_loop_spec (sort_price observations) [] (weight observations))
    as (m & Hm & Hsplit & Hin); cbn [app].
  - done.
  - apply sort_price_sorted.
  - by rewrite sort_price_perm.
  - lia.
  - change (weight []) with 0. lia.
  - change (weight []) with 0 in Hm. rewrite Hm. cbn [app] in *.
    rewrite sort_price_perm in Hsplit, Hin. split_and!; (done || lia).
Qed.

(** [liquidityWeightedMedian] returns a weighted median, and fails only
    when there is none: given positive prices and a total liquidity that is
    positive and fits 64 bits, it returns the exact total and a price with at
    most half of the liquidity priced below it and at most half above, between
    two observed prices. Its errors say which condition is violated. *)
Theorem liquidityWeightedMedian_splits observations :
  wf_weights observations ->
  match liquidityWeightedMedian observations with
  | Ok (m, total) =>
      Forall priced observations /\ total = weight observations /\ 0 < total <= MaxUint64 /\
      splits m observations /\ within_prices m observations
  | Err InvalidObservationPrice => ~ Forall priced observations
  | Err LiquidityOverflow => Forall priced observations /\ MaxUint64 < weight observations
  | Err ErrInsufficientObservations => Forall priced observations /\ weight observations = 0
  | Err _ => False
  end.
Proof. apply liquidityWeightedMedian_spec. Qed.

(** ** The result does not depend on any iteration order *)

Definition rank (p : PoolState) : Z * (Z * string) := (ps_Slot p, (ps_TxIndex p, ps_TxHash p)).

Lemma newer_rank p q : newer p q = Prelude.ltb (rank q) (rank p).
Proof.
  unfold newer, rank. rewrite ltb_pair. cbn [fst snd]. rewrite ltb_pair. cbn [fst snd].
  rewrite (Z.eqb_sym (ps_Slot p)), (Z.eqb_sym (ps_TxIndex p)).
  destruct (ps_Slot q <? ps_Slot p); [done|]. by destruct (ps_Slot q =? ps_Slot p).
Qed.

(** A state that the aggregate looks at. *)
Definition considered (c : Config) (pools : list (option PoolState)) (p : PoolState) : Prop :=
  Some p ∈ pools /\ negb (IncludeMempool c) && ps_FromMempool p = false.

(** The map holds the newest considered state under each key. *)
Definition newest (c : Config) (pools : list (option PoolState)) (k : string) (p : PoolState) : Prop :=
  considered c pools p /\ latest_key p = k /\
  forall q, considered c pools q -> latest_key q = k -> Prelude.leb (rank q) (rank p) = true.

Lemma considered_snoc c pools o p :
  considered c (pools ++ [o]) p <->
  considered c pools p \/ (o = Some p /\ negb (IncludeMempool c) && ps_FromMempool p = false).
Proof.
  unfold considered. rewrite elem_of_app, list_elem_of_singleton. naive_solver.
Qed.

Lemma latest_pools_spec c pools k :
  match latest_pools c pools !! k with
  | Some p => newest c pools k p
  | None => forall q, considered c pools q -> latest_key q <> k
  end.
Proof.
  induction pools as [|o pools IH] using rev_ind.
  { unfold latest_pools. cbn [foldl]. rewrite lookup_empty. intros q [Hq _]. by apply not_elem_of_nil in Hq. }
  unfold latest_pools in *. rewrite foldl_app. cbn [foldl].
  set (m := foldl (keep_latest c) ∅ pools) in *. unfold newest in *.
  unfold keep_latest.
  destruct o as [p|]; [|by destruct (m !! k); setoid_rewrite considered_snoc; naive_solver].
  destruct (negb (IncludeMempool c) && ps_FromMempool p) eqn:Hskip.
  { destruct (m !! k); setoid_rewrite considered_snoc; naive_solver congruence. }
  destruct (decide (latest_key p = k)) as [Hk|Hk].
  - subst k. destruct (m !! latest_key p) as [cur|] eqn:Hm; cbn.
    + destruct IH as (Hc & Hkey & Hmax). rewrite newer_rank.
      destruct (Prelude.ltb (rank cur) (rank p)) eqn:Hn.
      * rewrite lookup_insert_eq. setoid_rewrite considered_snoc.
        split; [by right|]. split; [done|].
        assert (Prelude.leb (rank cur) (rank p) = true) as Hle
          by (unfold Prelude.leb; by rewrite (ltb_asym _ _ Hn)).
        intros q [Hq|[[= ->] _]] Hqk; [|apply leb_refl].
        eapply leb_trans; [by apply Hmax | done].
      * rewrite Hm. setoid_rewrite considered_snoc. split; [by left|]. split; [done|].
        intros q [Hq|[[= ->] _]] Hqk; [by apply Hmax|]. unfold Prelude.leb. by rewrite Hn.
    + rewrite lookup_insert_eq. setoid_rewrite considered_snoc. split; [by right|]. split; [done|].
      intros q [Hq|[[= ->] _]] Hqk; [by destruct (IH q Hq) | apply leb_refl].
  - assert (forall m', m' = m \/ m' = <[latest_key p := p]> m -> m' !! k = m !! k) as Hm'.
    { intros m' [->| ->]; [done|]. by rewrite lookup_insert_ne. }
    rewrite Hm'; [|destruct (m !! latest_key p) as [p0|]; [destruct (newer p p0)|]; auto].
    destruct (m !! k); setoid_rewrite considered_snoc; naive_solver.
Qed.

(** The observation that a state yields, if any. *)
Definition observed (c : Config) (now : Z) (p : PoolState) : option PoolObservation :=
  match observationFromPool p c now with Ok o => o | Err _ => None end.

Lemma observe_all_spec c now l acc :
  observe_all c now l acc =
    if existsb (fun p => negb (is_ok (observationFromPool p c now))) l then Err ErrNonFinitePrice
    else Ok (acc ++ omap (observed c now) l).
Proof.
  revert acc. induction l as [|p l IH]; intros acc; cbn [observe_all existsb omap list_omap].
  { by rewrite app_nil_r. }
  unfold observed at 1. destruct (observationFromPool p c now) as [[o|]|e] eqn:E; cbn [is_ok negb orb].
  - rewrite IH. case_match; [done|]. by rewrite <- app_assoc.
  - apply IH.
  - unfold observationFromPool in E. by go_cases.
Qed.

Lemma observed_key c now p o :
  observed c now p = Some o -> ob_Protocol o = ps_Protocol p /\ ob_PoolID o = ps_PoolId p.
Proof.
  unfold observed, observationFromPool. intros H. by go_cases.
Qed.

Lemma NoDup_omap {A B K K'} (f : A -> option B) (g : A -> K) (h : B -> K') l :
  NoDup (g <$> l) ->
  (forall a a' b b', f a = Some b -> f a' = Some b' -> h b = h b' -> g a = g a') ->
  NoDup (h <$> omap f l).
Proof.
  intros Hnd Hf. induction l as [|a l IH]; [constructor|].
  rewrite fmap_cons in Hnd. apply NoDup_cons in Hnd as [Ha Hnd].
  cbn [omap list_omap]. destruct (f a) as [b|] eqn:E; [|by apply IH].
  rewrite fmap_cons. constructor; [|by apply IH].
  rewrite list_elem_of_fmap. intros (b' & Hb & Hb').
  apply list_elem_of_omap in Hb' as (a' & Ha' & E').
  destruct Ha. rewrite (Hf a a' b b') by done. by apply list_elem_of_fmap_2.
Qed.

Lemma latest_pools_keys c pools :
  NoDup (latest_key <$> (map_to_list (latest_pools c pools)).*2).
Proof.
  assert (latest_key <$> (map_to_list (latest_pools c pools)).*2 =
          (map_to_list (latest_pools c pools)).*1) as ->; [|apply NoDup_fst_map_to_list].
  rewrite <- list_fmap_compose. apply list_fmap_ext. intros i [k p] Hi. cbn.
  apply list_elem_of_lookup_2, elem_of_map_to_list in Hi.
  pose proof (latest_pools_spec c pools k) as H. rewrite Hi in H. by destruct H as (_ & ? & _).
Qed.

Lemma observationsFromPools_order `{R1 : RangeOrder} (R2 : RangeOrder) pools pools' c now :
  latest_pools c pools = latest_pools c pools' ->
  @observationsFromPools R1 pools c now = @observationsFromPools R2 pools' c now.
Proof.
  intros E. unfold observationsFromPools. rewrite <- E.
  set (l := (map_to_list (latest_pools c pools)).*2).
  assert (@range R1 _ l ≡ₚ @range R2 _ l) as Hp by (by rewrite !range_perm).
  rewrite !observe_all_spec.
  assert (existsb (fun p => negb (is_ok (observationFromPool p c now))) (@range R1 _ l) =
          existsb (fun p => negb (is_ok (observationFromPool p c now))) (@range R2 _ l)) as ->.
  { apply eq_bool_prop_intro. rewrite !Is_true_true, !existsb_exists.
    setoid_rewrite <- list_elem_of_In. by setoid_rewrite Hp. }
  destruct (existsb _ _); [done|]. cbn [app]. f_equal. apply sort_by_perm_eq; [|by rewrite Hp].
  apply (NoDup_omap _ latest_key).
  - rewrite range_perm. apply latest_pools_keys.
  - intros p q o o' Ho%observed_key Ho'%observed_key. unfold ob_key, latest_key.
    intros [= _ H1 H2]. destruct Ho, Ho'. congruence.
Qed.

(** No two of the considered states of a pool tie on slot, transaction index
    and hash. *)
Definition no_ties (pools : list (option PoolState)) : Prop :=
  forall p q, Some p ∈ pools -> Some q ∈ pools ->
    latest_key p = latest_key q -> rank p = rank q -> p = q.

Lemma latest_pools_perm c pools pools' :
  pools ≡ₚ pools' -> no_ties pools -> latest_pools c pools = latest_pools c pools'.
Proof.
  intros Hp Hties. apply map_eq. intros k.
  assert (forall p, considered c pools p <-> considered c pools' p) as Hc
    by (intros p; unfold considered; by rewrite Hp).
  pose proof (latest_pools_spec c pools k) as H1. pose proof (latest_pools_spec c pools' k) as H2.
  destruct (latest_pools c pools !! k) as [p|], (latest_pools c pools' !! k) as [q|];
    [f_equal | destruct H1 as (? & ? & _) | destruct H2 as (? & ? & _) | done].
  - destruct H1 as (Hp1 & Hk1 & Hm1), H2 as (Hp2 & Hk2 & Hm2).
    apply Hties; [apply Hp1 | apply Hc, Hp2 | congruence |].
    apply Prelude.leb_antisym; [apply Hm2; [by apply Hc | done] | apply Hm1; [by apply Hc | done]].
  - by destruct (H2 p); [apply Hc|].
  - by destruct (H1 q); [apply Hc|].
Qed.

(** C40: the estimate is deterministic: it does not depend on the order in which
    Go ranges over the map of latest states, nor on the order of the pools, as
    long as no two states of a pool tie on slot, transaction index and hash. *)
Theorem AggregateADAUSDAt_order_independent (R1 R2 : RangeOrder) pools pools' c now :
  pools ≡ₚ pools' -> no_ties pools ->
  @AggregateADAUSDAt R1 pools c now = @AggregateADAUSDAt R2 pools' c now.
Proof.
  intros Hp Hties. unfold AggregateADAUSDAt.
  by rewrite (observationsFromPools_order R2 pools pools' c now (latest_pools_perm c _ _ Hp Hties)).
Qed.

(** ** What a qualified result guarantees *)

Definition wf_stablecoins (c : Config) : Prop :=
  Forall (fun sc => 0 <= sc_Decimals sc <= 255) (Stablecoins c).

(** [o] is a correct observation of the ADA/stablecoin pool [p]: enough ADA and
    enough of a configured stablecoin, priced exactly in dollars per ADA. *)
Record observes (c : Config) (p : PoolState) (o : PoolObservation) : Prop := {
  os_key : ob_Protocol o = ps_Protocol p /\ ob_PoolID o = ps_PoolId p;
  os_pool : exists ada stable sc,
    ada_side p = Some (ada, stable) /\ sc ∈ Stablecoins c /\ IsAsset stable (sc_Asset sc) = true /\
    ob_Stablecoin o = sc_Symbol sc /\ 0 < aa_Amount ada /\ MinADAReserve c <= aa_Amount ada /\
    0 < aa_Amount stable /\
    ob_StableMicros o = aa_Amount stable * 10 ^ 6 / 10 ^ sc_Decimals sc /\
    ob_StableMicros o <= MaxUint64 /\ MinStableUSD c <= ob_StableMicros o /\
    priced o /\
    (price_of o * inject_Z (aa_Amount ada * 10 ^ sc_Decimals sc) ==
     inject_Z (aa_Amount stable * 10 ^ 6))%Q;
}.

Lemma find_stablecoin_some l stable sc :
  find_stablecoin l stable = Some sc -> sc ∈ l /\ IsAsset stable (sc_Asset sc) = true.
Proof.
  unfold find_stablecoin. destruct (list_find _ l) as [[i x]|] eqn:E; [|done].
  intros [= <-]. apply list_find_Some in E as (Hi & Hx & _).
  split; [by eapply list_elem_of_lookup_2 | done].
Qed.

Lemma ada_side_u64 p ada stable :
  wf_pool p -> ada_side p = Some (ada, stable) ->
  is_u64 (aa_Amount ada) /\ is_u64 (aa_Amount stable).
Proof. intros [] H. unfold ada_side, ps_X, ps_Y in *. by go_cases. Qed.

Lemma SetFrac_mul n d : 0 < d -> (SetFrac n d * inject_Z d == inject_Z n)%Q.
Proof.
  intros Hd. rewrite SetFrac_eq, Qmake_Qdiv, Z2Pos.id, Qmult_comm by done.
  apply Qmult_div_r. change 0%Q with (inject_Z 0). rewrite inject_Z_injective. lia.
Qed.

Lemma observed_observes c now p o :
  wf_stablecoins c -> wf_pool p -> observed c now p = Some o -> observes c p o.
Proof.
  intros Hsc Hwf H. split; [by eapply observed_key|].
  unfold observed, observationFromPool in H.
  destruct (ada_side p) as [[ada stable]|] eqn:Hside; [|done].
  destruct (ada_side_u64 _ _ _ Hwf Hside) as [Hada Hstable].
  destruct (find_stablecoin (Stablecoins c) stable) as [sc|] eqn:Hf; [|done].
  cbn [default] in H. apply find_stablecoin_some in Hf as [Hin Hasset].
  destruct (_ || _ || _ || _) eqn:Hc; [done|]. bool_prop.
  pose proof (proj1 (Forall_forall _ _) Hsc sc Hin) as Hdec. cbn in Hdec.
  rewrite normalizeToMicros_exact in H by done. cbn zeta in H.
  case_decide as Hn; [|done]. destruct Hn as [Hd25 Hfit].
  destruct (_ <? MinStableUSD c) eqn:Hm; [done|]. bool_prop.
  destruct (finiteFloat64 _) as [v|]; [|done]. injection H as <-.
  exists ada, stable, sc. unfold priced, price_of.
  cbn [ob_Stablecoin ob_StableMicros ob_price default].
  assert (0 < 10 ^ sc_Decimals sc) by (apply Z.pow_pos_nonneg; lia).
  assert (0 < aa_Amount ada) by int_lia. assert (0 < aa_Amount stable) by int_lia.
  unfold pow10Big, usdMicrosDecimals.
  split_and!; try (done || lia).
  - eexists. split; [done|]. rewrite SetFrac_eq by nia. unfold Qlt. cbn. nia.
  - apply SetFrac_mul. nia.
Qed.

(** The bounds that the code folds over the observations. *)
Lemma min_max_price_spec first l lo hi :
  (0 < first)%Q -> Forall priced l -> min_max_price first l = (lo, hi) ->
  (0 < lo)%Q /\ (lo <= first <= hi)%Q /\ Forall (fun o => lo <= price_of o <= hi)%Q l.
Proof.
  intros Hf. unfold min_max_price.
  revert lo hi. induction l as [|o l IH] using rev_ind; intros lo hi Hl.
  { cbn. intros [= <- <-]. split_and!; [done|apply Qle_refl..|done]. }
  apply Forall_app in Hl as [Hl Ho]. apply Forall_inv, price_of_pos in Ho.
  rewrite foldl_app. cbn [foldl]. destruct (foldl _ _ l) as [lo' hi'] eqn:E.
  destruct (IH lo' hi' Hl eq_refl) as (Hlo & [Hf1 Hf2] & Hall). intros [= <- <-].
  set (lo := if RatLt (price_of o) lo' then price_of o else lo').
  set (hi := if RatLt hi' (price_of o) then price_of o else hi').
  assert (lo <= lo' /\ lo <= price_of o /\ 0 < lo)%Q as (L1 & L2 & L3).
  { unfold lo. destruct (RatLt (price_of o) lo') eqn:Ec.
    - apply RatLt_spec in Ec. split_and!; [by apply Qlt_le_weak|apply Qle_refl|done].
    - apply RatLt_false in Ec. split_and!; [apply Qle_refl|done|done]. }
  assert (hi' <= hi /\ price_of o <= hi)%Q as (H1 & H2).
  { unfold hi. destruct (RatLt hi' (price_of o)) eqn:Ec.
    - apply RatLt_spec in Ec. split; [by apply Qlt_le_weak|apply Qle_refl].
    - apply RatLt_false in Ec. split; [apply Qle_refl|done]. }
  split; [done|]. split; [exact (conj (Qle_trans _ _ _ L1 Hf1) (Qle_trans _ _ _ Hf2 H1))|].
  apply Forall_app. split; [|by apply Forall_singleton].
  eapply Forall_impl; [exact Hall|]. cbn. intros x [Hx1 Hx2].
  exact (conj (Qle_trans _ _ _ L1 Hx1) (Qle_trans _ _ _ Hx2 H1)).
Qed.

(** The observations agree: no price exceeds another by more than a ratio [d]
    of it. *)
Definition agree (d : rat) (l : list PoolObservation) : Prop :=
  forall o1 o2, o1 ∈ l -> o2 ∈ l -> (price_of o1 - price_of o2 <= d * price_of o2)%Q.

Lemma spread_agree first l lo hi d :
  (0 < first)%Q -> Forall priced l -> min_max_price first l = (lo, hi) ->
  RatLt d (RatQuo (RatSub hi lo) lo) = false -> agree d l.
Proof.
  intros Hf Hl E Hd. destruct (min_max_price_spec _ _ _ _ Hf Hl E) as (Hlo & [Hf1 Hf2] & Hall).
  apply RatLt_false in Hd. autorewrite with rat in Hd.
  assert (0 <= (hi - lo) / lo)%Q by (apply Qle_shift_div_l; lra).
  assert (hi - lo <= d * lo)%Q.
  { rewrite <- (Qmult_div_r (hi - lo) lo) by lra. rewrite (Qmult_comm lo).
    apply Qmult_le_compat_r; lra. }
  intros o1 o2 H1 H2. rewrite Forall_forall in Hall.
  destruct (Hall _ H1) as [_ Hhi], (Hall _ H2) as [Hlo2 _].
  assert (d * lo <= d * price_of o2)%Q.
  { rewrite !(Qmult_comm d). apply Qmult_le_compat_r; lra. }
  lra.
Qed.

(** What [aggregate] guarantees about the observations of a qualified result. *)
Record agreed (c : Config) (r : Result) : Prop := {
  ag_count : MinObservations c <= Z.of_nat (length (re_Observations r));
  ag_coins : MinStablecoins c <= Z.of_nat (size (symbols (re_Observations r)));
  ag_share : forall o, o ∈ re_Observations r ->
    (inject_Z (ob_StableMicros o) <= configRatio (MaxPoolShare c) * inject_Z (weight (re_Observations r)))%Q;
  ag_spread : agree (configRatio (MaxDivergence c)) (re_Observations r);
  ag_price : exists m, re_price r = Some m /\
    splits m (re_Observations r) /\ within_prices m (re_Observations r) /\
    SetString (re_PriceNum r) = Some (Num m) /\ SetString (re_PriceDen r) = Some (Denom m);
  ag_qualified : re_Validation r = ValidationQualified;
}.

Lemma share_le micros total q :
  0 < total -> RatLt q (SetFrac micros total) = false ->
  (inject_Z micros <= q * inject_Z total)%Q.
Proof.
  intros Ht H%RatLt_false. rewrite <- (SetFrac_mul micros total Ht).
  apply Qmult_le_compat_r; [done|]. change 0%Q with (inject_Z 0). rewrite <- Zle_Qle. lia.
Qed.

Lemma existsb_false_Forall {A} (f : A -> bool) l :
  existsb f l = false -> Forall (fun x => f x = false) l.
Proof.
  induction l as [|x l IH]; cbn; [constructor|]. intros H. bool_prop. constructor; auto.
Qed.

Lemma aggregate_agreed observations c r :
  wf_weights observations -> aggregate observations c = (r, None) ->
  re_Observations r = observations /\ agreed c r.
Proof.
  intros Hw. unfold aggregate.
  destruct (Z.ltb_spec (Z.of_nat (length observations)) (MinObservations c)); [done|].
  destruct (Z.ltb_spec (Z.of_nat (size (symbols observations))) (MinStablecoins c)); [done|].
  pose proof (liquidityWeightedMedian_spec observations Hw) as Hmed.
  destruct (liquidityWeightedMedian observations) as [[m total]|e]; [|done].
  destruct Hmed as (Hpriced & -> & Htotal & Hsplit & Hin).
  destruct (existsb _ _) eqn:Hshare; [done|]. apply existsb_false_Forall in Hshare.
  destruct (min_max_price _ _) as [lo hi] eqn:Emm.
  destruct (finiteFloat64 (RatQuo (RatSub hi lo) lo)) as [spread|]; [|done].
  destruct (RatLt _ (RatQuo (RatSub hi lo) lo)) eqn:Hspread; [done|].
  destruct (finiteFloat64 m) as [v|]; [|done].
  destruct (oldest observations) as [at_ age]. intros [= <-]. split; [done|].
  split; cbn [re_Observations re_price re_PriceNum re_PriceDen re_Validation]; try done.
  - intros o Ho. rewrite Forall_forall in Hshare. exact (share_le _ _ _ (proj1 Htotal) (Hshare o Ho)).
  - eapply spread_agree; [|done|exact Emm|done]. destruct observations as [|o l]; [|].
    + cbn in Htotal. lia.
    + cbn [List.hd]. by apply price_of_pos, (Forall_inv Hpriced).
  - exists m. rewrite !SetString_IntString. done.
Qed.

Section Aggregate.
Context `{RangeOrder}.

Lemma observationsFromPools_ok pools c now l o :
  observationsFromPools pools c now = Ok l -> o ∈ l ->
  exists p, newest c pools (latest_key p) p /\ observed c now p = Some o.
Proof.
  unfold observationsFromPools. rewrite observe_all_spec.
  destruct (existsb _ _); [done|]. cbn [app]. intros [= <-].
  rewrite elem_of_sort_by, range_perm. intros (p & Hp & Ho)%list_elem_of_omap.
  exists p. split; [|done]. apply list_elem_of_fmap in Hp as ([k p'] & -> & Hp).
  apply elem_of_map_to_list in Hp. pose proof (latest_pools_spec c pools k) as Hn.
  rewrite Hp in Hn. cbn in *. by destruct Hn as (? & <- & ?).
Qed.

(** A pool list as the program builds it, from well-formed states. *)
Definition wf_pools (pools : list (option PoolState)) : Prop :=
  forall p, Some p ∈ pools -> wf_pool p.

Lemma observes_u64 c p o : wf_stablecoins c -> wf_pool p -> observes c p o -> is_u64 (ob_StableMicros o).
Proof.
  intros Hsc Hp [_ (ada & stable & sc & Hs & Hin & _ & _ & _ & _ & Hst & Hm & Hle & _)].
  rewrite Hm in *. apply (proj1 (Forall_forall _ _) Hsc) in Hin. cbn in Hin.
  split; [|done]. apply Z.div_pos; [lia|]. apply Z.pow_pos_nonneg; lia.
Qed.

Lemma AggregateADAUSDAt_ok pools c now r :
  wf_stablecoins c -> wf_pools pools -> AggregateADAUSDAt pools c now = (r, None) ->
  agreed c r /\ forall o, o ∈ re_Observations r ->
    exists p, newest c pools (latest_key p) p /\ observes c p o.
Proof.
  intros Hsc Hwf. unfold AggregateADAUSDAt.
  destruct (validateConfig c) as [[]|]; [|done].
  destruct (observationsFromPools pools c now) as [l|] eqn:El; [|done].
  assert (forall o, o ∈ l -> exists p, newest c pools (latest_key p) p /\ observes c p o) as Hl.
  { intros o Ho. destruct (observationsFromPools_ok _ _ _ _ _ El Ho) as (p & Hp & Hob).
    exists p. split; [done|]. eapply observed_observes; [done| |done].
    apply Hwf. apply Hp. }
  assert (wf_weights l) as Hw.
  { apply Forall_forall. intros o Ho. destruct (Hl o Ho) as (p & Hp & Hob).
    eapply observes_u64; [done| |done]. apply Hwf, Hp. }
  intros Hag. destruct (aggregate_agreed l c r Hw Hag) as [-> Hr]. done.
Qed.

(** C3: a result without an error is what the configuration promises: each
    observation is of the newest considered state of a pool with enough ADA
    and enough of a configured stablecoin, priced exactly; there are enough
    observations and enough different stablecoins; no pool exceeds the
    maximum share of the liquidity and no price exceeds another by more than
    the maximum divergence; the reported price is a liquidity-weighted median
    between two observed prices. *)
Theorem AggregateADAUSDAt_qualified pools c now r :
  wf_stablecoins c -> wf_pools pools -> AggregateADAUSDAt pools c now = (r, None) ->
  agreed c r /\ forall o, o ∈ re_Observations r ->
    exists p, newest c pools (latest_key p) p /\ observes c p o.
Proof. apply AggregateADAUSDAt_ok. Qed.
(** The pools kept by [qualify]: each has a volume that passes the thresholds,
    and that volume is the one recorded for it. *)
Definition active (activity : gmap string PoolVolume) (c : Config) (ac : ActivityConfig)
    (qa : gmap string PoolVolume) (p : PoolState) : Prop :=
  exists v sv, activity !! Key p = Some v /\ qa !! Key p = Some v /\
    stableVolumeMicros p v c = Ok sv /\ MinStableVolume ac <= sv /\ MinSwapCount ac <= pv_SwapCount v.

Lemma qualify_spec pools activity c ac q qa q' qa' :
  qualify pools activity c ac q qa = Ok (q', qa') ->
  Forall (active activity c ac qa) q ->
  Forall (active activity c ac qa') q' /\ (forall p, p ∈ q' -> p ∈ q \/ Some p ∈ pools).
Proof.
  revert q qa. induction pools as [|[p|] pools IH]; intros q qa; cbn [qualify].
  - intros [= <- <-] Hq. split; [done|]. tauto.
  - destruct (activity !! Key p) as [v|] eqn:Ev.
    + destruct (stableVolumeMicros p v c) as [sv|] eqn:Es; [|done].
      destruct (_ || _) eqn:Hmin.
      * intros Hr Hq. destruct (IH _ _ Hr Hq) as [P1 P2]. split; [done|].
        intros p' Hp'. destruct (P2 p' Hp'); [by left|right; by right].
      * bool_prop. intros Hr Hq. destruct (IH _ _ Hr) as [P1 P2].
        { apply Forall_app. split.
          - eapply Forall_impl; [exact Hq|]. intros p' (v' & sv' & E1 & E2 & E3).
            exists v', sv'. split; [done|]. split; [|done].
            destruct (decide (Key p = Key p')) as [Hk|Hk].
            + rewrite Hk, lookup_insert_eq. congruence.
            + by rewrite lookup_insert_ne.
          - apply Forall_singleton. exists v, sv. rewrite lookup_insert_eq. done. }
        split; [done|]. intros p' Hp'. destruct (P2 p' Hp') as [Hin|Hin]; [|right; by right].
        apply elem_of_app in Hin as [Hin| ->%list_elem_of_singleton]; [by left|].
        right. left.
    + intros Hr Hq. destruct (IH _ _ Hr Hq) as [P1 P2]. split; [done|].
      intros p' Hp'. destruct (P2 p' Hp'); [by left|right; by right].
  - intros Hr Hq. destruct (IH _ _ Hr Hq) as [P1 P2]. split; [done|].
    intros p' Hp'. destruct (P2 p' Hp'); [by left|right; by right].
Qed.

Lemma index_volumes_spec volumes m m' k v :
  index_volumes volumes m = Ok m' -> m' !! k = Some v ->
  m !! k = Some v \/ (v ∈ volumes /\ pv_Key v = k).
Proof.
  revert m. induction volumes as [|u volumes IH]; intros m; cbn [index_volumes].
  - intros [= <-]. tauto.
  - destruct (_ || _ || _); [done|]. destruct (m !! pv_Key u) eqn:Eu; [done|].
    intros Hr Hk. destruct (IH _ Hr Hk) as [P1|[P1 P2]]; [|right; split; [by right|done]].
    destruct (decide (pv_Key u = k)) as [<-|Hne].
    + rewrite lookup_insert_eq in P1. injection P1 as ->. right. split; [left|done].
    + rewrite lookup_insert_ne in P1 by done. by left.
Qed.

(** An observation without its activity fields. *)
Definition core (o : PoolObservation) : PoolObservation := with_activity o 0 0 0.

Lemma annotate_all_spec q qa c activity ac l l' :
  Forall (active activity c ac qa) q ->
  annotate_all q qa c l = Ok l' ->
  core <$> l = core <$> l' /\
  forall o', o' ∈ l' -> exists o, o ∈ l /\ annotate q qa c o = Ok o'.
Proof.
  intros Hq. revert l'. induction l as [|o l IH]; intros l'; cbn [annotate_all].
  - intros [= <-]. split; [done|]. intros o' Ho'. by apply not_elem_of_nil in Ho'.
  - destruct (annotate q qa c o) as [o1|] eqn:E; [|done].
    destruct (annotate_all q qa c l) as [l1|]; [|done]. intros [= <-].
    destruct (IH l1 eq_refl) as [Hc Hall]. split.
    + rewrite !fmap_cons, Hc. f_equal. unfold annotate in E.
      destruct (list_find _ q) as [[i p]|]; [|by injection E as <-].
      destruct (stableVolumeMicros _ _ _); [|done]. by injection E as <-.
    + intros o' [->|Ho']%elem_of_cons; [by exists o; split; [left|]|].
      destruct (Hall o' Ho') as (x & Hx & Ex). exists x. split; [by right|done].
Qed.

Lemma core_fields l l' :
  core <$> l = core <$> l' ->
  length l = length l' /\ symbols l = symbols l' /\ weight l = weight l' /\
  (forall p, weight_where p l = weight_where p l') /\
  (forall o', o' ∈ l' -> exists o, o ∈ l /\ price_of o = price_of o' /\
     ob_StableMicros o = ob_StableMicros o').
Proof.
  revert l'. induction l as [|o l IH]; intros [|o' l']; try done.
  - intros _. split_and!; try done. intros x Hx. by apply not_elem_of_nil in Hx.
  - rewrite !fmap_cons. intros Hcons.
    pose proof (f_equal head Hcons) as Ho. pose proof (f_equal tail Hcons) as Hl.
    cbn [head tail] in Ho, Hl. unfold core, with_activity in Ho. injection Ho as Ho.
    destruct (IH l' Hl) as (E1 & E2 & E3 & E4 & E5).
    assert (price_of o = price_of o' /\ ob_StableMicros o = ob_StableMicros o' /\
            ob_Stablecoin o = ob_Stablecoin o') as (F1 & F2 & F3)
      by (unfold price_of; split_and!; congruence).
    unfold symbols in *. split_and!.
    + cbn. congruence.
    + rewrite !fmap_cons, !list_to_set_cons, F3, E2. done.
    + change (ob_StableMicros o + weight l = ob_StableMicros o' + weight l'). lia.
    + intros p.
      change ((if p (price_of o) then ob_StableMicros o else 0) + weight_where p l =
              (if p (price_of o') then ob_StableMicros o' else 0) + weight_where p l').
      by rewrite F1, F2, E4.
    + intros x [->|Hx]%elem_of_cons; [exists o; by split; [left|]|].
      destruct (E5 x Hx) as (y & Hy & ?). exists y. split; [by right|done].
Qed.
Lemma agreed_core c r l :
  core <$> re_Observations r = core <$> l -> agreed c r -> agreed c (with_observations r l).
Proof.
  intros Hcore [Hcount Hcoins Hshare Hspread (m & Hm & Hsplit & Hin & Hnum & Hden) Hq].
  destruct (core_fields _ _ Hcore) as (E1 & E2 & E3 & E4 & E5).
  assert (forall o, o ∈ re_Observations r -> exists o', o' ∈ l /\ price_of o' = price_of o) as E6.
  { destruct (core_fields _ _ (eq_sym Hcore)) as (_ & _ & _ & _ & E6).
    intros o Ho. destruct (E6 o Ho) as (o' & Ho' & Hp & _). by exists o'. }
  split; cbn [with_observations re_Observations re_price re_PriceNum re_PriceDen re_Validation].
  - by rewrite <- E1.
  - by rewrite <- E2.
  - intros o' Ho'. destruct (E5 o' Ho') as (o & Ho & _ & <-). rewrite <- E3. by apply Hshare.
  - intros o1 o2 H1 H2. destruct (E5 o1 H1) as (p1 & P1 & <- & _), (E5 o2 H2) as (p2 & P2 & <- & _).
    by apply Hspread.
  - exists m. split; [done|]. unfold splits in *. rewrite <- E3, <- !E4. split; [done|].
    split; [|done]. destruct Hin as (o1 & o2 & H1 & H2 & Hle).
    destruct (E6 o1 H1) as (p1 & P1 & F1), (E6 o2 H2) as (p2 & P2 & F2).
    exists p1, p2. by rewrite F1, F2.
  - done.
Qed.

(** A result qualified by activity keeps every guarantee of the plain
    estimate, and each of its observations carries the swap count and the
    stablecoin volume of a supplied confirmed volume of its own pool, both at
    or above the configured minimum. *)
Theorem AggregateADAUSDWithActivityAt_qualified pools volumes c ac now r :
  wf_stablecoins c -> wf_pools pools ->
  AggregateADAUSDWithActivityAt pools volumes c ac now = (r, None) ->
  agreed c r /\
  forall o, o ∈ re_Observations r ->
    exists p v, Some p ∈ pools /\ ps_PoolId p = ob_PoolID o /\ ps_Protocol p = ob_Protocol o /\
      v ∈ volumes /\ pv_Key v = Key p /\
      stableVolumeMicros p v c = Ok (ob_StableVolumeMicros o) /\
      ob_SwapCount o = pv_SwapCount v /\ ob_ActivitySlots o = pv_WindowSlots v /\
      MinStableVolume ac <= ob_StableVolumeMicros o /\ MinSwapCount ac <= ob_SwapCount o.
Proof.
  intros Hsc Hwf. unfold AggregateADAUSDWithActivityAt. destruct (_ || _); [done|].
  destruct (index_volumes volumes ∅) as [activity|] eqn:Ei; [|done].
  destruct (qualify pools activity c ac [] ∅) as [[q qa]|] eqn:Eq; [|done].
  destruct (qualify_spec _ _ _ _ _ _ _ _ Eq (Forall_nil_2 _)) as [Hact Hfrom].
  destruct (AggregateADAUSDAt (Some <$> q) c now) as [r0 err] eqn:Er.
  destruct (annotate_all q qa c (re_Observations r0)) as [l|] eqn:El; [|done].
  intros [= <- ->]. destruct (annotate_all_spec _ _ _ _ _ _ _ Hact El) as [Hcore Hann].
  assert (wf_pools (Some <$> q)) as Hwfq.
  { intros p (p' & [= <-] & Hp)%list_elem_of_fmap. destruct (Hfrom p Hp) as [Hn|Hin];
      [by apply not_elem_of_nil in Hn | by apply Hwf]. }
  destruct (AggregateADAUSDAt_ok _ _ _ _ Hsc Hwfq Er) as [Hag Hobs].
  split; [by apply agreed_core|]. cbn [with_observations re_Observations]. intros o Ho.
  destruct (Hann o Ho) as (o0 & Ho0 & E0). destruct (Hobs o0 Ho0) as (p0 & Hn0 & [Hk0 _]).
  unfold annotate in E0. destruct (list_find _ q) as [[i p]|] eqn:Ef.
  - apply list_find_Some in Ef as (Hi & [Hp1 Hp2] & _). apply list_elem_of_lookup_2 in Hi.
    destruct (proj1 (Forall_forall _ _) Hact p Hi) as (v & sv & Hv & Hqa & Hs & Hmin & Hsw).
    rewrite Hqa in E0. cbn [default] in E0. unfold default, id in E0. rewrite Hs in E0. injection E0 as <-.
    exists p, v. destruct (index_volumes_spec _ _ _ _ _ Ei Hv) as [Hno|[Hvin Hvk]];
      [by rewrite lookup_empty in Hno|].
    destruct (Hfrom p Hi) as [Hno|Hin]; [by apply not_elem_of_nil in Hno|].
    split_and!; done.
  - apply list_find_None in Ef. destruct Hn0 as ([Hin _] & _ & _), Hk0 as [Hk1 Hk2].
    apply list_elem_of_fmap in Hin as (p' & [= <-] & Hin).
    destruct (proj1 (Forall_forall _ _) Ef p0 Hin). by rewrite Hk1, Hk2.
Qed.
End Aggregate.

(** ** Witnesses *)

Definition sample_usdm : AssetClass := sc_Asset (default zeroStablecoin (head (Stablecoins DefaultConfig))).
Definition sample_usdcx : AssetClass :=
  sc_Asset (default zeroStablecoin (last (Stablecoins DefaultConfig))).
Definition usdm_pool : PoolState :=
  mkPoolState "pool1" "mainnet" "cswap" (mkAssetAmount Lovelace 10000000000)
    (mkAssetAmount sample_usdm 4000000000) 997 1000 100 "b" "t" 0 1000 1000 false.
Definition usdm_pool_old : PoolState :=
  mkPoolState "pool1" "mainnet" "cswap" (mkAssetAmount Lovelace 10000000000)
    (mkAssetAmount sample_usdm 9000000000) 997 1000 99 "b" "t" 0 900 900 false.
Definition usdcx_pool : PoolState :=
  mkPoolState "pool2" "mainnet" "minswap" (mkAssetAmount sample_usdcx 2020000000)
    (mkAssetAmount Lovelace 5000000000) 997 1000 101 "b" "t" 0 2000 2000 false.
Definition sample_pools : list (option PoolState) :=
  [Some usdm_pool; None; Some usdcx_pool; Some usdm_pool_old].
Definition sample_volumes : list PoolVolume :=
  [mkVolume "pool1" "mainnet" "cswap" Lovelace sample_usdm 700000000 280000000 3 1000 101 50 100;
   mkVolume "pool2" "mainnet" "minswap" sample_usdcx Lovelace 150000000 380000000 1 1000 101 60 60].

Definition sample_estimate : Result :=
  Eval vm_compute in (@AggregateADAUSDAt in_key_order sample_pools DefaultConfig 3000000000).1.
Definition sample_active_estimate : Result :=
  Eval vm_compute in
    (@AggregateADAUSDWithActivityAt in_key_order sample_pools sample_volumes DefaultConfig
       DefaultActivityConfig 3000000000).1.

Lemma wf_DefaultConfig : wf_stablecoins DefaultConfig.
Proof. vm_compute. repeat constructor; discriminate. Qed.

Lemma wf_sample_pools : wf_pools sample_pools.
Proof.
  intros p H. unfold sample_pools in H.
  repeat (apply elem_of_cons in H as [H|H]; [simplify_eq; split; vm_compute; split; discriminate|]).
  by apply not_elem_of_nil in H.
Qed.

Lemma normalizeToMicros_exact_witness :
  normalizeToMicros 123456789 8 = Some 1234567 /\
  normalizeToMicros MaxUint64 5 = None.
Proof.
  split.
  - rewrite (normalizeToMicros_exact 123456789 8); [reflexivity | u64_closed | lia].
  - rewrite (normalizeToMicros_exact MaxUint64 5); [reflexivity | u64_closed | lia].
Defined.

Lemma liquidityWeightedMedian_splits_witness :
  exists m total,
    liquidityWeightedMedian (re_Observations sample_estimate) = Ok (m, total) /\
    m = (2 # 5)%Q /\ splits m (re_Observations sample_estimate).
Proof.
  exists (2 # 5)%Q, 6020000000. split; [by vm_compute|]. split; [done|].
  pose proof (liquidityWeightedMedian_splits (re_Observations sample_estimate)) as H.
  replace (liquidityWeightedMedian (re_Observations sample_estimate))
    with (@Ok usd_error (rat * Z) ((2 # 5)%Q, 6020000000)) in H by (by vm_compute).
  apply H. repeat constructor; vm_compute; discriminate.
Defined.

Lemma AggregateADAUSDAt_order_independent_witness :
  @AggregateADAUSDAt in_key_order sample_pools DefaultConfig 3000000000 =
  @AggregateADAUSDAt in_reverse_order (reverse sample_pools) DefaultConfig 3000000000.
Proof.
  apply (AggregateADAUSDAt_order_independent in_key_order in_reverse_order sample_pools).
  - by rewrite reverse_Permutation.
  - intros p q Hp Hq. unfold sample_pools in *.
    repeat (apply elem_of_cons in Hp as [Hp|Hp];
      [simplify_eq; repeat (apply elem_of_cons in Hq as [Hq|Hq]; [simplify_eq; vm_compute; congruence|]);
       by apply not_elem_of_nil in Hq|]).
    by apply not_elem_of_nil in Hp.
Defined.

Lemma AggregateADAUSDAt_qualified_witness :
  re_price sample_estimate = Some (2 # 5)%Q /\ agreed DefaultConfig sample_estimate.
Proof.
  split; [done|].
  apply (@AggregateADAUSDAt_qualified in_key_order sample_pools DefaultConfig 3000000000 sample_estimate
    wf_DefaultConfig wf_sample_pools).
  by vm_compute.
Defined.

Lemma AggregateADAUSDWithActivityAt_qualified_witness :
  (ob_StableVolumeMicros <$> re_Observations sample_active_estimate) = [150000000; 280000000] /\
  agreed DefaultConfig sample_active_estimate.
Proof.
  split; [done|].
  apply (@AggregateADAUSDWithActivityAt_qualified in_key_order sample_pools sample_volumes DefaultConfig
    DefaultActivityConfig 3000000000 sample_active_estimate wf_DefaultConfig wf_sample_pools).
  by vm_compute.
Defined.
