(* ===== verification/Cbor.v ===== *)
(** * Cbor: the interface of the CBOR decoder that the datum parsers call.

    The decoder is an external library. A parser sees a datum as an opaque
    message and asks the library to decode it as a Plutus constructor, a list of
    messages, an integer or a byte string; [None] is a decoding error.
    [CborSyntax] states what the parsers rely on: a message written as one of
    these forms decodes as that form. [PlutusData] is a concrete instance. *)
From S2P Require Import Prelude.
From S2P Require Import Text.

Class Cbor := {
  raw : Type;
  (** [cbor.ConstructorDecoder]: its tag and the message holding its fields *)
  decode_constructor : raw -> option (Z * raw);
  (** decoding into a [[]cbor.RawMessage] *)
  decode_list : raw -> option (list raw);
  (** decoding into a [uint64] *)
  decode_uint : raw -> option Z;
  (** decoding into an [int64] *)
  decode_int : raw -> option Z;
  (** decoding into a [[]byte] *)
  decode_bytes : raw -> option (option (list byte));
}.

(** Messages as they are written. *)
Class CborSyntax (C : Cbor) := {
  constr : Z -> list raw -> raw;
  uint : Z -> raw;
  integer : Z -> raw;
  bytestring : list byte -> raw;
  decode_constr : forall tag fields, 0 <= tag ->
    exists body, decode_constructor (constr tag fields) = Some (tag, body) /\
      decode_list body = Some fields;
  decode_uint_uint : forall n, is_u64 n -> decode_uint (uint n) = Some n;
  decode_int_integer : forall n, is_i64 n -> decode_int (integer n) = Some n;
  decode_bytes_bytestring : forall l, decode_bytes (bytestring l) = Some (Some l);
}.

(** Decoding into a [uint64] gives a [uint64], into an [int64] an [int64]. *)
Class CborRange (C : Cbor) :=
  decode_uint_range : forall d n, decode_uint d = Some n -> is_u64 n.
Class CborIntRange (C : Cbor) :=
  decode_int_range : forall d n, decode_int d = Some n -> is_i64 n.

(** Plutus data: a concrete decoder, for evaluating the parsers. *)
Inductive data :=
| Constr (tag : Z) (fields : list data)
| DList (fields : list data)
| DInt (n : Z)
| DBytes (l : list byte).

#[export] Instance PlutusData : Cbor := {|
  raw := data;
  decode_constructor d := match d with Constr tag fields => Some (tag, DList fields) | _ => None end;
  decode_list d := match d with DList fields => Some fields | _ => None end;
  decode_uint d :=
    match d with
    | DInt n => if (0 <=? n) && (n <=? MaxUint64) then Some n else None
    | _ => None
    end;
  decode_int d :=
    match d with
    | DInt n => if (MinInt64 <=? n) && (n <=? MaxInt64) then Some n else None
    | _ => None
    end;
  decode_bytes d := match d with DBytes l => Some (Some l) | _ => None end;
|}.

#[export, program] Instance PlutusSyntax : CborSyntax PlutusData := {|
  constr := Constr; uint := DInt; integer := DInt; bytestring := DBytes;
|}.
Next Obligation. intros. by eexists. Qed.
Next Obligation.
  intros n Hn. cbn. rewrite (proj2 (Z.leb_le 0 n)), (proj2 (Z.leb_le n MaxUint64)) by int_lia. done.
Qed.
Next Obligation.
  intros n Hn. cbn.
  rewrite (proj2 (Z.leb_le MinInt64 n)), (proj2 (Z.leb_le n MaxInt64)) by int_lia. done.
Qed.
Next Obligation. done. Qed.

#[export] Instance PlutusRange : CborRange PlutusData.
Proof. intros d n H; destruct d; cbn in H; go_cases. bool_prop. int_lia. Qed.

#[export] Instance PlutusIntRange : CborIntRange PlutusData.
Proof. intros d n H; destruct d; cbn in H; go_cases. bool_prop. int_lia. Qed.

(** ** Big integers and lists *)

(** decoding into a [*big.Int], which may stay nil *)
Class CborNumbers (C : Cbor) := decode_bigint : raw -> option (option Z).

(** What else the library writes; nothing is promised of how it reads a nil. *)
Class CborWriter (C : Cbor) `{!CborNumbers C} := {
  big_integer : Z -> raw;
  definite_list : list raw -> raw;
  indefinite_list : list raw -> raw;
  null : raw;
  decode_big_integer : forall z, decode_bigint (big_integer z) = Some (Some z);
  decode_definite_list : forall l, decode_list (definite_list l) = Some l;
  decode_indefinite_list : forall l, decode_list (indefinite_list l) = Some l;
}.

#[export] Instance PlutusNumbers : CborNumbers PlutusData :=
  fun d => match d with DInt n => Some (Some n) | _ => None end.
#[export, program] Instance PlutusWriter : CborWriter PlutusData := {|
  big_integer := DInt;
  definite_list := DList;
  indefinite_list := DList;
  null := DBytes [];
|}.
Solve Obligations with done.

(** ** Structs

    A struct that embeds [cbor.StructAsArray] is decoded from a list with one
    message per field. *)
Definition struct_fields `{Cbor} (d : raw) (count : nat) : option (list raw) :=
  fields ← decode_list d;
  if Nat.eqb (length fields) count then Some fields else None.

(** The start of most [UnmarshalCBOR] methods: a constructor whose tag must be
    the expected one, holding the fields of a struct. *)
Definition tagged_struct `{Cbor} (d : raw) (expectedTag : Z) (count : nat) : option (list raw) :=
  '(tag, body) ← decode_constructor d;
  if negb (tag =? expectedTag) then None else struct_fields body count.

(** The same without a check of the tag. *)
Definition untagged_struct `{Cbor} (d : raw) (count : nat) : option (list raw) :=
  '(_, body) ← decode_constructor d;
  struct_fields body count.

(** [[][]byte] *)
Definition decode_bytes_list `{Cbor} (d : raw) : option (list (option (list byte))) :=
  items ← decode_list d;
  mapM decode_bytes items.

Lemma tagged_struct_constr `{C : Cbor, S : !CborSyntax C} tag fields n :
  0 <= tag -> length fields = n -> tagged_struct (constr tag fields) tag n = Some fields.
Proof.
  intros Ht Hn. unfold tagged_struct, struct_fields.
  destruct (decode_constr tag fields Ht) as (body & -> & Hb). cbn [mbind option_bind].
  rewrite Z.eqb_refl. cbn [negb]. rewrite Hb. cbn [mbind option_bind].
  by rewrite Hn, Nat.eqb_refl.
Qed.

Lemma untagged_struct_constr `{C : Cbor, S : !CborSyntax C} tag fields n :
  0 <= tag -> length fields = n -> untagged_struct (constr tag fields) n = Some fields.
Proof.
  intros Ht Hn. unfold untagged_struct, struct_fields.
  destruct (decode_constr tag fields Ht) as (body & -> & Hb). cbn [mbind option_bind].
  rewrite Hb. cbn [mbind option_bind]. by rewrite Hn, Nat.eqb_refl.
Qed.

(** Read off the steps of a decoder that succeeded. *)
Ltac decode_inv :=
  repeat match goal with
    | H : _ ≫= _ = Some _ |- _ => apply bind_Some in H as (? & ? & H); cbv beta in H
    | H : match ?x with _ => _ end = Some _ |- _ => destruct x eqn:?; try discriminate H
    | H : Some _ = Some _ |- _ => injection H as H; subst
    end.

(** Evaluate a decoder on a message in the contract's format. *)
Ltac decode_step :=
  first
    [ rewrite tagged_struct_constr by (done || lia)
    | rewrite untagged_struct_constr by (done || lia)
    | rewrite decode_bytes_bytestring
    | rewrite decode_uint_uint by done
    | rewrite decode_int_integer by done ]; cbn [mbind option_bind].

(** [constructorFields]: a constructor with the expected tag and number of
    fields. *)
Definition constructorFields `{Cbor} (d : raw) (expectedTag expectedCount : Z) : option (list raw) :=
  '(tag, body) ← decode_constructor d;
  if negb (tag =? expectedTag) then None
  else
    fields ← decode_list body;
    if negb (Z.of_nat (length fields) =? expectedCount) then None else Some fields.

Lemma constructorFields_constr `{C : Cbor, S : !CborSyntax C} tag fields n :
  0 <= tag -> Z.of_nat (length fields) = n -> constructorFields (constr tag fields) tag n = Some fields.
Proof.
  intros Ht Hn. unfold constructorFields.
  destruct (decode_constr tag fields Ht) as (body & -> & Hb). cbn [mbind option_bind].
  rewrite Z.eqb_refl. cbn [negb]. rewrite Hb. cbn [mbind option_bind].
  by rewrite Hn, Z.eqb_refl.
Qed.

(** ** Encoding *)
Section Encode.
Context `{C : Cbor, N : !CborNumbers C, S : !CborSyntax C, W : !CborWriter C}.

(** What the library writes of a [[]byte] and a [*big.Int], either of which may be
    nil. *)
Definition bytes_of (b : option (list byte)) : raw :=
  match b with Some l => bytestring l | None => null end.
Definition bigint (z : option Z) : raw :=
  match z with Some z => big_integer z | None => null end.

(** A [[][]byte], as the encoders of pools write it: with a definite length when it is
    empty. *)
Definition bytes_list (l : list (option (list byte))) : raw :=
  if (0 <? length l)%nat then indefinite_list (bytes_of <$> l) else definite_list [].

Lemma decode_bytes_of b : is_Some b -> decode_bytes (bytes_of b) = Some b.
Proof. intros [l ->]. apply decode_bytes_bytestring. Qed.
Lemma decode_bigint_of z : is_Some z -> decode_bigint (bigint z) = Some z.
Proof. intros [n ->]. apply decode_big_integer. Qed.

Lemma decode_bytes_list_of l : Forall is_Some l -> decode_bytes_list (bytes_list l) = Some l.
Proof.
  intros Hl. unfold decode_bytes_list, bytes_list. destruct (Nat.ltb_spec 0 (length l)) as [|Hn].
  - rewrite decode_indefinite_list. cbn [mbind option_bind].
    apply mapM_Some, Forall2_fmap_l, Forall_Forall2_diag. eapply Forall_impl; [exact Hl|].
    intros x. apply decode_bytes_of.
  - rewrite decode_definite_list. destruct l; [done|cbn in Hn; lia].
Qed.
End Encode.

Ltac encode_step :=
  first
    [ decode_step
    | rewrite decode_bytes_of by done
    | rewrite decode_bigint_of by done
    | rewrite decode_bytes_list_of by done ]; cbn [mbind option_bind].
