(* ===== verification/Djed.v ===== *)
(** * Djed: the on-chain oracle ([price/djed/oracle.go], [price/djed/tracker.go]). *)
From S2P Require Import Prelude.
From S2P Require Import Text.
From S2P Require Import Float64.
From S2P Require Import Common.
From S2P Require Import Cbor.

Inductive djed_error :=
| ErrInvalidDatum
| ErrInvalidRate
| ErrWrongAddress
| ErrMissingNFT
| ErrWrongPolicy
| ErrWrongQuote
| ErrNotYetValid
| ErrExpired
| InvalidBuiltinIdentity
| ErrNoCurrentObservation
| ErrConflictingObservation.

#[export] Instance djed_error_eq_dec : EqDecision djed_error.
Proof. solve_decision. Defined.

Definition MainnetOracleAddress : string :=
  "addr1wxyc99q448xlkv4q2y3truxq7j2msr6hkqqg0wmzz9n9r6q8j7kpa".
Definition MainnetOraclePolicy : string :=
  "815aca02042ba9188a2ca4f8ce7b276046e2376b4bce56391342299e".
Definition OracleNFTName : string := "446a65644f7261636c654e4654".
Definition QuoteCurrency : string := "USD".
Definition oracleSignatureLength : nat := 64.

Record OracleDatum := mkDatum {
  od_Signature : option (list byte);
  od_PriceNumerator : Z;
  od_PriceDenominator : Z;
  od_ValidFrom : Z;
  od_ValidFromInclusive : bool;
  od_ValidUntil : Z;
  od_ValidUntilInclusive : bool;
  od_ExpressedIn : option (list byte);
  od_OraclePolicy : option (list byte);
}.

Record OracleUTxO := mkOracleUTxO {
  ou_Address : string;
  ou_Assets : list AssetAmount;
  ou_TxHash : string;
  ou_TxIndex : Z;
  ou_TransactionIndex : Z;
  ou_Slot : Z;
  ou_BlockHash : string;
}.

Record Observation := mkDjedObservation {
  dj_Pair : string;
  dj_Source : string;
  dj_PriceNumerator : Z;
  dj_PriceDenominator : Z;
  dj_Price : float64;
  dj_ValidFrom : Z;
  dj_ValidFromInclusive : bool;
  dj_ValidUntil : Z;
  dj_ValidUntilInclusive : bool;
  dj_TxHash : string;
  dj_TxIndex : Z;
  dj_TransactionIndex : Z;
  dj_Slot : Z;
  dj_BlockHash : string;
}.

#[export] Instance Observation_eq_dec : EqDecision Observation.
Proof. solve_decision. Defined.

Definition validateInterval (validFrom : Z) (validFromInclusive : bool) (validUntil : Z)
    (validUntilInclusive : bool) (now : Z) : result djed_error unit :=
  if After validFrom validUntil
     || ((validFrom =? validUntil) && (negb validFromInclusive || negb validUntilInclusive))
  then Err ErrInvalidDatum
  else if Before now validFrom || ((now =? validFrom) && negb validFromInclusive)
  then Err ErrNotYetValid
  else if After now validUntil || ((now =? validUntil) && negb validUntilInclusive)
  then Err ErrExpired
  else Ok tt.

(** [Observation.ValidateAt] *)
Definition ValidateAt (o : Observation) (now : Z) : result djed_error unit :=
  validateInterval (dj_ValidFrom o) (dj_ValidFromInclusive o) (dj_ValidUntil o)
    (dj_ValidUntilInclusive o) now.

Section Parse.
Context `{Cbor}.

Definition plutusBool (d : raw) : option bool :=
  '(tag, body) ← decode_constructor d;
  if 1 <? tag then None
  else
    fields ← decode_list body;
    if negb (Nat.eqb (length fields) 0) then None else Some (tag =? 1).

Definition finiteBound (d : raw) : option (Z * bool) :=
  boundFields ← constructorFields d 0 2;
  match boundFields with
  | [value; closure] =>
      valueFields ← constructorFields value 1 1;
      match valueFields with
      | [v] =>
          millis ← decode_uint v;
          if MaxInt64 <? millis then None
          else
            inclusive ← plutusBool closure;
            Some (millis, inclusive)
      | _ => None
      end
  | _ => None
  end.

(** [ParseOracleDatum]; [None] is [ErrInvalidDatum], the cause of all its
    errors. The remaining cases of the matches cannot occur: [constructorFields]
    has checked the number of fields. *)
Definition parse_oracle_datum (d : raw) : option OracleDatum :=
  fields ← constructorFields d 0 3;
  match fields with
  | [f0; f1; f2] =>
      signature ← decode_bytes f0;
      oracleFields ← constructorFields f1 0 3;
      match oracleFields with
      | [o0; o1; o2] =>
          rateFields ← constructorFields o0 0 2;
          match rateFields with
          | [r0; r1] =>
              priceDenominator ← decode_uint r0;
              priceNumerator ← decode_uint r1;
              validityFields ← constructorFields o1 0 2;
              match validityFields with
              | [v0; v1] =>
                  '(validFromMillis, validFromInclusive) ← finiteBound v0;
                  '(validUntilMillis, validUntilInclusive) ← finiteBound v1;
                  expressedIn ← decode_bytes o2;
                  oraclePolicy ← decode_bytes f2;
                  Some (mkDatum signature priceNumerator priceDenominator
                          (UnixMilli validFromMillis) validFromInclusive
                          (UnixMilli validUntilMillis) validUntilInclusive
                          expressedIn oraclePolicy)
              | _ => None
              end
          | _ => None
          end
      | _ => None
      end
  | _ => None
  end.

Definition ParseOracleDatum (d : raw) : result djed_error OracleDatum :=
  match parse_oracle_datum d with Some datum => Ok datum | None => Err ErrInvalidDatum end.
End Parse.

(** [OracleDatum.ValidateMainnet] *)
Definition ValidateMainnet (d : OracleDatum) (utxo : OracleUTxO) (now : Z) : result djed_error unit :=
  if negb (bool_decide (ou_Address utxo = MainnetOracleAddress)) then Err ErrWrongAddress
  else
    match NewAssetClass MainnetOraclePolicy OracleNFTName with
    | Err _ => Err InvalidBuiltinIdentity
    | Ok oracleAsset =>
        if negb (existsb (fun a => IsAsset a oracleAsset && (aa_Amount a =? 1)) (ou_Assets utxo))
        then Err ErrMissingNFT
        else if negb (Nat.eqb (length (contents (od_Signature d))) oracleSignatureLength)
        then Err ErrInvalidDatum
        else if negb (BytesEqual (od_OraclePolicy d) (PolicyId oracleAsset)) then Err ErrWrongPolicy
        else if negb (bool_decide (string_of_bytes (od_ExpressedIn d) = QuoteCurrency))
        then Err ErrWrongQuote
        else if (od_PriceNumerator d =? 0) || (od_PriceDenominator d =? 0) then Err ErrInvalidRate
        else
          validateInterval (od_ValidFrom d) (od_ValidFromInclusive d) (od_ValidUntil d)
            (od_ValidUntilInclusive d) now
    end.

(** [OracleDatum.Rat] *)
Definition datum_Rat (d : OracleDatum) : result djed_error rat :=
  if (od_PriceNumerator d =? 0) || (od_PriceDenominator d =? 0) then Err ErrInvalidRate
  else Ok (SetFrac (od_PriceNumerator d) (od_PriceDenominator d)).

Definition finiteRateFloat64 (rate : rat) : result djed_error float64 :=
  let approximation := RatFloat64 rate in
  if IsInf approximation || IsNaN approximation then Err ErrInvalidRate else Ok approximation.

Definition ParseMainnetObservation `{Cbor} (d : raw) (utxo : OracleUTxO) (now : Z)
  : result djed_error Observation :=
  datum ← ParseOracleDatum d;
  _ ← ValidateMainnet datum utxo now;
  rate ← datum_Rat datum;
  price ← finiteRateFloat64 rate;
  Ok (mkDjedObservation "ADA/USD" "djed" (od_PriceNumerator datum) (od_PriceDenominator datum) price
        (od_ValidFrom datum) (od_ValidFromInclusive datum) (od_ValidUntil datum)
        (od_ValidUntilInclusive datum) (ou_TxHash utxo) (ou_TxIndex utxo)
        (ou_TransactionIndex utxo) (ou_Slot utxo) (ou_BlockHash utxo)).

(** ** The tracker *)

(** [OutputRef]: the transaction hash and output index. *)
Abbreviation OutputRef := (string * Z)%type (only parsing).

Record trackedObservation := mkTracked { observation : Observation; spentAt : option Z }.

(** [Tracker] *)
Abbreviation Tracker := (gmap OutputRef trackedObservation) (only parsing).

(** [NewTracker] *)
Definition NewTracker : Tracker := ∅.

(** [Tracker.Apply] after the observation has been parsed. *)
Definition record (ref : OutputRef) (o : Observation) (t : Tracker)
  : Tracker * result djed_error Observation :=
  match t !! ref with
  | Some existing =>
      if negb (bool_decide (observation existing = o)) then (t, Err ErrConflictingObservation)
      else (t, Ok o)
  | None => (<[ref := mkTracked o None]> t, Ok o)
  end.

Definition Apply `{Cbor} (d : raw) (utxo : OracleUTxO) (now : Z) (t : Tracker)
  : Tracker * result djed_error Observation :=
  match ParseMainnetObservation d utxo now with
  | Err e => (t, Err e)
  | Ok o => record (ou_TxHash utxo, ou_TxIndex utxo) o t
  end.

Definition ConsumeAt (ref : OutputRef) (slot : Z) (t : Tracker) : Tracker :=
  match t !! ref with
  | None => t
  | Some tracked => <[ref := mkTracked (observation tracked) (Some slot)]> t
  end.

Definition prunable (beforeSlot : Z) (tracked : trackedObservation) : bool :=
  match spentAt tracked with Some s => s <? beforeSlot | None => false end.

(** [Tracker.Prune] with the number of entries it removes. *)
Definition Prune (beforeSlot : Z) (t : Tracker) : Tracker * Z :=
  (filter (fun '(_, tracked) => prunable beforeSlot tracked = false) t,
   Z.of_nat (size (filter (fun '(_, tracked) => prunable beforeSlot tracked = true) t))).

Definition rollback_entry (slot : Z) (tracked : trackedObservation) : option trackedObservation :=
  if slot <? dj_Slot (observation tracked) then None
  else
    match spentAt tracked with
    | Some s => if slot <? s then Some (mkTracked (observation tracked) None) else Some tracked
    | None => Some tracked
    end.

Definition Rollback (slot : Z) (t : Tracker) : Tracker := omap (rollback_entry slot) t.

Definition observationAfter (candidate current : Observation) : bool :=
  if negb (dj_Slot candidate =? dj_Slot current) then dj_Slot current <? dj_Slot candidate
  else if negb (dj_TransactionIndex candidate =? dj_TransactionIndex current)
  then dj_TransactionIndex current <? dj_TransactionIndex candidate
  else if negb (dj_TxIndex candidate =? dj_TxIndex current)
  then dj_TxIndex current <? dj_TxIndex candidate
  else Prelude.ltb (dj_TxHash current) (dj_TxHash candidate).

(** The variables of the loop of [Current]. *)
Record scan := mkScan {
  sc_current : option Observation;
  sc_newestInvalid : option (Observation * djed_error);
  sc_sawUnspent : bool;
}.

Definition scan_entry (now : Z) (s : scan) (tracked : trackedObservation) : scan :=
  match spentAt tracked with
  | Some _ => s
  | None =>
      let candidate := observation tracked in
      match ValidateAt candidate now with
      | Err e =>
          mkScan (sc_current s)
            (match sc_newestInvalid s with
             | None => Some (candidate, e)
             | Some (newest, e') =>
                 if observationAfter candidate newest then Some (candidate, e) else Some (newest, e')
             end) true
      | Ok _ =>
          mkScan
            (match sc_current s with
             | None => Some candidate
             | Some current =>
                 if observationAfter candidate current then Some candidate else Some current
             end) (sc_newestInvalid s) true
      end
  end.

(** [Tracker.Current] *)
Definition Current `{RangeOrder} (now : Z) (t : Tracker) : result djed_error Observation :=
  let s := foldl (scan_entry now) (mkScan None None false) (range (map_to_list t).*2) in
  match sc_current s with
  | Some o => Ok o
  | None =>
      if negb (sc_sawUnspent s) then Err ErrNoCurrentObservation
      else match sc_newestInvalid s with Some (_, e) => Err e | None => Err ErrNoCurrentObservation end
  end.

(** ** The datum format *)

Section Encode.
Context `{C : Cbor, S : !CborSyntax C}.

Definition encode_bool (b : bool) : raw := constr (if b then 1 else 0) [].
Definition encode_bound (ms : Z) (inclusive : bool) : raw :=
  constr 0 [constr 1 [uint ms]; encode_bool inclusive].

(** An oracle datum as the Djed contract writes it. *)
Definition encode_datum (signature : list byte) (num den : Z) (from : Z) (from_incl : bool)
    (until : Z) (until_incl : bool) (expressedIn policy : list byte) : raw :=
  constr 0
    [bytestring signature;
     constr 0
       [constr 0 [uint den; uint num];
        constr 0 [encode_bound from from_incl; encode_bound until until_incl];
        bytestring expressedIn];
     bytestring policy].

Lemma plutusBool_encode b : plutusBool (encode_bool b) = Some b.
Proof.
  unfold plutusBool, encode_bool.
  destruct (decode_constr (if b then 1 else 0) [] ltac:(by destruct b)) as (body & -> & Hb).
  cbn [mbind option_bind]. rewrite Hb. by destruct b.
Qed.

Lemma finiteBound_encode ms incl :
  0 <= ms <= MaxInt64 -> finiteBound (encode_bound ms incl) = Some (ms, incl).
Proof.
  intros Hms. unfold finiteBound, encode_bound.
  rewrite constructorFields_constr by done. cbn [mbind option_bind].
  rewrite constructorFields_constr by done. cbn [mbind option_bind].
  rewrite decode_uint_uint by int_lia. cbn [mbind option_bind].
  rewrite (proj2 (Z.ltb_ge MaxInt64 ms)) by lia.
  by rewrite plutusBool_encode.
Qed.
End Encode.

(** The parser reads a datum back as it was written: every field of an
    oracle datum in the contract's format is recovered, the exchange rate with
    its denominator first and the bounds in milliseconds since the epoch. *)
Theorem ParseOracleDatum_encode `{C : Cbor, S : !CborSyntax C} signature num den from from_incl
    until until_incl expressedIn policy :
  is_u64 num -> is_u64 den -> 0 <= from <= MaxInt64 -> 0 <= until <= MaxInt64 ->
  ParseOracleDatum (encode_datum signature num den from from_incl until until_incl expressedIn policy) =
    Ok (mkDatum (Some signature) num den (UnixMilli from) from_incl (UnixMilli until) until_incl
          (Some expressedIn) (Some policy)).
Proof.
  intros Hn Hd Hf Hu. unfold ParseOracleDatum, parse_oracle_datum, encode_datum.
  repeat (first [ rewrite constructorFields_constr by done | rewrite decode_bytes_bytestring
                | rewrite decode_uint_uint by done | rewrite finiteBound_encode by done ];
          cbn [mbind option_bind]).
  done.
Qed.

(** [now] is inside the validity interval, its ends included as marked. *)
Definition contains (from : Z) (from_incl : bool) (until : Z) (until_incl : bool) (now : Z) : Prop :=
  (from < now \/ (from = now /\ from_incl = true)) /\
  (now < until \/ (now = until /\ until_incl = true)).

Lemma validateInterval_ok from fi until ui now :
  validateInterval from fi until ui now = Ok tt <-> contains from fi until ui now.
Proof.
  unfold validateInterval, contains, After, Before.
  destruct (Z.ltb_spec until from), (Z.eqb_spec from until), (Z.ltb_spec now from),
    (Z.eqb_spec now from), (Z.ltb_spec until now), (Z.eqb_spec now until), fi, ui;
    cbn; split; intros; try done; try lia; intuition (try lia; try congruence).
Qed.

(** The identity of the mainnet oracle token. *)
Definition oracle_asset : AssetClass :=
  Eval vm_compute in
    match NewAssetClass MainnetOraclePolicy OracleNFTName with Ok a => a | Err _ => Lovelace end.

(** What makes a datum at an output the mainnet oracle's: the oracle address
    holds exactly one oracle token, the datum carries a full-length signature,
    names the oracle policy, and quotes a positive rate in dollars. *)
Record authentic (d : OracleDatum) (utxo : OracleUTxO) : Prop := {
  au_address : ou_Address utxo = MainnetOracleAddress;
  au_nft : exists a, a ∈ ou_Assets utxo /\ aa_Class a ≡ oracle_asset /\ aa_Amount a = 1;
  au_signature : length (contents (od_Signature d)) = 64%nat;
  au_policy : contents (od_OraclePolicy d) = contents (PolicyId oracle_asset);
  au_quote : string_of_bytes (od_ExpressedIn d) = "USD";
  au_rate : od_PriceNumerator d <> 0 /\ od_PriceDenominator d <> 0;
}.

Lemma builtin_identity : NewAssetClass MainnetOraclePolicy OracleNFTName = Ok oracle_asset.
Proof. vm_compute. reflexivity. Qed.

Lemma has_nft_spec l :
  existsb (fun a => IsAsset a oracle_asset && (aa_Amount a =? 1)) l = true <->
  exists a, a ∈ l /\ aa_Class a ≡ oracle_asset /\ aa_Amount a = 1.
Proof.
  rewrite existsb_exists. unfold IsAsset.
  setoid_rewrite andb_true_iff. setoid_rewrite same_asset_spec. setoid_rewrite Z.eqb_eq.
  by setoid_rewrite <- list_elem_of_In.
Qed.

Lemma ValidateMainnet_ok d utxo now :
  ValidateMainnet d utxo now = Ok tt <->
  authentic d utxo /\
  contains (od_ValidFrom d) (od_ValidFromInclusive d) (od_ValidUntil d) (od_ValidUntilInclusive d) now.
Proof.
  unfold ValidateMainnet. rewrite builtin_identity, <- validateInterval_ok. unfold BytesEqual. split.
  - intros Hv. case_bool_decide as Ha; [|done]. cbn [negb] in Hv.
    destruct (existsb _ _) eqn:Hn; [|done]. apply has_nft_spec in Hn. cbn [negb] in Hv.
    destruct (Nat.eqb_spec (length (contents (od_Signature d))) oracleSignatureLength); [|done].
    cbn [negb] in Hv. case_bool_decide as Hp; [|done]. cbn [negb] in Hv.
    case_bool_decide as Hq; [|done]. cbn [negb] in Hv.
    destruct (_ || _) eqn:Hr; [done|]. bool_prop. done.
  - intros [[Ha Hn Hs Hp Hq [Hr1 Hr2]] Hv].
    rewrite (bool_decide_eq_true_2 _ Ha), (proj2 (has_nft_spec _) Hn), Hs. cbn [negb Nat.eqb oracleSignatureLength].
    rewrite (bool_decide_eq_true_2 _ Hp), (bool_decide_eq_true_2 _ Hq).
    rewrite (proj2 (Z.eqb_neq _ _) Hr1), (proj2 (Z.eqb_neq _ _) Hr2). exact Hv.
Qed.

(** An observation is accepted exactly when the datum parses, is the
    authentic mainnet oracle's, and is within its validity interval at the
    evaluation time (and its rate has a finite approximation); it then carries
    the datum's exact rate and the provenance of its output. *)
Theorem ParseMainnetObservation_accepts `{Cbor} d utxo now o :
  ParseMainnetObservation d utxo now = Ok o <->
  exists datum price, ParseOracleDatum d = Ok datum /\ authentic datum utxo /\
    contains (od_ValidFrom datum) (od_ValidFromInclusive datum)
      (od_ValidUntil datum) (od_ValidUntilInclusive datum) now /\
    finiteRateFloat64 (SetFrac (od_PriceNumerator datum) (od_PriceDenominator datum)) = Ok price /\
    o = mkDjedObservation "ADA/USD" "djed" (od_PriceNumerator datum) (od_PriceDenominator datum) price
          (od_ValidFrom datum) (od_ValidFromInclusive datum) (od_ValidUntil datum)
          (od_ValidUntilInclusive datum) (ou_TxHash utxo) (ou_TxIndex utxo)
          (ou_TransactionIndex utxo) (ou_Slot utxo) (ou_BlockHash utxo).
Proof.
  unfold ParseMainnetObservation, datum_Rat. split.
  - intros (datum & Hd & Hv)%bind_ok. exists datum.
    apply bind_ok in Hv as ([] & [Ha Hc]%ValidateMainnet_ok & Hv).
    destruct (au_rate _ _ Ha) as [H1 H2].
    rewrite (proj2 (Z.eqb_neq _ _) H1), (proj2 (Z.eqb_neq _ _) H2) in Hv. cbn [orb] in Hv.
    apply bind_ok in Hv as (rate & [= <-] & Hv). apply bind_ok in Hv as (price & Hp & [= <-]).
    by exists price.
  - intros (datum & price & Hd & Ha & Hc & Hp & ->). rewrite Hd. cbn [mbind result_bind].
    rewrite (proj2 (ValidateMainnet_ok datum utxo now) (conj Ha Hc)). cbn [mbind result_bind].
    destruct (au_rate _ _ Ha) as [H1 H2].
    rewrite (proj2 (Z.eqb_neq _ _) H1), (proj2 (Z.eqb_neq _ _) H2). cbn [orb mbind result_bind].
    rewrite Hp. done.
Qed.

(** ** The tracker follows the chain

    The chain as the tracker sees it: oracle outputs produced and spent, at
    slots. *)
Inductive event :=
| Produced (o : Observation)
| Spent (ref : OutputRef) (slot : Z).

Definition ref_of (o : Observation) : OutputRef := (dj_TxHash o, dj_TxIndex o).
Definition event_slot (e : event) : Z :=
  match e with Produced o => dj_Slot o | Spent _ slot => slot end.
Definition event_ref (e : event) : OutputRef :=
  match e with Produced o => ref_of o | Spent ref _ => ref end.

Definition apply_event (t : Tracker) (e : event) : Tracker :=
  match e with
  | Produced o => (record (ref_of o) o t).1
  | Spent ref slot => ConsumeAt ref slot t
  end.
Definition follow (l : list event) : Tracker := foldl apply_event ∅ l.

(** What a chain guarantees: slots do not decrease, and an output is spent at
    one slot only. *)
Record chain (l : list event) : Prop := {
  ch_order : StronglySorted (fun a b => event_slot a <= event_slot b) l;
  ch_spent : forall ref s s', Spent ref s ∈ l -> Spent ref s' ∈ l -> s = s';
}.

(** The entry of one output, from the events alone. *)
Definition apply_entry (ref : OutputRef) (x : option trackedObservation) (e : event)
  : option trackedObservation :=
  if decide (event_ref e = ref) then
    match e, x with
    | Produced o, None => Some (mkTracked o None)
    | Spent _ s, Some tracked => Some (mkTracked (observation tracked) (Some s))
    | _, _ => x
    end
  else x.

Lemma lookup_apply_event ref t e : apply_event t e !! ref = apply_entry ref (t !! ref) e.
Proof.
  unfold apply_event, apply_entry. destruct e as [o|r s]; cbn [event_ref].
  - unfold record. case_decide as Hr.
    + rewrite Hr. destruct (t !! ref) as [x|] eqn:E.
      * by case_bool_decide; cbn [negb fst].
      * cbn [fst]. by rewrite lookup_insert_eq.
    + destruct (t !! ref_of o).
      * by case_bool_decide.
      * cbn [fst]. by rewrite lookup_insert_ne.
  - unfold ConsumeAt. case_decide as Hr.
    + rewrite Hr. destruct (t !! ref) as [x|] eqn:E; [by rewrite lookup_insert_eq | done].
    + destruct (t !! r); [by rewrite lookup_insert_ne | done].
Qed.

Lemma lookup_follow ref l : follow l !! ref = foldl (apply_entry ref) None l.
Proof.
  unfold follow. assert (forall t, foldl apply_event t l !! ref = foldl (apply_entry ref) (t !! ref) l) as H.
  { induction l as [|e l IH]; intros t; [done|]. cbn [foldl]. by rewrite IH, lookup_apply_event. }
  by rewrite H, lookup_empty.
Qed.

Lemma chain_snoc l e : chain (l ++ [e]) -> chain l /\ Forall (fun a => event_slot a <= event_slot e) l.
Proof.
  intros [Ho Hs]. apply StronglySorted_app in Ho as (Hle & Ho & _). split.
  - split; [done|]. intros ref s s' H1 H2. apply (Hs ref); apply elem_of_app; by left.
  - apply Forall_forall. intros x Hx. apply Hle; [done|]. left.
Qed.

(** A spend recorded in an entry comes from the chain. *)
Lemma entry_spent ref l o s :
  foldl (apply_entry ref) None l = Some (mkTracked o (Some s)) -> Spent ref s ∈ l.
Proof.
  revert o s. induction l as [|e l IH] using rev_ind; intros o s; [done|].
  rewrite foldl_app. cbn [foldl]. unfold apply_entry at 1. rewrite elem_of_app, list_elem_of_singleton.
  case_decide as Hr; [|intros H; left; by eapply IH].
  destruct e as [p|r z], (foldl (apply_entry ref) None l) as [[x y]|] eqn:E; try done.
  - intros [= -> ->]. left. by eapply IH.
  - cbn in *. intros [= -> ->]. right. by rewrite Hr.
Qed.

Lemma entry_slot ref l x :
  foldl (apply_entry ref) None l = Some x -> Produced (observation x) ∈ l.
Proof.
  revert x. induction l as [|e l IH] using rev_ind; intros x; [done|].
  rewrite foldl_app. cbn [foldl]. unfold apply_entry at 1. rewrite elem_of_app, list_elem_of_singleton.
  case_decide as Hr; [|intros H; left; by apply IH].
  destruct e as [p|r z], (foldl (apply_entry ref) None l) as [y|] eqn:E; try done.
  - intros [= ->]. left. by apply IH.
  - intros [= <-]. by right.
  - intros [= <-]. cbn. left. by apply IH.
Qed.

(** C34: rolling the tracker back to a slot gives exactly the tracker of the
    chain cut at that slot: observations produced later are gone, and outputs
    spent later are unspent again. *)
Theorem Rollback_replays_chain l slot :
  chain l -> Rollback slot (follow l) = follow (filter (fun e => event_slot e <= slot) l).
Proof.
  intros Hch. apply map_eq. intros ref. unfold Rollback. rewrite lookup_omap, !lookup_follow.
  induction l as [|e l IH] using rev_ind; [done|].
  destruct (chain_snoc _ _ Hch) as [Hl Hle]. specialize (IH Hl).
  rewrite filter_app, !foldl_app. rewrite filter_cons, filter_nil.
  case_decide as Hslot; cbn [foldl]; rewrite <- IH.
  - unfold apply_entry at 1 3. case_decide as Hr; [|done].
    assert (forall x, foldl (apply_entry ref) None l = Some x ->
              rollback_entry slot x = Some x) as Hkeep.
    { intros x Hx. pose proof (entry_slot _ _ _ Hx) as Hp. rewrite Forall_forall in Hle.
      pose proof (Hle _ Hp) as Hps. cbn in Hps. unfold rollback_entry.
      rewrite (proj2 (Z.ltb_ge slot _)) by lia. destruct x as [o [s|]]; [|done]. cbn [spentAt].
      apply entry_spent in Hx. specialize (Hle _ Hx). cbn in Hle.
      by rewrite (proj2 (Z.ltb_ge slot s)) by lia. }
    destruct e as [o|r s]; destruct (foldl (apply_entry ref) None l) as [x|] eqn:Ex;
      cbn [mbind option_bind]; rewrite ?(Hkeep _ eq_refl); try done.
    + cbn in Hslot. unfold rollback_entry. cbn. by rewrite (proj2 (Z.ltb_ge slot _)) by lia.
    + pose proof (Hkeep x eq_refl) as Hk. unfold rollback_entry in *. cbn [observation spentAt].
      destruct (slot <? dj_Slot (observation x)); [done|]. cbn in Hslot.
      by rewrite (proj2 (Z.ltb_ge slot s)) by lia.
  - unfold apply_entry at 1. case_decide as Hr; [|done].
    destruct e as [o|r s]; destruct (foldl (apply_entry ref) None l) as [x|] eqn:Ex;
      cbn [mbind option_bind]; try done.
    + unfold rollback_entry. cbn in Hslot |- *. by rewrite (proj2 (Z.ltb_lt slot _)) by lia.
    + cbn in Hslot, Hr. subst r. unfold rollback_entry. cbn [observation spentAt].
      destruct (slot <? dj_Slot (observation x)); [done|].
      rewrite (proj2 (Z.ltb_lt slot s)) by lia.
      destruct x as [o [s'|]]; [|done]. cbn [spentAt observation].
      assert (s' = s) as ->; [|by rewrite (proj2 (Z.ltb_lt slot s)) by lia].
      apply entry_spent in Ex. apply (ch_spent _ Hch ref); apply elem_of_app; [by left|right; left].
Qed.

(** ** The current observation *)

Definition age_key (o : Observation) : Z * (Z * (Z * string)) :=
  (dj_Slot o, (dj_TransactionIndex o, (dj_TxIndex o, dj_TxHash o))).

Lemma observationAfter_key c o : observationAfter c o = Prelude.ltb (age_key o) (age_key c).
Proof.
  unfold observationAfter, age_key. rewrite !ltb_pair. cbn [fst snd].
  rewrite (Z.eqb_sym (dj_Slot c)), (Z.eqb_sym (dj_TransactionIndex c)), (Z.eqb_sym (dj_TxIndex c)).
  destruct (Z.eqb_spec (dj_Slot o) (dj_Slot c)) as [->|]; cbn [negb andb]; [|by rewrite orb_false_r].
  rewrite Z.ltb_irrefl. cbn [orb].
  destruct (Z.eqb_spec (dj_TransactionIndex o) (dj_TransactionIndex c)) as [->|]; cbn [negb andb];
    [|by rewrite orb_false_r].
  rewrite Z.ltb_irrefl. cbn [orb].
  destruct (Z.eqb_spec (dj_TxIndex o) (dj_TxIndex c)) as [->|]; cbn [negb andb];
    [|by rewrite orb_false_r].
  by rewrite Z.ltb_irrefl.
Qed.

(** The entry of an output is filed under its own reference. *)
Definition wf_tracker (t : Tracker) : Prop := forall ref x, t !! ref = Some x -> ref_of (observation x) = ref.

Lemma wf_follow l : wf_tracker (follow l).
Proof.
  intros ref x. rewrite lookup_follow. revert x.
  induction l as [|e l IH] using rev_ind; intros x; [done|].
  rewrite foldl_app. cbn [foldl]. unfold apply_entry at 1.
  case_decide as Hr; [|apply IH]. destruct e as [p|r z], (foldl _ None l) as [y|]; try done.
  - intros [= <-]. by apply IH.
  - by intros [= <-].
  - intros [= <-]. by apply (IH y).
Qed.

Definition unspent (t : Tracker) (o : Observation) : Prop :=
  exists ref, t !! ref = Some (mkTracked o None).

Definition valid_at (now : Z) (o : Observation) : Prop := ValidateAt o now = Ok tt.

(** [o] is the newest among the observations that satisfy [P]. *)
Definition newest (P : Observation -> Prop) (o : Observation) : Prop :=
  P o /\ forall o', P o' -> o' = o \/ observationAfter o o' = true.

Lemma newest_unique P o o' : newest P o -> newest P o' -> o = o'.
Proof.
  intros [H1 H2] [H3 H4]. destruct (H2 _ H3) as [|Ha]; [done|].
  destruct (H4 _ H1) as [|Hb]; [done|]. rewrite observationAfter_key in Ha, Hb.
  apply ltb_asym in Ha. congruence.
Qed.

Definition unspent_in (l : list trackedObservation) (o : Observation) : Prop := mkTracked o None ∈ l.

(** What the scan has found after a part of the entries. *)
Definition scanned (now : Z) (l : list trackedObservation) (s : scan) : Prop :=
  match sc_current s with
  | Some o => newest (fun o => unspent_in l o /\ valid_at now o) o
  | None => forall o, unspent_in l o -> ~ valid_at now o
  end /\
  match sc_newestInvalid s with
  | Some (o, e) => newest (fun o => unspent_in l o /\ ~ valid_at now o) o /\ ValidateAt o now = Err e
  | None => forall o, unspent_in l o -> valid_at now o
  end /\
  (sc_sawUnspent s = true <-> exists o, unspent_in l o).

Lemma newest_none (P Q : Observation -> Prop) c :
  (forall o, Q o <-> P o \/ o = c) -> (forall o, ~ P o) -> newest Q c.
Proof. intros HQ HP. split; [apply HQ; by right|]. intros o' [Ho| ->]%HQ; [by destruct (HP o')|by left]. Qed.

Lemma newest_some (P Q : Observation -> Prop) c m :
  (forall o, Q o <-> P o \/ o = c) -> newest P m -> (age_key c = age_key m -> c = m) ->
  newest Q (if observationAfter c m then c else m).
Proof.
  intros HQ [Hm Hmax] Hinj. destruct (observationAfter c m) eqn:E; rewrite observationAfter_key in E.
  - split; [apply HQ; by right|]. intros o' [Ho| ->]%HQ; [|by left]. right.
    rewrite observationAfter_key. destruct (Hmax o' Ho) as [->|H]; [done|].
    rewrite observationAfter_key in H. by eapply ltb_trans.
  - split; [apply HQ; by left|]. intros o' [Ho| ->]%HQ; [by apply Hmax|].
    rewrite observationAfter_key. destruct (Prelude.ltb (age_key c) (age_key m)) eqn:E'; [by right|].
    left. apply Hinj. by apply ltb_connected.
Qed.

Lemma scan_spent now l s o z :
  scanned now l s -> scanned now (l ++ [mkTracked o (Some z)]) s.
Proof.
  assert (forall x, unspent_in (l ++ [mkTracked o (Some z)]) x <-> unspent_in l x) as H.
  { intros x. unfold unspent_in. rewrite elem_of_app, list_elem_of_singleton. naive_solver. }
  unfold scanned, newest. intros (H1 & H2 & H3). split_and!.
  - destruct (sc_current s); setoid_rewrite H; done.
  - destruct (sc_newestInvalid s) as [[]|]; setoid_rewrite H; done.
  - by setoid_rewrite H.
Qed.

Lemma scan_step now l s x :
  (forall o o', unspent_in (l ++ [x]) o -> unspent_in (l ++ [x]) o' -> age_key o = age_key o' -> o = o') ->
  scanned now l s -> scanned now (l ++ [x]) (scan_entry now s x).
Proof.
  intros Hinj Hs. unfold scan_entry. destruct x as [c [z|]]; cbn [spentAt]; [by apply scan_spent|].
  cbn [observation]. assert (forall o, unspent_in (l ++ [mkTracked c None]) o <-> unspent_in l o \/ o = c) as Hin.
  { intros o. unfold unspent_in. rewrite elem_of_app, list_elem_of_singleton. naive_solver. }
  assert (unspent_in (l ++ [mkTracked c None]) c) as Hc by (apply Hin; by right).
  destruct Hs as (H1 & H2 & H3). unfold valid_at in *.
  destruct (ValidateAt c now) as [[]|e] eqn:Ev; unfold scanned; cbn [sc_current sc_newestInvalid sc_sawUnspent].
  - split_and!; [| |by split; [exists c|]].
    + destruct (sc_current s) as [m|].
      * assert (newest (fun o => unspent_in (l ++ [mkTracked c None]) o /\ valid_at now o)
          (if observationAfter c m then c else m)) as Hn.
        { eapply newest_some; [|exact H1|].
          - intros o. cbn. rewrite Hin. unfold valid_at. naive_solver.
          - intros Hk. apply Hinj; [done| |done]. apply Hin. left. apply H1. }
        by destruct (observationAfter c m).
      * eapply (newest_none (fun o => unspent_in l o /\ valid_at now o)).
        -- intros o. cbn. rewrite Hin. unfold valid_at. naive_solver.
        -- intros o [Ho Hv]. by apply (H1 o).
    + destruct (sc_newestInvalid s) as [[m e]|].
      * destruct H2 as [[Hm Hmax] He]. split; [|done]. unfold newest, valid_at. setoid_rewrite Hin. naive_solver.
      * intros o [Ho| ->]%Hin; [by apply H2|done].
  - assert (~ ValidateAt c now = Ok tt) as Hnv by congruence. split_and!; [| |by split; [exists c|]].
    + destruct (sc_current s) as [m|].
      * destruct H1 as [Hm Hmax]. unfold newest, valid_at. setoid_rewrite Hin. naive_solver.
      * intros o [Ho| ->]%Hin; [by apply H1|done].
    + destruct (sc_newestInvalid s) as [[m e']|].
      * destruct H2 as [Hn He].
        assert (newest (fun o => unspent_in (l ++ [mkTracked c None]) o /\ ~ valid_at now o)
          (if observationAfter c m then c else m)) as Hn'.
        { eapply newest_some; [|exact Hn|].
          - intros o. cbn. rewrite Hin. unfold valid_at. naive_solver.
          - intros Hk. apply Hinj; [done| |done]. apply Hin. left. apply Hn. }
        by destruct (observationAfter c m).
      * split; [|done]. eapply (newest_none (fun o => unspent_in l o /\ ~ valid_at now o)).
        -- intros o. cbn. rewrite Hin. unfold valid_at. naive_solver.
        -- intros o [Ho Hv]. by apply Hv, H2.
Qed.

Lemma scan_all now l :
  (forall o o', unspent_in l o -> unspent_in l o' -> age_key o = age_key o' -> o = o') ->
  scanned now l (foldl (scan_entry now) (mkScan None None false) l).
Proof.
  induction l as [|x l IH] using rev_ind; intros Hinj.
  - split_and!; cbn.
    + intros o Ho. by apply not_elem_of_nil in Ho.
    + intros o Ho. by apply not_elem_of_nil in Ho.
    + split; [done|]. intros [o Ho]. by apply not_elem_of_nil in Ho.
  - rewrite foldl_app. cbn [foldl]. apply scan_step; [done|]. apply IH.
    intros o o' H1 H2. apply Hinj; apply elem_of_app; by left.
Qed.

Lemma unspent_entries `{RangeOrder} t o : unspent_in (range (map_to_list t).*2) o <-> unspent t o.
Proof.
  unfold unspent_in, unspent. rewrite range_perm, list_elem_of_fmap. split.
  - intros ([ref x] & -> & Hx). apply elem_of_map_to_list in Hx. by exists ref.
  - intros [ref Hx]. exists (ref, mkTracked o None). by rewrite elem_of_map_to_list.
Qed.

Lemma unspent_inj t o o' :
  wf_tracker t -> unspent t o -> unspent t o' -> age_key o = age_key o' -> o = o'.
Proof.
  intros Hwf [r1 H1] [r2 H2] Hk. unfold age_key in Hk.
  pose proof (Hwf _ _ H1) as R1. pose proof (Hwf _ _ H2) as R2. unfold ref_of in *. cbn in *.
  assert (r1 = r2) by congruence. congruence.
Qed.

(** What [Current] promises. *)
Definition current_spec (now : Z) (t : Tracker) (r : result djed_error Observation) : Prop :=
  match r with
  | Ok o => newest (fun o => unspent t o /\ valid_at now o) o
  | Err e =>
      (forall o, unspent t o -> ~ valid_at now o) /\
      ((e = ErrNoCurrentObservation /\ forall o, ~ unspent t o) \/
       exists o, newest (unspent t) o /\ ValidateAt o now = Err e)
  end.

Lemma newest_ext P Q o : (forall x, P x <-> Q x) -> newest P o -> newest Q o.
Proof. intros HPQ [H1 H2]. split; [by apply HPQ|]. intros o' Ho. by apply H2, HPQ. Qed.

Lemma Current_spec `{RangeOrder} now t : wf_tracker t -> current_spec now t (Current now t).
Proof.
  intros Hwf. unfold Current. set (l := range (map_to_list t).*2).
  destruct (scan_all now l) as (H1 & H2 & H3).
  { intros o o' Ho%unspent_entries Ho'%unspent_entries. by apply (unspent_inj t). }
  destruct (foldl _ _ l) as [cur inv saw]. cbn [sc_current sc_newestInvalid sc_sawUnspent] in *.
  destruct cur as [c|]; cbn [current_spec].
  - eapply newest_ext; [|exact H1]. intros x. cbn. by unfold l; rewrite unspent_entries.
  - assert (forall o, unspent t o -> ~ valid_at now o) as Hnone
      by (intros o Ho; apply H1, unspent_entries, Ho).
    destruct saw; cbn [negb].
    + destruct H3 as [[o Ho] _]; [done|]. destruct inv as [[m e]|].
      * split; [done|]. right. exists m. destruct H2 as [Hn He]. split; [|done].
        eapply newest_ext; [|exact Hn]. intros x. cbn. unfold l. rewrite unspent_entries.
        split; [tauto|]. intros Hx. split; [done|by apply Hnone].
      * destruct (H1 o Ho). by apply H2.
    + split; [done|]. left. split; [done|]. intros o Ho. assert (false = true); [|done].
      apply H3. exists o. by apply unspent_entries.
Qed.

Lemma current_spec_unique now t r r' : current_spec now t r -> current_spec now t r' -> r = r'.
Proof.
  unfold current_spec. destruct r as [o|e], r' as [o'|e'].
  - intros H1 H2. f_equal. by eapply newest_unique.
  - intros [[Hu Hv] _] [Hn _]. by destruct (Hn o Hu).
  - intros [Hn _] [[Hu Hv] _]. by destruct (Hn o' Hu).
  - intros [_ H1] [_ H2]. f_equal. destruct H1 as [[-> H1]|(o & Ho & H1)], H2 as [[-> H2]|(o' & Ho' & H2)].
    + done.
    + by destruct (H1 o' (proj1 Ho')).
    + by destruct (H2 o (proj1 Ho)).
    + assert (o = o') as -> by (by eapply newest_unique). congruence.
Qed.

(** Whatever the order in which the map is visited, the tracker reports the
    newest unspent oracle observation that is valid now, by chain position;
    without one, it reports that there is no unspent observation or why the
    newest unspent one is not valid. *)
Theorem Current_is_newest (R1 R2 : RangeOrder) l now :
  @Current R1 now (follow l) = @Current R2 now (follow l) /\
  current_spec now (follow l) (@Current R1 now (follow l)).
Proof.
  split; [eapply current_spec_unique|]; apply (@Current_spec _ now _ (wf_follow l)).
Qed.

Lemma unspent_same t t' : (forall o, unspent t o <-> unspent t' o) ->
  forall now r, current_spec now t r -> current_spec now t' r.
Proof.
  intros Hu now r. unfold current_spec. destruct r as [o|e].
  - apply newest_ext. intros x. cbn. by rewrite Hu.
  - intros [H1 H2]. split; [intros o; rewrite <- Hu; apply H1|].
    destruct H2 as [[-> H2]|(o & Ho & He)]; [left; split; [done|]; intros o; by rewrite <- Hu|].
    right. exists o. split; [|done]. eapply newest_ext; [|exact Ho]. done.
Qed.

(** Pruning is invisible at or above its horizon: it removes only spent
    entries, and a later rollback to a slot not below [beforeSlot - 1] then
    reports the same current observation as if nothing had been pruned. *)
Theorem Prune_invisible (R : RangeOrder) l beforeSlot slot now :
  beforeSlot <= slot + 1 ->
  Current now (Prune beforeSlot (follow l)).1 = Current now (follow l) /\
  Current now (Rollback slot (Prune beforeSlot (follow l)).1) = Current now (Rollback slot (follow l)).
Proof.
  intros Hb. set (t := follow l). pose proof (wf_follow l) as Hwf. fold t in Hwf.
  assert (forall ref x, (Prune beforeSlot t).1 !! ref = Some x <->
            t !! ref = Some x /\ prunable beforeSlot x = false) as Hp.
  { intros ref x. unfold Prune. cbn [fst]. by rewrite map_lookup_filter_Some. }
  assert (wf_tracker (Prune beforeSlot t).1) as Hwfp.
  { intros ref x [Hx _]%Hp. by apply Hwf. }
  assert (forall t', wf_tracker t' -> wf_tracker (Rollback slot t')) as Hwfr.
  { intros t' Ht ref x. unfold Rollback. rewrite lookup_omap. intros (y & Hy & Hr)%bind_Some.
    specialize (Ht _ _ Hy). unfold rollback_entry in Hr. by go_cases. }
  split; eapply current_spec_unique; try apply Current_spec; auto.
  - eapply unspent_same; [|by apply Current_spec]. intros o. unfold unspent.
    setoid_rewrite Hp. naive_solver.
  - eapply unspent_same; [|apply Current_spec; by apply Hwfr]. intros o. unfold unspent, Rollback.
    setoid_rewrite lookup_omap. split; intros (ref & Hx); exists ref;
      apply bind_Some in Hx as (y & Hy & Hr); apply bind_Some; exists y.
    + split; [|done]. apply Hp. split; [done|]. unfold prunable, rollback_entry in *.
      destruct y as [yo [s|]]; [|done]. cbn [observation spentAt] in *.
      destruct (slot <? dj_Slot yo); [done|]. destruct (Z.ltb_spec slot s); [|done]. lia.
    + apply Hp in Hy as [Hy _]. done.
Qed.

(** [Apply] is the production event of the observation it accepts. *)
Lemma Apply_event `{Cbor} d utxo now t :
  match Apply d utxo now t with
  | (t', Ok o) => ParseMainnetObservation d utxo now = Ok o /\ t' = apply_event t (Produced o)
  | (t', Err _) => t' = t
  end.
Proof.
  unfold Apply. destruct (ParseMainnetObservation d utxo now) as [o|e] eqn:E; [|done].
  assert ((ou_TxHash utxo, ou_TxIndex utxo) = ref_of o) as ->.
  { apply ParseMainnetObservation_accepts in E as (datum & price & _ & _ & _ & _ & ->). done. }
  cbn [apply_event]. unfold record. destruct (t !! ref_of o) as [x|] eqn:Ex; [case_bool_decide as Ho|];
    cbn [negb fst]; rewrite ?Ex, ?(bool_decide_eq_true_2 _ Ho); done.
Qed.

(** ** Witnesses *)

Definition sample_datum : data :=
  @encode_datum PlutusData PlutusSyntax (replicate 64 x00) 45 100 1700000000000 true 1700003600000 false
    [x55; x53; x44] (contents (PolicyId oracle_asset)).
Definition sample_utxo : OracleUTxO :=
  mkOracleUTxO MainnetOracleAddress [mkAssetAmount Lovelace 2000000; mkAssetAmount oracle_asset 1]
    "aa" 0 3 100 "block".
Definition sample_now : Z := UnixMilli 1700000000000.
Definition sample_observation : Observation :=
  Eval vm_compute in
    match ParseMainnetObservation sample_datum sample_utxo sample_now with
    | Ok o => o
    | Err _ => mkDjedObservation "" "" 0 0 fzero 0 false 0 false "" 0 0 0 ""
    end.
Definition later_observation : Observation :=
  mkDjedObservation "ADA/USD" "djed" 46 100 (dj_Price sample_observation)
    (dj_ValidFrom sample_observation) true (dj_ValidUntil sample_observation) false "bb" 0 1 200 "block2".
Definition sample_chain : list event :=
  [Produced sample_observation; Spent ("aa"%string, 0) 200; Produced later_observation].

Lemma ParseOracleDatum_encode_witness :
  ParseOracleDatum sample_datum =
    Ok (mkDatum (Some (replicate 64 x00)) 45 100 (UnixMilli 1700000000000) true
          (UnixMilli 1700003600000) false (Some [x55; x53; x44]) (Some (contents (PolicyId oracle_asset)))).
Proof.
  apply (@ParseOracleDatum_encode PlutusData PlutusSyntax); int_lia.
Defined.

Lemma sample_chain_ok : chain sample_chain.
Proof.
  split.
  - repeat constructor; vm_compute; discriminate.
  - intros ref s s' H1 H2. unfold sample_chain in *.
    repeat (apply elem_of_cons in H1 as [H1|H1]; [simplify_eq|]);
      try by apply not_elem_of_nil in H1.
    repeat (apply elem_of_cons in H2 as [H2|H2]; [simplify_eq|]);
      try by apply not_elem_of_nil in H2. done.
Defined.

Lemma Rollback_replays_chain_witness :
  Rollback 150 (follow sample_chain) = follow [Produced sample_observation] /\
  follow [Produced sample_observation] <> ∅.
Proof.
  split; [|by vm_compute]. rewrite (Rollback_replays_chain sample_chain 150 sample_chain_ok).
  vm_compute. reflexivity.
Defined.

Lemma Prune_invisible_witness :
  (Prune 201 (follow sample_chain)).2 = 1 /\
  @Current in_key_order sample_now (Rollback 250 (Prune 201 (follow sample_chain)).1) =
    Ok later_observation.
Proof.
  split; [by vm_compute|].
  rewrite (proj2 (Prune_invisible in_key_order sample_chain 201 250 sample_now ltac:(lia))).
  vm_compute. reflexivity.
Defined.
