(* ===== verification/Agreement.v ===== *)
(** * Agreement: the cross-check of the DEX estimate against Djed
    ([price/agreement.go]). *)
From S2P Require Import Prelude.
From S2P Require Import Text.
From S2P Require Import Float64.
From S2P Require Import Common.
From S2P Require AdaUsd.
From S2P Require Djed.

Inductive agreement_error :=
| ErrInvalidCrossSourceConfig
| ErrUnqualifiedDEX
| ErrInvalidDjedObservation
| ErrDjedNotYetValid
| ErrDjedExpired
| ErrCrossSourceDivergence.

Inductive cross_validation := CrossQualified | CrossUnavailable | CrossDivergent.

Record CrossSourceConfig := mkCrossConfig {
  MaxDivergenceNumerator : Z;
  MaxDivergenceDenominator : Z;
}.

Definition DefaultCrossSourceConfig : CrossSourceConfig := mkCrossConfig 5 100.

Record CrossSourceResult := mkCross {
  cr_Pair : string;
  cr_Source : string;
  cr_Method : string;
  cr_Validation : cross_validation;
  cr_PriceNum : string;
  cr_PriceDen : string;
  cr_Price : float64;
  cr_DivergenceNum : string;
  cr_DivergenceDen : string;
  cr_Divergence : float64;
  cr_DEX : AdaUsd.Result;
  cr_Djed : Djed.Observation;
  cr_price : option rat;
}.

(** [CrossSourceResult.Rat] *)
Definition Rat (r : CrossSourceResult) : rat := default 0%Q (cr_price r).

Definition crossSourceLimit (c : CrossSourceConfig) : result agreement_error rat :=
  if MaxDivergenceDenominator c =? 0 then Err ErrInvalidCrossSourceConfig
  else Ok (SetFrac (MaxDivergenceNumerator c) (MaxDivergenceDenominator c)).

Definition is_qualified (v : AdaUsd.validation) : bool :=
  match v with AdaUsd.ValidationQualified => true | _ => false end.

Definition qualifiedDEXPrice (r : AdaUsd.Result) : result agreement_error rat :=
  let price := AdaUsd.Rat r in
  if negb (bool_decide (AdaUsd.re_Pair r = "ADA/USD"))
     || negb (bool_decide (AdaUsd.re_Source r = "local-dex-stablecoins"))
     || negb (is_qualified (AdaUsd.re_Validation r))
     || negb (RatPos price)
  then Err ErrUnqualifiedDEX
  else Ok price.

Definition validDjedPrice (o : Djed.Observation) (now : Z) : result agreement_error rat :=
  let from := Djed.dj_ValidFrom o in
  let until := Djed.dj_ValidUntil o in
  if negb (bool_decide (Djed.dj_Pair o = "ADA/USD"))
     || negb (bool_decide (Djed.dj_Source o = "djed"))
     || (Djed.dj_PriceNumerator o =? 0)
     || (Djed.dj_PriceDenominator o =? 0)
     || After from until
     || ((from =? until)
         && (negb (Djed.dj_ValidFromInclusive o) || negb (Djed.dj_ValidUntilInclusive o)))
  then Err ErrInvalidDjedObservation
  else if Before now from || ((now =? from) && negb (Djed.dj_ValidFromInclusive o))
  then Err ErrDjedNotYetValid
  else if After now until || ((now =? until) && negb (Djed.dj_ValidUntilInclusive o))
  then Err ErrDjedExpired
  else Ok (SetFrac (Djed.dj_PriceNumerator o) (Djed.dj_PriceDenominator o)).

(** The difference of the two prices over the lower one. *)
Definition divergence_of (dexPrice djedPrice : rat) : rat :=
  let '(low, high) :=
    if RatLt djedPrice dexPrice then (djedPrice, dexPrice) else (dexPrice, djedPrice) in
  RatQuo (RatSub high low) low.

Definition CrossValidateADAUSD (dexResult : AdaUsd.Result) (djedObservation : Djed.Observation)
    (c : CrossSourceConfig) (now : Z) : CrossSourceResult * option agreement_error :=
  let base v num den f dnum dden df p :=
    mkCross "ADA/USD" "local-dex-djed" "exact-two-source-midpoint" v num den f dnum dden df
      dexResult djedObservation p in
  let r0 := base CrossUnavailable "" "" fzero "" "" fzero None in
  match crossSourceLimit c with
  | Err e => (r0, Some e)
  | Ok maxDivergence =>
      match qualifiedDEXPrice dexResult with
      | Err e => (r0, Some e)
      | Ok dexPrice =>
          match validDjedPrice djedObservation now with
          | Err e => (r0, Some e)
          | Ok djedPrice =>
              let divergence := divergence_of dexPrice djedPrice in
              let dnum := IntString (Num divergence) in
              let dden := IntString (Denom divergence) in
              let df := RatFloat64 divergence in
              if RatLt maxDivergence divergence
              then (base CrossDivergent "" "" fzero dnum dden df None, Some ErrCrossSourceDivergence)
              else
                let midpoint := RatQuo (RatAdd dexPrice djedPrice) (SetInt 2) in
                (base CrossQualified (IntString (Num midpoint)) (IntString (Denom midpoint))
                   (RatFloat64 midpoint) dnum dden df (Some midpoint), None)
          end
      end
  end.

(** ** Agreement *)

Lemma qualifiedDEXPrice_ok r p :
  qualifiedDEXPrice r = Ok p <->
  AdaUsd.re_Pair r = "ADA/USD" /\ AdaUsd.re_Source r = "local-dex-stablecoins" /\
  AdaUsd.re_Validation r = AdaUsd.ValidationQualified /\ p = AdaUsd.Rat r /\ (0 < p)%Q.
Proof.
  unfold qualifiedDEXPrice, is_qualified. rewrite <- RatPos_spec. split.
  - intros H. destruct (_ || _) eqn:E; [done|]. injection H as <-. bool_prop.
    destruct (AdaUsd.re_Validation r); done.
  - intros (-> & -> & -> & -> & Hp). rewrite Hp. done.
Qed.

Lemma validDjedPrice_ok o now p :
  0 <= Djed.dj_PriceNumerator o -> 0 <= Djed.dj_PriceDenominator o ->
  validDjedPrice o now = Ok p ->
  Djed.ValidateAt o now = Ok tt /\
  p = SetFrac (Djed.dj_PriceNumerator o) (Djed.dj_PriceDenominator o) /\ (0 < p)%Q.
Proof.
  intros Hn Hd. unfold validDjedPrice, Djed.ValidateAt, Djed.validateInterval.
  destruct (negb _ || negb _ || _ || _ || _ || _) eqn:E1; [done|]. apply orb_false_iff in E1 as [E1 E2].
  apply orb_false_iff in E1 as [E1 E3]. rewrite E2, E3. cbn [orb].
  destruct (Before now _ || _); [done|]. destruct (After now _ || _); [done|].
  intros [= <-]. bool_prop. split_and!; [done..|].
  rewrite SetFrac_eq by lia. unfold Qlt. cbn. lia.
Qed.

Lemma divergence_sym a b : divergence_of a b = divergence_of b a.
Proof.
  unfold divergence_of. destruct (RatLt a b) eqn:E1, (RatLt b a) eqn:E2; try done.
  - apply RatLt_spec in E1, E2. destruct (Qlt_irrefl a). by eapply Qlt_trans.
  - apply RatLt_false in E1, E2. assert (a == b)%Q as Hab by lra.
    unfold RatQuo, RatSub. apply Qred_complete. rewrite !Qred_correct. by rewrite Hab.
Qed.

Lemma divergence_le a b d :
  (0 < a)%Q -> (0 < b)%Q -> RatLt d (divergence_of a b) = false ->
  (a - b <= d * b)%Q /\ (b - a <= d * a)%Q.
Proof.
  intros Ha Hb. unfold divergence_of.
  assert (forall lo hi, 0 < lo -> lo <= hi -> RatLt d (RatQuo (RatSub hi lo) lo) = false ->
            hi - lo <= d * lo /\ lo - hi <= d * hi)%Q as H.
  { intros lo hi Hlo Hle Hd%RatLt_false. autorewrite with rat in Hd.
    assert (0 <= (hi - lo) / lo)%Q by (apply Qle_shift_div_l; lra).
    assert (hi - lo <= d * lo)%Q.
    { rewrite <- (Qmult_div_r (hi - lo) lo) by lra. rewrite (Qmult_comm lo).
      apply Qmult_le_compat_r; lra. }
    assert (0 <= d * hi)%Q by (apply Qmult_le_0_compat; lra). split; [done|lra]. }
  destruct (RatLt b a) eqn:E; intros Hd.
  - apply RatLt_spec in E. destruct (H b a Hb ltac:(lra) Hd). by split.
  - apply RatLt_false in E. destruct (H a b Ha E Hd). by split.
Qed.

Lemma midpoint_between a b : (Qmin a b <= RatQuo (RatAdd a b) (SetInt 2) <= Qmax a b)%Q.
Proof.
  pose proof (Q.le_min_l a b). pose proof (Q.le_min_r a b).
  pose proof (Q.le_max_l a b). pose proof (Q.le_max_r a b).
  autorewrite with rat. change (SetInt 2) with 2%Q.
  split; [apply Qle_shift_div_l | apply Qle_shift_div_r]; lra.
Qed.

(** An agreed price comes from two good sources that agree: the DEX result
    is qualified, the Djed observation is within its validity interval, neither
    price exceeds the other by more than the configured ratio of it, and the
    reported price is their exact midpoint, which lies between them. *)
Theorem CrossValidateADAUSD_agrees dexResult o c now r :
  0 <= Djed.dj_PriceNumerator o -> 0 <= Djed.dj_PriceDenominator o ->
  0 <= MaxDivergenceDenominator c ->
  CrossValidateADAUSD dexResult o c now = (r, None) ->
  let dex := AdaUsd.Rat dexResult in
  let djed := SetFrac (Djed.dj_PriceNumerator o) (Djed.dj_PriceDenominator o) in
  let limit := SetFrac (MaxDivergenceNumerator c) (MaxDivergenceDenominator c) in
  AdaUsd.re_Validation dexResult = AdaUsd.ValidationQualified /\ Djed.ValidateAt o now = Ok tt /\
  (0 < dex)%Q /\ (0 < djed)%Q /\
  (dex - djed <= limit * djed)%Q /\ (djed - dex <= limit * dex)%Q /\
  (Rat r == (dex + djed) / 2)%Q /\ (Qmin dex djed <= Rat r <= Qmax dex djed)%Q /\
  cr_Validation r = CrossQualified /\ cr_DEX r = dexResult /\ cr_Djed r = o /\
  SetString (cr_PriceNum r) = Some (Num (Rat r)) /\ SetString (cr_PriceDen r) = Some (Denom (Rat r)).
Proof.
  intros Hn Hd Hc. unfold CrossValidateADAUSD, crossSourceLimit.
  destruct (MaxDivergenceDenominator c =? 0); [done|].
  destruct (qualifiedDEXPrice dexResult) as [dex|] eqn:Edex; [|done].
  destruct (validDjedPrice o now) as [djed|] eqn:Edjed; [|done].
  destruct (RatLt _ (divergence_of dex djed)) eqn:Ediv; [done|]. intros [= <-]. cbn zeta.
  apply qualifiedDEXPrice_ok in Edex as (_ & _ & Hq & -> & Hdex).
  apply validDjedPrice_ok in Edjed as (Hv & -> & Hdjed); [|done..].
  destruct (divergence_le _ _ _ Hdex Hdjed Ediv) as [H1 H2].
  unfold Rat. cbn [cr_price cr_Validation cr_DEX cr_Djed cr_PriceNum cr_PriceDen default].
  rewrite !SetString_IntString.
  assert (RatQuo (RatAdd (AdaUsd.Rat dexResult)
    (SetFrac (Djed.dj_PriceNumerator o) (Djed.dj_PriceDenominator o))) (SetInt 2) ==
    (AdaUsd.Rat dexResult + SetFrac (Djed.dj_PriceNumerator o) (Djed.dj_PriceDenominator o)) / 2)%Q as Hm
    by (autorewrite with rat; done).
  split_and!; done || apply midpoint_between.
Qed.

(** ** Witness *)

Definition sample_agreement : CrossSourceResult :=
  Eval vm_compute in
    (CrossValidateADAUSD AdaUsd.sample_estimate Djed.sample_observation (mkCrossConfig 20 100)
       Djed.sample_now).1.

Lemma CrossValidateADAUSD_agrees_witness :
  (CrossValidateADAUSD AdaUsd.sample_estimate Djed.sample_observation DefaultCrossSourceConfig
     Djed.sample_now).2 = Some ErrCrossSourceDivergence /\
  (Rat sample_agreement == 17 # 40)%Q /\ (2 # 5 <= Rat sample_agreement <= 9 # 20)%Q.
Proof.
  split; [by vm_compute|]. split; [by vm_compute|].
  pose proof (CrossValidateADAUSD_agrees AdaUsd.sample_estimate Djed.sample_observation
    (mkCrossConfig 20 100) Djed.sample_now sample_agreement) as H.
  destruct H as (_ & _ & _ & _ & _ & _ & _ & H & _);
    [vm_compute; discriminate.. | vm_compute; reflexivity | exact H].
Defined.
