(* ===== verification/Mempool.v ===== *)
(** * Mempool: pending transactions and their effect on the pools
    ([internal/oracle/mempool.go]). *)
From S2P Require Import Prelude.
From S2P Require Import Text.
From S2P Require Import Float64.
From S2P Require Import Common.
From S2P Require Import Pool.

Record MempoolTxEffect := mkEffect {
  me_TxHash : string;
  me_PoolId : string;
  me_Protocol : string;
  me_Timestamp : Z;
  me_DeltaX : Z;
  me_DeltaY : Z;
  me_ResultingPriceXY : float64;
}.

(** [MempoolTxEffect.PriceImpact] *)
Definition PriceImpact (e : MempoolTxEffect) (confirmedPrice : float64) : float64 :=
  if SFeqb confirmedPrice fzero then fzero
  else
    fmul (fdiv (fsub (me_ResultingPriceXY e) confirmedPrice) confirmedPrice) (float_of_Z 100).

Record MempoolPoolState := mkMempoolPool {
  mp_poolId : string;
  mp_protocol : string;
  mp_confirmed : option PoolState;
  mp_pending : gmap string MempoolTxEffect;
  mp_order : list string;
}.

Definition NewMempoolPoolState (poolId protocol : string) (confirmed : option PoolState)
  : MempoolPoolState :=
  mkMempoolPool poolId protocol (ClonePoolState confirmed) ∅ [].

Definition poolReserves (state : option PoolState) : Z * Z :=
  match state with None => (0, 0) | Some s => (ps_X s, ps_Y s) end.

Definition reserveDelta (newAmount oldAmount : Z) : Z :=
  if oldAmount <=? newAmount then
    let diff := u64 (newAmount - oldAmount) in
    if diff <=? MaxInt64 then i64 diff else MaxInt64
  else
    let diff := u64 (oldAmount - newAmount) in
    if diff <=? MaxInt64 then i64 (- i64 diff) else MinInt64.

Definition addDeltaSaturating (a b : Z) : Z :=
  let sum := i64 (a + b) in
  if (0 <? a) && (0 <? b) && (sum <? 0) then MaxInt64
  else if (a <? 0) && (b <? 0) && (0 <=? sum) then MinInt64
  else sum.

(** [AddPendingTx]; the effect it returns is a copy. *)
Definition AddPendingTx (now : Z) (txHash : string) (newState : option PoolState) (m : MempoolPoolState)
  : MempoolPoolState * option MempoolTxEffect :=
  match mp_pending m !! txHash with
  | Some existing => (m, Some existing)
  | None =>
      match newState with
      | None => (m, None)
      | Some s =>
          let '(oldX, oldY) := poolReserves (mp_confirmed m) in
          let effect :=
            mkEffect txHash (mp_poolId m) (mp_protocol m) now
              (reserveDelta (ps_X s) oldX) (reserveDelta (ps_Y s) oldY) (PriceXY s) in
          (mkMempoolPool (mp_poolId m) (mp_protocol m) (mp_confirmed m)
             (<[txHash := effect]> (mp_pending m)) (mp_order m ++ [txHash]), Some effect)
      end
  end.

Fixpoint remove_first (h : string) (l : list string) : list string :=
  match l with
  | [] => []
  | x :: l' => if bool_decide (x = h) then l' else x :: remove_first h l'
  end.

(** [RemovePendingTx] and [removePendingTxLocked] *)
Definition RemovePendingTx (txHash : string) (m : MempoolPoolState) : MempoolPoolState :=
  match mp_pending m !! txHash with
  | None => m
  | Some _ =>
      mkMempoolPool (mp_poolId m) (mp_protocol m) (mp_confirmed m)
        (delete txHash (mp_pending m)) (remove_first txHash (mp_order m))
  end.

Definition PendingCount (m : MempoolPoolState) : Z := Z.of_nat (size (mp_pending m)).

Definition shift_effect (shiftX shiftY : Z) (e : MempoolTxEffect) : MempoolTxEffect :=
  mkEffect (me_TxHash e) (me_PoolId e) (me_Protocol e) (me_Timestamp e)
    (addDeltaSaturating (me_DeltaX e) shiftX) (addDeltaSaturating (me_DeltaY e) shiftY)
    (me_ResultingPriceXY e).

Definition SetConfirmedState (newConfirmed : option PoolState) (m : MempoolPoolState)
  : MempoolPoolState :=
  let '(oldX, oldY) := poolReserves (mp_confirmed m) in
  let '(newX, newY) := poolReserves newConfirmed in
  let m1 := mkMempoolPool (mp_poolId m) (mp_protocol m) (ClonePoolState newConfirmed)
              (mp_pending m) (mp_order m) in
  let m2 := match newConfirmed with None => m1 | Some s => RemovePendingTx (ps_TxHash s) m1 end in
  let shiftX := reserveDelta oldX newX in
  let shiftY := reserveDelta oldY newY in
  if (shiftX =? 0) && (shiftY =? 0) then m2
  else
    mkMempoolPool (mp_poolId m2) (mp_protocol m2) (mp_confirmed m2)
      (shift_effect shiftX shiftY <$> mp_pending m2) (mp_order m2).

Definition GetConfirmedState (m : MempoolPoolState) : option PoolState := ClonePoolState (mp_confirmed m).

Definition GetPendingTxs (m : MempoolPoolState) : list MempoolTxEffect :=
  omap (fun h => mp_pending m !! h) (mp_order m).

(** ** The manager of all pools *)

Abbreviation MempoolStateManager := (gmap string MempoolPoolState) (only parsing).

Definition NewMempoolStateManager : MempoolStateManager := ∅.

(** The state of a pool, created when it is not tracked yet. *)
Definition GetOrCreatePoolState (poolId protocol : string) (confirmed : option PoolState)
    (mgr : MempoolStateManager) : MempoolStateManager * MempoolPoolState :=
  match mgr !! poolId with
  | Some ps => (mgr, ps)
  | None =>
      let ps := NewMempoolPoolState poolId protocol confirmed in (<[poolId := ps]> mgr, ps)
  end.

Definition GetPoolState (poolId : string) (mgr : MempoolStateManager) : option MempoolPoolState :=
  mgr !! poolId.

Definition PoolCount (mgr : MempoolStateManager) : Z := Z.of_nat (size mgr).

Definition mgr_AddPendingTx (now : Z) (poolId protocol txHash : string) (newState : option PoolState)
    (mgr : MempoolStateManager) : MempoolStateManager * option MempoolTxEffect :=
  match newState with
  | None =>
      match mgr !! poolId with
      | None => (mgr, None)
      | Some ps =>
          let '(ps', r) := AddPendingTx now txHash None ps in (<[poolId := ps']> mgr, r)
      end
  | Some _ =>
      let '(mgr1, ps) := GetOrCreatePoolState poolId protocol None mgr in
      let '(ps', r) := AddPendingTx now txHash newState ps in (<[poolId := ps']> mgr1, r)
  end.

Definition mgr_RemovePendingTx (txHash : string) (mgr : MempoolStateManager) : MempoolStateManager :=
  RemovePendingTx txHash <$> mgr.

Definition TotalPendingTxs (mgr : MempoolStateManager) : Z :=
  sum_of PendingCount (map_to_list mgr).*2.

Definition GetPoolsAffectedByTx `{RangeOrder} (txHash : string) (mgr : MempoolStateManager) : list string :=
  (filter (fun entry => is_Some (mp_pending entry.2 !! txHash)) (range (map_to_list mgr))).*1.

Definition RemovePoolState (poolId : string) (mgr : MempoolStateManager) : MempoolStateManager :=
  delete poolId mgr.

Definition UpdateConfirmedState (poolId : string) (state : option PoolState) (mgr : MempoolStateManager)
  : MempoolStateManager :=
  match state with
  | None => mgr
  | Some s =>
      let '(mgr1, ps) := GetOrCreatePoolState poolId (ps_Protocol s) state mgr in
      <[poolId := SetConfirmedState state ps]> mgr1
  end.

(** ** Saturating deltas *)

Lemma reserveDelta_clamp a b : is_u64 a -> is_u64 b -> reserveDelta a b = clamp_i64 (a - b).
Proof.
  intros Ha Hb. unfold reserveDelta.
  destruct (Z.leb_spec b a); rewrite u64_small by int_lia.
  - destruct (Z.leb_spec (a - b) MaxInt64); [rewrite i64_small by int_lia|]; int_lia.
  - destruct (Z.leb_spec (b - a) MaxInt64).
    + rewrite (i64_small (b - a)), i64_small by int_lia. int_lia.
    + int_lia.
Qed.

Lemma i64_add_cases a b :
  is_i64 a -> is_i64 b ->
  i64 (a + b) = if decide (a + b > MaxInt64) then a + b - 2 ^ 64
                else if decide (a + b < MinInt64) then a + b + 2 ^ 64 else a + b.
Proof.
  intros Ha Hb. repeat case_decide.
  - unfold i64. rewrite <- (Z.mod_add _ (-1)), Z.mod_small by int_lia. lia.
  - unfold i64. rewrite <- (Z.mod_add _ 1), Z.mod_small by int_lia. lia.
  - apply i64_small. int_lia.
Qed.

Lemma addDeltaSaturating_clamp a b : is_i64 a -> is_i64 b -> addDeltaSaturating a b = clamp_i64 (a + b).
Proof.
  intros Ha Hb. unfold addDeltaSaturating. rewrite i64_add_cases by done.
  destruct (Z.ltb_spec 0 a), (Z.ltb_spec 0 b), (Z.ltb_spec a 0), (Z.ltb_spec b 0); cbn [andb];
    repeat case_decide;
    repeat match goal with
    | |- context [?x <? ?y] => destruct (Z.ltb_spec x y)
    | |- context [?x <=? ?y] => destruct (Z.leb_spec x y)
    end; int_lia.
Qed.

(** The signed arithmetic of the deltas never flips a sign or wraps: a
    reserve difference and a sum of deltas are the exact integers, saturated at
    the bounds of a 64-bit integer. *)
Theorem deltas_saturate a b x y :
  is_u64 a -> is_u64 b -> is_i64 x -> is_i64 y ->
  reserveDelta a b = clamp_i64 (a - b) /\ addDeltaSaturating x y = clamp_i64 (x + y).
Proof. intros. split; [by apply reserveDelta_clamp | by apply addDeltaSaturating_clamp]. Qed.

(** ** The manager as a map of resulting reserves

    A pending transaction commits its pool to absolute reserves. The
    specification keeps just those, with the confirmed reserves, per pool. *)

Record pool_view := mkView {
  v_confirmed : Z * Z;
  v_pending : gmap string (Z * Z);
}.

Inductive op :=
| OpAdd (now : Z) (poolId protocol txHash : string) (newState : option PoolState)
| OpRemoveTx (txHash : string)
| OpConfirm (poolId : string) (state : option PoolState)
| OpRemovePool (poolId : string).

Definition step (o : op) (mgr : MempoolStateManager) : MempoolStateManager :=
  match o with
  | OpAdd now p proto tx s => (mgr_AddPendingTx now p proto tx s mgr).1
  | OpRemoveTx tx => mgr_RemovePendingTx tx mgr
  | OpConfirm p s => UpdateConfirmedState p s mgr
  | OpRemovePool p => RemovePoolState p mgr
  end.

Definition view_add (tx : string) (reserves : Z * Z) (v : pool_view) : pool_view :=
  match v_pending v !! tx with
  | Some _ => v
  | None => mkView (v_confirmed v) (<[tx := reserves]> (v_pending v))
  end.

Definition spec_step (o : op) (views : gmap string pool_view) : gmap string pool_view :=
  match o with
  | OpAdd _ p _ tx (Some s) =>
      <[p := view_add tx (ps_X s, ps_Y s) (default (mkView (0, 0) ∅) (views !! p))]> views
  | OpAdd _ _ _ _ None => views
  | OpRemoveTx tx => (fun v => mkView (v_confirmed v) (delete tx (v_pending v))) <$> views
  | OpConfirm p (Some s) =>
      <[p := mkView (ps_X s, ps_Y s)
               (delete (ps_TxHash s) (default ∅ (v_pending <$> views !! p)))]> views
  | OpConfirm _ None => views
  | OpRemovePool p => delete p views
  end.

(** Reserves that a ledger can hold: token quantities are below 2^63. *)
Definition bounded (z : Z) : Prop := 0 <= z <= MaxInt64.
Definition bounded_pool (s : PoolState) : Prop := bounded (ps_X s) /\ bounded (ps_Y s).
Definition wf_op (o : op) : Prop :=
  match o with
  | OpAdd _ _ _ _ (Some s) | OpConfirm _ (Some s) => bounded_pool s
  | _ => True
  end.

(** The deltas are exact when all reserves are ones that a ledger can hold; which
    transactions are pending does not depend on that. *)
Section Exact.
Context (exact : Prop).

(** An effect commits to reserves [r] over confirmed reserves [c]. *)
Definition commits (c : Z * Z) (tx : string) (e : MempoolTxEffect) (r : Z * Z) : Prop :=
  me_TxHash e = tx /\
  (exact -> (bounded r.1 /\ bounded r.2) /\ c.1 + me_DeltaX e = r.1 /\ c.2 + me_DeltaY e = r.2).

Record represents (m : MempoolPoolState) (v : pool_view) : Prop := {
  rp_confirmed : poolReserves (mp_confirmed m) = v_confirmed v;
  rp_bounded : exact -> bounded (v_confirmed v).1 /\ bounded (v_confirmed v).2;
  rp_pending : forall tx,
    match mp_pending m !! tx, v_pending v !! tx with
    | Some e, Some r => commits (v_confirmed v) tx e r
    | None, None => True
    | _, _ => False
    end;
  rp_order : NoDup (mp_order m) /\ forall tx, tx ∈ mp_order m <-> is_Some (mp_pending m !! tx);
}.

Lemma poolReserves_clone s : poolReserves (ClonePoolState s) = poolReserves s.
Proof. by rewrite ClonePoolState_id. Qed.

Lemma represents_new p proto s :
  (forall x, exact -> s = Some x -> bounded_pool x) ->
  represents (NewMempoolPoolState p proto s) (mkView (poolReserves s) ∅).
Proof.
  intros Hs. split; cbn.
  - apply poolReserves_clone.
  - intros He. destruct s as [x|]; [by destruct (Hs x He eq_refl)|]. cbn. unfold bounded. int_lia.
  - intros tx. by rewrite !lookup_empty.
  - split; [constructor|]. intros tx. rewrite lookup_empty. split.
    + intros H. by apply not_elem_of_nil in H.
    + intros [? H]. done.
Qed.

Lemma represents_add now tx s m v :
  (exact -> bounded_pool s) -> represents m v ->
  represents (AddPendingTx now tx (Some s) m).1 (view_add tx (ps_X s, ps_Y s) v).
Proof.
  intros Hs HR. pose proof HR as [Hc Hb Hp [Hnd Hdom]]. unfold AddPendingTx, view_add.
  destruct v as [c vp]. cbn [v_confirmed v_pending] in *. subst c. pose proof (Hp tx) as Htx.
  destruct (mp_pending m !! tx) as [e|] eqn:E, (vp !! tx) as [r|] eqn:Er; try done.
  destruct (poolReserves (mp_confirmed m)) as [oldX oldY] eqn:Eold. cbn [fst snd] in *.
  split; cbn [fst mp_confirmed mp_pending mp_order v_confirmed v_pending]; [done|done| |].
  - intros tx'. destruct (decide (tx = tx')) as [<-|Hne].
    + rewrite !lookup_insert_eq. split; [done|]. intros He.
      destruct (Hs He) as [Hx Hy], (Hb He) as [Hb1 Hb2].
      unfold bounded in *. cbn [me_DeltaX me_DeltaY fst snd].
      rewrite !reserveDelta_clamp, !clamp_i64_small by int_lia. split_and!; done || lia.
    + rewrite !lookup_insert_ne by done. apply Hp.
  - split.
    + apply NoDup_app. split_and!; [done| |by apply NoDup_singleton].
      intros x Hx' ->%list_elem_of_singleton. apply Hdom in Hx' as [? ?]. congruence.
    + intros x. rewrite elem_of_app, list_elem_of_singleton, Hdom, lookup_insert_is_Some.
      destruct (decide (tx = x)); naive_solver.
Qed.

Lemma elem_of_remove_first h l x : NoDup l -> x ∈ remove_first h l <-> x ∈ l /\ x <> h.
Proof.
  induction 1 as [|y l Hy Hnd IH]; cbn.
  - split; [|tauto]. intros H. by apply not_elem_of_nil in H.
  - case_bool_decide as E.
    + subst y. rewrite elem_of_cons. split; [|tauto]. intros Hx. split; [by right|]. by intros ->.
    + rewrite !elem_of_cons, IH. naive_solver.
Qed.

Lemma NoDup_remove_first h l : NoDup l -> NoDup (remove_first h l).
Proof.
  induction 1 as [|y l Hy Hnd IH]; cbn; [constructor|]. case_bool_decide; [done|].
  constructor; [|done]. rewrite elem_of_remove_first by done. tauto.
Qed.

Lemma represents_remove tx m v :
  represents m v ->
  represents (RemovePendingTx tx m) (mkView (v_confirmed v) (delete tx (v_pending v))).
Proof.
  intros [Hc Hb Hp [Hnd Hdom]]. unfold RemovePendingTx.
  pose proof (Hp tx) as Htx. destruct (mp_pending m !! tx) as [e|] eqn:E.
  - split; cbn [mp_confirmed mp_pending mp_order v_confirmed v_pending]; [done|done| |].
    + intros tx'. destruct (decide (tx = tx')) as [<-|]; [by rewrite !lookup_delete_eq|].
      rewrite !lookup_delete_ne by done. apply Hp.
    + split; [by apply NoDup_remove_first|]. intros x.
      rewrite elem_of_remove_first, Hdom by done. rewrite lookup_delete_is_Some. naive_solver.
  - destruct (v_pending v !! tx) as [r|] eqn:Er; [done|].
    rewrite delete_id by done. by split.
Qed.

(** Rebasing on new confirmed reserves keeps what the effects commit to. *)
Lemma commits_rebase c c' tx e r :
  (exact -> bounded c.1 /\ bounded c.2) -> (exact -> bounded c'.1 /\ bounded c'.2) -> commits c tx e r ->
  commits c' tx (shift_effect (reserveDelta c.1 c'.1) (reserveDelta c.2 c'.2) e) r.
Proof.
  intros Hc Hc' [Htx Hr]. split; [done|]. intros He.
  destruct (Hc He) as [H1 H2], (Hc' He) as [H3 H4], (Hr He) as ((Hr1 & Hr2) & HX & HY). unfold bounded in *.
  unfold shift_effect. cbn [me_DeltaX me_DeltaY].
  rewrite !reserveDelta_clamp by int_lia. rewrite !clamp_i64_small by int_lia.
  rewrite !addDeltaSaturating_clamp by int_lia. rewrite !clamp_i64_small by int_lia.
  split_and!; (done || lia).
Qed.

(** [SetConfirmedState] before the rebase. *)
Lemma represents_drop s m v :
  represents m v ->
  let m2 := RemovePendingTx (ps_TxHash s)
              (mkMempoolPool (mp_poolId m) (mp_protocol m) (ClonePoolState (Some s))
                 (mp_pending m) (mp_order m)) in
  mp_confirmed m2 = Some s /\
  (forall tx, match mp_pending m2 !! tx, delete (ps_TxHash s) (v_pending v) !! tx with
              | Some e, Some r => commits (v_confirmed v) tx e r
              | None, None => True
              | _, _ => False
              end) /\
  NoDup (mp_order m2) /\ forall tx, tx ∈ mp_order m2 <-> is_Some (mp_pending m2 !! tx).
Proof.
  intros HR. destruct (represents_remove (ps_TxHash s) m v HR) as [_ _ Hp Ho].
  unfold RemovePendingTx in *. cbn [mp_pending mp_order mp_confirmed v_pending v_confirmed] in *.
  rewrite ClonePoolState_id. destruct (mp_pending m !! ps_TxHash s); done.
Qed.

Lemma represents_confirm s m v :
  (exact -> bounded_pool s) -> represents m v ->
  represents (SetConfirmedState (Some s) m)
    (mkView (ps_X s, ps_Y s) (delete (ps_TxHash s) (v_pending v))).
Proof.
  intros Hs HR. destruct (represents_drop s m v HR) as (Ec & Hp & Hnd & Hdom).
  pose proof HR as [Hc Hb _ _]. unfold SetConfirmedState.
  destruct v as [c vp]. cbn [v_confirmed v_pending] in *. subst c.
  destruct (poolReserves (mp_confirmed m)) as [oldX oldY]. cbn [poolReserves fst snd] in *.
  set (m2 := RemovePendingTx _ _) in *. destruct (_ && _) eqn:E0.
  - apply andb_prop in E0 as [Z1 Z2]. bool_prop.
    split; cbn [v_confirmed v_pending fst snd]; [by rewrite Ec|done| |done].
    intros tx. specialize (Hp tx). destruct (mp_pending m2 !! tx) as [e|], (delete _ vp !! tx) as [r|]; try done.
    destruct Hp as [Htx Hr]. split; [done|]. intros He.
    destruct (Hs He) as [Hx Hy], (Hb He) as [Hb1 Hb2], (Hr He) as (? & HX & HY). cbn [fst snd] in *.
    rewrite reserveDelta_clamp, clamp_i64_small in Z1, Z2 by (unfold bounded in *; int_lia).
    split_and!; tauto || lia.
  - split; cbn [mp_confirmed mp_pending mp_order v_confirmed v_pending fst snd].
    + by rewrite Ec.
    + done.
    + intros tx. rewrite lookup_fmap. specialize (Hp tx).
      destruct (mp_pending m2 !! tx) as [e|], (delete _ vp !! tx) as [r|];
        cbn [fmap option_fmap option_map]; try done.
      exact (commits_rebase (oldX, oldY) (ps_X s, ps_Y s) tx e r Hb Hs Hp).
    + split; [done|]. intros tx. rewrite lookup_fmap, fmap_is_Some. apply Hdom.
Qed.

(** ** The manager *)

Definition mgr_represents (mgr : MempoolStateManager) (views : gmap string pool_view) : Prop :=
  forall p, match mgr !! p, views !! p with
            | Some m, Some v => represents m v
            | None, None => True
            | _, _ => False
            end.

Lemma mgr_represents_insert mgr views p m v :
  mgr_represents mgr views -> represents m v -> mgr_represents (<[p := m]> mgr) (<[p := v]> views).
Proof.
  intros HM Hm q. destruct (decide (p = q)) as [<-|].
  - by rewrite !lookup_insert_eq.
  - rewrite !lookup_insert_ne by done. apply HM.
Qed.

Lemma step_represents o mgr views :
  (exact -> wf_op o) -> mgr_represents mgr views -> mgr_represents (step o mgr) (spec_step o views).
Proof.
  intros Ho HM. destruct o as [now p proto tx [s|]|tx|p [s|]|p]; cbn [step spec_step].
  - unfold mgr_AddPendingTx, GetOrCreatePoolState. specialize (HM p) as Hp.
    destruct (mgr !! p) as [m|] eqn:Em, (views !! p) as [v|] eqn:Ev; try done; cbn [default].
    + pose proof (represents_add now tx s m v Ho Hp) as Ha.
      destruct (AddPendingTx now tx (Some s) m) as [m' r]. by apply mgr_represents_insert.
    + pose proof (represents_add now tx s _ _ Ho (represents_new p proto None ltac:(done))) as Ha.
      destruct (AddPendingTx now tx (Some s) _) as [m' r]. cbn [fst].
      rewrite insert_insert_eq. by apply mgr_represents_insert.
  - unfold mgr_AddPendingTx. destruct (mgr !! p) as [m|] eqn:Em; [|done].
    unfold AddPendingTx. destruct (mp_pending m !! tx); cbn [fst]; by rewrite insert_id.
  - intros p. unfold mgr_RemovePendingTx. rewrite !lookup_fmap. specialize (HM p).
    destruct (mgr !! p) as [m|], (views !! p) as [v|]; try done. by apply represents_remove.
  - unfold UpdateConfirmedState, GetOrCreatePoolState. specialize (HM p) as Hp.
    destruct (mgr !! p) as [m|] eqn:Em, (views !! p) as [v|] eqn:Ev; try done;
      cbn [default fmap option_fmap option_map].
    + apply mgr_represents_insert; [done|]. by apply represents_confirm.
    + rewrite insert_insert_eq. apply mgr_represents_insert; [done|].
      rewrite <- (delete_empty (ps_TxHash s)) at 1.
      apply (represents_confirm s _ (mkView (poolReserves (Some s)) ∅)); [done|].
      apply represents_new. intros x He [= <-]. by apply Ho.
  - done.
  - intros q. unfold RemovePoolState. destruct (decide (p = q)) as [<-|].
    + by rewrite !lookup_delete_eq.
    + rewrite !lookup_delete_ne by done. apply HM.
Qed.

Lemma run_represents ops mgr views :
  (exact -> Forall wf_op ops) -> mgr_represents mgr views ->
  mgr_represents (foldl (fun m o => step o m) mgr ops) (foldl (fun v o => spec_step o v) views ops).
Proof.
  revert mgr views. induction ops as [|o ops IH]; intros mgr views Hops HM; [done|].
  cbn [foldl]. apply IH; [|apply step_represents; [|done]];
    intros He; specialize (Hops He); by apply Forall_cons in Hops as [??].
Qed.

Lemma GetPendingTxs_hashes m v :
  represents m v -> me_TxHash <$> GetPendingTxs m = mp_order m.
Proof.
  intros [_ _ Hp [_ Hdom]]. unfold GetPendingTxs.
  assert (Forall (fun tx => is_Some (mp_pending m !! tx)) (mp_order m)) as Hall
    by (apply Forall_forall; intros; by apply Hdom).
  clear Hdom. induction (mp_order m) as [|tx l IH]; [done|]. apply Forall_cons in Hall as [[e He] Hl].
  cbn [omap list_omap]. rewrite He, fmap_cons, IH by done. f_equal.
  specialize (Hp tx). rewrite He in Hp. destruct (v_pending v !! tx); [|done]. apply Hp.
Qed.

Lemma elem_of_GetPendingTxs m v e :
  represents m v -> e ∈ GetPendingTxs m <-> mp_pending m !! me_TxHash e = Some e.
Proof.
  intros [_ _ Hp [_ Hdom]]. unfold GetPendingTxs. rewrite list_elem_of_omap. split.
  - intros (tx & _ & He). specialize (Hp tx). rewrite He in Hp.
    destruct (v_pending v !! tx); [|done]. by destruct Hp as [-> _].
  - intros He. exists (me_TxHash e). split; [|done]. apply Hdom. by eexists.
Qed.

Lemma PendingCount_length m v :
  represents m v -> PendingCount m = Z.of_nat (length (GetPendingTxs m)).
Proof.
  intros HR. unfold PendingCount. f_equal. rewrite <- (length_fmap me_TxHash).
  rewrite (GetPendingTxs_hashes m v HR). destruct (rp_order _ _ HR) as [Hnd Hdom].
  rewrite <- size_dom, <- (size_list_to_set (C := gset string) (mp_order m)) by done. f_equal.
  apply leibniz_equiv. intros tx. rewrite elem_of_list_to_set, Hdom. apply elem_of_dom.
Qed.
End Exact.

(** C12: through any sequence of pending transactions, removals, confirmations and
    pool resets, a pool lists each of its pending transactions once, those that were
    added and neither removed nor confirmed since, and the count agrees. As long as no
    reserve of these operations exceeds the largest signed 64-bit integer, which is
    what a ledger bounds quantities by, the confirmed reserves plus the deltas of a
    pending transaction are exactly the reserves that the transaction committed the
    pool to: a confirmation rebases the others. Larger reserves saturate the deltas. *)
Theorem pending_reserves_exact ops p :
  match foldl (fun m o => step o m) ∅ ops !! p, foldl (fun v o => spec_step o v) ∅ ops !! p with
  | Some m, Some v =>
      poolReserves (GetConfirmedState m) = v_confirmed v /\
      (forall tx, is_Some (v_pending v !! tx) <-> tx ∈ me_TxHash <$> GetPendingTxs m) /\
      NoDup (me_TxHash <$> GetPendingTxs m) /\
      PendingCount m = Z.of_nat (length (GetPendingTxs m)) /\
      (Forall wf_op ops -> forall tx r, v_pending v !! tx = Some r <->
         exists e, e ∈ GetPendingTxs m /\ me_TxHash e = tx /\
           (v_confirmed v).1 + me_DeltaX e = r.1 /\ (v_confirmed v).2 + me_DeltaY e = r.2)
  | None, None => True
  | _, _ => False
  end.
Proof.
  pose proof (run_represents (Forall wf_op ops) ops ∅ ∅ id) as HM.
  specialize (HM (fun q => ltac:(rewrite !lookup_empty; exact I)) p).
  destruct (_ !! p) as [m|], (_ !! p) as [v|] in HM |- *; try done. split_and!.
  - unfold GetConfirmedState. rewrite poolReserves_clone. apply HM.
  - intros tx. rewrite (GetPendingTxs_hashes _ m v HM).
    destruct (rp_order _ _ _ HM) as [_ Hdom]. rewrite Hdom. pose proof (rp_pending _ _ _ HM tx) as Htx.
    destruct (mp_pending m !! tx), (v_pending v !! tx); done.
  - rewrite (GetPendingTxs_hashes _ m v HM). apply (rp_order _ _ _ HM).
  - by eapply PendingCount_length.
  - intros Hops tx r. pose proof (rp_pending _ _ _ HM tx) as Htx. split.
    + intros Hr. rewrite Hr in Htx. destruct (mp_pending m !! tx) as [e|] eqn:E; [|done].
      exists e. destruct Htx as (<- & Hd). destruct (Hd Hops) as (_ & H1 & H2). split_and!; try done.
      by eapply elem_of_GetPendingTxs.
    + intros (e & He%(elem_of_GetPendingTxs _ m v e HM) & <- & H1 & H2). rewrite He in Htx.
      destruct (v_pending v !! me_TxHash e) as [[x y]|]; [|done].
      destruct Htx as (_ & Hd). destruct (Hd Hops) as (_ & H3 & H4).
      f_equal. destruct r as [x' y']. cbn in *. f_equal; lia.
Qed.

(** ** Witnesses *)

Definition at_reserves (tx : string) (x y : Z) : PoolState :=
  mkPoolState "pool1" "mainnet" "cswap" (mkAssetAmount Lovelace x) (mkAssetAmount sample_token y)
    997 1000 100 "block" tx 0 1000 1000 false.
Definition sample_ops : list op :=
  [OpConfirm "pool1" (Some (at_reserves "t0" 1000 500));
   OpAdd 5 "pool1" "cswap" "t1" (Some (at_reserves "t1" 1100 460));
   OpAdd 6 "pool1" "cswap" "t2" (Some (at_reserves "t2" 900 560));
   OpConfirm "pool1" (Some (at_reserves "t1" 1100 460))].

Lemma deltas_saturate_witness :
  reserveDelta 0 MaxUint64 = MinInt64 /\ addDeltaSaturating MaxInt64 1 = MaxInt64.
Proof.
  destruct (deltas_saturate 0 MaxUint64 MaxInt64 1) as [-> ->]; [u64_closed..|].
  split; reflexivity.
Defined.

Lemma pending_reserves_exact_witness :
  match foldl (fun m o => step o m) ∅ sample_ops !! ("pool1" : string) with
  | Some m => (exists e, e ∈ GetPendingTxs m /\ me_TxHash e = "t2" /\ 1100 + me_DeltaX e = 900) /\
      PendingCount m = Z.of_nat (length (GetPendingTxs m))
  | None => False
  end.
Proof.
  pose proof (pending_reserves_exact sample_ops "pool1") as H.
  assert (match foldl (fun v o => spec_step o v) ∅ sample_ops !! ("pool1" : string) with
          | Some v => v_confirmed v = (1100, 460) /\ v_pending v !! "t2" = Some (900, 560)
          | None => False end) as Hv by (vm_compute; split; reflexivity).
  destruct (foldl (fun v o => spec_step o v) ∅ sample_ops !! ("pool1" : string)) as [v|]; [|exact (False_ind _ Hv)].
  destruct (foldl (fun m o => step o m) ∅ sample_ops !! ("pool1" : string)) as [m|]; [|exact H].
  destruct H as (_ & _ & _ & Hn & He). split; [|exact Hn].
  destruct Hv as [Hc Hp]. apply He in Hp as (e & Hin & Htx & HX & _).
  - exists e. rewrite Hc in HX. exact (conj Hin (conj Htx HX)).
  - repeat constructor; unfold bounded; cbn; int_lia.
Defined.
