(* ===== verification/Spectrum.v ===== *)
(** * Spectrum: the Spectrum/Splash batcher, its pool arithmetic
    ([internal/spectrum/pool.go]) and the amounts and guards of the swap
    transaction ([internal/spectrum/tx.go]). *)
From S2P Require Import Prelude.
From S2P Require Import Text.
From S2P Require Import Common.
From S2P Require Import Pool.

(** [AssetAmount.IsAsset]: comparison of the byte strings. *)
Definition sp_IsAsset (a : AssetAmount) (asset : AssetClass) : bool :=
  bool_decide (string_of_bytes (PolicyId asset) = string_of_bytes (PolicyId (aa_Class a)))
  && bool_decide (string_of_bytes (Name asset) = string_of_bytes (Name (aa_Class a))).

Definition feeDenom : Z := 1000.

Record Pool := mkPool {
  pl_Id : AssetClass;
  pl_X : AssetAmount;
  pl_Y : AssetAmount;
  pl_Lq : AssetAmount;
  pl_FeeNum : Z;
}.

(** [AssetAmount{}] *)
Definition no_asset : AssetAmount := mkAssetAmount Lovelace 0.

(** [OutputForInput]; [None] is the panic of a division by zero. *)
Definition OutputForInput (p : Pool) (inputAssetClass : AssetClass) (inputAmount : Z)
  : option AssetAmount :=
  let sides :=
    if sp_IsAsset (pl_X p) inputAssetClass then Some (pl_X p, pl_Y p)
    else if sp_IsAsset (pl_Y p) inputAssetClass then Some (pl_Y p, pl_X p)
    else None in
  match sides with
  | None => Some no_asset
  | Some (inputAsset, outputAsset) =>
      let num := pl_FeeNum p * (aa_Amount outputAsset * inputAmount) in
      let den := (aa_Amount inputAsset + 0) * feeDenom + inputAmount * pl_FeeNum p in
      if den =? 0 then None
      else Some (mkAssetAmount (aa_Class outputAsset) (u64 (num / den)))
  end.

(** [Pool.Asset] *)
Definition Asset (p : Pool) (asset : AssetClass) : AssetAmount :=
  if sp_IsAsset (pl_X p) asset then pl_X p
  else if sp_IsAsset (pl_Y p) asset then pl_Y p
  else no_asset.

Inductive tx_error :=
| InsufficientQuote
| ZeroReward
| PoolUnderflow
| ExceedsInt64
| NilFeePerTokenNum
| ZeroFeePerTokenDen
| NoOutput
| InvalidLovelace
| CoinBelowMatcherFee
| LeftoverBelowBase
| RewardOverflow
| MatcherFeeTooSmall
| UnsortedInputs
| BadCollateralPercent
| CollateralOverflow
| NoCollateral
| BadInputCount
| MissingPoolInput
| MissingSwapInput
| InputOrderChanged
| DivisionByZero.

Definition CalculateReturnToPool (p : Pool) (inputAsset rewardAsset : AssetAmount)
  : result tx_error (Z * list AssetAmount) :=
  let retUnits := [mkAssetAmount (pl_Id p) 1; pl_Lq p] in
  let inAsset := Asset p (aa_Class inputAsset) in
  let inAsset := mkAssetAmount (aa_Class inAsset) (u64 (aa_Amount inAsset + aa_Amount inputAsset)) in
  let outAsset := Asset p (aa_Class rewardAsset) in
  if aa_Amount outAsset <? aa_Amount rewardAsset then Err PoolUnderflow
  else
    let outAsset := mkAssetAmount (aa_Class outAsset) (aa_Amount outAsset - aa_Amount rewardAsset) in
    if aa_IsLovelace inAsset then Ok (aa_Amount inAsset, retUnits ++ [outAsset])
    else if aa_IsLovelace outAsset then Ok (aa_Amount outAsset, retUnits ++ [inAsset])
    else Ok (0, retUnits).

(** ** Arbitrary-precision floats

    A [big.Float] is a rational with a precision; an operation rounds its exact
    result to the larger precision of its operands, to nearest even. *)
Definition round_to (prec : Z) (q : rat) : rat :=
  let n := Z.abs (Qnum q) in
  let d := Zpos (Qden q) in
  if n =? 0 then 0%Q
  else
    let mantissa e := if 0 <=? e then n / (d * 2 ^ e) else n * 2 ^ (- e) / d in
    let e0 := Z.log2 n - Z.log2 d - prec + 1 in
    let e := if mantissa e0 <? 2 ^ (prec - 1) then e0 - 1 else e0 in
    let '(n', d') := if 0 <=? e then (n, d * 2 ^ e) else (n * 2 ^ (- e), d) in
    let m := n' / d' in
    let r := n' mod d' in
    let m := if (d' <? 2 * r) || ((2 * r =? d') && Z.odd m) then m + 1 else m in
    let v := if 0 <=? e then SetInt (m * 2 ^ e) else SetFrac m (2 ^ (- e)) in
    if Qnum q <? 0 then Qopp v else v.

(** The precision of [SetInt]. *)
Definition int_prec (z : Z) : Z := if z =? 0 then 64 else Z.max 64 (Z.log2 (Z.abs z) + 1).

(** [Float.Uint64]: truncation toward zero, saturated. *)
Definition float_Uint64 (q : rat) : Z :=
  if Qnum q <=? 0 then 0 else Z.min MaxUint64 (Qnum q / Zpos (Qden q)).

(** ( FeePerTokenNum / FeePerTokenDen ) * MinQuoteAmount *)
Definition matcher_fee (minQuote num den : Z) : Z :=
  let p1 := Z.max 64 (int_prec num) in
  let product := round_to p1 (SetInt (minQuote * num)) in
  let p2 := Z.max p1 (int_prec den) in
  float_Uint64 (round_to p2 (RatQuo product (SetInt den))).

(** ** The swap transaction *)

Record SwapConfig := mkSwapConfig {
  sw_Base : AssetClass;
  sw_Quote : AssetClass;
  sw_PoolId : AssetClass;
  sw_FeeNum : Z;
  sw_FeePerTokenNum : option Z;
  sw_FeePerTokenDen : option Z;
  sw_RewardPkh : option (list byte);
  sw_StakePkh : option (list byte);
  sw_BaseAmount : Z;
  sw_MinQuoteAmount : Z;
}.

(** What the code reads of a ledger UTxO: its reference, and of its output, if
    it has one, whether it holds native assets, its address type and its
    amount. *)
Record Output := mkOutput {
  out_has_assets : bool;
  out_address_type : Z;
  out_amount : option Z;
}.
Record Utxo := mkUtxo { ut_ref : string * Z; ut_output : option Output }.

Definition swapTxFee : Z := 295000.

Definition utxoLovelace (u : Utxo) : result tx_error Z :=
  match ut_output u with
  | None => Err NoOutput
  | Some o =>
      match out_amount o with
      | Some a => if (0 <=? a) && (a <=? MaxUint64) then Ok a else Err InvalidLovelace
      | None => Err InvalidLovelace
      end
  end.

Definition uint64ToInt64 (amount : Z) : result tx_error Z :=
  if MaxInt64 <? amount then Err ExceedsInt64 else Ok (i64 amount).

(** The collateral for a fee, in percent of it, rounded up. *)
Definition requiredCollateralLovelace (collateralPercent fee : Z) : result tx_error Z :=
  if collateralPercent <=? 0 then Err BadCollateralPercent
  else if (MaxUint64 - 99) / collateralPercent <? fee then Err CollateralOverflow
  else Ok (u64 (u64 (fee * collateralPercent) + 99) / 100).

Definition AddressTypeKeyKey : Z := 0.
Definition AddressTypeKeyNone : Z := 6.

Definition collateral_amount (minLovelace : Z) (u : Utxo) : option Z :=
  match ut_output u with
  | None => None
  | Some o =>
      if out_has_assets o then None
      else if negb (out_address_type o =? AddressTypeKeyKey)
              && negb (out_address_type o =? AddressTypeKeyNone) then None
      else
        match utxoLovelace u with
        | Err _ => None
        | Ok amount => if amount <? minLovelace then None else Some amount
        end
  end.

(** The loop that keeps the first of the smallest eligible elements. *)
Definition keep_smaller {A} (amount_of : A -> option Z) (selected : option (A * Z)) (u : A)
  : option (A * Z) :=
  match amount_of u with
  | None => selected
  | Some amount =>
      match selected with
      | None => Some (u, amount)
      | Some (_, selectedAmount) => if amount <? selectedAmount then Some (u, amount) else selected
      end
  end.

Definition select_smallest {A} (amount_of : A -> option Z) (utxos : list A) : result tx_error A :=
  match foldl (keep_smaller amount_of) None utxos with
  | Some (u, _) => Ok u
  | None => Err NoCollateral
  end.

Definition selectCollateralUtxo (utxos : list Utxo) (minLovelace : Z) : result tx_error Utxo :=
  select_smallest (collateral_amount minLovelace) utxos.

(** The index of an input among inputs, or -1. *)
Fixpoint index_from (i : Z) (inputs : list (string * Z)) (r : string * Z) : Z :=
  match inputs with
  | [] => -1
  | x :: inputs' => if bool_decide (x = r) then i else index_from (i + 1) inputs' r
  end.
Definition transactionInputIndex (inputs : list (string * Z)) (r : string * Z) : Z := index_from 0 inputs r.

Definition validateSwapTxInputs (inputs : list (string * Z)) (poolInput swapInput : string * Z)
    (datumPoolInputIdx datumSwapInputIdx : Z) : result tx_error unit :=
  if negb (Nat.eqb (length inputs) 2) then Err BadInputCount
  else
    let poolInputIdx := transactionInputIndex inputs poolInput in
    if poolInputIdx <? 0 then Err MissingPoolInput
    else
      let swapInputIdx := transactionInputIndex inputs swapInput in
      if swapInputIdx <? 0 then Err MissingSwapInput
      else if negb (poolInputIdx =? datumPoolInputIdx) || negb (swapInputIdx =? datumSwapInputIdx)
      then Err InputOrderChanged
      else Ok tt.

(** The outputs of the transaction: what returns to the pool, what the trader
    receives, and the change of the batcher. *)
Record swap_outputs := mkOutputs {
  so_poolLovelace : Z;
  so_poolUnits : list AssetAmount;
  so_rewardLovelace : Z;
  so_rewardUnits : list AssetAmount;
  so_matcherChange : Z;
  so_matcherFee : Z;
}.

Fixpoint int64_units (l : list AssetAmount) : result tx_error (list AssetAmount) :=
  match l with
  | [] => Ok []
  | a :: l' =>
      amount ← uint64ToInt64 (aa_Amount a);
      rest ← int64_units l';
      Ok (mkAssetAmount (aa_Class a) amount :: rest)
  end.

(** The amounts of [createSwapTx], with all its guards in order. *)
Definition swap_amounts (p : Pool) (sc : SwapConfig) (swapUtxo : Utxo)
  : result tx_error swap_outputs :=
  match OutputForInput p (sw_Base sc) (sw_BaseAmount sc) with
  | None => Err DivisionByZero
  | Some rewardAsset =>
      _ ← reject_if (aa_Amount rewardAsset <? sw_MinQuoteAmount sc) InsufficientQuote;
      '(rewardLovelace, rewardUnits) ←
        (if aa_IsLovelace rewardAsset then Ok (aa_Amount rewardAsset, [])
         else
           rewardAmount ← uint64ToInt64 (aa_Amount rewardAsset);
           Ok (0, [mkAssetAmount (aa_Class rewardAsset) rewardAmount]));
      _ ← reject_if (aa_Amount rewardAsset =? 0) ZeroReward;
      '(poolReturnLovelace, poolReturnAssets) ←
        CalculateReturnToPool p (mkAssetAmount (sw_Base sc) (sw_BaseAmount sc)) rewardAsset;
      poolReturnUnits ← int64_units poolReturnAssets;
      match sw_FeePerTokenNum sc with
      | None => Err NilFeePerTokenNum
      | Some feeNum =>
          match sw_FeePerTokenDen sc with
          | None | Some 0 => Err ZeroFeePerTokenDen
          | Some feeDen =>
              let matcherFee := matcher_fee (sw_MinQuoteAmount sc) feeNum feeDen in
              swapUtxoCoin ← utxoLovelace swapUtxo;
              _ ← reject_if (swapUtxoCoin <? matcherFee) CoinBelowMatcherFee;
              let leftover := swapUtxoCoin - matcherFee in
              leftover ←
                (if Nat.eqb (length (contents (PolicyId (sw_Base sc)))) 0 then
                   _ ← reject_if (leftover <? sw_BaseAmount sc) LeftoverBelowBase;
                   Ok (leftover - sw_BaseAmount sc)
                 else Ok leftover);
              _ ← reject_if (MaxUint64 - leftover <? rewardLovelace) RewardOverflow;
              let rewardLovelace := u64 (rewardLovelace + leftover) in
              _ ← reject_if (matcherFee <=? swapTxFee) MatcherFeeTooSmall;
              poolReturnLovelaceInt ← uint64ToInt64 poolReturnLovelace;
              rewardLovelaceInt ← uint64ToInt64 rewardLovelace;
              matcherChange ← uint64ToInt64 (matcherFee - swapTxFee);
              Ok (mkOutputs poolReturnLovelaceInt poolReturnUnits rewardLovelaceInt rewardUnits
                    matcherChange matcherFee)
          end
      end
  end.

(** ** Pool arithmetic *)

Lemma string_of_bytes_eq a b : string_of_bytes a = string_of_bytes b <-> contents a = contents b.
Proof.
  split; [apply string_of_bytes_inj|]. unfold string_of_bytes. by intros ->.
Qed.

Lemma sp_IsAsset_spec a c : sp_IsAsset a c = true <-> aa_Class a ≡ c.
Proof.
  unfold sp_IsAsset. rewrite andb_true_iff, !bool_decide_eq_true, !string_of_bytes_eq.
  unfold equiv, asset_equiv. naive_solver.
Qed.

(** The reserves on the input and output side of a swap. *)
Definition sides (p : Pool) (base : AssetClass) : option (AssetAmount * AssetAmount) :=
  if sp_IsAsset (pl_X p) base then Some (pl_X p, pl_Y p)
  else if sp_IsAsset (pl_Y p) base then Some (pl_Y p, pl_X p)
  else None.

Record wf_spectrum_pool (p : Pool) : Prop := {
  wp_X : is_u64 (aa_Amount (pl_X p));
  wp_Y : is_u64 (aa_Amount (pl_Y p));
  wp_Fee : 0 <= pl_FeeNum p <= feeDenom;
}.

Lemma sides_u64 p base i o :
  wf_spectrum_pool p -> sides p base = Some (i, o) ->
  is_u64 (aa_Amount i) /\ is_u64 (aa_Amount o) /\ aa_Class i ≡ base.
Proof.
  intros [] H. unfold sides in H.
  destruct (sp_IsAsset (pl_X p) base) eqn:E1; [|destruct (sp_IsAsset (pl_Y p) base) eqn:E2; [|done]];
    injection H as <- <-; split_and!; try done; by apply sp_IsAsset_spec.
Qed.

Lemma OutputForInput_amm p base i o a :
  wf_spectrum_pool p -> sides p base = Some (i, o) -> is_u64 a ->
  OutputForInput p base a =
    if aa_Amount i * feeDenom + a * pl_FeeNum p =? 0 then None
    else Some (mkAssetAmount (aa_Class o) (amm_out (aa_Amount i) (aa_Amount o) (pl_FeeNum p) feeDenom a)).
Proof.
  intros Hp Hs Ha. destruct (sides_u64 _ _ _ _ Hp Hs) as (Hi & Ho & _). destruct Hp as [_ _ Hf].
  unfold OutputForInput. fold (sides p base). rewrite Hs, Z.add_0_r.
  destruct (Z.eqb_spec (aa_Amount i * feeDenom + a * pl_FeeNum p) 0); [done|].
  do 2 f_equal. unfold amm_out.
  replace (pl_FeeNum p * (aa_Amount o * a)) with (aa_Amount o * (a * pl_FeeNum p)) by lia.
  apply u64_small. unfold feeDenom in *.
  assert (0 < aa_Amount i * 1000 + a * pl_FeeNum p) by (int_unfold; nia).
  split; [apply Z.div_pos; int_unfold; nia|].
  apply Z.div_le_upper_bound; [done|]. int_unfold. nia.
Qed.

(** An ADA pair, with assets as a ledger has them: an empty policy id has no
    asset name. *)
Definition ada_pair (i o : AssetAmount) : Prop :=
  aa_IsLovelace i <> aa_IsLovelace o /\
  (length (contents (PolicyId (aa_Class i))) = 0%nat -> aa_IsLovelace i = true).

(** A pair of two different native tokens *)
Definition token_pair (i o : AssetAmount) : Prop :=
  aa_IsLovelace i = false /\ aa_IsLovelace o = false /\ ~ aa_Class i ≡ aa_Class o /\
  length (contents (PolicyId (aa_Class i))) <> 0%nat.

Lemma ada_pair_differ i o : ada_pair i o -> ~ aa_Class i ≡ aa_Class o.
Proof. intros [Hne _] E. destruct Hne. unfold aa_IsLovelace. by rewrite E. Qed.

Lemma aa_IsLovelace_class a c n : aa_Class a ≡ c -> aa_IsLovelace (mkAssetAmount c n) = aa_IsLovelace a.
Proof. intros H. unfold aa_IsLovelace. cbn. by rewrite H. Qed.

Lemma Asset_of_side p base i o :
  sides p base = Some (i, o) -> ~ aa_Class i ≡ aa_Class o ->
  Asset p base = i /\ Asset p (aa_Class o) = o.
Proof.
  intros Hs Hne. unfold sides, Asset in *.
  assert (forall x, x ≡@{AssetClass} aa_Class i -> ~ aa_Class o ≡ x) as Hno.
  { intros x Hx Ho. destruct Hne. by rewrite Ho, Hx. }
  destruct (sp_IsAsset (pl_X p) base) eqn:E1.
  - injection Hs as <- <-. split; [done|]. destruct (sp_IsAsset (pl_X p) (aa_Class (pl_Y p))) eqn:E2.
    + apply sp_IsAsset_spec in E2. by destruct (Hno (aa_Class (pl_X p)) (reflexivity _)).
    + by rewrite (proj2 (sp_IsAsset_spec (pl_Y p) (aa_Class (pl_Y p)))).
  - destruct (sp_IsAsset (pl_Y p) base) eqn:E2; [|done]. injection Hs as <- <-. split; [done|].
    by rewrite (proj2 (sp_IsAsset_spec (pl_X p) (aa_Class (pl_X p)))).
Qed.

Lemma uint64ToInt64_ok a b : 0 <= a -> uint64ToInt64 a = Ok b -> b = a /\ a <= MaxInt64.
Proof.
  intros Ha. unfold uint64ToInt64. destruct (Z.ltb_spec MaxInt64 a); [done|]. intros [= <-].
  split; [apply i64_small; int_lia | lia].
Qed.

Lemma int64_units_ok l l' :
  Forall (fun a => 0 <= aa_Amount a) l -> int64_units l = Ok l' -> l' = l.
Proof.
  intros Hl. revert l'. induction Hl as [|a l Ha _ IH]; intros l'; cbn [int64_units].
  - by intros [= <-].
  - intros (n & [-> _]%uint64ToInt64_ok & H)%bind_ok; [|done].
    apply bind_ok in H as (rest & ->%IH & [= <-]). by destruct a.
Qed.

Lemma utxoLovelace_u64 u coin : utxoLovelace u = Ok coin -> is_u64 coin.
Proof.
  unfold utxoLovelace. intros H. go_cases. bool_prop. int_lia.
Qed.

Lemma matcher_fee_u64 q n d : is_u64 (matcher_fee q n d).
Proof.
  unfold matcher_fee, float_Uint64. case_match; [int_lia|]. bool_prop.
  set (r := round_to _ _) in *. pose proof (Z.div_pos (Qnum r) (Zpos (Qden r)) ltac:(lia) ltac:(lia)).
  int_lia.
Qed.

(** What returns to the pool in an ADA pair. *)
Lemma return_to_pool p base a i o r :
  sides p base = Some (i, o) -> ada_pair i o -> aa_Amount i + a <= MaxUint64 ->
  0 <= aa_Amount i -> 0 <= a -> r <= aa_Amount o ->
  CalculateReturnToPool p (mkAssetAmount base a) (mkAssetAmount (aa_Class o) r) =
    Ok (if aa_IsLovelace i then aa_Amount i + a else aa_Amount o - r,
        [mkAssetAmount (pl_Id p) 1; pl_Lq p;
         if aa_IsLovelace i then mkAssetAmount (aa_Class o) (aa_Amount o - r)
         else mkAssetAmount (aa_Class i) (aa_Amount i + a)]).
Proof.
  intros Hs Hpair Hfit Hi Ha Hr.
  destruct (Asset_of_side _ _ _ _ Hs (ada_pair_differ _ _ Hpair)) as [Ei Eo].
  unfold CalculateReturnToPool. cbn [aa_Class aa_Amount]. rewrite Ei, Eo.
  rewrite (proj2 (Z.ltb_ge (aa_Amount o) r)) by lia. rewrite u64_small by int_lia.
  assert (forall x n, aa_IsLovelace (mkAssetAmount (aa_Class x) n) = aa_IsLovelace x) as Hl by done.
  rewrite !Hl. destruct Hpair as [Hne _].
  destruct (aa_IsLovelace i), (aa_IsLovelace o); done.
Qed.

(** For two tokens, neither reserve returns. *)
Lemma token_return_to_pool p base a i o r :
  sides p base = Some (i, o) -> token_pair i o -> r <= aa_Amount o ->
  CalculateReturnToPool p (mkAssetAmount base a) (mkAssetAmount (aa_Class o) r) =
    Ok (0, [mkAssetAmount (pl_Id p) 1; pl_Lq p]).
Proof.
  intros Hs (Hi & Ho & Hne & _) Hr. destruct (Asset_of_side _ _ _ _ Hs Hne) as [Ei Eo].
  unfold CalculateReturnToPool. cbn [aa_Class aa_Amount]. rewrite Ei, Eo.
  rewrite (proj2 (Z.ltb_ge (aa_Amount o) r)) by lia.
  unfold aa_IsLovelace in *. cbn [aa_Class]. by rewrite Hi, Ho.
Qed.

Lemma reward_bounds rin rout fn a :
  0 <= rin -> 0 <= rout -> 0 <= fn <= feeDenom -> 0 <= a -> rin * feeDenom + a * fn <> 0 ->
  let r := amm_out rin rout fn feeDenom a in
  0 <= r <= rout /\ rin * rout <= (rin + a) * (rout - r).
Proof.
  intros Hi Ho Hf Ha Hd r.
  destruct (Z.eq_dec rin 0) as [->|].
  - assert (r = rout) as Hr.
    { unfold r, amm_out. rewrite Z.mul_0_l, Z.add_0_l in *. by apply Z.div_mul. }
    rewrite Hr. lia.
  - destruct (Z.eq_dec rout 0) as [->|].
    + assert (r = 0) as -> by (unfold r, amm_out; rewrite Z.mul_0_l; apply Z.div_0_l; lia). lia.
    + assert (0 < feeDenom) by done.
      pose proof (amm_out_range rin rout fn feeDenom ltac:(lia) ltac:(lia) Hf ltac:(lia) a Ha).
      pose proof (amm_out_product rin rout fn feeDenom ltac:(lia) ltac:(lia) Hf ltac:(lia) a Ha).
      fold r in H0, H1. lia.
Qed.

(** The lovelace left over of the order after the fee, and after the base
    amount when it is paid in lovelace. *)
Lemma leftover_ok (ada : bool) leftover base x :
  (if ada then
     _ ← reject_if (leftover <? base) LeftoverBelowBase; Ok (leftover - base)
   else Ok leftover) = Ok x ->
  x = leftover - (if ada then base else 0) /\ (ada = true -> base <= leftover).
Proof.
  destruct ada.
  - intros ([] & E%reject_if_ok & [= <-])%bind_ok. bool_prop. split; [done|lia].
  - intros [= <-]. split; [lia|done].
Qed.

(** What a successful run of [swap_amounts] has checked and computed, once the
    reward and the return to the pool are known. *)
Lemma swap_amounts_inv p sc u class reward poolLovelace units out coin :
  OutputForInput p (sw_Base sc) (sw_BaseAmount sc) = Some (mkAssetAmount class reward) ->
  CalculateReturnToPool p (mkAssetAmount (sw_Base sc) (sw_BaseAmount sc)) (mkAssetAmount class reward)
    = Ok (poolLovelace, units) ->
  0 <= poolLovelace -> 0 <= reward -> 0 <= sw_BaseAmount sc ->
  Forall (fun a => 0 <= aa_Amount a) units ->
  utxoLovelace u = Ok coin -> swap_amounts p sc u = Ok out ->
  exists fee,
    let ada := IsLovelace class in
    let base := if Nat.eqb (length (contents (PolicyId (sw_Base sc)))) 0 then sw_BaseAmount sc else 0 in
    sw_MinQuoteAmount sc <= reward /\ 0 < reward /\ swapTxFee < fee /\ base <= coin - fee /\
    so_poolLovelace out = poolLovelace /\ so_poolUnits out = units /\
    so_rewardLovelace out = (if ada then reward else 0) + (coin - fee - base) /\
    so_rewardUnits out = (if ada then [] else [mkAssetAmount class reward]) /\
    so_matcherChange out = fee - swapTxFee.
Proof.
  intros EO EC Hpl Hr Hb Hu Hcoin. unfold swap_amounts. rewrite EO. cbn [aa_Amount aa_Class].
  intros ([] & E1%reject_if_ok & H)%bind_ok. apply bind_ok in H as ([rl ru] & Erl & H).
  apply bind_ok in H as ([] & E2%reject_if_ok & H). rewrite EC in H. cbn [mbind result_bind] in H.
  apply bind_ok in H as (us & ->%int64_units_ok & H); [|done].
  destruct (sw_FeePerTokenNum sc) as [num|]; [|done].
  destruct (sw_FeePerTokenDen sc) as [[|den|den]|]; try done.
  all: set (fee := matcher_fee _ _ _) in *; pose proof (matcher_fee_u64 (sw_MinQuoteAmount sc) num) as Hfee.
  all: rewrite Hcoin in H; cbn [mbind result_bind] in H.
  all: apply bind_ok in H as ([] & E3%reject_if_ok & H).
  all: apply bind_ok in H as (left & [-> Hle]%leftover_ok & H).
  all: apply bind_ok in H as ([] & E4%reject_if_ok & H); apply bind_ok in H as ([] & E5%reject_if_ok & H).
  all: bool_prop; apply utxoLovelace_u64 in Hcoin.
  all: assert (rl = (if IsLovelace class then reward else 0) /\
               ru = (if IsLovelace class then [] else [mkAssetAmount class reward])) as [-> ->]
    by (unfold aa_IsLovelace in Erl; cbn in Erl; destruct (IsLovelace class);
        [by injection Erl as <- <-|];
        apply bind_ok in Erl as (x & [-> _]%uint64ToInt64_ok & [= <- <-]); done).
  all: set (base := if Nat.eqb _ 0 then _ else 0) in *.
  all: assert (0 <= base /\ base <= coin - fee) as [Hb0 Hb1]
    by (unfold base; destruct (Nat.eqb (length (contents (PolicyId (sw_Base sc)))) 0);
        [split; [lia|by apply Hle]|lia]).
  all: assert (0 <= (if IsLovelace class then reward else 0)) by (case_match; lia).
  all: rewrite (u64_small ((if IsLovelace class then reward else 0) + _)) in H by (subst fee; int_lia).
  all: apply bind_ok in H as (x1 & [-> _]%uint64ToInt64_ok & H); [|done].
  all: apply bind_ok in H as (x2 & [-> _]%uint64ToInt64_ok & H); [|lia].
  all: apply bind_ok in H as (x3 & [-> _]%uint64ToInt64_ok & [= <-]); [|lia].
  all: exists fee; cbn [so_poolLovelace so_poolUnits so_rewardLovelace so_rewardUnits so_matcherChange].
  all: split_and!; (done || lia).
Qed.

(** The value of an ADA pair is conserved. *)
Lemma ada_swap_amounts p sc u i o out coin reward :
  wf_spectrum_pool p -> is_u64 (aa_Amount (pl_Lq p)) -> is_u64 (sw_BaseAmount sc) ->
  is_u64 (aa_Amount i) -> is_u64 (aa_Amount o) -> aa_Class i ≡ sw_Base sc ->
  sides p (sw_Base sc) = Some (i, o) -> ada_pair i o ->
  aa_Amount i + sw_BaseAmount sc <= MaxUint64 -> 0 <= reward <= aa_Amount o ->
  OutputForInput p (sw_Base sc) (sw_BaseAmount sc) = Some (mkAssetAmount (aa_Class o) reward) ->
  utxoLovelace u = Ok coin -> swap_amounts p sc u = Ok out ->
  so_poolLovelace out + so_rewardLovelace out + so_matcherChange out + swapTxFee =
    coin + (if aa_IsLovelace i then aa_Amount i else aa_Amount o) /\
  so_poolUnits out =
    [mkAssetAmount (pl_Id p) 1; pl_Lq p;
     if aa_IsLovelace i then mkAssetAmount (aa_Class o) (aa_Amount o - reward)
     else mkAssetAmount (aa_Class i) (aa_Amount i + sw_BaseAmount sc)] /\
  so_rewardUnits out = (if aa_IsLovelace i then [mkAssetAmount (aa_Class o) reward] else []) /\
  0 < so_matcherChange out /\ 0 <= so_rewardLovelace out.
Proof.
  intros Hp Hlq Hb Hi Ho Hbase Hs Hpair Hfit Hr EO Hcoin Hout.
  pose proof (return_to_pool p (sw_Base sc) (sw_BaseAmount sc) i o reward Hs Hpair Hfit
    ltac:(int_lia) ltac:(int_lia) ltac:(lia)) as EC.
  eapply swap_amounts_inv in Hout as (fee & Hmin & Hpos & Hfee & Hbase0 & E1 & E2 & E3 & E4 & E5);
    [|exact EO|exact EC| |lia|int_lia| |exact Hcoin].
  - rewrite E1, E2, E3, E4, E5. destruct Hpair as [Hne Hpol].
    assert (Nat.eqb (length (contents (PolicyId (sw_Base sc)))) 0 = aa_IsLovelace i) as Eada.
    { destruct Hbase as [<- _]. destruct (Nat.eqb_spec (length (contents (PolicyId (aa_Class i)))) 0)
        as [Hl|Hl]; [by rewrite Hpol|]. unfold aa_IsLovelace, IsLovelace.
      by rewrite (proj2 (Nat.eqb_neq _ _) Hl). }
    rewrite Eada in *. change (IsLovelace (aa_Class o)) with (aa_IsLovelace o).
    destruct (aa_IsLovelace i), (aa_IsLovelace o); try done; split_and!; (done || lia).
  - case_match; int_lia.
  - repeat constructor; cbn [aa_Amount]; [lia|int_lia|case_match; cbn [aa_Amount]; int_lia].
Qed.


(** Such a pair does occur as far as the code is concerned: the input side is found and
    the output side covers the reward. *)
Example token_pair_return_drops_reserves :
  exists p base amount reward,
    sides p base = Some (pl_X p, pl_Y p) /\ token_pair (pl_X p) (pl_Y p) /\
    aa_Amount (pl_X p) = 1000 /\ aa_Amount (pl_Y p) = 2000 /\
    OutputForInput p base amount = Some reward /\ 0 < aa_Amount reward /\
    CalculateReturnToPool p (mkAssetAmount base amount) reward =
      Ok (0, [mkAssetAmount (pl_Id p) 1; pl_Lq p]).
Proof.
  set (token b := mkAssetClass (Some [b]) (Some [b])).
  exists (mkPool (token x00) (mkAssetAmount (token x01) 1000) (mkAssetAmount (token x02) 2000)
            (mkAssetAmount (token x03) 5) 997), (token x01), 100,
    (mkAssetAmount (token x02) 181).
  split; [vm_compute; done|]. split; [|vm_compute; done].
  split_and!; [done | done | | discriminate]. intros [E _]. vm_compute in E. discriminate E.
Qed.

(** ** Collateral and inputs *)

(** The required collateral is the exact percentage of the fee rounded up,
    for every fee and percentage whose computation fits 64 bits, and an error
    otherwise; it never wraps. *)
Theorem requiredCollateralLovelace_exact percent fee :
  is_u64 fee -> 0 < percent <= MaxInt64 ->
  requiredCollateralLovelace percent fee =
    if decide (fee * percent + 99 <= MaxUint64) then Ok (- (- (fee * percent) / 100))
    else Err CollateralOverflow.
Proof.
  intros Hf Hp. unfold requiredCollateralLovelace.
  rewrite (proj2 (Z.leb_gt percent 0)) by lia.
  destruct (Z.ltb_spec ((MaxUint64 - 99) / percent) fee) as [Hlt|Hge].
  - rewrite decide_False; [done|]. intros Hle.
    assert (fee <= (MaxUint64 - 99) / percent) by (apply Z.div_le_lower_bound; lia). lia.
  - assert (fee * percent <= MaxUint64 - 99).
    { pose proof (Z.mul_div_le (MaxUint64 - 99) percent ltac:(lia)). nia. }
    rewrite decide_True by lia.
    assert (0 <= fee * percent) by (int_unfold; nia).
    rewrite (u64_small (fee * percent)) by (split; lia).
    rewrite u64_small by (split; lia). f_equal.
    pose proof (Z.div_mod (- (fee * percent)) 100). pose proof (Z.div_mod (fee * percent + 99) 100).
    pose proof (Z.mod_pos_bound (- (fee * percent)) 100). pose proof (Z.mod_pos_bound (fee * percent + 99) 100).
    lia.
Qed.

Definition eligible (minLovelace : Z) (u : Utxo) (amount : Z) : Prop :=
  collateral_amount minLovelace u = Some amount.

Lemma eligible_spec minLovelace u amount :
  eligible minLovelace u amount <->
  minLovelace <= amount /\ utxoLovelace u = Ok amount /\
  exists o, ut_output u = Some o /\ out_has_assets o = false /\
    (out_address_type o = AddressTypeKeyKey \/ out_address_type o = AddressTypeKeyNone).
Proof.
  unfold eligible, collateral_amount. split.
  - intros H. destruct (ut_output u) as [o|]; [|done]. destruct (out_has_assets o) eqn:Ea; [done|].
    destruct (_ && _) eqn:Et; [done|]. destruct (utxoLovelace u) as [a|]; [|done].
    destruct (Z.ltb_spec a minLovelace); [done|]. injection H as ->.
    split; [done|]. split; [done|]. exists o. split_and!; [done..|].
    apply andb_false_iff in Et as [Et|Et]; bool_prop; auto.
  - intros (Hm & Hu & o & -> & -> & Ht). rewrite Hu.
    assert (negb (out_address_type o =? AddressTypeKeyKey) &&
            negb (out_address_type o =? AddressTypeKeyNone) = false) as ->
      by (destruct Ht as [-> | ->]; reflexivity).
    by rewrite (proj2 (Z.ltb_ge amount minLovelace)).
Qed.

Lemma keep_smaller_spec {A} (f : A -> option Z) l :
  match foldl (keep_smaller f) None l with
  | Some (u, amount) => u ∈ l /\ f u = Some amount /\
      forall u' amount', u' ∈ l -> f u' = Some amount' -> amount <= amount'
  | None => forall u amount, u ∈ l -> f u <> Some amount
  end.
Proof.
  induction l as [|x l IH] using rev_ind; [intros u a Hu; by apply not_elem_of_nil in Hu|].
  rewrite foldl_app. cbn [foldl]. set (sel := foldl (keep_smaller f) None l) in *.
  assert (forall u, u ∈ l ++ [x] <-> u ∈ l \/ u = x) as Hin
    by (intros u; by rewrite elem_of_app, list_elem_of_singleton).
  unfold keep_smaller at 1.
  destruct (f x) as [a|] eqn:Ex, sel as [[u b]|]; cbn; [destruct (Z.ltb_spec a b)|..]; setoid_rewrite Hin.
  - destruct IH as (Hu & Hb & Hmin). split_and!; [by right|done|].
    intros u' c [Hu'| ->] Hc; [specialize (Hmin _ _ Hu' Hc); lia|]. naive_solver.
  - destruct IH as (Hu & Hb & Hmin). split_and!; [by left|done|].
    intros u' c [Hu'| ->] Hc; [by eapply Hmin|]. naive_solver.
  - split_and!; [by right|done|]. intros u' c [Hu'| ->] Hc; [by destruct (IH u' c)|]. naive_solver.
  - destruct IH as (Hu & Hb & Hmin). split_and!; [by left|done|]. naive_solver.
  - naive_solver.
Qed.

Lemma select_smallest_ok {A} (f : A -> option Z) l u :
  select_smallest f l = Ok u ->
  u ∈ l /\ exists amount, f u = Some amount /\
    forall u' amount', u' ∈ l -> f u' = Some amount' -> amount <= amount'.
Proof.
  unfold select_smallest. pose proof (keep_smaller_spec f l) as H.
  destruct (foldl _ _ _) as [[x a]|]; [|done]. intros [= <-]. destruct H as (Hu & Ha & Hmin).
  split; [done|]. by exists a.
Qed.

(** The collateral is the smallest eligible UTxO of the wallet, one that
    holds only lovelace, at least the minimum, at a key address; there is an
    error exactly when no UTxO is eligible. *)
Theorem selectCollateralUtxo_smallest utxos minLovelace :
  match selectCollateralUtxo utxos minLovelace with
  | Ok u => u ∈ utxos /\ exists amount, eligible minLovelace u amount /\
      forall u' amount', u' ∈ utxos -> eligible minLovelace u' amount' -> amount <= amount'
  | Err e => e = NoCollateral /\ forall u amount, u ∈ utxos -> ~ eligible minLovelace u amount
  end.
Proof.
  unfold selectCollateralUtxo. destruct (select_smallest _ _) as [u|e] eqn:E.
  - by apply select_smallest_ok.
  - unfold select_smallest in E. pose proof (keep_smaller_spec (collateral_amount minLovelace) utxos) as H.
    destruct (foldl _ _ _) as [[x a]|]; [done|]. by injection E as <-.
Qed.

Lemma index_from_spec k inputs r i :
  index_from k inputs r = i -> (i = -1 /\ r ∉ inputs) \/
  (k <= i /\ inputs !! Z.to_nat (i - k) = Some r).
Proof.
  revert k. induction inputs as [|x l IH]; intros k; cbn [index_from].
  - intros <-. left. split; [done|]. apply not_elem_of_nil.
  - case_bool_decide as E.
    + intros <-. right. subst x. rewrite Z.sub_diag. split; [lia|done].
    + intros H. destruct (IH _ H) as [[-> Hn]|[Hk Hl]].
      * left. split; [done|]. rewrite elem_of_cons. naive_solver.
      * right. split; [lia|]. replace (Z.to_nat (i - k)) with (S (Z.to_nat (i - (k + 1)))) by lia. done.
Qed.

(** A transaction whose inputs pass [validateSwapTxInputs] spends the pool
    and the order and nothing else, and the redeemers' indexes point at them:
    the input at the pool index is the pool's, the one at the order index the
    order's. *)
Theorem validateSwapTxInputs_sound inputs poolInput swapInput poolIdx swapIdx :
  poolInput <> swapInput ->
  validateSwapTxInputs inputs poolInput swapInput poolIdx swapIdx = Ok tt ->
  inputs ≡ₚ [poolInput; swapInput] /\
  inputs !! Z.to_nat poolIdx = Some poolInput /\ inputs !! Z.to_nat swapIdx = Some swapInput.
Proof.
  intros Hne. unfold validateSwapTxInputs. destruct (Nat.eqb_spec (length inputs) 2) as [Hl|]; [|done].
  cbn [negb]. unfold transactionInputIndex.
  destruct (index_from_spec 0 inputs poolInput _ eq_refl) as [[-> _]|[Hp Hpl]]; [done|].
  destruct (index_from_spec 0 inputs swapInput _ eq_refl) as [[-> _]|[Hs Hsl]];
    [by destruct (_ <? 0)|].
  rewrite (proj2 (Z.ltb_ge _ _) Hp), (proj2 (Z.ltb_ge _ _) Hs).
  destruct (_ || _) eqn:E; [done|]. bool_prop. subst. intros _. rewrite !Z.sub_0_r in *.
  split; [|done]. destruct inputs as [|a [|b [|]]]; try done.
  apply list_elem_of_lookup_2, elem_of_cons in Hpl as [->|Hpl];
    apply list_elem_of_lookup_2, elem_of_cons in Hsl as [->|Hsl]; try done.
  - apply list_elem_of_singleton in Hsl as ->. done.
  - apply list_elem_of_singleton in Hpl as ->. constructor.
  - apply list_elem_of_singleton in Hpl as ->, Hsl as ->. done.
Qed.

(** An order of amount zero against a pool whose reserve of the base asset is
    empty divides by zero. *)
Lemma OutputForInput_division_by_zero p base i o :
  wf_spectrum_pool p -> sides p base = Some (i, o) -> aa_Amount i = 0 ->
  OutputForInput p base 0 = None.
Proof.
  intros Hp Hs Hi. rewrite (OutputForInput_amm _ _ _ _ _ Hp Hs) by int_lia. by rewrite Hi.
Qed.

(** ** Witnesses: the order of the mainnet transaction quoted in the source *)

Definition ibtc : AssetClass := mkAssetClass (Some [xf6; x6d]) (Some [x69; x42; x54; x43]).
Definition sample_spectrum_pool : Pool :=
  mkPool (mkAssetClass (Some [xd8]) (Some [x4e]))
    (mkAssetAmount Lovelace 15052614004) (mkAssetAmount ibtc 144751)
    (mkAssetAmount (mkAssetClass (Some [x47]) (Some [x4c])) 9223372036808097915) 997.
Definition sample_order : SwapConfig :=
  mkSwapConfig Lovelace ibtc (mkAssetClass (Some [xd8]) (Some [x4e])) 997
    (Some 16129032258064517) (Some 1000000000000) (Some [x71]) (Some [x78]) 10000000 93.
Definition sample_order_utxo : Utxo :=
  mkUtxo ("7d0d"%string, 0) (Some (mkOutput false 7 (Some 12950770))).
Definition sample_outputs : swap_outputs :=
  mkOutputs 15062614004
    [mkAssetAmount (mkAssetClass (Some [xd8]) (Some [x4e])) 1;
     mkAssetAmount (mkAssetClass (Some [x47]) (Some [x4c])) 9223372036808097915;
     mkAssetAmount ibtc 144656]
    1450770 [mkAssetAmount ibtc 95] 1205000 1500000.


Lemma requiredCollateralLovelace_exact_witness :
  requiredCollateralLovelace 150 295000 = Ok 442500 /\
  requiredCollateralLovelace 150 MaxUint64 = Err CollateralOverflow.
Proof.
  split.
  - rewrite (requiredCollateralLovelace_exact 150 295000); [reflexivity | u64_closed | int_lia].
  - rewrite (requiredCollateralLovelace_exact 150 MaxUint64); [reflexivity | u64_closed | int_lia].
Defined.

Lemma validateSwapTxInputs_sound_witness :
  [("aa"%string, 0); ("bb"%string, 1)] !! Z.to_nat 1 = Some ("bb"%string, 1).
Proof.
  apply (validateSwapTxInputs_sound [("aa"%string, 0); ("bb"%string, 1)] ("bb"%string, 1) ("aa"%string, 0) 1 0).
  - done.
  - vm_compute. reflexivity.
Defined.
