(* ===== verification/Ledger.v ===== *)
(** * Ledger: what the pool parsers share.

    A transaction output is decoded by an external library; the parsers see its
    amount and, when it carries native assets, the policies, the names under a
    policy and the amount of an asset. [getAssetAmount] and the extraction of
    the reserves are the same code in the parsers of Minswap, SundaeSwap, Splash
    and CSwap, and are stated once here. [PoolParser] is the interface that every
    parser implements, with what its callers rely on. *)
From S2P Require Import Prelude.
From S2P Require Import Text.
From S2P Require Import Float64.
From S2P Require Import Common.
From S2P Require Import Pool.
From S2P Require Import Cbor.

(** ** Transaction outputs *)

(** The native assets of an output, by the methods the parsers call. *)
Record MultiAsset := mkMultiAsset {
  Policies : list (list byte);
  Assets : list byte -> list (list byte);
  Asset : list byte -> list byte -> Z;
}.

Record TransactionOutput := mkTransactionOutput {
  to_Amount : Z;
  to_Assets : option MultiAsset;
}.

Class Ledger := {
  value : Type;
  (** [ledger.NewTransactionOutputFromCbor] *)
  NewTransactionOutputFromCbor : value -> option TransactionOutput;
  (** decoding into a [map[string]uint64] *)
  decode_value_map : value -> option (gmap string Z);
}.

(** [big.Int.Uint64]: the low 64 bits. *)
Definition Uint64 (z : Z) : Z := u64 z.

(** The length of a [Blake2b224] hash. *)
Definition policyHashLength : nat := 28.

Inductive asset_amount_error :=
| MalformedAsset
| NoNativeAssets
| InvalidPolicyIdLength
| AssetNotFound.

(** The two nested loops over policies and names. *)
Fixpoint find_name (assets : MultiAsset) (policy assetName : list byte) (names : list (list byte))
  : option Z :=
  match names with
  | [] => None
  | name :: rest =>
      if bool_decide (name = assetName) then Some (Uint64 (Asset assets policy name))
      else find_name assets policy assetName rest
  end.

Fixpoint find_policy (assets : MultiAsset) (policyHash assetName : list byte)
    (policies : list (list byte)) : option Z :=
  match policies with
  | [] => None
  | policy :: rest =>
      if bool_decide (policy = policyHash) then
        match find_name assets policy assetName (Assets assets policy) with
        | Some amount => Some amount
        | None => find_policy assets policyHash assetName rest
        end
      else find_policy assets policyHash assetName rest
  end.

Definition getAssetAmount (txOut : TransactionOutput) (policyId assetName : option (list byte))
  : result asset_amount_error Z :=
  if Nat.eqb (length (contents policyId)) 0 then
    if negb (Nat.eqb (length (contents assetName)) 0) then Err MalformedAsset
    else Ok (Uint64 (to_Amount txOut))
  else
    match to_Assets txOut with
    | None => Err NoNativeAssets
    | Some assets =>
        if negb (Nat.eqb (length (contents policyId)) policyHashLength)
        then Err InvalidPolicyIdLength
        else
          match find_policy assets (contents policyId) (contents assetName) (Policies assets) with
          | Some amount => Ok amount
          | None => Err AssetNotFound
          end
    end.

Lemma find_name_spec m p n names :
  find_name m p n names = if decide (n ∈ names) then Some (Uint64 (Asset m p n)) else None.
Proof.
  induction names as [|x names IH]; [done|]. cbn [find_name].
  case_bool_decide as E; [subst x; by rewrite decide_True by set_solver|].
  rewrite IH. apply decide_ext. set_solver.
Qed.

Lemma find_policy_spec m p n policies :
  find_policy m p n policies =
  if decide (p ∈ policies /\ n ∈ Assets m p) then Some (Uint64 (Asset m p n)) else None.
Proof.
  induction policies as [|x policies IH]; cbn [find_policy].
  { rewrite decide_False; [done | set_solver]. }
  case_bool_decide as E; [subst x; rewrite find_name_spec|]; [destruct (decide (n ∈ Assets m p))|].
  - by rewrite decide_True by set_solver.
  - rewrite IH, !decide_False; [done | set_solver..].
  - rewrite IH. apply decide_ext. set_solver.
Qed.

(** The amount of an asset in an output: the lovelace amount for the empty
    policy and name, and otherwise the amount under its policy and name, found
    exactly when the output lists the policy and the name under it, whatever the
    order in which the library lists them. Every error states its cause. *)
Theorem getAssetAmount_exact txOut policyId assetName :
  let p := contents policyId in
  let n := contents assetName in
  match getAssetAmount txOut policyId assetName with
  | Ok amount =>
      (p = [] /\ n = [] /\ amount = Uint64 (to_Amount txOut)) \/
      exists m, to_Assets txOut = Some m /\ length p = policyHashLength /\
        p ∈ Policies m /\ n ∈ Assets m p /\ amount = Uint64 (Asset m p n)
  | Err MalformedAsset => p = [] /\ n <> []
  | Err NoNativeAssets => p <> [] /\ to_Assets txOut = None
  | Err InvalidPolicyIdLength => p <> [] /\ length p <> policyHashLength
  | Err AssetNotFound =>
      p <> [] /\ exists m, to_Assets txOut = Some m /\ ~ (p ∈ Policies m /\ n ∈ Assets m p)
  end.
Proof.
  intros p n. unfold getAssetAmount. fold p n.
  destruct (Nat.eqb_spec (length p) 0) as [Hp|Hp].
  - apply length_zero_iff_nil in Hp.
    destruct (Nat.eqb_spec (length n) 0) as [Hn|Hn]; cbn [negb].
    + apply length_zero_iff_nil in Hn. by left.
    + split; [done|]. by intros ->.
  - assert (p <> []) by (by intros ->). destruct (to_Assets txOut) as [m|] eqn:Hm; [|done].
    destruct (Nat.eqb_spec (length p) policyHashLength) as [Hl|Hl]; cbn [negb]; [|done].
    rewrite find_policy_spec. case_decide as Hd; [right | split; [done|]]; exists m; naive_solver.
Qed.

Lemma getAssetAmount_range txOut policyId assetName amount :
  getAssetAmount txOut policyId assetName = Ok amount -> is_u64 amount.
Proof.
  pose proof (getAssetAmount_exact txOut policyId assetName) as H. cbv zeta in H.
  intros E. rewrite E in H. destruct H as [(_ & _ & ->)|(m & _ & _ & _ & _ & ->)]; apply u64_range.
Qed.

Definition sample_assets : MultiAsset := {|
  Policies := [repeat x01 28];
  Assets _ := [[x55]];
  Asset _ _ := 250;
|}.

(** ** Parsed pools *)

Inductive parse_error :=
| DecodeDatum
| InvalidIdentifier
| FeeOverflow
| InvalidFee
| InvalidFeeDenominators
| DecodeOutput
| AmountOfX (e : asset_amount_error)
| AmountOfY (e : asset_amount_error)
| UnsupportedVersion
| DecodeValue
| NoAda
| InvalidAmountZero
| NoNFT
| MultipleNFTs
| NoToken
| MultipleTokens
| InvalidAssetId
| DivideByZeroPanic.  (** the runtime panic of an integer division by zero *)

#[export] Instance asset_amount_error_eq_dec : EqDecision asset_amount_error.
Proof. solve_decision. Defined.
#[export] Instance parse_error_eq_dec : EqDecision parse_error.
Proof. solve_decision. Defined.

(** The [PoolState] of a protocol package; each package declares the same
    struct. *)
Record ParsedPool := mkParsedPool {
  pp_PoolId : string;
  pp_Protocol : string;
  pp_AssetX : AssetAmount;
  pp_AssetY : AssetAmount;
  pp_FeeNum : Z;
  pp_FeeDenom : Z;
  pp_Slot : Z;
  pp_TxHash : string;
  pp_TxIndex : Z;
  pp_Timestamp : Z;
}.

(** The wrappers of package [dex] copy the fields into a [dex.PoolState]. *)
Definition wrap_state (state : ParsedPool) : PoolState :=
  mkPoolState (pp_PoolId state) "" (pp_Protocol state) (pp_AssetX state) (pp_AssetY state)
    (pp_FeeNum state) (pp_FeeDenom state) (pp_Slot state) "" (pp_TxHash state)
    (pp_TxIndex state) (pp_Timestamp state) 0 false.

(** [extractReservesFromValue] *)
Definition extractReservesFromValue `{Ledger} (utxoValue : value) (classX classY : AssetClass)
  : result parse_error (Z * Z) :=
  match NewTransactionOutputFromCbor utxoValue with
  | None => Err DecodeOutput
  | Some txOut =>
      reserveX ← map_err AmountOfX (getAssetAmount txOut (PolicyId classX) (Name classX));
      reserveY ← map_err AmountOfY (getAssetAmount txOut (PolicyId classY) (Name classY));
      Ok (reserveX, reserveY)
  end.

Lemma extractReserves_ok `{Ledger} utxoValue cx cy x y :
  extractReservesFromValue utxoValue cx cy = Ok (x, y) ->
  exists txOut, NewTransactionOutputFromCbor utxoValue = Some txOut /\
    getAssetAmount txOut (PolicyId cx) (Name cx) = Ok x /\
    getAssetAmount txOut (PolicyId cy) (Name cy) = Ok y.
Proof.
  unfold extractReservesFromValue. destruct (NewTransactionOutputFromCbor utxoValue) as [o|]; [|done].
  destruct (getAssetAmount o (PolicyId cx) (Name cx)) eqn:E1; [|done].
  destruct (getAssetAmount o (PolicyId cy) (Name cy)) eqn:E2; [|done].
  intros [= -> ->]. by exists o.
Qed.

Lemma extractReserves_range `{Ledger} utxoValue cx cy x y :
  extractReservesFromValue utxoValue cx cy = Ok (x, y) -> is_u64 x /\ is_u64 y.
Proof. intros (o & _ & Hx & Hy)%extractReserves_ok. split; by eapply getAssetAmount_range. Qed.

(** What a parser promises about the pool it returns. *)
Record sound_pool (protocol txHash : string) (txIndex slot timestamp : Z) (s : ParsedPool) : Prop := {
  sound_X : is_u64 (aa_Amount (pp_AssetX s));
  sound_Y : is_u64 (aa_Amount (pp_AssetY s));
  sound_fee : 0 <= pp_FeeNum s <= pp_FeeDenom s;
  sound_denom : 0 < pp_FeeDenom s <= MaxUint64;
  sound_meta : pp_Protocol s = protocol /\ pp_TxHash s = txHash /\ pp_TxIndex s = txIndex /\
               pp_Slot s = slot /\ pp_Timestamp s = timestamp;
}.

(** [dex.PoolParser], with the contract that its implementations discharge. *)
Class PoolParser `{Cbor, Ledger} := {
  Protocol : string;
  ParsePoolDatum : raw -> value -> string -> Z -> Z -> Z -> result parse_error ParsedPool;
  ParsePoolDatum_sound : forall datum utxoValue txHash txIndex slot timestamp s,
    ParsePoolDatum datum utxoValue txHash txIndex slot timestamp = Ok s ->
    sound_pool Protocol txHash txIndex slot timestamp s;
}.

(** The wrapper of a parser in package [dex]. *)
Definition dex_ParsePoolDatum `{PoolParser} (datum : raw) (utxoValue : value) (txHash : string)
    (txIndex slot timestamp : Z) : result parse_error PoolState :=
  match ParsePoolDatum datum utxoValue txHash txIndex slot timestamp with
  | Err e => Err e
  | Ok state => Ok (wrap_state state)
  end.

Lemma dex_ParsePoolDatum_ok `{PoolParser} datum utxoValue txHash txIndex slot timestamp p :
  dex_ParsePoolDatum datum utxoValue txHash txIndex slot timestamp = Ok p ->
  exists s, p = wrap_state s /\ sound_pool Protocol txHash txIndex slot timestamp s.
Proof.
  unfold dex_ParsePoolDatum.
  destruct (ParsePoolDatum _ _ _ _ _ _) eqn:E; [|done]. intros [= <-]. eexists; split; [done|].
  by eapply ParsePoolDatum_sound.
Qed.

(** ** Pool identifiers *)

Definition dot : string := ".".
Definition underscore : string := "_".
Definition asset_text (policy name : option (list byte)) : string :=
  EncodeToString policy +:+ dot +:+ EncodeToString name.
(** ["<prefix>_%s.%s_%s.%s"] *)
Definition pair_id (prefix : string) (policyA nameA policyB nameB : option (list byte)) : string :=
  prefix +:+ underscore +:+ EncodeToString policyA +:+ dot +:+ EncodeToString nameA +:+ underscore +:+
  EncodeToString policyB +:+ dot +:+ EncodeToString nameB.

Lemma hex_free c s : hex_value c = None -> char_free c (EncodeToString s) = true.
Proof. apply char_free_hex. Qed.

Lemma asset_text_inj p n p' n' :
  asset_text p n = asset_text p' n' -> mkAssetClass p n ≡ mkAssetClass p' n'.
Proof.
  intros H. apply append_sep_inj in H as [Hp Hn]; [|by apply hex_free..].
  split; by apply EncodeToString_inj.
Qed.

Lemma pair_id_inj prefix pA nA pB nB pA' nA' pB' nB' :
  pair_id prefix pA nA pB nB = pair_id prefix pA' nA' pB' nB' <->
  mkAssetClass pA nA ≡ mkAssetClass pA' nA' /\ mkAssetClass pB nB ≡ mkAssetClass pB' nB'.
Proof.
  unfold pair_id. split.
  - intros H. do 2 apply append_inj_l in H.
    apply append_sep_inj in H as [HpA H]; [|by apply hex_free..].
    apply append_sep_inj in H as [HnA H]; [|by apply hex_free..].
    split; [split; by apply EncodeToString_inj | by apply asset_text_inj].
  - intros [[HpA HnA] [HpB HnB]]. cbn [PolicyId Name] in *. unfold EncodeToString. congruence.
Qed.

(** ** A concrete ledger *)

(** An output and the map of its value, as one value. *)
#[export] Instance sample_ledger : Ledger := {|
  value := TransactionOutput * gmap string Z;
  NewTransactionOutputFromCbor v := Some v.1;
  decode_value_map v := Some v.2;
|}.
