(* ===== verification/Minswap.v ===== *)
(** * Minswap: pool datums of Minswap V1 and V2 ([dex/minswap], [dex/minswap.go]). *)
From S2P Require Import Prelude.
From S2P Require Import Text.
From S2P Require Import Common.
From S2P Require Import Cbor.
From S2P Require Import Ledger.

Definition ProtocolName : string := "minswap".
Definition FeeDenom : Z := 10000.

(** ** Datum types ([models.go]) *)

Record Asset := mkAsset {
  as_PolicyId : option (list byte);
  as_AssetName : option (list byte);
}.

Record Credential := mkCredential {
  cr_Type : Z;
  cr_Hash : option (list byte);
}.

Record BaseFee := mkBaseFee {
  FeeANumerator : Z;
  FeeBNumerator : Z;
}.

Record FeeSharing := mkFeeSharing {
  fs_IsPresent : bool;
  FeeTo : option (list byte);
  FeeToDatumHash : option (list byte);
}.

Record OptionalUint64 := mkOptionalUint64 {
  ou_IsPresent : bool;
  ou_Value : Z;
}.

Record V2PoolDatum := mkV2PoolDatum {
  v2_StakeCredential : Credential;
  v2_AssetA : Asset;
  v2_AssetB : Asset;
  v2_TotalLiquidity : Z;
  v2_ReserveA : Z;
  v2_ReserveB : Z;
  v2_BaseFee : BaseFee;
  v2_FeeSharingNumerator : OptionalUint64;
  v2_AllowDynamicFee : bool;
}.

Record V1PoolDatum := mkV1PoolDatum {
  v1_AssetA : Asset;
  v1_AssetB : Asset;
  v1_TotalLiquidity : Z;
  v1_RootKLast : Z;
  v1_FeeSharing : FeeSharing;
}.

Definition ToCommonAssetClass (a : Asset) : AssetClass :=
  mkAssetClass (as_PolicyId a) (as_AssetName a).

(** ** Decoding

    Each definition is the [UnmarshalCBOR] method of its type; [None] is any
    decoding error, which the parser reports as one error. *)
Section Decode.
Context `{Cbor}.

(** [Bool.UnmarshalCBOR] *)
Definition Bool_UnmarshalCBOR (d : raw) : option bool :=
  '(tag, _) ← decode_constructor d;
  if tag =? 0 then Some false
  else if tag =? 1 then Some true
  else None.

Definition Asset_UnmarshalCBOR (d : raw) : option Asset :=
  fields ← untagged_struct d 2;
  match fields with
  | [f0; f1] =>
      policyId ← decode_bytes f0;
      assetName ← decode_bytes f1;
      Some (mkAsset policyId assetName)
  | _ => None
  end.

Definition Credential_UnmarshalCBOR (d : raw) : option Credential :=
  '(tag, body) ← decode_constructor d;
  if negb (tag =? 0) && negb (tag =? 1) then None
  else
    fields ← struct_fields body 1;
    match fields with
    | [f0] => hash ← decode_bytes f0; Some (mkCredential tag hash)
    | _ => None
    end.

Definition BaseFee_UnmarshalCBOR (d : raw) : option BaseFee :=
  fields ← untagged_struct d 2;
  match fields with
  | [f0; f1] =>
      feeA ← decode_uint f0;
      feeB ← decode_uint f1;
      Some (mkBaseFee feeA feeB)
  | _ => None
  end.

Definition FeeSharing_UnmarshalCBOR (d : raw) : option FeeSharing :=
  '(tag, body) ← decode_constructor d;
  if tag =? 1 then Some (mkFeeSharing false None None)
  else if tag =? 0 then
    fields ← struct_fields body 2;
    match fields with
    | [f0; f1] =>
        feeTo ← decode_bytes f0;
        feeToDatumHash ← decode_bytes f1;
        Some (mkFeeSharing true feeTo feeToDatumHash)
    | _ => None
    end
  else None.

Definition OptionalUint64_UnmarshalCBOR (d : raw) : option OptionalUint64 :=
  '(tag, body) ← decode_constructor d;
  if tag =? 0 then
    fields ← struct_fields body 1;
    match fields with
    | [f0] => v ← decode_uint f0; Some (mkOptionalUint64 true v)
    | _ => None
    end
  else if tag =? 1 then Some (mkOptionalUint64 false 0)
  else None.

Definition V1PoolDatum_UnmarshalCBOR (d : raw) : option V1PoolDatum :=
  fields ← tagged_struct d 0 5;
  match fields with
  | [f0; f1; f2; f3; f4] =>
      assetA ← Asset_UnmarshalCBOR f0;
      assetB ← Asset_UnmarshalCBOR f1;
      totalLiquidity ← decode_uint f2;
      rootKLast ← decode_uint f3;
      feeSharing ← FeeSharing_UnmarshalCBOR f4;
      Some (mkV1PoolDatum assetA assetB totalLiquidity rootKLast feeSharing)
  | _ => None
  end.

Definition V2PoolDatum_UnmarshalCBOR (d : raw) : option V2PoolDatum :=
  fields ← tagged_struct d 0 9;
  match fields with
  | [f0; f1; f2; f3; f4; f5; f6; f7; f8] =>
      stakeCredential ← Credential_UnmarshalCBOR f0;
      assetA ← Asset_UnmarshalCBOR f1;
      assetB ← Asset_UnmarshalCBOR f2;
      totalLiquidity ← decode_uint f3;
      reserveA ← decode_uint f4;
      reserveB ← decode_uint f5;
      baseFee ← BaseFee_UnmarshalCBOR f6;
      feeSharingNumerator ← OptionalUint64_UnmarshalCBOR f7;
      allowDynamicFee ← Bool_UnmarshalCBOR f8;
      Some (mkV2PoolDatum stakeCredential assetA assetB totalLiquidity reserveA reserveB
              baseFee feeSharingNumerator allowDynamicFee)
  | _ => None
  end.
End Decode.

(** ** Parsing ([parser.go]) *)

Definition GeneratePoolId (policyA nameA policyB nameB : option (list byte)) : string :=
  pair_id ProtocolName policyA nameA policyB nameB.

(** The protocol name of a parser of the given version. *)
Definition protocol_name (version : Z) : string :=
  if version =? 1 then ProtocolName +:+ "-v1" else ProtocolName +:+ "-v2".

Definition asset_pool_id (a b : Asset) : string :=
  GeneratePoolId (as_PolicyId a) (as_AssetName a) (as_PolicyId b) (as_AssetName b).

Section Parse.
Context `{Cbor, Ledger}.

Definition parseV1Datum (version : Z) (datum : raw) (utxoValue : value) (txHash : string)
    (txIndex slot timestamp : Z) : result parse_error ParsedPool :=
  match V1PoolDatum_UnmarshalCBOR datum with
  | None => Err DecodeDatum
  | Some poolDatum =>
      let assetA := ToCommonAssetClass (v1_AssetA poolDatum) in
      let assetB := ToCommonAssetClass (v1_AssetB poolDatum) in
      '(reserveA, reserveB) ← extractReservesFromValue utxoValue assetA assetB;
      Ok (mkParsedPool (asset_pool_id (v1_AssetA poolDatum) (v1_AssetB poolDatum))
            (protocol_name version) (mkAssetAmount assetA reserveA) (mkAssetAmount assetB reserveB)
            9970 FeeDenom slot txHash txIndex timestamp)
  end.

(** The average of the two fees, or why there is none. *)
Definition average_fee (feeA feeB : Z) : result parse_error Z :=
  if MaxUint64 - feeB <? feeA then Err FeeOverflow
  else
    let avgFee := u64 (feeA + feeB) / 2 in
    if FeeDenom <? avgFee then Err InvalidFee else Ok avgFee.

Definition parseV2Datum (version : Z) (datum : raw) (txHash : string) (txIndex slot timestamp : Z)
  : result parse_error ParsedPool :=
  match V2PoolDatum_UnmarshalCBOR datum with
  | None => Err DecodeDatum
  | Some poolDatum =>
      let feeA := FeeANumerator (v2_BaseFee poolDatum) in
      let feeB := FeeBNumerator (v2_BaseFee poolDatum) in
      avgFee ← average_fee feeA feeB;
      Ok (mkParsedPool (asset_pool_id (v2_AssetA poolDatum) (v2_AssetB poolDatum))
            (protocol_name version)
            (mkAssetAmount (ToCommonAssetClass (v2_AssetA poolDatum)) (v2_ReserveA poolDatum))
            (mkAssetAmount (ToCommonAssetClass (v2_AssetB poolDatum)) (v2_ReserveB poolDatum))
            (FeeDenom - avgFee) FeeDenom slot txHash txIndex timestamp)
  end.

(** [Parser.ParsePoolDatum] *)
Definition minswap_ParsePoolDatum (version : Z) (datum : raw) (utxoValue : value) (txHash : string)
    (txIndex slot timestamp : Z) : result parse_error ParsedPool :=
  if version =? 1 then parseV1Datum version datum utxoValue txHash txIndex slot timestamp
  else parseV2Datum version datum txHash txIndex slot timestamp.
End Parse.

(** ** Properties *)

Lemma average_fee_ok feeA feeB avg :
  is_u64 feeA -> is_u64 feeB -> average_fee feeA feeB = Ok avg ->
  avg = (feeA + feeB) / 2 /\ 0 <= avg <= FeeDenom.
Proof.
  intros Ha Hb. unfold average_fee, FeeDenom. go_cases; try done. intros [= <-]. bool_prop.
  rewrite u64_small in * by int_lia. split; [done|]. split; [apply Z.div_pos; int_lia | done].
Qed.

Section Facts.
Context `{C : Cbor, L : Ledger, R : !CborRange C}.

Lemma BaseFee_range d f :
  BaseFee_UnmarshalCBOR d = Some f -> is_u64 (FeeANumerator f) /\ is_u64 (FeeBNumerator f).
Proof. unfold BaseFee_UnmarshalCBOR. intros E. decode_inv. split; by eapply decode_uint_range. Qed.

Lemma V2PoolDatum_range d p :
  V2PoolDatum_UnmarshalCBOR d = Some p ->
  is_u64 (v2_ReserveA p) /\ is_u64 (v2_ReserveB p) /\
  is_u64 (FeeANumerator (v2_BaseFee p)) /\ is_u64 (FeeBNumerator (v2_BaseFee p)).
Proof.
  unfold V2PoolDatum_UnmarshalCBOR. intros E. decode_inv. cbn.
  split; [|split]; [by eapply decode_uint_range.. | by eapply BaseFee_range].
Qed.

#[export, program] Instance MinswapV1 : PoolParser :=
  {| Protocol := protocol_name 1; ParsePoolDatum := minswap_ParsePoolDatum 1 |}.
Next Obligation.
  intros datum utxoValue txHash txIndex slot timestamp s. unfold minswap_ParsePoolDatum, parseV1Datum.
  cbn [Z.eqb Pos.eqb]. destruct (V1PoolDatum_UnmarshalCBOR datum); [|done].
  intros ([x y] & Hr & [= <-])%bind_ok. apply extractReserves_range in Hr as [Hx Hy].
  split; cbn; try done; unfold FeeDenom; int_lia.
Qed.

#[export, program] Instance MinswapV2 : PoolParser :=
  {| Protocol := protocol_name 2; ParsePoolDatum := minswap_ParsePoolDatum 2 |}.
Next Obligation.
  intros datum utxoValue txHash txIndex slot timestamp s. unfold minswap_ParsePoolDatum, parseV2Datum.
  cbn [Z.eqb Pos.eqb]. destruct (V2PoolDatum_UnmarshalCBOR datum) as [p|] eqn:E; [|done].
  apply V2PoolDatum_range in E as (HA & HB & Hfa & Hfb).
  intros (avg & Hr & [= <-])%bind_ok. apply average_fee_ok in Hr as [-> Havg]; [|done..].
  split; cbn; try done; unfold FeeDenom in *; int_lia.
Qed.
End Facts.

(** The identifier of a Minswap pool identifies its ordered pair of assets. *)
Theorem GeneratePoolId_identifies_pair a b a' b' :
  asset_pool_id a b = asset_pool_id a' b' <->
  ToCommonAssetClass a ≡ ToCommonAssetClass a' /\ ToCommonAssetClass b ≡ ToCommonAssetClass b'.
Proof. apply pair_id_inj. Qed.

(** ** Datums in the contract's format *)
Section Encode.
Context `{C : Cbor, L : Ledger, S : !CborSyntax C}.

Definition encode_asset (a : Asset) : raw :=
  constr 0 [bytestring (contents (as_PolicyId a)); bytestring (contents (as_AssetName a))].
Definition encode_bool (b : bool) : raw := constr (if b then 1 else 0) [].
Definition encode_optional (o : OptionalUint64) : raw :=
  if ou_IsPresent o then constr 0 [uint (ou_Value o)] else constr 1 [].
Definition encode_credential (c : Credential) : raw :=
  constr (cr_Type c) [bytestring (contents (cr_Hash c))].
Definition encode_v2 (d : V2PoolDatum) : raw :=
  constr 0
    [encode_credential (v2_StakeCredential d); encode_asset (v2_AssetA d); encode_asset (v2_AssetB d);
     uint (v2_TotalLiquidity d); uint (v2_ReserveA d); uint (v2_ReserveB d);
     constr 0 [uint (FeeANumerator (v2_BaseFee d)); uint (FeeBNumerator (v2_BaseFee d))];
     encode_optional (v2_FeeSharingNumerator d); encode_bool (v2_AllowDynamicFee d)].

(** The values that the format can express. *)
Record encodable_v2 (d : V2PoolDatum) : Prop := {
  en_credential : (cr_Type (v2_StakeCredential d) = 0 \/ cr_Type (v2_StakeCredential d) = 1) /\
                  is_Some (cr_Hash (v2_StakeCredential d));
  en_assets : Forall (fun a => is_Some (as_PolicyId a) /\ is_Some (as_AssetName a))
                [v2_AssetA d; v2_AssetB d];
  en_words : Forall is_u64
               [v2_TotalLiquidity d; v2_ReserveA d; v2_ReserveB d; FeeANumerator (v2_BaseFee d);
                FeeBNumerator (v2_BaseFee d); ou_Value (v2_FeeSharingNumerator d)];
  en_absent : ou_IsPresent (v2_FeeSharingNumerator d) = false ->
              ou_Value (v2_FeeSharingNumerator d) = 0;
}.

Lemma decode_asset a :
  is_Some (as_PolicyId a) /\ is_Some (as_AssetName a) -> Asset_UnmarshalCBOR (encode_asset a) = Some a.
Proof.
  destruct a as [p n]. cbn. intros [[p' ->] [n' ->]]. unfold Asset_UnmarshalCBOR, encode_asset. cbn.
  by repeat decode_step.
Qed.

Lemma decode_credential c :
  cr_Type c = 0 \/ cr_Type c = 1 -> is_Some (cr_Hash c) ->
  Credential_UnmarshalCBOR (encode_credential c) = Some c.
Proof.
  destruct c as [t h]. cbn. intros Ht [h' ->]. unfold Credential_UnmarshalCBOR, encode_credential. cbn.
  destruct (decode_constr t [bytestring h']) as (body & -> & Hb); [lia|]. cbn [mbind option_bind].
  unfold struct_fields. rewrite Hb. cbn [mbind option_bind length Nat.eqb].
  destruct Ht as [-> | ->]; cbn; by rewrite decode_bytes_bytestring.
Qed.

Lemma decode_optional o :
  is_u64 (ou_Value o) -> (ou_IsPresent o = false -> ou_Value o = 0) ->
  OptionalUint64_UnmarshalCBOR (encode_optional o) = Some o.
Proof.
  destruct o as [[] v]; cbn; intros Hv H0; unfold OptionalUint64_UnmarshalCBOR, encode_optional; cbn.
  - destruct (decode_constr 0 [uint v]) as (body & -> & Hb); [lia|]. cbn [mbind option_bind Z.eqb].
    unfold struct_fields. rewrite Hb. cbn. by rewrite decode_uint_uint.
  - destruct (decode_constr 1 []) as (body & -> & Hb); [lia|]. cbn. by rewrite H0.
Qed.

Lemma decode_bool b : Bool_UnmarshalCBOR (encode_bool b) = Some b.
Proof.
  unfold Bool_UnmarshalCBOR, encode_bool.
  destruct b; edestruct decode_constr as (body & -> & _); done.
Qed.

Lemma decode_v2 d : encodable_v2 d -> V2PoolDatum_UnmarshalCBOR (encode_v2 d) = Some d.
Proof.
  intros [[Ht Hh] Ha Hw H0]. rewrite !Forall_cons in Ha. rewrite !Forall_cons in Hw.
  destruct Ha as (HA & HB & _), Hw as (? & ? & ? & ? & ? & ? & _).
  unfold V2PoolDatum_UnmarshalCBOR, encode_v2. decode_step.
  rewrite decode_credential by done. cbn [mbind option_bind].
  rewrite !decode_asset by done. cbn [mbind option_bind].
  repeat decode_step. unfold BaseFee_UnmarshalCBOR. repeat decode_step.
  rewrite decode_optional by done. cbn [mbind option_bind]. rewrite decode_bool. cbn.
  by destruct d as [? ? ? ? ? ? [] ? ?].
Qed.

(** A Minswap V2 datum in the contract's format is accepted exactly when its
    average fee is at most one, and the pool then carries its two assets, its two
    reserves and the complement of the average fee, whatever the sizes of the two
    fees; the output's value is not consulted. *)
Theorem parse_v2_datum d utxoValue txHash txIndex slot timestamp :
  encodable_v2 d ->
  minswap_ParsePoolDatum 2 (encode_v2 d) utxoValue txHash txIndex slot timestamp =
  let fee := FeeANumerator (v2_BaseFee d) + FeeBNumerator (v2_BaseFee d) in
  if MaxUint64 <? fee then Err FeeOverflow
  else if FeeDenom <? fee / 2 then Err InvalidFee
  else Ok (mkParsedPool (asset_pool_id (v2_AssetA d) (v2_AssetB d)) "minswap-v2"
             (mkAssetAmount (ToCommonAssetClass (v2_AssetA d)) (v2_ReserveA d))
             (mkAssetAmount (ToCommonAssetClass (v2_AssetB d)) (v2_ReserveB d))
             (FeeDenom - fee / 2) FeeDenom slot txHash txIndex timestamp).
Proof.
  intros Hd. unfold minswap_ParsePoolDatum, parseV2Datum. cbn [Z.eqb Pos.eqb].
  rewrite decode_v2 by done. destruct Hd as [_ _ Hw _]. rewrite !Forall_cons in Hw.
  destruct Hw as (_ & _ & _ & HA & HB & _). cbv zeta.
  set (fa := FeeANumerator _) in *. set (fb := FeeBNumerator _) in *. unfold average_fee.
  destruct (Z.ltb_spec (MaxUint64 - fb) fa), (Z.ltb_spec MaxUint64 (fa + fb)); try int_lia; [done|].
  rewrite u64_small by int_lia. by destruct (FeeDenom <? (fa + fb) / 2).
Qed.
End Encode.

(** ** Concrete inputs *)

Definition sample_v2 : V2PoolDatum :=
  mkV2PoolDatum (mkCredential 1 (Some [x0a])) (mkAsset (Some []) (Some []))
    (mkAsset (Some [x01; x02]) (Some [x55])) 1000 2000000 3000000 (mkBaseFee 30 50)
    (mkOptionalUint64 true 1666) false.

Lemma encodable_sample_v2 : encodable_v2 sample_v2.
Proof.
  split; cbn; [split; [by right | by eexists] | | | done].
  - repeat constructor; by eexists.
  - repeat constructor; done.
Qed.

Lemma parse_v2_datum_witness :
  minswap_ParsePoolDatum 2 (encode_v2 sample_v2) (mkTransactionOutput 0 None, ∅) "tx" 0 7 9 =
  Ok (mkParsedPool "minswap_._0102.55" "minswap-v2"
        (mkAssetAmount (mkAssetClass (Some []) (Some [])) 2000000)
        (mkAssetAmount (mkAssetClass (Some [x01; x02]) (Some [x55])) 3000000)
        9960 10000 7 "tx" 0 9).
Proof. exact (parse_v2_datum sample_v2 _ "tx" 0 7 9 encodable_sample_v2). Defined.
