(* ===== verification/SundaeSwap.v ===== *)
(** * SundaeSwap: pool datums of SundaeSwap V1 and V3 ([dex/sundaeswap], [dex/sundaeswap.go]). *)
From S2P Require Import Prelude.
From S2P Require Import Text.
From S2P Require Import Common.
From S2P Require Import Cbor.
From S2P Require Import Ledger.

Definition ProtocolName : string := "sundaeswap".
Definition FeeDenom : Z := 10000.
Definition V1DefaultFee : Z := 30.
Definition V1PoolIdentLength : nat := 28.

(** ** Datum types ([models.go]) *)

Record V1AssetClass := mkV1AssetClass {
  a1_PolicyId : option (list byte);
  a1_AssetName : option (list byte);
}.

Record V1PoolDatum := mkV1PoolDatum {
  v1_Ident : option (list byte);
  v1_AssetA : V1AssetClass;
  v1_AssetB : V1AssetClass;
  v1_CirculatingLp : Z;
  v1_FeeNumerator : Z;
}.

Record V3AssetClass := mkV3AssetClass {
  a3_PolicyId : option (list byte);
  a3_AssetName : option (list byte);
}.

Record Assets := mkAssets {
  AssetA : V3AssetClass;
  AssetB : V3AssetClass;
}.

Record Fees := mkFees {
  Numerator : Z;
  Denominator : Z;
}.

Record MultisigScript := mkMultisigScript {
  ms_Constructor : Z;
  ms_Signature : option (list byte);
}.

Record OptionalMultisigScript := mkOptionalMultisigScript {
  oms_IsPresent : bool;
  oms_Value : option MultisigScript;
}.

Record V3PoolDatum := mkV3PoolDatum {
  v3_Identifier : option (list byte);
  v3_Assets : Assets;
  v3_CirculatingLp : Z;
  v3_BidFeesPer10Thousand : Fees;
  v3_AskFeesPer10Thousand : Fees;
  v3_FeeManager : OptionalMultisigScript;
  v3_MarketOpen : Z;
  v3_FeeFinalized : Z;
  v3_ProtocolFees : Z;
}.

Definition v1_ToCommonAssetClass (a : V1AssetClass) : AssetClass :=
  mkAssetClass (a1_PolicyId a) (a1_AssetName a).
Definition v3_ToCommonAssetClass (a : V3AssetClass) : AssetClass :=
  mkAssetClass (a3_PolicyId a) (a3_AssetName a).

(** ** Decoding

    V1 datums wrap their structs in constructors; V3 datums are plain lists. A
    script keeps its raw message in the source; only the parts that are decoded
    are kept here. *)
Section Decode.
Context `{Cbor}.

Definition V1AssetClass_UnmarshalCBOR (d : raw) : option V1AssetClass :=
  fields ← tagged_struct d 0 2;
  match fields with
  | [f0; f1] =>
      policyId ← decode_bytes f0;
      assetName ← decode_bytes f1;
      Some (mkV1AssetClass policyId assetName)
  | _ => None
  end.

Definition V1PoolDatum_UnmarshalCBOR (d : raw) : option V1PoolDatum :=
  fields ← tagged_struct d 0 5;
  match fields with
  | [f0; f1; f2; f3; f4] =>
      ident ← decode_bytes f0;
      assetA ← V1AssetClass_UnmarshalCBOR f1;
      assetB ← V1AssetClass_UnmarshalCBOR f2;
      circulatingLp ← decode_uint f3;
      feeNumerator ← decode_uint f4;
      Some (mkV1PoolDatum ident assetA assetB circulatingLp feeNumerator)
  | _ => None
  end.

Definition AssetClass_UnmarshalCBOR (d : raw) : option V3AssetClass :=
  fields ← struct_fields d 2;
  match fields with
  | [f0; f1] =>
      policyId ← decode_bytes f0;
      assetName ← decode_bytes f1;
      Some (mkV3AssetClass policyId assetName)
  | _ => None
  end.

Definition Assets_UnmarshalCBOR (d : raw) : option Assets :=
  fields ← struct_fields d 2;
  match fields with
  | [f0; f1] =>
      assetA ← AssetClass_UnmarshalCBOR f0;
      assetB ← AssetClass_UnmarshalCBOR f1;
      Some (mkAssets assetA assetB)
  | _ => None
  end.

Definition Fees_UnmarshalCBOR (d : raw) : option Fees :=
  fields ← struct_fields d 2;
  match fields with
  | [f0; f1] =>
      numerator ← decode_uint f0;
      denominator ← decode_uint f1;
      Some (mkFees numerator denominator)
  | _ => None
  end.

Definition MultisigScript_UnmarshalCBOR (d : raw) : option MultisigScript :=
  '(tag, body) ← decode_constructor d;
  if tag =? 0 then
    fields ← struct_fields body 1;
    match fields with
    | [f0] => pubKeyHash ← decode_bytes f0; Some (mkMultisigScript tag pubKeyHash)
    | _ => None
    end
  else if (1 <=? tag) && (tag <=? 5) then Some (mkMultisigScript tag None)
  else None.

Definition OptionalMultisigScript_UnmarshalCBOR (d : raw) : option OptionalMultisigScript :=
  '(tag, body) ← decode_constructor d;
  if tag =? 0 then
    fields ← struct_fields body 1;
    match fields with
    | [f0] =>
        script ← MultisigScript_UnmarshalCBOR f0;
        Some (mkOptionalMultisigScript true (Some script))
    | _ => None
    end
  else if tag =? 1 then Some (mkOptionalMultisigScript false None)
  else None.

Definition V3PoolDatum_UnmarshalCBOR (d : raw) : option V3PoolDatum :=
  fields ← struct_fields d 9;
  match fields with
  | [f0; f1; f2; f3; f4; f5; f6; f7; f8] =>
      identifier ← decode_bytes f0;
      assets ← Assets_UnmarshalCBOR f1;
      circulatingLp ← decode_uint f2;
      bidFees ← Fees_UnmarshalCBOR f3;
      askFees ← Fees_UnmarshalCBOR f4;
      feeManager ← OptionalMultisigScript_UnmarshalCBOR f5;
      marketOpen ← decode_uint f6;
      feeFinalized ← decode_uint f7;
      protocolFees ← decode_uint f8;
      Some (mkV3PoolDatum identifier assets circulatingLp bidFees askFees feeManager
              marketOpen feeFinalized protocolFees)
  | _ => None
  end.
End Decode.

(** ** Parsing ([parser.go]) *)

(** [Parser.Protocol]: ["%s-v%d"] *)
Definition protocol_name (version : Z) : string :=
  ProtocolName +:+ "-v" +:+ IntString version.

Definition GeneratePoolIdentId (identifier : option (list byte)) : result parse_error string :=
  if negb (Nat.eqb (length (contents identifier)) V1PoolIdentLength) then Err InvalidIdentifier
  else Ok (ProtocolName +:+ underscore +:+ EncodeToString identifier).

Definition GeneratePoolId (policyA nameA policyB nameB : option (list byte)) : string :=
  pair_id ProtocolName policyA nameA policyB nameB.

(** The fee of a V3 pool, from the two fee fractions of its datum; the products
    and the sum wrap around at 64 bits. *)
Definition v3_fee (bid ask : Fees) : result parse_error Z :=
  let bidNum := Numerator bid in
  let bidDen := Denominator bid in
  let askNum := Numerator ask in
  let askDen := Denominator ask in
  if (bidDen =? 0) || (askDen =? 0) then Err InvalidFeeDenominators
  else
    let avgNum := u64 (u64 (bidNum * askDen) + u64 (askNum * bidDen)) in
    let avgDen := u64 (u64 (2 * bidDen) * askDen) in
    if avgDen <? avgNum then Err InvalidFee
    else if avgDen =? 0 then Err DivideByZeroPanic
    else
      let effectiveFeeNum := u64 (FeeDenom * u64 (avgDen - avgNum)) / avgDen in
      if FeeDenom <? effectiveFeeNum then Err InvalidFee else Ok effectiveFeeNum.

Section Parse.
Context `{Cbor, Ledger}.

Definition parseV1Datum (version : Z) (datum : raw) (utxoValue : value) (txHash : string)
    (txIndex slot timestamp : Z) : result parse_error ParsedPool :=
  match V1PoolDatum_UnmarshalCBOR datum with
  | None => Err DecodeDatum
  | Some poolDatum =>
      poolId ← GeneratePoolIdentId (v1_Ident poolDatum);
      let feeNum := v1_FeeNumerator poolDatum in
      let feeNum := if feeNum =? 0 then V1DefaultFee else feeNum in
      if FeeDenom <? feeNum then Err InvalidFee
      else
        let assetA := v1_ToCommonAssetClass (v1_AssetA poolDatum) in
        let assetB := v1_ToCommonAssetClass (v1_AssetB poolDatum) in
        '(reserveA, reserveB) ← extractReservesFromValue utxoValue assetA assetB;
        Ok (mkParsedPool poolId (protocol_name version)
              (mkAssetAmount assetA reserveA) (mkAssetAmount assetB reserveB)
              (FeeDenom - feeNum) FeeDenom slot txHash txIndex timestamp)
  end.

Definition v3_pool_id (assets : Assets) : string :=
  GeneratePoolId (a3_PolicyId (AssetA assets)) (a3_AssetName (AssetA assets))
    (a3_PolicyId (AssetB assets)) (a3_AssetName (AssetB assets)).

Definition parseV3Datum (version : Z) (datum : raw) (utxoValue : value) (txHash : string)
    (txIndex slot timestamp : Z) : result parse_error ParsedPool :=
  match V3PoolDatum_UnmarshalCBOR datum with
  | None => Err DecodeDatum
  | Some poolDatum =>
      effectiveFeeNum ← v3_fee (v3_BidFeesPer10Thousand poolDatum) (v3_AskFeesPer10Thousand poolDatum);
      let assetA := v3_ToCommonAssetClass (AssetA (v3_Assets poolDatum)) in
      let assetB := v3_ToCommonAssetClass (AssetB (v3_Assets poolDatum)) in
      '(reserveA, reserveB) ← extractReservesFromValue utxoValue assetA assetB;
      Ok (mkParsedPool (v3_pool_id (v3_Assets poolDatum)) (protocol_name version)
            (mkAssetAmount assetA reserveA) (mkAssetAmount assetB reserveB)
            effectiveFeeNum FeeDenom slot txHash txIndex timestamp)
  end.

(** [Parser.ParsePoolDatum] *)
Definition sundaeswap_ParsePoolDatum (version : Z) (datum : raw) (utxoValue : value)
    (txHash : string) (txIndex slot timestamp : Z) : result parse_error ParsedPool :=
  if version =? 1 then parseV1Datum version datum utxoValue txHash txIndex slot timestamp
  else if version =? 3 then parseV3Datum version datum utxoValue txHash txIndex slot timestamp
  else Err UnsupportedVersion.
End Parse.

(** ** Properties *)

Lemma v3_fee_range bid ask fee : v3_fee bid ask = Ok fee -> 0 <= fee <= FeeDenom.
Proof.
  unfold v3_fee. go_cases; try done. intros [= <-]. bool_prop. split; [|done].
  pose proof (u64_range (u64 (2 * Denominator bid) * Denominator ask)) as Hd.
  apply Z.div_pos; [apply u64_range | int_lia].
Qed.

(** The average fee of the datum. *)
Definition average_fee (bid ask : Fees) : Q :=
  ((inject_Z (Numerator bid) / inject_Z (Denominator bid)
    + inject_Z (Numerator ask) / inject_Z (Denominator ask)) / 2)%Q.

(** Fees whose products stay within 64 bits. *)
Record small_fees (bid ask : Fees) : Prop := {
  sf_bid : 0 <= Numerator bid /\ 0 < Denominator bid;
  sf_ask : 0 <= Numerator ask /\ 0 < Denominator ask;
  sf_num : Numerator bid * Denominator ask + Numerator ask * Denominator bid <= MaxUint64;
  sf_den : FeeDenom * (2 * Denominator bid * Denominator ask) <= MaxUint64;
}.

Lemma inject_Z_nonzero z : 0 < z -> ~ (inject_Z z == 0)%Q.
Proof. intros Hz H. unfold Qeq in H. cbn in H. lia. Qed.

Lemma average_fee_frac bid ask :
  0 < Denominator bid -> 0 < Denominator ask ->
  (average_fee bid ask ==
   inject_Z (Numerator bid * Denominator ask + Numerator ask * Denominator bid) /
   inject_Z (2 * Denominator bid * Denominator ask))%Q.
Proof.
  intros Hb Ha. unfold average_fee. rewrite inject_Z_plus, !inject_Z_mult.
  change (inject_Z 2) with 2%Q.
  field. split; by apply inject_Z_nonzero.
Qed.

Lemma complement_floor n d k :
  0 < d -> k = (FeeDenom * (d - n)) / d ->
  (inject_Z k <= inject_Z FeeDenom * (1 - inject_Z n / inject_Z d))%Q /\
  (inject_Z FeeDenom * (1 - inject_Z n / inject_Z d) < inject_Z (k + 1))%Q.
Proof.
  intros Hd ->.
  assert (inject_Z FeeDenom * (1 - inject_Z n / inject_Z d) ==
          inject_Z (FeeDenom * (d - n)) / inject_Z d)%Q as ->.
  { replace (d - n) with (d + - n) by lia. rewrite inject_Z_mult, inject_Z_plus, inject_Z_opp.
    field. by apply inject_Z_nonzero. }
  set (a := FeeDenom * (d - n)). pose proof (Z.mul_div_le a d Hd). pose proof (Z.mul_succ_div_gt a d Hd).
  assert (0 < inject_Z d)%Q by (change 0%Q with (inject_Z 0); by rewrite <- Zlt_Qlt).
  split; [apply Qle_shift_div_l | apply Qlt_shift_div_r]; try done.
  - rewrite <- inject_Z_mult, <- Zle_Qle. lia.
  - rewrite <- inject_Z_mult, <- Zlt_Qlt. unfold Z.succ in *. lia.
Qed.

(** For fee fractions whose products fit 64 bits, a V3 pool's multiplier is
    the complement of the average of its two fees in ten-thousandths, rounded
    down, and it is rejected exactly when the average exceeds one. *)
Theorem v3_fee_exact bid ask :
  small_fees bid ask ->
  match v3_fee bid ask with
  | Ok fee =>
      (average_fee bid ask <= 1)%Q /\
      (inject_Z fee <= inject_Z FeeDenom * (1 - average_fee bid ask))%Q /\
      (inject_Z FeeDenom * (1 - average_fee bid ask) < inject_Z (fee + 1))%Q
  | Err e => e = InvalidFee /\ (1 < average_fee bid ask)%Q
  end.
Proof.
  intros [[Hbn Hbd] [Han Had] Hnum Hden]. unfold FeeDenom in Hden.
  pose proof (average_fee_frac bid ask Hbd Had) as Havg. unfold v3_fee.
  set (bn := Numerator bid) in *. set (bd := Denominator bid) in *.
  set (an := Numerator ask) in *. set (ad := Denominator ask) in *.
  assert (0 <= bn * ad) by nia. assert (0 <= an * bd) by nia. assert (2 * bd <= 2 * bd * ad) by nia.
  rewrite !(proj2 (Z.eqb_neq _ 0)) by lia. cbn [orb].
  rewrite (u64_small (bn * ad)), (u64_small (an * bd)), (u64_small (bn * ad + an * bd)),
    (u64_small (2 * bd)), (u64_small (2 * bd * ad)) by int_lia.
  set (n := bn * ad + an * bd) in *. set (d := 2 * bd * ad) in *.
  assert (0 < d) by lia. assert (0 <= n) by lia.
  assert (0 < inject_Z d)%Q by (change 0%Q with (inject_Z 0); by rewrite <- Zlt_Qlt).
  destruct (Z.ltb_spec d n).
  { split; [done|]. rewrite Havg. apply Qlt_shift_div_l; [done|].
    rewrite Qmult_1_l, <- Zlt_Qlt. lia. }
  rewrite (proj2 (Z.eqb_neq d 0)) by lia.
  rewrite (u64_small (d - n)), u64_small by (unfold FeeDenom; int_lia).
  destruct (complement_floor n d _ ltac:(done) eq_refl) as [Hlo Hhi].
  assert (FeeDenom * (d - n) / d <= FeeDenom) by (apply Z.div_le_upper_bound; unfold FeeDenom; lia).
  rewrite (proj2 (Z.ltb_ge _ _)) by lia. rewrite !Havg. split; [|done].
  apply Qle_shift_div_r; [done|]. rewrite Qmult_1_l, <- Zle_Qle. lia.
Qed.

Definition sample_small_bid : Fees := mkFees 30 10000.
Definition sample_small_ask : Fees := mkFees 51 10000.

Lemma small_sample_fees : small_fees sample_small_bid sample_small_ask.
Proof. split; cbn; done. Qed.

Lemma v3_fee_exact_witness :
  v3_fee sample_small_bid sample_small_ask = Ok 9959 /\
  (inject_Z 9959 <= inject_Z FeeDenom * (1 - average_fee sample_small_bid sample_small_ask))%Q.
Proof.
  split; [vm_compute; reflexivity|].
  pose proof (v3_fee_exact sample_small_bid sample_small_ask small_sample_fees) as H.
  change (v3_fee sample_small_bid sample_small_ask) with (@Ok parse_error Z 9959) in H.
  apply H.
Defined.

Section Facts.
Context `{C : Cbor, L : Ledger, R : !CborRange C}.

#[export, program] Instance SundaeSwapV1 : PoolParser :=
  {| Protocol := protocol_name 1; ParsePoolDatum := sundaeswap_ParsePoolDatum 1 |}.
Next Obligation.
  intros datum utxoValue txHash txIndex slot timestamp s.
  unfold sundaeswap_ParsePoolDatum, parseV1Datum. cbn [Z.eqb Pos.eqb].
  destruct (V1PoolDatum_UnmarshalCBOR datum) as [p|] eqn:E; [|done].
  assert (is_u64 (v1_FeeNumerator p)) as Hf.
  { unfold V1PoolDatum_UnmarshalCBOR in E. decode_inv. by eapply decode_uint_range. }
  intros (id & _ & H)%bind_ok. cbv zeta in H.
  set (fee := if v1_FeeNumerator p =? 0 then V1DefaultFee else v1_FeeNumerator p) in H.
  assert (0 <= fee) by (unfold fee, V1DefaultFee; destruct (_ =? 0); [done | apply Hf]). clearbody fee.
  destruct (Z.ltb_spec FeeDenom fee); [done|].
  apply bind_ok in H as ([x y] & Hr & [= <-]). apply extractReserves_range in Hr as [Hx Hy].
  split; cbn; try done; unfold FeeDenom in *; int_lia.
Qed.

#[export, program] Instance SundaeSwapV3 : PoolParser :=
  {| Protocol := protocol_name 3; ParsePoolDatum := sundaeswap_ParsePoolDatum 3 |}.
Next Obligation.
  intros datum utxoValue txHash txIndex slot timestamp s.
  unfold sundaeswap_ParsePoolDatum, parseV3Datum. cbn [Z.eqb Pos.eqb].
  destruct (V3PoolDatum_UnmarshalCBOR datum) as [p|]; [|done].
  intros (fee & Hf & H)%bind_ok. apply v3_fee_range in Hf.
  apply bind_ok in H as ([x y] & Hr & [= <-]). apply extractReserves_range in Hr as [Hx Hy].
  split; cbn; try done; unfold FeeDenom in *; int_lia.
Qed.

(** A V3 pool is named after its pair of assets alone: the identifier of its
    datum plays no part, so two pools of one pair share their [PoolId]. *)
Lemma v3_pool_id_ignores_identifier version d d' v v' h h' i i' slot slot' t t' p p' s s' :
  V3PoolDatum_UnmarshalCBOR d = Some p -> V3PoolDatum_UnmarshalCBOR d' = Some p' ->
  v3_Assets p = v3_Assets p' ->
  parseV3Datum version d v h i slot t = Ok s -> parseV3Datum version d' v' h' i' slot' t' = Ok s' ->
  pp_PoolId s = pp_PoolId s'.
Proof.
  intros Hp Hp' Ha. unfold parseV3Datum. rewrite Hp, Hp', Ha.
  intros (f & _ & ([x y] & _ & [= <-])%bind_ok)%bind_ok.
  by intros (f' & _ & ([x' y'] & _ & [= <-])%bind_ok)%bind_ok.
Qed.
End Facts.

Lemma v3_pool_id_identifies a b :
  v3_pool_id a = v3_pool_id b <->
  v3_ToCommonAssetClass (AssetA a) ≡ v3_ToCommonAssetClass (AssetA b) /\
  v3_ToCommonAssetClass (AssetB a) ≡ v3_ToCommonAssetClass (AssetB b).
Proof. apply pair_id_inj. Qed.

(** A V1 pool is named after the 28 bytes of its identifier. *)
Lemma GeneratePoolIdentId_inj a b s :
  GeneratePoolIdentId a = Ok s -> GeneratePoolIdentId b = Ok s -> contents a = contents b.
Proof.
  unfold GeneratePoolIdentId. go_cases; try done. intros [= <-] [= Hid].
  by apply EncodeToString_inj in Hid.
Qed.

(** A V3 datum whose fee fractions are zero, with the given denominators. *)
Definition fee_datum (bidDen askDen : Z) : data :=
  let asset := DList [DBytes []; DBytes []] in
  DList [DBytes []; DList [asset; asset]; DInt 0; DList [DInt 0; DInt bidDen];
         DList [DInt 0; DInt askDen]; Constr 1 []; DInt 0; DInt 0; DInt 0].

(** The products of a V3 fee are not checked for overflow. A datum that
    states no fee, as a fraction with large denominators, makes the parser panic
    on a division by zero; with slightly smaller denominators the pool is
    accepted with a multiplier of 0, a fee of one hundred percent. *)
Theorem v3_fee_overflows (v : value) h i slot t :
  sundaeswap_ParsePoolDatum 3 (fee_datum (2 ^ 32) (2 ^ 31)) v h i slot t = Err DivideByZeroPanic /\
  (exists s, sundaeswap_ParsePoolDatum 3 (fee_datum (2 ^ 30) (2 ^ 30)) v h i slot t = Ok s /\
     pp_FeeNum s = 0) /\
  (average_fee (mkFees 0 (2 ^ 30)) (mkFees 0 (2 ^ 30)) == 0)%Q.
Proof.
  split; [reflexivity|]. split; [|reflexivity].
  destruct v as [o m]. eexists. split; reflexivity.
Qed.
