(* ===== verification/Splash.v ===== *)
(** * Splash: pool datums of Splash V1 ([dex/splash], [dex/splash.go]). *)
From S2P Require Import Prelude.
From S2P Require Import Text.
From S2P Require Import Common.
From S2P Require Import Cbor.
From S2P Require Import Ledger.

Definition ProtocolName : string := "splash".
Definition FeeDenom : Z := 1000.

Record AssetClass := mkSplashAsset {
  sa_PolicyId : option (list byte);
  sa_Name : option (list byte);
}.

Record PoolDatum := mkPoolDatum {
  pd_Nft : AssetClass;
  pd_X : AssetClass;
  pd_Y : AssetClass;
  pd_Lq : AssetClass;
  pd_FeeNum : Z;
  pd_AdminPolicy : list (option (list byte));
  pd_LqBound : Z;
}.

Definition ToCommonAssetClass (a : AssetClass) : Common.AssetClass :=
  mkAssetClass (sa_PolicyId a) (sa_Name a).

(** [AssetClass.IsLovelace] *)
Definition IsLovelace (a : AssetClass) : bool :=
  Nat.eqb (length (contents (sa_PolicyId a))) 0 && Nat.eqb (length (contents (sa_Name a))) 0.

(** ** Decoding *)
Section Decode.
Context `{Cbor}.

Definition AssetClass_UnmarshalCBOR (d : raw) : option AssetClass :=
  fields ← tagged_struct d 0 2;
  match fields with
  | [f0; f1] =>
      policyId ← decode_bytes f0;
      name ← decode_bytes f1;
      Some (mkSplashAsset policyId name)
  | _ => None
  end.

Definition PoolDatum_UnmarshalCBOR (d : raw) : option PoolDatum :=
  fields ← tagged_struct d 0 7;
  match fields with
  | [f0; f1; f2; f3; f4; f5; f6] =>
      nft ← AssetClass_UnmarshalCBOR f0;
      x ← AssetClass_UnmarshalCBOR f1;
      y ← AssetClass_UnmarshalCBOR f2;
      lq ← AssetClass_UnmarshalCBOR f3;
      feeNum ← decode_uint f4;
      adminPolicy ← decode_bytes_list f5;
      lqBound ← decode_uint f6;
      Some (mkPoolDatum nft x y lq feeNum adminPolicy lqBound)
  | _ => None
  end.
End Decode.

(** ** Encoding *)
Section Encode.
Context `{C : Cbor, N : !CborNumbers C, S : !CborSyntax C, W : !CborWriter C}.

Definition AssetClass_MarshalCBOR (a : AssetClass) : raw :=
  constr 0 [bytes_of (sa_PolicyId a); bytes_of (sa_Name a)].

Definition PoolDatum_MarshalCBOR (p : PoolDatum) : raw :=
  let tmpAdminPolicy := bytes_list (pd_AdminPolicy p) in
  constr 0
    [AssetClass_MarshalCBOR (pd_Nft p); AssetClass_MarshalCBOR (pd_X p);
     AssetClass_MarshalCBOR (pd_Y p); AssetClass_MarshalCBOR (pd_Lq p); uint (pd_FeeNum p);
     tmpAdminPolicy; uint (pd_LqBound p)].

(** No byte string is nil and the amounts have 64 bits, as in whatever was decoded. *)
Definition filled_asset (a : AssetClass) : Prop := is_Some (sa_PolicyId a) /\ is_Some (sa_Name a).
Record filled_pool (p : PoolDatum) : Prop := {
  fp_assets : Forall filled_asset [pd_Nft p; pd_X p; pd_Y p; pd_Lq p];
  fp_numbers : Forall is_u64 [pd_FeeNum p; pd_LqBound p];
  fp_policies : Forall is_Some (pd_AdminPolicy p);
}.

Lemma splash_asset_round a : filled_asset a -> AssetClass_UnmarshalCBOR (AssetClass_MarshalCBOR a) = Some a.
Proof. intros []. unfold AssetClass_UnmarshalCBOR, AssetClass_MarshalCBOR. repeat encode_step. by destruct a. Qed.

(** A pool datum is read back as it was written. *)
Lemma splash_datum_round p : filled_pool p -> PoolDatum_UnmarshalCBOR (PoolDatum_MarshalCBOR p) = Some p.
Proof.
  intros [Ha Hn Hl]. decompose_Forall_hyps. unfold PoolDatum_UnmarshalCBOR, PoolDatum_MarshalCBOR.
  repeat first [encode_step | rewrite splash_asset_round by done; cbn [mbind option_bind]]. by destruct p.
Qed.
End Encode.

(** ** Parsing *)

(** The two assets are written in lexicographic order. *)
Definition GeneratePoolId (policyIdA assetNameA policyIdB assetNameB : option (list byte)) : string :=
  let assetA := asset_text policyIdA assetNameA in
  let assetB := asset_text policyIdB assetNameB in
  let '(assetA, assetB) := if Prelude.ltb assetB assetA then (assetB, assetA) else (assetA, assetB) in
  assetA +:+ "-" +:+ assetB.

Definition asset_pool_id (x y : AssetClass) : string :=
  GeneratePoolId (sa_PolicyId x) (sa_Name x) (sa_PolicyId y) (sa_Name y).

Definition protocol_name : string := ProtocolName +:+ "-v1".

(** [Parser.ParsePoolDatum] *)
Definition splash_ParsePoolDatum `{Cbor, Ledger} (datum : raw) (utxoValue : value) (txHash : string)
    (txIndex slot timestamp : Z) : result parse_error ParsedPool :=
  match PoolDatum_UnmarshalCBOR datum with
  | None => Err DecodeDatum
  | Some poolDatum =>
      if FeeDenom <? pd_FeeNum poolDatum then Err InvalidFee
      else
        let classX := ToCommonAssetClass (pd_X poolDatum) in
        let classY := ToCommonAssetClass (pd_Y poolDatum) in
        '(reserveX, reserveY) ← extractReservesFromValue utxoValue classX classY;
        Ok (mkParsedPool (asset_pool_id (pd_X poolDatum) (pd_Y poolDatum)) protocol_name
              (mkAssetAmount classX reserveX) (mkAssetAmount classY reserveY)
              (pd_FeeNum poolDatum) FeeDenom slot txHash txIndex timestamp)
  end.

#[export, program] Instance SplashV1 `{C : Cbor, L : Ledger, R : !CborRange C} : PoolParser :=
  {| Protocol := protocol_name; ParsePoolDatum := splash_ParsePoolDatum |}.
Next Obligation.
  intros C L R datum utxoValue txHash txIndex slot timestamp s. unfold splash_ParsePoolDatum.
  destruct (PoolDatum_UnmarshalCBOR datum) as [p|] eqn:E; [|done].
  assert (is_u64 (pd_FeeNum p)) as Hf.
  { unfold PoolDatum_UnmarshalCBOR in E. decode_inv. by eapply decode_uint_range. }
  destruct (Z.ltb_spec FeeDenom (pd_FeeNum p)); [done|].
  intros ([x y] & Hr & [= <-])%bind_ok. apply extractReserves_range in Hr as [Hx Hy].
  split; cbn; try done; unfold FeeDenom in *; int_lia.
Qed.

(** ** Pool identifiers *)

Lemma asset_text_no_dash p n : char_free "-"%char (asset_text p n) = true.
Proof.
  unfold asset_text. rewrite !char_free_app. rewrite !hex_free by done. done.
Qed.

Lemma ordered_pair (a b : string) :
  (if Prelude.ltb b a then (b, a) else (a, b)) = (a, b) \/
  (if Prelude.ltb b a then (b, a) else (a, b)) = (b, a).
Proof. destruct (Prelude.ltb b a); [by right | by left]. Qed.

Lemma ordered_pair_sym (a b : string) :
  (if Prelude.ltb b a then (b, a) else (a, b)) = (if Prelude.ltb a b then (a, b) else (b, a)).
Proof.
  destruct (Prelude.ltb b a) eqn:E.
  - by rewrite (ltb_asym _ _ E).
  - destruct (Prelude.ltb a b) eqn:E'; [done|]. by rewrite (ltb_connected a b E' E).
Qed.

(** The identifier of a Splash pool identifies its unordered pair of assets:
    two pools share it exactly when they trade the same two assets, in either
    order. *)
Theorem GeneratePoolId_unordered x y x' y' :
  asset_pool_id x y = asset_pool_id x' y' <->
  (ToCommonAssetClass x ≡ ToCommonAssetClass x' /\ ToCommonAssetClass y ≡ ToCommonAssetClass y') \/
  (ToCommonAssetClass x ≡ ToCommonAssetClass y' /\ ToCommonAssetClass y ≡ ToCommonAssetClass x').
Proof.
  unfold asset_pool_id, GeneratePoolId, ToCommonAssetClass.
  destruct x as [px nx], y as [py ny], x' as [px' nx'], y' as [py' ny']. cbn [sa_PolicyId sa_Name].
  split.
  - intros H.
    destruct (ordered_pair (asset_text px nx) (asset_text py ny)) as [E|E]; rewrite E in H; clear E;
      destruct (ordered_pair (asset_text px' nx') (asset_text py' ny')) as [E|E]; rewrite E in H;
      apply append_sep_inj in H as [H1 H2]; try apply asset_text_no_dash;
      apply asset_text_inj in H1, H2; auto.
  - assert (forall p n p' n', mkAssetClass p n ≡ mkAssetClass p' n' -> asset_text p n = asset_text p' n')
      as Ht.
    { intros p n p' n' [Hp Hn]. cbn [PolicyId Name] in *. unfold asset_text, EncodeToString. congruence. }
    intros [[Hx%Ht Hy%Ht]|[Hx%Ht Hy%Ht]]; rewrite Hx, Hy; [done|]. by rewrite ordered_pair_sym.
Qed.
