(* ===== verification/AssetCbor.v ===== *)
(** * AssetCbor: the CBOR form and the text of an asset ([common/types.go]).

    The decoder of [common.AssetClass] takes a constructor with any tag, unlike those
    of the protocols, which expect the tag that all encoders write. *)
From S2P Require Import Prelude.
From S2P Require Import Text.
From S2P Require Import Common.
From S2P Require Import Cbor.
From S2P Require Splash.

Section AssetCbor.
Context `{C : Cbor, N : !CborNumbers C, S : !CborSyntax C, W : !CborWriter C}.

Definition AssetClass_UnmarshalCBOR (d : raw) : option AssetClass :=
  fields ← untagged_struct d 2;
  match fields with
  | [f0; f1] =>
      policyId ← decode_bytes f0;
      name ← decode_bytes f1;
      Some (mkAssetClass policyId name)
  | _ => None
  end.

Definition AssetClass_MarshalCBOR (a : AssetClass) : raw :=
  constr 0 [bytes_of (PolicyId a); bytes_of (Name a)].

Lemma common_asset_round a :
  is_Some (PolicyId a) -> is_Some (Name a) -> AssetClass_UnmarshalCBOR (AssetClass_MarshalCBOR a) = Some a.
Proof. intros. unfold AssetClass_UnmarshalCBOR, AssetClass_MarshalCBOR. repeat encode_step. by destruct a. Qed.

(** What a protocol reads as an asset is read as the same asset here, *)
Lemma protocol_asset_is_asset d a :
  Splash.AssetClass_UnmarshalCBOR d = Some a -> AssetClass_UnmarshalCBOR d = Some (Splash.ToCommonAssetClass a).
Proof.
  unfold Splash.AssetClass_UnmarshalCBOR, AssetClass_UnmarshalCBOR, tagged_struct, untagged_struct. intros H.
  destruct (decode_constructor d) as [[tag body]|]; [|done]. cbn in H |- *. destruct (tag =? 0); [|done]. cbn in H.
  destruct (struct_fields body 2) as [[|f0 [|f1 []]]|]; try done. cbn in H |- *.
  destruct (decode_bytes f0); [|done]. cbn in H |- *. destruct (decode_bytes f1); [|done]. by injection H as <-.
Qed.

(** but not conversely: the tag is not looked at. *)
Lemma any_tag_is_asset tag p n :
  0 <= tag -> AssetClass_UnmarshalCBOR (constr tag [bytestring p; bytestring n]) = Some (mkAssetClass (Some p) (Some n)).
Proof. intros Ht. unfold AssetClass_UnmarshalCBOR. by repeat encode_step. Qed.
End AssetCbor.

(** ** Text *)

Definition AssetClass_String (a : AssetClass) : string :=
  "AssetClass< policy_id = " +:+ EncodeToString (PolicyId a) +:+ ", name = " +:+ EncodeToString (Name a) +:+ " >".

Definition AssetAmount_String (a : AssetAmount) : string :=
  "AssetAmount< class = " +:+ AssetClass_String (aa_Class a) +:+ ", amount = " +:+ FormatUint (aa_Amount a) +:+ " >".

(** The text of an asset identifies it. *)
Lemma AssetClass_String_spec a b : AssetClass_String a = AssetClass_String b <-> a ≡ b.
Proof.
  unfold AssetClass_String. split.
  - intros E. repeat (injection E as E).
    change (EncodeToString (PolicyId a) +:+ String "," (" name = " +:+ EncodeToString (Name a) +:+ " >") =
      EncodeToString (PolicyId b) +:+ String "," (" name = " +:+ EncodeToString (Name b) +:+ " >")) in E.
    apply append_sep_inj in E as [Ep En]; [|by apply char_free_hex..].
    repeat (injection En as En).
    change (EncodeToString (Name a) +:+ String " " ">" = EncodeToString (Name b) +:+ String " " ">") in En.
    apply append_sep_inj in En as [En _]; [|by apply char_free_hex..].
    split; [exact (EncodeToString_inj _ _ Ep) | exact (EncodeToString_inj _ _ En)].
  - intros [Ep En]. unfold EncodeToString. by rewrite Ep, En.
Qed.
