(* ===== verification/WingRiders.v ===== *)
(** * WingRiders: pool datums of WingRiders V2 ([dex/wingriders], [dex/wingriders.go]). *)
From S2P Require Import Prelude.
From S2P Require Import Text.
From S2P Require Import Float64.
From S2P Require Import Common.
From S2P Require Import Cbor.
From S2P Require Import Ledger.

Definition ProtocolName : string := "wingriders".
Definition FeeDenom : Z := 10000.

Record AssetClass := mkWingRidersAsset {
  wa_PolicyId : option (list byte);
  wa_Name : option (list byte);
}.

Record PoolDatum := mkPoolDatum {
  pd_RequestValidatorHash : option (list byte);
  pd_AssetA : AssetClass;
  pd_AssetB : AssetClass;
  pd_SwapFeeInBasis : Z;
  pd_ProtocolFeeInBasis : Z;
  pd_ProjectFeeInBasis : Z;
  pd_FeeBasis : Z;
  pd_AgentFeeAda : Z;
  pd_LastInteraction : Z;
  pd_TreasuryA : Z;
  pd_TreasuryB : Z;
  pd_ProjectTreasuryA : Z;
  pd_ProjectTreasuryB : Z;
}.

Definition ToCommonAssetClass (a : AssetClass) : Common.AssetClass :=
  mkAssetClass (wa_PolicyId a) (wa_Name a).

(** [AssetClass.IsLovelace] *)
Definition IsLovelace (a : AssetClass) : bool :=
  Nat.eqb (length (contents (wa_PolicyId a))) 0 && Nat.eqb (length (contents (wa_Name a))) 0.

(** [PoolState.PriceXY] of the package. *)
Definition PriceXY (p : ParsedPool) : float64 :=
  if aa_Amount (pp_AssetX p) =? 0 then fzero
  else fdiv (float_of_Z (aa_Amount (pp_AssetY p))) (float_of_Z (aa_Amount (pp_AssetX p))).

(** ** Decoding *)
Section Decode.
Context `{Cbor}.

Definition AssetClass_UnmarshalCBOR (d : raw) : option AssetClass :=
  fields ← tagged_struct d 0 2;
  match fields with
  | [f0; f1] =>
      policyId ← decode_bytes f0;
      name ← decode_bytes f1;
      Some (mkWingRidersAsset policyId name)
  | _ => None
  end.

Definition PoolDatum_UnmarshalCBOR (d : raw) : option PoolDatum :=
  fields ← tagged_struct d 0 13;
  match fields with
  | [f0; f1; f2; f3; f4; f5; f6; f7; f8; f9; f10; f11; f12] =>
      requestValidatorHash ← decode_bytes f0;
      assetA ← AssetClass_UnmarshalCBOR f1;
      assetB ← AssetClass_UnmarshalCBOR f2;
      swapFee ← decode_uint f3;
      protocolFee ← decode_uint f4;
      projectFee ← decode_uint f5;
      feeBasis ← decode_uint f6;
      agentFeeAda ← decode_uint f7;
      lastInteraction ← decode_uint f8;
      treasuryA ← decode_uint f9;
      treasuryB ← decode_uint f10;
      projectTreasuryA ← decode_uint f11;
      projectTreasuryB ← decode_uint f12;
      Some (mkPoolDatum requestValidatorHash assetA assetB swapFee protocolFee projectFee feeBasis
              agentFeeAda lastInteraction treasuryA treasuryB projectTreasuryA projectTreasuryB)
  | _ => None
  end.
End Decode.

(** ** Encoding *)
Section Encode.
Context `{C : Cbor, N : !CborNumbers C, S : !CborSyntax C, W : !CborWriter C}.

Definition AssetClass_MarshalCBOR (a : AssetClass) : raw :=
  constr 0 [bytes_of (wa_PolicyId a); bytes_of (wa_Name a)].

Lemma wingriders_asset_round a :
  is_Some (wa_PolicyId a) -> is_Some (wa_Name a) ->
  AssetClass_UnmarshalCBOR (AssetClass_MarshalCBOR a) = Some a.
Proof. intros. unfold AssetClass_UnmarshalCBOR, AssetClass_MarshalCBOR. repeat encode_step. by destruct a. Qed.
End Encode.

(** ** Parsing *)

Definition GeneratePoolId (policyA nameA policyB nameB : option (list byte)) : string :=
  pair_id ProtocolName policyA nameA policyB nameB.

Definition asset_pool_id (a b : AssetClass) : string :=
  GeneratePoolId (wa_PolicyId a) (wa_Name a) (wa_PolicyId b) (wa_Name b).

Definition protocol_name : string := ProtocolName +:+ "-v2".

(** [Parser.ParsePoolDatum]: the reserves are the treasuries of the datum. *)
Definition wingriders_ParsePoolDatum `{Cbor, Ledger} (datum : raw) (utxoValue : value)
    (txHash : string) (txIndex slot timestamp : Z) : result parse_error ParsedPool :=
  match PoolDatum_UnmarshalCBOR datum with
  | None => Err DecodeDatum
  | Some poolDatum =>
      let swapFee := pd_SwapFeeInBasis poolDatum in
      if FeeDenom <? swapFee then Err InvalidFee
      else
        let effectiveFeeNum := FeeDenom - swapFee in
        Ok (mkParsedPool (asset_pool_id (pd_AssetA poolDatum) (pd_AssetB poolDatum)) protocol_name
              (mkAssetAmount (ToCommonAssetClass (pd_AssetA poolDatum)) (pd_TreasuryA poolDatum))
              (mkAssetAmount (ToCommonAssetClass (pd_AssetB poolDatum)) (pd_TreasuryB poolDatum))
              effectiveFeeNum FeeDenom slot txHash txIndex timestamp)
  end.

#[export, program] Instance WingRidersV2 `{C : Cbor, L : Ledger, R : !CborRange C} : PoolParser :=
  {| Protocol := protocol_name; ParsePoolDatum := wingriders_ParsePoolDatum |}.
Next Obligation.
  intros C L R datum utxoValue txHash txIndex slot timestamp s. unfold wingriders_ParsePoolDatum.
  destruct (PoolDatum_UnmarshalCBOR datum) as [p|] eqn:E; [|done].
  assert (is_u64 (pd_SwapFeeInBasis p) /\ is_u64 (pd_TreasuryA p) /\ is_u64 (pd_TreasuryB p))
    as (Hf & HA & HB).
  { unfold PoolDatum_UnmarshalCBOR in E. decode_inv. cbn.
    split; [|split]; by eapply decode_uint_range. }
  cbv zeta. destruct (Z.ltb_spec FeeDenom (pd_SwapFeeInBasis p)); [done|]. intros [= <-].
  split; cbn; try done; unfold FeeDenom in *; int_lia.
Qed.

(** The identifier of a WingRiders pool identifies its ordered pair of assets. *)
Lemma wingriders_id_identifies_pair a b a' b' :
  asset_pool_id a b = asset_pool_id a' b' <->
  ToCommonAssetClass a ≡ ToCommonAssetClass a' /\ ToCommonAssetClass b ≡ ToCommonAssetClass b'.
Proof. apply pair_id_inj. Qed.
