(* ===== verification/CSwap.v ===== *)
(** * CSwap: pool datums of CSWAP ([dex/cswap], [dex/cswap.go]). *)
From S2P Require Import Prelude.
From S2P Require Import Text.
From S2P Require Import Common.
From S2P Require Import Cbor.
From S2P Require Import Ledger.

Definition ProtocolName : string := "cswap".
Definition FeeDenom : Z := 10000.

Record PoolDatum := mkPoolDatum {
  pd_TotalLpTokens : Z;
  pd_PoolFee : Z;
  pd_QuotePolicy : option (list byte);
  pd_QuoteName : option (list byte);
  pd_BasePolicy : option (list byte);
  pd_BaseName : option (list byte);
  pd_LPTokenPolicy : option (list byte);
  pd_LPTokenName : option (list byte);
}.

Definition QuoteAsset (d : PoolDatum) : AssetClass := mkAssetClass (pd_QuotePolicy d) (pd_QuoteName d).
Definition BaseAsset (d : PoolDatum) : AssetClass := mkAssetClass (pd_BasePolicy d) (pd_BaseName d).

Definition PoolDatum_UnmarshalCBOR `{Cbor} (d : raw) : option PoolDatum :=
  fields ← tagged_struct d 0 8;
  match fields with
  | [f0; f1; f2; f3; f4; f5; f6; f7] =>
      totalLpTokens ← decode_uint f0;
      poolFee ← decode_uint f1;
      quotePolicy ← decode_bytes f2;
      quoteName ← decode_bytes f3;
      basePolicy ← decode_bytes f4;
      baseName ← decode_bytes f5;
      lpTokenPolicy ← decode_bytes f6;
      lpTokenName ← decode_bytes f7;
      Some (mkPoolDatum totalLpTokens poolFee quotePolicy quoteName basePolicy baseName
              lpTokenPolicy lpTokenName)
  | _ => None
  end.

Definition GeneratePoolId (lpPolicy lpName : option (list byte)) : string :=
  ProtocolName +:+ underscore +:+ EncodeToString lpPolicy +:+ dot +:+ EncodeToString lpName.

(** [Parser.ParsePoolDatum] *)
Definition cswap_ParsePoolDatum `{Cbor, Ledger} (datum : raw) (utxoValue : value) (txHash : string)
    (txIndex slot timestamp : Z) : result parse_error ParsedPool :=
  match PoolDatum_UnmarshalCBOR datum with
  | None => Err DecodeDatum
  | Some poolDatum =>
      if FeeDenom <? pd_PoolFee poolDatum then Err InvalidFee
      else
        '(reserveQuote, reserveBase) ←
          extractReservesFromValue utxoValue (QuoteAsset poolDatum) (BaseAsset poolDatum);
        Ok (mkParsedPool (GeneratePoolId (pd_LPTokenPolicy poolDatum) (pd_LPTokenName poolDatum))
              ProtocolName (mkAssetAmount (QuoteAsset poolDatum) reserveQuote)
              (mkAssetAmount (BaseAsset poolDatum) reserveBase)
              (FeeDenom - pd_PoolFee poolDatum) FeeDenom slot txHash txIndex timestamp)
  end.

#[export, program] Instance CSwapParser `{C : Cbor, L : Ledger, R : !CborRange C} : PoolParser :=
  {| Protocol := ProtocolName; ParsePoolDatum := cswap_ParsePoolDatum |}.
Next Obligation.
  intros C L R datum utxoValue txHash txIndex slot timestamp s. unfold cswap_ParsePoolDatum.
  destruct (PoolDatum_UnmarshalCBOR datum) as [p|] eqn:E; [|done].
  assert (is_u64 (pd_PoolFee p)) as Hf.
  { unfold PoolDatum_UnmarshalCBOR in E. decode_inv. by eapply decode_uint_range. }
  destruct (Z.ltb_spec FeeDenom (pd_PoolFee p)); [done|].
  intros ([x y] & Hr & [= <-])%bind_ok. apply extractReserves_range in Hr as [Hx Hy].
  split; cbn; try done; unfold FeeDenom in *; int_lia.
Qed.

(** The identifier of a CSWAP pool identifies its LP token. *)
Lemma cswap_id_identifies_token p n p' n' :
  GeneratePoolId p n = GeneratePoolId p' n' <-> mkAssetClass p n ≡ mkAssetClass p' n'.
Proof.
  unfold GeneratePoolId. split.
  - intros H. do 2 apply append_inj_l in H. by apply asset_text_inj.
  - intros [Hp Hn]. cbn [PolicyId Name] in *. unfold EncodeToString. congruence.
Qed.
