(* ===== verification/VyFi.v ===== *)
(** * VyFi: pool and order datums of VyFi ([dex/vyfi], [dex/vyfi.go]).

    The assets of a VyFi pool are read off the value of its output, a map from
    asset identifiers to amounts that the code ranges over: the order is a
    parameter. *)
From S2P Require Import Prelude.
From S2P Require Import Text.
From S2P Require Import Float64.
From S2P Require Import Common.
From S2P Require Import Pool.
From S2P Require Import Cbor.
From S2P Require Import Ledger.

Definition ProtocolName : string := "vyfi".

(** ** Datum types ([models.go]) *)

Record PoolDatum := mkPoolDatum {
  pd_TreasuryA : Z;
  pd_TreasuryB : Z;
  pd_IssuedShares : Z;
}.

Inductive OrderType :=
| OrderTypeAddLiquidity
| OrderTypeRemoveLiquidity
| OrderTypeServe
| OrderTypeTradeAToB
| OrderTypeTradeBToA
| OrderTypeZapInA
| OrderTypeZapInB.

Record OrderDetails := mkOrderDetails {
  od_Type : OrderType;
  od_MinWantedShares : Z;
  od_MinWantedTokens : Z;
  od_MinWantedTokensA : Z;
  od_MinWantedTokensB : Z;
}.

Record OrderDatum := mkOrderDatum {
  or_Owner : option (list byte);
  or_OrderDetails : OrderDetails;
}.

(** The [PoolState] of the package: the fields that the packages share and the
    number of shares. *)
Record PoolState := mkVyFiPool {
  vp_Pool : ParsedPool;
  vp_Shares : Z;
}.

(** [PoolState.PriceXY] of the package. *)
Definition PriceXY (p : PoolState) : float64 :=
  if aa_Amount (pp_AssetX (vp_Pool p)) =? 0 then fzero
  else fdiv (float_of_Z (aa_Amount (pp_AssetY (vp_Pool p))))
            (float_of_Z (aa_Amount (pp_AssetX (vp_Pool p)))).

(** [OrderDetails.IsSwap] and [OrderDetails.IsLiquidity] *)
Definition IsSwap (o : OrderDetails) : bool :=
  match od_Type o with OrderTypeTradeAToB | OrderTypeTradeBToA => true | _ => false end.
Definition IsLiquidity (o : OrderDetails) : bool :=
  match od_Type o with
  | OrderTypeAddLiquidity | OrderTypeRemoveLiquidity | OrderTypeZapInA | OrderTypeZapInB => true
  | _ => false
  end.

(** ** Decoding *)
Section Decode.
Context `{Cbor}.

Definition PoolDatum_UnmarshalCBOR (d : raw) : option PoolDatum :=
  fields ← tagged_struct d 0 3;
  match fields with
  | [f0; f1; f2] =>
      treasuryA ← decode_uint f0;
      treasuryB ← decode_uint f1;
      issuedShares ← decode_uint f2;
      Some (mkPoolDatum treasuryA treasuryB issuedShares)
  | _ => None
  end.

(** The constants of [OrderType], by constructor tag. *)
Definition order_type (tag : Z) : option OrderType :=
  match tag with
  | 0 => Some OrderTypeAddLiquidity
  | 1 => Some OrderTypeRemoveLiquidity
  | 2 => Some OrderTypeServe
  | 3 => Some OrderTypeTradeAToB
  | 4 => Some OrderTypeTradeBToA
  | 5 => Some OrderTypeZapInA
  | 6 => Some OrderTypeZapInB
  | _ => None
  end.

(** A struct with one [uint64] field. *)
Definition single_uint (body : raw) : option Z :=
  fields ← struct_fields body 1;
  match fields with [f0] => decode_uint f0 | _ => None end.

(** [OrderDetails.UnmarshalCBOR]; the fields of a liquidity removal are decoded
    as a constructor of their own. *)
Definition OrderDetails_UnmarshalCBOR (d : raw) : option OrderDetails :=
  '(tag, body) ← decode_constructor d;
  t ← order_type tag;
  match t with
  | OrderTypeAddLiquidity | OrderTypeZapInA | OrderTypeZapInB =>
      minWantedShares ← single_uint body;
      Some (mkOrderDetails t minWantedShares 0 0 0)
  | OrderTypeRemoveLiquidity =>
      fields ← untagged_struct body 2;
      match fields with
      | [f0; f1] =>
          minWantedTokensA ← decode_uint f0;
          minWantedTokensB ← decode_uint f1;
          Some (mkOrderDetails t 0 0 minWantedTokensA minWantedTokensB)
      | _ => None
      end
  | OrderTypeServe => Some (mkOrderDetails t 0 0 0 0)
  | OrderTypeTradeAToB | OrderTypeTradeBToA =>
      minWantedTokens ← single_uint body;
      Some (mkOrderDetails t 0 minWantedTokens 0 0)
  end.

Definition OrderDatum_UnmarshalCBOR (d : raw) : option OrderDatum :=
  fields ← tagged_struct d 0 2;
  match fields with
  | [f0; f1] =>
      owner ← decode_bytes f0;
      orderDetails ← OrderDetails_UnmarshalCBOR f1;
      Some (mkOrderDatum owner orderDetails)
  | _ => None
  end.

Definition ParsePoolDatumSimple (datum : raw) : result parse_error PoolDatum :=
  match PoolDatum_UnmarshalCBOR datum with
  | None => Err DecodeDatum
  | Some poolDatum => Ok poolDatum
  end.
End Decode.

(** ** Assets of the output *)

(** The parts of a string before and after its first dot. *)
Fixpoint split_dot (s : string) : option (string * string) :=
  match s with
  | EmptyString => None
  | String c s' =>
      if Ascii.eqb c "."%char then Some (EmptyString, s')
      else match split_dot s' with Some (a, b) => Some (String c a, b) | None => None end
  end.

(** [s[:n]] and [s[n:]] *)
Definition take_string (n : nat) (s : string) : string := String.substring 0 n s.
Definition drop_string (n : nat) (s : string) : string :=
  String.substring n (String.length s - n) s.

Definition parseAssetId (assetId : string) : result parse_error AssetClass :=
  let parts :=
    match split_dot assetId with
    | Some (policyIdHex, nameHex) => Some (policyIdHex, nameHex)
    | None =>
        if (String.length assetId <? 56)%nat then None
        else Some (take_string 56 assetId, drop_string 56 assetId)
    end in
  match parts with
  | None => Err InvalidAssetId
  | Some (policyIdHex, nameHex) =>
      match DecodeString policyIdHex with
      | None => Err InvalidAssetId
      | Some policyId =>
          match DecodeString nameHex with
          | None => Err InvalidAssetId
          | Some name => Ok (mkAssetClass policyId name)
          end
      end
  end.

(** The first loop: the lovelace amount and the other assets. *)
Definition split_step (acc : Z * list (string * Z)) (entry : string * Z) : Z * list (string * Z) :=
  if bool_decide (entry.1 = "lovelace") then (entry.2, acc.2) else (acc.1, acc.2 ++ [entry]).

(** The second loop counts the NFTs and the tokens and keeps the last of each. *)
Fixpoint count_assets (assets : list (string * Z)) (nftCount tokenCount : Z)
    (nftAsset tokenAsset : string) : result parse_error (Z * Z * string * string) :=
  match assets with
  | [] => Ok (nftCount, tokenCount, nftAsset, tokenAsset)
  | (assetId, amount) :: rest =>
      if amount =? 1 then count_assets rest (nftCount + 1) tokenCount assetId tokenAsset
      else if 1 <? amount then count_assets rest nftCount (tokenCount + 1) nftAsset assetId
      else Err InvalidAmountZero
  end.

Definition ada_class : AssetClass := mkAssetClass (Some []) (Some []).

Definition extractAssetsFromUtxoValue `{Ledger, RangeOrder} (utxoValue : value)
  : result parse_error (AssetClass * AssetClass * string) :=
  match decode_value_map utxoValue with
  | None => Err DecodeValue
  | Some m =>
      let '(adaAmount, nonAdaAssets) := foldl split_step (0, []) (range (map_to_list m)) in
      if adaAmount =? 0 then Err NoAda
      else
        '(nftCount, tokenCount, nftAsset, tokenAsset) ← count_assets nonAdaAssets 0 0 "" "";
        if nftCount =? 0 then Err NoNFT
        else if 1 <? nftCount then Err MultipleNFTs
        else if tokenCount =? 0 then Err NoToken
        else if 1 <? tokenCount then Err MultipleTokens
        else
          tokenClass ← parseAssetId tokenAsset;
          Ok (ada_class, tokenClass, nftAsset)
  end.

(** ** Parsing *)

Definition GeneratePoolId (poolNFT : string) (assetA assetB : AssetClass) : string :=
  if negb (bool_decide (poolNFT = "")) then ProtocolName +:+ underscore +:+ poolNFT
  else pair_id ProtocolName (PolicyId assetA) (Name assetA) (PolicyId assetB) (Name assetB).

(** [Parser.ParsePoolDatum] *)
Definition parse_pool `{Cbor, Ledger, RangeOrder} (datum : raw) (utxoValue : value)
    (txHash : string) (txIndex slot timestamp : Z) : result parse_error PoolState :=
  match PoolDatum_UnmarshalCBOR datum with
  | None => Err DecodeDatum
  | Some poolDatum =>
      '(assetA, assetB, poolNFT) ← extractAssetsFromUtxoValue utxoValue;
      Ok (mkVyFiPool
            (mkParsedPool (GeneratePoolId poolNFT assetA assetB) ProtocolName
               (mkAssetAmount assetA (pd_TreasuryA poolDatum))
               (mkAssetAmount assetB (pd_TreasuryB poolDatum))
               997 1000 slot txHash txIndex timestamp)
            (pd_IssuedShares poolDatum))
  end.

(** The wrapper drops the shares. *)
Definition vyfi_ParsePoolDatum `{Cbor, Ledger, RangeOrder} (datum : raw) (utxoValue : value)
    (txHash : string) (txIndex slot timestamp : Z) : result parse_error ParsedPool :=
  match parse_pool datum utxoValue txHash txIndex slot timestamp with
  | Err e => Err e
  | Ok state => Ok (vp_Pool state)
  end.

#[export, program] Instance VyFiParser `{C : Cbor, L : Ledger, O : RangeOrder, R : !CborRange C}
  : PoolParser :=
  {| Protocol := ProtocolName; ParsePoolDatum := vyfi_ParsePoolDatum |}.
Next Obligation.
  intros C L O R datum utxoValue txHash txIndex slot timestamp s.
  unfold vyfi_ParsePoolDatum, parse_pool.
  destruct (PoolDatum_UnmarshalCBOR datum) as [p|] eqn:E; [|done].
  assert (is_u64 (pd_TreasuryA p) /\ is_u64 (pd_TreasuryB p)) as [HA HB].
  { unfold PoolDatum_UnmarshalCBOR in E. decode_inv. split; by eapply decode_uint_range. }
  destruct (extractAssetsFromUtxoValue utxoValue) as [[[a b] nft]|]; [|done].
  cbn [mbind result_bind]. intros [= <-]. split; cbn; try done; int_lia.
Qed.

(** ** Assets of the output: what is accepted *)

Definition is_ada (e : string * Z) : Prop := e.1 = "lovelace".
Definition is_nft (e : string * Z) : Prop := e.2 = 1.
Definition is_token (e : string * Z) : Prop := 1 < e.2.

#[export] Instance is_ada_dec e : Decision (is_ada e).
Proof. unfold is_ada. apply _. Defined.
#[export] Instance is_nft_dec e : Decision (is_nft e).
Proof. unfold is_nft. apply _. Defined.
#[export] Instance is_token_dec e : Decision (is_token e).
Proof. unfold is_token. apply _. Defined.

Lemma split_step_spec l ada acc :
  foldl split_step (ada, acc) l =
  (default ada (snd <$> last (filter is_ada l)), acc ++ filter (fun e => ~ is_ada e) l).
Proof.
  revert ada acc. induction l as [|e l IH] using rev_ind; intros ada acc; cbn [foldl].
  { by rewrite app_nil_r. }
  rewrite foldl_snoc, IH, !filter_app. unfold split_step at 1. cbn [fst snd].
  case_bool_decide as E.
  - rewrite (filter_cons_True is_ada), filter_nil, last_snoc by done.
    rewrite (filter_cons_False (fun e => ~ is_ada e)), filter_nil, app_nil_r by (intros H; by apply H).
    done.
  - rewrite (filter_cons_False is_ada), filter_nil, app_nil_r by done.
    by rewrite (filter_cons_True (fun e => ~ is_ada e)), filter_nil, app_assoc by done.
Qed.

Lemma count_assets_spec l nc tc na ta :
  count_assets l nc tc na ta =
  if forallb (fun e => 1 <=? e.2) l then
    Ok (nc + Z.of_nat (length (filter is_nft l)), tc + Z.of_nat (length (filter is_token l)),
        default na (fst <$> last (filter is_nft l)), default ta (fst <$> last (filter is_token l)))
  else Err InvalidAmountZero.
Proof.
  assert (forall x (d : string) (l' : list (string * Z)),
    default d (fst <$> last (x :: l')) = default x.1 (fst <$> last l')) as Hlast.
  { intros x d l'. by destruct l' as [|y l'] using rev_ind; [|rewrite app_comm_cons, !last_snoc]. }
  revert nc tc na ta. induction l as [|[k n] l IH]; intros nc tc na ta; cbn [count_assets forallb snd].
  { by rewrite !Z.add_0_r. }
  destruct (Z.eqb_spec n 1) as [->|Hn].
  { rewrite IH. change (1 <=? 1) with true. cbn [andb].
    destruct (forallb _ l); [|done].
    rewrite (filter_cons_True is_nft), (filter_cons_False is_token) by (unfold is_token; cbn; lia || done).
    rewrite Hlast. cbn [length fst]. do 4 f_equal. lia. }
  destruct (Z.ltb_spec 1 n).
  - rewrite IH. rewrite (proj2 (Z.leb_le 1 n)) by lia. cbn [andb].
    destruct (forallb _ l); [|done].
    rewrite (filter_cons_False is_nft), (filter_cons_True is_token) by done.
    rewrite Hlast. cbn [length fst]. do 4 f_equal. lia.
  - by rewrite (proj2 (Z.leb_gt 1 n)) by lia.
Qed.

Lemma filter_split (l : list (string * Z)) :
  forallb (fun e => 1 <=? e.2) l = true -> l ≡ₚ filter is_nft l ++ filter is_token l.
Proof.
  induction l as [|e l IH]; [done|]. cbn [forallb]. intros [H H0]%andb_prop. apply Z.leb_le in H.
  destruct (decide (is_nft e)) as [E|E].
  - rewrite (filter_cons_True is_nft), (filter_cons_False is_token)
      by (unfold is_nft, is_token in *; done || lia).
    cbn. by rewrite <- IH.
  - rewrite (filter_cons_False is_nft), (filter_cons_True is_token)
      by (unfold is_nft, is_token in *; done || lia).
    rewrite <- Permutation_middle. by rewrite <- IH.
Qed.

Lemma ada_entries (l : list (string * Z)) :
  NoDup l.*1 -> filter is_ada l = [] \/ exists ada, filter is_ada l = [("lovelace", ada)].
Proof.
  induction l as [|[k n] l IH]; [by left|]. cbn [fmap list_fmap]. intros [Hk Hl]%NoDup_cons.
  destruct (decide (is_ada (k, n))) as [E|E].
  - right. rewrite (filter_cons_True is_ada) by done. exists n.
    unfold is_ada in E. cbn in E, Hk. subst k. f_equal.
    apply filter_none, Forall_forall. intros [k' n'] Hin E'. unfold is_ada in E'. cbn in E'. subst k'.
    apply Hk. by apply (list_elem_of_fmap_2 fst) in Hin.
  - rewrite (filter_cons_False is_ada) by done. by apply IH.
Qed.

(** The result as a function of the entries in the order of the loop. *)
Definition verdict (l : list (string * Z)) : result parse_error (AssetClass * AssetClass * string) :=
  let others := filter (fun e => ~ is_ada e) l in
  if default 0 (snd <$> last (filter is_ada l)) =? 0 then Err NoAda
  else if negb (forallb (fun e => 1 <=? e.2) others) then Err InvalidAmountZero
  else
    match filter is_nft others, filter is_token others with
    | [], _ => Err NoNFT
    | [_], [] => Err NoToken
    | [nft], [token] => tokenClass ← parseAssetId token.1; Ok (ada_class, tokenClass, nft.1)
    | [_], _ => Err MultipleTokens
    | _, _ => Err MultipleNFTs
    end.

Lemma extractAssets_verdict `{Ledger, RangeOrder} v :
  extractAssetsFromUtxoValue v =
  match decode_value_map v with
  | None => Err DecodeValue
  | Some m => verdict (range (map_to_list m))
  end.
Proof.
  unfold extractAssetsFromUtxoValue, verdict. destruct (decode_value_map v) as [m|]; [|done].
  set (l := range (map_to_list m)). rewrite split_step_spec. cbn [app].
  set (others := filter (fun e => ~ is_ada e) l).
  destruct (_ =? 0); [done|]. rewrite count_assets_spec.
  destruct (forallb _ others); [|done]. cbn [negb mbind result_bind].
  destruct (filter is_nft others) as [|x [|x' N]] eqn:EN; [done| |].
  - destruct (filter is_token others) as [|y [|y' T]] eqn:ET; [done..|].
    cbn [length]. rewrite (proj2 (Z.eqb_neq (0 + Z.of_nat _) 0)) by lia.
    rewrite (proj2 (Z.ltb_ge 1 (0 + Z.of_nat 1))) by lia.
    rewrite (proj2 (Z.eqb_neq (0 + Z.of_nat _) 0)) by lia.
    by rewrite (proj2 (Z.ltb_lt 1 (0 + Z.of_nat _))) by lia.
  - cbn [length]. rewrite (proj2 (Z.eqb_neq (0 + Z.of_nat _) 0)) by lia.
    rewrite (proj2 (Z.ltb_lt 1 (0 + Z.of_nat _))) by lia. done.
Qed.

Lemma forallb_perm {A} (f : A -> bool) l l' : l ≡ₚ l' -> forallb f l = forallb f l'.
Proof.
  intros H. apply eq_bool_prop_intro. rewrite !Is_true_true, !forallb_forall.
  split; intros HF x Hx; apply HF; rewrite <- list_elem_of_In in *; by rewrite H in * || rewrite <- H in *.
Qed.

Lemma verdict_perm l l' : NoDup l.*1 -> l ≡ₚ l' -> verdict l = verdict l'.
Proof.
  intros Hnd Hp. unfold verdict.
  assert (filter is_ada l = filter is_ada l') as ->.
  { assert (filter is_ada l ≡ₚ filter is_ada l') as Hf by (by rewrite Hp).
    destruct (ada_entries l Hnd) as [E|[ada E]]; rewrite E in Hf |- *; symmetry in Hf.
    - by apply Permutation_nil_r in Hf.
    - by apply Permutation_singleton_r in Hf. }
  assert (filter (fun e => ~ is_ada e) l ≡ₚ filter (fun e => ~ is_ada e) l') as Ho by (by rewrite Hp).
  set (o := filter _ l) in *. set (o' := filter _ l') in *.
  rewrite (forallb_perm _ _ _ Ho).
  assert (filter is_nft o ≡ₚ filter is_nft o') as HN by (by rewrite Ho).
  assert (filter is_token o ≡ₚ filter is_token o') as HT by (by rewrite Ho).
  destruct (filter is_nft o) as [|x [|x' N]].
  - by apply Permutation_nil_l in HN as <-.
  - apply Permutation_singleton_l in HN as <-.
    destruct (filter is_token o) as [|y [|y' T]].
    + by apply Permutation_nil_l in HT as <-.
    + by apply Permutation_singleton_l in HT as <-.
    + apply Permutation_length in HT. by destruct (filter is_token o') as [|? [|? ?]].
  - apply Permutation_length in HN. by destruct (filter is_nft o') as [|? [|? ?]].
Qed.

Lemma verdict_ok l a b nft :
  NoDup l.*1 ->
  verdict l = Ok (a, b, nft) <->
  a = ada_class /\ exists ada token n,
    l ≡ₚ [("lovelace", ada); (nft, 1); (token, n)] /\ ada <> 0 /\ 1 < n /\ parseAssetId token = Ok b.
Proof.
  intros Hnd. split.
  - intros H. unfold verdict in H. set (o := filter (fun e => ~ is_ada e) l) in H.
    destruct (Z.eqb_spec (default 0 (snd <$> last (filter is_ada l))) 0) as [|Hada]; [done|].
    destruct (forallb _ o) eqn:Hall; [|done]. cbn [negb] in H. apply filter_split in Hall.
    destruct (filter is_nft o) as [|[k1 n1] [|? ?]] eqn:EN; [done| |done].
    destruct (filter is_token o) as [|[k2 n2] [|? ?]] eqn:ET; [done| |done].
    apply bind_ok in H as (cls & Hc & [= <- <- <-]). split; [done|].
    destruct (ada_entries l Hnd) as [E|[ada E]]; rewrite E in Hada; [done|].
    pose proof (Forall_filter_holds is_nft o) as Hn. rewrite EN in Hn.
    pose proof (Forall_filter_holds is_token o) as Ht. rewrite ET in Ht.
    rewrite Forall_singleton in Hn. rewrite Forall_singleton in Ht. unfold is_nft, is_token in *. cbn in Hn, Ht, Hada, Hc. subst n1.
    exists ada, k2, n2. split; [|done].
    transitivity (filter is_ada l ++ o); [symmetry; apply filter_app_complement|].
    rewrite E, Hall. done.
  - intros (-> & ada & token & n & Hp & Hada & Hn & Hc). rewrite (verdict_perm _ _ Hnd Hp).
    assert (NoDup ["lovelace"; nft; token]) as Hd by (change (NoDup [("lovelace", ada); (nft, 1); (token, n)].*1); by rewrite <- Hp).
    apply NoDup_cons in Hd as [Hl Hd]. rewrite !not_elem_of_cons in Hl. destruct Hl as (H1 & H2 & _).
    unfold verdict. rewrite (filter_cons_True is_ada), !(filter_cons_False is_ada), filter_nil by done.
    rewrite (filter_cons_False (fun e => ~ is_ada e)), !(filter_cons_True (fun e => ~ is_ada e)), filter_nil
      by (done || (intros H; by apply H)).
    change (default 0 (snd <$> last [("lovelace", ada)])) with ada.
    rewrite (proj2 (Z.eqb_neq ada 0)) by done. cbn [forallb snd].
    rewrite (proj2 (Z.leb_le 1 n)) by lia. cbn [andb negb].
    rewrite (filter_cons_True is_nft), (filter_cons_False is_nft), filter_nil
      by (unfold is_nft; cbn; done || lia).
    rewrite (filter_cons_False is_token), (filter_cons_True is_token), filter_nil
      by (unfold is_token; cbn; done || lia).
    cbn [fst]. by rewrite Hc.
Qed.

(** The assets of a VyFi pool do not depend on the order in which the value
    map is visited, and a value is accepted exactly when it holds three entries:
    a positive amount of lovelace, one unit of an asset, which becomes the pool's
    NFT, and more than one unit of another, the traded token, whose identifier is
    well formed. *)
Theorem extractAssets_accepts `{Ledger} (O1 O2 : RangeOrder) v :
  extractAssetsFromUtxoValue (H0 := O1) v = extractAssetsFromUtxoValue (H0 := O2) v /\
  forall a b nft,
    extractAssetsFromUtxoValue (H0 := O1) v = Ok (a, b, nft) <->
    a = ada_class /\ exists m ada token n,
      decode_value_map v = Some m /\
      map_to_list m ≡ₚ [("lovelace", ada); (nft, 1); (token, n)] /\
      ada <> 0 /\ 1 < n /\ parseAssetId token = Ok b.
Proof.
  rewrite !extractAssets_verdict. destruct (decode_value_map v) as [m|]; [|naive_solver].
  assert (forall O : RangeOrder, NoDup (range (map_to_list m)).*1) as Hnd
    by (intros O; rewrite range_perm; apply NoDup_fst_map_to_list).
  split.
  - apply verdict_perm; [apply Hnd|].
    transitivity (map_to_list m); [|symmetry]; apply range_perm.
  - intros a b nft. rewrite verdict_ok by apply Hnd.
    pose proof (@range_perm O1 _ (map_to_list m)) as Hr. setoid_rewrite Hr. naive_solver.
Qed.

(** A liquidity removal is never decoded: its fields are a list, and the code
    decodes the list itself as a constructor. *)
Lemma RemoveLiquidity_not_decoded fields :
  OrderDetails_UnmarshalCBOR (Constr 1 fields) = None.
Proof. done. Qed.

(** Pools with an NFT are named after it. *)
Lemma GeneratePoolId_nft nft nft' a b a' b' :
  nft <> "" -> nft' <> "" ->
  GeneratePoolId nft a b = GeneratePoolId nft' a' b' <-> nft = nft'.
Proof.
  intros H H'. unfold GeneratePoolId. rewrite !bool_decide_eq_false_2 by done. cbn [negb].
  split; [|by intros ->]. intros E. by do 2 apply append_inj_l in E.
Qed.
