(* ===== verification/Parsers.v ===== *)
(** * Parsers: the choice of a parser and what every choice guarantees
    ([cmd/shai/main.go], [dex/models.go]). *)
From S2P Require Import Prelude.
From S2P Require Import Text.
From S2P Require Import Common.
From S2P Require Import Pool.
From S2P Require Import Cbor.
From S2P Require Import Ledger.
From S2P Require Minswap SundaeSwap Splash WingRiders CSwap VyFi.

(** [getOracleParser]; [None] is the nil parser. *)
Definition getOracleParser `{C : Cbor, L : Ledger, O : RangeOrder, R : !CborRange C}
    (protocol : string) : option (@PoolParser C L) :=
  if bool_decide (protocol = "minswap-v1") then Some Minswap.MinswapV1
  else if bool_decide (protocol = "minswap-v2") || bool_decide (protocol = "minswap")
  then Some Minswap.MinswapV2
  else if bool_decide (protocol = "sundaeswap-v1") then Some SundaeSwap.SundaeSwapV1
  else if bool_decide (protocol = "sundaeswap-v3") || bool_decide (protocol = "sundaeswap")
  then Some SundaeSwap.SundaeSwapV3
  else if bool_decide (protocol = "splash-v1") || bool_decide (protocol = "splash")
  then Some Splash.SplashV1
  else if bool_decide (protocol = "wingriders-v2") || bool_decide (protocol = "wingriders")
  then Some WingRiders.WingRidersV2
  else if bool_decide (protocol = "vyfi") then Some VyFi.VyFiParser
  else if bool_decide (protocol = "cswap") then Some CSwap.CSwapParser
  else None.

(** A pool that a parser accepts can be quoted. *)
Lemma parsed_pool_quotable `{PoolParser} datum utxoValue txHash txIndex slot timestamp p pol nm a :
  is_u64 slot -> is_u64 a ->
  dex_ParsePoolDatum datum utxoValue txHash txIndex slot timestamp = Ok p ->
  ps_X p <> 0 -> ps_Y p <> 0 ->
  same_asset (aa_Class (ps_AssetX p)) (mkAssetClass pol nm) = true \/
  same_asset (aa_Class (ps_AssetY p)) (mkAssetClass pol nm) = true ->
  is_ok (Quote p pol nm a) = true /\
  ps_Protocol p = Protocol /\ ps_TxHash p = txHash /\ ps_TxIndex p = txIndex /\
  ps_Slot p = slot /\ ps_Timestamp p = timestamp.
Proof.
  intros Hslot Ha Hp Hx Hy Hasset.
  apply dex_ParsePoolDatum_ok in Hp as (s & -> & []). split; [|done].
  unfold ps_X, ps_Y in *. cbn in *.
  apply Quote_accepts;
    [split; unfold ps_X, ps_Y; cbn; int_lia | done | cbn; lia | cbn; lia | done..].
Qed.

(** The protocols a parser can be asked for, with the name it then reports. *)
Definition protocols : list (string * string) :=
  [("minswap-v1", "minswap-v1"); ("minswap-v2", "minswap-v2"); ("minswap", "minswap-v2");
   ("sundaeswap-v1", "sundaeswap-v1"); ("sundaeswap-v3", "sundaeswap-v3");
   ("sundaeswap", "sundaeswap-v3"); ("splash-v1", "splash-v1"); ("splash", "splash-v1");
   ("wingriders-v2", "wingriders-v2"); ("wingriders", "wingriders-v2"); ("vyfi", "vyfi");
   ("cswap", "cswap")].

Lemma getOracleParser_protocols `{C : Cbor, L : Ledger, O : RangeOrder, R : !CborRange C} protocol P :
  getOracleParser protocol = Some P -> (protocol, @Protocol _ _ P) ∈ protocols.
Proof.
  unfold getOracleParser. intros E.
  repeat match type of E with
    | (if ?b then _ else _) = _ => destruct b eqn:?
    end; simplify_eq;
  repeat match goal with
    | H : _ || _ = true |- _ => apply orb_prop in H as [H|H]
    end; bool_prop; subst; repeat constructor.
Qed.

(** Whatever protocol the oracle is configured for, and whatever datum and
    output it reads, a pool that the parser accepts has a valid fee: a swap of one
    of its two assets is quoted as soon as both reserves are positive, and the
    pool carries the protocol's canonical name and the place and time of the
    output that was parsed. *)
Theorem oracle_pools_are_quotable `{C : Cbor, L : Ledger, O : RangeOrder, R : !CborRange C}
    protocol P datum utxoValue txHash txIndex slot timestamp p pol nm a :
  getOracleParser protocol = Some P ->
  is_u64 slot -> is_u64 a ->
  @dex_ParsePoolDatum _ _ P datum utxoValue txHash txIndex slot timestamp = Ok p ->
  ps_X p <> 0 -> ps_Y p <> 0 ->
  same_asset (aa_Class (ps_AssetX p)) (mkAssetClass pol nm) = true \/
  same_asset (aa_Class (ps_AssetY p)) (mkAssetClass pol nm) = true ->
  is_ok (Quote p pol nm a) = true /\
  (protocol, ps_Protocol p) ∈ protocols /\
  ps_TxHash p = txHash /\ ps_TxIndex p = txIndex /\ ps_Slot p = slot /\ ps_Timestamp p = timestamp.
Proof.
  intros HP Hslot Ha Hp Hx Hy Hasset.
  destruct (parsed_pool_quotable (H1 := P) _ _ _ _ _ _ _ _ _ _ Hslot Ha Hp Hx Hy Hasset)
    as (Hq & -> & Hmeta).
  split; [done|]. split; [|done]. by apply getOracleParser_protocols.
Qed.

(** ** A concrete input: a Minswap V2 pool *)

#[local] Existing Instance in_key_order.

Definition sample_output : @value sample_ledger := (mkTransactionOutput 0 None, ∅).

Lemma oracle_pools_are_quotable_witness :
  exists P p, getOracleParser (C := PlutusData) (L := sample_ledger) "minswap" = Some P /\
    @dex_ParsePoolDatum _ _ P (Minswap.encode_v2 Minswap.sample_v2) sample_output "tx" 0 7 9 = Ok p /\
    is_ok (Quote p (Some [x01; x02]) (Some [x55]) 1000) = true.
Proof.
  exists Minswap.MinswapV2. eexists. split; [reflexivity|].
  split; [vm_compute; reflexivity|].
  eapply (oracle_pools_are_quotable (C := PlutusData) (L := sample_ledger) "minswap" Minswap.MinswapV2
            (Minswap.encode_v2 Minswap.sample_v2) sample_output "tx" 0 7 9);
    [reflexivity | u64_closed | u64_closed | vm_compute; reflexivity
    | discriminate | discriminate | right; reflexivity].
Defined.
