(* ===== verification/Watches.v ===== *)
(** * Watches: the watch manager of the indexer ([internal/indexer/watches.go]).

    Callers register callbacks for a transaction or for the spending of an
    output, with an optional time to live; every event is matched against two
    indexes. The state is explicit and an operation runs under the manager's
    lock, so operations are steps; the callbacks that an event fires are the
    output of [CheckEvent]. A callback is an element of an arbitrary type, [None]
    for nil. *)
From S2P Require Import Prelude.
From S2P Require Import Text.

Inductive WatchType := WatchTypeTxId | WatchTypeUTxO.

#[export] Instance WatchType_eq_dec : EqDecision WatchType.
Proof. solve_decision. Defined.

(** What the code reads of an event: the hash in its context, if it is the
    context of a transaction, and its payload, if it is a transaction event,
    with the inputs it consumes, if it carries the transaction. *)
Record Event := mkEvent {
  ev_TransactionHash : option string;
  ev_Payload : option (option (list (string * Z)));
}.

Section Manager.
Context {C : Type}.

Record Watch := mkWatch {
  w_Id : string;
  w_Type : WatchType;
  w_Pattern : string;
  w_Callback : option C;
  w_TTL : duration;
  w_CreatedAt : gotime;
}.

Record WatchManager := mkManager {
  watches : gmap string Watch;
  txIdIndex : gmap string (list string);
  utxoIndex : gmap string (list string);
  nextId : Z;
  stopped : bool;
}.

Definition utxoPattern (txId : string) (index : Z) : string :=
  txId +:+ String "#"%char (IntString index).

Definition NewWatchManager : WatchManager := mkManager ∅ ∅ ∅ 0 false.

Definition watch_ids (index : gmap string (list string)) (key : string) : list string :=
  default [] (index !! key).

(** The new state and the identifier of the watch, empty once stopped. *)
Definition RegisterTxWatch (txId : string) (ttl : duration) (callback : option C) (now : gotime)
    (m : WatchManager) : WatchManager * string :=
  if stopped m then (m, "")
  else
    let nextId' := u64 (nextId m + 1) in
    let watchId := "tx-" +:+ IntString nextId' in
    let watch := mkWatch watchId WatchTypeTxId txId callback ttl now in
    (mkManager (<[watchId := watch]> (watches m))
       (<[txId := watch_ids (txIdIndex m) txId ++ [watchId]]> (txIdIndex m))
       (utxoIndex m) nextId' (stopped m), watchId).

Definition RegisterUTxOWatch (txId : string) (index : Z) (ttl : duration) (callback : option C)
    (now : gotime) (m : WatchManager) : WatchManager * string :=
  if stopped m then (m, "")
  else
    let nextId' := u64 (nextId m + 1) in
    let watchId := "utxo-" +:+ IntString nextId' in
    let pattern := utxoPattern txId index in
    let watch := mkWatch watchId WatchTypeUTxO pattern callback ttl now in
    (mkManager (<[watchId := watch]> (watches m)) (txIdIndex m)
       (<[pattern := watch_ids (utxoIndex m) pattern ++ [watchId]]> (utxoIndex m))
       nextId' (stopped m), watchId).

(** The first occurrence of an identifier is cut out of a list. *)
Fixpoint remove_id (watchId : string) (l : list string) : list string :=
  match l with
  | [] => []
  | id :: l' => if bool_decide (id = watchId) then l' else id :: remove_id watchId l'
  end.

Definition removeFromIndex (index : gmap string (list string)) (key watchId : string)
  : gmap string (list string) :=
  let rest := remove_id watchId (watch_ids index key) in
  if Nat.eqb (length rest) 0 then delete key index else <[key := rest]> index.

(** [unregisterLocked], and [Unregister], which only takes the lock. *)
Definition unregisterLocked (watchId : string) (m : WatchManager) : WatchManager :=
  match watches m !! watchId with
  | None => m
  | Some watch =>
      match w_Type watch with
      | WatchTypeTxId =>
          mkManager (delete watchId (watches m)) (removeFromIndex (txIdIndex m) (w_Pattern watch) watchId)
            (utxoIndex m) (nextId m) (stopped m)
      | WatchTypeUTxO =>
          mkManager (delete watchId (watches m)) (txIdIndex m)
            (removeFromIndex (utxoIndex m) (w_Pattern watch) watchId) (nextId m) (stopped m)
      end
  end.

Definition fireWatches (m : WatchManager) (watchIds : list string) : list (string * C) :=
  omap (fun watchId =>
          match watches m !! watchId with
          | None => None
          | Some watch =>
              match w_Callback watch with None => None | Some callback => Some (watchId, callback) end
          end) watchIds.

(** The callbacks that an event fires, in order. *)
Definition CheckEvent (m : WatchManager) (evt : Event) : list (string * C) :=
  if stopped m then []
  else
    match ev_Payload evt with
    | None => []
    | Some transaction =>
        (match ev_TransactionHash evt with
         | Some hash => fireWatches m (watch_ids (txIdIndex m) hash)
         | None => []
         end) ++
        (match transaction with
         | Some consumed =>
             consumed ≫= fun '(txId, index) =>
               fireWatches m (watch_ids (utxoIndex m) (utxoPattern txId index))
         | None => []
         end)
    end.

Definition expired (now : gotime) (w : Watch) : bool :=
  (0 <? w_TTL w) && (w_TTL w <? Sub now (w_CreatedAt w)).

Definition expireWatches `{RangeOrder} (now : gotime) (m : WatchManager) : WatchManager :=
  let expiredIds := (filter (fun e => expired now e.2 = true) (range (map_to_list (watches m)))).*1 in
  foldl (fun m watchId => unregisterLocked watchId m) m expiredIds.

Definition Stop (m : WatchManager) : WatchManager :=
  if stopped m then m else mkManager ∅ ∅ ∅ (nextId m) true.

Definition WatchCount (m : WatchManager) : nat := size (watches m).

(** ** Operations as steps *)

Inductive watch_op :=
| OpRegisterTx (txId : string) (ttl : duration) (callback : option C) (now : gotime)
| OpRegisterUTxO (txId : string) (index : Z) (ttl : duration) (callback : option C) (now : gotime)
| OpUnregister (watchId : string)
| OpExpire (now : gotime)
| OpStop.

Definition step `{RangeOrder} (m : WatchManager) (op : watch_op) : WatchManager :=
  match op with
  | OpRegisterTx txId ttl callback now => (RegisterTxWatch txId ttl callback now m).1
  | OpRegisterUTxO txId index ttl callback now => (RegisterUTxOWatch txId index ttl callback now m).1
  | OpUnregister watchId => unregisterLocked watchId m
  | OpExpire now => expireWatches now m
  | OpStop => Stop m
  end.

Definition run `{RangeOrder} (ops : list watch_op) : WatchManager := foldl step NewWatchManager ops.

(** ** The contract: a registry of watches

    The abstract state is the set of live watches, with the number of
    registrations and whether the manager was stopped. An event fires the
    callback of every live watch that it matches. *)
Record registry := mkRegistry {
  live : gmap string Watch;
  registered : Z;
  closed : bool;
}.

Definition reg_add (prefix : string) (t : WatchType) (pattern : string) (ttl : duration)
    (callback : option C) (now : gotime) (r : registry) : registry :=
  if closed r then r
  else
    let n := registered r + 1 in
    let id := prefix +:+ IntString n in
    mkRegistry (<[id := mkWatch id t pattern callback ttl now]> (live r)) n false.

Definition reg_step (r : registry) (op : watch_op) : registry :=
  match op with
  | OpRegisterTx txId ttl callback now => reg_add "tx-" WatchTypeTxId txId ttl callback now r
  | OpRegisterUTxO txId index ttl callback now =>
      reg_add "utxo-" WatchTypeUTxO (utxoPattern txId index) ttl callback now r
  | OpUnregister watchId => mkRegistry (delete watchId (live r)) (registered r) (closed r)
  | OpExpire now =>
      mkRegistry (filter (fun e => ~ (0 < w_TTL e.2 /\ w_TTL e.2 < Sub now (w_CreatedAt e.2))) (live r))
        (registered r) (closed r)
  | OpStop => mkRegistry ∅ (registered r) true
  end.

Definition reg_run (ops : list watch_op) : registry := foldl reg_step (mkRegistry ∅ 0 false) ops.

(** The patterns of an event, by type of watch. *)
Definition event_patterns (evt : Event) : list (WatchType * string) :=
  match ev_Payload evt with
  | None => []
  | Some transaction =>
      option_list ((fun hash => (WatchTypeTxId, hash)) <$> ev_TransactionHash evt) ++
      ((fun '(txId, index) => (WatchTypeUTxO, utxoPattern txId index)) <$> default [] transaction)
  end.

Definition fires (evt : Event) (w : Watch) : bool :=
  bool_decide ((w_Type w, w_Pattern w) ∈ event_patterns evt).

(** The callbacks of the live watches that match an event. *)
Definition reg_fired (r : registry) (evt : Event) : list (string * C) :=
  omap (fun e => if fires evt e.2 then (fun c => (e.1, c)) <$> w_Callback e.2 else None)
    (map_to_list (live r)).
End Manager.
Arguments Watch : clear implicits.
Arguments WatchManager : clear implicits.
Arguments watch_op : clear implicits.
Arguments registry : clear implicits.

(** ** Properties *)
Section Facts.
Context {C : Type} `{RangeOrder}.
Implicit Types (m : WatchManager C) (W : gmap string (Watch C)) (w : Watch C).

(** An index lists, under each pattern, the live watches of its type. *)
Definition index_ok (index : gmap string (list string)) (t : WatchType) W : Prop :=
  forall key, NoDup (watch_ids index key) /\
    forall id, id ∈ watch_ids index key <->
      exists w, W !! id = Some w /\ w_Type w = t /\ w_Pattern w = key.

Lemma watch_ids_insert index key l key' :
  watch_ids (<[key := l]> index) key' = if decide (key = key') then l else watch_ids index key'.
Proof.
  unfold watch_ids. case_decide; [subst; by rewrite lookup_insert_eq | by rewrite lookup_insert_ne].
Qed.

Lemma watch_ids_delete index key key' :
  watch_ids (delete key index) key' = if decide (key = key') then [] else watch_ids index key'.
Proof.
  unfold watch_ids. case_decide; [subst; by rewrite lookup_delete_eq | by rewrite lookup_delete_ne].
Qed.

Lemma watch_ids_remove index key id key' :
  watch_ids (removeFromIndex index key id) key' =
  if decide (key = key') then remove_id id (watch_ids index key) else watch_ids index key'.
Proof.
  unfold removeFromIndex. destruct (Nat.eqb_spec (length (remove_id id (watch_ids index key))) 0) as [E|E].
  - rewrite watch_ids_delete. case_decide; [|done]. by apply length_zero_iff_nil in E as ->.
  - apply watch_ids_insert.
Qed.

Lemma remove_id_spec id l :
  NoDup l -> NoDup (remove_id id l) /\ forall x, x ∈ remove_id id l <-> x ∈ l /\ x <> id.
Proof.
  induction l as [|y l IH]; [split; [constructor | set_solver]|].
  intros [Hy Hl]%NoDup_cons. cbn [remove_id]. case_bool_decide as E.
  - subst y. split; [done|]. intros x. rewrite elem_of_cons. naive_solver.
  - destruct (IH Hl) as [Hn Hx]. split; [apply NoDup_cons; split; [rewrite Hx; tauto | done]|].
    intros x. rewrite !elem_of_cons, Hx. naive_solver.
Qed.

Lemma index_add index t W id w :
  W !! id = None -> index_ok index t W -> w_Type w = t ->
  index_ok (<[w_Pattern w := watch_ids index (w_Pattern w) ++ [id]]> index) t (<[id := w]> W).
Proof.
  intros Hid Hok Ht key. destruct (Hok key) as [Hn Hx]. rewrite watch_ids_insert.
  assert (id ∉ watch_ids index key) by (rewrite Hx; naive_solver).
  assert (forall i, (exists v, <[id := w]> W !! i = Some v /\ w_Type v = t /\ w_Pattern v = key) <->
    (i = id /\ w_Pattern w = key) \/ i ∈ watch_ids index key) as Hi.
  { intros i. rewrite Hx. destruct (decide (i = id)) as [->|].
    - rewrite lookup_insert_eq. naive_solver.
    - rewrite lookup_insert_ne by done. naive_solver. }
  case_decide as E; setoid_rewrite Hi.
  - subst key. split.
    + apply NoDup_app. split_and!; [done | set_solver | apply NoDup_singleton].
    + intros i. rewrite elem_of_app, list_elem_of_singleton. naive_solver.
  - split; [done|]. naive_solver.
Qed.

Lemma index_add_other index t W id w :
  W !! id = None -> index_ok index t W -> w_Type w <> t -> index_ok index t (<[id := w]> W).
Proof.
  intros Hid Hok Ht key. destruct (Hok key) as [Hn Hx]. split; [done|]. intros i. rewrite Hx.
  destruct (decide (i = id)) as [->|]; [rewrite lookup_insert_eq | rewrite lookup_insert_ne by done];
    naive_solver.
Qed.

Lemma index_remove index t W id w :
  W !! id = Some w -> index_ok index t W -> w_Type w = t ->
  index_ok (removeFromIndex index (w_Pattern w) id) t (delete id W).
Proof.
  intros Hid Hok Ht key. rewrite watch_ids_remove.
  assert (forall i, (exists v, delete id W !! i = Some v /\ w_Type v = t /\ w_Pattern v = key) <->
    i ∈ watch_ids index key /\ i <> id) as Hi.
  { intros i. destruct (Hok key) as [_ Hx]. rewrite Hx. setoid_rewrite lookup_delete_Some. naive_solver. }
  case_decide as E; setoid_rewrite Hi.
  - subst key. apply remove_id_spec, Hok.
  - destruct (Hok key) as [Hn Hx]. split; [done|]. intros i. split; [|tauto]. intros Hin.
    split; [done|]. intros ->. apply Hx in Hin. naive_solver.
Qed.

Lemma index_remove_other index t W id w :
  W !! id = Some w -> index_ok index t W -> w_Type w <> t -> index_ok index t (delete id W).
Proof.
  intros Hid Hok Ht key. destruct (Hok key) as [Hn Hx]. split; [done|]. intros i. rewrite Hx.
  setoid_rewrite lookup_delete_Some. naive_solver.
Qed.

(** ** The simulation *)

Definition prefix_of (t : WatchType) : string :=
  match t with WatchTypeTxId => "tx-" | WatchTypeUTxO => "utxo-" end.

Record represents m (r : registry C) : Prop := {
  rp_watches : watches m = live r;
  rp_nextId : nextId m = registered r;
  rp_stopped : stopped m = closed r;
  rp_count : 0 <= registered r;
  rp_tx : index_ok (txIdIndex m) WatchTypeTxId (live r);
  rp_utxo : index_ok (utxoIndex m) WatchTypeUTxO (live r);
  rp_ids : forall id w, live r !! id = Some w ->
    exists n, 1 <= n <= registered r /\ id = prefix_of (w_Type w) +:+ IntString n;
  rp_closed : closed r = true -> live r = ∅;
}.

Lemma prefix_inj t t' a b :
  prefix_of t +:+ IntString a = prefix_of t' +:+ IntString b -> t = t' /\ a = b.
Proof.
  destruct t, t'; cbn; intros E; simplify_eq; split; try done; by apply IntString_inj.
Qed.

Lemma fresh_id m r t :
  represents m r -> live r !! (prefix_of t +:+ IntString (registered r + 1)) = None.
Proof.
  intros R. destruct (live r !! _) as [w|] eqn:E; [|done].
  apply (rp_ids _ _ R) in E as (n & Hn & [_ <-]%prefix_inj). lia.
Qed.

Lemma rp_ids_add r t w :
  (forall id v, live r !! id = Some v ->
     exists n, 1 <= n <= registered r /\ id = prefix_of (w_Type v) +:+ IntString n) ->
  0 <= registered r -> w_Type w = t ->
  forall id v, <[prefix_of t +:+ IntString (registered r + 1) := w]> (live r) !! id = Some v ->
    exists n, 1 <= n <= registered r + 1 /\ id = prefix_of (w_Type v) +:+ IntString n.
Proof.
  intros Hids Hc Ht id v [[<- <-]|[_ Hv]]%lookup_insert_Some.
  - exists (registered r + 1). split; [lia | by rewrite Ht].
  - apply Hids in Hv as (n & Hn & ->). exists n. split; [lia | done].
Qed.

Lemma register_tx_represents m r txId ttl cb now :
  represents m r -> registered r < MaxUint64 ->
  represents (step m (OpRegisterTx txId ttl cb now)) (reg_step r (OpRegisterTx txId ttl cb now)).
Proof.
  intros R Hb. pose proof (fresh_id m r WatchTypeTxId R) as Hf. cbn [prefix_of] in Hf.
  cbn [step reg_step]. unfold RegisterTxWatch, reg_add.
  pose proof R as [Hw Hn Hs Hc Htx Hu Hids Hcl]. rewrite Hs. destruct (closed r) eqn:Hclosed; [exact R|].
  rewrite Hn, u64_small by int_lia. cbn [fst].
  set (w := mkWatch _ WatchTypeTxId _ _ _ _).
  split; cbn [watches txIdIndex utxoIndex nextId stopped live registered closed]; try done; try lia.
  - by rewrite Hw.
  - exact (index_add _ _ _ _ w Hf Htx eq_refl).
  - by apply index_add_other.
  - by apply (rp_ids_add r WatchTypeTxId w).
Qed.

Lemma register_utxo_represents m r txId index ttl cb now :
  represents m r -> registered r < MaxUint64 ->
  represents (step m (OpRegisterUTxO txId index ttl cb now))
    (reg_step r (OpRegisterUTxO txId index ttl cb now)).
Proof.
  intros R Hb. pose proof (fresh_id m r WatchTypeUTxO R) as Hf. cbn [prefix_of] in Hf.
  cbn [step reg_step]. unfold RegisterUTxOWatch, reg_add.
  pose proof R as [Hw Hn Hs Hc Htx Hu Hids Hcl]. rewrite Hs. destruct (closed r) eqn:Hclosed; [exact R|].
  rewrite Hn, u64_small by int_lia. cbn [fst].
  set (w := mkWatch _ WatchTypeUTxO _ _ _ _).
  split; cbn [watches txIdIndex utxoIndex nextId stopped live registered closed]; try done; try lia.
  - by rewrite Hw.
  - by apply index_add_other.
  - exact (index_add _ _ _ _ w Hf Hu eq_refl).
  - by apply (rp_ids_add r WatchTypeUTxO w).
Qed.

Lemma unregister_represents m r id :
  represents m r -> represents (unregisterLocked id m) (reg_step r (OpUnregister id)).
Proof.
  intros [Hw Hn Hs Hc Htx Hu Hids Hcl]. cbn [reg_step]. unfold unregisterLocked. rewrite Hw.
  destruct (live r !! id) as [w|] eqn:Hid.
  2:{ rewrite delete_id by done. split; done. }
  destruct (w_Type w) eqn:Ht;
    split; cbn [watches txIdIndex utxoIndex nextId stopped live registered closed]; try done.
  - by apply index_remove.
  - apply (index_remove_other _ _ _ _ w); done || congruence.
  - intros i v [_ Hv]%lookup_delete_Some. by apply Hids.
  - intros E. rewrite (Hcl E). apply delete_empty.
  - apply (index_remove_other _ _ _ _ w); done || congruence.
  - by apply index_remove.
  - intros i v [_ Hv]%lookup_delete_Some. by apply Hids.
  - intros E. rewrite (Hcl E). apply delete_empty.
Qed.

Lemma unregister_all m r ids :
  represents m r ->
  represents (foldl (fun m id => unregisterLocked id m) m ids)
    (mkRegistry (filter (fun e => e.1 ∉ ids) (live r)) (registered r) (closed r)).
Proof.
  revert m r. induction ids as [|id ids IH]; intros m r R; cbn [foldl].
  - assert (filter (fun e => e.1 ∉ []) (live r) = live r) as ->.
    { apply map_filter_id. intros i x _. apply not_elem_of_nil. }
    by destruct r.
  - apply (unregister_represents m r id), IH in R. cbn [reg_step live registered closed] in R.
    assert (filter (fun e => e.1 ∉ id :: ids) (live r) =
            filter (fun e => e.1 ∉ ids) (delete id (live r))) as ->; [|done].
    apply map_eq. intros i. apply option_eq. intros x.
    rewrite !map_lookup_filter_Some, lookup_delete_Some. cbn [fst]. rewrite not_elem_of_cons.
    naive_solver.
Qed.

Lemma expired_spec now w :
  expired now w = true <-> 0 < w_TTL w /\ w_TTL w < Sub now (w_CreatedAt w).
Proof. unfold expired. by rewrite andb_true_iff, !Z.ltb_lt. Qed.

Lemma expire_represents m r now :
  represents m r -> represents (expireWatches now m) (reg_step r (OpExpire now)).
Proof.
  intros R. unfold expireWatches. cbn [reg_step].
  set (ids := (filter _ _).*1).
  assert (filter (fun e => ~ (0 < w_TTL e.2 /\ w_TTL e.2 < Sub now (w_CreatedAt e.2))) (live r) =
          filter (fun e => e.1 ∉ ids) (live r)) as ->; [|by apply unregister_all].
  apply map_filter_ext. intros id w Hw. cbn [fst snd]. unfold ids.
  rewrite (rp_watches _ _ R), list_elem_of_fmap. setoid_rewrite list_elem_of_filter.
  setoid_rewrite range_perm. setoid_rewrite elem_of_map_to_list'. split.
  - intros E ([i v] & -> & E' & Hv). cbn [fst snd] in *. destruct E.
    assert (v = w) as -> by congruence. by apply expired_spec.
  - intros Hn E%expired_spec. destruct Hn. by exists (id, w).
Qed.

Lemma stop_represents m r : represents m r -> represents (Stop m) (reg_step r OpStop).
Proof.
  intros R. pose proof R as [Hw Hn Hs Hc Htx Hu Hids Hcl]. cbn [reg_step]. unfold Stop. rewrite Hs.
  destruct (closed r) eqn:E.
  - destruct r as [L n c]. cbn [live registered closed] in *. by rewrite <- (Hcl eq_refl), <- E.
  - assert (forall t, index_ok ∅ t ∅) as Hempty.
    { intros t key. split; [constructor|]. intros id. cbn. setoid_rewrite lookup_empty. set_solver. }
    split; cbn [watches txIdIndex utxoIndex nextId stopped live registered closed]; try done.
Qed.

Lemma watch_step_represents m r op :
  represents m r -> registered r < MaxUint64 -> represents (step m op) (reg_step r op).
Proof.
  intros R Hb. destruct op; cbn [step].
  - by apply register_tx_represents.
  - by apply register_utxo_represents.
  - by apply unregister_represents.
  - by apply expire_represents.
  - by apply stop_represents.
Qed.

Lemma reg_step_count r op :
  registered r <= registered (@reg_step C r op) <= registered r + 1.
Proof. destruct op; cbn; unfold reg_add; try destruct (closed r); cbn; lia. Qed.

Lemma watch_run_represents (ops : list (watch_op C)) :
  Z.of_nat (length ops) <= MaxUint64 ->
  represents (run ops) (reg_run ops) /\ registered (reg_run ops) <= Z.of_nat (length ops).
Proof.
  induction ops as [|op ops IH] using rev_ind; intros Hb.
  - split; [|done]. split; cbn; try done.
    + intros key. split; [constructor|]. intros id. cbn. setoid_rewrite lookup_empty. set_solver.
    + intros key. split; [constructor|]. intros id. cbn. setoid_rewrite lookup_empty. set_solver.
  - rewrite length_app in *. cbn [length] in *. destruct IH as [R Hc]; [lia|].
    unfold run, reg_run in *. rewrite !foldl_snoc. split; [apply watch_step_represents; [done | lia]|].
    pose proof (reg_step_count (foldl reg_step (mkRegistry ∅ 0 false) ops) op). lia.
Qed.

(** ** Matching an event *)

Definition index_of m (t : WatchType) : gmap string (list string) :=
  match t with WatchTypeTxId => txIdIndex m | WatchTypeUTxO => utxoIndex m end.

Lemma CheckEvent_patterns m evt :
  CheckEvent m evt =
  if stopped m then []
  else event_patterns evt ≫= fun '(t, p) => fireWatches m (watch_ids (index_of m t) p).
Proof.
  unfold CheckEvent, event_patterns. destruct (stopped m); [done|].
  destruct (ev_Payload evt) as [tx|]; [|done]. rewrite bind_app. f_equal.
  - destruct (ev_TransactionHash evt); [|done]. cbn. by rewrite app_nil_r.
  - destruct tx as [consumed|]; [|done]. cbn [default].
    induction consumed as [|[txId i] l IH]; [done|]. cbn. f_equal. exact IH.
Qed.

Lemma NoDup_omap_key {A} (key : A -> string) (g : A -> option (string * C)) l :
  (forall a y, g a = Some y -> y.1 = key a) -> NoDup (key <$> l) -> NoDup (omap g l).
Proof.
  intros Hg. induction l as [|a l IH]; [constructor|]. cbn [fmap list_fmap omap list_omap].
  intros [Ha Hl]%NoDup_cons. destruct (g a) as [y|] eqn:E; [|by apply IH].
  apply NoDup_cons. split; [|by apply IH]. intros (b & Hb & E')%list_elem_of_omap.
  apply Ha. rewrite <- (Hg _ _ E), (Hg _ _ E'). by apply list_elem_of_fmap_2.
Qed.

Lemma elem_of_fireWatches m ids id c :
  (id, c) ∈ fireWatches m ids <->
  id ∈ ids /\ exists w, watches m !! id = Some w /\ w_Callback w = Some c.
Proof.
  unfold fireWatches. rewrite list_elem_of_omap. split.
  - intros (i & Hi & E). repeat case_match; naive_solver.
  - intros (Hi & w & Hw & Hc). exists id. by rewrite Hw, Hc.
Qed.

Lemma index_of_ok m r t : represents m r -> index_ok (index_of m t) t (live r).
Proof. intros []. by destruct t. Qed.

Lemma fireWatches_matching m r t p id c :
  represents m r ->
  (id, c) ∈ fireWatches m (watch_ids (index_of m t) p) <->
  exists w, live r !! id = Some w /\ (w_Type w, w_Pattern w) = (t, p) /\ w_Callback w = Some c.
Proof.
  intros R. rewrite elem_of_fireWatches. destruct (index_of_ok m r t R p) as [_ ->].
  rewrite (rp_watches _ _ R). naive_solver.
Qed.

Lemma NoDup_fired m r ps :
  represents m r -> NoDup ps ->
  NoDup (ps ≫= fun '(t, p) => fireWatches m (watch_ids (index_of m t) p)).
Proof.
  intros R. induction ps as [|[t p] ps IH]; [constructor|]. intros [Hp Hps]%NoDup_cons.
  cbn [mbind list_bind]. apply NoDup_app. split_and!; [| |by apply IH].
  - apply (NoDup_omap_key (fun id => id)); [intros; repeat case_match; naive_solver|].
    rewrite list_fmap_id. apply (index_of_ok m r t R).
  - intros [id c] (w & Hw & Ht & _)%(fireWatches_matching m r t p id c R).
    intros ([t' p'] & Hin & Hps')%list_elem_of_bind.
    apply (fireWatches_matching m r t' p' id c R) in Hin as (w' & Hw' & Ht' & _). congruence.
Qed.

(** C31: the indexed manager refines the registry of live watches. After any
    sequence of registrations, removals, expirations and stops, its watches are
    the live ones, and an event fires the callback of exactly those that it
    matches, each once; nothing after a stop. *)
Theorem watches_refine_registry (ops : list (watch_op C)) evt :
  Z.of_nat (length ops) <= MaxUint64 -> NoDup (event_patterns evt) ->
  watches (run ops) = live (reg_run ops) /\
  CheckEvent (run ops) evt ≡ₚ reg_fired (reg_run ops) evt.
Proof.
  intros Hb Hp. destruct (watch_run_represents ops Hb) as [R _].
  set (m := run ops) in *. set (r := reg_run ops) in *. split; [apply R|].
  rewrite CheckEvent_patterns, (rp_stopped _ _ R). unfold reg_fired.
  destruct (closed r) eqn:Hc; [by rewrite (rp_closed _ _ R Hc), map_to_list_empty|].
  apply NoDup_Permutation.
  - by eapply NoDup_fired.
  - apply (NoDup_omap_key fst); [|apply NoDup_fst_map_to_list].
    intros [id w] y. cbn [fst snd]. destruct (fires evt w), (w_Callback w); naive_solver.
  - intros [id c]. rewrite list_elem_of_bind, list_elem_of_omap. split.
    + intros ([t p] & Hin & Hps).
      apply (fireWatches_matching m r t p id c R) in Hin as (w & Hw & Ht & Hcb).
      exists (id, w). split; [by apply elem_of_map_to_list'|]. cbn [fst snd]. unfold fires.
      rewrite bool_decide_eq_true_2 by (by rewrite Ht). by rewrite Hcb.
    + intros ([i w] & Hw%elem_of_map_to_list' & E). cbn [fst snd] in *.
      destruct (fires evt w) eqn:Hf; [|done]. apply bool_decide_eq_true in Hf.
      destruct (w_Callback w) as [c'|] eqn:Hcb; [|done]. injection E as -> ->.
      exists (w_Type w, w_Pattern w). split; [|done].
      apply (fireWatches_matching m r _ _ id c R). by exists w.
Qed.
End Facts.

(** ** A concrete run *)

Definition sample_ops : list (watch_op nat) :=
  [OpRegisterTx "aa" 0 (Some 1%nat) 10; OpRegisterUTxO "bb" 0 5 (Some 2%nat) 10;
   OpRegisterTx "aa" 0 (Some 3%nat) 11; OpUnregister "tx-1"; OpExpire 12].
Definition sample_event : Event := mkEvent (Some "aa") (Some (Some [("bb", 0); ("cc", 1)])).

Lemma watches_refine_registry_witness :
  @CheckEvent nat (run (H := in_key_order) sample_ops) sample_event = [("tx-3", 3%nat); ("utxo-2", 2%nat)] /\
  CheckEvent (run (H := in_key_order) sample_ops) sample_event ≡ₚ
    reg_fired (reg_run sample_ops) sample_event.
Proof.
  split; [vm_compute; reflexivity|].
  apply (watches_refine_registry (H := in_key_order) sample_ops sample_event).
  - discriminate.
  - apply (bool_decide_unpack _). vm_compute. exact I.
Defined.
