(* ===== verification/KeyValue.v ===== *)
(** * KeyValue: the transactional key-value database under the storages.

    [internal/storage] and [internal/oracle] keep their data in Badger, an
    external database. [KV] states what they rely on: a read sees the last write
    of the key, and a transaction whose function fails changes nothing ([Update]).
    [OrderedKV] adds the iterators, which visit the keys of a prefix in the order
    of their bytes. Values are encoded records: [Codec] is the promise of
    [encoding/json] that what was encoded decodes to the same record. *)
From Stdlib Require Import DecimalString.
From S2P Require Import Prelude.
From S2P Require Import Text.

(** ** The database *)

Class KV := {
  db : Type;
  Get : db -> string -> option string;
  Set_ : string -> string -> db -> db;
  Delete : string -> db -> db;
  Get_Set_eq : forall d k v, Get (Set_ k v d) k = Some v;
  Get_Set_ne : forall d k k' v, k <> k' -> Get (Set_ k v d) k' = Get d k';
  Get_Delete_eq : forall d k, Get (Delete k d) k = None;
  Get_Delete_ne : forall d k k', k <> k' -> Get (Delete k d) k' = Get d k';
}.

#[export, program] Instance gmap_KV : KV := {|
  db := gmap string string;
  Get d k := d !! k;
  Set_ k v d := <[k := v]> d;
  Delete k d := delete k d;
|}.
Next Obligation. intros. cbn. by rewrite lookup_insert_eq. Qed.
Next Obligation. intros. cbn. by rewrite lookup_insert_ne. Qed.
Next Obligation. intros. cbn. by rewrite lookup_delete_eq. Qed.
Next Obligation. intros. cbn. by rewrite lookup_delete_ne. Qed.

(** [db.Update]: a failing transaction is discarded. *)
Definition Update `{KV} {E} (f : db -> result E db) (d : db) : db * result E unit :=
  match f d with
  | Ok d' => (d', Ok tt)
  | Err e => (d, Err e)
  end.

(** Iterators: the keys of a prefix that are present, in ascending order. *)
Class OrderedKV `{KV} := {
  Keys : string -> db -> list string;
  elem_of_Keys : forall p d k, k ∈ Keys p d <-> is_Some (Get d k) /\ String.prefix p k = true;
  Keys_sorted : forall p d, StronglySorted (fun a b => Prelude.ltb a b = true) (Keys p d);
}.

(** Iterating in reverse after [Seek(seek)]: the keys of the prefix from the
    greatest one that does not exceed [seek], descending. *)
Definition ReverseKeys `{OrderedKV} (p seek : string) (d : db) : list string :=
  reverse (filter (fun k => Prelude.leb k seek = true) (Keys p d)).

Lemma NoDup_map_keys (d : gmap string string) : NoDup (map_to_list d).*1.
Proof. apply NoDup_fst_map_to_list. Qed.

Lemma sorted_strict (l : list string) :
  NoDup l -> StronglySorted (key_le id) l -> StronglySorted (fun a b => Prelude.ltb a b = true) l.
Proof.
  intros Hnd Hs. induction Hs as [|x l Hs IH Hx]; [constructor|].
  apply NoDup_cons in Hnd as [Hn Hnd]. constructor; [by apply IH|].
  rewrite Forall_forall in Hx |- *. intros y Hy. specialize (Hx y Hy).
  destruct (Prelude.ltb x y) eqn:E; [done|]. exfalso. apply Hn.
  unfold key_le, leb in Hx. apply negb_true_iff in Hx. cbn [id] in Hx.
  by rewrite (ltb_connected x y E Hx).
Qed.

#[export, program] Instance gmap_OrderedKV : @OrderedKV gmap_KV := {|
  Keys p d := sort_by id (filter (fun k => String.prefix p k = true) (map_to_list (d : gmap string string)).*1);
|}.
Next Obligation.
  intros p d k. rewrite elem_of_sort_by, list_elem_of_filter. cbn in *. split.
  - intros [Hp Hk]. apply list_elem_of_fmap in Hk as ((k', v) & -> & Hkv).
    apply elem_of_map_to_list in Hkv. cbn. by rewrite Hkv.
  - intros [[v Hv] Hp]. split; [done|]. apply elem_of_map_to_list in Hv.
    exact (list_elem_of_fmap_2 fst _ (k, v) Hv).
Qed.
Next Obligation.
  intros p d. apply sorted_strict; [|apply sort_by_sorted].
  rewrite sort_by_perm. apply NoDup_filter, NoDup_map_keys.
Qed.

(** ** Encoded records *)

Class Codec (A : Type) := {
  Marshal : A -> option string;
  (** [Unmarshal v a0] decodes into a variable that holds [a0]: what the text
      does not mention keeps its value. *)
  Unmarshal : string -> A -> option A;
  (** The values that survive the encoding: valid text, a time within the years
      the format can express. *)
  faithful : A -> Prop;
  (** The variables that decoding overwrites altogether: any, when every field is
      always written; zero in the fields that [omitempty] may leave out. *)
  target : A -> Prop;
  Unmarshal_Marshal : forall a v a0,
    target a0 -> faithful a -> Marshal a = Some v -> Unmarshal v a0 = Some a;
}.

Class Target {A} `{!Codec A} (a : A) : Prop := is_target : target a.
#[export] Hint Extern 0 (Target _) => apply _ : core.

(** ** Text of keys *)

Lemma length_string_app a b : String.length (a +:+ b) = (String.length a + String.length b)%nat.
Proof.
  induction a as [|c a IH]; [done|].
  change (String.length (String c a +:+ b)) with (S (String.length (a +:+ b))). by rewrite IH.
Qed.

Lemma append_inj_r s a b : a +:+ s = b +:+ s -> a = b.
Proof.
  revert b. induction a as [|c a IH]; intros [|c' b] E; [done| | |].
  - apply (f_equal String.length) in E. rewrite !length_string_app in E. cbn in E. lia.
  - apply (f_equal String.length) in E. rewrite !length_string_app in E. cbn in E. lia.
  - injection E as -> E. f_equal. by apply IH.
Qed.

Lemma prefix_app p s : String.prefix p (p +:+ s) = true.
Proof.
  induction p as [|c p IH]; [by destruct s|].
  change (String c p +:+ s) with (String c (p +:+ s)). cbn [String.prefix].
  by destruct (ascii_dec c c).
Qed.

Lemma char_free_digits c d : (Ascii.eqb c "0" || Ascii.eqb c "1" || Ascii.eqb c "2" || Ascii.eqb c "3"
  || Ascii.eqb c "4" || Ascii.eqb c "5" || Ascii.eqb c "6" || Ascii.eqb c "7" || Ascii.eqb c "8"
  || Ascii.eqb c "9")%char = false -> char_free c (DecimalString.NilEmpty.string_of_uint d) = true.
Proof.
  intros Hc. repeat (apply orb_false_iff in Hc as [Hc ?]).
  induction d as [|d IH|d IH|d IH|d IH|d IH|d IH|d IH|d IH|d IH|d IH]; [done|..]; cbn; rewrite IH;
    (apply andb_true_iff; split; [by apply negb_true_iff | done]).
Qed.

Lemma char_free_FormatUint c z :
  hex_value c = None -> char_free c (FormatUint z) = true.
Proof.
  intros Hc. unfold FormatUint, NilZero.string_of_uint.
  assert ((Ascii.eqb c "0" || Ascii.eqb c "1" || Ascii.eqb c "2" || Ascii.eqb c "3"
    || Ascii.eqb c "4" || Ascii.eqb c "5" || Ascii.eqb c "6" || Ascii.eqb c "7" || Ascii.eqb c "8"
    || Ascii.eqb c "9")%char = false) as Hd.
  { repeat (apply orb_false_iff; split); apply Ascii.eqb_neq; intros ->; done. }
  destruct (N.to_uint (Z.to_N z)); [|by apply char_free_digits..].
  cbn. by repeat (apply orb_false_iff in Hd as [Hd ?]); rewrite Hd.
Qed.

(** [strings.TrimPrefix] *)
Fixpoint strip_prefix (p s : string) : option string :=
  match p, s with
  | EmptyString, _ => Some s
  | String a p', String b s' => if Ascii.eqb a b then strip_prefix p' s' else None
  | String _ _, EmptyString => None
  end.
Definition TrimPrefix (s p : string) : string := default s (strip_prefix p s).

Lemma TrimPrefix_app p s : TrimPrefix (p +:+ s) p = s.
Proof.
  unfold TrimPrefix. enough (strip_prefix p (p +:+ s) = Some s) as ->; [done|].
  induction p as [|c p IH]; [done|].
  change (String c p +:+ s) with (String c (p +:+ s)). cbn [strip_prefix].
  by rewrite Ascii.eqb_refl.
Qed.

Lemma prefix_strip p s : String.prefix p s = true -> exists r, s = p +:+ r.
Proof.
  revert s. induction p as [|c p IH]; intros s H; [by exists s|].
  destruct s as [|c' s]; [done|]. cbn in H. destruct (ascii_dec c c') as [->|]; [|done].
  destruct (IH s H) as [r ->]. by exists r.
Qed.

(** [strings.Cut(s, sep)] at a one-character separator *)
Fixpoint Cut (sep : ascii) (s : string) : option (string * string) :=
  match s with
  | EmptyString => None
  | String c s' =>
      if Ascii.eqb c sep then Some (EmptyString, s')
      else match Cut sep s' with
           | Some (a, b) => Some (String c a, b)
           | None => None
           end
  end.

Lemma Cut_app sep a b : char_free sep a = true -> Cut sep (a +:+ String sep b) = Some (a, b).
Proof.
  induction a as [|c a IH]; cbn [char_free]; intros Ha.
  - change (EmptyString +:+ String sep b) with (String sep b). cbn [Cut].
    by rewrite Ascii.eqb_refl.
  - apply andb_prop in Ha as [Hc Ha]. apply negb_true_iff in Hc.
    change (String c a +:+ String sep b) with (String c (a +:+ String sep b)). cbn [Cut].
    rewrite Ascii.eqb_sym, Hc. by rewrite IH.
Qed.

Lemma Cut_spec sep s a b : Cut sep s = Some (a, b) -> s = a +:+ String sep b /\ char_free sep a = true.
Proof.
  revert a b. induction s as [|c s IH]; intros a b; cbn [Cut]; [done|].
  destruct (Ascii.eqb_spec c sep) as [->|Hc]; [by intros [= <- <-]|].
  destruct (Cut sep s) as [[a' b']|] eqn:E; [|done]. intros [= <- <-].
  destruct (IH a' b' eq_refl) as [-> Ha]. split; [done|]. cbn [char_free].
  rewrite Ha, andb_true_r. apply negb_true_iff. by apply Ascii.eqb_neq.
Qed.

(** The order of the bytes is not affected by a common prefix, and is decided
    by the first byte that differs. *)
Lemma ltb_String c c' a b :
  Prelude.ltb (String c a) (String c' b) =
  ((N_of_ascii c <? N_of_ascii c')%N || ((N_of_ascii c =? N_of_ascii c')%N && Prelude.ltb a b)).
Proof.
  transitivity (match (match (N_of_ascii c ?= N_of_ascii c')%N with
                      | Eq => String.compare a b | r => r end) with Lt => true | _ => false end);
    [done|].
  rewrite N.ltb_compare, N.eqb_compare. unfold ltb. cbn [cmp ord_string].
  by destruct (N_of_ascii c ?= N_of_ascii c')%N.
Qed.

Lemma ltb_app p a b : Prelude.ltb (p +:+ a) (p +:+ b) = Prelude.ltb a b.
Proof.
  induction p as [|c p IH]; [done|].
  change (String c p +:+ a) with (String c (p +:+ a)).
  change (String c p +:+ b) with (String c (p +:+ b)).
  by rewrite ltb_String, N.ltb_irrefl, N.eqb_refl.
Qed.

(** ** Fixed-width decimals

    [%020d] of a [uint64]: exactly twenty digits, because 10^20 exceeds the
    largest [uint64]. The first digit is the most significant, so the order of
    the texts is the order of the numbers. *)

Definition digit (n : Z) : ascii := ascii_of_N (48 + Z.to_N n).

Fixpoint fixed (width : nat) (z : Z) : string :=
  match width with
  | O => EmptyString
  | S w => String (digit (z / 10 ^ Z.of_nat w mod 10)) (fixed w z)
  end.

Definition Format020d (z : Z) : string := fixed 20 z.

Example Format020d_pads : Format020d 86400 = "00000000000000086400".
Proof. reflexivity. Qed.
Example Format020d_max : Format020d MaxUint64 = FormatUint MaxUint64.
Proof. reflexivity. Qed.

Lemma length_fixed w z : String.length (fixed w z) = w.
Proof. induction w as [|w IH]; [done|]. cbn. by rewrite IH. Qed.

Lemma digit_bounds z : 0 <= z mod 10 < 10.
Proof. apply Z.mod_pos_bound. lia. Qed.

Lemma digit_cases (P : Z -> Prop) z :
  0 <= z < 10 -> P 0 -> P 1 -> P 2 -> P 3 -> P 4 -> P 5 -> P 6 -> P 7 -> P 8 -> P 9 -> P z.
Proof.
  intros Hz ??????????.
  assert (z = 0 \/ z = 1 \/ z = 2 \/ z = 3 \/ z = 4 \/ z = 5 \/ z = 6 \/ z = 7 \/ z = 8 \/ z = 9)
    as Hcases by lia.
  destruct_or! Hcases; by subst.
Qed.

Lemma N_of_digit z : 0 <= z < 10 -> N_of_ascii (digit z) = (48 + Z.to_N z)%N.
Proof. intros Hz. by apply (digit_cases (fun z => N_of_ascii (digit z) = (48 + Z.to_N z)%N)). Qed.

Lemma char_free_fixed c w z :
  hex_value c = None -> char_free c (fixed w z) = true.
Proof.
  intros Hc. induction w as [|w IH]; [done|]. cbn [fixed char_free]. rewrite IH, andb_true_r.
  apply negb_true_iff. apply Ascii.eqb_neq. intros ->. revert Hc.
  apply (digit_cases (fun d => hex_value (digit d) = None -> False)); try done. apply digit_bounds.
Qed.

(** Reading the digits back. *)
Fixpoint uint_value (d : Decimal.uint) : Z :=
  match d with
  | Decimal.Nil => 0
  | Decimal.D0 d => uint_value d
  | Decimal.D1 d => 1 * 10 ^ Z.of_nat (Decimal.nb_digits d) + uint_value d
  | Decimal.D2 d => 2 * 10 ^ Z.of_nat (Decimal.nb_digits d) + uint_value d
  | Decimal.D3 d => 3 * 10 ^ Z.of_nat (Decimal.nb_digits d) + uint_value d
  | Decimal.D4 d => 4 * 10 ^ Z.of_nat (Decimal.nb_digits d) + uint_value d
  | Decimal.D5 d => 5 * 10 ^ Z.of_nat (Decimal.nb_digits d) + uint_value d
  | Decimal.D6 d => 6 * 10 ^ Z.of_nat (Decimal.nb_digits d) + uint_value d
  | Decimal.D7 d => 7 * 10 ^ Z.of_nat (Decimal.nb_digits d) + uint_value d
  | Decimal.D8 d => 8 * 10 ^ Z.of_nat (Decimal.nb_digits d) + uint_value d
  | Decimal.D9 d => 9 * 10 ^ Z.of_nat (Decimal.nb_digits d) + uint_value d
  end.

Lemma of_uint_acc_value d acc :
  Zpos (Pos.of_uint_acc d acc) = Zpos acc * 10 ^ Z.of_nat (Decimal.nb_digits d) + uint_value d.
Proof.
  revert acc. induction d as [|d IH|d IH|d IH|d IH|d IH|d IH|d IH|d IH|d IH|d IH]; intros acc;
    [cbn; lia|..]; cbn [Pos.of_uint_acc Decimal.nb_digits uint_value];
    rewrite IH, Nat2Z.inj_succ, Z.pow_succ_r by lia; lia.
Qed.

Lemma of_uint_value d : Z.of_N (N.of_uint d) = uint_value d.
Proof.
  unfold N.of_uint. induction d; [done| exact IHd |..]; cbn [Pos.of_uint uint_value Z.of_N];
    rewrite of_uint_acc_value; lia.
Qed.

Lemma uint_of_fixed w z :
  exists d, NilEmpty.uint_of_string (fixed w z) = Some d /\ Decimal.nb_digits d = w /\
    uint_value d = z mod 10 ^ Z.of_nat w.
Proof.
  induction w as [|w (d & Hd & Hw & Hv)].
  { exists Decimal.Nil. cbn. by rewrite Z.mod_1_r. }
  cbn [fixed NilEmpty.uint_of_string]. rewrite Hd.
  set (p := 10 ^ Z.of_nat w) in *.
  assert (0 < p) as Hp by (apply Z.pow_pos_nonneg; lia).
  assert (z mod 10 ^ Z.of_nat (S w) = (z / p mod 10) * p + z mod p) as ->.
  { rewrite Nat2Z.inj_succ, Z.pow_succ_r by lia. fold p.
    rewrite (Z.mul_comm 10), Z.rem_mul_r by lia. lia. }
  rewrite <- Hv. subst p. rewrite <- Hw. clear.
  generalize (digit_bounds (z / 10 ^ Z.of_nat (Decimal.nb_digits d))).
  generalize (z / 10 ^ Z.of_nat (Decimal.nb_digits d) mod 10). intros n Hn.
  apply (digit_cases (fun n => exists d0, DecimalString.uint_of_char (digit n) (Some d) = Some d0 /\
    Decimal.nb_digits d0 = S (Decimal.nb_digits d) /\
    uint_value d0 = n * 10 ^ Z.of_nat (Decimal.nb_digits d) + uint_value d)); [done|..];
    eexists; (split; [reflexivity|]); cbn [Decimal.nb_digits uint_value]; split; lia.
Qed.

Lemma ParseUint_Format020d z : is_u64 z -> ParseUint (Format020d z) = Some z.
Proof.
  intros Hz. destruct (uint_of_fixed 20 z) as (d & Hd & _ & Hv).
  unfold ParseUint, Format020d. change (NilZero.uint_of_string (fixed 20 z))
    with (NilEmpty.uint_of_string (fixed 20 z)).
  rewrite Hd, of_uint_value, Hv, Z.mod_small by int_lia.
  by rewrite (proj2 (Z.leb_le _ _)) by int_lia.
Qed.

Lemma Format020d_inj a b : is_u64 a -> is_u64 b -> Format020d a = Format020d b -> a = b.
Proof. intros Ha%ParseUint_Format020d Hb%ParseUint_Format020d E. congruence. Qed.

Lemma fixed_order w a b s s' :
  a mod 10 ^ Z.of_nat w < b mod 10 ^ Z.of_nat w ->
  Prelude.ltb (fixed w a +:+ s) (fixed w b +:+ s') = true.
Proof.
  induction w as [|w IH]; [cbn; rewrite !Z.mod_1_r; lia|].
  set (p := 10 ^ Z.of_nat w) in *.
  assert (0 < p) as Hp by (apply Z.pow_pos_nonneg; lia).
  rewrite Nat2Z.inj_succ, Z.pow_succ_r by lia. fold p.
  rewrite (Z.mul_comm 10), !Z.rem_mul_r by lia. intros Hab.
  pose proof (digit_bounds (a / p)) as Ha. pose proof (digit_bounds (b / p)) as Hb.
  pose proof (Z.mod_pos_bound a p Hp). pose proof (Z.mod_pos_bound b p Hp).
  cbn [fixed]. fold p.
  change (String ?c ?x +:+ s) with (String c (x +:+ s)).
  change (String ?c ?x +:+ s') with (String c (x +:+ s')).
  rewrite ltb_String, !N_of_digit by done.
  destruct (Z.compare_spec (a / p mod 10) (b / p mod 10)) as [E|L|G].
  - rewrite E, N.eqb_refl. cbn [andb]. rewrite IH by nia. by rewrite orb_true_r.
  - rewrite (proj2 (N.ltb_lt _ _)) by lia. done.
  - nia.
Qed.

(** Keys that start with a smaller number come first. *)
Lemma Format020d_order a b s s' :
  is_u64 a -> is_u64 b -> a < b -> Prelude.ltb (Format020d a +:+ s) (Format020d b +:+ s') = true.
Proof. intros Ha Hb Hab. apply fixed_order. rewrite !Z.mod_small; int_lia. Qed.
