(* ===== verification/JsonString.v ===== *)
(** * JsonString: strings of [encoding/json].

    A Go string is a sequence of bytes. [quote] is what [json.Marshal] writes
    between the quotation marks: HTML characters and the two line separators are
    escaped, and bytes that are not UTF-8 are replaced. [scan_string] is the
    scanner's check, [unquote] what [json.Unmarshal] stores. *)
From S2P Require Import Prelude.
From S2P Require Import Text.

(** ** UTF-8 *)

Definition code (c : ascii) : N := N_of_ascii c.
Definition char (n : N) : ascii := ascii_of_N n.
Definition between (lo hi : N) (c : ascii) : bool := ((lo <=? code c) && (code c <=? hi))%N.
Definition ascii_byte (c : ascii) : bool := (code c <? 128)%N.
Definition cont (c : ascii) : bool := between 128 191 c.

(** The byte sequences of two, three and four bytes that [utf8.DecodeRune]
    accepts: no overlong form, no surrogate, nothing above U+10FFFF. *)
Definition utf8_2 (a b : ascii) : bool := between 194 223 a && cont b.
Definition utf8_3 (a b c : ascii) : bool :=
  (((code a =? 224)%N && between 160 191 b)
   || ((between 225 236 a || between 238 239 a) && cont b)
   || ((code a =? 237)%N && between 128 159 b)) && cont c.
Definition utf8_4 (a b c d : ascii) : bool :=
  (((code a =? 240)%N && between 144 191 b)
   || (between 241 243 a && cont b)
   || ((code a =? 244)%N && between 128 143 b)) && cont c && cont d.

(** [utf8.AppendRune] *)
Definition utf8_encode (r : N) : string :=
  if (r <? 128)%N then String (char r) ""
  else if (r <? 2048)%N then
    String (char (192 + r / 64)) (String (char (128 + r mod 64)) "")
  else if ((r <? 65536) && negb ((55296 <=? r) && (r <=? 57343)))%N then
    String (char (224 + r / 4096))
      (String (char (128 + r / 64 mod 64)) (String (char (128 + r mod 64)) ""))
  else if ((65536 <=? r) && (r <=? 1114111))%N then
    String (char (240 + r / 262144))
      (String (char (128 + r / 4096 mod 64))
        (String (char (128 + r / 64 mod 64)) (String (char (128 + r mod 64)) "")))
  else String (char 239) (String (char 191) (String (char 189) "")).

(** The replacement character, U+FFFD *)
Definition RuneError : string := utf8_encode 65533.

(** Well-formed strings, one rune at a time. *)
Inductive Utf8 : string -> Prop :=
| Utf8_nil : Utf8 ""
| Utf8_1 a s : ascii_byte a = true -> Utf8 s -> Utf8 (String a s)
| Utf8_2 a b s : ascii_byte a = false -> utf8_2 a b = true -> Utf8 s ->
    Utf8 (String a (String b s))
| Utf8_3 a b c s : ascii_byte a = false -> utf8_2 a b = false -> utf8_3 a b c = true ->
    Utf8 s -> Utf8 (String a (String b (String c s)))
| Utf8_4 a b c d s : ascii_byte a = false -> utf8_2 a b = false -> utf8_3 a b c = false ->
    utf8_4 a b c d = true -> Utf8 s -> Utf8 (String a (String b (String c (String d s)))).

Lemma Utf8_ascii s : all_chars ascii_byte s = true -> Utf8 s.
Proof.
  induction s as [|c s IH]; cbn [all_chars]; [constructor|].
  intros [Hc Hs]%andb_prop. constructor; auto.
Qed.

(** ** Writing a string *)

Definition dquote : ascii := char 34.
Definition backslash : ascii := char 92.

Definition escape_hex (c : ascii) : string :=
  String backslash (String "u" (String "0" (String "0"
    (String (hex_digit (code c / 16)) (String (hex_digit (code c mod 16)) ""))))).

(** An ASCII byte: [htmlSafeSet] tells which are copied. *)
Definition escape (c : ascii) : string :=
  let n := code c in
  if ((n =? 34) || (n =? 92))%N then String backslash (String c "")
  else if (n =? 8)%N then String backslash "b"
  else if (n =? 12)%N then String backslash "f"
  else if (n =? 10)%N then String backslash "n"
  else if (n =? 13)%N then String backslash "r"
  else if (n =? 9)%N then String backslash "t"
  else if ((n <? 32) || (n =? 60) || (n =? 62) || (n =? 38))%N then escape_hex c
  else String c "".

Definition escaped_error : string := String backslash "ufffd".
(** U+2028 and U+2029 *)
Definition line_separator (a b c : ascii) : bool :=
  ((code a =? 226) && (code b =? 128) && ((code c =? 168) || (code c =? 169)))%N.
Definition escaped_separator (c : ascii) : string :=
  String backslash ("u202" +:+ String (hex_digit (code c - 160)) "").

Fixpoint quote (s : string) : string :=
  match s with
  | EmptyString => ""
  | String a s1 =>
      if ascii_byte a then escape a +:+ quote s1
      else match s1 with
      | String b s2 =>
          if utf8_2 a b then String a (String b (quote s2))
          else match s2 with
          | String c s3 =>
              if utf8_3 a b c then
                (if line_separator a b c then escaped_separator c
                 else String a (String b (String c ""))) +:+ quote s3
              else match s3 with
              | String d s4 =>
                  if utf8_4 a b c d then String a (String b (String c (String d (quote s4))))
                  else escaped_error +:+ quote s1
              | EmptyString => escaped_error +:+ quote s1
              end
          | EmptyString => escaped_error +:+ quote s1
          end
      | EmptyString => escaped_error +:+ quote s1
      end
  end.

(** ** Reading a string *)

(** [getu4]: the value of four hexadecimal digits. *)
Definition u4 (a b c d : ascii) : option N :=
  match hex_value a, hex_value b, hex_value c, hex_value d with
  | Some a, Some b, Some c, Some d => Some (((a * 16 + b) * 16 + c) * 16 + d)%N
  | _, _, _, _ => None
  end.

Definition is_surrogate (r : N) : bool := ((55296 <=? r) && (r <=? 57343))%N.
(** [utf16.DecodeRune] of a pair; [None] for the replacement character. *)
Definition decode_pair (hi lo : N) : option N :=
  if ((55296 <=? hi) && (hi <? 56320) && (56320 <=? lo) && (lo <? 57344))%N
  then Some ((hi - 55296) * 1024 + (lo - 56320) + 65536)%N else None.

(** The character after a backslash, the [u] form aside. *)
Definition simple_escape (c : ascii) : option ascii :=
  let n := code c in
  if ((n =? 34) || (n =? 92) || (n =? 47))%N then Some c
  else if (n =? 98)%N then Some (char 8)
  else if (n =? 102)%N then Some (char 12)
  else if (n =? 110)%N then Some (char 10)
  else if (n =? 114)%N then Some (char 13)
  else if (n =? 116)%N then Some (char 9)
  else None.

(** The scanner: the text up to the closing quotation mark, and what follows it. *)
Fixpoint scan_string (s : string) : option (string * string) :=
  match s with
  | EmptyString => None
  | String c s1 =>
      if Ascii.eqb c dquote then Some ("", s1)
      else if Ascii.eqb c backslash then
        match s1 with
        | String e s2 =>
            if Ascii.eqb e "u" then
              match s2 with
              | String h1 (String h2 (String h3 (String h4 s6))) =>
                  match u4 h1 h2 h3 h4 with
                  | Some _ =>
                      '(raw, rest) ← scan_string s6;
                      Some (String c (String e (String h1 (String h2 (String h3 (String h4 raw))))), rest)
                  | None => None
                  end
              | _ => None
              end
            else
              match simple_escape e with
              | Some _ =>
                  '(raw, rest) ← scan_string s2;
                  Some (String c (String e raw), rest)
              | None => None
              end
        | EmptyString => None
        end
      else if (code c <? 32)%N then None
      else
        '(raw, rest) ← scan_string s1;
        Some (String c raw, rest)
  end.

(** [unquote] of a text that the scanner has accepted. *)
Fixpoint unquote (s : string) : option string :=
  match s with
  | EmptyString => Some ""
  | String a s1 =>
      if Ascii.eqb a backslash then
        match s1 with
        | String e s2 =>
            if Ascii.eqb e "u" then
              match s2 with
              | String h1 (String h2 (String h3 (String h4 s6))) =>
                  match u4 h1 h2 h3 h4 with
                  | Some r =>
                      if is_surrogate r then
                        match s6 with
                        | String b (String u (String k1 (String k2 (String k3 (String k4 s12))))) =>
                            match (if Ascii.eqb b backslash && Ascii.eqb u "u" then u4 k1 k2 k3 k4 else None)
                                    ≫= decode_pair r with
                            | Some r2 => t ← unquote s12; Some (utf8_encode r2 +:+ t)
                            | None => t ← unquote s6; Some (RuneError +:+ t)
                            end
                        | _ => t ← unquote s6; Some (RuneError +:+ t)
                        end
                      else t ← unquote s6; Some (utf8_encode r +:+ t)
                  | None => None
                  end
              | _ => None
              end
            else c ← simple_escape e; t ← unquote s2; Some (String c t)
        | EmptyString => None
        end
      else if Ascii.eqb a dquote || (code a <? 32)%N then None
      else if ascii_byte a then t ← unquote s1; Some (String a t)
      else match s1 with
      | String b s2 =>
          if utf8_2 a b then t ← unquote s2; Some (String a (String b t))
          else match s2 with
          | String c s3 =>
              if utf8_3 a b c then t ← unquote s3; Some (String a (String b (String c t)))
              else match s3 with
              | String d s4 =>
                  if utf8_4 a b c d then
                    t ← unquote s4; Some (String a (String b (String c (String d t))))
                  else t ← unquote s1; Some (RuneError +:+ t)
              | EmptyString => t ← unquote s1; Some (RuneError +:+ t)
              end
          | EmptyString => t ← unquote s1; Some (RuneError +:+ t)
          end
      | EmptyString => t ← unquote s1; Some (RuneError +:+ t)
      end
  end.

Example quote_html : quote "<a&b>" = String backslash "u003ca" +:+ String backslash "u0026b" +:+ String backslash "u003e".
Proof. reflexivity. Qed.
Example quote_invalid : quote (String (char 255) "x") = String backslash "ufffdx".
Proof. reflexivity. Qed.
Example unquote_pair : unquote (String backslash "ud83d" +:+ String backslash "ude00") = Some (utf8_encode 128512).
Proof. reflexivity. Qed.
Example unquote_lone : unquote (String backslash "ud83dx") = Some (RuneError +:+ "x").
Proof. reflexivity. Qed.

(** ** What was quoted is read back *)

(** The cases in which [quote] consumes its input: the runes, and the bytes that
    are not part of one. *)
Inductive runes : string -> Prop :=
| runes_nil : runes ""
| runes_1 a s : ascii_byte a = true -> runes s -> runes (String a s)
| runes_2 a b s : ascii_byte a = false -> utf8_2 a b = true -> runes s ->
    runes (String a (String b s))
| runes_3 a b c s : ascii_byte a = false -> utf8_2 a b = false -> utf8_3 a b c = true ->
    runes s -> runes (String a (String b (String c s)))
| runes_4 a b c d s : ascii_byte a = false -> utf8_2 a b = false -> utf8_3 a b c = false ->
    utf8_4 a b c d = true -> runes s -> runes (String a (String b (String c (String d s))))
| runes_bad a s : quote (String a s) = escaped_error +:+ quote s -> runes s -> runes (String a s).

Lemma runes_upto n s : (String.length s <= n)%nat -> runes s.
Proof.
  revert s. induction n as [|n IH]; intros s Hn.
  { destruct s; [constructor | cbn in Hn; lia]. }
  destruct s as [|a s1]; [constructor|]. cbn [String.length] in Hn.
  destruct (ascii_byte a) eqn:Ha; [apply runes_1; [done | apply IH; lia]|].
  assert (quote (String a s1) = escaped_error +:+ quote s1 -> runes (String a s1)) as Hbad
    by (intros; apply runes_bad; [done | apply IH; lia]).
  destruct s1 as [|b s2]; [apply Hbad; cbn [quote]; by rewrite Ha|]. cbn [String.length] in Hn.
  destruct (utf8_2 a b) eqn:H2; [apply runes_2; [done..| apply IH; lia]|].
  destruct s2 as [|c s3]; [apply Hbad; cbn [quote]; by rewrite Ha, H2|]. cbn [String.length] in Hn.
  destruct (utf8_3 a b c) eqn:H3; [apply runes_3; [done..| apply IH; lia]|].
  destruct s3 as [|d s4]; [apply Hbad; cbn [quote]; by rewrite Ha, H2, H3|].
  cbn [String.length] in Hn.
  destruct (utf8_4 a b c d) eqn:H4; [apply runes_4; [done..| apply IH; lia]|].
  apply Hbad. cbn [quote]. by rewrite Ha, H2, H3, H4.
Qed.
Lemma all_runes s : runes s.
Proof. by apply (runes_upto (String.length s)). Qed.

(** The bytes that the scanner and [unquote] take as they are. *)
Definition plain (c : ascii) : bool :=
  negb (Ascii.eqb c dquote) && negb (Ascii.eqb c backslash) && negb (code c <? 32)%N.

Lemma plain_high c : ascii_byte c = false -> plain c = true.
Proof. by destruct c as [[] [] [] [] [] [] [] []]. Qed.

Lemma between_high lo hi c : between lo hi c = true -> (128 <= lo)%N -> ascii_byte c = false.
Proof.
  unfold between, ascii_byte. intros [H _]%andb_prop Hlo. apply N.leb_le in H. apply N.ltb_ge. lia.
Qed.

Lemma utf8_2_high a b : utf8_2 a b = true -> ascii_byte b = false.
Proof. intros [_ H]%andb_prop. by apply between_high in H. Qed.
Lemma utf8_3_high a b c : utf8_3 a b c = true -> ascii_byte b = false /\ ascii_byte c = false.
Proof.
  intros [H Hc]%andb_prop. apply between_high in Hc; [|done]. split; [|done].
  apply orb_prop in H as [H|H]; [apply orb_prop in H as [H|H]|];
    apply andb_prop in H as [_ H]; by apply between_high in H.
Qed.
Lemma utf8_4_high a b c d : utf8_4 a b c d = true ->
  ascii_byte b = false /\ ascii_byte c = false /\ ascii_byte d = false.
Proof.
  intros [H Hd]%andb_prop. apply andb_prop in H as [H Hc].
  apply between_high in Hc, Hd; [|done..]. split; [|done].
  apply orb_prop in H as [H|H]; [apply orb_prop in H as [H|H]|];
    apply andb_prop in H as [_ H]; by apply between_high in H.
Qed.

Lemma scan_plain c s raw rest :
  plain c = true -> scan_string s = Some (raw, rest) ->
  scan_string (String c s) = Some (String c raw, rest).
Proof.
  unfold plain. intros Hp Hs. repeat (apply andb_prop in Hp as [Hp ?%negb_true_iff]).
  apply negb_true_iff in Hp. cbn [scan_string]. by rewrite Hp, H, H0, Hs.
Qed.

(** [String.append] one character at a time *)
Lemma app_String c a b : String c a +:+ b = String c (a +:+ b).
Proof. reflexivity. Qed.
Lemma app_Empty b : "" +:+ b = b.
Proof. reflexivity. Qed.

(** Evaluate the closed text [f a] and push the appended text behind it. *)
Ltac eval_text t :=
  let v := eval vm_compute in t in change t with v; rewrite !app_String, ?app_Empty.

Lemma scan_escape a s raw rest :
  ascii_byte a = true -> scan_string s = Some (raw, rest) ->
  scan_string (escape a +:+ s) = Some (escape a +:+ raw, rest).
Proof.
  intros Ha Hs.
  destruct a as [[] [] [] [] [] [] [] []]; try discriminate Ha;
    match goal with |- context [escape ?a] => eval_text (escape a) end;
    cbn; rewrite Hs; reflexivity.
Qed.

Lemma unquote_escape a s t :
  ascii_byte a = true -> unquote s = Some t ->
  unquote (escape a +:+ s) = Some (String a t).
Proof.
  intros Ha Hs.
  destruct a as [[] [] [] [] [] [] [] []]; try discriminate Ha;
    match goal with |- context [escape ?a] => eval_text (escape a) end;
    cbn; rewrite Hs; reflexivity.
Qed.

Lemma separator_cases a b c : line_separator a b c = true ->
  a = char 226 /\ b = char 128 /\ (c = char 168 \/ c = char 169).
Proof.
  unfold line_separator, code. intros H.
  apply andb_prop in H as [[Ha%N.eqb_eq Hb%N.eqb_eq]%andb_prop Hc].
  rewrite <- (ascii_N_embedding a), <- (ascii_N_embedding b), <- (ascii_N_embedding c), Ha, Hb.
  split_and!; [done..|]. apply orb_prop in Hc as [->%N.eqb_eq| ->%N.eqb_eq]; auto.
Qed.

Ltac quote_step :=
  cbn [quote];
  repeat match goal with H : ?t = _ |- context [if ?t then _ else _] => rewrite H end.

(** The scanner accepts every quoted string and stops at its end. *)
Lemma scan_quote s rest : scan_string (quote s +:+ String dquote rest) = Some (quote s, rest).
Proof.
  induction (all_runes s) as
    [|a s Ha _ IH|a b s Ha H2 _ IH|a b c s Ha H2 H3 _ IH|a b c d s Ha H2 H3 H4 _ IH|a s Hq _ IH].
  - done.
  - quote_step. rewrite append_assoc. by apply scan_escape.
  - quote_step. rewrite !app_String. pose proof (utf8_2_high a b H2) as Hb.
    by repeat (apply scan_plain; [by apply plain_high|]).
  - quote_step. pose proof (utf8_3_high a b c H3) as [Hb Hc]. rewrite append_assoc.
    destruct (line_separator a b c) eqn:Hl.
    + revert IH. generalize (quote s +:+ String dquote rest). generalize (quote s). intros raw s' IH.
      apply separator_cases in Hl as (-> & -> & [-> | ->]);
        match goal with |- context [escaped_separator ?a] => eval_text (escaped_separator a) end;
        cbn; by rewrite IH.
    + rewrite !app_String, !app_Empty.
      by repeat (apply scan_plain; [by apply plain_high|]).
  - quote_step. pose proof (utf8_4_high a b c d H4) as (Hb & Hc & Hd). rewrite !app_String.
    by repeat (apply scan_plain; [by apply plain_high|]).
  - rewrite Hq, append_assoc. revert IH. generalize (quote s +:+ String dquote rest). generalize (quote s).
    intros raw s' IH. eval_text escaped_error. cbn. by rewrite IH.
Qed.

Lemma unquote_high a s : ascii_byte a = false ->
  unquote (String a s) =
  match s with
  | String b s2 =>
      if utf8_2 a b then t ← unquote s2; Some (String a (String b t))
      else match s2 with
      | String c s3 =>
          if utf8_3 a b c then t ← unquote s3; Some (String a (String b (String c t)))
          else match s3 with
          | String d s4 =>
              if utf8_4 a b c d then
                t ← unquote s4; Some (String a (String b (String c (String d t))))
              else t ← unquote s; Some (RuneError +:+ t)
          | EmptyString => t ← unquote s; Some (RuneError +:+ t)
          end
      | EmptyString => t ← unquote s; Some (RuneError +:+ t)
      end
  | EmptyString => t ← unquote s; Some (RuneError +:+ t)
  end.
Proof.
  intros Ha. pose proof (plain_high a Ha) as Hp. unfold plain in Hp.
  repeat (apply andb_prop in Hp as [Hp ?%negb_true_iff]). apply negb_true_iff in Hp.
  cbn [unquote]. by rewrite Hp, H, H0, Ha.
Qed.

(** A well-formed string is read back from its quoted form. *)
Theorem unquote_quote s : Utf8 s -> unquote (quote s) = Some s.
Proof.
  induction 1 as
    [|a s Ha _ IH|a b s Ha H2 _ IH|a b c s Ha H2 H3 _ IH|a b c d s Ha H2 H3 H4 _ IH].
  - done.
  - quote_step. by apply unquote_escape.
  - quote_step. by rewrite unquote_high, H2, IH by done.
  - quote_step. destruct (line_separator a b c) eqn:Hl.
    + revert IH. generalize (quote s). intros raw IH.
      apply separator_cases in Hl as (-> & -> & [-> | ->]);
        match goal with |- context [escaped_separator ?a] => eval_text (escaped_separator a) end;
        cbn; by rewrite IH.
    + rewrite !app_String, !app_Empty. by rewrite unquote_high, H2, H3, IH by done.
  - quote_step. by rewrite unquote_high, H2, H3, H4, IH by done.
Qed.
