(* ===== verification/ServeMux.v ===== *)
(** * ServeMux: the request multiplexer of [net/http] and the escapes of [net/url],
    as far as the interfaces use them.

    A pattern is a method, possibly empty, and segments that are literals or
    single wildcards; the program uses no host, no trailing slash and no wildcard
    over several segments. Registering a pattern that conflicts with another one
    panics. A request is matched segment by segment, a literal before a wildcard. *)
From S2P Require Import Prelude.
From S2P Require Import Text.
From S2P Require Import KeyValue.
From S2P Require Import JsonString.

(** ** Escapes *)

Definition upper_hex (n : N) : ascii := char (if (n <? 10)%N then 48 + n else 55 + n)%N.
Definition unreserved (c : ascii) : bool :=
  between 97 122 c || between 65 90 c || between 48 57 c
  || Ascii.eqb c "-" || Ascii.eqb c "_" || Ascii.eqb c "." || Ascii.eqb c "~".
Definition segment_safe (c : ascii) : bool :=
  unreserved c || Ascii.eqb c "$" || Ascii.eqb c "&" || Ascii.eqb c "+" || Ascii.eqb c ":"
  || Ascii.eqb c "=" || Ascii.eqb c "@".

(** [url.PathEscape] *)
Fixpoint PathEscape (s : string) : string :=
  match s with
  | EmptyString => ""
  | String c s' =>
      if segment_safe c then String c (PathEscape s')
      else String "%" (String (upper_hex (code c / 16)) (String (upper_hex (code c mod 16)) (PathEscape s')))
  end.

(** [unescape]; a plus sign is a space in a query. *)
Fixpoint unescape (plus : bool) (s : string) : option string :=
  match s with
  | EmptyString => Some ""
  | String c s' =>
      if Ascii.eqb c "%" then
        match s' with
        | String a (String b s2) =>
            h ← hex_value a; l ← hex_value b; t ← unescape plus s2;
            Some (String (char (h * 16 + l)) t)
        | _ => None
        end
      else t ← unescape plus s'; Some (String (if plus && Ascii.eqb c "+" then " "%char else c) t)
  end.
Definition PathUnescape : string -> option string := unescape false.
Definition QueryUnescape : string -> option string := unescape true.

Lemma PathUnescape_PathEscape s : PathUnescape (PathEscape s) = Some s.
Proof.
  unfold PathUnescape. induction s as [|c s IH]; [done|]. cbn [PathEscape].
  revert IH. generalize (PathEscape s). intros t IH.
  destruct c as [[] [] [] [] [] [] [] []];
    match goal with |- context [segment_safe ?a] =>
      let v := eval vm_compute in (segment_safe a) in change (segment_safe a) with v end;
    cbn; rewrite IH; reflexivity.
Qed.

(** ** Queries *)

Fixpoint split_on (c : ascii) (s : string) : list string :=
  match s with
  | EmptyString => [""]
  | String d s' =>
      if Ascii.eqb d c then "" :: split_on c s'
      else match split_on c s' with
           | x :: l => String d x :: l
           | [] => [String d ""]
           end
  end.

(** [url.ParseQuery]: malformed pairs are left out. *)
Definition query_pair (kv : string) : option (string * string) :=
  if negb (char_free ";" kv) || bool_decide (kv = "") then None
  else
    let '(k, v) := default (kv, "") (Cut "=" kv) in
    k ← QueryUnescape k; v ← QueryUnescape v; Some (k, v).
Definition ParseQuery (query : string) : list (string * string) := omap query_pair (split_on "&" query).

(** [Values.Get] *)
Definition query_get (key : string) (query : string) : string :=
  default "" ((fun r => r.2.2) <$> list_find (fun kv => kv.1 = key) (ParseQuery query)).

Lemma split_on_free c s : char_free c s = true -> split_on c s = [s].
Proof.
  induction s as [|d s IH]; [done|]. cbn [char_free split_on]. intros [Hd Hs]%andb_prop.
  rewrite Ascii.eqb_sym. apply negb_true_iff in Hd. by rewrite Hd, IH.
Qed.
Lemma split_on_app c a b : char_free c a = true -> split_on c (a +:+ String c b) = a :: split_on c b.
Proof.
  induction a as [|d a IH]; intros Ha.
  - rewrite app_Empty. cbn [split_on]. by rewrite Ascii.eqb_refl.
  - cbn [char_free] in Ha. apply andb_prop in Ha as [Hd Ha]. rewrite app_String. cbn [split_on].
    rewrite Ascii.eqb_sym. apply negb_true_iff in Hd. by rewrite Hd, IH.
Qed.
Lemma PathEscape_free s : char_free "/" (PathEscape s) = true.
Proof.
  induction s as [|c s IH]; [done|]. cbn [PathEscape].
  destruct c as [[] [] [] [] [] [] [] []];
    match goal with |- context [segment_safe ?a] =>
      let v := eval vm_compute in (segment_safe a) in change (segment_safe a) with v end;
    cbn [char_free]; by rewrite IH.
Qed.

(** ** Clean paths *)

Fixpoint join_with (sep : string) (l : list string) : string :=
  match l with
  | [] => ""
  | [s] => s
  | s :: l' => s +:+ sep +:+ join_with sep l'
  end.

(** [path.Clean] of a rooted path, one segment at a time *)
Definition clean_step (stack : list string) (s : string) : list string :=
  if bool_decide (s = "") || bool_decide (s = ".") then stack
  else if bool_decide (s = "..") then tl stack
  else s :: stack.

(** [cleanPath]: the trailing slash is kept. *)
Definition cleanPath (p : string) : string :=
  let p := match p with
           | EmptyString => "/"
           | String c _ => if Ascii.eqb c "/" then p else String "/" p
           end in
  let segs := split_on "/" p in
  let np := String "/" (join_with "/" (rev (foldl clean_step [] segs))) in
  if bool_decide (List.last segs "" = "") && negb (bool_decide (np = "/")) then np +:+ "/" else np.

(** The path of segments *)
Definition path_of (segs : list string) : string := String "/" (join_with "/" segs).
(** A segment that is not cleaned away *)
Definition proper (s : string) : Prop := s <> "" /\ s <> "." /\ s <> "..".

Lemma split_on_join segs : segs <> [] -> Forall (fun s => char_free "/" s = true) segs ->
  split_on "/" (join_with "/" segs) = segs.
Proof.
  induction segs as [|s [|t segs] IH]; intros Hne Hf; [done| |].
  - apply split_on_free. by inversion Hf.
  - apply Forall_cons in Hf as [Hs Hf]. cbn [join_with]. rewrite app_String, app_Empty.
    rewrite split_on_app by done. f_equal. by apply IH.
Qed.

Lemma clean_step_proper stack segs : Forall proper segs -> foldl clean_step stack segs = rev segs ++ stack.
Proof.
  intros Hp. revert stack. induction Hp as [|s segs (H1 & H2 & H3) _ IH]; intros stack; [done|].
  cbn [foldl rev]. unfold clean_step at 2. rewrite !bool_decide_false by done. cbn [orb].
  by rewrite IH, <- app_assoc.
Qed.

Lemma last_proper s segs : Forall proper (s :: segs) -> List.last (s :: segs) "" <> "".
Proof.
  revert s. induction segs as [|t segs IH]; intros s Hp; [by apply Forall_singleton in Hp as [? _]|].
  apply Forall_cons in Hp as [_ Hp]. by apply IH.
Qed.

Lemma cleanPath_path_of s segs :
  Forall (fun s => char_free "/" s = true) (s :: segs) -> Forall proper (s :: segs) ->
  cleanPath (path_of (s :: segs)) = path_of (s :: segs).
Proof.
  intros Hf Hp. unfold cleanPath, path_of. rewrite Ascii.eqb_refl.
  assert (split_on "/" (String "/" (join_with "/" (s :: segs))) = "" :: s :: segs) as ->.
  { cbn [split_on]. rewrite Ascii.eqb_refl. f_equal. by apply split_on_join. }
  cbv zeta. change (foldl clean_step [] ("" :: s :: segs)) with (foldl clean_step [] (s :: segs)).
  rewrite clean_step_proper, app_nil_r, rev_involutive by done.
  rewrite bool_decide_false; [done|]. by apply (last_proper s segs).
Qed.

Lemma PathEscape_proper s : proper s -> proper (PathEscape s).
Proof.
  intros (H1 & H2 & H3). pose proof (PathUnescape_PathEscape s) as H.
  split_and!; intros E; rewrite E in H; vm_compute in H; congruence.
Qed.

Example cleanPath_dots : cleanPath "/api//v1/./pools/../cdps/" = "/api/v1/cdps/".
Proof. reflexivity. Qed.

(** ** Patterns *)

Inductive seg := Lit (s : string) | Wild (name : string).
Record pattern := mkPattern { pt_method : string; pt_segs : list seg }.

#[export] Instance seg_eq_dec : EqDecision seg.
Proof. solve_decision. Defined.

(** A segment of a pattern: [{name}] is a wildcard; [{$}] and [{name...}] are not
    modelled and refused. *)
Definition parse_seg (s : string) : option seg :=
  match s with
  | EmptyString => None
  | String c r =>
      if Ascii.eqb c "{" then
        match split_last "}" r with
        | Some (name, "") =>
            if bool_decide (name = "") || bool_decide (name = "$") || negb (char_free "." name)
            then None else Some (Wild name)
        | _ => None
        end
      else Some (Lit s)
  end.

(** [parsePattern] of a method and a path, or of a path *)
Definition parsePattern (s : string) : option pattern :=
  let '(method, path) := default ("", s) (split_first " " s) in
  match path with
  | String c r =>
      if Ascii.eqb c "/" then mkPattern method <$> mapM parse_seg (split_on "/" r) else None
  | EmptyString => None
  end.

Inductive relationship := Equivalent | MoreGeneral | MoreSpecific | Disjoint | Overlaps.

Definition compare_seg (a b : seg) : relationship :=
  match a, b with
  | Wild _, Wild _ => Equivalent
  | Wild _, Lit _ => MoreGeneral
  | Lit _, Wild _ => MoreSpecific
  | Lit x, Lit y => if bool_decide (x = y) then Equivalent else Disjoint
  end.
Definition combine (r1 r2 : relationship) : relationship :=
  match r1, r2 with
  | Equivalent, r => r
  | r, Equivalent => r
  | Disjoint, _ | _, Disjoint => Disjoint
  | Overlaps, _ | _, Overlaps => Overlaps
  | MoreGeneral, MoreGeneral => MoreGeneral
  | MoreSpecific, MoreSpecific => MoreSpecific
  | MoreGeneral, MoreSpecific | MoreSpecific, MoreGeneral => Overlaps
  end.
Fixpoint compare_paths (a b : list seg) : relationship :=
  match a, b with
  | [], [] => Equivalent
  | x :: a', y :: b' => combine (compare_seg x y) (compare_paths a' b')
  | _, _ => Disjoint
  end.
Definition compare_methods (a b : string) : relationship :=
  if bool_decide (a = b) then Equivalent
  else if bool_decide (a = "") then MoreGeneral
  else if bool_decide (b = "") then MoreSpecific
  else if bool_decide (a = "GET") && bool_decide (b = "HEAD") then MoreGeneral
  else if bool_decide (a = "HEAD") && bool_decide (b = "GET") then MoreSpecific
  else Disjoint.
Definition conflictsWith (p q : pattern) : bool :=
  match combine (compare_methods (pt_method p) (pt_method q)) (compare_paths (pt_segs p) (pt_segs q)) with
  | Equivalent | Overlaps => true
  | _ => false
  end.

(** ** The multiplexer *)

Section Mux.
Context {H : Type}.

Definition mux : Type := list (pattern * H).

(** [HandleFunc]; [None] is a panic. *)
Definition HandleFunc (s : string) (h : H) (m : mux) : option mux :=
  p ← parsePattern s;
  if existsb (fun e => conflictsWith e.1 p) m then None else Some (m ++ [(p, h)]).

(** The segments of a path, unescaped; a trailing slash is the segment ["/"]. *)
Definition path_segments (path : string) : list string :=
  match path with
  | String _ r =>
      (fix go (l : list string) : list string :=
         match l with
         | [] => []
         | [s] => if bool_decide (s = "") then ["/"] else [default s (PathUnescape s)]
         | s :: l' => default s (PathUnescape s) :: go l'
         end) (split_on "/" r)
  | EmptyString => []
  end.

Lemma path_segments_path_of s segs :
  Forall proper (s :: segs) -> path_segments (path_of (PathEscape <$> (s :: segs))) = s :: segs.
Proof.
  intros Hp. unfold path_segments, path_of. rewrite split_on_join.
  - revert s Hp. induction segs as [|t segs IH]; intros s Hp; apply Forall_cons in Hp as [Hs Hp].
    + cbn. rewrite bool_decide_false by by destruct (PathEscape_proper s Hs).
      by rewrite PathUnescape_PathEscape.
    + specialize (IH t Hp). cbn [fmap list_fmap] in *. rewrite PathUnescape_PathEscape. cbn. by f_equal.
  - done.
  - apply Forall_fmap, Forall_true. intros t. apply PathEscape_free.
Qed.

Definition advance_lit (s : string) (cands : list (list seg * H)) : list (list seg * H) :=
  omap (fun e => match e.1 with Lit l :: r => if bool_decide (l = s) then Some (r, e.2) else None | _ => None end)
    cands.
Definition advance_wild (cands : list (list seg * H)) : list (list seg * H) :=
  omap (fun e => match e.1 with Wild _ :: r => Some (r, e.2) | _ => None end) cands.
Definition finished (cands : list (list seg * H)) : list H :=
  omap (fun e => match e.1 with [] => Some e.2 | _ => None end) cands.

(** [matchPath]: the literal child first, then the wildcard, which does not match
    a slash. *)
Fixpoint match_path (path : list string) (cands : list (list seg * H)) (vars : list string)
  : option (H * list string) :=
  match path with
  | [] => match finished cands with h :: _ => Some (h, vars) | [] => None end
  | s :: path' =>
      match match_path path' (advance_lit s cands) vars with
      | Some r => Some r
      | None =>
          if bool_decide (s = "/") then None
          else match_path path' (advance_wild cands) (vars ++ [s])
      end
  end.

Definition with_method (method : string) (m : mux) : list (list seg * H) :=
  omap (fun e => if bool_decide (pt_method e.1 = method) then Some (pt_segs e.1, e.2) else None) m.

(** [matchMethodAndPath]: a HEAD request falls back to GET, any request to the
    patterns without a method. *)
Definition find_handler (m : mux) (method : string) (path : list string) : option (H * list string) :=
  match match_path path (with_method method m) [] with
  | Some r => Some r
  | None =>
      match (if bool_decide (method = "HEAD") then match_path path (with_method "GET" m) [] else None) with
      | Some r => Some r
      | None => match_path path (with_method "" m) []
      end
  end.

(** [matchingMethods] *)
Definition allowed_methods (m : mux) (path : list string) : list string :=
  let found := filter (fun method => is_Some (match_path path (with_method method m) []))
    (filter (fun method => method <> "") (remove_dups ((fun e => pt_method e.1) <$> m))) in
  sort_by id (if decide ("GET" ∈ found) then remove_dups ("HEAD" :: found) else found).

(** What [ServeMux] does with a request for an escaped path. *)
Inductive routed :=
| Handled (h : H) (vars : list string)
| RedirectedTo (path : string)
| MethodNotAllowed (allow : list string)
| NotFound.

Definition route (m : mux) (method path : string) : routed :=
  if negb (bool_decide (cleanPath path = path)) && negb (bool_decide (method = "CONNECT"))
  then RedirectedTo (cleanPath path)
  else
    match find_handler m method (path_segments path) with
    | Some (h, vars) => Handled h vars
    | None =>
        match allowed_methods m (path_segments path) with
        | [] => NotFound
        | allow => MethodNotAllowed allow
        end
    end.

(** *** A match is a match of a registered pattern *)

Fixpoint seg_match (segs : list seg) (path : list string) : option (list string) :=
  match segs, path with
  | [], [] => Some []
  | Lit l :: segs', s :: path' => if bool_decide (l = s) then seg_match segs' path' else None
  | Wild _ :: segs', s :: path' =>
      if bool_decide (s = "/") then None else v ← seg_match segs' path'; Some (s :: v)
  | _, _ => None
  end.

Lemma match_path_sound path cands vars h vs :
  match_path path cands vars = Some (h, vs) ->
  exists segs v, (segs, h) ∈ cands /\ seg_match segs path = Some v /\ vs = vars ++ v.
Proof.
  revert cands vars. induction path as [|s path IH]; intros cands vars; cbn [match_path].
  - destruct (finished cands) as [|h' l] eqn:E; [done|]. intros [= <- <-].
    assert (h' ∈ finished cands) as Hin by (rewrite E; left).
    apply list_elem_of_omap in Hin as ([[|] h''] & Hin & [= ->]).
    exists [], []. by rewrite app_nil_r.
  - destruct (match_path path (advance_lit s cands) vars) as [[h' vs']|] eqn:E.
    + intros [= <- <-]. destruct (IH _ _ E) as (segs & v & Hin & Hm & ->).
      apply list_elem_of_omap in Hin as ([[|[l|] r] h''] & Hin & Heq); cbn in Heq; try done.
      case_bool_decide; [|done]. injection Heq as <- <-. exists (Lit l :: r), v.
      split; [done|]. cbn. by rewrite bool_decide_true.
    + case_bool_decide as Hs; [done|]. intros Hm.
      destruct (IH _ _ Hm) as (segs & v & Hin & Hv & ->).
      apply list_elem_of_omap in Hin as ([[|[|w] r] h''] & Hin & Heq); cbn in Heq; try done.
      injection Heq as <- <-. exists (Wild w :: r), (s :: v). split; [done|]. cbn.
      rewrite bool_decide_false by done. rewrite Hv. split; [done|]. by rewrite <- app_assoc.
Qed.

Lemma match_path_complete path cands vars segs h v :
  (segs, h) ∈ cands -> seg_match segs path = Some v -> is_Some (match_path path cands vars).
Proof.
  revert cands vars segs v. induction path as [|s path IH]; intros cands vars segs v Hin Hm;
    cbn [match_path].
  - destruct segs as [|[]]; [|done..]. assert (h ∈ finished cands) as Hf.
    { apply list_elem_of_omap. by exists ([], h). }
    destruct (finished cands); [by apply not_elem_of_nil in Hf | by eexists].
  - destruct segs as [|[l|w] segs]; [done|..]; cbn in Hm.
    + case_bool_decide; [subst l|done].
      assert ((segs, h) ∈ advance_lit s cands) as Hl.
      { apply list_elem_of_omap. exists (Lit s :: segs, h). split; [done|]. cbn. by rewrite bool_decide_true. }
      destruct (IH _ vars segs v Hl Hm) as [r ->]. by eexists.
    + case_bool_decide; [done|]. destruct (seg_match segs path) as [v'|] eqn:E; [|done].
      destruct (match_path path (advance_lit s cands) vars); [by eexists|].
      apply (IH _ _ segs v'); [|done].
      apply list_elem_of_omap. by exists (Wild w :: segs, h).
Qed.

(** The only pattern that matches is the one that is chosen. *)
Lemma match_path_unique path cands segs h v :
  (segs, h) ∈ cands -> seg_match segs path = Some v ->
  Forall (fun e => forall v', seg_match e.1 path = Some v' -> e.2 = h /\ v' = v) cands ->
  match_path path cands [] = Some (h, v).
Proof.
  intros Hin Hm Hu. destruct (match_path_complete path cands [] segs h v Hin Hm) as [[h' vs] E].
  rewrite E. apply match_path_sound in E as (segs' & v' & Hin' & Hm' & ->).
  rewrite Forall_forall in Hu. by destruct (Hu _ Hin' v' Hm') as [[= ->] ->].
Qed.

Lemma match_path_none path cands :
  Forall (fun e : list seg * H => seg_match e.1 path = None) cands -> match_path path cands [] = None.
Proof.
  intros Hn. destruct (match_path path cands []) as [[h vs]|] eqn:E; [|done].
  apply match_path_sound in E as (segs & v & Hin & Hm & _).
  rewrite Forall_forall in Hn. specialize (Hn _ Hin). cbn in Hn. congruence.
Qed.

(** A client that escapes the segments reaches the handler for the segments. *)
Lemma route_path_of m method segs :
  segs <> [] -> Forall proper segs ->
  route m method (path_of (PathEscape <$> segs)) =
    match find_handler m method segs with
    | Some (h, vars) => Handled h vars
    | None => match allowed_methods m segs with [] => NotFound | allow => MethodNotAllowed allow end
    end.
Proof.
  intros Hne Hp. destruct segs as [|s segs]; [done|]. unfold route.
  rewrite path_segments_path_of by done. cbn [fmap list_fmap]. rewrite cleanPath_path_of.
  - by rewrite bool_decide_true.
  - change (Forall (fun s => char_free "/" s = true) (PathEscape <$> s :: segs)). apply Forall_fmap, Forall_true. intros t. apply PathEscape_free.
  - change (Forall proper (PathEscape <$> s :: segs)). apply Forall_fmap. eapply Forall_impl; [done|]. apply PathEscape_proper.
Qed.
End Mux.
Arguments mux H : clear implicits.
Arguments routed H : clear implicits.
