(* ===== verification/Base64.v ===== *)
(** * Base64: [base64.StdEncoding], the form in which [encoding/json] writes a
    byte slice. *)
From S2P Require Import Prelude.
From S2P Require Import Text.
From S2P Require Import JsonString.

(** ** The alphabet *)

Definition sextet_char (n : N) : ascii :=
  if (n <? 26)%N then char (65 + n)
  else if (n <? 52)%N then char (71 + n)
  else if (n <? 62)%N then char (n - 4)
  else if (n =? 62)%N then "+"%char else "/"%char.

Definition sextet (c : ascii) : option N :=
  let n := code c in
  if ((65 <=? n) && (n <=? 90))%N then Some (n - 65)%N
  else if ((97 <=? n) && (n <=? 122))%N then Some (n - 71)%N
  else if ((48 <=? n) && (n <=? 57))%N then Some (n + 4)%N
  else if (n =? 43)%N then Some 62%N
  else if (n =? 47)%N then Some 63%N
  else None.

Definition pad : ascii := "="%char.

Definition byte_of (n : N) : byte := default Byte.x00 (Byte.of_N (n mod 256)).

(** ** Encoding: three bytes make four characters *)

Fixpoint b64_encode (l : list byte) : string :=
  match l with
  | [] => ""
  | [x] =>
      let x := Byte.to_N x in
      String (sextet_char (x / 4)) (String (sextet_char (x mod 4 * 16)) (String pad (String pad "")))
  | [x; y] =>
      let x := Byte.to_N x in let y := Byte.to_N y in
      String (sextet_char (x / 4)) (String (sextet_char (x mod 4 * 16 + y / 16))
        (String (sextet_char (y mod 16 * 4)) (String pad "")))
  | x :: y :: z :: l' =>
      let x := Byte.to_N x in let y := Byte.to_N y in let z := Byte.to_N z in
      String (sextet_char (x / 4)) (String (sextet_char (x mod 4 * 16 + y / 16))
        (String (sextet_char (y mod 16 * 4 + z / 64)) (String (sextet_char (z mod 64))
          (b64_encode l'))))
  end%N.

(** ** Decoding

    Line breaks are skipped; padding is required and ends the text; the bits that
    do not fill a byte are not checked. *)

Fixpoint no_line_breaks (s : string) : string :=
  match s with
  | EmptyString => ""
  | String c s' =>
      if ((code c =? 10) || (code c =? 13))%N then no_line_breaks s'
      else String c (no_line_breaks s')
  end.

Fixpoint b64_quads (s : string) : option (list byte) :=
  match s with
  | EmptyString => Some []
  | String a (String b (String c (String d r))) =>
      p ← sextet a; q ← sextet b;
      let x := byte_of (p * 4 + q / 16) in
      if Ascii.eqb c pad then
        if Ascii.eqb d pad && String.eqb r "" then Some [x] else None
      else
        u ← sextet c;
        let y := byte_of (q mod 16 * 16 + u / 4) in
        if Ascii.eqb d pad then if String.eqb r "" then Some [x; y] else None
        else
          v ← sextet d; l ← b64_quads r;
          Some (x :: y :: byte_of (u mod 4 * 64 + v) :: l)
  | _ => None
  end%N.

Definition b64_decode (s : string) : option (list byte) := b64_quads (no_line_breaks s).

Example b64_hello : b64_encode (String.list_byte_of_string "hello") = "aGVsbG8=".
Proof. reflexivity. Qed.
Example b64_hello_back : b64_decode "aGVsbG8=" = Some (String.list_byte_of_string "hello").
Proof. reflexivity. Qed.
Example b64_unpadded : b64_decode "aGVsbG8" = None.
Proof. reflexivity. Qed.

(** ** Round trip *)

Lemma sextet_sextet_char n : (n < 64)%N -> sextet (sextet_char n) = Some n.
Proof.
  intros Hn.
  assert (forallb (fun k => bool_decide (sextet (sextet_char (N.of_nat k)) = Some (N.of_nat k)))
            (seq 0 64) = true) as H by (vm_compute; reflexivity).
  rewrite forallb_forall in H. specialize (H (N.to_nat n)). rewrite N2Nat.id in H.
  rewrite in_seq in H. specialize (H ltac:(lia)). by apply bool_decide_eq_true in H.
Qed.

(** A character of the alphabet: not padding, not a line break, copied by
    [quote]. *)
Definition b64_char (c : ascii) : bool :=
  negb (Ascii.eqb c pad) && negb ((code c =? 10) || (code c =? 13))%N.

Lemma sextet_char_plain n : (n < 64)%N -> b64_char (sextet_char n) = true.
Proof.
  intros Hn. pose proof (sextet_sextet_char n Hn) as H. revert H.
  destruct (sextet_char n) as [[] [] [] [] [] [] [] []]; try done; discriminate.
Qed.

Lemma byte_of_to_N b : byte_of (Byte.to_N b) = b.
Proof.
  unfold byte_of. rewrite N.mod_small by (pose proof (Byte.to_N_bounded b); lia).
  by rewrite Byte.of_to_N.
Qed.

Lemma no_line_breaks_char c s : b64_char c = true ->
  no_line_breaks (String c s) = String c (no_line_breaks s).
Proof. intros [_ H%negb_true_iff]%andb_prop. cbn [no_line_breaks]. by rewrite H. Qed.

Lemma b64_char_pad c : b64_char c = true -> Ascii.eqb c pad = false.
Proof. by intros [?%negb_true_iff _]%andb_prop. Qed.

(** Six bits at a time: a low part is carried over to the next sextet. *)
Lemma carry_lt a b n m k : (0 < n)%N -> (b < k * m)%N -> (0 < m)%N -> (n * k <= 64)%N ->
  (a mod n * k + b / m < 64)%N.
Proof.
  intros Hn Hb Hm Hk. pose proof (N.mod_lt a n ltac:(lia)).
  assert (b / m < k)%N by (apply N.Div0.div_lt_upper_bound; lia). nia.
Qed.
Lemma carry_div a b n m k : (0 < k)%N -> (b < k * m)%N -> (0 < m)%N ->
  ((a mod n * k + b / m) / k = a mod n)%N.
Proof.
  intros Hk Hb Hm. rewrite N.div_add_l by lia.
  rewrite (N.div_small (b / m)); [lia|]. apply N.Div0.div_lt_upper_bound; lia.
Qed.
Lemma carry_mod a b n m k : (0 < k)%N -> (b < k * m)%N -> (0 < m)%N ->
  ((a mod n * k + b / m) mod k = b / m)%N.
Proof.
  intros Hk Hb Hm. rewrite N.add_comm, N.Div0.mod_add. apply N.mod_small.
  apply N.Div0.div_lt_upper_bound; lia.
Qed.

Lemma byte_of_split b n k m : (0 < m)%N -> k = m ->
  n = (Byte.to_N b / m * k + Byte.to_N b mod m)%N -> byte_of n = b.
Proof.
  intros Hm -> ->. rewrite N.mul_comm, <- N.Div0.div_mod. apply byte_of_to_N.
Qed.

Lemma byte_lt b : (Byte.to_N b < 256)%N.
Proof. pose proof (Byte.to_N_bounded b). lia. Qed.

Section Quad.
Context (x y z : byte).
Local Abbreviation X := (Byte.to_N x).
Local Abbreviation Y := (Byte.to_N y).
Local Abbreviation Z_ := (Byte.to_N z).

Lemma q1_lt : (X / 4 < 64)%N.
Proof. pose proof (byte_lt x). apply N.Div0.div_lt_upper_bound; lia. Qed.
Lemma q2_lt : (X mod 4 * 16 + Y / 16 < 64)%N.
Proof. pose proof (byte_lt y). apply carry_lt; lia. Qed.
Lemma q3_lt : (Y mod 16 * 4 + Z_ / 64 < 64)%N.
Proof. pose proof (byte_lt z). apply carry_lt; lia. Qed.
Lemma q4_lt : (Z_ mod 64 < 64)%N.
Proof. by apply N.mod_lt. Qed.
Lemma q2_last_lt : (X mod 4 * 16 < 64)%N.
Proof. pose proof (N.mod_lt X 4 ltac:(lia)). lia. Qed.
Lemma q3_last_lt : (Y mod 16 * 4 < 64)%N.
Proof. pose proof (N.mod_lt Y 16 ltac:(lia)). lia. Qed.

Lemma byte1 : byte_of (X / 4 * 4 + (X mod 4 * 16 + Y / 16) / 16) = x.
Proof.
  pose proof (byte_lt y). rewrite carry_div by lia. by apply (byte_of_split x _ 4 4).
Qed.
Lemma byte1_last : byte_of (X / 4 * 4 + X mod 4 * 16 / 16) = x.
Proof. rewrite N.div_mul by lia. by apply (byte_of_split x _ 4 4). Qed.
Lemma byte2 : byte_of ((X mod 4 * 16 + Y / 16) mod 16 * 16 + (Y mod 16 * 4 + Z_ / 64) / 4) = y.
Proof.
  pose proof (byte_lt y). pose proof (byte_lt z).
  rewrite carry_mod, carry_div by lia. by apply (byte_of_split y _ 16 16).
Qed.
Lemma byte2_last : byte_of ((X mod 4 * 16 + Y / 16) mod 16 * 16 + Y mod 16 * 4 / 4) = y.
Proof.
  pose proof (byte_lt y). rewrite carry_mod, N.div_mul by lia. by apply (byte_of_split y _ 16 16).
Qed.
Lemma byte3 : byte_of ((Y mod 16 * 4 + Z_ / 64) mod 4 * 64 + Z_ mod 64) = z.
Proof.
  pose proof (byte_lt z). rewrite carry_mod by lia. by apply (byte_of_split z _ 64 64).
Qed.
End Quad.

#[local] Hint Resolve sextet_char_plain q1_lt q2_lt q3_lt q4_lt q2_last_lt q3_last_lt : b64.

Theorem b64_decode_encode l : b64_decode (b64_encode l) = Some l.
Proof.
  unfold b64_decode.
  induction l as [l IH] using (induction_ltof1 _ (@length byte)). unfold ltof in IH.
  destruct l as [|x [|y [|z l]]]; [done|..]; cbn [b64_encode];
    rewrite !no_line_breaks_char by (done || auto with b64); cbn [no_line_breaks b64_quads];
    rewrite !sextet_sextet_char by auto with b64; cbn [mbind option_bind];
    rewrite ?(b64_char_pad (sextet_char _)) by auto with b64.
  - by rewrite byte1_last.
  - cbn. by rewrite byte1, byte2_last.
  - rewrite IH by (cbn; lia). cbn. by rewrite byte1, byte2, byte3.
Qed.
