(* ===== verification/Rfc3339.v ===== *)
(** * Rfc3339: the text of a time in JSON.

    [Time.MarshalJSON] writes RFC 3339 with the nanoseconds that are not zero;
    [Time.UnmarshalJSON] reads it back, and what [time.Parse] reads beyond it (one
    digit for the hour, a comma, any offset). A [gotime] counts nanoseconds since
    the first of January of the year 1 in UTC, and is written in UTC. *)
From S2P Require Import Prelude.
From S2P Require Import Text.
From S2P Require Import KeyValue.
From S2P Require Import JsonString.

(** ** The calendar *)

Definition is_leap (y : Z) : bool := (y mod 4 =? 0) && (negb (y mod 100 =? 0) || (y mod 400 =? 0)).

Definition days_in (m y : Z) : Z :=
  if m =? 2 then (if is_leap y then 29 else 28)
  else if (m =? 4) || (m =? 6) || (m =? 9) || (m =? 11) then 30 else 31.

(** Days from the first of January of year 1 to that of year [y]. *)
Definition days_before_year (y : Z) : Z := 365 * (y - 1) + (y - 1) / 4 - (y - 1) / 100 + (y - 1) / 400.

Definition days_before_month (m : Z) : Z :=
  match m with
  | 1 => 0 | 2 => 31 | 3 => 59 | 4 => 90 | 5 => 120 | 6 => 151 | 7 => 181 | 8 => 212 | 9 => 243
  | 10 => 273 | 11 => 304 | _ => 334
  end.

Definition days_of_date (y m d : Z) : Z :=
  days_before_year y + days_before_month m + (if (2 <? m) && is_leap y then 1 else 0) + (d - 1).

(** The date of a day: years are counted from March, in eras of 400 years. *)
Definition date_of_days (days : Z) : Z * Z * Z :=
  let z := days + 306 in
  let era := z / 146097 in
  let doe := z mod 146097 in
  let yoe := (doe - doe / 1460 + doe / 36524 - doe / 146096) / 365 in
  let doy := doe - (365 * yoe + yoe / 4 - yoe / 100) in
  let mp := (5 * doy + 2) / 153 in
  let m := if mp <? 10 then mp + 3 else mp - 9 in
  (yoe + era * 400 + (if m <=? 2 then 1 else 0), m, doy - (153 * mp + 2) / 5 + 1).

Example date_of_days_epoch : date_of_days 719162 = (1970, 1, 1).
Proof. reflexivity. Qed.
Example date_of_days_first : date_of_days 0 = (1, 1, 1).
Proof. reflexivity. Qed.
Example date_of_days_leap : date_of_days (days_of_date 2024 2 29) = (2024, 2, 29).
Proof. reflexivity. Qed.

Definition valid_date (y m d : Z) : bool :=
  (1 <=? m) && (m <=? 12) && (1 <=? d) && (d <=? days_in m y).

(** Within an era of 400 years, which starts on the first of March of a year that
    400 divides: the year of a day, and the first day of a year. *)
Definition era_year (doe : Z) : Z := (doe - doe / 1460 + doe / 36524 - doe / 146096) / 365.
Definition year_start (y : Z) : Z := 365 * y + y / 4 - y / 100.

Ltac div_lia := Z.to_euclidean_division_equations; lia.

Lemma era_year_spec doe : 0 <= doe < 146097 ->
  let y := era_year doe in
  0 <= y < 400 /\ 0 <= doe - year_start y <= 365 /\
  (doe - year_start y = 365 -> is_leap (y + 1) = true).
Proof.
  intros Hd y. subst y. split; [|split]; [unfold era_year, year_start; div_lia..|].
  unfold is_leap. rewrite andb_true_iff, orb_true_iff, negb_true_iff, !Z.eqb_eq, Z.eqb_neq.
  unfold era_year, year_start. div_lia.
Qed.

(** The days before January belong to the year in which March falls. *)
Lemma days_before_march y : 0 <= y < 400 ->
  days_before_year y + 59 + (if is_leap y then 1 else 0) = year_start y - 306.
Proof.
  intros Hy. assert ((if is_leap y then 1 else 0) = (y - 1) / 100 - y / 100 + y / 4 - (y - 1) / 4
    + y / 400 - (y - 1) / 400) as ->; [|unfold days_before_year, year_start; div_lia].
  destruct (is_leap y) eqn:E; unfold is_leap in E;
    rewrite ?andb_true_iff, ?andb_false_iff, ?orb_true_iff, ?orb_false_iff, ?negb_true_iff,
      ?negb_false_iff, ?Z.eqb_eq, ?Z.eqb_neq in E; div_lia.
Qed.

Lemma days_before_january y : 0 <= y < 400 -> days_before_year (y + 1) = year_start y.
Proof. intros Hy. unfold days_before_year, year_start. div_lia. Qed.

(** The month and the day of the 366 days of a year that starts in March. *)
Definition day_ok (doy : Z) : bool :=
  let mp := (5 * doy + 2) / 153 in
  let m := if mp <? 10 then mp + 3 else mp - 9 in
  let d := doy - (153 * mp + 2) / 5 + 1 in
  (1 <=? m) && (m <=? 12) && (1 <=? d)
  && (if m <=? 2
      then (doy =? 306 + days_before_month m + (d - 1))
           && (d <=? (if m =? 2 then (if doy =? 365 then 29 else 28) else 31))
      else (doy =? days_before_month m - 59 + (d - 1)) && (d <=? days_in m 1)).

Lemma day_ok_all doy : 0 <= doy <= 365 -> day_ok doy = true.
Proof.
  intros Hd. assert (forallb (fun k => day_ok (Z.of_nat k)) (seq 0 366) = true) as H
    by (vm_compute; reflexivity).
  rewrite forallb_forall in H. specialize (H (Z.to_nat doy)).
  rewrite in_seq, Z2Nat.id in H by lia. apply H. lia.
Qed.

Lemma days_in_31 m y : m <= 2 -> m <> 2 -> days_in m y = 31.
Proof.
  intros H1 H2. unfold days_in. by repeat rewrite (proj2 (Z.eqb_neq _ _)) by lia.
Qed.

(** The days of one era. *)
Lemma date_of_era_day doe : 0 <= doe < 146097 ->
  let '(y, m, d) := date_of_days (doe - 306) in
  valid_date y m d = true /\ days_of_date y m d = doe - 306.
Proof.
  intros Hd. unfold date_of_days. replace (doe - 306 + 306) with doe by lia.
  rewrite (Z.div_small doe), (Z.mod_small doe) by done. cbv zeta. fold (era_year doe).
  pose proof (era_year_spec doe Hd) as (Hy & Hdoy & Hleap).
  set (y := era_year doe) in *. fold (year_start y). set (doy := doe - year_start y) in *.
  pose proof (day_ok_all doy Hdoy) as Hok. unfold day_ok in Hok. revert Hok.
  set (m := if _ <? 10 then _ else _). set (d := doy - _ / 5 + 1).
  intros [[[Hm1 Hm2]%andb_prop Hd1]%andb_prop Hmd]%andb_prop.
  unfold valid_date, days_of_date. rewrite Hm1, Hm2, Hd1.
  pose proof (days_before_march y Hy). pose proof (days_before_january y Hy).
  destruct (Z.leb_spec m 2) as [Hm|Hm];
    apply andb_prop in Hmd as [He%Z.eqb_eq Hle%Z.leb_le].
  - replace (2 <? m) with false by lia. replace (y + 0 * 400 + 1) with (y + 1) by lia.
    split; [|cbn [andb]; lia]. apply Z.leb_le.
    destruct (Z.eqb_spec m 2) as [->|Hm2'].
    + unfold days_in. cbn. destruct (Z.eqb_spec doy 365) as [E|]; [by rewrite Hleap|].
      destruct (is_leap (y + 1)); lia.
    + by rewrite days_in_31.
  - replace (2 <? m) with true by lia. replace (y + 0 * 400 + 0) with y by lia. cbn [andb].
    split; [|lia]. apply Z.leb_le. revert Hle. unfold days_in.
    by replace (m =? 2) with false by lia.
Qed.

Lemma is_leap_era y e : is_leap (y + 400 * e) = is_leap y.
Proof.
  unfold is_leap.
  replace ((y + 400 * e) mod 4) with (y mod 4)
    by (replace (y + 400 * e) with (y + (100 * e) * 4) by lia; by rewrite Z_mod_plus_full).
  replace ((y + 400 * e) mod 100) with (y mod 100)
    by (replace (y + 400 * e) with (y + (4 * e) * 100) by lia; by rewrite Z_mod_plus_full).
  replace ((y + 400 * e) mod 400) with (y mod 400)
    by (replace (y + 400 * e) with (y + e * 400) by lia; by rewrite Z_mod_plus_full).
  done.
Qed.

Lemma days_of_date_era y m d e :
  days_of_date (y + 400 * e) m d = days_of_date y m d + 146097 * e.
Proof.
  unfold days_of_date. rewrite is_leap_era. unfold days_before_year.
  replace (y + 400 * e - 1) with (y - 1 + (100 * e) * 4) at 2 by lia.
  replace (y + 400 * e - 1) with (y - 1 + (4 * e) * 100) at 2 by lia.
  replace (y + 400 * e - 1) with (y - 1 + e * 400) at 2 by lia.
  rewrite !Z_div_plus_full by lia. lia.
Qed.

(** The date of every day is a date, and it is the date of that day. *)
Theorem days_of_date_of_days days :
  let '(y, m, d) := date_of_days days in
  valid_date y m d = true /\ days_of_date y m d = days.
Proof.
  set (e := (days + 306) / 146097). set (k := (days + 306) mod 146097).
  assert (0 <= k < 146097) as Hk by (apply Z.mod_pos_bound; lia).
  assert (days = k - 306 + 146097 * e) as Hdays
    by (pose proof (Z.div_mod (days + 306) 146097 ltac:(lia)); lia).
  pose proof (date_of_era_day k Hk) as H.
  assert (forall y m d, date_of_days (k - 306) = (y, m, d) -> date_of_days days = (y + 400 * e, m, d)) as Hd.
  { intros y m d. unfold date_of_days. replace (k - 306 + 306) with k by lia.
    rewrite (Z.div_small k), (Z.mod_small k) by done. fold e k. cbv zeta.
    intros [= <- <- <-]. f_equal. f_equal. lia. }
  destruct (date_of_days (k - 306)) as [[y m] d]. destruct H as [Hv He].
  rewrite (Hd y m d eq_refl). split.
  - unfold valid_date, days_in in *. by rewrite is_leap_era.
  - rewrite days_of_date_era. lia.
Qed.

(** ** Writing a time *)

Definition second_ns : Z := 1000000000.
Definition day_ns : Z := 86400 * second_ns.

Definition fraction (ns : Z) : string :=
  if ns =? 0 then "" else String "." (trim_right (fun c => Ascii.eqb c "0") (fixed 9 ns)).

(** The text of [MarshalJSON], without its quotation marks; it is an error when
    the year does not have four digits. *)
Definition FormatTime (t : gotime) : option string :=
  let '(y, m, d) := date_of_days (t / day_ns) in
  let s := t mod day_ns / second_ns in
  if (0 <=? y) && (y <=? 9999) then
    Some (fixed 4 y +:+ String "-" (fixed 2 m +:+ String "-" (fixed 2 d +:+
      String "T" (fixed 2 (s / 3600) +:+ String ":" (fixed 2 (s / 60 mod 60) +:+
        String ":" (fixed 2 (s mod 60) +:+ (fraction (t mod second_ns) +:+ "Z")))))))
  else None.

(** ** Reading a time *)

Definition digit_val (c : ascii) : option Z :=
  if between 48 57 c then Some (Z.of_N (code c) - 48) else None.

(** [getnum] with two digits required *)
Definition num2 (s : string) : option (Z * string) :=
  match s with
  | String a (String b r) => x ← digit_val a; y ← digit_val b; Some (10 * x + y, r)
  | _ => None
  end.
(** [getnum]: the second digit may be missing. *)
Definition num12 (s : string) : option (Z * string) :=
  match s with
  | String a (String b r) =>
      x ← digit_val a;
      match digit_val b with
      | Some y => Some (10 * x + y, r)
      | None => Some (x, String b r)
      end
  | String a EmptyString => x ← digit_val a; Some (x, "")
  | EmptyString => None
  end.
Definition num4 (s : string) : option (Z * string) :=
  '(x, r) ← num2 s; '(y, r') ← num2 r; Some (100 * x + y, r').
Definition expect (c : ascii) (s : string) : option string :=
  match s with
  | String d r => if Ascii.eqb d c then Some r else None
  | EmptyString => None
  end.

(** The first [width] digits of a fraction, as a number of units of its last
    place; the others are dropped. *)
Fixpoint scan_fraction (width : nat) (s : string) : Z * string :=
  match s with
  | String c r =>
      match digit_val c with
      | Some x =>
          match width with
          | O => scan_fraction O r
          | S w => let '(v, r') := scan_fraction w r in (x * 10 ^ Z.of_nat w + v, r')
          end
      | None => (0, s)
      end
  | EmptyString => (0, s)
  end.
Definition parse_fraction (s : string) : Z * string :=
  match s with
  | String p (String c r) =>
      if (Ascii.eqb p "." || Ascii.eqb p ",") && bool_decide (is_Some (digit_val c))
      then scan_fraction 9 (String c r) else (0, s)
  | _ => (0, s)
  end.

(** The zone, in seconds east of UTC. *)
Definition parse_zone (s : string) : option (Z * string) :=
  match s with
  | String c r =>
      if Ascii.eqb c "Z" then Some (0, r)
      else if Ascii.eqb c "+" || Ascii.eqb c "-" then
        '(h, r1) ← num2 r; r2 ← expect ":" r1; '(m, r3) ← num2 r2;
        if (h <=? 24) && (m <=? 60) then
          Some ((if Ascii.eqb c "-" then -1 else 1) * (3600 * h + 60 * m), r3)
        else None
      else None
  | EmptyString => None
  end.

Definition ParseTime (s : string) : option gotime :=
  '(y, s) ← num4 s; s ← expect "-" s;
  '(m, s) ← num2 s; s ← expect "-" s;
  '(d, s) ← num2 s; s ← expect "T" s;
  '(h, s) ← num12 s; s ← expect ":" s;
  '(mi, s) ← num2 s; s ← expect ":" s;
  '(sec, s) ← num2 s;
  let '(ns, s) := parse_fraction s in
  '(zone, s) ← parse_zone s;
  if valid_date y m d && (h <? 24) && (mi <? 60) && (sec <? 60) && String.eqb s "" then
    Some ((days_of_date y m d * 86400 + h * 3600 + mi * 60 + sec - zone) * second_ns + ns)
  else None.

Example FormatTime_zero : FormatTime 0 = Some "0001-01-01T00:00:00Z".
Proof. reflexivity. Qed.
Example FormatTime_ns : FormatTime 63865231425120000000 = Some "2024-10-22T22:03:45.12Z".
Proof. vm_compute. reflexivity. Qed.
Example ParseTime_zone : ParseTime "2024-10-23T00:03:45.12+02:00" = Some 63865231425120000000.
Proof. vm_compute. reflexivity. Qed.
Example ParseTime_invalid : ParseTime "2023-02-29T00:00:00Z" = None.
Proof. reflexivity. Qed.

(** ** Round trip *)

Lemma digit_val_digit n : 0 <= n < 10 -> digit_val (digit n) = Some n.
Proof. intros Hn. by apply (digit_cases (fun n => digit_val (digit n) = Some n)). Qed.

Lemma num2_fixed z r : 0 <= z < 100 -> num2 (fixed 2 z +:+ r) = Some (z, r).
Proof.
  intros Hz. cbn [fixed]. rewrite !app_String, app_Empty. cbn [num2].
  rewrite !digit_val_digit by apply digit_bounds. cbn [mbind option_bind].
  do 2 f_equal. change (Z.of_nat 1) with 1. change (Z.of_nat 0) with 0. div_lia.
Qed.
Lemma num12_fixed z r : 0 <= z < 100 -> num12 (fixed 2 z +:+ r) = Some (z, r).
Proof.
  intros Hz. cbn [fixed]. rewrite !app_String, app_Empty. cbn [num12].
  rewrite !digit_val_digit by apply digit_bounds. cbn [mbind option_bind].
  do 2 f_equal. change (Z.of_nat 1) with 1. change (Z.of_nat 0) with 0. div_lia.
Qed.
Lemma num4_fixed z r : 0 <= z < 10000 -> num4 (fixed 4 z +:+ r) = Some (z, r).
Proof.
  intros Hz. cbn [fixed]. rewrite !app_String, app_Empty. unfold num4. cbn [num2].
  rewrite !digit_val_digit by apply digit_bounds. cbn [mbind option_bind num2].
  rewrite !digit_val_digit by apply digit_bounds. cbn [mbind option_bind].
  do 2 f_equal. cbn [Z.of_nat Pos.of_succ_nat Pos.succ Z.pow Z.pow_pos Pos.iter Z.mul Pos.mul].
  div_lia.
Qed.
Lemma expect_eq c r : expect c (String c r) = Some r.
Proof. unfold expect. by rewrite Ascii.eqb_refl. Qed.

(** The digits that trimming leaves have the same value. *)
Lemma scan_fraction_zeros w r : digit_val (default "Z"%char (String.get 0 r)) = None ->
  scan_fraction w r = (0, r).
Proof. destruct r as [|c r]; cbn; [by destruct w|]. intros Hc. destruct w; cbn; by rewrite Hc. Qed.

Lemma digit_zero n : 0 <= n < 10 -> Ascii.eqb (digit n) "0" = (n =? 0).
Proof. intros Hn. by apply (digit_cases (fun n => Ascii.eqb (digit n) "0" = (n =? 0))). Qed.

Lemma fixed_zeros w z : all_chars (fun c => Ascii.eqb c "0") (fixed w z) = true <->
  z mod 10 ^ Z.of_nat w = 0.
Proof.
  induction w as [|w IH]; [cbn; by rewrite Z.mod_1_r|].
  cbn [fixed all_chars]. rewrite andb_true_iff, IH, digit_zero by apply digit_bounds.
  rewrite Z.eqb_eq, Nat2Z.inj_succ, Z.pow_succ_r, (Z.mul_comm 10) by lia.
  assert (0 < 10 ^ Z.of_nat w) by (apply Z.pow_pos_nonneg; lia).
  rewrite Z.rem_mul_r by lia. pose proof (digit_bounds (z / 10 ^ Z.of_nat w)).
  pose proof (Z.mod_pos_bound z (10 ^ Z.of_nat w) ltac:(lia)). nia.
Qed.

Lemma scan_trimmed w z r : digit_val (default "Z"%char (String.get 0 r)) = None ->
  scan_fraction w (trim_right (fun c => Ascii.eqb c "0") (fixed w z) +:+ r)
  = (z mod 10 ^ Z.of_nat w, r).
Proof.
  intros Hr. induction w as [|w IH].
  { cbn [fixed trim_right]. rewrite app_Empty, scan_fraction_zeros by done. by rewrite Z.mod_1_r. }
  set (zero := fun c => Ascii.eqb c "0") in *.
  assert (0 < 10 ^ Z.of_nat w) as Hp by (apply Z.pow_pos_nonneg; lia).
  assert (z mod 10 ^ Z.of_nat (S w) =
    z / 10 ^ Z.of_nat w mod 10 * 10 ^ Z.of_nat w + z mod 10 ^ Z.of_nat w) as ->.
  { rewrite Nat2Z.inj_succ, Z.pow_succ_r, (Z.mul_comm 10), Z.rem_mul_r by lia. lia. }
  cbn [fixed]. rewrite trim_right_cons.
  destruct (trim_right zero (fixed w z)) as [|c t] eqn:E.
  - apply trim_right_all, fixed_zeros in E. rewrite E. unfold zero.
    rewrite digit_zero by apply digit_bounds.
    destruct (Z.eqb_spec (z / 10 ^ Z.of_nat w mod 10) 0) as [->|Hn].
    + by rewrite app_Empty, scan_fraction_zeros.
    + rewrite app_String, app_Empty. cbn [scan_fraction].
      rewrite digit_val_digit by apply digit_bounds. by rewrite scan_fraction_zeros.
  - rewrite app_String. cbn [scan_fraction]. rewrite digit_val_digit by apply digit_bounds.
    by rewrite IH.
Qed.

Lemma parse_fraction_fraction ns : 0 <= ns < second_ns ->
  parse_fraction (fraction ns +:+ "Z") = (ns, "Z").
Proof.
  intros Hns. unfold fraction. destruct (Z.eqb_spec ns 0) as [->|Hn]; [done|].
  rewrite app_String. pose proof (scan_trimmed 9 ns "Z" eq_refl) as Hs.
  rewrite Z.mod_small in Hs by (unfold second_ns in Hns; lia).
  destruct (trim_right _ (fixed 9 ns)) as [|c t] eqn:E.
  { apply trim_right_all, fixed_zeros in E. rewrite Z.mod_small in E by (unfold second_ns in Hns; lia). lia. }
  revert Hs. rewrite app_String. intros Hs. cbn [parse_fraction Ascii.eqb].
  destruct (digit_val c) eqn:Hc.
  - by rewrite bool_decide_true by by eexists.
  - exfalso. revert Hs. cbn [scan_fraction]. rewrite Hc. intros [= <- _]. lia.
Qed.

(** What [FormatTime] writes, [ParseTime] reads back. *)
Theorem ParseTime_FormatTime t s : FormatTime t = Some s -> ParseTime s = Some t.
Proof.
  unfold FormatTime. pose proof (days_of_date_of_days (t / day_ns)) as Hdate.
  destruct (date_of_days (t / day_ns)) as [[y m] d]. destruct Hdate as [Hv Hd].
  destruct ((0 <=? y) && (y <=? 9999)) eqn:Hy; [|done]. intros <-%(inj Some).
  apply andb_prop in Hy as [Hy0%Z.leb_le Hy1%Z.leb_le].
  assert (1 <= m <= 12 /\ 1 <= d <= 31) as [Hm Hdd].
  { unfold valid_date in Hv. rewrite !andb_true_iff, !Z.leb_le in Hv.
    destruct Hv as [[[]]]. split; [done|]. split; [done|]. etrans; [done|].
    unfold days_in. repeat case_match; lia. }
  set (sec := t mod day_ns / second_ns).
  assert (0 <= t mod second_ns < second_ns) as Hns by (apply Z.mod_pos_bound; done).
  assert (0 <= sec < 86400 /\ t = (t / day_ns * 86400 + sec) * second_ns + t mod second_ns) as [Hsec Ht].
  { subst sec. unfold day_ns, second_ns in *. div_lia. }
  unfold ParseTime. rewrite num4_fixed by lia. cbn [mbind option_bind]. rewrite expect_eq.
  cbn [mbind option_bind]. rewrite num2_fixed by lia. cbn [mbind option_bind]. rewrite expect_eq.
  cbn [mbind option_bind]. rewrite num2_fixed by lia. cbn [mbind option_bind]. rewrite expect_eq.
  cbn [mbind option_bind]. rewrite num12_fixed by div_lia. cbn [mbind option_bind].
  rewrite expect_eq. cbn [mbind option_bind]. rewrite num2_fixed by div_lia.
  cbn [mbind option_bind]. rewrite expect_eq. cbn [mbind option_bind].
  rewrite num2_fixed by div_lia. cbn [mbind option_bind].
  rewrite parse_fraction_fraction by done. cbn [mbind option_bind parse_zone Ascii.eqb Bool.eqb String.eqb].
  rewrite Hv, Hd. rewrite (proj2 (Z.ltb_lt (sec / 3600) 24)) by div_lia.
  rewrite (proj2 (Z.ltb_lt (sec / 60 mod 60) 60)) by div_lia.
  rewrite (proj2 (Z.ltb_lt (sec mod 60) 60)) by div_lia. cbn [andb]. f_equal.
  clearbody sec. clear -Ht. unfold second_ns in *. div_lia.
Qed.

(** ** The times that have a text: the years 1 to 9999 *)

Definition json_time (t : gotime) : Prop := 0 <= t < 315537897600 * second_ns.

Lemma days_before_year_mono a b : a <= b -> days_before_year a <= days_before_year b.
Proof. intros H. unfold days_before_year. div_lia. Qed.

Lemma FormatTime_total t : json_time t -> is_Some (FormatTime t).
Proof.
  intros [H0 H1]. unfold FormatTime. set (days := t / day_ns).
  assert (0 <= days < 3652059) as Hdays by (subst days; unfold day_ns, second_ns in *; div_lia).
  pose proof (days_of_date_of_days days) as H. destruct (date_of_days days) as [[y m] d].
  destruct H as [Hv Hd]. unfold valid_date in Hv. rewrite !andb_true_iff, !Z.leb_le in Hv.
  destruct Hv as [[[Hm1 Hm2] Hd1] Hd2]. unfold days_of_date in Hd.
  assert (0 <= days_before_month m <= 334) as Hmonth.
  { unfold days_before_month. repeat case_match; lia. }
  assert (d <= 31) as Hd31 by (revert Hd2; unfold days_in; repeat case_match; lia).
  assert (0 <= (if (2 <? m) && is_leap y then 1 else 0) <= 1) as Hl by (destruct (_ && _); lia).
  assert (0 <= y).
  { destruct (Z.le_gt_cases 0 y); [done|]. pose proof (days_before_year_mono y (-1) ltac:(lia)) as Hy.
    change (days_before_year (-1)) with (-731) in Hy. lia. }
  assert (y <= 9999).
  { destruct (Z.le_gt_cases y 9999); [done|]. pose proof (days_before_year_mono 10000 y ltac:(lia)) as Hy.
    change (days_before_year 10000) with 3652059 in Hy. lia. }
  rewrite (proj2 (Z.leb_le 0 y)), (proj2 (Z.leb_le y 9999)) by done. by eexists.
Qed.
