(* ===== verification/JsonNumber.v ===== *)
(** * JsonNumber: the numbers of a JSON text.

    A [number] is the text of a number split at its point and exponent, so that
    every decoder sees what the source's decoder sees: an integer is read from a
    text of digits alone. *)
From Stdlib Require Import DecimalString DecimalFacts DecimalN.
From S2P Require Import Prelude.
From S2P Require Import Text.
From S2P Require Import KeyValue.
From S2P Require Import JsonString.

Record number := mkNumber {
  nb_neg : bool;
  nb_int : string;
  (** the digits after the point *)
  nb_frac : option string;
  (** [e] or [E], the sign when there is one, the digits *)
  nb_exp : option (ascii * option ascii * string);
}.

Definition is_digit (c : ascii) : bool := between 48 57 c.

Definition number_text (n : number) : string :=
  (if nb_neg n then "-" else "") +:+ nb_int n
  +:+ (match nb_frac n with Some f => String "." f | None => "" end
       +:+ match nb_exp n with
           | Some (e, Some sg, x) => String e (String sg x)
           | Some (e, None, x) => String e x
           | None => ""
           end).

(** ** The scanner *)

Fixpoint span_digits (s : string) : string * string :=
  match s with
  | String c r => if is_digit c then let '(d, r') := span_digits r in (String c d, r') else ("", s)
  | EmptyString => ("", "")
  end.

(** A number starts with zero only when nothing else precedes its point. *)
Definition int_ok (d : string) : bool :=
  match d with
  | EmptyString => false
  | String c r => negb (Ascii.eqb c "0") || String.eqb r ""
  end.

Definition scan_frac (s : string) : option (option string * string) :=
  match s with
  | String c r =>
      if Ascii.eqb c "." then
        let '(d, r') := span_digits r in
        if String.eqb d "" then None else Some (Some d, r')
      else Some (None, s)
  | EmptyString => Some (None, s)
  end.

Definition is_exp (c : ascii) : bool := Ascii.eqb c "e" || Ascii.eqb c "E".
Definition is_sign (c : ascii) : bool := Ascii.eqb c "+" || Ascii.eqb c "-".

Definition scan_exp (s : string) : option (option (ascii * option ascii * string) * string) :=
  match s with
  | String e r =>
      if is_exp e then
        let '(sg, r1) :=
          match r with
          | String c r' => if is_sign c then (Some c, r') else (None, r)
          | EmptyString => (None, r)
          end in
        let '(d, r2) := span_digits r1 in
        if String.eqb d "" then None else Some (Some (e, sg, d), r2)
      else Some (None, s)
  | EmptyString => Some (None, s)
  end.

Definition scan_unsigned (neg : bool) (s : string) : option (number * string) :=
  let '(i, s1) := span_digits s in
  if int_ok i then
    '(f, s2) ← scan_frac s1;
    '(x, s3) ← scan_exp s2;
    Some (mkNumber neg i f x, s3)
  else None.

Definition scan_number (s : string) : option (number * string) :=
  match s with
  | String c r => if Ascii.eqb c "-" then scan_unsigned true r else scan_unsigned false s
  | EmptyString => None
  end.

Example scan_number_all : scan_number "-12.50e+3," =
  Some (mkNumber true "12" (Some "50") (Some ("e"%char, Some "+"%char, "3")), ",").
Proof. reflexivity. Qed.
Example scan_number_zeros : scan_number "012" = None.
Proof. reflexivity. Qed.

(** ** What was written is scanned *)

Record wf_number (n : number) : Prop := {
  wn_digits : all_chars is_digit (nb_int n) = true;
  wn_int : int_ok (nb_int n) = true;
  wn_frac : match nb_frac n with Some f => all_chars is_digit f = true /\ f <> "" | None => True end;
  wn_exp : match nb_exp n with
           | Some (e, sg, x) => is_exp e = true /\ all_chars is_digit x = true /\ x <> "" /\
               match sg with Some c => is_sign c = true | None => True end
           | None => True
           end;
}.

(** The texts that can follow a number: no digit, point or exponent. *)
Definition ends_number (s : string) : bool :=
  match s with
  | String c _ => negb (is_digit c) && negb (Ascii.eqb c ".") && negb (is_exp c)
  | EmptyString => true
  end.

Definition no_digit (s : string) : bool :=
  match s with String c _ => negb (is_digit c) | EmptyString => true end.

Lemma span_digits_app d r : all_chars is_digit d = true -> no_digit r = true ->
  span_digits (d +:+ r) = (d, r).
Proof.
  intros Hd Hr. induction d as [|c d IH].
  - rewrite app_Empty. destruct r as [|c r]; [done|]. cbn in *. by destruct (is_digit c).
  - cbn [all_chars] in Hd. apply andb_prop in Hd as [Hc Hd]. rewrite app_String. cbn [span_digits].
    by rewrite Hc, IH.
Qed.

Lemma ends_no_digit r : ends_number r = true -> no_digit r = true.
Proof. destruct r; [done|]. cbn. rewrite !andb_true_iff. tauto. Qed.

Lemma eqb_nonempty d : d <> "" -> String.eqb d "" = false.
Proof. apply String.eqb_neq. Qed.

Lemma exp_not_digit e : is_exp e = true -> is_digit e = false /\ Ascii.eqb e "." = false.
Proof. intros [->%Ascii.eqb_eq| ->%Ascii.eqb_eq]%orb_prop; done. Qed.
Lemma sign_not_digit e : is_sign e = true -> is_digit e = false.
Proof. intros [->%Ascii.eqb_eq| ->%Ascii.eqb_eq]%orb_prop; done. Qed.
Lemma digit_not_sign c : is_digit c = true -> is_sign c = false.
Proof. intros H. destruct (is_sign c) eqn:E; [|done]. apply sign_not_digit in E. congruence. Qed.

Definition exp_text (x : option (ascii * option ascii * string)) : string :=
  match x with
  | Some (e, Some sg, x) => String e (String sg x)
  | Some (e, None, x) => String e x
  | None => ""
  end.

Lemma scan_exp_app x r : ends_number r = true ->
  match x with
  | Some (e, sg, d) => is_exp e = true /\ all_chars is_digit d = true /\ d <> "" /\
      match sg with Some c => is_sign c = true | None => True end
  | None => True
  end ->
  scan_exp (exp_text x +:+ r) = Some (x, r).
Proof.
  intros Hr Hx. pose proof (ends_no_digit r Hr) as Hd.
  destruct x as [[[e [sg|]] d]|]; cbn [exp_text].
  - destruct Hx as (He & Hdig & Hne & Hs). rewrite !app_String. cbn [scan_exp].
    by rewrite He, Hs, span_digits_app, eqb_nonempty.
  - destruct Hx as (He & Hdig & Hne & _). rewrite !app_String. cbn [scan_exp]. rewrite He.
    destruct d as [|c d]; [done|]. rewrite app_String.
    pose proof Hdig as [Hc _]%andb_prop. rewrite digit_not_sign by done.
    by rewrite <- app_String, span_digits_app.
  - rewrite app_Empty. destruct r as [|c r]; [done|]. cbn in Hr |- *.
    by apply andb_prop in Hr as [_ ->%negb_true_iff].
Qed.

Lemma exp_text_ends x r : ends_number r = true ->
  match x with Some (e, _, _) => is_exp e = true | None => True end ->
  no_digit (exp_text x +:+ r) = true /\
  match exp_text x +:+ r with String c _ => Ascii.eqb c "." = false | EmptyString => True end.
Proof.
  intros Hr Hx. destruct x as [[[e [sg|]] d]|]; cbn [exp_text].
  1,2: rewrite !app_String; cbn [no_digit]; by destruct (exp_not_digit e Hx) as [-> ->].
  rewrite app_Empty. destruct r as [|c r]; [done|]. cbn in Hr |- *.
  apply andb_prop in Hr as [[Hr1 Hr2%negb_true_iff]%andb_prop _]. done.
Qed.

Lemma scan_unsigned_app n r : wf_number n -> ends_number r = true ->
  scan_unsigned (nb_neg n) ((nb_int n +:+ (match nb_frac n with Some f => String "." f | None => "" end
       +:+ exp_text (nb_exp n))) +:+ r) = Some (n, r).
Proof.
  intros [Hd Hi Hf Hx] Hr. rewrite !append_assoc.
  destruct (exp_text_ends (nb_exp n) r Hr) as [He1 He2].
  { destruct (nb_exp n) as [[[e sg] x]|]; [apply Hx | done]. }
  unfold scan_unsigned. rewrite span_digits_app; [|done|].
  2: { destruct (nb_frac n); [done|]. by rewrite app_Empty. }
  rewrite Hi.
  assert (scan_frac (match nb_frac n with Some f => String "." f | None => "" end +:+
    (exp_text (nb_exp n) +:+ r)) = Some (nb_frac n, exp_text (nb_exp n) +:+ r)) as ->.
  { destruct (nb_frac n) as [f|].
    - rewrite app_String. cbn [scan_frac]. rewrite Ascii.eqb_refl.
      destruct Hf. by rewrite span_digits_app, eqb_nonempty.
    - rewrite app_Empty. destruct (exp_text (nb_exp n) +:+ r) as [|c s]; [done|].
      cbn [scan_frac]. by rewrite He2. }
  cbn [mbind option_bind]. rewrite scan_exp_app by done. by destruct n.
Qed.

Theorem scan_number_text n r : wf_number n -> ends_number r = true ->
  scan_number (number_text n +:+ r) = Some (n, r).
Proof.
  intros Hn Hr. pose proof (scan_unsigned_app n r Hn Hr) as H. unfold number_text.
  fold (exp_text (nb_exp n)).
  destruct (nb_neg n); [by rewrite app_String, app_Empty, app_String; cbn [scan_number]; rewrite Ascii.eqb_refl|].
  rewrite app_Empty. destruct Hn as [Hd Hi _ _]. destruct (nb_int n) as [|c i]; [done|].
  rewrite !app_String in *. cbn [scan_number]. pose proof Hd as [Hc _]%andb_prop.
  assert (Ascii.eqb c "-" = false) as ->; [|done].
  apply digit_not_sign in Hc. by apply orb_false_iff in Hc as [_ ->].
Qed.

Lemma number_text_nonempty n : wf_number n -> exists c r, number_text n = String c r /\
  (is_digit c || Ascii.eqb c "-") = true.
Proof.
  intros [Hd Hi _ _]. unfold number_text. destruct (nb_neg n).
  - eexists _, _. rewrite app_String. by split.
  - rewrite app_Empty. destruct (nb_int n) as [|c i]; [done|]. rewrite app_String.
    eexists _, _. split; [done|]. apply andb_prop in Hd as [-> _]. done.
Qed.

(** ** Integers *)

Definition int_number (neg : bool) (z : Z) : number := mkNumber neg (FormatUint z) None None.

Lemma digits_string_of_uint d : all_chars is_digit (NilEmpty.string_of_uint d) = true.
Proof. by induction d. Qed.

Lemma digits_FormatUint z : all_chars is_digit (FormatUint z) = true.
Proof.
  unfold FormatUint, NilZero.string_of_uint. destruct (N.to_uint (Z.to_N z)) eqn:E; [done|..];
    rewrite <- E; apply digits_string_of_uint.
Qed.

Lemma to_uint_D0 n d : N.to_uint n = Decimal.D0 d -> n = 0%N.
Proof.
  intros H. pose proof (Unsigned.to_of (N.to_uint n)) as Hu.
  rewrite Unsigned.of_to in Hu. rewrite H in Hu. unfold Decimal.unorm in Hu. cbn [Decimal.nzhead] in Hu.
  destruct (Decimal.nzhead d) as [| | | | | | | | | |] eqn:E; try discriminate Hu.
  - rewrite Hu in H. apply (f_equal N.of_uint) in H. by rewrite Unsigned.of_to in H.
  - exfalso. by eapply nzhead_nonzero.
Qed.

Lemma int_ok_FormatUint z : int_ok (FormatUint z) = true.
Proof.
  unfold FormatUint, NilZero.string_of_uint. destruct (N.to_uint (Z.to_N z)) eqn:E; try done.
  pose proof (to_uint_D0 _ _ E) as Hz. rewrite Hz in E. by injection E as <-.
Qed.

Lemma wf_int_number neg z : wf_number (int_number neg z).
Proof.
  split; cbn [int_number nb_int nb_frac nb_exp]; [apply digits_FormatUint | apply int_ok_FormatUint | done..].
Qed.

(** The value of a text of digits. *)
Definition digits_value (s : string) : Z :=
  match NilZero.uint_of_string s with Some d => Z.of_N (N.of_uint d) | None => 0 end.

Lemma digits_value_FormatUint z : 0 <= z -> digits_value (FormatUint z) = z.
Proof.
  intros Hz. unfold digits_value, FormatUint. rewrite NilZero.usu by apply to_uint_nonnil.
  by rewrite Unsigned.of_to, Z2N.id.
Qed.

Lemma digits_value_fixed w z : (0 < w)%nat -> digits_value (fixed w z) = z mod 10 ^ Z.of_nat w.
Proof.
  intros Hw. destruct (uint_of_fixed w z) as (d & Hd & _ & Hv). unfold digits_value.
  destruct w as [|w]; [lia|]. change (NilZero.uint_of_string (fixed (S w) z))
    with (NilEmpty.uint_of_string (fixed (S w) z)). by rewrite Hd, of_uint_value.
Qed.

(** [strconv.ParseUint] of the text of a number; a sign, a point or an exponent is
    a type error. *)
Definition number_uint (n : number) : option Z :=
  match n with
  | mkNumber false i None None => ParseUint i
  | _ => None
  end.

(** [strconv.ParseInt(_, 10, 64)] *)
Definition number_int (n : number) : option Z :=
  match n with
  | mkNumber neg i None None =>
      let z := if neg then - digits_value i else digits_value i in
      if (MinInt64 <=? z) && (z <=? MaxInt64) then Some z else None
  | _ => None
  end.

Definition of_uint (z : Z) : number := int_number false z.
Definition of_int (z : Z) : number := int_number (z <? 0) (Z.abs z).

Lemma number_uint_of_uint z : is_u64 z -> number_uint (of_uint z) = Some z.
Proof. apply ParseUint_FormatUint. Qed.

Lemma number_int_of_int z : is_i64 z -> number_int (of_int z) = Some z.
Proof.
  intros Hz. unfold number_int, of_int, int_number. rewrite digits_value_FormatUint by lia.
  assert ((if z <? 0 then - Z.abs z else Z.abs z) = z) as -> by (destruct (Z.ltb_spec z 0); lia).
  by rewrite (proj2 (Z.leb_le _ _)), (proj2 (Z.leb_le _ _)) by int_lia.
Qed.
