(* ===== verification/FloatText.v ===== *)
(** * FloatText: the text of a [float64].

    [strconv.ParseFloat] rounds a decimal to the nearest float;
    [strconv.FormatFloat] with precision -1 writes the shortest decimal that reads
    back as the float ([Float64.shortest_decimal]); [encoding/json] writes it with
    or without an exponent. *)
From Stdlib Require Import Znumtheory Zpow_facts.
From Stdlib Require Qcanon.
From S2P Require Import Prelude.
From S2P Require Import Text.
From S2P Require Import Float64.
From S2P Require Import KeyValue.
From S2P Require Import JsonString.
From S2P Require Import JsonNumber.

(** ** The exact value of a float is rounded to the float *)

Lemma Zdigits2_log2 n : 0 < n -> Zdigits2 n = Z.log2 n + 1.
Proof.
  destruct n as [|p|p]; [lia| |lia]. intros _. cbn [Zdigits2].
  assert (digits2_pos p = Pos.size p) as -> by (induction p as [p IH|p IH|]; cbn; by rewrite ?IH).
  destruct p as [p|p|]; cbn [Z.log2 Pos.size]; lia.
Qed.

Lemma iter_pos_iter {A} (f : A -> A) n x : iter_pos f n x = Nat.iter (Pos.to_nat n) f x.
Proof.
  revert x. induction n as [n IH|n IH|]; intros x; cbn [iter_pos].
  - rewrite !IH, Pos2Nat.inj_xI, <- Nat.iter_add, Nat.iter_swap.
    replace (2 * Pos.to_nat n)%nat with (Pos.to_nat n + Pos.to_nat n)%nat by lia. done.
  - rewrite !IH, Pos2Nat.inj_xO, <- Nat.iter_add.
    by replace (2 * Pos.to_nat n)%nat with (Pos.to_nat n + Pos.to_nat n)%nat by lia.
  - done.
Qed.

(** Shifting out zeros is exact. *)
Lemma shr_1_double m : 0 < m ->
  shr_1 (Build_shr_record (m * 2) false false) = Build_shr_record m false false.
Proof. destruct m as [|p|p]; [lia| |lia]. by rewrite Z.mul_comm. Qed.

Lemma shr_zeros m e n : 0 < m -> 0 <= n ->
  shr (Build_shr_record (m * 2 ^ n) false false) e n = (Build_shr_record m false false, e + n).
Proof.
  intros Hm Hn. destruct n as [|p|p]; [|cbn [shr]|lia].
  { cbn. by rewrite Z.mul_1_r, Z.add_0_r. }
  f_equal. rewrite iter_pos_iter.
  rewrite <- (positive_nat_Z p). generalize (Pos.to_nat p). clear p Hn.
  induction n as [|n IH]; [cbn; by rewrite Z.mul_1_r|].
  rewrite Nat2Z.inj_succ, Z.pow_succ_r, Nat.iter_succ_r by lia.
  replace (m * (2 * 2 ^ Z.of_nat n)) with (m * 2 ^ Z.of_nat n * 2) by lia.
  rewrite shr_1_double by nia. exact IH.
Qed.

Abbreviation fexp64 := (fexp prec64 emax64).

Lemma log2_mul_pow2 m n : 0 < m -> 0 <= n -> Z.log2 (m * 2 ^ n) = Z.log2 m + n.
Proof. intros. rewrite Z.log2_mul_pow2 by lia. lia. Qed.

Lemma bounded_spec m e : bounded prec64 emax64 m e = true ->
  fexp64 (Z.log2 (Zpos m) + 1 + e) = e /\ e <= emax64 - prec64.
Proof.
  unfold bounded, canonical_mantissa. intros [H1%Z.eqb_eq H2%Z.leb_le]%andb_prop.
  split; [|done]. change (Zpos (digits2_pos m)) with (Zdigits2 (Zpos m)) in H1.
  by rewrite Zdigits2_log2 in H1 by lia.
Qed.

(** A mantissa with trailing zeros is rounded to the canonical one. *)
Lemma binary_round_aux_exact m e s :
  bounded prec64 emax64 m e = true -> 0 <= e + s ->
  binary_round_aux prec64 emax64 false (Zpos m * 2 ^ (e + s)) (- s) loc_Exact = S754_finite false m e.
Proof.
  intros [Hc Hb]%bounded_spec Hs. unfold binary_round_aux, shr_fexp.
  rewrite Zdigits2_log2, log2_mul_pow2 by lia.
  replace (Z.log2 (Zpos m) + (e + s) + 1 + - s) with (Z.log2 (Zpos m) + 1 + e) by lia.
  rewrite Hc. replace (e - - s) with (e + s) by lia. cbn [shr_record_of_loc].
  rewrite shr_zeros by lia. cbn [loc_of_shr_record shr_m round_nearest_even].
  replace (- s + (e + s)) with e by lia.
  rewrite Zdigits2_log2 by lia. rewrite Hc, Z.sub_diag. cbn [shr shr_m shr_record_of_loc].
  by rewrite (proj2 (Z.leb_le _ _)).
Qed.

(** A positive dyadic rational [n / 2^k] in lowest terms that equals [m * 2^e]. *)
Lemma RatFloat64_dyadic m e n k :
  bounded prec64 emax64 m e = true -> 0 < n -> 0 <= k ->
  (0 <= e -> k = 0 /\ n = Zpos m * 2 ^ e) ->
  (e < 0 -> k <= - e /\ Zpos m = n * 2 ^ (- e - k)) ->
  RatFloat64 (n # Z.to_pos (2 ^ k)) = S754_finite false m e.
Proof.
  intros Hb Hn Hk Hpos Hneg. pose proof (bounded_spec m e Hb) as [Hc _].
  assert (0 < 2 ^ k) as H2k by (apply Z.pow_pos_nonneg; lia).
  assert (Z.log2 n - k = Z.log2 (Zpos m) + e) as Hlog.
  { destruct (Z.lt_ge_cases e 0) as [He|He].
    - destruct (Hneg He) as [Hke ->]. rewrite log2_mul_pow2 by lia. lia.
    - destruct (Hpos He) as [-> ->]. rewrite log2_mul_pow2 by lia. lia. }
  unfold RatFloat64. cbn [Qnum Qden]. rewrite Z2Pos.id by done.
  destruct n as [|n'|n'] eqn:En; [lia| rewrite <- En in * |lia].
  replace (Z.abs n) with n by lia. unfold SFdiv_core_binary.
  rewrite !Zdigits2_log2, Z.log2_pow2 by lia.
  replace (Z.log2 n + 1 + 0 - (k + 1 + 0)) with (Z.log2 (Zpos m) + e) by lia.
  set (e' := Z.min (fexp64 (Z.log2 (Zpos m) + e)) (0 - 0)).
  set (s := 0 - 0 - e').
  assert (0 <= s /\ k <= s /\ 0 <= e + s) as (Hs & Hks & Hes).
  { subst s e'. revert Hc. unfold fexp, emin, prec64, emax64. intros Hc.
    destruct (Z.lt_ge_cases e 0) as [He|He]; [destruct (Hneg He)|destruct (Hpos He)]; lia. }
  assert (match s with Zpos _ => Z.shiftl n s | Z0 => n | Zneg _ => 0 end = n * 2 ^ s) as ->.
  { destruct s; [lia| |lia]. by rewrite Z.shiftl_mul_pow2. }
  assert (n * 2 ^ s = Zpos m * 2 ^ (e + s) * 2 ^ k) as ->.
  { destruct (Z.lt_ge_cases e 0) as [He|He].
    - destruct (Hneg He) as [Hke ->]. rewrite <- !Z.mul_assoc, <- !Z.pow_add_r by lia.
      do 2 f_equal. lia.
    - destruct (Hpos He) as [-> ->]. rewrite <- !Z.mul_assoc, <- !Z.pow_add_r by lia.
      do 2 f_equal. lia. }
  pose proof (Z.div_mul (Zpos m * 2 ^ (e + s)) (2 ^ k) ltac:(lia)) as Hq.
  pose proof (Z.mod_mul (Zpos m * 2 ^ (e + s)) (2 ^ k) ltac:(lia)) as Hr.
  unfold Z.div, Z.modulo in Hq, Hr. destruct (Z.div_eucl _ _) as [q r]. subst q r.
  assert (new_location (2 ^ k) 0 = loc_Exact) as ->.
  { unfold new_location, new_location_even, new_location_odd. by destruct (Z.even _). }
  replace (n <? 0) with false by lia. replace e' with (- s) by lia.
  by apply binary_round_aux_exact.
Qed.

Theorem RatFloat64_Q_of_float m e :
  bounded prec64 emax64 m e = true ->
  RatFloat64 (Q_of_float (S754_finite false m e)) = S754_finite false m e.
Proof.
  intros Hb. unfold Q_of_float. destruct (Z.leb_spec 0 e) as [He|He].
  - assert (0 < 2 ^ e) by (apply Z.pow_pos_nonneg; lia).
    assert (Qred (inject_Z (Zpos m * 2 ^ e)) = Zpos m * 2 ^ e # Z.to_pos (2 ^ 0)) as ->
      by apply Qcanon.Qred_identity, Z.gcd_1_r.
    apply RatFloat64_dyadic; [done|nia|lia|done|lia].
  - set (K := - e). assert (0 < 2 ^ K) as HK by (apply Z.pow_pos_nonneg; lia).
    set (q := Zpos m # Z.to_pos (2 ^ K)).
    pose proof (Qred_correct q) as Heq. pose proof (canonical_Qred q : Qred (Qred q) = Qred q) as Hinv.
    destruct (Qred q) as [n d]. unfold Qeq in Heq. subst q. cbn [Qnum Qden] in Heq.
    rewrite Z2Pos.id in Heq by done.
    assert (Z.gcd n (Zpos d) = 1) as Hg by (by apply Qcanon.Qred_identity2 in Hinv).
    assert (exists k, Zpos d = 2 ^ k /\ 0 <= k) as (k & Hd & Hk).
    { destruct (Zdivide_power_2 (Zpos d) 2 K) as [k Hk]; [lia|lia|exact prime_2| |].
      - apply (Gauss _ n); [exists (Zpos m); lia|]. by apply Zgcd_1_rel_prime; rewrite Z.gcd_comm.
      - destruct (Z.lt_ge_cases k 0); [rewrite Z.pow_neg_r in Hk by done; lia|]. by exists k. }
    assert (n # d = n # Z.to_pos (2 ^ k)) as -> by (rewrite <- Hd; done).
    rewrite Hd in Heq. assert (0 < 2 ^ k) by (apply Z.pow_pos_nonneg; lia).
    assert (0 < n) by nia.
    assert (k <= K) as HkK.
    { apply (Z.pow_le_mono_r_iff 2); [lia..|].
      apply Z.divide_pos_le; [done|]. rewrite <- Hd. apply (Gauss _ n).
      - exists (Zpos m). rewrite Hd. lia.
      - by apply Zgcd_1_rel_prime; rewrite Z.gcd_comm. }
    apply RatFloat64_dyadic; [done|done|done|lia|]. intros _. split; [lia|].
    apply (Z.mul_reg_r _ _ (2 ^ k)); [lia|].
    rewrite <- Z.mul_assoc, <- Z.pow_add_r by lia. replace (- e - k + k) with K by lia. lia.
Qed.

(** ** Reading: [strconv.ParseFloat] of a number of JSON *)

(** [mant * 10^ex], rounded to the nearest; [None] out of range. *)
Definition decimal_float (neg : bool) (mant ex : Z) : option float64 :=
  if mant =? 0 then Some (S754_zero neg)
  else match RatFloat64 (scaled mant (- ex)) with
       | S754_finite _ m e => Some (S754_finite neg m e)
       | S754_zero _ => Some (S754_zero neg)
       | _ => None
       end.

Definition exp_value (x : option (ascii * option ascii * string)) : Z :=
  match x with
  | Some (_, Some c, d) => if Ascii.eqb c "-" then - digits_value d else digits_value d
  | Some (_, None, d) => digits_value d
  | None => 0
  end.

Definition ParseFloat (n : number) : option float64 :=
  let f := default "" (nb_frac n) in
  let k := Z.of_nat (String.length f) in
  decimal_float (nb_neg n) (digits_value (nb_int n) * 10 ^ k + digits_value f)
    (exp_value (nb_exp n) - k).

(** ** Writing: [strconv.AppendFloat] with precision -1, as [encoding/json] calls it *)

(** The least [s] for which [q * 10^s] is an integer. *)
Fixpoint scale_from (fuel : nat) (s num den : Z) : Z :=
  match fuel with
  | O => s
  | S fuel' => if num mod den =? 0 then s else scale_from fuel' (s + 1) (num * 10) den
  end.
(** The largest power of ten in an integer is taken out. *)
Fixpoint strip_zeros (fuel : nat) (c s : Z) : Z * Z :=
  match fuel with
  | O => (c, s)
  | S fuel' => if c mod 10 =? 0 then strip_zeros fuel' (c / 10) (s - 1) else (c, s)
  end.

(** The digits [c] and the scale [s] of a terminating decimal [c * 10^(-s)]. *)
Definition decimal_parts (q : rat) : Z * Z :=
  let s := scale_from 1100 0 (Qnum q) (Zpos (Qden q)) in
  strip_zeros 400 (Qnum q * 10 ^ s / Zpos (Qden q)) s.

(** [%f]: no exponent. *)
Definition plain_number (neg : bool) (c s : Z) : number :=
  if s <=? 0 then mkNumber neg (FormatUint (c * 10 ^ (- s))) None None
  else mkNumber neg (FormatUint (c / 10 ^ s)) (Some (fixed (Z.to_nat s) c)) None.

(** [%e]: one digit before the point; a one-digit negative exponent is not padded. *)
Definition sci_number (neg : bool) (c s : Z) : number :=
  let k := Z.of_nat (String.length (FormatUint c)) in
  let x := k - 1 - s in
  mkNumber neg (FormatUint (c / 10 ^ (k - 1)))
    (if k <=? 1 then None else Some (fixed (Z.to_nat (k - 1)) c))
    (Some ("e"%char, Some (if x <? 0 then "-"%char else "+"%char), FormatUint (Z.abs x))).

(** NaN and the infinities are errors. *)
Definition FormatFloat (f : float64) : option number :=
  match f with
  | S754_zero neg => Some (mkNumber neg "0" None None)
  | S754_finite neg m e =>
      let abs := S754_finite false m e in
      let '(c, s) := decimal_parts (shortest_decimal abs) in
      Some (if fgt (RatFloat64 (1 # 1000000)) abs || fge abs (float_of_Z (10 ^ 21))
            then sci_number neg c s else plain_number neg c s)
  | _ => None
  end.

Definition float_text (f : float64) : option string := number_text <$> FormatFloat f.

Example float_text_third : float_text (RatFloat64 (1 # 3)) = Some "0.3333333333333333".
Proof. vm_compute. reflexivity. Qed.
Example float_text_large : float_text (float_of_Z (10 ^ 21)) = Some "1e+21".
Proof. vm_compute. reflexivity. Qed.
Example float_text_small : float_text (RatFloat64 (15 # 100000000)) = Some "1.5e-7".
Proof. vm_compute. reflexivity. Qed.
Example float_text_int : float_text (float_of_Z 1500000) = Some "1500000".
Proof. vm_compute. reflexivity. Qed.
(** ** Round trip *)

(** [c * 10^(-s)] is [q], over the integers. *)
Definition decimal_of (c s : Z) (q : rat) : Prop :=
  exists a b, 0 <= a /\ 0 <= b /\ s = a - b /\ c * 10 ^ b * Zpos (Qden q) = Qnum q * 10 ^ a.

Lemma decimal_of_scaled c s q : canonical q -> decimal_of c s q -> scaled c s = q.
Proof.
  intros Hq (a & b & Ha & Hb & -> & E). unfold scaled.
  assert (forall n d, 0 < d -> n * Zpos (Qden q) = Qnum q * d -> SetFrac n d = q) as Hfrac.
  { intros n d Hd H. apply canonical_eq; [apply canonical_SetFrac | done |].
    rewrite SetFrac_eq by done. unfold Qeq. cbn. rewrite Z2Pos.id by done. lia. }
  destruct (Z.leb_spec 0 (a - b)) as [Hs|Hs].
  - apply Hfrac; [apply Z.pow_pos_nonneg; lia|].
    assert (0 < 10 ^ b) by (apply Z.pow_pos_nonneg; lia).
    assert (10 ^ a = 10 ^ (a - b) * 10 ^ b) as Hpow by (rewrite <- Z.pow_add_r by lia; f_equal; lia).
    rewrite Hpow in E. nia.
  - apply Hfrac; [done|]. replace (- (a - b)) with (b - a) by lia.
    assert (0 < 10 ^ a) by (apply Z.pow_pos_nonneg; lia).
    assert (10 ^ b = 10 ^ (b - a) * 10 ^ a) as Hpow by (rewrite <- Z.pow_add_r by lia; f_equal; lia).
    rewrite Hpow in E. nia.
Qed.

Lemma strip_zeros_of fuel c s q : 0 < c -> decimal_of c s q ->
  let '(c', s') := strip_zeros fuel c s in 0 < c' /\ decimal_of c' s' q.
Proof.
  revert c s. induction fuel as [|fuel IH]; intros c s Hc Hq; cbn [strip_zeros]; [done|].
  destruct (Z.eqb_spec (c mod 10) 0) as [E|]; [|done].
  pose proof (Z.div_mod c 10 ltac:(lia)) as Hdiv. rewrite E in Hdiv.
  apply IH; [lia|]. destruct Hq as (a & b & Ha & Hb & -> & Eq).
  exists a, (b + 1). split_and!; [done|lia|lia|].
  rewrite Z.pow_add_r, <- Eq by lia. rewrite Hdiv at 2. lia.
Qed.

Lemma scale_from_divides fuel s num den j :
  (Z.of_nat j <= Z.of_nat fuel) -> (den | num * 10 ^ Z.of_nat j) -> 0 < den ->
  let s' := scale_from fuel s num den in s <= s' /\ (den | num * 10 ^ (s' - s)).
Proof.
  revert s num j. induction fuel as [|fuel IH]; intros s num j Hj Hd Hden; cbn [scale_from].
  { assert (j = 0%nat) as -> by lia. split; [lia|]. by rewrite Z.sub_diag. }
  destruct (Z.eqb_spec (num mod den) 0) as [E|E].
  { split; [lia|]. rewrite Z.sub_diag, Z.mul_1_r. by apply Z.mod_divide; [lia|]. }
  destruct j as [|j].
  { exfalso. apply E, Z.mod_divide; [lia|]. by rewrite Z.mul_1_r in Hd. }
  destruct (IH (s + 1) (num * 10) j) as [H1 H2]; [lia| |done|].
  { rewrite Nat2Z.inj_succ, Z.pow_succ_r in Hd by lia. by rewrite <- Z.mul_assoc. }
  cbv zeta in *. split; [lia|]. revert H2.
  replace (scale_from fuel (s + 1) (num * 10) den - s)
    with (scale_from fuel (s + 1) (num * 10) den - (s + 1) + 1) by lia.
  rewrite Z.pow_add_r by lia. intros [k Hk]. exists k. lia.
Qed.

Lemma decimal_parts_spec q j : (0 < q)%Q -> (Z.of_nat j <= 1100) ->
  (Zpos (Qden q) | 10 ^ Z.of_nat j) -> canonical q ->
  let '(c, s) := decimal_parts q in 0 < c /\ scaled c s = q.
Proof.
  intros Hpos Hj Hd Hq. unfold decimal_parts.
  destruct (scale_from_divides 1100 0 (Qnum q) (Zpos (Qden q)) j) as [Hs Hdiv].
  { lia. } { by apply Z.divide_mul_r. } { lia. }
  cbv zeta in Hs, Hdiv. set (s := scale_from 1100 0 (Qnum q) (Zpos (Qden q))) in *.
  rewrite Z.sub_0_r in Hdiv. destruct Hdiv as [c Hc].
  assert (0 < Qnum q) as Hn by (unfold Qlt in Hpos; cbn in Hpos; lia).
  assert (0 < 10 ^ s) by (apply Z.pow_pos_nonneg; lia).
  rewrite Hc, Z.div_mul by done.
  pose proof (strip_zeros_of 400 c s q ltac:(nia)) as H'.
  destruct (strip_zeros 400 c s) as [c' s'].
  destruct H' as [Hc' Hd'].
  { exists s, 0. split_and!; [done|done|lia|]. lia. }
  split; [done|]. by apply decimal_of_scaled.
Qed.

Lemma Qden_Qred_divides a b : (Zpos (Qden (Qred (a # b))) | Zpos b).
Proof.
  pose proof (Qred_correct (a # b)) as H. pose proof (canonical_Qred (a # b)) as Hc.
  destruct (Qred (a # b)) as [n d]. unfold Qeq in H. cbn [Qnum Qden] in *.
  apply Qcanon.Qred_identity2 in Hc. cbn in Hc. apply (Gauss _ n).
  - exists a. lia.
  - by apply Zgcd_1_rel_prime; rewrite Z.gcd_comm.
Qed.

Lemma scaled_terminates c s : s <= 417 -> (Zpos (Qden (scaled c s)) | 10 ^ 417).
Proof.
  intros Hs. unfold scaled, SetFrac. destruct (Z.leb_spec 0 s) as [H|H].
  - assert (0 < 10 ^ s) by (apply Z.pow_pos_nonneg; lia).
    rewrite (proj2 (Z.ltb_ge _ _)) by lia.
    etrans; [apply Qden_Qred_divides|]. rewrite Z2Pos.id by done.
    exists (10 ^ (417 - s)). rewrite <- Z.pow_add_r by lia. f_equal. lia.
  - cbn [Z.ltb Z.compare]. etrans; [apply Qden_Qred_divides|]. apply Z.divide_1_l.
Qed.

Lemma exp_up_ge fuel n d k : k <= exp_up fuel n d k.
Proof.
  revert d k. induction fuel as [|fuel IH]; intros d k; cbn [exp_up]; [done|].
  destruct (n <? d); [done|]. etrans; [|apply IH]. lia.
Qed.
Lemma exp_down_ge fuel n d k : k - Z.of_nat fuel <= exp_down fuel n d k.
Proof.
  revert n k. induction fuel as [|fuel IH]; intros n k; cbn [exp_down]; [lia|].
  destruct (d <=? n * 10); [lia|]. etrans; [|apply IH]. lia.
Qed.
Lemma decimal_exp_ge n d : -400 <= decimal_exp n d.
Proof.
  unfold decimal_exp. destruct (d <=? n).
  - etrans; [|apply exp_up_ge]. lia.
  - etrans; [|apply exp_down_ge]. lia.
Qed.

(** A candidate reads back as the float, and its digits terminate. *)
Lemma digits_candidate_spec f v nd q : digits_candidate f v nd = Some q -> nd <= 17 ->
  RatFloat64 q = f /\ canonical q /\ (Zpos (Qden q) | 10 ^ 417).
Proof.
  intros H Hnd. pose proof (decimal_exp_ge (Qnum v) (Zpos (Qden v))) as Hexp.
  unfold digits_candidate in H.
  set (s := nd - decimal_exp (Qnum v) (Zpos (Qden v))) in *.
  assert (exists c, q = scaled c s /\ RatFloat64 (scaled c s) = f) as (c & -> & Hc).
  { destruct (if 0 <=? s then _ else _) as [n' d'].
    repeat case_match; simplify_eq; eexists; (split; [reflexivity|]);
      by eapply bool_decide_eq_true_1. }
  split; [done|]. split; [unfold scaled; destruct (0 <=? s); apply canonical_SetFrac|].
  apply scaled_terminates. lia.
Qed.

(** The shortest decimal of a positive float reads back as the float. *)
Lemma shortest_from_spec fuel m e nd :
  bounded prec64 emax64 m e = true -> nd + Z.of_nat fuel <= 18 ->
  let f := S754_finite false m e in
  let q := shortest_from fuel f (Q_of_float f) nd in
  RatFloat64 q = f /\ canonical q /\ exists j, Z.of_nat j <= 1100 /\ (Zpos (Qden q) | 10 ^ Z.of_nat j).
Proof.
  intros Hb. revert nd. induction fuel as [|fuel IH]; intros nd Hnd f q; subst q.
  - cbn [shortest_from]. split; [by apply RatFloat64_Q_of_float|].
    pose proof (bounded_spec m e Hb) as [Hc _]. subst f. unfold Q_of_float.
    destruct (Z.leb_spec 0 e) as [He|He].
    + split; [apply canonical_Qred|]. exists 0%nat. split; [lia|].
      apply (Qden_Qred_divides (Zpos m * 2 ^ e) 1).
    + split; [apply canonical_Qred|]. exists (Z.to_nat (- e)).
      rewrite Z2Nat.id by lia. split; [revert Hc; unfold fexp, emin, prec64, emax64; lia|].
      etrans; [apply Qden_Qred_divides|]. rewrite Z2Pos.id by (apply Z.pow_pos_nonneg; lia).
      exists (5 ^ (- e)). by rewrite <- Z.pow_mul_l.
  - cbn [shortest_from]. destruct (digits_candidate f (Q_of_float f) nd) as [q|] eqn:E.
    + apply digits_candidate_spec in E as (H1 & H2 & H3); [|lia].
      split; [done|]. split; [done|]. by exists 417%nat.
    + apply IH. lia.
Qed.

Lemma shortest_positive q m e : RatFloat64 q = S754_finite false m e -> (0 < q)%Q.
Proof.
  destruct q as [[|n|n] d]; unfold RatFloat64; cbn [Qnum Qden]; [done|done|].
  destruct (SFdiv_core_binary _ _ _ _ _ _) as [[q x] l].
  unfold binary_round_aux. destruct (shr_fexp _ _ q x l) as [r x'].
  destruct (shr_fexp _ _ _ x' loc_Exact) as [r' x'']. cbn.
  destruct (shr_m r'); [done| |done]. by destruct (x'' <=? _).
Qed.

(** The number that is written has the digits it was given. *)
Definition number_decimal (n : number) : Z * Z :=
  let f := default "" (nb_frac n) in
  let k := Z.of_nat (String.length f) in
  (digits_value (nb_int n) * 10 ^ k + digits_value f, k - exp_value (nb_exp n)).

Lemma ParseFloat_decimal n : ParseFloat n =
  decimal_float (nb_neg n) (fst (number_decimal n)) (- snd (number_decimal n)).
Proof. unfold ParseFloat, number_decimal. cbn [fst snd]. f_equal. lia. Qed.

Lemma scaled_shift c s : s <= 0 -> scaled (c * 10 ^ (- s)) 0 = scaled c s.
Proof.
  intros Hs. unfold scaled. cbn [Z.leb Z.compare]. change (10 ^ 0) with 1.
  destruct (Z.leb_spec 0 s); [|done]. assert (s = 0) as -> by lia. by rewrite Z.mul_1_r.
Qed.

Lemma plain_number_decimal neg c s : 0 < c ->
  let '(c', s') := number_decimal (plain_number neg c s) in scaled c' s' = scaled c s /\ 0 < c'.
Proof.
  intros Hc. unfold plain_number. destruct (Z.leb_spec s 0) as [Hs|Hs]; unfold number_decimal;
    cbn [nb_int nb_frac nb_exp default from_option id exp_value String.length].
  - assert (0 < 10 ^ - s) by (apply Z.pow_pos_nonneg; lia).
    rewrite digits_value_FormatUint by nia. change (digits_value "") with 0.
    rewrite Z.mul_1_r, Z.add_0_r. split; [by apply scaled_shift|nia].
  - assert (0 < 10 ^ s) by (apply Z.pow_pos_nonneg; lia).
    rewrite length_fixed, digits_value_fixed, digits_value_FormatUint by (try apply Z.div_pos; lia).
    rewrite Z2Nat.id, Z.sub_0_r by lia. rewrite (Z.mul_comm _ (10 ^ s)), <- Z.div_mod by lia. done.
Qed.

Lemma length_FormatUint z : 0 < z -> 1 <= Z.of_nat (String.length (FormatUint z)).
Proof. intros _. pose proof (int_ok_FormatUint z). destruct (FormatUint z); [done|]. cbn. lia. Qed.

Lemma sci_number_decimal neg c s : 0 < c ->
  let '(c', s') := number_decimal (sci_number neg c s) in scaled c' s' = scaled c s /\ 0 < c'.
Proof.
  intros Hc. unfold sci_number, number_decimal. cbn [nb_int nb_frac nb_exp exp_value].
  pose proof (length_FormatUint c Hc) as Hk. set (k := Z.of_nat (String.length (FormatUint c))) in *.
  assert ((if Ascii.eqb (if k - 1 - s <? 0 then "-"%char else "+"%char) "-"%char
    then - digits_value (FormatUint (Z.abs (k - 1 - s)))
    else digits_value (FormatUint (Z.abs (k - 1 - s)))) = k - 1 - s) as ->.
  { rewrite digits_value_FormatUint by lia. destruct (Z.ltb_spec (k - 1 - s) 0); cbn; lia. }
  destruct (Z.leb_spec k 1) as [H|H]; cbn [default from_option id].
  - assert (k = 1) as -> by lia. change (10 ^ (1 - 1)) with 1. rewrite Z.div_1_r.
    cbn [String.length]. change (digits_value "") with 0. change (10 ^ Z.of_nat 0) with 1.
    rewrite digits_value_FormatUint by lia. split; [f_equal; lia | lia].
  - assert (0 < 10 ^ (k - 1)) by (apply Z.pow_pos_nonneg; lia).
    rewrite length_fixed, digits_value_fixed, digits_value_FormatUint by (try apply Z.div_pos; lia).
    rewrite Z2Nat.id by lia. rewrite (Z.mul_comm _ (10 ^ (k - 1))), <- Z.div_mod by lia.
    split; [f_equal; lia | done].
Qed.

Definition valid_float (f : float64) : bool := valid_binary prec64 emax64 f.
Definition finite_float (f : float64) : bool := negb (IsNaN f) && negb (IsInf f).

(** Every finite float is written, and what is written is read back as the same float. *)
Theorem ParseFloat_FormatFloat f n :
  valid_float f = true -> FormatFloat f = Some n -> ParseFloat n = Some f.
Proof.
  destruct f as [sg|sg| |sg m e]; cbn [FormatFloat]; [intros _ [= <-]; done | done..|].
  intros Hb. cbn in Hb. unfold shortest_decimal.
  pose proof (shortest_from_spec 17 m e 1 Hb ltac:(lia)) as (Hq & Hcan & j & Hj & Hdiv).
  set (q := shortest_from _ _ _ _) in *.
  pose proof (shortest_positive q m e Hq) as Hpos.
  pose proof (decimal_parts_spec q j Hpos Hj Hdiv Hcan) as Hparts.
  destruct (decimal_parts q) as [c s]. destruct Hparts as [Hc Hs].
  set (b := fgt _ _ || fge _ _). intros [= <-]. rewrite ParseFloat_decimal.
  assert (forall n, nb_neg n = sg -> (let '(c', s') := number_decimal n in
    scaled c' s' = scaled c s /\ 0 < c') ->
    decimal_float (nb_neg n) (fst (number_decimal n)) (- snd (number_decimal n))
    = Some (S754_finite sg m e)) as Hn.
  { intros n Hneg. destruct (number_decimal n) as [c' s']. cbn [fst snd]. intros [Hs' Hc'].
    unfold decimal_float. destruct (Z.eqb_spec c' 0); [lia|].
    by rewrite Z.opp_involutive, Hs', Hs, Hq, Hneg. }
  destruct b; apply Hn; [done | by apply sci_number_decimal | | by apply plain_number_decimal].
  unfold plain_number. by destruct (s <=? 0).
Qed.

Lemma FormatFloat_total f : finite_float f = true -> is_Some (FormatFloat f).
Proof.
  destruct f as [|sg| |sg m e]; try done. intros _. cbn [FormatFloat].
  destruct (decimal_parts _) as [c s]. by eexists.
Qed.

Lemma wf_FormatFloat f n : FormatFloat f = Some n -> wf_number n.
Proof.
  destruct f as [sg|sg| |sg m e]; cbn [FormatFloat]; try done; [intros [= <-]; by split|].
  destruct (decimal_parts _) as [c s]. set (b := fgt _ _ || fge _ _). intros [= <-].
  assert (forall w z, all_chars is_digit (fixed w z) = true) as Hfix.
  { intros w z. induction w as [|w IH]; [done|]. cbn [fixed all_chars]. rewrite IH, andb_true_r.
    apply (digit_cases (fun d => is_digit (digit d) = true)); try done. apply digit_bounds. }
  assert (forall w z, (0 < w)%nat -> fixed w z <> "") as Hne by (by intros [|w] z ?; [lia|]).
  assert (forall z, FormatUint z <> "") as Hu.
  { intros z Hz. pose proof (int_ok_FormatUint z) as H. by rewrite Hz in H. }
  destruct b; unfold sci_number, plain_number.
  - split; cbn [nb_int nb_frac nb_exp]; [apply digits_FormatUint | apply int_ok_FormatUint| |].
    + destruct (Z.leb_spec (Z.of_nat (String.length (FormatUint c))) 1); [done|]. split; [apply Hfix|]. apply Hne. lia.
    + split_and!; [done | apply digits_FormatUint | apply Hu |]. by destruct (_ <? 0).
  - destruct (Z.leb_spec s 0); (split; cbn [nb_int nb_frac nb_exp];
      [apply digits_FormatUint | apply int_ok_FormatUint | try done | done]).
    split; [apply Hfix|]. apply Hne. lia.
Qed.
