(* ===== verification/FloatRange.v ===== *)
(** * FloatRange: prices do not overflow.

    The quotient of two [uint64] amounts and its distance to one are finite
    floats: [encoding/json], which refuses NaN and the infinities, always writes
    the prices and the fee of a pool. *)
From S2P Require Import Prelude.
From S2P Require Import Text.
From S2P Require Import Float64.
From S2P Require Import FloatText.

(** ** Rounding *)

Lemma Zdigits2_le m n : 0 <= m -> 0 <= n -> Zdigits2 m <= n <-> m < 2 ^ n.
Proof.
  intros Hm Hn. destruct (Z.eq_dec m 0) as [->|].
  { cbn. pose proof (Z.pow_pos_nonneg 2 n). lia. }
  rewrite Zdigits2_log2 by lia. rewrite Z.log2_lt_pow2 by lia. lia.
Qed.

Lemma Zdigits2_nonneg m : 0 <= Zdigits2 m.
Proof. by destruct m. Qed.

Lemma Zdigits2_bound m : 0 <= m -> m < 2 ^ Zdigits2 m.
Proof. intros Hm. apply Zdigits2_le; [done | apply Zdigits2_nonneg | lia]. Qed.

Lemma shr_1_bound r : 0 <= shr_m r -> 0 <= shr_m (shr_1 r) /\ 2 * shr_m (shr_1 r) <= shr_m r.
Proof. destruct r as [[|[p|p|]|p] x s]; cbn; lia. Qed.

(** Shifting right keeps the value of the mantissa at most what it was. *)
Lemma shr_bound r e n : 0 <= shr_m r ->
  let '(r', e') := shr r e n in
  e <= e' /\ e' = Z.max e (e + n) /\ 0 <= shr_m r' /\ shr_m r' * 2 ^ (e' - e) <= shr_m r.
Proof.
  intros Hr. destruct n as [|p|p]; cbn [shr];
    [rewrite Z.sub_diag; cbn; lia | | rewrite Z.sub_diag; cbn; lia].
  rewrite iter_pos_iter. replace (e + Zpos p - e) with (Z.of_nat (Pos.to_nat p)) by lia.
  enough (0 <= shr_m (Nat.iter (Pos.to_nat p) shr_1 r) /\
    shr_m (Nat.iter (Pos.to_nat p) shr_1 r) * 2 ^ Z.of_nat (Pos.to_nat p) <= shr_m r)
    by (split_and!; lia).
  generalize (Pos.to_nat p). clear p. intros n.
  { induction n as [|n [IH1 IH2]]; [cbn; lia|].
    change (Nat.iter (S n) shr_1 r) with (shr_1 (Nat.iter n shr_1 r)).
    destruct (shr_1_bound _ IH1) as [H1 H2]. split; [done|].
    rewrite Nat2Z.inj_succ, Z.pow_succ_r by lia.
    assert (0 < 2 ^ Z.of_nat n) by (apply Z.pow_pos_nonneg; lia).
    revert IH2 H2. generalize (shr_m (shr_1 (Nat.iter n shr_1 r))) (shr_m (Nat.iter n shr_1 r)).
    intros x y IH2 H2. nia. }
Qed.

Lemma round_nearest_even_bound m l : 0 <= m -> 0 <= round_nearest_even m l <= m + 1.
Proof. intros Hm. destruct l as [|[]]; cbn; [lia| |lia|lia]. destruct (Z.even m); lia. Qed.

Lemma shr_m_of_loc m l : shr_m (shr_record_of_loc m l) = m.
Proof. by destruct l as [|[]]. Qed.

Lemma fexp64_eq e : fexp64 e = Z.max (e - 53) (-1074).
Proof. reflexivity. Qed.

Lemma Zdigits2_shifted m n D : 0 <= m -> 0 <= n -> 0 < m -> m * 2 ^ n < 2 ^ D -> 0 <= D -> Zdigits2 m + n <= D.
Proof.
  intros Hm Hn Hpos H HD. rewrite Zdigits2_log2 by lia.
  assert (Z.log2 (m * 2 ^ n) < D) as Hl.
  { apply Z.log2_lt_pow2; [|done]. apply Z.mul_pos_pos; [done|]. apply Z.pow_pos_nonneg; lia. }
  rewrite log2_mul_pow2 in Hl by lia. lia.
Qed.

(** The exponent of a rounded number is that of its magnitude [D]. *)
Lemma shr_fexp_bound m e l D : 0 <= m -> Zdigits2 m + e <= D ->
  let '(r, e') := shr_fexp prec64 emax64 m e l in
  e <= e' <= Z.max e (fexp64 D) /\ 0 <= shr_m r /\ (0 < shr_m r -> Zdigits2 (shr_m r) + e' <= D) /\
  Zdigits2 (shr_m r + 1) + e' <= Z.max (D + 1) (e' + 1).
Proof.
  intros Hm HD. unfold shr_fexp.
  pose proof (shr_bound (shr_record_of_loc m l) e (fexp64 (Zdigits2 m + e) - e)) as H.
  rewrite shr_m_of_loc in H. specialize (H Hm).
  destruct (shr _ _ _) as [r e']. destruct H as (H1 & H2 & H3 & H4).
  pose proof (Zdigits2_bound m Hm) as Hb. pose proof (Zdigits2_nonneg m).
  assert (0 < shr_m r -> Zdigits2 (shr_m r) + e' <= D) as Hd.
  { intros Hpos. enough (Zdigits2 (shr_m r) + (e' - e) <= Zdigits2 m) by lia.
    apply Zdigits2_shifted; lia. }
  split_and!; [lia| |done|done|].
  - rewrite H2. rewrite !fexp64_eq. lia.
  - destruct (Z.eq_dec (shr_m r) 0) as [->|Hne]; [change (Zdigits2 (0 + 1)) with 1; lia|].
    specialize (Hd ltac:(lia)).
    assert (Zdigits2 (shr_m r + 1) <= Zdigits2 (shr_m r) + 1); [|lia].
    pose proof (Zdigits2_nonneg (shr_m r)). apply Zdigits2_le; [lia|lia|].
    rewrite Z.pow_add_r by lia. pose proof (Zdigits2_bound (shr_m r) H3). lia.
Qed.

Lemma Zdigits2_mono a b : 0 <= a <= b -> Zdigits2 a <= Zdigits2 b.
Proof.
  intros Hab. apply Zdigits2_le; [lia | apply Zdigits2_nonneg |].
  pose proof (Zdigits2_bound b ltac:(lia)). lia.
Qed.

(** A positive magnitude below [2^D] gives a finite float below [2^(D+1)]. *)
Definition float_below (D lo : Z) (f : float64) : Prop :=
  match f with
  | S754_zero _ => True
  | S754_finite _ m e => lo <= e /\ Zdigits2 (Zpos m) + e <= D
  | _ => False
  end.

Lemma binary_round_aux_below s m e l D :
  0 <= m -> Zdigits2 m + e <= D -> e < D -> 0 <= D <= 900 ->
  float_below (D + 1) e (binary_round_aux prec64 emax64 s m e l).
Proof.
  intros Hm HD He H0. unfold binary_round_aux.
  pose proof (shr_fexp_bound m e l D Hm HD) as H1. destruct (shr_fexp _ _ m e l) as [r e1].
  destruct H1 as (He1 & Hr & Hd & Hd1). rewrite fexp64_eq in He1.
  pose proof (round_nearest_even_bound (shr_m r) (loc_of_shr_record r) Hr) as Hround.
  set (m1 := round_nearest_even _ _) in *.
  assert (Zdigits2 m1 + e1 <= D + 1) as HD1.
  { pose proof (Zdigits2_mono m1 (shr_m r + 1) ltac:(lia)). lia. }
  pose proof (shr_fexp_bound m1 e1 loc_Exact (D + 1) ltac:(lia) HD1) as H2.
  destruct (shr_fexp _ _ m1 e1 loc_Exact) as [r2 e2]. rewrite fexp64_eq in H2.
  destruct H2 as (He2 & Hr2 & Hd2 & _).
  destruct (shr_m r2) as [|p|p]; [done| |lia].
  rewrite (proj2 (Z.leb_le _ _)) by (unfold emax64, prec64; lia).
  split; [lia | apply Hd2; lia].
Qed.

(** ** Integers, quotients, differences *)

Lemma iter_xO m d : Zpos (Pos.iter xO m d) = Zpos m * 2 ^ Zpos d.
Proof.
  induction d as [|d IH] using Pos.peano_ind; [cbn [Pos.iter]; lia|].
  rewrite Pos.iter_succ, Pos2Z.inj_xO, IH, Pos2Z.inj_succ, Z.pow_succ_r by lia. lia.
Qed.

Lemma shl_align_value m e e' : Zpos (fst (shl_align m e e')) = Zpos m * 2 ^ (e - snd (shl_align m e e'))
  /\ snd (shl_align m e e') = Z.min e e'.
Proof.
  unfold shl_align. destruct (e' - e) as [|d|d] eqn:E; cbn [fst snd].
  - rewrite Z.sub_diag, Z.mul_1_r. split; [done|lia].
  - rewrite Z.sub_diag, Z.mul_1_r. split; [done|lia].
  - replace (e - e') with (Zpos d) by lia. split; [|lia].
    apply iter_xO.
Qed.

(** An integer below [2^n], rounded. *)
Lemma binary_normalize_below z e n s :
  Z.abs z < 2 ^ n -> 0 <= n -> 0 <= n + e <= 900 -> e < n + e -> -1074 <= e ->
  float_below (n + e + 1) (Z.min e (fexp64 (Zdigits2 z + e))) (binary_normalize prec64 emax64 z e s).
Proof.
  intros Hz Hn HD He Hlo. unfold binary_normalize.
  assert (forall p sg, Z.abs z = Zpos p -> Zdigits2 z = Zdigits2 (Zpos p) ->
    float_below (n + e + 1) (Z.min e (fexp64 (Zdigits2 z + e))) (binary_round prec64 emax64 sg p e)) as Hp.
  { intros p sg Ep Ed. unfold binary_round.
    change (Zpos (digits2_pos p)) with (Zdigits2 (Zpos p)). rewrite <- Ed.
    set (x := fexp64 (Zdigits2 z + e)).
    destruct (shl_align_value p e x) as [Hv Hs]. destruct (shl_align p e x) as [mz ez]. cbn [fst snd] in *.
    subst ez. apply binary_round_aux_below; [lia| |lia|lia].
    assert (Zdigits2 z <= n) as Hdz by (rewrite Ed; apply Zdigits2_le; lia).
    rewrite Hv, Zdigits2_log2, log2_mul_pow2 by (try apply Z.mul_pos_pos; try apply Z.pow_pos_nonneg; lia).
    rewrite Ed, Zdigits2_log2 in Hdz by lia. lia. }
  destruct z as [|p|p]; [done| by apply Hp | by apply Hp].
Qed.

Lemma float_of_Z_below z : is_u64 z -> float_below 65 (-53) (float_of_Z z).
Proof.
  intros Hz. unfold float_of_Z.
  pose proof (binary_normalize_below z 0 64 false ltac:(int_lia) ltac:(lia) ltac:(lia) ltac:(lia) ltac:(lia)) as H.
  rewrite fexp64_eq in H. pose proof (Zdigits2_nonneg z).
  destruct (binary_normalize _ _ z 0 false); cbn in *; try done. lia.
Qed.

Lemma fdiv_below x y : float_below 65 (-53) x -> float_below 65 (-53) y ->
  match y with S754_zero _ => False | _ => True end -> float_below 120 (-1074) (fdiv x y).
Proof.
  intros Hx Hy Hnz. unfold fdiv, SFdiv. destruct x as [| | |sx mx ex], y as [| | |sy my ey]; try done.
  destruct Hx as [Hx1 Hx2], Hy as [Hy1 Hy2]. unfold SFdiv_core_binary.
  set (d := Zdigits2 (Zpos mx) + ex - (Zdigits2 (Zpos my) + ey)).
  set (e' := Z.min (fexp64 d) (ex - ey)).
  assert (1 <= Zdigits2 (Zpos my)) by (rewrite Zdigits2_log2 by lia; pose proof (Z.log2_nonneg (Zpos my)); lia).
  assert (1 <= Zdigits2 (Zpos mx)) by (rewrite Zdigits2_log2 by lia; pose proof (Z.log2_nonneg (Zpos mx)); lia).
  assert (d <= 118) as Hd by lia.
  assert (-1074 <= e') as He' by (subst e'; rewrite fexp64_eq; lia).
  assert (e' <= 65) as He'' by (subst e'; rewrite fexp64_eq; lia).
  set (s := ex - ey - e').
  assert (0 <= s) as Hs by lia.
  assert (match s with Zpos _ => Z.shiftl (Zpos mx) s | Z0 => Zpos mx | Zneg _ => 0 end
    = Zpos mx * 2 ^ s) as ->.
  { destruct s; [lia| |lia]. by rewrite Z.shiftl_mul_pow2. }
  pose proof (Z.div_pos (Zpos mx * 2 ^ s) (Zpos my) ltac:(apply Z.mul_nonneg_nonneg; [lia|apply Z.pow_nonneg; lia]) ltac:(lia)) as Hq0.
  assert (Zdigits2 (Zpos mx * 2 ^ s / Zpos my) <= Z.max 0 (Zdigits2 (Zpos mx) + s - Zdigits2 (Zpos my) + 1)) as Hq.
  { apply Zdigits2_le; [done|lia|]. apply Z.div_lt_upper_bound; [lia|].
    pose proof (Zdigits2_bound (Zpos mx) ltac:(lia)) as Hb.
    assert (2 ^ (Zdigits2 (Zpos my) - 1) <= Zpos my) as Hmy.
    { rewrite Zdigits2_log2 by lia. replace (Z.log2 (Zpos my) + 1 - 1) with (Z.log2 (Zpos my)) by lia.
      apply Z.log2_spec. lia. }
    assert (0 < 2 ^ s) by (apply Z.pow_pos_nonneg; lia).
    apply Z.lt_le_trans with (2 ^ (Zdigits2 (Zpos mx) + s)).
    { rewrite Z.pow_add_r by lia. apply Z.mul_lt_mono_pos_r; lia. }
    etrans; [|apply Z.mul_le_mono_nonneg_r; [apply Z.pow_nonneg; lia | exact Hmy]].
    rewrite <- Z.pow_add_r by lia. apply Z.pow_le_mono_r; lia. }
  unfold Z.div in Hq0, Hq. destruct (Z.div_eucl (Zpos mx * 2 ^ s) (Zpos my)) as [q r].
  pose proof (binary_round_aux_below (xorb sx sy) q e' (new_location (Zpos my) r) 119 Hq0) as H'.
  lapply H'; [clear H'; intros H'|lia]. lapply H'; [clear H'; intros H'|lia].
  lapply H'; [clear H'; intros H'|lia].
  destruct (binary_round_aux _ _ _ q e' _); cbn in *; try done. lia.
Qed.

Lemma fsub_below x y : float_below 120 (-1074) x -> float_below 120 (-1074) y -> finite_float (fsub x y) = true.
Proof.
  intros Hx Hy. unfold fsub, SFsub. destruct x as [sx| | |sx mx ex], y as [sy| | |sy my ey]; try done.
  { by destruct sx, sy. }
  destruct Hx as [Hx1 Hx2], Hy as [Hy1 Hy2].
  set (ez := Z.min ex ey).
  assert (forall m e, -1074 <= e -> ez <= e -> Zdigits2 (Zpos m) + e <= 120 ->
    Zpos (fst (shl_align m e ez)) < 2 ^ (120 - ez)) as Ha.
  { intros m e Hlo He HD. destruct (shl_align_value m e ez) as [Hv Hs]. rewrite Hv, Hs.
    replace (Z.min e ez) with ez by lia. pose proof (Zdigits2_bound (Zpos m) ltac:(lia)) as Hb.
    assert (0 < 2 ^ (e - ez)) by (apply Z.pow_pos_nonneg; lia).
    apply Z.lt_le_trans with (2 ^ (Zdigits2 (Zpos m) + (e - ez))).
    { rewrite Z.pow_add_r by (pose proof (Zdigits2_nonneg (Zpos m)); lia). apply Z.mul_lt_mono_pos_r; lia. }
    apply Z.pow_le_mono_r; lia. }
  assert (1 <= Zdigits2 (Zpos mx)) by (rewrite Zdigits2_log2 by lia; pose proof (Z.log2_nonneg (Zpos mx)); lia).
  pose proof (Ha mx ex ltac:(lia) ltac:(lia) ltac:(lia)) as Hax.
  pose proof (Ha my ey ltac:(lia) ltac:(lia) ltac:(lia)) as Hay.
  set (z := cond_Zopp sx _ - cond_Zopp sy _).
  assert (Z.abs z < 2 ^ (121 - ez)) as Hz.
  { replace (121 - ez) with (Z.succ (120 - ez)) by lia. rewrite Z.pow_succ_r by lia.
    subst z. destruct sx, sy; cbn [cond_Zopp]; lia. }
  pose proof (binary_normalize_below z ez (121 - ez) false Hz) as H'.
  lapply H'; [clear H'; intros H'|lia]. lapply H'; [clear H'; intros H'|lia].
  lapply H'; [clear H'; intros H'|lia]. lapply H'; [clear H'; intros H'|lia].
  by destruct (binary_normalize _ _ z ez false).
Qed.

(** A positive integer does not become zero. *)
Lemma shr_1_half r : 0 <= shr_m r -> shr_m (shr_1 r) = shr_m r / 2.
Proof. destruct r as [[|[p|p|]|p] x s]; cbn; intros; try lia; Z.to_euclidean_division_equations; lia. Qed.

Lemma shr_floor r e n : 0 <= shr_m r -> 0 <= n -> shr_m (fst (shr r e n)) = shr_m r / 2 ^ n.
Proof.
  intros Hr Hn. destruct n as [|p|p]; cbn [shr fst]; [by rewrite Z.div_1_r| |lia].
  rewrite iter_pos_iter, <- (positive_nat_Z p). generalize (Pos.to_nat p). clear p Hn. intros n.
  induction n as [|n IH]; [by rewrite Z.div_1_r|].
  change (Nat.iter (S n) shr_1 r) with (shr_1 (Nat.iter n shr_1 r)).
  assert (0 < 2 ^ Z.of_nat n) by (apply Z.pow_pos_nonneg; lia).
  rewrite shr_1_half by (rewrite IH; apply Z.div_pos; lia).
  rewrite IH, Nat2Z.inj_succ, Z.pow_succ_r, (Z.mul_comm 2), Z.div_div by lia. done.
Qed.

Lemma shr_fexp_positive m e l : 0 < m -> -1074 <= e -> 0 < shr_m (fst (shr_fexp prec64 emax64 m e l)).
Proof.
  intros Hm He. unfold shr_fexp. rewrite fexp64_eq.
  set (n := Z.max (Zdigits2 m + e - 53) (-1074) - e).
  destruct (Z.le_gt_cases n 0) as [Hn|Hn].
  - destruct n as [|p|p]; cbn [shr fst]; rewrite ?shr_m_of_loc; lia.
  - rewrite shr_floor, shr_m_of_loc by (rewrite ?shr_m_of_loc; lia).
    apply Z.div_str_pos. split; [apply Z.pow_pos_nonneg; lia|].
    pose proof (Zdigits2_log2 m Hm). etrans; [|apply (Z.log2_spec m); lia].
    apply Z.pow_le_mono_r; [lia|]. pose proof (Z.log2_nonneg m). lia.
Qed.

Lemma binary_round_aux_nonzero s m e l : 0 < m -> -1074 <= e ->
  match binary_round_aux prec64 emax64 s m e l with S754_zero _ => False | _ => True end.
Proof.
  intros Hm He. unfold binary_round_aux. pose proof (shr_fexp_positive m e l Hm He) as H1.
  pose proof (shr_fexp_bound m e l (Zdigits2 m + e) ltac:(lia) ltac:(lia)) as H2.
  destruct (shr_fexp _ _ m e l) as [r e1]. cbn [fst] in H1. destruct H2 as (He1 & _).
  assert (0 < round_nearest_even (shr_m r) (loc_of_shr_record r)) as Hr.
  { destruct (loc_of_shr_record r) as [|[]]; cbn; [done| |done|lia]. destruct (Z.even _); lia. }
  pose proof (shr_fexp_positive _ e1 loc_Exact Hr ltac:(lia)) as H3.
  destruct (shr_fexp _ _ _ e1 loc_Exact) as [r2 e2]. cbn [fst] in H3.
  destruct (shr_m r2); [lia| |done]. by destruct (e2 <=? _).
Qed.

Lemma float_of_Z_nonzero z : 0 < z <= MaxUint64 ->
  match float_of_Z z with S754_zero _ => False | _ => True end.
Proof.
  intros Hz. unfold float_of_Z, binary_normalize. destruct z as [|p|p]; [lia| |lia].
  unfold binary_round. destruct (shl_align_value p 0 (fexp64 (Zdigits2 (Zpos p) + 0))) as [_ Hs].
  change (Zpos (digits2_pos p)) with (Zdigits2 (Zpos p)).
  destruct (shl_align p 0 _) as [mz ez]. cbn [snd] in Hs. subst ez.
  apply binary_round_aux_nonzero; [lia|]. rewrite fexp64_eq. lia.
Qed.

(** ** Prices *)

Lemma quotient_below x y : is_u64 x -> is_u64 y -> y <> 0 ->
  float_below 120 (-1074) (fdiv (float_of_Z x) (float_of_Z y)).
Proof.
  intros Hx Hy Hne. apply fdiv_below; [by apply float_of_Z_below..|].
  apply float_of_Z_nonzero. int_lia.
Qed.

Lemma float_below_finite D lo f : float_below D lo f -> finite_float f = true.
Proof. by destruct f. Qed.
