(* ===== verification/GoFloat.v ===== *)
(** * GoFloat: [strconv.ParseFloat] of any text.

    Decimal and hexadecimal numbers with underscores between digits, and the names
    of the values that are no numbers. The value is exact before it is rounded; an
    exponent stops growing at five digits, as in the library. [None] is an error of
    syntax or of range. *)
From S2P Require Import Prelude.
From S2P Require Import Text.
From S2P Require Import Float64.
From S2P Require Import JsonString.
From S2P Require Import JsonNumber.
From S2P Require Import FloatText.

(** ** Names: [special] *)

Definition special (s : string) : option float64 :=
  let '(signed, neg, r) :=
    match s with
    | String c r =>
        if Ascii.eqb c "-" then (true, true, r) else if Ascii.eqb c "+" then (true, false, r) else (false, false, s)
    | EmptyString => (false, false, s)
    end in
  let w := ToLower r in
  if bool_decide (w = "inf") || bool_decide (w = "infinity") then Some (S754_infinity neg)
  else if negb signed && bool_decide (w = "nan") then Some S754_nan
  else None.

(** ** Numbers: [readFloat] *)

(** A digit of the base; the letters are digits of hexadecimal numbers only. *)
Definition base_digit (hex : bool) (c : ascii) : option Z :=
  if is_digit c then Some (Z.of_N (code c) - 48)
  else if hex then Z.of_N <$> hex_value c else None.

Record mantissa := mkMantissa {
  mt_digits : Z;
  mt_point : option Z;  (** how many digits follow the point *)
  mt_saw : bool;
}.

Fixpoint read_mantissa (hex : bool) (s : string) (m : mantissa) : mantissa * string :=
  match s with
  | EmptyString => (m, s)
  | String c r =>
      if Ascii.eqb c "_" then read_mantissa hex r m
      else if Ascii.eqb c "." then
        match mt_point m with
        | Some _ => (m, s)
        | None => read_mantissa hex r (mkMantissa (mt_digits m) (Some 0) (mt_saw m))
        end
      else
        match base_digit hex c with
        | Some d =>
            read_mantissa hex r
              (mkMantissa (mt_digits m * (if hex then 16 else 10) + d) ((fun k => k + 1) <$> mt_point m) true)
        | None => (m, s)
        end
  end.

(** The digits of an exponent to the end of the text *)
Fixpoint read_exponent (s : string) (e : Z) : option Z :=
  match s with
  | EmptyString => Some e
  | String c r =>
      if Ascii.eqb c "_" then read_exponent r e
      else if is_digit c then read_exponent r (if e <? 10000 then e * 10 + (Z.of_N (code c) - 48) else e)
      else None
  end.
Definition signed_exponent (s : string) : option Z :=
  let '(neg, r) :=
    match s with
    | String c r => if Ascii.eqb c "-" then (true, r) else if Ascii.eqb c "+" then (false, r) else (false, s)
    | EmptyString => (false, s)
    end in
  match r with
  | String c _ => if is_digit c then e ← read_exponent r 0; Some (if neg then - e else e) else None
  | EmptyString => None
  end.

(** [underscoreOK]: an underscore stands between digits, or between the prefix of a
    base and a digit. *)
Inductive seen := SeenStart | SeenDigit | SeenUnderscore | SeenOther.
Fixpoint underscores_ok (hex : bool) (s : string) (saw : seen) : bool :=
  match s with
  | EmptyString => match saw with SeenUnderscore => false | _ => true end
  | String c r =>
      if match base_digit hex c with Some _ => true | None => false end then underscores_ok hex r SeenDigit
      else if Ascii.eqb c "_" then
        match saw with SeenDigit => underscores_ok hex r SeenUnderscore | _ => false end
      else match saw with SeenUnderscore => false | _ => underscores_ok hex r SeenOther end
  end.

(** [mant * 2^ex] *)
Definition binary_float (neg : bool) (mant ex : Z) : option float64 :=
  if mant =? 0 then Some (S754_zero neg)
  else match RatFloat64 (if 0 <=? ex then mant * 2 ^ ex # 1 else mant # Z.to_pos (2 ^ (- ex)))%Q with
       | S754_finite _ m e => Some (S754_finite neg m e)
       | S754_zero _ => Some (S754_zero neg)
       | _ => None
       end.

(** The prefix of a hexadecimal number must be followed by something. *)
Definition strip_base (s : string) : option string :=
  match s with
  | String a (String b (String _ _ as r)) =>
      if Ascii.eqb a "0" && Ascii.eqb (lower_char b) "x" then Some r else None
  | _ => None
  end.

Definition read_unsigned (neg : bool) (s : string) : option float64 :=
  let '(hex, body) := match strip_base s with Some r => (true, r) | None => (false, s) end in
  let '(m, r) := read_mantissa hex body (mkMantissa 0 None false) in
  if negb (mt_saw m) || negb (underscores_ok hex body (if hex then SeenDigit else SeenStart)) then None
  else
    let places := default 0 (mt_point m) in
    match r with
    | EmptyString => if hex then None else decimal_float neg (mt_digits m) (- places)
    | String c r' =>
        if Ascii.eqb (lower_char c) (if hex then "p" else "e") then
          e ← signed_exponent r';
          if hex then binary_float neg (mt_digits m) (e - 4 * places)
          else decimal_float neg (mt_digits m) (e - places)
        else None
    end.

Definition strconv_ParseFloat (s : string) : option float64 :=
  match special s with
  | Some f => Some f
  | None =>
      match s with
      | String c r =>
          if Ascii.eqb c "-" then read_unsigned true r
          else if Ascii.eqb c "+" then read_unsigned false r
          else read_unsigned false s
      | EmptyString => None
      end
  end.

(** What it takes and what it refuses *)
Example parsed_floats :
  map strconv_ParseFloat ["0.5"; ".5"; "+5e-1"; "0x1p-1"; "0X.8P0"; "5_0e-0_2"; "-0"; "NaN"; "+Infinity"; "1e-400"] =
  let half := RatFloat64 (1 # 2) in
  map Some [half; half; half; half; half; half; S754_zero true; S754_nan; S754_infinity false; S754_zero false].
Proof. vm_compute. reflexivity. Qed.
Example refused_floats :
  map strconv_ParseFloat [""; "."; "-"; "+nan"; "1__0"; "_1"; "1_"; "0x"; "0x1"; "1e"; "1e_2"; "1.2.3"; "1e400"; "infin"; "0b1"] =
  repeat None 15.
Proof. vm_compute. reflexivity. Qed.
