(* ===== verification/Json.v ===== *)
(** * Json: the texts of [encoding/json].

    A [json] is a value as the decoder sees it: the strings keep the text between
    their quotation marks, the numbers the text of their parts, the objects the
    order of their members. [render] writes the compact form of [json.Marshal],
    [parse] reads any text that [json.Unmarshal] accepts (its limit on the
    nesting, 10000 levels, aside). *)
From S2P Require Import Prelude.
From S2P Require Import Text.
From S2P Require Import KeyValue.
From S2P Require Import JsonString.
From S2P Require Import JsonNumber.

Inductive json :=
| JNull
| JBool (b : bool)
| JNum (n : number)
| JStr (raw : string)
| JArr (l : list json)
| JObj (l : list (string * json)).

(** ** Writing *)

Definition quoted (raw : string) : string := String dquote (raw +:+ String dquote "").

(** [x1,x2,...,xn] and the closing bracket *)
Fixpoint render_with {A} (f : A -> string) (close : string) (l : list A) : string :=
  match l with
  | [] => close
  | [x] => f x +:+ close
  | x :: l' => f x +:+ String "," (render_with f close l')
  end.

(** a member: its key and its value *)
Definition member_with (f : json -> string) (m : string * json) : string :=
  quoted m.1 +:+ String ":" (f m.2).

Fixpoint render (j : json) : string :=
  match j with
  | JNull => "null"
  | JBool true => "true"
  | JBool false => "false"
  | JNum n => number_text n
  | JStr raw => quoted raw
  | JArr l => String "[" (render_with render "]" l)
  | JObj l => String "{" (render_with (member_with render) "}" l)
  end.

(** ** Reading *)

Definition is_space (c : ascii) : bool :=
  ((code c =? 32) || (code c =? 9) || (code c =? 10) || (code c =? 13))%N.
Definition skip (s : string) : string := trim_left is_space s.

(** White space and the character [c]. *)
Definition expect_skip (c : ascii) (s : string) : option string :=
  match skip s with
  | String d r => if Ascii.eqb d c then Some r else None
  | EmptyString => None
  end.

Definition literal (s : string) : option (json * string) :=
  match strip_prefix "null" s, strip_prefix "true" s, strip_prefix "false" s with
  | Some r, _, _ => Some (JNull, r)
  | None, Some r, _ => Some (JBool true, r)
  | None, None, Some r => Some (JBool false, r)
  | None, None, None => None
  end.

Fixpoint value (fuel : nat) (s : string) : option (json * string) :=
  match fuel with
  | O => None
  | S fuel' =>
      match skip s with
      | EmptyString => None
      | String c r =>
          if Ascii.eqb c "{" then
            match expect_skip "}" r with
            | Some r' => Some (JObj [], r')
            | None => '(l, r') ← members fuel' r; Some (JObj l, r')
            end
          else if Ascii.eqb c "[" then
            match expect_skip "]" r with
            | Some r' => Some (JArr [], r')
            | None => '(l, r') ← elements fuel' r; Some (JArr l, r')
            end
          else if Ascii.eqb c dquote then '(raw, r') ← scan_string r; Some (JStr raw, r')
          else if is_digit c || Ascii.eqb c "-" then
            '(n, r') ← scan_number (String c r); Some (JNum n, r')
          else literal (String c r)
      end
  end
with elements (fuel : nat) (s : string) : option (list json * string) :=
  match fuel with
  | O => None
  | S fuel' =>
      '(x, r) ← value fuel' s;
      match expect_skip "," r with
      | Some r' => '(l, r2) ← elements fuel' r'; Some (x :: l, r2)
      | None => r' ← expect_skip "]" r; Some ([x], r')
      end
  end
with members (fuel : nat) (s : string) : option (list (string * json) * string) :=
  match fuel with
  | O => None
  | S fuel' =>
      s1 ← expect_skip dquote s;
      '(k, s2) ← scan_string s1;
      s3 ← expect_skip ":" s2;
      '(x, r) ← value fuel' s3;
      match expect_skip "," r with
      | Some r' => '(l, r2) ← members fuel' r'; Some ((k, x) :: l, r2)
      | None => r' ← expect_skip "}" r; Some ([(k, x)], r')
      end
  end.

(** Every bracket that is opened takes two units of fuel and a character. *)
Definition parse (s : string) : option json :=
  '(j, r) ← value (2 * String.length s + 2)%nat s;
  if String.eqb (skip r) "" then Some j else None.

Definition sample_text : string :=
  String "{" (quoted "a" +:+ " : [1, true ,null] , " +:+ quoted "b" +:+ ":" +:+ quoted "x" +:+ "} ").
Example parse_sample : parse sample_text =
  Some (JObj [("a", JArr [JNum (of_uint 1); JBool true; JNull]); ("b", JStr "x")]).
Proof. reflexivity. Qed.
Example parse_trailing_comma : parse "[1,]" = None.
Proof. reflexivity. Qed.

(** ** What was written is parsed *)

Section JsonInd.
Context (P : json -> Prop)
  (Hnull : P JNull) (Hbool : forall b, P (JBool b)) (Hnum : forall n, P (JNum n))
  (Hstr : forall raw, P (JStr raw))
  (Harr : forall l, Forall P l -> P (JArr l))
  (Hobj : forall l, Forall (fun m => P m.2) l -> P (JObj l)).

Fixpoint json_ind' (j : json) : P j :=
  match j with
  | JNull => Hnull
  | JBool b => Hbool b
  | JNum n => Hnum n
  | JStr raw => Hstr raw
  | JArr l => Harr l ((fix go l := match l return Forall P l with
      | [] => Forall_nil_2 _ | x :: l' => Forall_cons_2 _ _ _ (json_ind' x) (go l') end) l)
  | JObj l => Hobj l ((fix go l := match l return Forall (fun m => P m.2) l with
      | [] => Forall_nil_2 _ | m :: l' => Forall_cons_2 _ m _ (json_ind' m.2) (go l') end) l)
  end.
End JsonInd.

(** A text that the scanner accepts between quotation marks. *)
Definition raw_ok (raw : string) : Prop :=
  forall r, scan_string (raw +:+ String dquote r) = Some (raw, r).

Lemma raw_ok_quote s : raw_ok (quote s).
Proof. intros r. apply scan_quote. Qed.

Inductive wf_json : json -> Prop :=
| wf_null : wf_json JNull
| wf_bool b : wf_json (JBool b)
| wf_num n : wf_number n -> wf_json (JNum n)
| wf_str raw : raw_ok raw -> wf_json (JStr raw)
| wf_arr l : Forall wf_json l -> wf_json (JArr l)
| wf_obj l : Forall (fun m => raw_ok m.1 /\ wf_json m.2) l -> wf_json (JObj l).

(** The fuel that a value takes. *)
Fixpoint need (j : json) : nat :=
  match j with
  | JArr l => S (foldr (fun x n => S (need x + n)) 0 l)
  | JObj l => S (foldr (fun m n => S (need m.2 + n)) 0 l)
  | _ => 1
  end%nat.

Lemma length_render_with {A} (f : A -> string) close l : (1 <= String.length close)%nat ->
  (foldr (fun x n => 2 + 2 * String.length (f x) + n) 0 l
   <= 2 * String.length (render_with f close l))%nat.
Proof.
  intros Hc. induction l as [|x [|y l] IH]; [cbn; lia| |].
  - cbn [foldr render_with]. rewrite length_string_app. lia.
  - change (render_with f close (x :: y :: l)) with (f x +:+ String "," (render_with f close (y :: l))).
    rewrite length_string_app. cbn [foldr String.length] in *. lia.
Qed.

Lemma foldr_le {A} (f g : A -> nat) l : Forall (fun x => f x <= g x)%nat l ->
  (foldr (fun x n => f x + n) 0 l <= foldr (fun x n => g x + n) 0 l)%nat.
Proof. induction 1; cbn; lia. Qed.

Lemma number_text_length n : wf_number n -> (1 <= String.length (number_text n))%nat.
Proof. intros (c & r & -> & _)%number_text_nonempty. cbn. lia. Qed.

Lemma need_render j : wf_json j -> (need j <= 2 * String.length (render j))%nat.
Proof.
  induction j as [|b|n|raw|l IH|l IH] using json_ind'; intros Hwf; inversion Hwf; subst; cbn [need render].
  - cbn. lia.
  - destruct b; cbn; lia.
  - pose proof (number_text_length n ltac:(done)). lia.
  - cbn. lia.
  - cbn [String.length]. pose proof (length_render_with render "]" l ltac:(done)) as Hl.
    enough (foldr (fun x n => S (need x + n)) 0 l
      <= foldr (fun x n => 2 + 2 * String.length (render x) + n) 0 l)%nat by lia.
    apply (foldr_le (fun x => S (need x)) (fun x => 2 + 2 * String.length (render x))%nat).
    rewrite Forall_forall in IH, H0 |- *. intros x Hx. specialize (IH x Hx (H0 x Hx)). lia.
  - cbn [String.length].
    pose proof (length_render_with (member_with render) "}" l
      ltac:(done)) as Hl.
    enough (foldr (fun (m : string * json) n => S (need m.2 + n)) 0 l
      <= foldr (fun m n => 2 + 2 * String.length (member_with render m) + n) 0 l)%nat
      by lia.
    apply (foldr_le (fun m => S (need m.2))
      (fun m => 2 + 2 * String.length (member_with render m))%nat).
    rewrite Forall_forall in IH, H0 |- *. intros m Hm. destruct (H0 m Hm) as [_ Hv].
    specialize (IH m Hm Hv). unfold member_with. rewrite length_string_app. cbn [String.length]. lia.
Qed.

(** The compact form has no white space to skip. *)
Lemma skip_char c r : is_space c = false -> skip (String c r) = String c r.
Proof. intros H. unfold skip. cbn. by rewrite H. Qed.

Lemma expect_skip_eq c r : is_space c = false -> expect_skip c (String c r) = Some r.
Proof. intros H. unfold expect_skip. by rewrite skip_char, Ascii.eqb_refl. Qed.
Lemma expect_skip_ne c d r : is_space d = false -> Ascii.eqb d c = false ->
  expect_skip c (String d r) = None.
Proof. intros H Hne. unfold expect_skip. by rewrite skip_char, Hne. Qed.

(** The first character of a value: not a space, and not a bracket that closes. *)
Definition starts_value (c : ascii) : bool :=
  negb (is_space c) && negb (Ascii.eqb c "}") && negb (Ascii.eqb c "]").

Lemma number_start c : is_digit c || Ascii.eqb c "-" = true ->
  starts_value c = true /\ Ascii.eqb c "{" = false /\ Ascii.eqb c "[" = false /\ Ascii.eqb c dquote = false.
Proof. by destruct c as [[] [] [] [] [] [] [] []]. Qed.

Lemma render_start j : wf_json j -> exists c r, render j = String c r /\ starts_value c = true.
Proof.
  intros []; cbn [render]; try (eexists _, _; split; [reflexivity|done]).
  - destruct b; eexists _, _; split; reflexivity || done.
  - destruct (number_text_nonempty n H) as (c & r & -> & Hc). exists c, r.
    split; [done|]. by apply number_start.
Qed.

Lemma starts_value_ne c : starts_value c = true ->
  is_space c = false /\ Ascii.eqb c "}" = false /\ Ascii.eqb c "]" = false.
Proof.
  unfold starts_value. intros [[H1%negb_true_iff H2%negb_true_iff]%andb_prop H3%negb_true_iff]%andb_prop.
  done.
Qed.

(** What [value] does with a rendered value, for enough fuel. *)
Definition reads (j : json) : Prop :=
  forall r fuel, (need j <= fuel)%nat -> ends_number r = true ->
  value fuel (render j +:+ r) = Some (j, r).

Lemma elements_render l r fuel : l <> [] ->
  Forall wf_json l -> Forall reads l ->
  (foldr (fun x n => S (need x + n)) 0 l <= fuel)%nat ->
  elements fuel (render_with render "]" l +:+ r) = Some (l, r).
Proof.
  revert r fuel. induction l as [|x l IH]; intros r fuel Hne Hwf Hl Hf; [done|].
  inversion Hwf; inversion Hl; subst. cbn [foldr] in Hf. destruct fuel as [|fuel]; [lia|].
  destruct l as [|y l]; cbn [render_with elements].
  - rewrite append_assoc, app_String, app_Empty, H5 by (done || lia).
    cbn [mbind option_bind]. by rewrite expect_skip_ne, expect_skip_eq.
  - rewrite append_assoc, app_String, H5 by (done || lia). cbn [mbind option_bind].
    rewrite expect_skip_eq by done. by rewrite IH by (done || lia).
Qed.

Lemma members_render l r fuel : l <> [] ->
  Forall (fun m => raw_ok m.1 /\ wf_json m.2) l -> Forall (fun m => reads m.2) l ->
  (foldr (fun (m : string * json) n => S (need m.2 + n)) 0 l <= fuel)%nat ->
  members fuel (render_with (member_with render) "}" l +:+ r) = Some (l, r).
Proof.
  revert r fuel. induction l as [|[k x] l IH]; intros r fuel Hne Hwf Hl Hf; [done|].
  inversion Hwf as [|? ? [Hk Hx] Hwf']; inversion Hl as [|? ? Hr Hl']; subst.
  cbn [foldr snd fst] in *. destruct fuel as [|fuel]; [lia|].
  assert (forall t, member_with render (k, x) +:+ t =
    String dquote (k +:+ String dquote (String ":" (render x +:+ t)))) as Hm.
  { intros t. unfold member_with, quoted. cbn [fst snd].
    by rewrite !app_String, !append_assoc, app_String, app_Empty, app_String. }
  destruct l as [|y l]; cbn [render_with]; rewrite append_assoc, Hm; cbn [members];
    rewrite expect_skip_eq by done; cbn [mbind option_bind]; rewrite Hk;
    cbn [mbind option_bind]; rewrite expect_skip_eq by done; cbn [mbind option_bind];
    rewrite ?app_String, ?app_Empty, Hr by (done || lia); cbn [mbind option_bind].
  - by rewrite expect_skip_ne, expect_skip_eq.
  - rewrite expect_skip_eq by done. by rewrite IH by (done || lia).
Qed.

Lemma value_render j : wf_json j -> reads j.
Proof.
  induction j as [|b|n|raw|l IH|l IH] using json_ind'; intros Hwf r fuel Hf Hr;
    (destruct fuel as [|fuel]; [cbn in Hf; lia|]); inversion Hwf; subst; cbn [need] in Hf.
  - done.
  - by destruct b.
  - cbn [value render]. pose proof (number_text_nonempty n ltac:(done)) as (c & t & E & Hc).
    pose proof (number_start c Hc) as (Hs & H1 & H2 & H3). apply starts_value_ne in Hs as (Hsp & _ & _).
    pose proof (scan_number_text n r ltac:(done) Hr) as Hn. rewrite E, app_String in Hn.
    rewrite E, app_String, skip_char by done. by rewrite H1, H2, H3, Hc, Hn.
  - cbn [value render]. unfold quoted. rewrite app_String, append_assoc, app_String, app_Empty.
    rewrite skip_char by done. cbn [Ascii.eqb Bool.eqb dquote]. by rewrite H0.
  - cbn [value render]. rewrite app_String, skip_char by done. cbn [Ascii.eqb Bool.eqb].
    destruct l as [|x l]; [by cbn [render_with]; rewrite app_String, expect_skip_eq|].
    assert (expect_skip "]" (render_with render "]" (x :: l) +:+ r) = None) as ->.
    { inversion H0; subst. destruct (render_start x) as (c & t & E & Hc); [done|].
      apply starts_value_ne in Hc as (Hsp & _ & Hc).
      destruct l; cbn [render_with]; rewrite E, !app_String; by apply expect_skip_ne. }
    rewrite elements_render; [done|done|done| |cbn [foldr] in *; lia].
    rewrite Forall_forall in *. eauto.
  - cbn [value render]. rewrite app_String, skip_char by done. cbn [Ascii.eqb Bool.eqb].
    destruct l as [|x l]; [by cbn [render_with]; rewrite app_String, expect_skip_eq|].
    assert (expect_skip "}" (render_with (member_with render) "}" (x :: l) +:+ r)
      = None) as ->.
    { destruct l; cbn [render_with]; unfold member_with, quoted; rewrite !app_String; by apply expect_skip_ne. }
    rewrite members_render; [done|done|done| |cbn [foldr] in *; lia].
    rewrite Forall_forall in *. intros m Hm. apply IH; [done|]. by apply H0.
Qed.

(** The rendered text may be followed by white space. *)
Theorem parse_render_space j r :
  wf_json j -> ends_number r = true -> skip r = "" -> parse (render j +:+ r) = Some j.
Proof.
  intros Hwf Hr Hs. unfold parse. pose proof (need_render j Hwf).
  rewrite (value_render j Hwf r) by (rewrite ?length_string_app; done || lia).
  cbn [mbind option_bind]. by rewrite Hs.
Qed.

Corollary parse_render j : wf_json j -> parse (render j) = Some j.
Proof.
  intros Hwf. rewrite <- (parse_render_space j "" Hwf eq_refl eq_refl). f_equal.
  generalize (render j). intros s. induction s as [|c s IH]; [done|]. by rewrite app_String, <- IH.
Qed.
