(* ===== verification/JsonRecord.v ===== *)
(** * JsonRecord: structs of [encoding/json].

    A [kind] says how the values of a Go type are written and read, and that what
    is written is read back. A struct is a list of [fields]: their names, their
    kinds, and which of them [omitempty] leaves out. One theorem, [decode_encode],
    gives the round trip of every struct. *)
From S2P Require Import Prelude.
From S2P Require Import Text.
From S2P Require Import Float64.
From S2P Require Import KeyValue.
From S2P Require Import JsonString.
From S2P Require Import JsonNumber.
From S2P Require Import Base64.
From S2P Require Import Rfc3339.
From S2P Require Import FloatText.
From S2P Require Import Json.

#[local] Obligation Tactic := idtac.

Record kind (T : Type) := Kind {
  (** [Marshal]; [None] is an error *)
  enc : T -> option json;
  (** [Unmarshal] into a variable *)
  dec : json -> T -> option T;
  zero_value : T;
  (** what [omitempty] leaves out *)
  is_empty : T -> bool;
  (** the values that survive *)
  good : T -> Prop;
  (** the variables that decoding overwrites altogether *)
  into : T -> Prop;
  enc_wf : forall t j, good t -> enc t = Some j -> wf_json j;
  dec_enc : forall t j t0, good t -> enc t = Some j -> into t0 -> dec j t0 = Some t;
  empty_zero : forall t, good t -> is_empty t = true -> t = zero_value;
  into_zero : into zero_value;
}.
Arguments enc {T}. Arguments dec {T}. Arguments zero_value {T}. Arguments is_empty {T}.
Arguments good {T}. Arguments into {T}. Arguments enc_wf {T}. Arguments dec_enc {T}.
Arguments empty_zero {T}. Arguments into_zero {T}. Arguments Kind {T}.

Definition always {T} (_ : T) : Prop := True.
Definition never_empty {T} (_ : T) : bool := false.

(** [null] leaves a variable as it is, except a slice, a map or a pointer. *)
Definition unless_null {T} (f : json -> option T) (j : json) (t0 : T) : option T :=
  match j with JNull => Some t0 | _ => f j end.

(** ** Scalars *)

Definition read_string (j : json) : option string :=
  match j with JStr raw => unquote raw | _ => None end.
#[program] Definition string_kind : kind string := {|
  enc s := Some (JStr (quote s));
  dec := unless_null read_string;
  zero_value := "";
  is_empty s := String.eqb s "";
  good := Utf8;
  into := always;
|}.
Next Obligation. intros t j _ [= <-]. constructor. apply raw_ok_quote. Qed.
Next Obligation. intros t j t0 Ht [= <-] _. by apply unquote_quote. Qed.
Next Obligation. intros t _ H. by apply String.eqb_eq. Qed.
Next Obligation. done. Qed.

Definition read_uint (max : Z) (j : json) : option Z :=
  match j with
  | JNum n => z ← number_uint n; if z <=? max then Some z else None
  | _ => None
  end.
(** [uint64] and [uint32] *)
#[program] Definition uint_kind (max : Z) (Hmax : 0 <= max <= MaxUint64) : kind Z := {|
  enc z := Some (JNum (of_uint z));
  dec := unless_null (read_uint max);
  zero_value := 0;
  is_empty z := z =? 0;
  good z := 0 <= z <= max;
  into := always;
|}.
Next Obligation. intros max _ t j _ [= <-]. constructor. apply wf_int_number. Qed.
Next Obligation.
  intros max Hmax t j t0 Ht [= <-] _. cbn in Ht. cbn [unless_null read_uint].
  rewrite number_uint_of_uint by int_lia. cbn [mbind option_bind].
  by rewrite (proj2 (Z.leb_le _ _)) by lia.
Qed.
Next Obligation. intros max _ t _ H. by apply Z.eqb_eq. Qed.
Next Obligation. done. Qed.

Definition MaxUint32 : Z := 4294967295.
Definition uint64_kind : kind Z := uint_kind MaxUint64 ltac:(unfold MaxUint64; lia).
Definition uint32_kind : kind Z := uint_kind MaxUint32 ltac:(unfold MaxUint32, MaxUint64; lia).

Definition read_int (j : json) : option Z :=
  match j with JNum n => number_int n | _ => None end.
(** [int64], [int] and [time.Duration] *)
#[program] Definition int64_kind : kind Z := {|
  enc z := Some (JNum (of_int z));
  dec := unless_null read_int;
  zero_value := 0;
  is_empty z := z =? 0;
  good := is_i64;
  into := always;
|}.
Next Obligation. intros t j _ [= <-]. constructor. apply wf_int_number. Qed.
Next Obligation. intros t j t0 Ht [= <-] _. by apply number_int_of_int. Qed.
Next Obligation. intros t _ H. by apply Z.eqb_eq. Qed.
Next Obligation. done. Qed.

Definition read_bool (j : json) : option bool := match j with JBool b => Some b | _ => None end.
#[program] Definition bool_kind : kind bool := {|
  enc b := Some (JBool b);
  dec := unless_null read_bool;
  zero_value := false;
  is_empty := negb;
  good := always;
  into := always;
|}.
Next Obligation. intros t j _ [= <-]. constructor. Qed.
Next Obligation. by intros t j t0 _ [= <-] _. Qed.
Next Obligation. by intros [] _. Qed.
Next Obligation. done. Qed.

Definition read_float (j : json) : option float64 :=
  match j with JNum n => ParseFloat n | _ => None end.
(** [float64]: a negative zero counts as empty. *)
Definition float_empty (f : float64) : bool :=
  match f with S754_zero _ => true | _ => false end.
#[program] Definition float_kind : kind float64 := {|
  enc f := JNum <$> FormatFloat f;
  dec := unless_null read_float;
  zero_value := fzero;
  is_empty := float_empty;
  good f := valid_float f = true /\ f <> S754_zero true;
  into := always;
|}.
Next Obligation.
  intros t j _ (n & H & ->)%fmap_Some. constructor. by apply (wf_FormatFloat t).
Qed.
Next Obligation.
  intros t j t0 [Ht _] (n & H & ->)%fmap_Some _. by apply ParseFloat_FormatFloat.
Qed.
Next Obligation. by intros [[]| | |] [_ H]. Qed.
Next Obligation. done. Qed.

(** [time.Time] is a struct and never empty; the text is read as it stands. *)
Definition read_time (j : json) : option gotime :=
  match j with JStr raw => ParseTime raw | _ => None end.
Lemma raw_ok_plain s : all_chars plain s = true -> raw_ok s.
Proof.
  intros H r. induction s as [|c s IH]; [done|]. cbn [all_chars] in H.
  apply andb_prop in H as [Hc Hs]. rewrite app_String. apply scan_plain; auto.
Qed.
Lemma unquote_plain s : all_chars (fun c => plain c && ascii_byte c) s = true -> unquote s = Some s.
Proof.
  induction s as [|c s IH]; [done|]. cbn [all_chars]. intros [[Hp Hc]%andb_prop Hs]%andb_prop.
  unfold plain in Hp. repeat (apply andb_prop in Hp as [Hp ?%negb_true_iff]).
  apply negb_true_iff in Hp. cbn [unquote]. by rewrite Hp, H, H0, Hc, IH.
Qed.
Lemma all_chars_app p a b : all_chars p (a +:+ b) = all_chars p a && all_chars p b.
Proof.
  induction a as [|c a IH]; [done|]. rewrite app_String. cbn [all_chars].
  by rewrite IH, andb_assoc.
Qed.
Lemma all_chars_fixed p w z : (forall n, 0 <= n < 10 -> p (digit n) = true) ->
  all_chars p (fixed w z) = true.
Proof.
  intros Hp. induction w as [|w IH]; [done|]. cbn [fixed all_chars].
  rewrite IH, andb_true_r. apply Hp, digit_bounds.
Qed.
Lemma all_chars_trim_right p q s : all_chars p s = true -> all_chars p (trim_right q s) = true.
Proof.
  induction s as [|c s IH]; [done|]. cbn [all_chars]. intros [Hc Hs]%andb_prop.
  rewrite trim_right_cons. specialize (IH Hs). destruct (trim_right q s) as [|d t].
  - destruct (q c); [done|]. cbn. by rewrite Hc.
  - cbn [all_chars] in *. by rewrite Hc, IH.
Qed.
Lemma plain_FormatTime t s : FormatTime t = Some s -> all_chars plain s = true.
Proof.
  assert (forall w z, all_chars plain (fixed w z) = true) as Hf.
  { intros w z. apply all_chars_fixed. intros n Hn.
    by apply (digit_cases (fun n => plain (digit n) = true)). }
  unfold FormatTime. destruct (date_of_days _) as [[y m] d].
  destruct (_ && _); [|done]. intros <-%(inj Some).
  assert (forall ns, all_chars plain (fraction ns) = true) as Hfr.
  { intros ns. unfold fraction. destruct (ns =? 0); [done|]. cbn [all_chars].
    by rewrite all_chars_trim_right. }
  repeat (rewrite !all_chars_app || cbn [all_chars] || rewrite Hf || rewrite Hfr). done.
Qed.
#[program] Definition time_kind : kind gotime := {|
  enc t := JStr <$> FormatTime t;
  dec := unless_null read_time;
  zero_value := 0;
  is_empty := never_empty;
  good := always;
  into := always;
|}.
Next Obligation.
  intros t j _ (s & H & ->)%fmap_Some. constructor. by eapply raw_ok_plain, plain_FormatTime.
Qed.
Next Obligation. intros t j t0 _ (s & H & ->)%fmap_Some _. by apply ParseTime_FormatTime. Qed.
Next Obligation. done. Qed.
Next Obligation. done. Qed.

(** [[]byte]: base64, and [null] for nil; an array of small numbers is accepted.
    No byte slice of the program has [omitempty]. *)
Fixpoint read_byte_array (l : list json) (old : list byte) : option (list byte) :=
  match l with
  | [] => Some []
  | j :: l' =>
      z ← unless_null (read_uint 255) j (Z.of_N (Byte.to_N (hd Byte.x00 old)));
      r ← read_byte_array l' (tl old);
      Some (byte_of (Z.to_N z) :: r)
  end.
Definition read_bytes (j : json) (old : slice) : option slice :=
  match j with
  | JNull => Some None
  | JStr raw => s ← unquote raw; l ← b64_decode s; Some (Some l)
  | JArr l => l' ← read_byte_array l (contents old); Some (Some l')
  | _ => None
  end.
Lemma b64_char_all l : all_chars (fun c => plain c && ascii_byte c) (b64_encode l) = true.
Proof.
  assert (forall n, (plain (sextet_char n) && ascii_byte (sextet_char n)) = true) as Hs.
  { intros n. destruct (decide (n < 64)%N) as [Hn|Hn].
    - pose proof (sextet_sextet_char n Hn) as H. revert H.
      destruct (sextet_char n) as [[] [] [] [] [] [] [] []]; try done; discriminate.
    - unfold sextet_char. rewrite !(proj2 (N.ltb_ge _ _)) by lia.
      by rewrite (proj2 (N.eqb_neq _ _)) by lia. }
  induction l as [l IH] using (induction_ltof1 _ (@length byte)). unfold ltof in IH.
  destruct l as [|x [|y [|z l]]]; cbn [b64_encode all_chars]; rewrite ?Hs; [done..|].
  apply IH. cbn. lia.
Qed.
Definition bytes_json (b : slice) : json :=
  match b with None => JNull | Some l => JStr (b64_encode l) end.
#[program] Definition bytes_kind : kind slice := {|
  enc b := Some (bytes_json b);
  dec := read_bytes;
  zero_value := None;
  is_empty := never_empty;
  good := always;
  into := always;
|}.
Next Obligation.
  intros [l|] j _ [= <-]; constructor. apply raw_ok_plain.
  pose proof (b64_char_all l) as H. induction (b64_encode l) as [|c s IH]; [done|].
  cbn [all_chars] in *. rewrite !andb_true_iff in H. destruct H as [[-> _] H]. by apply IH.
Qed.
Next Obligation.
  intros [l|] j t0 _ [= <-] _; [|done]. cbn. rewrite unquote_plain by apply b64_char_all.
  cbn. by rewrite b64_decode_encode.
Qed.
Next Obligation. done. Qed.
Next Obligation. done. Qed.

(** ** Fields *)

(** The fields of a struct, whose values are a nested tuple of type [R]. *)
Inductive fields : Type -> Type :=
| FNil : fields unit
| FCons {T R} (name : string) (omitempty : bool) (k : kind T) (rest : fields R) : fields (T * R).

Fixpoint encode {R} (fs : fields R) : R -> option (list (string * json)) :=
  match fs in fields R return R -> option (list (string * json)) with
  | FNil => fun _ => Some []
  | FCons name omitempty k rest => fun r =>
      if omitempty && is_empty k r.1 then encode rest r.2
      else j ← enc k r.1; ms ← encode rest r.2; Some ((quote name, j) :: ms)
  end.

(** The name under which keys are compared when no field has exactly the key:
    letters without case, and the two other characters that fold to letters. *)
Definition upper (c : ascii) : ascii := if between 97 122 c then char (code c - 32) else c.
Fixpoint foldName (s : string) : string :=
  match s with
  | EmptyString => ""
  | String a s1 =>
      match s1 with
      | String b s2 =>
          if ((code a =? 197) && (code b =? 191))%N then String "S" (foldName s2)
          else match s2 with
          | String c s3 =>
              if ((code a =? 226) && (code b =? 132) && (code c =? 170))%N
              then String "K" (foldName s3) else String (upper a) (foldName s1)
          | EmptyString => String (upper a) (foldName s1)
          end
      | EmptyString => String (upper a) (foldName s1)
      end
  end.

Fixpoint has (p : string -> bool) {R} (fs : fields R) : bool :=
  match fs with
  | FNil => false
  | FCons name _ _ rest => p name || has p rest
  end.

(** Decode into the first field whose name satisfies [p]. *)
Fixpoint set_first (p : string -> bool) (j : json) {R} (fs : fields R) : R -> option R :=
  match fs in fields R return R -> option R with
  | FNil => fun r => Some r
  | FCons name _ k rest => fun r =>
      if p name then t ← dec k j r.1; Some (t, r.2)
      else r' ← set_first p j rest r.2; Some (r.1, r')
  end.

Definition assign {R} (fs : fields R) (key : string) (j : json) (r : R) : option R :=
  let exact := String.eqb key in
  let fold := fun name => String.eqb (foldName key) (foldName name) in
  if has exact fs then set_first exact j fs r
  else if has fold fs then set_first fold j fs r
  else Some r.

(** The members in their order; the last one of a key wins. *)
Fixpoint decode {R} (fs : fields R) (ms : list (string * json)) (r : R) : option R :=
  match ms with
  | [] => Some r
  | (raw, j) :: ms' =>
      key ← unquote raw;
      r' ← assign fs key j r;
      decode fs ms' r'
  end.

(** ** The round trip of a struct *)

Fixpoint good_fields {R} (fs : fields R) : R -> Prop :=
  match fs in fields R return R -> Prop with
  | FNil => fun _ => True
  | FCons _ _ k rest => fun r => good k r.1 /\ good_fields rest r.2
  end.

(** A variable to decode into: the fields that may be left out hold their zero. *)
Fixpoint into_fields {R} (fs : fields R) : R -> Prop :=
  match fs in fields R return R -> Prop with
  | FNil => fun _ => True
  | FCons _ omitempty k rest => fun r =>
      (omitempty = true -> r.1 = zero_value k) /\ into k r.1 /\ into_fields rest r.2
  end.

Fixpoint zero_fields {R} (fs : fields R) : R :=
  match fs in fields R return R with
  | FNil => tt
  | FCons _ _ k rest => (zero_value k, zero_fields rest)
  end.

Fixpoint names_ok {R} (fs : fields R) : bool :=
  match fs with
  | FNil => true
  | FCons name _ _ rest =>
      all_chars ascii_byte name && negb (has (String.eqb name) rest) && names_ok rest
  end.

Lemma into_zero_fields {R} (fs : fields R) : into_fields fs (zero_fields fs).
Proof.
  induction fs as [|T R name om k rest IH]; cbn; [done|]. split; [done|]. split; [apply into_zero|done].
Qed.

Lemma has_encode_key {R} (fs : fields R) r ms : names_ok fs = true -> encode fs r = Some ms ->
  Forall (fun m => exists key, m.1 = quote key /\ Utf8 key /\ has (String.eqb key) fs = true) ms.
Proof.
  intros Hn. revert r ms. induction fs as [|T R name om k rest IH]; intros r ms; cbn.
  { by intros [= <-]. }
  cbn in Hn. apply andb_prop in Hn as [[Hu Hh]%andb_prop Hn]. intros H.
  assert (forall ms, encode rest r.2 = Some ms -> Forall (fun m => exists key, m.1 = quote key /\ Utf8 key /\
    String.eqb key name || has (String.eqb key) rest = true) ms) as Hrest.
  { intros ms' E. eapply Forall_impl; [by eapply IH|]. cbn. intros m (key & -> & Hk & Hm).
    exists key. by rewrite Hm, orb_true_r. }
  destruct (om && is_empty k r.1); [by apply Hrest|].
  destruct (enc k r.1) as [j|]; [|done]. cbn in H. destruct (encode rest r.2) as [ms'|]; [|done].
  injection H as <-. constructor; [|by apply Hrest].
  exists name. split; [done|]. split; [by apply Utf8_ascii|]. by rewrite String.eqb_refl.
Qed.

(** A member of the other fields leaves this one alone. *)
Lemma assign_pass {T R} name om (k : kind T) (rest : fields R) key j t r :
  has (String.eqb key) rest = true -> has (String.eqb name) rest = false ->
  assign (FCons name om k rest) key j (t, r) = r' ← assign rest key j r; Some (t, r').
Proof.
  intros Hk Hn. unfold assign. cbn [has]. rewrite Hk, orb_true_r. cbn [set_first fst snd].
  destruct (String.eqb_spec key name) as [->|]; [congruence|done].
Qed.

Lemma decode_pass {T R} name om (k : kind T) (rest : fields R) ms t r :
  Forall (fun m => exists key, m.1 = quote key /\ Utf8 key /\ has (String.eqb key) rest = true) ms ->
  has (String.eqb name) rest = false ->
  decode (FCons name om k rest) ms (t, r) = r' ← decode rest ms r; Some (t, r').
Proof.
  intros Hms Hn. revert r. induction Hms as [|[raw j] ms (key & Hkey & Hu & Hk) _ IH]; intros r; [done|].
  cbn in Hkey. subst raw.
  cbn [decode fst] in *. rewrite (unquote_quote key Hu). cbn [mbind option_bind].
  rewrite assign_pass by done. destruct (assign rest key j r) as [r'|]; [|done]. cbn. apply IH.
Qed.

Theorem decode_encode {R} (fs : fields R) r r0 ms :
  names_ok fs = true -> good_fields fs r -> encode fs r = Some ms -> into_fields fs r0 ->
  decode fs ms r0 = Some r.
Proof.
  revert r r0 ms. induction fs as [|T R name om k rest IH]; intros r r0 ms Hn Hg He Hi.
  { destruct r, r0. by injection He as <-. }
  destruct r as [t r], r0 as [t0 r0]. cbn in Hn, Hg, Hi. destruct Hg as [Ht Hg].
  destruct Hi as (Hom & Ht0 & Hi). apply andb_prop in Hn as [[Hu Hh%negb_true_iff]%andb_prop Hn].
  cbn in He. destruct (om && is_empty k t) eqn:Eo.
  - apply andb_prop in Eo as [-> Ee].
    rewrite decode_pass; [|by eapply has_encode_key|done]. rewrite (IH r r0 ms) by done. cbn.
    rewrite (Hom eq_refl). by rewrite (empty_zero k t).
  - destruct (enc k t) as [j|] eqn:Ej; [|done]. cbn in He.
    destruct (encode rest r) as [ms'|] eqn:Em; [|done]. injection He as <-.
    cbn [decode]. rewrite unquote_quote by by apply Utf8_ascii. cbn [mbind option_bind].
    unfold assign. cbn [has set_first fst snd]. rewrite String.eqb_refl. cbn [orb].
    rewrite (dec_enc k t j t0) by done. cbn [mbind option_bind].
    rewrite decode_pass; [|by eapply has_encode_key|done]. by rewrite (IH r r0 ms').
Qed.

Lemma wf_encode {R} (fs : fields R) r ms : good_fields fs r -> encode fs r = Some ms ->
  Forall (fun m => raw_ok m.1 /\ wf_json m.2) ms.
Proof.
  revert r ms. induction fs as [|T R name om k rest IH]; intros r ms Hg He.
  { by injection He as <-. }
  destruct r as [t r]. cbn in *. destruct Hg as [Ht Hg].
  destruct (om && is_empty k t); [by eapply IH|].
  destruct (enc k t) as [j|] eqn:Ej; [|done]. cbn in He.
  destruct (encode rest r) as [ms'|] eqn:Em; [|done]. injection He as <-.
  constructor; [|by eapply IH]. split; [apply raw_ok_quote | by eapply enc_wf].
Qed.

(** Members that no field matches are skipped. *)
Definition unmatched {R} (fs : fields R) (key : string) : bool :=
  negb (has (String.eqb key) fs)
  && negb (has (fun name => String.eqb (foldName key) (foldName name)) fs).

Lemma decode_app {R} (fs : fields R) ms ms' r :
  decode fs (ms ++ ms') r = decode fs ms r ≫= decode fs ms'.
Proof.
  revert r. induction ms as [|[raw j] ms IH]; intros r; [done|]. cbn.
  destruct (unquote raw); [|done]. cbn. destruct (assign fs s j r); [|done]. cbn. apply IH.
Qed.

Lemma decode_skip {R} (fs : fields R) ms r :
  Forall (fun m => exists key, m.1 = quote key /\ Utf8 key /\ unmatched fs key = true) ms ->
  decode fs ms r = Some r.
Proof.
  induction 1 as [|[raw j] ms (key & Hkey & Hu & Hk) _ IH]; [done|].
  cbn in Hkey. subst raw. cbn [decode fst].
  rewrite (unquote_quote key Hu). cbn [mbind option_bind]. unfold assign.
  apply andb_prop in Hk as [->%negb_true_iff ->%negb_true_iff]. cbn [mbind option_bind]. exact IH.
Qed.

(** ** Structs, slices, codecs *)

Section Struct.
Context {A R : Type} (fs : fields R) (to : A -> R) (from : R -> A).
Context (from_to : forall a, from (to a) = a).
(** Computed members that [Marshal] adds and [Unmarshal] skips. *)
Context (extra : A -> option (list (string * json))).

Definition struct_json (a : A) : option json :=
  ms ← encode fs (to a); xs ← extra a; Some (JObj (ms ++ xs)).
Definition read_struct (j : json) (a0 : A) : option A :=
  match j with
  | JNull => Some a0
  | JObj ms => from <$> decode fs ms (to a0)
  | _ => None
  end.

Context (Hnames : names_ok fs = true).
Context (Hextra : forall a xs, extra a = Some xs ->
  Forall (fun m => (exists key, m.1 = quote key /\ Utf8 key /\ unmatched fs key = true) /\ wf_json m.2) xs).
Context (to_from : forall r, to (from r) = r).

#[program] Definition struct_kind : kind A := {|
  enc := struct_json;
  dec := read_struct;
  zero_value := from (zero_fields fs);
  is_empty := never_empty;
  good a := good_fields fs (to a);
  into a := into_fields fs (to a);
|}.
Next Obligation.
  intros t j Hg He. unfold struct_json in He.
  destruct (encode fs (to t)) as [ms|] eqn:E; [|done]. cbn in He.
  destruct (extra t) as [xs|] eqn:Ex; [|done]. injection He as <-. constructor.
  apply Forall_app. split; [exact (wf_encode fs _ ms Hg E)|].
  eapply Forall_impl; [by eapply Hextra|]. intros [raw j] [(key & Hk & _) Hm]. cbn in *. subst raw.
  split; [apply raw_ok_quote|done].
Qed.
Next Obligation.
  intros t j t0 Hg He Hi. unfold struct_json in He.
  destruct (encode fs (to t)) as [ms|] eqn:E; [|done]. cbn in He.
  destruct (extra t) as [xs|] eqn:Ex; [|done]. injection He as <-. cbn.
  rewrite decode_app, (decode_encode fs (to t) (to t0) ms) by done. cbn.
  rewrite decode_skip; [cbn; by rewrite from_to|].
  eapply Forall_impl; [by eapply Hextra|]. by intros m [H _].
Qed.
Next Obligation. done. Qed.
Next Obligation. cbn. rewrite to_from. apply into_zero_fields. Qed.
End Struct.

Section Slice.
Context {A : Type} (k : kind A).

Definition slice_json (l : list A) : option json := JArr <$> mapM (enc k) l.

Fixpoint read_elements (js : list json) (old : list A) : option (list A) :=
  match js with
  | [] => Some []
  | j :: js' =>
      x ← dec k j (hd (zero_value k) old);
      r ← read_elements js' (tl old);
      Some (x :: r)
  end.
Definition read_slice (j : json) (old : list A) : option (list A) :=
  match j with
  | JNull => Some []
  | JArr js => read_elements js old
  | _ => None
  end.

Lemma read_elements_json l js old : Forall (good k) l -> mapM (enc k) l = Some js ->
  Forall (into k) old -> read_elements js old = Some l.
Proof.
  intros Hl. revert js old. induction Hl as [|x l Hx _ IH]; intros js old He Ho.
  { by injection He as <-. }
  cbn in He. destruct (enc k x) as [j|] eqn:Ej; [|done]. cbn in He.
  destruct (mapM (enc k) l) as [js'|] eqn:Em; [|done]. injection He as <-. cbn.
  destruct Ho as [|y old Hy Ho]; cbn.
  - rewrite (dec_enc k x j) by (done || apply into_zero). cbn. by rewrite IH.
  - rewrite (dec_enc k x j) by done. cbn. by rewrite IH.
Qed.

Lemma wf_slice l js : Forall (good k) l -> mapM (enc k) l = Some js -> Forall wf_json js.
Proof.
  intros Hl. revert js. induction Hl as [|x l Hx _ IH]; intros js He; [by injection He as <-|].
  cbn in He. destruct (enc k x) as [j|] eqn:Ej; [|done]. cbn in He.
  destruct (mapM (enc k) l) as [js'|] eqn:Em; [|done]. injection He as <-.
  constructor; [by eapply enc_wf | by apply IH].
Qed.

(** A slice that is not nil. *)
#[program] Definition slice_kind : kind (list A) := {|
  enc := slice_json;
  dec := read_slice;
  zero_value := [];
  is_empty l := match l with [] => true | _ :: _ => false end;
  good := Forall (good k);
  into := Forall (into k);
|}.
Next Obligation. intros l j Hl (js & H & ->)%fmap_Some. constructor. by eapply wf_slice. Qed.
Next Obligation. intros l j l0 Hl (js & H & ->)%fmap_Some Ho. by apply read_elements_json. Qed.
Next Obligation. by intros [] _. Qed.
Next Obligation. constructor. Qed.
End Slice.

(** ** Pointers, and values that are only written *)

(** A nil slice is [null]. *)
Definition nullable_json {A} (f : A -> option json) (l : option (list A)) : option json :=
  match l with None => Some JNull | Some l => JArr <$> mapM f l end.

(** A [map[string]interface{}]: the keys in their order. *)
Definition map_json (ms : list (string * option json)) : option json :=
  JObj <$> mapM (fun m => j ← m.2; Some (quote m.1, j)) (sort_by fst ms).

Definition pointer_json {A} (k : kind A) (a : option A) : option json :=
  match a with None => Some JNull | Some a => enc k a end.

Definition int_json (z : Z) : option json := Some (JNum (of_int z)).

Section Pointer.
Context {A : Type} (k : kind A) (not_null : forall a j, enc k a = Some j -> j <> JNull).

Definition read_pointer (j : json) (old : option A) : option (option A) :=
  match j with
  | JNull => Some None
  | _ => Some <$> dec k j (default (zero_value k) old)
  end.
Definition is_nil (o : option A) : bool := match o with None => true | Some _ => false end.
Definition pointee (P : A -> Prop) (o : option A) : Prop := match o with None => True | Some a => P a end.
(** Left out by [omitempty] when nil. *)
#[program] Definition pointer_kind : kind (option A) := {|
  enc := pointer_json k;
  dec := read_pointer;
  zero_value := None;
  is_empty := is_nil;
  good := pointee (good k);
  into := pointee (into k);
|}.
Next Obligation. intros [a|] j Ha; cbn; [by apply enc_wf|]. intros [= <-]. constructor. Qed.
Next Obligation.
  intros [a|] j t0 Ha; cbn; [|by intros [= <-]]. intros He Hi.
  assert (dec k j (default (zero_value k) t0) = Some a) as Hd.
  { apply dec_enc; [done|done|]. destruct t0; [done|apply into_zero]. }
  pose proof (not_null a j He). unfold read_pointer. rewrite Hd. by destruct j.
Qed.
Next Obligation. by intros []. Qed.
Next Obligation. done. Qed.
End Pointer.

(** [json.RawMessage]: the text of the value, [null] included *)
Definition raw_json (o : option string) : option json :=
  match o with None => Some JNull | Some s => parse s end.
Definition read_raw (j : json) (_ : option string) : option (option string) := Some (Some (render j)).
Definition raw_good (o : option string) : Prop := exists j, o = Some (render j) /\ wf_json j.
#[program] Definition raw_kind : kind (option string) := {|
  enc := raw_json;
  dec := read_raw;
  zero_value := None;
  is_empty := never_empty;
  good := raw_good;
  into := always;
|}.
Next Obligation. intros t j (j0 & -> & Hj) H. unfold raw_json in H. rewrite parse_render in H by done. by injection H as <-. Qed.
Next Obligation. intros t j t0 (j0 & -> & Hj) H _. unfold raw_json in H. rewrite parse_render in H by done. by injection H as <-. Qed.
Next Obligation. done. Qed.
Next Obligation. done. Qed.

(** [json.Marshal] and [json.Unmarshal] of the values of a kind. *)
Definition json_Marshal {A} (k : kind A) (a : A) : option string := render <$> enc k a.
Definition json_Unmarshal {A} (k : kind A) (s : string) (a0 : A) : option A := j ← parse s; dec k j a0.

Theorem json_Unmarshal_Marshal {A} (k : kind A) a s a0 :
  good k a -> into k a0 -> json_Marshal k a = Some s -> json_Unmarshal k s a0 = Some a.
Proof.
  intros Hg Hi (j & He & ->)%fmap_Some. unfold json_Unmarshal.
  rewrite parse_render by by eapply enc_wf. cbn. by eapply dec_enc.
Qed.

Definition json_codec {A} (k : kind A) : Codec A := {|
  Marshal := json_Marshal k;
  Unmarshal := json_Unmarshal k;
  faithful := good k;
  target := into k;
  Unmarshal_Marshal a v a0 Hi Hg Hm := json_Unmarshal_Marshal k a v a0 Hg Hi Hm;
|}.
