(* ===== verification/Table.v ===== *)
(** * Table: encoded records of one type under a key prefix.

    The storages of the oracles keep each kind of record under a prefix of its
    own and share the code that writes, reads and lists them. A [table] relates
    the database to the map of the records that were written. *)
From S2P Require Import Prelude.
From S2P Require Import Text.
From S2P Require Import KeyValue.

Inductive record_error :=
| ErrMarshal
| ErrUnmarshal
| ErrRecordNotFound.

Lemma NoDup_Keys `{OrderedKV} p d : NoDup (Keys p d).
Proof.
  pose proof (Keys_sorted p d) as Hs. induction Hs as [|k l _ IH Hk]; constructor; [|done].
  intros Hin. rewrite Forall_forall in Hk. specialize (Hk k Hin). by rewrite ltb_irrefl in Hk.
Qed.

Lemma prefix_refl p : String.prefix p p = true.
Proof. induction p as [|c p IH]; [done|]. cbn. by destruct (ascii_dec c c). Qed.

Lemma prefix_trans p q s : String.prefix p q = true -> String.prefix q s = true -> String.prefix p s = true.
Proof.
  intros [r ->]%prefix_strip [r' ->]%prefix_strip. rewrite append_assoc. apply prefix_app.
Qed.

(** [for _, key := range keys { txn.Delete(key) }] *)
Definition delete_all `{KV} (keys : list string) (d : db) : db := foldl (fun d key => Delete key d) d keys.

Lemma Get_delete_all `{KV} keys d k :
  Get (delete_all keys d) k = if decide (k ∈ keys) then None else Get d k.
Proof.
  revert d. induction keys as [|k' keys IH]; intros d; cbn.
  { case_decide as Hk; [by apply elem_of_nil in Hk | done]. }
  fold (delete_all keys (Delete k' d)). rewrite IH. case_decide as Hk.
  - rewrite decide_True by (by right). done.
  - destruct (decide (k = k')) as [->|Hne].
    + by rewrite decide_True, Get_Delete_eq by left.
    + rewrite Get_Delete_ne by done. rewrite decide_False; [done|].
      rewrite elem_of_cons. tauto.
Qed.

Section Table.
Context `{OrderedKV} {A : Type} `{!Codec A}.
(** The key of a record, and the zero value that records are decoded into. *)
Context (pfx : string) (key_of : A -> string) (zero : A) `{!Target zero}.

Definition save_record (state : A) (d : db) : db * result record_error unit :=
  match Marshal state with
  | None => (d, Err ErrMarshal)
  | Some data => Update (fun d => Ok (Set_ (key_of state) data d)) d
  end.

Definition load_record (key : string) (d : db) : result record_error A :=
  match Get d key with
  | None => Err ErrRecordNotFound
  | Some val => match Unmarshal val zero with Some state => Ok state | None => Err ErrUnmarshal end
  end.

Definition delete_record (key : string) (d : db) : db * result record_error unit :=
  Update (fun d => Ok (Delete key d)) d.

(** The record under a key; one that cannot be decoded is logged and skipped. *)
Definition record_at (d : db) (key : string) : option A :=
  val ← Get d key; Unmarshal val zero.
Definition load_prefix (p : string) (d : db) : list A := omap (record_at d) (Keys p d).

Record table (d : db) (M : gmap string A) : Prop := {
  tb_lookup : forall k, String.prefix pfx k = true -> Get d k = M !! k ≫= Marshal;
  tb_rows : forall k s, M !! k = Some s ->
    k = key_of s /\ String.prefix pfx k = true /\ faithful s /\ is_Some (Marshal s);
}.

Lemma table_empty d : (forall k, String.prefix pfx k = true -> Get d k = None) -> table d ∅.
Proof. intros Hd. split; intros k; rewrite ?lookup_empty; [apply Hd | done]. Qed.

(** What is written elsewhere leaves a table alone. *)
Lemma table_frame d d' M :
  (forall k, String.prefix pfx k = true -> Get d' k = Get d k) -> table d M -> table d' M.
Proof. intros Hd [Hl Hr]. split; [|done]. intros k Hk. rewrite Hd by done. by apply Hl. Qed.

Lemma table_Set d M s data :
  Marshal s = Some data -> faithful s -> String.prefix pfx (key_of s) = true ->
  table d M -> table (Set_ (key_of s) data d) (<[key_of s := s]> M).
Proof.
  intros Hm Hf Hp [Hl Hr]. split.
  - intros k Hk. rewrite lookup_insert. case_decide as E.
    + subst k. rewrite Get_Set_eq. cbn. done.
    + rewrite Get_Set_ne by done. by apply Hl.
  - intros k s'. rewrite lookup_insert. case_decide as E; [|apply Hr].
    intros [= <-]. subst k. by rewrite Hm.
Qed.

Lemma table_save d M s :
  faithful s -> is_Some (Marshal s) -> String.prefix pfx (key_of s) = true -> table d M ->
  exists d', save_record s d = (d', Ok tt) /\ table d' (<[key_of s := s]> M).
Proof.
  intros Hf [data Hm] Hp Ht. unfold save_record. rewrite Hm. eexists. split; [done|].
  by apply table_Set.
Qed.

Lemma table_Delete d M k : table d M -> table (Delete k d) (delete k M).
Proof.
  intros [Hl Hr]. split.
  - intros k' Hk'. rewrite lookup_delete. case_decide as E.
    + subst k'. by rewrite Get_Delete_eq.
    + rewrite Get_Delete_ne by done. by apply Hl.
  - intros k' s [_ Hs]%lookup_delete_Some. by apply Hr.
Qed.

Lemma table_delete_all d M keys :
  table d M -> table (delete_all keys d) (filter (fun kv => kv.1 ∉ keys) M).
Proof.
  intros [Hl Hr]. split.
  - intros k Hk. rewrite Get_delete_all, map_lookup_filter, Hl by done.
    destruct (M !! k); cbn; repeat case_decide; cbn; try done; by repeat case_guard.
  - intros k s [Hs _]%map_lookup_filter_Some. by apply Hr.
Qed.

Lemma record_at_row d M k s : table d M -> M !! k = Some s -> record_at d k = Some s.
Proof.
  intros [Hl Hr] Hs. destruct (Hr k s Hs) as (_ & Hp & Hf & [v Hv]).
  unfold record_at. rewrite Hl, Hs by done. cbn. rewrite Hv. cbn. by apply Unmarshal_Marshal.
Qed.

Lemma load_record_row d M k :
  table d M -> String.prefix pfx k = true ->
  load_record k d = match M !! k with Some s => Ok s | None => Err ErrRecordNotFound end.
Proof.
  intros Ht Hp. unfold load_record. destruct (M !! k) as [s|] eqn:E.
  - pose proof (record_at_row _ _ _ _ Ht E) as Hr. unfold record_at in Hr.
    destruct (Get d k); [|done]. cbn in Hr. by rewrite Hr.
  - by rewrite (tb_lookup _ _ Ht), E.
Qed.

Lemma omap_rows (f : string -> option A) (l : list (string * A)) :
  Forall (fun kv => f kv.1 = Some kv.2) l -> omap f l.*1 = l.*2.
Proof. induction 1 as [|[k s] l Hk _ IH]; [done|]. cbn in *. by rewrite Hk, IH. Qed.

(** The keys of the database under a longer prefix are those of the rows. *)
Lemma Keys_rows d M p :
  table d M -> String.prefix pfx p = true ->
  Keys p d ≡ₚ (map_to_list (filter (fun kv => String.prefix p kv.1 = true) M)).*1.
Proof.
  intros Ht Hp. apply NoDup_Permutation; [apply NoDup_Keys | apply NoDup_fst_map_to_list |].
  intros k. rewrite elem_of_Keys. split.
  - intros [[v Hv] Hk]. rewrite (tb_lookup _ _ Ht) in Hv by (by eapply prefix_trans).
    destruct (M !! k) as [s|] eqn:E; [|done].
    apply (list_elem_of_fmap_2 fst _ (k, s)). apply elem_of_map_to_list, map_lookup_filter_Some. done.
  - intros ((k', s) & -> & Hks)%list_elem_of_fmap.
    apply elem_of_map_to_list, map_lookup_filter_Some in Hks as [Hs Hk]. cbn in *.
    split; [|done]. pose proof (record_at_row _ _ _ _ Ht Hs) as Hr. unfold record_at in Hr.
    destruct (Get d k'); [by eexists | done].
Qed.

(** Listing gives every row of the prefix exactly once. *)
Lemma load_prefix_rows d M p :
  table d M -> String.prefix pfx p = true ->
  load_prefix p d ≡ₚ (map_to_list (filter (fun kv => String.prefix p kv.1 = true) M)).*2.
Proof.
  intros Ht Hp. unfold load_prefix. rewrite (Keys_rows d M p) by done.
  rewrite omap_rows; [done|]. apply Forall_forall. intros [k s] Hks.
  apply elem_of_map_to_list, map_lookup_filter_Some in Hks as [Hs _]. by eapply record_at_row.
Qed.

(** In key order, the keys of the prefix are the keys of the listed rows. *)
Lemma Keys_load d M :
  table d M -> Keys pfx d = key_of <$> load_prefix pfx d.
Proof.
  intros Ht. unfold load_prefix.
  assert (forall k, k ∈ Keys pfx d -> exists s, record_at d k = Some s /\ k = key_of s) as Hk.
  { intros k [[v Hv] Hp]%elem_of_Keys. rewrite (tb_lookup _ _ Ht) in Hv by done.
    destruct (M !! k) as [s|] eqn:E; [|done]. exists s.
    split; [by eapply record_at_row | by apply (tb_rows _ _ Ht)]. }
  induction (Keys pfx d) as [|k l IH]; [done|].
  destruct (Hk k) as (s & Hs & ->); [left|]. cbn. rewrite Hs. cbn. f_equal.
  apply IH. intros. apply Hk. by right.
Qed.

Lemma elem_of_load d M s :
  table d M -> s ∈ load_prefix pfx d <-> M !! key_of s = Some s.
Proof.
  intros Ht. unfold load_prefix. rewrite list_elem_of_omap. split.
  - intros (k & [[v Hv] Hp]%elem_of_Keys & Hs). rewrite (tb_lookup _ _ Ht) in Hv by done.
    destruct (M !! k) as [s'|] eqn:E; [|done].
    rewrite (record_at_row _ _ _ _ Ht E) in Hs. injection Hs as ->.
    by rewrite <- (proj1 (tb_rows _ _ Ht _ _ E)).
  - intros Hs. exists (key_of s). split; [|by eapply record_at_row].
    pose proof (record_at_row _ _ _ _ Ht Hs) as Hr. unfold record_at in Hr.
    apply elem_of_Keys. split.
    + destruct (Get d (key_of s)); [by eexists | done].
    + exact (proj1 (proj2 (tb_rows _ _ Ht _ _ Hs))).
Qed.

Lemma load_all_rows d M :
  table d M -> load_prefix pfx d ≡ₚ (map_to_list M).*2.
Proof.
  intros Ht. rewrite (load_prefix_rows d M) by (done || apply prefix_refl).
  rewrite map_filter_id; [done|]. intros k s Hs. by destruct (tb_rows _ _ Ht k s Hs) as (_ & ? & _).
Qed.
End Table.

(** ** Maps that are built and cut by loops *)

Section MapLoops.
Context {A : Type} (id : A -> string).

Lemma foldl_delete_lookup {B} (l : list A) (m : gmap string B) i :
  foldl (fun m s => delete (id s) m) m l !! i = if decide (i ∈ id <$> l) then None else m !! i.
Proof.
  revert m. induction l as [|s l IH]; intros m; cbn.
  { case_decide as Hi; [by apply elem_of_nil in Hi | done]. }
  rewrite IH. repeat case_decide; try done.
  - exfalso. set_solver.
  - apply lookup_delete_None. left. set_solver.
  - apply lookup_delete_ne. set_solver.
Qed.

(** Deleting the values that satisfy [P] is filtering. *)
Lemma foldl_delete_filter (P : A -> Prop) `{forall s, Decision (P s)} (m : gmap string A) l :
  map_Forall (fun i s => id s = i) m -> l ≡ₚ filter P (map_to_list m).*2 ->
  foldl (fun m s => delete (id s) m) m l = filter (fun kv => ~ P kv.2) m.
Proof.
  intros Hid Hl. apply map_eq. intros i. rewrite foldl_delete_lookup, map_lookup_filter.
  assert (forall s, s ∈ l <-> P s /\ m !! id s = Some s) as Hin.
  { intros s. rewrite Hl, list_elem_of_filter. apply and_iff_compat_l.
    rewrite list_elem_of_fmap. split.
    - intros ([k s'] & -> & Hks%elem_of_map_to_list). cbn. by rewrite (Hid _ _ Hks).
    - intros Hs. exists (id s, s). split; [done|]. by apply elem_of_map_to_list. }
  case_decide as Hi.
  - apply list_elem_of_fmap in Hi as (s & -> & [HP Hs]%Hin). rewrite Hs. cbn. by case_guard.
  - destruct (m !! i) as [s|] eqn:E; [|done]. cbn. case_guard as HP; [done|].
    destruct Hi. rewrite <- (Hid _ _ E). apply list_elem_of_fmap_2, Hin.
    destruct (decide (P s)); [|tauto]. split; [done|]. by rewrite (Hid _ _ E).
Qed.

(** Inserting listed values under their identifiers rebuilds the map. *)
Lemma foldl_insert_lookup (l : list A) (m : gmap string A) i s :
  NoDup (id <$> l) ->
  foldl (fun m s => <[id s := s]> m) m l !! i = Some s <->
  (s ∈ l /\ id s = i) \/ (m !! i = Some s /\ i ∉ id <$> l).
Proof.
  revert m. induction l as [|x l IH]; intros m Hnd; cbn [foldl].
  { split; [intros Hi; right; split; [done | apply not_elem_of_nil] | intros [[Hs _]|[Hi _]]; [|done]].
    by apply elem_of_nil in Hs. }
  cbn in Hnd. apply NoDup_cons in Hnd as [Hx Hnd]. rewrite IH by done. cbn [fmap list_fmap].
  rewrite elem_of_cons, not_elem_of_cons, lookup_insert_Some. split.
  - intros [[Hs Hi]|[[[Hi Hs]|[Hi Hs]] Hn]].
    + left. split; [by right | done].
    + left. subst s. split; [by left | done].
    + right. split; [done|]. split; [congruence | done].
  - intros [[[->|Hs] Hi]|[Hi [Hne Hn]]].
    + right. subst i. split; [by left | done].
    + left. done.
    + right. split; [right; split; [congruence | done] | done].
Qed.

Lemma foldl_insert_values (l : list A) (m : gmap string A) :
  map_Forall (fun i s => id s = i) m -> l ≡ₚ (map_to_list m).*2 ->
  foldl (fun m s => <[id s := s]> m) ∅ l = m.
Proof.
  intros Hid Hl.
  assert (forall k s, (k, s) ∈ map_to_list m -> id s = k) as Hk.
  { intros k s Hks%elem_of_map_to_list. by apply Hid. }
  assert (id <$> l ≡ₚ (map_to_list m).*1) as Hids.
  { rewrite Hl. clear Hl. induction (map_to_list m) as [|[k s] q IH]; [done|]. cbn.
    rewrite (Hk k s) by left. f_equiv. apply IH. intros. apply Hk. by right. }
  assert (NoDup (id <$> l)) as Hnd by (rewrite Hids; apply NoDup_fst_map_to_list).
  apply map_eq. intros i. apply option_eq. intros s. rewrite foldl_insert_lookup by done.
  rewrite lookup_empty. split.
  - intros [[Hs <-]|[? _]]; [|done]. rewrite Hl in Hs.
    apply list_elem_of_fmap in Hs as ([k s'] & -> & Hks). cbn. rewrite (Hk _ _ Hks).
    by apply elem_of_map_to_list.
  - intros Hs. left. split; [|by apply Hid]. rewrite Hl.
    apply (list_elem_of_fmap_2 snd _ (i, s)). by apply elem_of_map_to_list.
Qed.
End MapLoops.

Lemma range_filter_perm `{RangeOrder} {A} (Q : A -> Prop) `{forall x, Decision (Q x)} (l : list A) :
  filter Q (range l) ≡ₚ filter Q l.
Proof. by rewrite range_perm. Qed.

(** ** Tables keyed by an identifier

    The memory of an oracle is a map by identifier, its storage a table under the
    keys that a function computes from the identifiers. *)
Section KeyedTable.
Context `{OrderedKV}.

Lemma table_kmap_delete {A} `{!Codec A} pfx (key_of : A -> string) (f : string -> string)
    `{!Inj (=) (=) f} d (m : gmap string A) id :
  table pfx key_of d (kmap f m) -> table pfx key_of (Delete (f id) d) (kmap f (delete id m)).
Proof. intros Ht. rewrite kmap_delete by apply _. by apply table_Delete. Qed.

(** Deleting listed rows of a table. *)
Lemma table_delete_rows {A} `{!Codec A} pfx (key_of : A -> string) (f : string -> string)
    (id : A -> string) `{!Inj (=) (=) f} l d (m : gmap string A) :
  Forall (fun s => key_of s = f (id s)) l -> table pfx key_of d (kmap f m) ->
  table pfx key_of (delete_all (key_of <$> l) d) (kmap f (foldl (fun m s => delete (id s) m) m l)).
Proof.
  intros Hl. revert d m. induction Hl as [|s l Hs _ IH]; intros d m Ht; [done|].
  cbn [fmap list_fmap foldl]. unfold delete_all. cbn [foldl]. apply IH. rewrite Hs.
  by apply table_kmap_delete.
Qed.

Lemma load_all_kmap {A} `{!Codec A} pfx (key_of : A -> string) (zero : A) `{!Target zero}
    (f : string -> string) `{!Inj (=) (=) f} d (m : gmap string A) :
  table pfx key_of d (kmap f m) -> load_prefix zero pfx d ≡ₚ (map_to_list m).*2.
Proof.
  intros Ht. rewrite (load_all_rows pfx key_of zero d _ Ht), map_to_list_kmap by apply _.
  rewrite <- list_fmap_compose. done.
Qed.

(** Listing under a longer prefix that all the rows have. *)
Lemma load_prefix_kmap {A} `{!Codec A} pfx p (key_of : A -> string) (zero : A) `{!Target zero}
    (f : string -> string) `{!Inj (=) (=) f} d (m : gmap string A) :
  String.prefix pfx p = true -> map_Forall (fun i _ => String.prefix p (f i) = true) m ->
  table pfx key_of d (kmap f m) -> load_prefix zero p d ≡ₚ (map_to_list m).*2.
Proof.
  intros Hp Hall Ht. rewrite (load_prefix_rows pfx key_of zero d _ p Ht Hp).
  rewrite map_filter_id.
  - rewrite map_to_list_kmap, <- list_fmap_compose by apply _. done.
  - intros k s Hk. apply lookup_kmap_Some in Hk as (i & -> & Hi); [|apply _]. by apply (Hall i s).
Qed.
End KeyedTable.
