(* ===== verification/Indigo.v ===== *)
(** * Indigo: the datums of collateralised debt positions
    ([internal/oracle/indigo], [internal/oracle/indigo.go]), and the class
    [CDPParser] through which the oracle uses them. *)
From S2P Require Import Prelude.
From S2P Require Import Text.
From S2P Require Import Cbor.

Definition ProtocolName : string := "indigo".
Definition CDPContractAddress : string :=
  "addr1z8jd97ct35n4s5ss8lt4sq0zclw0dmf7yak8fj46m0jm3dhzfjvtm0pg7ms9fvw5luec6euwzku8wqjpt5gv0q86052qv9nxuw".
Definition StabilityPoolAddress : string :=
  "addr1w80ptp0qgmcklhmeweesqgeurtlma8fsxsr9dt8au30fzss0czhl9".
Definition IAssetPolicyID : string := "f66d78b4a3cb3d37afa0ec36461e51ecbde00f26c8f0a68f94b69880".
Definition INDYPolicyID : string := "533bb94a8850ee3ccbe483106489399112b74c905342cb1792a797a0".

(** ** Datum types ([models.go]) *)

Record MaybePubKeyHash := mkMaybePubKeyHash {
  IsJust : bool;
  Hash : option (list byte);
}.

Record AccumulatedFees := mkAccumulatedFees {
  af_Type : Z;
  af_LastUpdated : Z;
  af_IAssetAmount : Z;
  af_Treasury : Z;
  af_IndyStakers : Z;
}.

Record CDPInner := mkCDPInner {
  ci_Owner : MaybePubKeyHash;
  ci_IAsset : option (list byte);
  ci_MintedAmount : Z;
  ci_AccumulatedFees : AccumulatedFees;
}.

(** ** Decoding *)
Section Decode.
Context `{Cbor}.

Definition MaybePubKeyHash_UnmarshalCBOR (d : raw) : option MaybePubKeyHash :=
  '(tag, body) ← decode_constructor d;
  if tag =? 0 then
    fields ← struct_fields body 1;
    match fields with
    | [f0] => hash ← decode_bytes f0; Some (mkMaybePubKeyHash true hash)
    | _ => None
    end
  else if tag =? 1 then Some (mkMaybePubKeyHash false None)
  else None.

Definition AccumulatedFees_UnmarshalCBOR (d : raw) : option AccumulatedFees :=
  '(tag, body) ← decode_constructor d;
  if tag =? 0 then
    fields ← struct_fields body 2;
    match fields with
    | [f0; f1] =>
        lastUpdated ← decode_int f0;
        iAssetAmount ← decode_int f1;
        Some (mkAccumulatedFees tag lastUpdated iAssetAmount 0 0)
    | _ => None
    end
  else if tag =? 1 then
    fields ← struct_fields body 2;
    match fields with
    | [f0; f1] =>
        treasury ← decode_int f0;
        indyStakers ← decode_int f1;
        Some (mkAccumulatedFees tag 0 0 treasury indyStakers)
    | _ => None
    end
  else None.

Definition CDPInner_UnmarshalCBOR (d : raw) : option CDPInner :=
  fields ← tagged_struct d 0 4;
  match fields with
  | [f0; f1; f2; f3] =>
      owner ← MaybePubKeyHash_UnmarshalCBOR f0;
      iAsset ← decode_bytes f1;
      mintedAmount ← decode_int f2;
      accumulatedFees ← AccumulatedFees_UnmarshalCBOR f3;
      Some (mkCDPInner owner iAsset mintedAmount accumulatedFees)
  | _ => None
  end.

(** The [Inner] of the decoded datum, nil for another outer constructor. *)
Definition CDPContentDatum_UnmarshalCBOR (d : raw) : option (option CDPInner) :=
  '(tag, body) ← decode_constructor d;
  if negb (tag =? 0) then Some None
  else
    fields ← struct_fields body 1;
    match fields with
    | [f0] => inner ← CDPInner_UnmarshalCBOR f0; Some (Some inner)
    | _ => None
    end.
End Decode.

(** ** Parsing ([parser.go]) *)

Record CDPState := mkCDPState {
  cs_CDPId : string;
  cs_Network : string;
  cs_Protocol : string;
  cs_Owner : string;
  cs_HasOwner : bool;
  cs_IAsset : string;
  cs_MintedAmount : Z;
  cs_Slot : Z;
  cs_BlockHash : string;
  cs_TxHash : string;
  cs_TxIndex : Z;
  cs_Timestamp : Z;
  cs_UpdatedAt : Z;
  cs_FeesType : Z;
  cs_LastUpdated : Z;
  cs_IAssetFees : Z;
  cs_Treasury : Z;
  cs_IndyStakers : Z;
}.

#[export] Instance CDPState_eq_dec : EqDecision CDPState.
Proof. solve_decision. Defined.

Definition Key (c : CDPState) : string := "indigo:" +:+ cs_CDPId c.

Definition isPrintable (data : option (list byte)) : bool :=
  forallb (fun b => negb ((Byte.to_N b <? 32) || (126 <? Byte.to_N b))%N) (contents data)
  && negb (Nat.eqb (length (contents data)) 0).

Definition hex_of (s : string) : string := hex_encode (String.list_byte_of_string s).

Definition IAssetName (c : CDPState) : string :=
  if bool_decide (cs_IAsset c = hex_of "iUSD") then "iUSD"
  else if bool_decide (cs_IAsset c = hex_of "iBTC") then "iBTC"
  else if bool_decide (cs_IAsset c = hex_of "iETH") then "iETH"
  else
    match DecodeString (cs_IAsset c) with
    | Some bytes => if isPrintable bytes then string_of_bytes bytes else cs_IAsset c
    | None => cs_IAsset c
    end.

Definition GenerateCDPId (txHash : string) (txIndex : Z) : string :=
  "indigo_cdp_" +:+ txHash +:+ String "#" (FormatUint txIndex).

Definition GetAddresses : list string := [CDPContractAddress; StabilityPoolAddress].
Definition GetPolicyIDs : gmap string string :=
  <["iAsset" := IAssetPolicyID]> (<["INDY" := INDYPolicyID]> ∅).

Inductive cdp_error := DecodeCDP.

(** [Parser.ParseCDPDatum]: an error, nil for a datum of another kind, or a state. *)
Definition indigo_ParseCDPDatum `{Cbor} (datum : raw) (txHash : string)
    (txIndex slot timestamp : Z) : result cdp_error (option CDPState) :=
  match CDPContentDatum_UnmarshalCBOR datum with
  | None => Err DecodeCDP
  | Some None => Ok None
  | Some (Some inner) =>
      let cdpId := GenerateCDPId txHash txIndex in
      let o := ci_Owner inner in
      let owner :=
        if IsJust o && negb (Nat.eqb (length (contents (Hash o))) 0)
        then EncodeToString (Hash o) else "" in
      let hasOwner := negb (bool_decide (owner = "")) in
      let f := ci_AccumulatedFees inner in
      let first := af_Type f =? 0 in
      Ok (Some (mkCDPState cdpId "" ProtocolName owner hasOwner
        (EncodeToString (ci_IAsset inner)) (ci_MintedAmount inner) slot "" txHash txIndex
        timestamp 0 (af_Type f)
        (if first then af_LastUpdated f else 0) (if first then af_IAssetAmount f else 0)
        (if first then 0 else af_Treasury f) (if first then 0 else af_IndyStakers f)))
  end.

(** ** The interface of the oracle ([oracle.CDPParser])

    The oracle finds the state of a spent output by the identifier computed from
    the reference of the output: the identifier of a parsed state has to be that
    one, and to determine the output. *)
Record sound_cdp (protocol txHash : string) (txIndex slot timestamp : Z) (s : CDPState) : Prop := {
  sc_amount : is_i64 (cs_MintedAmount s);
  sc_fees : is_i64 (cs_LastUpdated s) /\ is_i64 (cs_IAssetFees s) /\
            is_i64 (cs_Treasury s) /\ is_i64 (cs_IndyStakers s);
  sc_owner : cs_HasOwner s = true <-> cs_Owner s <> "";
  sc_fees_type : cs_FeesType s = 0 \/ cs_FeesType s = 1;
  sc_meta : cs_Protocol s = protocol /\ cs_TxHash s = txHash /\ cs_TxIndex s = txIndex /\
            cs_Slot s = slot /\ cs_Timestamp s = timestamp;
}.

Class CDPParser `{Cbor} := {
  CDP_Protocol : string;
  ParseCDPDatum : raw -> string -> Z -> Z -> Z -> result cdp_error (option CDPState);
  CDPIdForOutput : string -> Z -> string;
  ParseCDPDatum_sound : forall datum txHash txIndex slot timestamp s,
    ParseCDPDatum datum txHash txIndex slot timestamp = Ok (Some s) ->
    cs_CDPId s = CDPIdForOutput txHash txIndex /\
    sound_cdp CDP_Protocol txHash txIndex slot timestamp s;
  CDPIdForOutput_inj : forall txHash txIndex txHash' txIndex',
    is_u64 txIndex -> is_u64 txIndex' ->
    char_free "#" txHash = true -> char_free "#" txHash' = true ->
    CDPIdForOutput txHash txIndex = CDPIdForOutput txHash' txIndex' ->
    txHash = txHash' /\ txIndex = txIndex';
}.

Lemma AccumulatedFees_range `{C : Cbor, R : !CborIntRange C} d f :
  AccumulatedFees_UnmarshalCBOR d = Some f ->
  (af_Type f = 0 \/ af_Type f = 1) /\ is_i64 (af_LastUpdated f) /\ is_i64 (af_IAssetAmount f) /\
  is_i64 (af_Treasury f) /\ is_i64 (af_IndyStakers f).
Proof.
  unfold AccumulatedFees_UnmarshalCBOR. intros E. decode_inv; bool_prop; cbn;
    split_and!; try (by eapply decode_int_range); try int_lia.
Qed.

Lemma CDPInner_range `{C : Cbor, R : !CborIntRange C} d c :
  CDPInner_UnmarshalCBOR d = Some c ->
  is_i64 (ci_MintedAmount c) /\ exists d', AccumulatedFees_UnmarshalCBOR d' = Some (ci_AccumulatedFees c).
Proof.
  unfold CDPInner_UnmarshalCBOR. intros E. decode_inv. cbn.
  split; [by eapply decode_int_range | by eexists].
Qed.

#[export, program] Instance IndigoParser `{C : Cbor, R : !CborIntRange C} : CDPParser := {|
  CDP_Protocol := ProtocolName;
  ParseCDPDatum := indigo_ParseCDPDatum;
  CDPIdForOutput := GenerateCDPId;
|}.
Next Obligation.
  intros C R datum txHash txIndex slot timestamp s. unfold indigo_ParseCDPDatum.
  destruct (CDPContentDatum_UnmarshalCBOR datum) as [[inner|]|] eqn:E; [|done..].
  intros [= <-]. split; [done|].
  assert (exists d, CDPInner_UnmarshalCBOR d = Some inner) as [d Hd].
  { unfold CDPContentDatum_UnmarshalCBOR in E. decode_inv. by eexists. }
  apply CDPInner_range in Hd as [Hm (d' & (Hf & H1 & H2 & H3 & H4)%AccumulatedFees_range)].
  split; cbn; [done | | | done | done].
  - destruct (af_Type _ =? 0); split_and!; try done; int_lia.
  - rewrite negb_true_iff. by rewrite bool_decide_eq_false.
Qed.
Next Obligation.
  intros C R h i h' i' Hi Hi' Hh Hh' E. unfold GenerateCDPId in E. apply append_inj_l in E.
  apply append_sep_inj in E as [-> E]; [|done..]. split; [done|]. by apply FormatUint_inj.
Qed.

(** ** The contract's format *)
Section Encode.
Context `{C : Cbor, S : !CborSyntax C}.

Definition encode_owner (o : option (list byte)) : raw :=
  match o with Some hash => constr 0 [bytestring hash] | None => constr 1 [] end.
(** Interest accrued in the asset, or fees in lovelace. *)
Definition encode_fees (interest : bool) (a b : Z) : raw :=
  constr (if interest then 0 else 1) [integer a; integer b].
Definition encode_cdp (owner : option (list byte)) (iAsset : list byte) (minted : Z)
    (interest : bool) (a b : Z) : raw :=
  constr 0 [constr 0 [encode_owner owner; bytestring iAsset; integer minted; encode_fees interest a b]].

Lemma decode_owner o :
  MaybePubKeyHash_UnmarshalCBOR (encode_owner o) =
  Some (mkMaybePubKeyHash (if o is Some _ then true else false) o).
Proof.
  unfold MaybePubKeyHash_UnmarshalCBOR, encode_owner. destruct o as [hash|].
  - destruct (decode_constr 0 [bytestring hash]) as (body & -> & Hb); [lia|]. cbn.
    unfold struct_fields. rewrite Hb. cbn. by rewrite decode_bytes_bytestring.
  - by destruct (decode_constr 1 []) as (body & -> & Hb).
Qed.

Lemma decode_fees interest a b :
  is_i64 a -> is_i64 b ->
  AccumulatedFees_UnmarshalCBOR (encode_fees interest a b) =
  Some (if interest then mkAccumulatedFees 0 a b 0 0 else mkAccumulatedFees 1 0 0 a b).
Proof.
  intros Ha Hb. unfold AccumulatedFees_UnmarshalCBOR, encode_fees.
  destruct (decode_constr (if interest then 0 else 1) [integer a; integer b]) as (body & -> & Hbd);
    [by destruct interest|].
  destruct interest; cbn; unfold struct_fields; rewrite Hbd; cbn; by rewrite !decode_int_integer.
Qed.

(** A position datum in the contract's format is parsed into exactly its owner,
    asset, minted amount and fees, the fees of the other kind being zero; the
    identifier is that of the output. A datum with another outer constructor is
    not a position: no state and no error. *)
Theorem ParseCDPDatum_encode owner iAsset minted interest a b tag fields txHash txIndex slot timestamp :
  is_i64 minted -> is_i64 a -> is_i64 b -> 0 < tag ->
  indigo_ParseCDPDatum (encode_cdp owner iAsset minted interest a b) txHash txIndex slot timestamp =
    Ok (Some (mkCDPState (GenerateCDPId txHash txIndex) "" "indigo"
      (hex_encode (default [] owner))
      (if owner is Some (_ :: _) then true else false)
      (hex_encode iAsset) minted slot "" txHash txIndex timestamp 0
      (if interest then 0 else 1)
      (if interest then a else 0) (if interest then b else 0)
      (if interest then 0 else a) (if interest then 0 else b))) /\
  indigo_ParseCDPDatum (constr tag fields) txHash txIndex slot timestamp = Ok None.
Proof.
  intros Hm Ha Hb Ht. split.
  - unfold indigo_ParseCDPDatum, CDPContentDatum_UnmarshalCBOR, encode_cdp.
    edestruct (decode_constr 0) as (body & -> & Hbd); [lia|]. cbn [mbind option_bind Z.eqb negb].
    unfold struct_fields at 1. rewrite Hbd. cbn [mbind option_bind length Nat.eqb].
    unfold CDPInner_UnmarshalCBOR. decode_step. rewrite decode_owner. cbn [mbind option_bind].
    repeat decode_step. rewrite decode_fees by done. cbn [mbind option_bind].
    by destruct owner as [[|x owner]|], interest.
  - unfold indigo_ParseCDPDatum, CDPContentDatum_UnmarshalCBOR.
    destruct (decode_constr tag fields) as (body & -> & _); [lia|]. cbn [mbind option_bind].
    by rewrite (proj2 (Z.eqb_neq _ _)) by lia.
Qed.
End Encode.

Lemma ParseCDPDatum_encode_witness :
  indigo_ParseCDPDatum (Constr 0 [Constr 0 [Constr 0 [DBytes [x0a; x0b]]; DBytes [x69; x55; x53; x44];
    DInt 5000; Constr 1 [DInt 7; DInt (-2)]]]) "ab" 3 40 60 =
  Ok (Some (mkCDPState "indigo_cdp_ab#3" "" "indigo" "0a0b" true "69555344" 5000 40 "" "ab" 3 60 0
    1 0 0 7 (-2))).
Proof.
  destruct (ParseCDPDatum_encode (Some [x0a; x0b]) [x69; x55; x53; x44] 5000 false 7 (-2) 1 []
    "ab" 3 40 60) as [H _]; [int_lia..|]. exact H.
Defined.

(** The asset of the sample is displayed by its ticker. *)
Example IAssetName_sample :
  option_map IAssetName (match indigo_ParseCDPDatum (encode_cdp None [x69; x55; x53; x44] 1 true 0 0)
    "ab" 0 1 1 with Ok s => s | Err _ => None end) = Some "iUSD".
Proof. reflexivity. Qed.
