(* ===== verification/PoolJson.v ===== *)
(** * PoolJson: pools, swaps and CDP positions as text.

    [PoolState.MarshalJSON] writes a pool with the prices and the fee computed from
    it; a pool that is read back is the pool that was written, the computed members
    are skipped. Swaps and positions are written field by field. These are the
    encodings of the storages of the oracle. [PoolState.String] is the form for
    logs. *)
From S2P Require Import Prelude.
From S2P Require Import Text.
From S2P Require Import Float64.
From S2P Require Import Common.
From S2P Require Import Pool.
From S2P Require Import Activity.
From S2P Require Import Indigo.
From S2P Require Import KeyValue.
From S2P Require Import JsonString.
From S2P Require Import JsonNumber.
From S2P Require Import Rfc3339.
From S2P Require Import FloatText.
From S2P Require Import FloatRange.
From S2P Require Import Json.
From S2P Require Import JsonRecord.

Definition no_extra {A} (_ : A) : option (list (string * json)) := Some [].
Lemma no_extra_ok {A R} (fs : fields R) (a : A) xs : no_extra a = Some xs ->
  Forall (fun m => (exists key, m.1 = quote key /\ Utf8 key /\ unmatched fs key = true) /\ wf_json m.2) xs.
Proof. intros [= <-]. constructor. Qed.

(** ** Assets *)

Definition asset_fields : fields _ :=
  FCons "PolicyId" false bytes_kind (FCons "Name" false bytes_kind FNil).
#[program] Definition asset_kind : kind AssetClass :=
  struct_kind asset_fields (fun a => (PolicyId a, (Name a, tt)))
    (fun r => mkAssetClass r.1 r.2.1) _ no_extra eq_refl (no_extra_ok _) _.
Next Obligation. by intros []. Qed.
Next Obligation. by intros (? & ? & []). Qed.

Definition amount_fields : fields _ :=
  FCons "Class" false asset_kind (FCons "Amount" false uint64_kind FNil).
#[program] Definition amount_kind : kind AssetAmount :=
  struct_kind amount_fields (fun a => (aa_Class a, (aa_Amount a, tt)))
    (fun r => mkAssetAmount r.1 r.2.1) _ no_extra eq_refl (no_extra_ok _) _.
Next Obligation. by intros []. Qed.
Next Obligation. by intros (? & ? & []). Qed.

(** ** Pools *)

Definition pool_fields : fields _ :=
  FCons "poolId" false string_kind (FCons "network" false string_kind
  (FCons "protocol" false string_kind
  (FCons "assetX" false amount_kind (FCons "assetY" false amount_kind
  (FCons "feeNum" false uint64_kind (FCons "feeDenom" false uint64_kind
  (FCons "slot" false uint64_kind
  (FCons "blockHash" false string_kind (FCons "txHash" false string_kind
  (FCons "txIndex" false uint32_kind
  (FCons "timestamp" false time_kind (FCons "updatedAt" false time_kind
  (FCons "fromMempool" false bool_kind FNil))))))))))))).

Definition pool_tuple (p : PoolState) :=
  (ps_PoolId p, (ps_Network p, (ps_Protocol p, (ps_AssetX p, (ps_AssetY p, (ps_FeeNum p,
  (ps_FeeDenom p, (ps_Slot p, (ps_BlockHash p, (ps_TxHash p, (ps_TxIndex p, (ps_Timestamp p,
  (ps_UpdatedAt p, (ps_FromMempool p, tt)))))))))))))).
Definition pool_of_tuple (r : _) : PoolState :=
  let '(a, (b, (c, (d, (e, (f, (g, (h, (i, (j, (k, (l, (m, (n, tt)))))))))))))) := r in
  mkPoolState a b c d e f g h i j k l m n.

(** The members that [MarshalJSON] adds after those of the struct. *)
Definition computed_members (p : PoolState) : option (list (string * json)) :=
  xy ← FormatFloat (PriceXY p);
  yx ← FormatFloat (PriceYX p);
  fee ← FormatFloat (EffectiveFee p);
  Some [(quote "priceXY", JNum xy); (quote "priceYX", JNum yx); (quote "effectiveFee", JNum fee)].

Lemma computed_members_ok p xs : computed_members p = Some xs ->
  Forall (fun m => (exists key, m.1 = quote key /\ Utf8 key /\ unmatched pool_fields key = true)
    /\ wf_json m.2) xs.
Proof.
  unfold computed_members.
  destruct (FormatFloat (PriceXY p)) as [xy|] eqn:E1; [|done]. cbn [mbind option_bind].
  destruct (FormatFloat (PriceYX p)) as [yx|] eqn:E2; [|done]. cbn [mbind option_bind].
  destruct (FormatFloat (EffectiveFee p)) as [fee|] eqn:E3; [|done]. cbn [mbind option_bind].
  intros [= <-].
  repeat (apply Forall_cons_2; [split; [|constructor; by eapply wf_FormatFloat]|]);
    [..|constructor].
  - exists "priceXY". split; [done|]. split; [by apply Utf8_ascii|]. by vm_compute.
  - exists "priceYX". split; [done|]. split; [by apply Utf8_ascii|]. by vm_compute.
  - exists "effectiveFee". split; [done|]. split; [by apply Utf8_ascii|]. by vm_compute.
Qed.

#[program] Definition pool_kind : kind PoolState :=
  struct_kind pool_fields pool_tuple pool_of_tuple _ computed_members eq_refl computed_members_ok _.
Next Obligation. by intros []. Qed.
Next Obligation. by intros (? & ? & ? & ? & ? & ? & ? & ? & ? & ? & ? & ? & ? & ? & []). Qed.

Definition MarshalJSON (p : PoolState) : option string := json_Marshal pool_kind p.

(** ** Swaps *)

Definition swap_fields : fields _ :=
  FCons "poolId" false string_kind (FCons "network" false string_kind
  (FCons "protocol" false string_kind
  (FCons "assetX" false asset_kind (FCons "assetY" false asset_kind
  (FCons "amountX" false uint64_kind (FCons "amountY" false uint64_kind
  (FCons "inputIsX" false bool_kind (FCons "slot" false uint64_kind
  (FCons "blockHash" false string_kind (FCons "txHash" false string_kind
  (FCons "txIndex" false uint32_kind FNil))))))))))).
Definition swap_tuple (s : SwapTransition) :=
  (sw_PoolID s, (sw_Network s, (sw_Protocol s, (sw_AssetX s, (sw_AssetY s, (sw_AmountX s,
  (sw_AmountY s, (sw_InputIsX s, (sw_Slot s, (sw_BlockHash s, (sw_TxHash s, (sw_TxIndex s, tt)))))))))))).
Definition swap_of_tuple (r : _) : SwapTransition :=
  let '(a, (b, (c, (d, (e, (f, (g, (h, (i, (j, (k, (l, tt)))))))))))) := r in
  mkSwap a b c d e f g h i j k l.
#[program] Definition swap_kind : kind SwapTransition :=
  struct_kind swap_fields swap_tuple swap_of_tuple _ no_extra eq_refl (no_extra_ok _) _.
Next Obligation. by intros []. Qed.
Next Obligation. by intros (? & ? & ? & ? & ? & ? & ? & ? & ? & ? & ? & ? & []). Qed.

(** ** CDP positions: no tags, the names are those of the fields *)

Definition cdp_fields : fields _ :=
  FCons "CDPId" false string_kind (FCons "Network" false string_kind
  (FCons "Protocol" false string_kind (FCons "Owner" false string_kind
  (FCons "HasOwner" false bool_kind (FCons "IAsset" false string_kind
  (FCons "MintedAmount" false int64_kind (FCons "Slot" false uint64_kind
  (FCons "BlockHash" false string_kind (FCons "TxHash" false string_kind
  (FCons "TxIndex" false uint32_kind (FCons "Timestamp" false time_kind
  (FCons "UpdatedAt" false time_kind (FCons "FeesType" false int64_kind
  (FCons "LastUpdated" false int64_kind (FCons "IAssetFees" false int64_kind
  (FCons "Treasury" false int64_kind (FCons "IndyStakers" false int64_kind FNil))))))))))))))))).
Definition cdp_tuple (c : CDPState) :=
  (cs_CDPId c, (cs_Network c, (cs_Protocol c, (cs_Owner c, (cs_HasOwner c, (cs_IAsset c,
  (cs_MintedAmount c, (cs_Slot c, (cs_BlockHash c, (cs_TxHash c, (cs_TxIndex c, (cs_Timestamp c,
  (cs_UpdatedAt c, (cs_FeesType c, (cs_LastUpdated c, (cs_IAssetFees c, (cs_Treasury c,
  (cs_IndyStakers c, tt)))))))))))))))))).
Definition cdp_of_tuple (r : _) : CDPState :=
  let '(a, (b, (c, (d, (e, (f, (g, (h, (i, (j, (k, (l, (m, (n, (o, (p, (q, (t, tt)))))))))))))))))) := r in
  mkCDPState a b c d e f g h i j k l m n o p q t.
#[program] Definition cdp_kind : kind CDPState :=
  struct_kind cdp_fields cdp_tuple cdp_of_tuple _ no_extra eq_refl (no_extra_ok _) _.
Next Obligation. by intros []. Qed.
Next Obligation.
  by intros (? & ? & ? & ? & ? & ? & ? & ? & ? & ? & ? & ? & ? & ? & ? & ? & ? & ? & []).
Qed.

(** ** The codecs of the storages *)

Definition pool_json : Codec PoolState := json_codec pool_kind.
Definition swap_json : Codec SwapTransition := json_codec swap_kind.
Definition cdp_json : Codec CDPState := json_codec cdp_kind.

#[local] Existing Instances pool_json swap_json cdp_json.

(** No member of these records is ever left out, so they can be decoded into any
    variable. *)
#[export] Instance pool_json_target (p : PoolState) : Target p.
Proof. by repeat split. Qed.
#[export] Instance swap_json_target (s : SwapTransition) : Target s.
Proof. by repeat split. Qed.
#[export] Instance cdp_json_target (c : CDPState) : Target c.
Proof. by repeat split. Qed.

Lemma swap_json_total (s : SwapTransition) : is_Some (Marshal s).
Proof. eexists. reflexivity. Qed.

(** The pools that survive: valid text and the ranges of the Go types. *)
Record printable_pool (p : PoolState) : Prop := {
  pp_wf : wf_pool p;
  pp_TxIndex : 0 <= ps_TxIndex p <= MaxUint32;
  pp_PoolId : Utf8 (ps_PoolId p);
  pp_Network : Utf8 (ps_Network p);
  pp_Protocol : Utf8 (ps_Protocol p);
  pp_BlockHash : Utf8 (ps_BlockHash p);
  pp_TxHash : Utf8 (ps_TxHash p);
}.

Lemma pool_json_faithful p : printable_pool p <-> faithful p.
Proof.
  split.
  - unfold is_u64, ps_X, ps_Y. intros [[] ? ? ? ? ? ?]. unfold is_u64, ps_X, ps_Y in *.
    repeat split; cbn; done || lia.
  - intros H. cbn in H. destruct_and! H. split; [split|..]; done.
Qed.

(** ** Pools are always written *)

Lemma computed_members_total p : wf_pool p -> is_Some (computed_members p).
Proof.
  intros []. unfold computed_members.
  assert (forall x y, is_u64 x -> is_u64 y -> is_Some (FormatFloat
    (if y =? 0 then fzero else fdiv (float_of_Z x) (float_of_Z y)))) as Hq.
  { intros x y Hx Hy. apply FormatFloat_total. destruct (Z.eqb_spec y 0); [done|].
    by eapply float_below_finite, quotient_below. }
  destruct (Hq (ps_Y p) (ps_X p)) as [xy Exy]; [done..|].
  destruct (Hq (ps_X p) (ps_Y p)) as [yx Eyx]; [done..|].
  assert (is_Some (FormatFloat (EffectiveFee p))) as [fee Efee].
  { apply FormatFloat_total. unfold EffectiveFee. destruct (Z.eqb_spec (ps_FeeDenom p) 0); [done|].
    apply fsub_below; [done | by apply quotient_below]. }
  unfold PriceXY, PriceYX. rewrite Exy, Eyx, Efee. by eexists.
Qed.

Lemma MarshalJSON_total p : wf_pool p -> json_time (ps_Timestamp p) -> json_time (ps_UpdatedAt p) ->
  is_Some (MarshalJSON p).
Proof.
  intros Hwf Ht Hu. destruct (FormatTime_total _ Ht) as [t Et]. destruct (FormatTime_total _ Hu) as [u Eu].
  destruct (computed_members_total p Hwf) as [xs Exs].
  unfold MarshalJSON, json_Marshal. cbn [enc pool_kind struct_kind]. unfold struct_json.
  cbn [encode pool_fields pool_tuple fst snd andb enc uint64_kind uint32_kind uint_kind string_kind
    time_kind bool_kind amount_kind asset_kind bytes_kind struct_kind struct_json].
  unfold struct_json, pool_tuple. cbn [fst snd]. rewrite Et, Eu, Exs. by eexists.
Qed.

(** C14: a pool comes back from its JSON. Every pool whose texts are UTF-8, whose
    numbers are in the ranges of their types and whose times have four-digit years
    can be encoded: the computed prices and the fee are always finite numbers. And
    whatever variable the text is decoded into, the result is that pool: nothing is
    lost, a nil and an empty policy id stay apart, the times keep their nanoseconds
    and the computed members are skipped. *)
Theorem pool_survives_json p p0 :
  printable_pool p -> json_time (ps_Timestamp p) -> json_time (ps_UpdatedAt p) ->
  exists text, MarshalJSON p = Some text /\ json_Unmarshal pool_kind text p0 = Some p.
Proof.
  intros Hp Ht Hu. destruct (MarshalJSON_total p (pp_wf _ Hp) Ht Hu) as [text E].
  exists text. split; [done|].
  apply (Unmarshal_Marshal (Codec := pool_json) p text p0); [apply is_target | by apply pool_json_faithful | done].
Qed.

(** ** The form for logs *)

(** [%.6f]: the exact value to six places, ties to even. *)
Definition round_even (n d : Z) : Z :=
  let q := n / d in let r := n mod d in
  if (2 * r <? d) || ((2 * r =? d) && Z.even q) then q else q + 1.
Definition format_6f (f : float64) : string :=
  match f with
  | S754_nan => "NaN"
  | S754_infinity s => if s then "-Inf" else "+Inf"
  | S754_zero s => if s then "-0.000000" else "0.000000"
  | S754_finite s m e =>
      let q := Q_of_float (S754_finite false m e) in
      let n := round_even (Qnum q * 10 ^ 6) (Zpos (Qden q)) in
      (if s then "-" else "") +:+ FormatUint (n / 10 ^ 6) +:+ String "." (fixed 6 n)
  end.

(** [PoolState.String] *)
Definition String_ (p : PoolState) : string :=
  let poolIdDisplay :=
    if (16 <? Z.of_nat (String.length (ps_PoolId p)))
    then String.substring 0 16 (ps_PoolId p) +:+ "..." else ps_PoolId p in
  "Pool[" +:+ poolIdDisplay +:+ "] " +:+ Fingerprint (aa_Class (ps_AssetX p)) +:+ "/"
  +:+ Fingerprint (aa_Class (ps_AssetY p)) +:+ ": " +:+ FormatUint (ps_X p) +:+ "/"
  +:+ FormatUint (ps_Y p) +:+ " (price: " +:+ format_6f (PriceXY p) +:+ ")".

(** The printed price is within half a millionth of the price. *)
Lemma round_even_close n d : 0 < d -> 2 * Z.abs (round_even n d * d - n) <= d.
Proof.
  intros Hd. unfold round_even. pose proof (Z.div_mod n d ltac:(lia)).
  pose proof (Z.mod_pos_bound n d Hd).
  destruct ((2 * (n mod d) <? d) || ((2 * (n mod d) =? d) && Z.even (n / d))) eqn:E.
  - assert (2 * (n mod d) <= d) by (apply orb_true_iff in E as [?%Z.ltb_lt|[?%Z.eqb_eq _]%andb_prop]; lia).
    nia.
  - apply orb_false_iff in E as [?%Z.ltb_ge _]. nia.
Qed.

(** ** A pool with a long identifier *)

Definition text_token : AssetClass := mkAssetClass (Some [x01; xff]) (Some [x55; x53; x44]).
Definition text_pool : PoolState :=
  mkPoolState "minswap_<lovelace>_0102" "mainnet" "minswap-v2" (mkAssetAmount Lovelace 3000000)
    (mkAssetAmount text_token 1000001) 997 1000 86400 "b0" "t0" 1 63865231425120000000 63865231426000000001 true.

Example text_pool_String : String_ text_pool =
  "Pool[minswap_<lovelac...] lovelace/01ff.555344: 3000000/1000001 (price: 0.333334)".
Proof. vm_compute. reflexivity. Qed.

Lemma pool_survives_json_witness :
  MarshalJSON text_pool = Some (default "" (MarshalJSON text_pool)) /\
  json_Unmarshal pool_kind (default "" (MarshalJSON text_pool)) (zero_value pool_kind) = Some text_pool.
Proof.
  destruct (pool_survives_json text_pool (zero_value pool_kind)) as (text & E & H).
  - split; [split; cbn; int_lia | cbn; unfold MaxUint32; lia | by apply Utf8_ascii ..].
  - unfold json_time, second_ns. cbn. lia.
  - unfold json_time, second_ns. cbn. lia.
  - rewrite E. split; [done | exact H].
Defined.
