(* ===== verification/OracleStorage.v ===== *)
(** * OracleStorage: pool and position states on disk ([internal/oracle/storage.go]).

    Both kinds of record live in the same database under prefixes of their own;
    [pools_stored] and [cdps_stored] relate it to the maps of the states that were
    saved. The JSON encodings are the [Codec] instances of [PoolJson]. *)
From S2P Require Import Prelude.
From S2P Require Import Text.
From S2P Require Import Common.
From S2P Require Import Pool.
From S2P Require Import KeyValue.
From S2P Require Import Table.
From S2P Require Import Indigo.
From S2P Require Import JsonString.
From S2P Require Import PoolJson.

(** ** Keys *)

Definition poolStateKeyPrefix : string := "oracle_pool_".
Definition cdpStateKeyPrefix : string := "oracle_cdp_".

Definition poolStateKey (network protocol poolId : string) : string :=
  poolStateKeyPrefix +:+ network +:+ String ":" (protocol +:+ String ":" poolId).
Definition cdpStateKey (network protocol cdpId : string) : string :=
  cdpStateKeyPrefix +:+ network +:+ String ":" (protocol +:+ String ":" cdpId).

(** [strings.SplitN(s, ":", 3)] *)
Definition SplitN3 (s : string) : list string :=
  match Cut ":" s with
  | None => [s]
  | Some (a, r) =>
      match Cut ":" r with
      | None => [a; r]
      | Some (b, c) => [a; b; c]
      end
  end.

(** The body that [ParsePoolStateKey] and [ParseCDPStateKey] share; [None] is the
    error. *)
Definition parse_key (prefix key : string) : option (string * string * string) :=
  if negb (String.prefix prefix key) then None
  else
    match SplitN3 (TrimPrefix key prefix) with
    | [p0; p1; p2] =>
        if bool_decide (p0 = "") || bool_decide (p1 = "") || bool_decide (p2 = "") then None
        else Some (p0, p1, p2)
    | _ => None
    end.

Definition ParsePoolStateKey (key : string) : option (string * string * string) :=
  parse_key poolStateKeyPrefix key.
Definition ParseCDPStateKey (key : string) : option (string * string * string) :=
  parse_key cdpStateKeyPrefix key.

Lemma SplitN3_join a b c :
  char_free ":" a = true -> char_free ":" b = true ->
  SplitN3 (a +:+ String ":" (b +:+ String ":" c)) = [a; b; c].
Proof. intros Ha Hb. unfold SplitN3. by rewrite !Cut_app. Qed.

Lemma SplitN3_spec s a b c :
  SplitN3 s = [a; b; c] ->
  s = a +:+ String ":" (b +:+ String ":" c) /\ char_free ":" a = true /\ char_free ":" b = true.
Proof.
  unfold SplitN3. destruct (Cut ":" s) as [[x r]|] eqn:E; [|done].
  destruct (Cut ":" r) as [[y z]|] eqn:E'; [|done]. intros [= -> -> ->].
  apply Cut_spec in E as [-> Ha]. apply Cut_spec in E' as [-> Hb]. done.
Qed.

(** The parts of a key that can be read back. *)
Definition readable (network protocol id : string) : Prop :=
  network <> "" /\ protocol <> "" /\ id <> "" /\
  char_free ":" network = true /\ char_free ":" protocol = true.

Lemma parse_key_iff prefix key network protocol id :
  parse_key prefix key = Some (network, protocol, id) <->
  key = prefix +:+ network +:+ String ":" (protocol +:+ String ":" id) /\
  readable network protocol id.
Proof.
  unfold parse_key, readable. split.
  - destruct (String.prefix prefix key) eqn:Hp; [|done]. apply prefix_strip in Hp as [r ->].
    rewrite TrimPrefix_app. cbn [negb].
    destruct (SplitN3 r) as [|p0 [|p1 [|p2 [|]]]] eqn:E; try done.
    apply SplitN3_spec in E as (-> & Ha & Hb).
    destruct (bool_decide (p0 = "")) eqn:E0; [done|]. destruct (bool_decide (p1 = "")) eqn:E1; [done|].
    destruct (bool_decide (p2 = "")) eqn:E2; [done|]. intros [= -> -> ->]. bool_prop. done.
  - intros (-> & Hn & Hpr & Hi & Ha & Hb). rewrite prefix_app, TrimPrefix_app. cbn [negb].
    rewrite SplitN3_join by done. by rewrite !bool_decide_eq_false_2.
Qed.

(** The keys of pool states can be read back: [ParsePoolStateKey] returns a
    network, a protocol and an identifier exactly for the keys that
    [poolStateKey] builds from three non-empty parts of which the first two have
    no colon (the identifier may have any), and it returns those parts. *)
Theorem ParsePoolStateKey_inverts key network protocol poolId :
  ParsePoolStateKey key = Some (network, protocol, poolId) <->
  key = poolStateKey network protocol poolId /\ readable network protocol poolId.
Proof. apply parse_key_iff. Qed.

Lemma ParseCDPStateKey_inverts key network protocol cdpId :
  ParseCDPStateKey key = Some (network, protocol, cdpId) <->
  key = cdpStateKey network protocol cdpId /\ readable network protocol cdpId.
Proof. apply parse_key_iff. Qed.

Example ParsePoolStateKey_colons :
  ParsePoolStateKey "oracle_pool_mainnet:minswap-v2:a:b" = Some ("mainnet", "minswap-v2", "a:b") /\
  ParsePoolStateKey "oracle_pool_mainnet::a" = None /\ ParsePoolStateKey "oracle_cdp_a:b:c" = None.
Proof. done. Qed.

(** ** Records *)

(** [PoolState{}] and [CDPState{}] *)
Definition zeroPool : PoolState :=
  mkPoolState "" "" "" (mkAssetAmount Lovelace 0) (mkAssetAmount Lovelace 0) 0 0 0 "" "" 0 0 0 false.
Definition zeroCDP : CDPState :=
  mkCDPState "" "" "" "" false "" 0 0 "" "" 0 0 0 0 0 0 0 0.

Definition pool_key_of (s : PoolState) : string :=
  poolStateKey (ps_Network s) (ps_Protocol s) (ps_PoolId s).
Definition cdp_key_of (s : CDPState) : string :=
  cdpStateKey (cs_Network s) (cs_Protocol s) (cs_CDPId s).

Section Storage.
Context `{OrderedKV} `{!Codec PoolState} `{!Codec CDPState} `{!Target zeroPool} `{!Target zeroCDP}.

Definition SavePoolState (state : PoolState) (d : db) : db * result record_error unit :=
  save_record pool_key_of state d.
Definition LoadAllPoolStates (d : db) : list PoolState :=
  load_prefix zeroPool poolStateKeyPrefix d.
Definition SaveCDPState (state : CDPState) (d : db) : db * result record_error unit :=
  save_record cdp_key_of state d.
Definition LoadAllCDPStates (d : db) : list CDPState :=
  load_prefix zeroCDP cdpStateKeyPrefix d.
Definition LoadCDPState (network protocol cdpId : string) (d : db) : result record_error CDPState :=
  load_record zeroCDP (cdpStateKey network protocol cdpId) d.
Definition LoadPoolState (network protocol poolId : string) (d : db) : result record_error PoolState :=
  load_record zeroPool (poolStateKey network protocol poolId) d.

(** Malformed keys and payloads are logged and skipped. *)
Definition protocol_record (protocol : string) (d : db) (key : string) : option PoolState :=
  match ParsePoolStateKey key with
  | None => None
  | Some (_, keyProtocol, _) =>
      if negb (bool_decide (keyProtocol = protocol)) then None else record_at zeroPool d key
  end.
Definition LoadPoolStatesByProtocol (protocol : string) (d : db) : list PoolState :=
  omap (protocol_record protocol d) (Keys poolStateKeyPrefix d).

Definition DeletePoolState (state : PoolState) (d : db) : db * result record_error unit :=
  delete_record (pool_key_of state) d.
Definition DeleteCDPState (network protocol cdpId : string) (d : db) : db * result record_error unit :=
  delete_record (cdpStateKey network protocol cdpId) d.

Definition pools_stored : db -> gmap string PoolState -> Prop := table poolStateKeyPrefix pool_key_of.
Definition cdps_stored : db -> gmap string CDPState -> Prop := table cdpStateKeyPrefix cdp_key_of.

Lemma pool_key_prefix s : String.prefix poolStateKeyPrefix (pool_key_of s) = true.
Proof. apply prefix_app. Qed.
Lemma cdp_key_prefix s : String.prefix cdpStateKeyPrefix (cdp_key_of s) = true.
Proof. apply prefix_app. Qed.

Lemma prefix_apart k : String.prefix poolStateKeyPrefix k = true ->
  String.prefix cdpStateKeyPrefix k = false.
Proof. intros [r ->]%prefix_strip. done. Qed.

Lemma prefix_neq p k k' : String.prefix p k = true -> String.prefix p k' = false -> k <> k'.
Proof. intros H1 H2 ->. congruence. Qed.

(** A write to a key that has another prefix leaves the table alone. *)
Lemma table_Set_other {A} `{!Codec A} pfx (key_of : A -> string) d M k v :
  String.prefix pfx k = false -> table pfx key_of d M -> table pfx key_of (Set_ k v d) M.
Proof.
  intros Hk. apply table_frame. intros k' Hk'. apply Get_Set_ne. intros ->. congruence.
Qed.
Lemma table_Delete_other {A} `{!Codec A} pfx (key_of : A -> string) d M k :
  String.prefix pfx k = false -> table pfx key_of d M -> table pfx key_of (Delete k d) M.
Proof.
  intros Hk. apply table_frame. intros k' Hk'. apply Get_Delete_ne. intros ->. congruence.
Qed.

(** Listing the pools of a protocol returns each stored state of that protocol
    exactly once and nothing else, provided every state was stored under a
    readable key. *)
Theorem LoadPoolStatesByProtocol_lists protocol d M :
  pools_stored d M ->
  (forall k s, M !! k = Some s -> readable (ps_Network s) (ps_Protocol s) (ps_PoolId s)) ->
  LoadPoolStatesByProtocol protocol d ≡ₚ
    filter (fun s => ps_Protocol s = protocol) (map_to_list M).*2.
Proof.
  intros Ht Hr. unfold LoadPoolStatesByProtocol.
  rewrite (Keys_rows poolStateKeyPrefix pool_key_of zeroPool d M) by (done || apply prefix_refl).
  rewrite map_filter_id by (intros k s Hs; by destruct (tb_rows _ _ _ _ Ht k s Hs) as (_ & ? & _)).
  assert (forall k s, (k, s) ∈ map_to_list M ->
    protocol_record protocol d k = if decide (ps_Protocol s = protocol) then Some s else None) as Hrow.
  { intros k s Hs%elem_of_map_to_list. unfold protocol_record.
    pose proof (proj1 (tb_rows _ _ _ _ Ht k s Hs)) as Hk.
    rewrite (proj2 (parse_key_iff poolStateKeyPrefix k _ _ _) (conj Hk (Hr k s Hs)) : ParsePoolStateKey k = _).
    rewrite (record_at_row _ _ zeroPool d M k s Ht Hs).
    by repeat case_decide; cbn; destruct (bool_decide_reflect (ps_Protocol s = protocol)). }
  induction (map_to_list M) as [|[k s] l IH]; [done|].
  cbn [fmap list_fmap fst snd omap list_omap]. rewrite filter_cons.
  rewrite (Hrow k s) by left.
  assert (omap (protocol_record protocol d) l.*1 ≡ₚ filter (fun s => ps_Protocol s = protocol) l.*2)
    as IH' by (apply IH; intros; apply Hrow; by right).
  case_decide; by rewrite <- IH'.
Qed.
End Storage.

(** ** A concrete run, on the JSON encodings *)

#[local] Existing Instances pool_json cdp_json.

Definition stored_pool (protocol id : string) : PoolState :=
  mkPoolState id "mainnet" protocol (mkAssetAmount Lovelace 5) (mkAssetAmount sample_token 6)
    997 1000 40 "b" "t" 0 1 1 false.

Lemma stored_pool_faithful protocol id :
  all_chars ascii_byte protocol = true -> all_chars ascii_byte id = true -> faithful (stored_pool protocol id).
Proof.
  intros Hp Hi. apply pool_json_faithful.
  split; [split; cbn; int_lia | cbn; unfold JsonRecord.MaxUint32; lia | by apply Utf8_ascii ..].
Qed.

Lemma LoadPoolStatesByProtocol_lists_witness :
  LoadPoolStatesByProtocol "cswap"
    (SavePoolState (stored_pool "vyfi" "p2") (SavePoolState (stored_pool "cswap" "p1") ∅).1).1 ≡ₚ
  [stored_pool "cswap" "p1"].
Proof.
  set (p1 := stored_pool "cswap" "p1"). set (p2 := stored_pool "vyfi" "p2").
  assert (pools_stored (∅ : gmap string string) ∅) as H0 by (by apply table_empty).
  destruct (table_save _ pool_key_of _ _ p1 (stored_pool_faithful "cswap" "p1" eq_refl eq_refl)
    ltac:(eexists; vm_compute; reflexivity)
    (pool_key_prefix p1) H0) as (d1 & E1 & H1).
  destruct (table_save _ pool_key_of _ _ p2 (stored_pool_faithful "vyfi" "p2" eq_refl eq_refl)
    ltac:(eexists; vm_compute; reflexivity)
    (pool_key_prefix p2) H1) as (d2 & E2 & H2).
  unfold SavePoolState. change (save_record pool_key_of p1 ∅).1 with
    (save_record pool_key_of p1 (∅ : gmap string string)).1. rewrite E1. cbn [fst].
  rewrite E2. cbn [fst].
  etransitivity.
  - apply (LoadPoolStatesByProtocol_lists "cswap" d2 _ H2). clear E1 E2. intros k s Hs.
    apply lookup_insert_Some in Hs as [[_ <-]|[_ Hs]]; [by vm_compute|].
    apply lookup_insert_Some in Hs as [[_ <-]|[_ Hs]]; [by vm_compute | done].
  - vm_compute. reflexivity.
Defined.
