(* ===== verification/ActivityStorage.v ===== *)
(** * ActivityStorage: the durable form of the swap-activity tracker
    ([internal/oracle/activity_storage.go]).

    Each confirmed swap is a record whose key starts with its zero-padded slot, so
    that iterators visit the swaps in slot order; one more record holds the window
    and the latest slot. Old swaps are pruned, and rolled-back swaps removed, in
    batches that fit a transaction of the database. The theorems relate the
    database to the complete log of the swaps that were saved and not rolled back.

    The budget of a transaction and the digest of a pool's name are parameters. *)
From S2P Require Import Prelude.
From S2P Require Import Text.
From S2P Require Import Common.
From S2P Require Import Pool.
From S2P Require Import Activity.
From S2P Require Import ActivityRestart.
From S2P Require Import KeyValue.
From S2P Require Import Table.
From S2P Require Import Indigo.
From S2P Require Import OracleStorage.
From S2P Require Import JsonString.
From S2P Require Import Json.
From S2P Require Import JsonRecord.
From S2P Require Import PoolJson.

Definition activityKeyPrefix : string := "oracle_activity_swap_".
Definition activityMetaKey : string := "oracle_activity_meta".
Definition activityDeleteEntryOverhead : Z := 12.

Record activityMetadata := mkMeta {
  am_WindowSlots : Z;
  am_LatestSlot : Z;
}.

Inductive storage_error :=
| ErrNilPoolState
| ErrZeroWindow
| ErrMarshalRecord
| ErrUnmarshalRecord
| ErrSwapMismatch
| ErrWindowMismatch (persisted requested : Z)
| ErrSwapsWithoutMetadata
| ErrZeroWindowMetadata
| ErrInvalidActivityKey (key : string).

(** The encodings of the records of this storage: numbers can always be encoded,
    swaps hold nothing that cannot, and a swap of a pool that survives its encoding
    survives its own. *)
Class ActivityCodecs := {
  pool_codec :: Codec PoolState;
  cdp_codec :: Codec CDPState;
  swap_codec :: Codec SwapTransition;
  meta_codec :: Codec activityMetadata;
  swap_total : forall s : SwapTransition, is_Some (Marshal s);
  meta_total : forall m : activityMetadata, is_Some (Marshal m);
  meta_faithful : forall w l, is_u64 w -> is_u64 l -> faithful (mkMeta w l);
  swap_faithful : forall (p : PoolState) (s : SwapTransition), faithful p -> wf_swap s ->
    sw_PoolID s = ps_PoolId p -> sw_Network s = ps_Network p -> sw_Protocol s = ps_Protocol p ->
    sw_BlockHash s = ps_BlockHash p -> sw_TxHash s = ps_TxHash p -> sw_TxIndex s = ps_TxIndex p ->
    sw_Slot s = ps_Slot p -> faithful s;
  pool_target :: Target zeroPool;
  cdp_target :: Target zeroCDP;
  swap_target :: Target zeroSwap;
  meta_target : forall m : activityMetadata, target m;
}.

Definition nul : ascii := ascii_of_N 0.

Definition activitySlotFromKey (key : string) : result storage_error Z :=
  match Cut ":" (TrimPrefix key activityKeyPrefix) with
  | None => Err (ErrInvalidActivityKey key)
  | Some (slotText, _) =>
      if negb (Nat.eqb (String.length slotText) 20) then Err (ErrInvalidActivityKey key)
      else
        match ParseUint slotText with
        | None => Err (ErrInvalidActivityKey key)
        | Some slot => Ok slot
        end
  end.

(** Sorts above every activity key. *)
Definition activityKeyReverseSeek : string := activityKeyPrefix +:+ String (ascii_of_N 255) EmptyString.

Definition entry_size (key : string) : Z := Z.of_nat (String.length key) + activityDeleteEntryOverhead.

(** What one transaction may delete, of the limits of the database *)
Definition activityDeleteBudget (MaxBatchCount MaxBatchSize : Z) : Z * Z :=
  (Z.quot MaxBatchCount 2, Z.quot MaxBatchSize 2).

Section Storage.
Context `{OrderedKV} `{!ActivityCodecs}.
(** [crypto/sha256.Sum256] *)
Context (Sum256 : string -> list byte).
(** The numbers of [activityDeleteBudget] *)
Context (maxCount maxSize : Z).

Definition poolActivityKey (swap : SwapTransition) : string :=
  let identity := Sum256 (sw_Network swap +:+ String nul (sw_Protocol swap +:+ String nul (sw_PoolID swap))) in
  activityKeyPrefix +:+ Format020d (sw_Slot swap) +:+ String ":" (sw_TxHash swap +:+
    String ":" (FormatUint (sw_TxIndex swap) +:+ String ":" (hex_encode identity))).

(** The keys that [pruneActivityKeys] collects before it stops. *)
Fixpoint collect_pruned (cutoff : Z) (it : list string) (count size : Z)
  : result storage_error (list string) :=
  match it with
  | [] => Ok []
  | key :: it' =>
      slot ← activitySlotFromKey key;
      if cutoff <=? slot then Ok []
      else if (maxCount <? count + 1) || (maxSize <? size + entry_size key) then Ok []
      else
        keys ← collect_pruned cutoff it' (count + 1) (size + entry_size key);
        Ok (key :: keys)
  end.

Definition pruneActivityKeys (cutoff : Z) (d : db) : result storage_error db :=
  if cutoff =? 0 then Ok d
  else
    keys ← collect_pruned cutoff (Keys activityKeyPrefix d) 0 0;
    Ok (delete_all keys d).

Definition SavePoolStateAndActivity (state : option PoolState) (swap : option SwapTransition)
    (windowSlots : Z) (d : db) : db * result storage_error unit :=
  match state with
  | None => (d, Err ErrNilPoolState)
  | Some state =>
      if windowSlots =? 0 then (d, Err ErrZeroWindow)
      else
        match Marshal state with
        | None => (d, Err ErrMarshalRecord)
        | Some poolData =>
            match
              match swap with
              | None => Ok None
              | Some s =>
                  if negb (bool_decide (sw_Network s = ps_Network state))
                     || negb (bool_decide (sw_Protocol s = ps_Protocol state))
                     || negb (bool_decide (sw_PoolID s = ps_PoolId state))
                     || negb (sw_Slot s =? ps_Slot state)
                  then Err ErrSwapMismatch
                  else match Marshal s with
                       | None => Err ErrMarshalRecord
                       | Some swapData => Ok (Some (poolActivityKey s, swapData))
                       end
              end
            with
            | Err e => (d, Err e)
            | Ok swapEntry =>
                Update (fun d =>
                  let meta := mkMeta windowSlots (ps_Slot state) in
                  meta ←
                    match Get d activityMetaKey with
                    | None => Ok meta
                    | Some value =>
                        match Unmarshal value meta with
                        | None => Err ErrUnmarshalRecord
                        | Some meta =>
                            if negb (am_WindowSlots meta =? windowSlots)
                            then Err (ErrWindowMismatch (am_WindowSlots meta) windowSlots)
                            else if am_LatestSlot meta <? ps_Slot state
                            then Ok (mkMeta (am_WindowSlots meta) (ps_Slot state))
                            else Ok meta
                        end
                    end;
                  match Marshal meta with
                  | None => Err ErrMarshalRecord
                  | Some metaData =>
                      let d := Set_ (pool_key_of state) poolData d in
                      let d := match swapEntry with
                               | Some (swapKey, swapData) => Set_ swapKey swapData d
                               | None => d
                               end in
                      let d := Set_ activityMetaKey metaData d in
                      let cutoff := if windowSlots <? am_LatestSlot meta
                                    then am_LatestSlot meta - windowSlots else 0 in
                      pruneActivityKeys cutoff d
                  end) d
            end
        end
  end.

(** The loop of [LoadActivityState] over the stored swaps. *)
Fixpoint load_swaps (it : list string) (d : db) : result storage_error (list SwapTransition) :=
  match it with
  | [] => Ok []
  | key :: it' =>
      _ ← activitySlotFromKey key;
      match Get d key ≫= fun value => Unmarshal value zeroSwap with
      | None => Err ErrUnmarshalRecord
      | Some swap => rest ← load_swaps it' d; Ok (swap :: rest)
      end
  end.

Definition LoadActivityState (d : db) : result storage_error ActivityState :=
  match Get d activityMetaKey with
  | None =>
      match Keys activityKeyPrefix d with
      | [] => Ok (mkActivityState 0 0 [])
      | _ => Err ErrSwapsWithoutMetadata
      end
  | Some value =>
      match Unmarshal value (mkMeta 0 0) with
      | None => Err ErrUnmarshalRecord
      | Some meta =>
          if am_WindowSlots meta =? 0 then Err ErrZeroWindowMetadata
          else
            swaps ← load_swaps (Keys activityKeyPrefix d) d;
            Ok (mkActivityState (am_WindowSlots meta) (am_LatestSlot meta) swaps)
      end
  end.

(** The loop of [rolledBackActivityKeys]: the keys to delete, the lowest slot
    collected, and whether nothing at or after the slot remains. *)
Fixpoint collect_rolled_back (slot : Z) (it : list string) (keys : list string) (lowest count size : Z)
  : result storage_error (list string * Z * bool) :=
  match it with
  | [] => Ok (keys, lowest, true)
  | key :: it' =>
      keySlot ← activitySlotFromKey key;
      if keySlot <? slot then Ok (keys, lowest, true)
      else if negb (Nat.eqb (length keys) 0) && negb (keySlot =? lowest)
              && ((maxCount <? count + 1) || (maxSize <? size + entry_size key))
      then Ok (keys, lowest, false)
      else collect_rolled_back slot it' (keys ++ [key]) keySlot (count + 1) (size + entry_size key)
  end.

Definition rolledBackActivityKeys (slot : Z) (d : db) : result storage_error (list string * Z * bool) :=
  collect_rolled_back slot (ReverseKeys activityKeyPrefix activityKeyReverseSeek d) [] slot 0 0.

Definition rewindActivityMeta (firstInvalid : Z) (d : db) : result storage_error db :=
  match Get d activityMetaKey with
  | None => Ok d
  | Some value =>
      match Unmarshal value (mkMeta 0 0) with
      | None => Err ErrUnmarshalRecord
      | Some meta =>
          let latest := if 0 <? firstInvalid then firstInvalid - 1 else 0 in
          if am_LatestSlot meta <=? latest then Ok d
          else
            match Marshal (mkMeta (am_WindowSlots meta) latest) with
            | None => Err ErrMarshalRecord
            | Some data => Ok (Set_ activityMetaKey data d)
            end
      end
  end.

(** One transaction of a rollback; it reports whether the rollback is complete. *)
Definition rollbackActivityBatch (slot : Z) (d : db) : db * result storage_error bool :=
  match
    '(keys, lowest, done) ← rolledBackActivityKeys slot d;
    let firstInvalid := if done : bool then slot else lowest in
    d' ← rewindActivityMeta firstInvalid d;
    Ok (delete_all keys d', done)
  with
  | Ok (d', exhausted) => (d', Ok exhausted)
  | Err e => (d, Err e)
  end.

(** The loop of [RollbackActivity]; [None] when the fuel runs out. *)
Fixpoint RollbackActivity (fuel : nat) (slot : Z) (d : db) : option (db * result storage_error unit) :=
  match fuel with
  | O => None
  | S fuel =>
      match rollbackActivityBatch slot d with
      | (d', Err e) => Some (d', Err e)
      | (d', Ok true) => Some (d', Ok tt)
      | (d', Ok false) => RollbackActivity fuel slot d'
      end
  end.
End Storage.

(** ** Keys: the order of the keys is the order of the slots *)
Section Keys.
Context (Sum256 : string -> list byte).

Lemma activity_key_prefix s : String.prefix activityKeyPrefix (poolActivityKey Sum256 s) = true.
Proof. apply prefix_app. Qed.

Lemma activitySlotFromKey_key s :
  is_u64 (sw_Slot s) -> activitySlotFromKey (poolActivityKey Sum256 s) = Ok (sw_Slot s).
Proof.
  intros Hs. unfold activitySlotFromKey, poolActivityKey. rewrite TrimPrefix_app.
  rewrite Cut_app by (by apply char_free_fixed). unfold Format020d at 1. rewrite length_fixed. cbn [Nat.eqb negb].
  by rewrite ParseUint_Format020d.
Qed.

Lemma activity_key_order s s' :
  is_u64 (sw_Slot s) -> is_u64 (sw_Slot s') -> sw_Slot s < sw_Slot s' ->
  Prelude.ltb (poolActivityKey Sum256 s) (poolActivityKey Sum256 s') = true.
Proof. intros. unfold poolActivityKey. cbv zeta. rewrite ltb_app. by apply Format020d_order. Qed.

Lemma activity_key_sorted s s' :
  is_u64 (sw_Slot s) -> is_u64 (sw_Slot s') ->
  Prelude.ltb (poolActivityKey Sum256 s) (poolActivityKey Sum256 s') = true -> sw_Slot s <= sw_Slot s'.
Proof.
  intros Hs Hs' Hlt. destruct (Z.le_gt_cases (sw_Slot s) (sw_Slot s')) as [|Hgt]; [done|].
  pose proof (ltb_asym _ _ (activity_key_order s' s Hs' Hs Hgt)). congruence.
Qed.

Lemma activity_key_below_seek s :
  Prelude.leb (poolActivityKey Sum256 s) activityKeyReverseSeek = true.
Proof.
  unfold Prelude.leb, poolActivityKey, activityKeyReverseSeek. cbv zeta. rewrite ltb_app. apply negb_true_iff.
  unfold Format020d. cbn [fixed].
  change (String ?c ?x +:+ ?y) with (String c (x +:+ y)).
  rewrite ltb_String, N_of_digit by apply digit_bounds.
  pose proof (digit_bounds (sw_Slot s / 10 ^ Z.of_nat 19)).
  change (N_of_ascii (ascii_of_N 255)) with 255%N.
  rewrite (proj2 (N.ltb_ge _ _)), (proj2 (N.eqb_neq _ _)) by lia. done.
Qed.

(** Two swaps with the same identity have the same key. *)
Lemma activity_key_identity s s' :
  swap_identity s = swap_identity s' -> poolActivityKey Sum256 s = poolActivityKey Sum256 s'.
Proof. unfold swap_identity, poolActivityKey. by intros [= -> -> -> -> -> ->]. Qed.
End Keys.

Lemma activity_meta_apart : String.prefix activityKeyPrefix activityMetaKey = false.
Proof. done. Qed.
Lemma pool_key_apart s : String.prefix activityKeyPrefix (pool_key_of s) = false.
Proof. done. Qed.

(** ** What the database holds *)
Section Stored.
Context `{OrderedKV} `{!ActivityCodecs} (Sum256 : string -> list byte) (maxCount maxSize : Z).
Abbreviation key := (poolActivityKey Sum256).

(** A swap as the tracker records it. *)
Record good_swap (s : SwapTransition) : Prop := {
  gs_slot : is_u64 (sw_Slot s);
  gs_faithful : faithful s;
  gs_clone : cloneSwapTransition s = s;
  gs_ids : valid_ids s;
  gs_wf : wf_swap s;
}.

Definition rows (d : db) : list SwapTransition := load_prefix zeroSwap activityKeyPrefix d.

Record swaps_stored (d : db) (M : gmap string SwapTransition) : Prop := {
  st_table : table activityKeyPrefix key d M;
  st_slot : forall k s, M !! k = Some s -> is_u64 (sw_Slot s);
}.

Lemma elem_of_rows d M s : swaps_stored d M -> s ∈ rows d <-> M !! key s = Some s.
Proof. intros [Ht _]. by apply elem_of_load. Qed.

Lemma rows_slot d M : swaps_stored d M -> Forall (fun s => is_u64 (sw_Slot s)) (rows d).
Proof.
  intros Hst. apply Forall_forall. intros s Hs. rewrite (elem_of_rows d M s Hst) in Hs.
  by apply (st_slot _ _ Hst _ _ Hs).
Qed.

Lemma Keys_of_rows d M : swaps_stored d M -> Keys activityKeyPrefix d = key <$> rows d.
Proof. intros [Ht _]. by apply (Keys_load _ _ _ d M). Qed.

Lemma NoDup_row_keys d M : swaps_stored d M -> NoDup (key <$> rows d).
Proof. intros Hst. rewrite <- (Keys_of_rows d M) by done. apply NoDup_Keys. Qed.

Lemma rows_sorted d M : swaps_stored d M -> StronglySorted slot_le (rows d).
Proof.
  intros Hst. pose proof (Keys_sorted activityKeyPrefix d) as Hs.
  rewrite (Keys_of_rows d M Hst) in Hs. pose proof (rows_slot d M Hst) as Hf.
  induction (rows d) as [|s l IH]; [constructor|]. cbn in Hs.
  apply Forall_cons in Hf as [Hf Hfl]. apply StronglySorted_inv in Hs as [Hs Hx].
  constructor; [by apply IH|]. rewrite Forall_forall in Hx. rewrite Forall_forall in Hfl. apply Forall_forall. intros s' Hs'.
  apply (activity_key_sorted Sum256); [done | by apply Hfl |]. apply Hx. by apply list_elem_of_fmap_2.
Qed.

Lemma reverse_keys_of_rows d M :
  swaps_stored d M -> ReverseKeys activityKeyPrefix activityKeyReverseSeek d = key <$> reverse (rows d).
Proof.
  intros Hst. unfold ReverseKeys. rewrite (Keys_of_rows d M Hst), filter_all.
  - by rewrite fmap_reverse.
  - apply Forall_fmap, Forall_forall. intros s _. apply activity_key_below_seek.
Qed.

(** ** The loops, on keys that are well formed *)

Lemma collect_pruned_prefix cutoff l count size :
  Forall (fun s => is_u64 (sw_Slot s)) l ->
  exists l1 l2, l = l1 ++ l2 /\ Forall (fun s => sw_Slot s < cutoff) l1 /\
    collect_pruned maxCount maxSize cutoff (key <$> l) count size = Ok (key <$> l1).
Proof.
  intros Hl. revert count size. induction Hl as [|s l Hs _ IH]; intros count size.
  { by exists [], []. }
  cbn [fmap list_fmap collect_pruned]. rewrite activitySlotFromKey_key by done. cbn [mbind result_bind].
  destruct (Z.leb_spec cutoff (sw_Slot s)); [by exists [], (s :: l)|].
  destruct (_ || _); [by exists [], (s :: l)|].
  destruct (IH (count + 1) (size + entry_size (key s))) as (l1 & l2 & -> & Hl1 & ->).
  exists (s :: l1), l2. split_and!; [done | by constructor | done].
Qed.

Definition slot_ge (a b : SwapTransition) : Prop := sw_Slot b <= sw_Slot a.

(** On a descending list, the collected swaps are exactly those from [first] on. *)
Lemma collect_rolled_back_spec slot l keys lowest count size :
  Forall (fun s => is_u64 (sw_Slot s)) l -> StronglySorted slot_ge l ->
  (keys <> [] -> slot <= lowest /\ Forall (fun s => sw_Slot s <= lowest) l) ->
  exists l1 l2 lowest' done,
    collect_rolled_back maxCount maxSize slot (key <$> l) keys lowest count size =
      Ok (keys ++ (key <$> l1), lowest', done) /\
    l = l1 ++ l2 /\
    let first := if done : bool then slot else lowest' in
    Forall (fun s => first <= sw_Slot s) l1 /\ Forall (fun s => sw_Slot s < first) l2 /\
    (done = false -> slot <= lowest' /\ keys ++ (key <$> l1) <> [] /\
      (keys <> [] -> lowest' <= lowest)).
Proof.
  intros Hl Hs. revert keys lowest count size.
  induction Hs as [|s l Hsl IH Hge]; intros keys lowest count size Hk.
  { exists [], [], lowest, true. rewrite app_nil_r. split_and!; [done..| constructor | constructor | done]. }
  apply Forall_cons in Hl as [Hs Hl]. cbn [fmap list_fmap collect_rolled_back].
  rewrite activitySlotFromKey_key by done. cbn [mbind result_bind].
  destruct (Z.ltb_spec (sw_Slot s) slot) as [Hlt|Hle].
  { exists [], (s :: l), lowest, true. rewrite app_nil_r. split_and!; [done..| constructor | | done].
    constructor; [done|]. eapply Forall_impl; [exact Hge|]. unfold slot_ge. cbn. lia. }
  destruct (negb (Nat.eqb (length keys) 0) && negb (sw_Slot s =? lowest) && _) eqn:E.
  - bool_prop. assert (keys <> []) as Hne by (by destruct keys).
    destruct (Hk Hne) as [Hsl' Hfl]. apply Forall_cons in Hfl as [Hsl0 _].
    exists [], (s :: l), lowest, false. rewrite app_nil_r. split_and!; [done..| constructor | |].
    + constructor; [lia|]. eapply Forall_impl; [exact Hge|]. unfold slot_ge. cbn. lia.
    + intros _. split_and!; [lia | done | lia].
  - destruct (IH Hl (keys ++ [key s]) (sw_Slot s) (count + 1) (size + entry_size (key s)))
      as (l1 & l2 & lowest' & done & -> & -> & HA & HB & HC).
    { intros _. split; [done|]. eapply Forall_impl; [exact Hge|]. done. }
    exists (s :: l1), l2, lowest', done. rewrite <- app_assoc in *. cbn [fmap list_fmap app] in *.
    split_and!; [done | done | | done |].
    + constructor; [|done]. destruct done; [done|].
      apply HC; [done|]. by destruct keys.
    + intros Hd. destruct (HC Hd) as (Ha & Hb & Hc). split_and!; [done | done |].
      intros Hne. specialize (Hc ltac:(by destruct keys)).
      destruct (Hk Hne) as [_ Hfl]. apply Forall_cons in Hfl as [Hfl _]. lia.
Qed.
End Stored.

(** ** The history that the database stands for

    The specification keeps every swap that was saved and not rolled back, the
    latest slot, and the highest slot ever recorded. *)

Record history := mkHistory {
  h_log : list SwapTransition;
  h_latest : option Z;
  h_high : Z;
}.
Definition empty_history : history := mkHistory [] None 0.

Section History.
Context `{OrderedKV} `{!ActivityCodecs} (Sum256 : string -> list byte) (maxCount maxSize : Z).
Abbreviation key := (poolActivityKey Sum256).
Abbreviation batch := (rollbackActivityBatch maxCount maxSize).

(** A swap that is saved again replaces the one with its key. *)
Definition log_put (s : SwapTransition) (l : list SwapTransition) : list SwapTransition :=
  filter (fun s' => key s' <> key s) l ++ [s].

Definition history_save (state : PoolState) (swap : option SwapTransition) (h : history) : history :=
  let latest := Z.max (default 0 (h_latest h)) (ps_Slot state) in
  mkHistory (match swap with Some s => log_put s (h_log h) | None => h_log h end)
    (Some latest) (Z.max (h_high h) latest).

(** Everything from [first] on is rolled back. *)
Definition history_cut (first : Z) (h : history) : history :=
  mkHistory (filter (fun s => sw_Slot s < first) (h_log h))
    ((fun latest => Z.min latest (Z.max 0 (first - 1))) <$> h_latest h) (h_high h).

(** The first slot that one batch of a rollback removes. *)
Definition batch_first (slot : Z) (d : db) : Z :=
  match rolledBackActivityKeys maxCount maxSize slot d with
  | Ok (_, lowest, done) => if done : bool then slot else lowest
  | Err _ => slot
  end.

Inductive storage_op :=
| OpSave (state : PoolState) (swap : option SwapTransition)
| OpBatch (slot : Z).

(** One committed or failed transaction. *)
Definition storage_step (w : Z) (o : storage_op) (dh : db * history) : db * history :=
  let '(d, h) := dh in
  match o with
  | OpSave state swap =>
      let '(d', r) := SavePoolStateAndActivity Sum256 maxCount maxSize (Some state) swap w d in
      (d', if is_ok r then history_save state swap h else h)
  | OpBatch slot => ((batch slot d).1, history_cut (batch_first slot d) h)
  end.

Definition run_storage (w : Z) (ops : list storage_op) (d : db) : db * history :=
  foldl (fun dh o => storage_step w o dh) (d, empty_history) ops.

Definition good_op (o : storage_op) : Prop :=
  match o with
  | OpSave state swap => is_u64 (ps_Slot state) /\ if swap is Some s then good_swap s else True
  | OpBatch slot => is_u64 slot
  end.

(** What the database has to do with the history: the stored swaps are in the log,
    and all of the log that any window can reach is stored. *)
Record tracks (w : Z) (d : db) (h : history) (M : gmap string SwapTransition) : Prop := {
  tk_stored : swaps_stored Sum256 d M;
  tk_sound : forall k s, M !! k = Some s -> s ∈ h_log h;
  tk_complete : forall s, s ∈ h_log h -> cutoff_at w (h_high h) <= sw_Slot s -> M !! key s = Some s;
  tk_good : Forall (fun s => good_swap s /\ sw_Slot s <= default 0 (h_latest h)) (h_log h);
  tk_unique : NoDup (key <$> h_log h);
  tk_meta : Get d activityMetaKey = h_latest h ≫= fun latest => Marshal (mkMeta w latest);
  tk_latest : match h_latest h with
              | Some latest => is_u64 latest /\ latest <= h_high h
              | None => h_log h = [] /\ h_high h = 0
              end;
}.

Lemma tracks_empty w d :
  (forall k, String.prefix activityKeyPrefix k = true -> Get d k = None) ->
  Get d activityMetaKey = None -> tracks w d empty_history ∅.
Proof.
  intros Hd Hm. split; cbn; [| | | constructor | constructor | done | done].
  - split; [by apply table_empty|]. intros k s Hs. by rewrite lookup_empty in Hs.
  - intros k s Hs. by rewrite lookup_empty in Hs.
  - intros s Hs. by apply elem_of_nil in Hs.
Qed.

(** ** Reading the metadata *)

Lemma meta_decode w latest a0 :
  is_u64 w -> is_u64 latest ->
  Marshal (mkMeta w latest) ≫= (fun v => Unmarshal v a0) = Some (mkMeta w latest).
Proof.
  intros Hw Hl. destruct (meta_total (mkMeta w latest)) as [v Hv]. rewrite Hv. cbn.
  apply Unmarshal_Marshal; [apply meta_target | by apply meta_faithful | done].
Qed.

Lemma Get_meta w d h M a0 :
  is_u64 w -> tracks w d h M ->
  match h_latest h with
  | None => Get d activityMetaKey = None
  | Some latest => exists v, Get d activityMetaKey = Some v /\ Unmarshal v a0 = Some (mkMeta w latest)
  end.
Proof.
  intros Hw HT. pose proof (tk_meta _ _ _ _ HT) as Hm. pose proof (tk_latest _ _ _ _ HT) as Hl.
  destruct (h_latest h) as [latest|]; [|done]. cbn in Hm.
  destruct Hl as [Hl _]. pose proof (meta_decode w latest a0 Hw Hl) as Hd.
  destruct (Marshal (mkMeta w latest)) as [v|] eqn:E; [|done]. by exists v.
Qed.

(** ** Deleting stored swaps *)

Lemma stored_delete d M l1 l2 :
  swaps_stored Sum256 d M -> rows d ≡ₚ l1 ++ l2 ->
  exists M', swaps_stored Sum256 (delete_all (key <$> l1) d) M' /\
    (forall k s, M' !! k = Some s <-> M !! k = Some s /\ s ∈ l2).
Proof.
  intros Hst Hrows. exists (filter (fun kv => kv.1 ∉ (key <$> l1)) M).
  pose proof (NoDup_row_keys Sum256 d M Hst) as Hnd. rewrite Hrows, fmap_app in Hnd.
  apply NoDup_app in Hnd as (_ & Hdis & _).
  assert (forall k s, M !! k = Some s -> k = key s /\ (s ∈ l1 \/ s ∈ l2)) as Hrow.
  { intros k s Hs. pose proof (proj1 (tb_rows _ _ _ _ (st_table _ _ _ Hst) k s Hs)) as ->.
    split; [done|]. by rewrite <- elem_of_app, <- Hrows, (elem_of_rows Sum256 d M). }
  split.
  - split; [by apply table_delete_all, Hst|].
    intros k s [Hs _]%map_lookup_filter_Some. by eapply (st_slot _ _ _ Hst).
  - intros k s. rewrite map_lookup_filter_Some. split.
    + intros [Hs Hn]. split; [done|]. destruct (Hrow k s Hs) as [-> [Hin|]]; [|done].
      destruct Hn. cbn. by apply list_elem_of_fmap_2.
    + intros [Hs Hin]. split; [done|]. destruct (Hrow k s Hs) as [-> _]. cbn.
      intros Hk. apply (Hdis _ Hk). by apply list_elem_of_fmap_2.
Qed.

Lemma activity_keys_not_meta (l : list SwapTransition) : activityMetaKey ∉ (key <$> l).
Proof. intros (s & Hs & _)%list_elem_of_fmap. done. Qed.

Lemma Get_meta_delete_all (l : list SwapTransition) d : Get (delete_all (key <$> l) d) activityMetaKey = Get d activityMetaKey.
Proof. rewrite Get_delete_all. by rewrite decide_False by apply activity_keys_not_meta. Qed.

Lemma stored_Set_other d M k v :
  String.prefix activityKeyPrefix k = false -> swaps_stored Sum256 d M ->
  swaps_stored Sum256 (Set_ k v d) M.
Proof. intros Hk [Ht Hs]. split; [by apply table_Set_other | done]. Qed.

(** ** Pruning *)

Lemma prune_tracks w d h M cutoff :
  cutoff <= cutoff_at w (h_high h) -> tracks w d h M ->
  exists d' M', pruneActivityKeys maxCount maxSize cutoff d = Ok d' /\ tracks w d' h M' /\
    (forall k, String.prefix activityKeyPrefix k = false -> Get d' k = Get d k).
Proof.
  intros Hc HT. unfold pruneActivityKeys. destruct (cutoff =? 0).
  { exists d, M. done. }
  rewrite (Keys_of_rows Sum256 d M) by apply HT.
  destruct (collect_pruned_prefix Sum256 maxCount maxSize cutoff (rows d) 0 0)
    as (l1 & l2 & Hrows & Hl1 & ->); [eapply rows_slot; apply HT|]. cbn [mbind result_bind].
  destruct (stored_delete d M l1 l2) as (M' & Hst' & HM'); [apply HT | by rewrite Hrows|].
  exists (delete_all (key <$> l1) d), M'. split; [done|]. split.
  - split; try apply HT; [done | | |].
    + intros k s [Hs _]%HM'. by eapply (tk_sound _ _ _ _ HT).
    + intros s Hs Hcs. pose proof (tk_complete _ _ _ _ HT s Hs Hcs) as HM.
      apply HM'. split; [done|]. rewrite <- (elem_of_rows Sum256 d M), Hrows in HM by apply HT.
      apply elem_of_app in HM as [HM|HM]; [|done].
      rewrite Forall_forall in Hl1. specialize (Hl1 s HM). cbn in Hl1. lia.
    + rewrite Get_meta_delete_all. apply HT.
  - intros k Hk. rewrite Get_delete_all. rewrite decide_False; [done|].
    intros (s & -> & _)%list_elem_of_fmap. by rewrite activity_key_prefix in Hk.
Qed.
(** ** Saving *)

Lemma elem_of_log_put s s' l :
  s' ∈ log_put s l <-> (key s' <> key s /\ s' ∈ l) \/ s' = s.
Proof.
  unfold log_put. rewrite elem_of_app, list_elem_of_filter, list_elem_of_singleton. tauto.
Qed.

Lemma NoDup_log_put s l : NoDup (key <$> l) -> NoDup (key <$> log_put s l).
Proof.
  intros Hnd. unfold log_put. rewrite fmap_app. apply NoDup_app. split_and!.
  - eapply sublist_NoDup; [exact Hnd|]. apply fmap_sublist, sublist_filter.
  - intros k (s' & -> & [Hs _]%list_elem_of_filter)%list_elem_of_fmap Hk.
    apply list_elem_of_singleton in Hk. done.
  - apply NoDup_singleton.
Qed.

Lemma log_unique l s s' : NoDup (key <$> l) -> s ∈ l -> s' ∈ l -> key s = key s' -> s = s'.
Proof.
  intros Hnd [i Hi]%list_elem_of_lookup [j Hj]%list_elem_of_lookup Hk.
  assert (i = j) as ->; [|congruence].
  eapply (NoDup_lookup (key <$> l)); [done | |]; rewrite list_lookup_fmap.
  - rewrite Hi. done.
  - rewrite Hj. cbn. by rewrite Hk.
Qed.

(** The writes of a save, before the pruning. *)
Lemma save_writes_tracks w d h M state swap swapData metaData :
  is_u64 (ps_Slot state) -> tracks w d h M ->
  match swap with
  | Some s => good_swap s /\ sw_Slot s = ps_Slot state /\ Marshal s = Some swapData
  | None => True
  end ->
  let h' := history_save state swap h in
  Marshal (mkMeta w (default 0 (h_latest h'))) = Some metaData ->
  exists M', tracks w
    (Set_ activityMetaKey metaData
       (match swap with Some s => Set_ (key s) swapData d | None => d end)) h' M'.
Proof.
  intros Hslot HT Hswap h' Hmeta. destruct HT as [Hst Hsound Hcomplete Hgood Hun Hm Hl].
  set (latest := Z.max (default 0 (h_latest h)) (ps_Slot state)) in *.
  assert (is_u64 latest /\ h_high h <= h_high h' /\ latest <= h_high h' /\
    default 0 (h_latest h) <= latest) as (Hu & Hhigh & Hlatest & Hold).
  { subst h'. cbn. fold latest. destruct (h_latest h); cbn in *; subst latest; int_lia. }
  assert (forall s, cutoff_at w (h_high h') <= sw_Slot s -> cutoff_at w (h_high h) <= sw_Slot s) as Hcut.
  { intros s Hs. etrans; [|exact Hs]. unfold cutoff_at. go_cases; bool_prop; lia. }
  exists (match swap with Some s => <[key s := s]> M | None => M end).
  split; subst h'; cbn [h_log h_latest h_high history_save] in *; fold latest in Hmeta |- *.
  - apply stored_Set_other; [done|]. destruct swap as [s|]; [|done]. destruct Hswap as (Hs & _ & Hd).
    split; [apply table_Set; [done | apply Hs | apply activity_key_prefix | apply Hst]|].
    intros k s' [[_ <-]|[_ Hs']]%lookup_insert_Some; [apply Hs | by eapply (st_slot _ _ _ Hst)].
  - destruct swap as [s|]; [|done]. intros k s' [[_ <-]|[Hk Hs']]%lookup_insert_Some;
      apply elem_of_log_put; [by right | left]. split; [|by eapply Hsound].
    by rewrite <- (proj1 (tb_rows _ _ _ _ (st_table _ _ _ Hst) k s' Hs')).
  - intros s' Hs' Hc%Hcut. destruct swap as [s|]; [|by apply Hcomplete].
    apply elem_of_log_put in Hs' as [[Hk Hs']| ->]; [|by rewrite lookup_insert_eq].
    rewrite lookup_insert_ne by done. by apply Hcomplete.
  - assert (Forall (fun s => good_swap s /\ sw_Slot s <= latest) (h_log h)) as Hg.
    { eapply Forall_impl; [exact Hgood|]. cbn. intros s []. split; [done|lia]. }
    destruct swap as [s|]; [|done]. apply Forall_app.
    split; [by apply Forall_filter_sub|]. apply Forall_singleton. split; [apply Hswap|].
    destruct Hswap as (_ & -> & _). subst latest. cbn. lia.
  - destruct swap as [s|]; [by apply NoDup_log_put | done].
  - rewrite Get_Set_eq. cbn. done.
  - split; [done|]. cbn in Hlatest. fold latest in Hlatest. done.
Qed.

Lemma tracks_Set_other w d h M k v :
  String.prefix activityKeyPrefix k = false -> k <> activityMetaKey ->
  tracks w d h M -> tracks w (Set_ k v d) h M.
Proof.
  intros Hp Hk []. split; try done; [by apply stored_Set_other|]. by rewrite Get_Set_ne.
Qed.

Definition swap_matches (state : PoolState) (swap : option SwapTransition) : Prop :=
  match swap with
  | None => True
  | Some s => sw_Network s = ps_Network state /\ sw_Protocol s = ps_Protocol state /\
              sw_PoolID s = ps_PoolId state /\ sw_Slot s = ps_Slot state
  end.

Lemma save_tracks w d h M state swap d' r :
  0 < w -> is_u64 w -> is_u64 (ps_Slot state) -> (if swap is Some s then good_swap s else True) ->
  tracks w d h M ->
  SavePoolStateAndActivity Sum256 maxCount maxSize (Some state) swap w d = (d', r) ->
  match r with
  | Err _ => d' = d /\ ~ (is_Some (Marshal state) /\ swap_matches state swap)
  | Ok _ => (exists M', tracks w d' (history_save state swap h) M') /\
      (exists poolData, Marshal state = Some poolData /\ Get d' (pool_key_of state) = Some poolData) /\
      forall k, String.prefix activityKeyPrefix k = false -> k <> activityMetaKey ->
        k <> pool_key_of state -> Get d' k = Get d k
  end.
Proof.
  intros Hw Hwu Hslot Hgs HT. unfold SavePoolStateAndActivity.
  rewrite (proj2 (Z.eqb_neq w 0)) by lia.
  destruct (Marshal state) as [poolData|] eqn:Hpool.
  2:{ intros [= <- <-]. split; [done|]. intros [[? Hx] _]. done. }
  destruct (match swap with None => _ | Some s => _ end) as [swapEntry|e] eqn:Hentry.
  2:{ intros [= <- <-]. split; [done|]. intros [_ Hsm]. destruct swap as [s|]; [|done].
      destruct Hsm as (Hn & Hp & Hi & Hsl). destruct (swap_total s) as [v Hv].
      rewrite Hn, Hp, Hi, Hsl, !bool_decide_eq_true_2, Z.eqb_refl, Hv in Hentry by done. done. }
  pose proof (Get_meta w d h M (mkMeta w (ps_Slot state)) Hwu HT) as Hmeta.
  set (latest := Z.max (default 0 (h_latest h)) (ps_Slot state)).
  assert ((match Get d activityMetaKey with
    | None => Ok (mkMeta w (ps_Slot state))
    | Some value => match Unmarshal value (mkMeta w (ps_Slot state)) with
      | None => Err ErrUnmarshalRecord
      | Some meta =>
          if negb (am_WindowSlots meta =? w) then Err (ErrWindowMismatch (am_WindowSlots meta) w)
          else if am_LatestSlot meta <? ps_Slot state
          then Ok (mkMeta (am_WindowSlots meta) (ps_Slot state)) else Ok meta
      end end) = Ok (mkMeta w latest)) as Hread.
  { subst latest. destruct (h_latest h) as [l|].
    - destruct Hmeta as (v & -> & ->). cbn [am_WindowSlots am_LatestSlot default]. rewrite Z.eqb_refl.
      cbn [negb]. destruct (Z.ltb_spec l (ps_Slot state)); do 2 f_equal; cbn; lia.
    - rewrite Hmeta. do 2 f_equal. cbn. int_lia. }
  unfold Update. rewrite Hread. cbn [mbind result_bind am_LatestSlot].
  destruct (meta_total (mkMeta w latest)) as [metaData Hmd]. rewrite Hmd.
  set (d0 := Set_ (pool_key_of state) poolData d).
  assert (tracks w d0 h M) as HT0 by by apply tracks_Set_other.
  assert (exists swapData, (swapEntry = match swap with Some s => Some (key s, swapData) | None => None end) /\
    match swap with
    | Some s => good_swap s /\ sw_Slot s = ps_Slot state /\ Marshal s = Some swapData
    | None => True end) as (swapData & -> & Hswap).
  { destruct swap as [s|]; [|injection Hentry as <-; by exists ""].
    destruct (_ || _ || _ || _) eqn:E; [done|]. bool_prop.
    destruct (Marshal s) as [sd|]; [|done]. injection Hentry as <-. exists sd. split; [done|]. done. }
  destruct (save_writes_tracks w d0 h M state swap swapData metaData Hslot HT0 Hswap Hmd)
    as (M1 & HT1).
  assert (cutoff_at w latest <= cutoff_at w (h_high (history_save state swap h))) as Hcut
    by (apply cutoff_mono; [done|]; cbn; fold latest; lia).
  destruct (prune_tracks w _ _ _ _ Hcut HT1) as (d2 & M2 & Hp & HT2 & Hf).
  change (cutoff_at w latest) with (if w <? latest then latest - w else 0) in Hp.
  assert (forall s k, String.prefix activityKeyPrefix k = false -> key s <> k) as Hapart.
  { intros s k Hk <-. by rewrite activity_key_prefix in Hk. }
  intros Hres. assert (d2 = d' /\ Ok tt = r) as [<- <-] by (destruct swap; rewrite Hp in Hres; by simplify_eq).
  split; [by exists M2|]. split; [exists poolData; split; [done|] | intros k Hk Hkm Hkp].
  - rewrite Hf, Get_Set_ne by done. destruct swap as [s|]; [rewrite Get_Set_ne by by apply Hapart|];
      apply Get_Set_eq.
  - rewrite Hf, Get_Set_ne by done. destruct swap as [s|]; [rewrite Get_Set_ne by by apply Hapart|];
      by apply Get_Set_ne.
Qed.
(** ** Rolling back *)

Lemma NoDup_rows d M : swaps_stored Sum256 d M -> NoDup (rows d).
Proof. intros Hst. eapply NoDup_fmap_1. by eapply NoDup_row_keys. Qed.

Lemma rows_perm d M l :
  swaps_stored Sum256 d M -> NoDup l -> (forall s, s ∈ l <-> M !! key s = Some s) -> rows d ≡ₚ l.
Proof.
  intros Hst Hnd Hl. apply NoDup_Permutation; [by eapply NoDup_rows | done |].
  intros s. by rewrite Hl, (elem_of_rows Sum256 d M).
Qed.

Lemma rewind_tracks w d h M first :
  is_u64 w -> 0 <= first -> tracks w d h M ->
  exists d', rewindActivityMeta first d = Ok d' /\ swaps_stored Sum256 d' M /\
    Get d' activityMetaKey = h_latest (history_cut first h) ≫= (fun latest => Marshal (mkMeta w latest)) /\
    (forall k, k <> activityMetaKey -> Get d' k = Get d k).
Proof.
  intros Hw Hf HT. unfold rewindActivityMeta. cbn [history_cut h_latest].
  pose proof (Get_meta w d h M (mkMeta 0 0) Hw HT) as Hm.
  pose proof (tk_meta _ _ _ _ HT) as Hraw.
  destruct (h_latest h) as [latest|] eqn:E.
  2:{ rewrite Hm. exists d. split_and!; [done | apply HT | done | done]. }
  destruct Hm as (v & Hg & Hv). rewrite Hg, Hv. cbn [am_LatestSlot am_WindowSlots fmap option_fmap option_map].
  assert ((if 0 <? first then first - 1 else 0) = Z.max 0 (first - 1)) as ->
    by (destruct (Z.ltb_spec 0 first); lia).
  destruct (Z.leb_spec latest (Z.max 0 (first - 1))).
  - exists d. rewrite Z.min_l by done. split_and!; [done | apply HT | by rewrite Hraw | done].
  - rewrite Z.min_r by lia. destruct (meta_total (mkMeta w (Z.max 0 (first - 1)))) as [v' Hv'].
    rewrite Hv'. eexists. split; [done|]. split_and!.
    + apply stored_Set_other; [done | apply HT].
    + cbn. by rewrite Get_Set_eq.
    + intros k Hk. by apply Get_Set_ne.
Qed.

Lemma batch_tracks w d h M slot :
  is_u64 w -> is_u64 slot -> tracks w d h M ->
  exists d' exhausted, batch slot d = (d', Ok exhausted) /\
    slot <= batch_first slot d /\ (exhausted = true -> batch_first slot d = slot) /\
    (exists M', tracks w d' (history_cut (batch_first slot d) h) M') /\
    (forall s, s ∈ rows d' <-> s ∈ rows d /\ sw_Slot s < batch_first slot d) /\
    (exhausted = false -> (length (rows d') < length (rows d))%nat) /\
    (forall k, String.prefix activityKeyPrefix k = false -> k <> activityMetaKey -> Get d' k = Get d k).
Proof.
  intros Hw Hslot HT. pose proof (tk_stored _ _ _ _ HT) as Hst.
  destruct (collect_rolled_back_spec Sum256 maxCount maxSize slot (reverse (rows d)) [] slot 0 0)
    as (l1 & l2 & lowest & exhausted & Hres & Hl & HA & HB & HC).
  { rewrite reverse_Permutation. by eapply rows_slot. }
  { apply (StronglySorted_reverse slot_le). by eapply rows_sorted. }
  { done. }
  cbn [app] in *.
  assert (rolledBackActivityKeys maxCount maxSize slot d = Ok (key <$> l1, lowest, exhausted)) as Hkeys.
  { unfold rolledBackActivityKeys. by rewrite (reverse_keys_of_rows Sum256 d M). }
  unfold batch_first, rollbackActivityBatch. rewrite Hkeys. cbn [mbind result_bind].
  set (first := if exhausted then slot else lowest) in *.
  assert (slot <= first) as Hfirst by (subst first; destruct exhausted; [done | by apply HC]).
  destruct (rewind_tracks w d h M first Hw ltac:(int_lia) HT) as (d1 & -> & Hst1 & Hmeta1 & Hf1).
  cbn [mbind result_bind].
  assert (rows d ≡ₚ l1 ++ l2) as Hrows by (by rewrite <- Hl, reverse_Permutation).
  assert (NoDup (l1 ++ l2)) as Hnd by (rewrite <- Hrows; by eapply NoDup_rows).
  assert (rows d1 ≡ₚ l1 ++ l2) as Hrows1.
  { apply (rows_perm d1 M); [done..|]. intros s. by rewrite <- Hrows, (elem_of_rows Sum256 d M). }
  destruct (stored_delete d1 M l1 l2 Hst1 Hrows1) as (M' & Hst' & HM').
  assert (rows (delete_all (key <$> l1) d1) ≡ₚ l2) as Hrows'.
  { apply (rows_perm _ M'); [done | by apply NoDup_app in Hnd as (_ & _ & ?) |].
    intros s. rewrite HM', <- (elem_of_rows Sum256 d M), Hrows, elem_of_app by done. tauto. }
  rewrite Forall_forall in HA. rewrite Forall_forall in HB.
  exists (delete_all (key <$> l1) d1), exhausted. split_and!; [done | done | | | | |].
  - subst first. by destruct exhausted.
  - exists M'. destruct HT as [_ Hsound Hcomplete Hgood Hun _ Hlat].
    split; [done | | | | | by rewrite Get_meta_delete_all |]; cbn [history_cut h_log h_latest h_high] in *.
    + intros k s [Hs Hin]%HM'. apply list_elem_of_filter. split; [by apply HB | by eapply Hsound].
    + intros s [Hlt Hin]%list_elem_of_filter Hc. specialize (Hcomplete s Hin Hc).
      apply HM'. split; [done|].
      rewrite <- (elem_of_rows Sum256 d M), Hrows in Hcomplete by done.
      apply elem_of_app in Hcomplete as [Hin1|]; [|done].
      specialize (HA s Hin1). cbn in HA. lia.
    + apply Forall_forall. intros s [Hlt Hin]%list_elem_of_filter. rewrite Forall_forall in Hgood.
      destruct (Hgood s Hin) as [Hg Hle]. split; [done|]. destruct Hg as [Hgu _ _ _ _].
      destruct (h_latest h); cbn in *; int_lia.
    + eapply sublist_NoDup; [exact Hun|]. apply fmap_sublist, sublist_filter.
    + destruct (h_latest h) as [latest|]; cbn; [int_lia|]. by destruct Hlat as [-> ->].
  - intros s. rewrite Hrows', Hrows, elem_of_app. split.
    + intros Hs. split; [by right | by apply HB].
    + intros [[Hs|Hs] Hlt]; [|done]. specialize (HA s Hs). cbn in HA. lia.
  - intros Hex. destruct (HC Hex) as (_ & Hne & _). rewrite Hrows', Hrows, length_app.
    destruct l1; [done|]. cbn. lia.
  - intros k Hk Hkm. rewrite Get_delete_all, decide_False; [by apply Hf1|].
    intros (s & -> & _)%list_elem_of_fmap. by rewrite activity_key_prefix in Hk.
Qed.

(** ** Every committed state *)

Lemma step_tracks w o d h M :
  0 < w -> is_u64 w -> good_op o -> tracks w d h M ->
  exists M', tracks w (storage_step w o (d, h)).1 (storage_step w o (d, h)).2 M'.
Proof.
  intros Hw Hwu Ho HT. destruct o as [state swap|slot]; cbn [storage_step].
  - destruct (SavePoolStateAndActivity _ _ _ _ _ _ _) as [d' r] eqn:E.
    destruct Ho as [Hslot Hs]. pose proof (save_tracks w d h M state swap d' r Hw Hwu Hslot Hs HT E) as Hr.
    destruct r as [u|e]; cbn in *; [apply Hr | destruct Hr as [-> _]; by exists M].
  - destruct (batch_tracks w d h M slot Hwu Ho HT) as (d' & ex & E & _ & _ & HT' & _).
    cbn in *. by rewrite E.
Qed.

Lemma run_tracks w ops d :
  0 < w -> is_u64 w -> Forall good_op ops ->
  (forall k, String.prefix activityKeyPrefix k = true -> Get d k = None) ->
  Get d activityMetaKey = None ->
  exists M, tracks w (run_storage w ops d).1 (run_storage w ops d).2 M.
Proof.
  intros Hw Hwu Hops Hd Hm. unfold run_storage.
  assert (exists M, tracks w (d, empty_history).1 (d, empty_history).2 M) as HT
    by (exists ∅; by apply tracks_empty).
  revert HT. generalize (d, empty_history). induction Hops as [|o ops Ho _ IH]; intros [d1 h1] [M HM];
    [by exists M|]. cbn [foldl]. apply IH. cbn [fst snd] in HM. by eapply step_tracks.
Qed.

(** C4: whatever was saved and however many batches of rollbacks were committed,
    in any interleaving, the database never holds a swap above the latest slot it
    records, holds only swaps that were saved and not rolled back, and holds all
    of those that lie in the window of the highest slot ever recorded: pruning
    and interrupted rollbacks lose nothing that counts. *)
Theorem committed_states_track_history w ops d0 :
  0 < w -> is_u64 w -> Forall good_op ops ->
  (forall k, String.prefix activityKeyPrefix k = true -> Get d0 k = None) ->
  Get d0 activityMetaKey = None ->
  let '(d, h) := run_storage w ops d0 in
  (forall s, s ∈ rows d -> s ∈ h_log h /\
    exists latest, Get d activityMetaKey = Marshal (mkMeta w latest) /\ sw_Slot s <= latest) /\
  (forall s, s ∈ h_log h -> cutoff_at w (h_high h) <= sw_Slot s -> s ∈ rows d).
Proof.
  intros Hw Hwu Hops Hd Hm. destruct (run_tracks w ops d0 Hw Hwu Hops Hd Hm) as [M HT].
  destruct (run_storage w ops d0) as [d h]. cbn [fst snd] in HT.
  destruct HT as [Hst Hsound Hcomplete Hgood _ Hmeta Hlat]. split.
  - intros s Hs. rewrite (elem_of_rows Sum256 d M s Hst) in Hs. pose proof (Hsound _ _ Hs) as Hin.
    split; [done|]. rewrite Forall_forall in Hgood. destruct (Hgood s Hin) as [_ Hle].
    destruct (h_latest h) as [latest|]; [by exists latest|].
    destruct Hlat as [Hnil _]. rewrite Hnil in Hin. by apply elem_of_nil in Hin.
  - intros s Hs Hc. rewrite (elem_of_rows Sum256 d M s Hst). by apply Hcomplete.
Qed.

(** ** The rollback loop *)

Lemma history_cut_cut a b h : b <= a -> history_cut b (history_cut a h) = history_cut b h.
Proof.
  intros Hab. unfold history_cut. cbn. f_equal.
  - rewrite list_filter_filter. apply list_filter_iff. intros s. lia.
  - destruct (h_latest h); cbn; [f_equal; lia | done].
Qed.

Lemma RollbackActivity_result w fuel slot d h M :
  is_u64 w -> is_u64 slot -> tracks w d h M -> (length (rows d) < fuel)%nat ->
  exists d', RollbackActivity maxCount maxSize fuel slot d = Some (d', Ok tt) /\
    (exists M', tracks w d' (history_cut slot h) M') /\
    (forall s, s ∈ rows d' <-> s ∈ rows d /\ sw_Slot s < slot) /\
    (forall k, String.prefix activityKeyPrefix k = false -> k <> activityMetaKey -> Get d' k = Get d k).
Proof.
  intros Hw Hslot. revert d h M. induction fuel as [|fuel IH]; intros d h M HT Hfuel; [lia|].
  cbn [RollbackActivity].
  destruct (batch_tracks w d h M slot Hw Hslot HT)
    as (d1 & ex & -> & Hfirst & Hex & [M1 HT1] & Hrows & Hless & Hframe).
  destruct ex.
  - exists d1. rewrite (Hex eq_refl) in *. split_and!; [done | by exists M1 | done | done].
  - specialize (Hless eq_refl). destruct (IH d1 _ M1 HT1 ltac:(lia)) as (d' & -> & HT' & Hr' & Hf').
    exists d'. rewrite history_cut_cut in HT' by done. split_and!; [done | done | |].
    + intros s. rewrite Hr', Hrows. split; [intros [[]] | intros []; split_and!]; done || lia.
    + intros k Hk Hkm. rewrite Hf', Hframe by done. done.
Qed.

(** C6: [RollbackActivity] returns, whatever the budget of a transaction, after at
    most one batch more than there are stored swaps. It then has removed exactly
    the swaps at or after the slot and lowered the latest slot to the one before
    it, never raising it; nothing else in the database has changed. *)
Theorem RollbackActivity_terminates w ops d0 slot :
  0 < w -> is_u64 w -> is_u64 slot -> Forall good_op ops ->
  (forall k, String.prefix activityKeyPrefix k = true -> Get d0 k = None) ->
  Get d0 activityMetaKey = None ->
  let '(d, h) := run_storage w ops d0 in
  exists d', RollbackActivity maxCount maxSize (S (length (rows d))) slot d = Some (d', Ok tt) /\
    (forall s, s ∈ rows d' <-> s ∈ rows d /\ sw_Slot s < slot) /\
    Get d' activityMetaKey =
      (h_latest h ≫= fun latest => Marshal (mkMeta w (Z.min latest (Z.max 0 (slot - 1))))) /\
    (forall k, String.prefix activityKeyPrefix k = false -> k <> activityMetaKey -> Get d' k = Get d k).
Proof.
  intros Hw Hwu Hslot Hops Hd Hm. destruct (run_tracks w ops d0 Hw Hwu Hops Hd Hm) as [M HT].
  destruct (run_storage w ops d0) as [d h]. cbn [fst snd] in HT.
  destruct (RollbackActivity_result w (S (length (rows d))) slot d h M Hwu Hslot HT ltac:(lia))
    as (d' & E & [M' HT'] & Hrows & Hf).
  exists d'. split_and!; [done | done | | done].
  rewrite (tk_meta _ _ _ _ HT'). cbn. by destruct (h_latest h).
Qed.

(** ** Loading *)

Lemma load_swaps_rows d M :
  swaps_stored Sum256 d M -> load_swaps (Keys activityKeyPrefix d) d = Ok (rows d).
Proof.
  intros Hst. rewrite (Keys_of_rows Sum256 d M Hst).
  assert (forall s, s ∈ rows d -> Get d (key s) ≫= (fun value => Unmarshal value zeroSwap) = Some s /\
    is_u64 (sw_Slot s)) as Hrow.
  { intros s Hs. rewrite (elem_of_rows Sum256 d M s Hst) in Hs. split.
    - exact (record_at_row _ _ zeroSwap d M _ s (st_table _ _ _ Hst) Hs).
    - by eapply (st_slot _ _ _ Hst). }
  induction (rows d) as [|s l IH]; [done|]. cbn [fmap list_fmap load_swaps].
  destruct (Hrow s) as [Hs Hu]; [left|]. rewrite activitySlotFromKey_key by done.
  cbn [mbind result_bind]. rewrite Hs. cbn [mbind result_bind].
  assert (load_swaps (key <$> l) d = Ok l) as -> by (apply IH; intros; apply Hrow; by right). done.
Qed.

Lemma LoadActivityState_result w d h M :
  0 < w -> is_u64 w -> tracks w d h M ->
  LoadActivityState d =
    Ok (match h_latest h with
        | Some latest => mkActivityState w latest (rows d)
        | None => mkActivityState 0 0 []
        end).
Proof.
  intros Hw Hwu HT. unfold LoadActivityState. pose proof (Get_meta w d h M (mkMeta 0 0) Hwu HT) as Hm.
  pose proof (tk_latest _ _ _ _ HT) as Hl. pose proof (tk_stored _ _ _ _ HT) as Hst.
  destruct (h_latest h) as [latest|].
  - destruct Hm as (v & -> & ->). cbn [am_WindowSlots am_LatestSlot].
    rewrite (proj2 (Z.eqb_neq w 0)) by lia. by rewrite (load_swaps_rows d M).
  - rewrite Hm, (Keys_of_rows Sum256 d M Hst). destruct Hl as [Hlog _].
    destruct (rows d) as [|s l] eqn:E; [done|].
    assert (s ∈ rows d) as Hs by (rewrite E; left). rewrite (elem_of_rows Sum256 d M s Hst) in Hs.
    apply (tk_sound _ _ _ _ HT) in Hs. rewrite Hlog in Hs. by apply elem_of_nil in Hs.
Qed.

Lemma NoDup_fmap_factor {A B C} (f : A -> B) (g : A -> C) (l : list A) :
  (forall x y, g x = g y -> f x = f y) -> NoDup (f <$> l) -> NoDup (g <$> l).
Proof.
  intros Hfg. induction l as [|x l IH]; cbn; [constructor|]. rewrite !NoDup_cons.
  intros [Hx Hl]. split; [|by apply IH]. intros (y & Hy & Hin)%list_elem_of_fmap. apply Hx.
  rewrite (Hfg x y Hy). by apply list_elem_of_fmap_2.
Qed.

Lemma restore_rows w d h M latest fresh :
  0 < w -> is_u64 w -> tracks w d h M -> h_latest h = Some latest -> windowSlots fresh = w ->
  exists t, Restore (mkActivityState w latest (rows d)) fresh = (t, Ok tt) /\ wf_tracker t /\
    windowSlots t = w /\ latestSlot t = latest /\
    forall k, swaps_of t k ≡ₚ filter (fun s => sw_Key s = k /\ cutoff_at w latest <= sw_Slot s) (rows d).
Proof.
  intros Hw Hwu HT Hlat Hfresh. destruct HT as [Hst Hsound Hcomplete Hgood Hun _ Hl].
  rewrite Hlat in Hl. destruct Hl as [Hlu Hlh].
  rewrite Forall_forall in Hgood.
  apply Restore_ok; [done | apply Hlu | done | |].
  - apply Forall_forall. intros s Hs. rewrite (elem_of_rows Sum256 d M s Hst) in Hs.
    destruct (Hgood s (Hsound _ _ Hs)) as [[] Hle]. rewrite Hlat in Hle. done.
  - eapply (NoDup_fmap_factor key); [apply activity_key_identity|]. by eapply NoDup_row_keys.
Qed.

(** From the window of the high-water mark on, the rows are the history. *)
Lemma rows_window w d h M k c :
  tracks w d h M -> cutoff_at w (h_high h) <= c ->
  window_swaps k c (rows d) ≡ₚ window_swaps k c (h_log h).
Proof.
  intros [Hst Hsound Hcomplete Hgood Hun _ _] Hc. unfold window_swaps. apply NoDup_Permutation.
  - apply NoDup_filter. by eapply NoDup_rows.
  - apply NoDup_filter. by eapply NoDup_fmap_1.
  - intros s. rewrite !list_elem_of_filter, (elem_of_rows Sum256 d M s Hst). split.
    + intros [Hk Hs]. split; [done | by eapply Hsound].
    + intros [[Hk Hcs] Hs]. split; [done|]. apply Hcomplete; [done|lia].
Qed.

Lemma restore_tracks w d h M latest fresh :
  0 < w -> is_u64 w -> tracks w d h M -> h_latest h = Some latest -> windowSlots fresh = w ->
  exists t, Restore (mkActivityState w latest (rows d)) fresh = (t, Ok tt) /\ wf_tracker t /\
    windowSlots t = w /\ latestSlot t = latest /\
    forall k c, cutoff_at w (h_high h) <= c ->
      filter (fun s => c <= sw_Slot s) (swaps_of t k) ≡ₚ window_swaps k c (h_log h).
Proof.
  intros Hw Hwu HT Hlat Hfresh.
  destruct (restore_rows w d h M latest fresh) as (t & HR & Hwf & Htw & Htl & Hk); [done..|].
  exists t. split_and!; [done..|]. intros k c Hc. rewrite <- (rows_window w d h M k c HT Hc), Hk.
  assert (cutoff_at w latest <= cutoff_at w (h_high h)) as Hc1.
  { pose proof (tk_latest _ _ _ _ HT) as Hl. rewrite Hlat in Hl. apply cutoff_mono; lia. }
  unfold window_swaps. rewrite list_filter_filter. erewrite list_filter_iff; [done|].
  intros s. cbn. split; [tauto|]. intros []. split_and!; done || lia.
Qed.

(** ** A swap that cannot be restored

    These hold of any database, whether or not it agrees with a history. *)

Lemma collect_pruned_below cutoff it count size keys k :
  collect_pruned maxCount maxSize cutoff it count size = Ok keys -> k ∈ keys ->
  exists slot, activitySlotFromKey k = Ok slot /\ slot < cutoff.
Proof.
  revert count size keys. induction it as [|key' it IH]; intros count size keys; cbn [collect_pruned].
  { by intros [= <-] ?%elem_of_nil. }
  destruct (activitySlotFromKey key') as [slot|] eqn:Es; [|done]. cbn [mbind result_bind].
  destruct (Z.leb_spec cutoff slot); [by intros [= <-] ?%elem_of_nil|].
  destruct (_ || _); [by intros [= <-] ?%elem_of_nil|].
  destruct (collect_pruned _ _ _ it _ _) as [keys'|] eqn:E; [|done]. cbn.
  intros [= <-] [->|Hk]%elem_of_cons; [by exists slot | by eapply IH].
Qed.

(** A save that succeeds leaves the swap in the database, unless the metadata were
    ahead of it. *)
Lemma saved_swap_is_stored w p s d d' :
  SavePoolStateAndActivity Sum256 maxCount maxSize (Some p) (Some s) w d = (d', Ok tt) ->
  is_u64 (sw_Slot s) -> 0 < w ->
  (forall v m, Get d activityMetaKey = Some v -> Unmarshal v (mkMeta w (ps_Slot p)) = Some m ->
     am_LatestSlot m <= ps_Slot p) ->
  exists data, Marshal s = Some data /\ Get d' (key s) = Some data.
Proof.
  intros E Hs Hw Hmeta. unfold SavePoolStateAndActivity in E.
  destruct (w =? 0); [done|]. destruct (Marshal p) as [poolData|]; [|done].
  destruct (_ || _ || _ || negb (sw_Slot s =? ps_Slot p)) eqn:Em; [done|]. bool_prop.
  destruct (Marshal s) as [data|]; [|done]. exists data. split; [done|]. unfold Update in E.
  destruct (match Get d activityMetaKey with None => _ | Some v => _ end) as [m|] eqn:Eread; [|done].
  assert (am_LatestSlot m <= ps_Slot p) as Hm.
  { destruct (Get d activityMetaKey) as [v|] eqn:Ev; [|injection Eread as <-; done].
    destruct (Unmarshal v _) as [m0|] eqn:Eu; [|done]. specialize (Hmeta v m0 eq_refl Eu).
    destruct (negb _); [done|]. destruct (_ <? _); injection Eread as <-; cbn; lia. }
  cbn [mbind result_bind] in E. destruct (Marshal m) as [metaData|]; [|done].
  unfold pruneActivityKeys in E. set (cutoff := if _ <? am_LatestSlot m then _ else 0) in E.
  assert (cutoff <= sw_Slot s) as Hcut by (unfold cutoff; destruct (Z.ltb_spec w (am_LatestSlot m)); int_lia).
  set (d1 := Set_ activityMetaKey metaData _) in E.
  assert (Get d1 (key s) = Some data) as Hd1.
  { unfold d1. rewrite Get_Set_ne; [by rewrite Get_Set_eq|]. done. }
  destruct (cutoff =? 0); [by injection E as <-|].
  destruct (collect_pruned _ _ _ _ _ _) as [keys|] eqn:Ek; [|done]. injection E as <-.
  rewrite Get_delete_all, decide_False; [done|]. intros Hin.
  destruct (collect_pruned_below _ _ _ _ _ _ Ek Hin) as (slot & Hslot & Hlt).
  rewrite activitySlotFromKey_key in Hslot by done. injection Hslot as <-. lia.
Qed.

Lemma load_swaps_lists it d l k s :
  load_swaps it d = Ok l -> k ∈ it -> Get d k ≫= (fun v => Unmarshal v zeroSwap) = Some s -> s ∈ l.
Proof.
  revert l. induction it as [|k' it IH]; intros l E Hk Hg; [by apply elem_of_nil in Hk|].
  cbn [load_swaps] in E. destruct (activitySlotFromKey k'); [|done]. cbn [mbind result_bind] in E.
  destruct (Get d k' ≫= _) as [s'|] eqn:Es; [|done].
  destruct (load_swaps it d) as [rest|] eqn:El; [|done]. cbn in E. injection E as <-.
  apply elem_of_cons in Hk as [->|Hk]; [rewrite Es in Hg; injection Hg as ->; left | right; by eapply IH].
Qed.

Lemma validate_all_rejects latest l s :
  s ∈ l -> same_asset (sw_AssetX s) (sw_AssetY s) = true -> exists e, validate_all latest l = Err e.
Proof.
  intros Hs Hsame. induction l as [|x l IH]; [by apply elem_of_nil in Hs|]. cbn [validate_all].
  apply elem_of_cons in Hs as [<-|Hs].
  - unfold validateSwapTransition. rewrite Hsame, orb_true_r. by eexists.
  - destruct (validateSwapTransition x latest); [|by eexists]. cbn [mbind result_bind].
    destruct (IH Hs) as [e ->]. by eexists.
Qed.

(** A stored swap between an asset and itself makes loading or restoring fail. *)
Lemma unrestorable_swap d s data state t :
  Get d (key s) = Some data -> Marshal s = Some data -> faithful s ->
  same_asset (sw_AssetX s) (sw_AssetY s) = true -> LoadActivityState d = Ok state ->
  as_WindowSlots state <> 0 /\ exists e, (Restore state t).2 = Err e.
Proof.
  intros Hg Hm Hf Hsame. unfold LoadActivityState.
  assert (key s ∈ Keys activityKeyPrefix d) as Hk.
  { apply elem_of_Keys. split; [by eexists | apply activity_key_prefix]. }
  destruct (Get d activityMetaKey) as [v|].
  2:{ destruct (Keys activityKeyPrefix d); [by apply elem_of_nil in Hk | done]. }
  destruct (Unmarshal v _) as [m|]; [|done].
  destruct (Z.eqb_spec (am_WindowSlots m) 0) as [|Hw]; [done|].
  destruct (load_swaps _ d) as [l|] eqn:El; [|done]. cbn. intros [= <-].
  assert (s ∈ l) as Hin.
  { eapply load_swaps_lists; [exact El | exact Hk |]. rewrite Hg. cbn.
    apply (Unmarshal_Marshal s data zeroSwap swap_target Hf Hm). }
  split; [done|]. unfold Restore. cbn [as_WindowSlots as_LatestSlot as_Swaps].
  rewrite (proj2 (Z.eqb_neq _ _)) by done. destruct (negb _); [by eexists|].
  destruct (validate_all_rejects (am_LatestSlot m) l s Hin Hsame) as [e ->]. by eexists.
Qed.
End History.

(** ** A concrete run *)

(** The JSON of the records: the metadata is a struct of two numbers. *)
Definition meta_fields : fields _ :=
  FCons "windowSlots" false uint64_kind (FCons "latestSlot" false uint64_kind FNil).
#[program] Definition meta_kind : kind activityMetadata :=
  struct_kind meta_fields (fun m => (am_WindowSlots m, (am_LatestSlot m, tt)))
    (fun r => mkMeta r.1 r.2.1) _ no_extra eq_refl (no_extra_ok _) _.
Next Obligation. by intros []. Qed.
Next Obligation. by intros (? & ? & []). Qed.

#[export, program] Instance activity_json : ActivityCodecs := {|
  pool_codec := pool_json;
  cdp_codec := cdp_json;
  swap_codec := swap_json;
  meta_codec := json_codec meta_kind;
|}.
Next Obligation. apply swap_json_total. Qed.
Next Obligation. intros m. eexists. reflexivity. Qed.
Next Obligation. intros w l Hw Hl. by repeat split; apply Hw || apply Hl. Qed.
Next Obligation.
  intros p s [[] ? ? ? ? ? ?]%pool_json_faithful [] E1 E2 E3 E4 E5 E6 E7. unfold is_u64 in *.
  repeat split; cbn; (congruence || rewrite ?E6, ?E7; lia).
Qed.
Next Obligation. intros m. by repeat split. Qed.

Definition sample_digest (s : string) : list byte := String.list_byte_of_string s.

Definition saved_pool (slot : Z) : PoolState :=
  mkPoolState "p1" "mainnet" "cswap" (mkAssetAmount Lovelace 1000) (mkAssetAmount sample_token 900)
    997 1000 slot "b" "t" 0 1 1 false.
Definition saved_swap (slot x y : Z) : SwapTransition :=
  mkSwap "p1" "mainnet" "cswap" Lovelace (cloneClass sample_token) x y true slot "b" "t" 0.
Definition save_at (slot x y : Z) : storage_op := OpSave (saved_pool slot) (Some (saved_swap slot x y)).

(** Four swaps in a window of ten slots; the first is pruned by the last save. A
    rollback to slot 13 that is interrupted after its first batch, which the
    budget of one entry limits to the swap of slot 20; then it is resumed. *)
Definition sample_history : list storage_op :=
  [save_at 2 100 90; save_at 12 50 45; save_at 14 60 55; save_at 20 70 65; OpBatch 13].

Lemma save_at_good slot x y :
  is_u64 slot -> 0 < x <= MaxUint64 -> 0 < y <= MaxUint64 -> good_op (save_at slot x y).
Proof.
  intros Hs Hx Hy. split; [done|]. split; [done | | done | | by split].
  { repeat split; try (by apply Utf8_ascii); cbn; int_unfold; unfold MaxUint32; lia. }
  repeat split; discriminate.
Qed.

Lemma sample_history_good : Forall good_op sample_history.
Proof.
  unfold sample_history. rewrite !Forall_cons, Forall_nil.
  split_and!; [by apply save_at_good; int_lia .. | cbn; int_lia | done].
Qed.

Definition sample_run (ops : list storage_op) : gmap string string * history :=
  run_storage (H:=gmap_KV) sample_digest 1 1000 10 ops ∅.

Example sample_run_rows :
  map sw_Slot (rows (sample_run sample_history).1) = [12; 14] /\
  h_latest (sample_run sample_history).2 = Some 19.
Proof. vm_compute. done. Qed.

Lemma committed_states_track_history_witness :
  saved_swap 14 60 55 ∈ rows (sample_run sample_history).1.
Proof.
  pose proof (committed_states_track_history (H:=gmap_KV) sample_digest 1 1000 10 sample_history
    ∅ ltac:(lia) ltac:(done) sample_history_good ltac:(done) ltac:(done)) as H.
  change (run_storage _ _ _ _ _ _) with (sample_run sample_history) in H.
  destruct (sample_run sample_history) as [d h] eqn:E.
  destruct H as [_ H]. apply H.
  - replace h with (sample_run sample_history).2 by (by rewrite E). vm_compute. by right; right; left.
  - replace h with (sample_run sample_history).2 by (by rewrite E). vm_compute. discriminate.
Defined.

Lemma RollbackActivity_terminates_witness :
  exists d', RollbackActivity 1 1000 3 13 (sample_run sample_history).1 = Some (d', Ok tt) /\
    saved_swap 14 60 55 ∉ rows d'.
Proof.
  pose proof (RollbackActivity_terminates (H:=gmap_KV) sample_digest 1 1000 10 sample_history
    ∅ 13 ltac:(lia) ltac:(done) ltac:(done) sample_history_good
    ltac:(done) ltac:(done)) as H.
  change (run_storage _ _ _ _ _ _) with (sample_run sample_history) in H.
  destruct (sample_run sample_history) as [d h] eqn:E.
  assert (S (length (rows d)) = 3%nat) as Hfuel.
  { replace d with (sample_run sample_history).1 by (by rewrite E). vm_compute. done. }
  rewrite Hfuel in H. destruct H as (d' & Hd & Hrows & _). exists d'. split; [exact Hd|].
  rewrite Hrows. intros [_ Hlt]. by vm_compute in Hlt.
Defined.

