(* ===== verification/Subscribers.v ===== *)
(** * Subscribers: the buffered channels through which the oracles publish
    ([notifySubscribers], [Subscribe], [Unsubscribe] and [Stop] of
    [internal/oracle/oracle.go] and [internal/oracle/lending_oracle.go]).

    A channel is the list of its buffered updates. A publisher never blocks: the
    pool oracle makes room by dropping the oldest update, the lending oracle skips
    the new one. The consumer runs concurrently, so it may take any number of
    updates between the steps of a publisher; the numbers are parameters. *)
From S2P Require Import Prelude.

Definition subscriberBufferSize : nat := 100.

Section Channel.
Context {A : Type}.

(** The select statements of [Oracle.notifySubscribers] on one channel: the
    consumer takes [c1] updates before the oldest is dropped and [c2] more before
    the second attempt. The results are what the consumer took, the buffer, and
    how many times [recordDrop] was called. *)
Definition offer (c1 c2 : nat) (update : A) (buf : list A) : list A * list A * Z :=
  if (length buf <? subscriberBufferSize)%nat then ([], buf ++ [update], 0)
  else
    let taken1 := take c1 buf in
    let buf1 := drop c1 buf in
    let '(buf2, drops) := match buf1 with [] => ([], 0) | _ :: rest => (rest, 1) end in
    let taken2 := take c2 buf2 in
    let buf3 := drop c2 buf2 in
    if (length buf3 <? subscriberBufferSize)%nat
    then (taken1 ++ taken2, buf3 ++ [update], drops)
    else (taken1 ++ taken2, buf3, drops + 1).

(** The select statement of [LendingOracle.notifySubscribers]. *)
Definition offer_or_skip (update : A) (buf : list A) : list A :=
  if (length buf <? subscriberBufferSize)%nat then buf ++ [update] else buf.

Lemma offer_spec c1 c2 u buf :
  (length buf <= subscriberBufferSize)%nat ->
  let '(taken, buf', drops) := offer c1 c2 u buf in
  (length buf' <= subscriberBufferSize)%nat /\ last buf' = Some u /\
  taken ++ buf' `sublist_of` buf ++ [u] /\
  Z.of_nat (length taken) + Z.of_nat (length buf') + drops = Z.of_nat (length buf) + 1 /\
  0 <= drops <= 1.
Proof.
  unfold offer, subscriberBufferSize. intros Hlen.
  destruct (Nat.ltb_spec (length buf) 100) as [Hlt|Hge].
  { rewrite last_snoc, length_app. cbn. split_and!; [lia | done | done | lia..]. }
  pose proof (f_equal length (take_drop c1 buf)) as Hl1. rewrite length_app in Hl1.
  pose proof (take_drop c1 buf) as Htd.
  destruct (drop c1 buf) as [|x rest] eqn:E; cbn [length] in *.
  - rewrite drop_nil, take_nil. cbn. split_and!; [lia | done | | | lia..].
    + rewrite app_nil_r in *. by rewrite Htd.
    + rewrite app_nil_r. lia.
  - pose proof (f_equal length (take_drop c2 rest)) as Hl2. rewrite length_app in Hl2.
    rewrite (proj2 (Nat.ltb_lt _ _)) by lia. cbn zeta. rewrite !length_app, last_snoc. cbn [length].
    split_and!; [lia | done | | | lia..].
    + transitivity ((take c1 buf ++ x :: rest) ++ [u]); [|by rewrite Htd].
      rewrite <- !app_assoc. apply sublist_app; [reflexivity|].
      rewrite app_assoc, take_drop. cbn. apply sublist_cons. reflexivity.
    + lia.
Qed.

(** ** One channel over time *)

Inductive channel_op :=
| Publish (update : A) (c1 c2 : nat)
| Receive.

Record channel := mkChannel {
  ch_buf : list A;
  ch_received : list A;
  ch_published : list A;
  ch_drops : Z;
}.

Definition channel_step (o : channel_op) (c : channel) : channel :=
  match o with
  | Publish u c1 c2 =>
      let '(taken, buf', drops) := offer c1 c2 u (ch_buf c) in
      mkChannel buf' (ch_received c ++ taken) (ch_published c ++ [u]) (ch_drops c + drops)
  | Receive =>
      match ch_buf c with
      | [] => c
      | u :: buf => mkChannel buf (ch_received c ++ [u]) (ch_published c) (ch_drops c)
      end
  end.

Definition new_channel : channel := mkChannel [] [] [] 0.

(** C8: a subscriber of the pool oracle, however slowly and at whatever moments it
    reads: the buffer never holds more than a hundred updates; what it has
    received and what is still buffered are published updates in the order of
    publication, the last of them being the last one published, so that a reader
    who catches up always ends at the current price; and the counter of drops is
    exactly the number of updates that were published and lost. *)
Theorem channel_delivers_newest ops :
  let c := foldl (fun c o => channel_step o c) new_channel ops in
  (length (ch_buf c) <= subscriberBufferSize)%nat /\
  ch_received c ++ ch_buf c `sublist_of` ch_published c /\
  last (ch_received c ++ ch_buf c) = last (ch_published c) /\
  Z.of_nat (length (ch_published c)) =
    Z.of_nat (length (ch_received c)) + Z.of_nat (length (ch_buf c)) + ch_drops c.
Proof.
  cbv zeta. assert (forall c,
    (length (ch_buf c) <= subscriberBufferSize)%nat /\
    ch_received c ++ ch_buf c `sublist_of` ch_published c /\
    last (ch_received c ++ ch_buf c) = last (ch_published c) /\
    Z.of_nat (length (ch_published c)) =
      Z.of_nat (length (ch_received c)) + Z.of_nat (length (ch_buf c)) + ch_drops c ->
    let c' := foldl (fun c o => channel_step o c) c ops in
    (length (ch_buf c') <= subscriberBufferSize)%nat /\
    ch_received c' ++ ch_buf c' `sublist_of` ch_published c' /\
    last (ch_received c' ++ ch_buf c') = last (ch_published c') /\
    Z.of_nat (length (ch_published c')) =
      Z.of_nat (length (ch_received c')) + Z.of_nat (length (ch_buf c')) + ch_drops c') as Hrun;
    [|apply Hrun; cbn; split_and!; (done || lia)].
  induction ops as [|o ops IH]; intros c Hc; [exact Hc|]. cbn [foldl]. apply IH. clear IH.
  destruct Hc as (Hlen & Hsub & Hlast & Hcount). destruct o as [u c1 c2|]; cbn [channel_step].
  - pose proof (offer_spec c1 c2 u (ch_buf c) Hlen) as Ho.
    destruct (offer c1 c2 u (ch_buf c)) as [[taken buf'] drops].
    destruct Ho as (Hlen' & Hlast' & Hsub' & Hcount' & _). cbn. split_and!; [done | | |].
    + rewrite <- app_assoc. etrans; [apply sublist_app; [reflexivity | exact Hsub']|].
      rewrite app_assoc. apply sublist_app; [done | reflexivity].
    + destruct buf' as [|b l] using rev_ind; [done|]. clear IHl.
      rewrite last_snoc in Hlast'. injection Hlast' as ->. rewrite !app_assoc, !last_snoc. done.
    + rewrite !length_app. cbn. lia.
  - destruct (ch_buf c) as [|u buf] eqn:E; [by rewrite E|]. cbn [ch_buf ch_received ch_published ch_drops].
    rewrite <- app_assoc. cbn [app length] in *. split_and!; [lia | done | done |].
    rewrite length_app. cbn. lia.
Qed.
End Channel.

(** ** The list of subscribers *)

(** A channel that can be told apart from the others. *)
Record subscriber (A : Type) := mkSubscriber {
  sub_id : Z;
  sub_buf : list A;
}.
Arguments mkSubscriber {A}.
Arguments sub_id {A}.
Arguments sub_buf {A}.

(** The loop of [Unsubscribe]: the first subscriber with that channel. *)
Fixpoint remove_subscriber {A} (id : Z) (subs : list (subscriber A)) : list (subscriber A) :=
  match subs with
  | [] => []
  | s :: subs' => if sub_id s =? id then subs' else s :: remove_subscriber id subs'
  end.

Lemma remove_subscriber_ids {A} id (subs : list (subscriber A)) :
  NoDup (sub_id <$> subs) ->
  sub_id <$> remove_subscriber id subs = filter (fun i => i <> id) (sub_id <$> subs).
Proof.
  induction subs as [|s subs IH]; [done|]. cbn [fmap list_fmap]. rewrite NoDup_cons. intros [Hs Hnd].
  cbn [remove_subscriber]. rewrite filter_cons. destruct (Z.eqb_spec (sub_id s) id) as [<-|Hne].
  - rewrite decide_False by tauto. symmetry. apply filter_all. apply Forall_forall. intros i Hi ->. done.
  - rewrite decide_True by done. cbn [fmap list_fmap]. by rewrite <- IH.
Qed.
