(* ===== verification/Oracle.v ===== *)
(** * Oracle: the event handlers of the pool oracle ([internal/oracle/oracle.go]).

    A transaction updates the pools at the watched addresses: the parser of the
    protocol reads the datum, the activity tracker infers a swap, the state and the
    swap are persisted, and the confirmed state is handed to the mempool manager
    and the subscribers. A rollback removes what later blocks recorded, in memory
    and on disk. Every handler holds its locks for the steps it makes on a map,
    and the indexer delivers one event at a time, so a handler is one function on
    the state of the oracle. [now] stands for the clock and [sched] for how much
    each consumer reads while an update is being published. *)
From S2P Require Import Prelude.
From S2P Require Import Text.
From S2P Require Import Float64.
From S2P Require Import Common.
From S2P Require Import Pool.
From S2P Require Import Activity.
From S2P Require Import ActivityRestart.
From S2P Require Import Cbor.
From S2P Require Import Ledger.
From S2P Require Import Mempool.
From S2P Require Import KeyValue.
From S2P Require Import Table.
From S2P Require Import Indigo.
From S2P Require Import OracleStorage.
From S2P Require Import ActivityStorage.
From S2P Require Import Subscribers.

Definition defaultPoolActivityWindowSlots : Z := 86400.

(** ** Events *)

(** A transaction output as the handlers see it; [ledger.Utxo] adds its reference. *)
Record output `{Cbor, Ledger} := mkOutput {
  out_Address : string;
  out_Datum : option raw;
  out_Cbor : value;
}.
Record utxo `{Cbor, Ledger} := mkUtxo {
  u_TxId : string;
  u_Index : Z;
  u_Output : output;
}.

Record TransactionEvent `{Cbor, Ledger} := mkTransactionEvent {
  te_BlockHash : string;
  te_Inputs : list (string * Z);
  te_Outputs : list output;
  (** [Transaction], when present: what it consumes and produces *)
  te_Transaction : option (list (string * Z) * list utxo);
}.
Record TransactionContext := mkContext {
  tc_SlotNumber : Z;
  tc_TransactionHash : string;
}.

Inductive chain_event `{Cbor, Ledger} :=
| EvTransaction (ctx : option TransactionContext) (txEvt : TransactionEvent)
| EvRollback (slot : Z)
| EvOther.

Definition transactionInputs `{Cbor, Ledger} (txEvt : TransactionEvent) : list (string * Z) :=
  match te_Inputs txEvt with
  | [] => match te_Transaction txEvt with None => [] | Some (consumed, _) => consumed end
  | inputs => inputs
  end.

Definition producedUTXOs `{Cbor, Ledger} (txEvt : TransactionEvent) (txHash : string) : list utxo :=
  match te_Transaction txEvt with
  | Some (_, produced) => produced
  | None => imap (fun i out => mkUtxo _ _ txHash (Z.of_nat i) out) (te_Outputs txEvt)
  end.

(** The rollback point is the new tip: its own block stays valid. *)
Definition firstRolledBackSlot (slot : Z) : Z :=
  if slot =? MaxUint64 then slot else u64 (slot + 1).

Lemma firstRolledBackSlot_u64 slot : is_u64 slot -> is_u64 (firstRolledBackSlot slot).
Proof.
  intros Hs. unfold firstRolledBackSlot. destruct (slot =? MaxUint64); [done | apply u64_range].
Qed.

(** The first slot rolled back is the one after the new tip, except that the
    greatest [uint64] has no successor. *)
Lemma firstRolledBackSlot_next slot :
  is_u64 slot -> slot <> MaxUint64 -> firstRolledBackSlot slot = slot + 1.
Proof.
  intros Hs Hne. unfold firstRolledBackSlot. rewrite (proj2 (Z.eqb_neq _ _)) by done.
  apply u64_small. int_lia.
Qed.

(** ** The parser

    What the handlers call: a parser of pool datums, which may report that there
    is no pool, and which may also be a [CDPParser]. *)
Class OracleParser `{Cbor, Ledger} := {
  op_Protocol : string;
  op_ParsePoolDatum : raw -> value -> string -> Z -> Z -> Z -> result parse_error (option PoolState);
  op_cdp : option CDPParser;
  op_sound : forall datum utxoValue txHash txIndex slot timestamp p,
    op_ParsePoolDatum datum utxoValue txHash txIndex slot timestamp = Ok (Some p) ->
    exists s, p = wrap_state s /\ sound_pool op_Protocol txHash txIndex slot timestamp s;
}.

(** Every protocol parser of package [dex] is one. *)
Definition some_result {E A} (r : result E A) : result E (option A) := Some <$> r.

Lemma some_result_ok {E A} (r : result E A) a : some_result r = Ok (Some a) -> r = Ok a.
Proof. destruct r; cbn; congruence. Qed.

#[program] Definition pool_oracle_parser `{P : PoolParser} : OracleParser := {|
  op_Protocol := Protocol;
  op_ParsePoolDatum datum utxoValue txHash txIndex slot timestamp :=
    some_result (dex_ParsePoolDatum datum utxoValue txHash txIndex slot timestamp);
  op_cdp := None;
|}.
Next Obligation.
  intros C L P datum utxoValue txHash txIndex slot timestamp p Hp%some_result_ok.
  by apply dex_ParsePoolDatum_ok in Hp.
Qed.

(** [IndigoParser.ParsePoolDatum] never finds a pool. *)
#[program] Definition indigo_oracle_parser `{C : Cbor, L : Ledger, R : !CborIntRange C} : OracleParser := {|
  op_Protocol := Indigo.ProtocolName;
  op_ParsePoolDatum _ _ _ _ _ _ := Ok None;
  op_cdp := Some IndigoParser;
|}.
Next Obligation. done. Qed.

(** ** The state *)

Inductive oracle_error :=
| ActivityFailed (poolId : string) (e : activity_error)
| PersistFailed (poolId : string) (e : storage_error)
| PersistRecordFailed (poolId : string) (e : record_error).

Inductive rollback_error :=
| RollbackPoolActivity (e : storage_error)
| DeleteRolledBackPool (poolId : string) (e : record_error)
| DeleteRolledBackCDP (cdpId : string) (e : record_error).

Record OracleState `{KV} := mkOracle {
  o_pools : gmap string PoolState;
  o_cdps : gmap string CDPState;
  o_activity : option ActivityTracker;
  o_mempool : gmap string MempoolPoolState;
  o_subscribers : list (subscriber PriceUpdate);
  o_nextChannel : Z;
  o_stopped : bool;
  o_dropCount : Z;
  o_db : db;
}.

Section Setters.
Context `{KV}.
Definition set_pools (m : gmap string PoolState) (o : OracleState) : OracleState :=
  mkOracle _ m (o_cdps o) (o_activity o) (o_mempool o) (o_subscribers o) (o_nextChannel o)
    (o_stopped o) (o_dropCount o) (o_db o).
Definition set_cdps (m : gmap string CDPState) (o : OracleState) : OracleState :=
  mkOracle _ (o_pools o) m (o_activity o) (o_mempool o) (o_subscribers o) (o_nextChannel o)
    (o_stopped o) (o_dropCount o) (o_db o).
Definition set_activity (t : option ActivityTracker) (o : OracleState) : OracleState :=
  mkOracle _ (o_pools o) (o_cdps o) t (o_mempool o) (o_subscribers o) (o_nextChannel o)
    (o_stopped o) (o_dropCount o) (o_db o).
Definition set_mempool (m : gmap string MempoolPoolState) (o : OracleState) : OracleState :=
  mkOracle _ (o_pools o) (o_cdps o) (o_activity o) m (o_subscribers o) (o_nextChannel o)
    (o_stopped o) (o_dropCount o) (o_db o).
Definition set_subscribers (l : list (subscriber PriceUpdate)) (drops : Z) (o : OracleState) : OracleState :=
  mkOracle _ (o_pools o) (o_cdps o) (o_activity o) (o_mempool o) l (o_nextChannel o)
    (o_stopped o) drops (o_db o).
Definition set_db (d : db) (o : OracleState) : OracleState :=
  mkOracle _ (o_pools o) (o_cdps o) (o_activity o) (o_mempool o) (o_subscribers o) (o_nextChannel o)
    (o_stopped o) (o_dropCount o) d.
End Setters.

(** The metadata that the handlers add to what a parser returns. *)
Definition set_pool_meta (network blockHash : string) (updatedAt : Z) (p : PoolState) : PoolState :=
  mkPoolState (ps_PoolId p) network (ps_Protocol p) (ps_AssetX p) (ps_AssetY p) (ps_FeeNum p)
    (ps_FeeDenom p) (ps_Slot p) blockHash (ps_TxHash p) (ps_TxIndex p) (ps_Timestamp p) updatedAt
    (ps_FromMempool p).
Definition set_cdp_meta (network protocol blockHash : string) (updatedAt : Z) (s : CDPState) : CDPState :=
  mkCDPState (cs_CDPId s) network protocol (cs_Owner s) (cs_HasOwner s) (cs_IAsset s)
    (cs_MintedAmount s) (cs_Slot s) blockHash (cs_TxHash s) (cs_TxIndex s) (cs_Timestamp s) updatedAt
    (cs_FeesType s) (cs_LastUpdated s) (cs_IAssetFees s) (cs_Treasury s) (cs_IndyStakers s).

(** ** Configuration *)

Inductive ProfileConfig :=
| OracleProfileConfig (PoolAddresses : list string)
| SyntheticsProfileConfig (CDPAddresses : list string)
| OtherProfileConfig.

(** [addProfileAddresses], on the empty set of [New]. *)
Definition addProfileAddresses (cfg : ProfileConfig) : gset string :=
  match cfg with
  | OracleProfileConfig l | SyntheticsProfileConfig l => list_to_set l
  | OtherProfileConfig => ∅
  end.

Section Oracle.
Context `{C : Cbor, L : Ledger, P : !OracleParser} `{OrderedKV} `{!ActivityCodecs} `{!RangeOrder}.
Context (Sum256 : string -> list byte) (maxCount maxSize : Z).
(** [config.GetConfig().Network], the profile's addresses, and whether it is a
    synthetics profile ([isSyntheticsProfile]). *)
Context (network : string) (poolAddresses : gset string) (synthetics : bool).

Definition isPoolAddress (addr : string) : bool := bool_decide (addr ∈ poolAddresses).

(** [New], over a database; the window is not zero, so that it does not panic. *)
Definition New (d : db) : OracleState :=
  mkOracle _ ∅ ∅
    (match NewActivityTracker defaultPoolActivityWindowSlots with Ok t => Some t | Err _ => None end)
    NewMempoolStateManager [] 0 false 0 d.

(** ** Subscribers *)

Definition Subscribe (o : OracleState) : OracleState * subscriber PriceUpdate :=
  let ch := mkSubscriber (o_nextChannel o) [] in
  let subs := if o_stopped o then o_subscribers o else o_subscribers o ++ [ch] in
  (mkOracle _ (o_pools o) (o_cdps o) (o_activity o) (o_mempool o) subs (o_nextChannel o + 1)
     (o_stopped o) (o_dropCount o) (o_db o), ch).

Definition Unsubscribe (id : Z) (o : OracleState) : OracleState :=
  set_subscribers (remove_subscriber id (o_subscribers o)) (o_dropCount o) o.

Definition Stop (o : OracleState) : OracleState :=
  if o_stopped o then o
  else mkOracle _ (o_pools o) (o_cdps o) (o_activity o) (o_mempool o) [] (o_nextChannel o) true
         (o_dropCount o) (o_db o).

(** The loop over the subscribers; [drops] is the counter of [recordDrop]. *)
Fixpoint notify_loop (sched : Z -> nat * nat) (update : PriceUpdate)
    (subs : list (subscriber PriceUpdate)) (drops : Z) : list (subscriber PriceUpdate) * Z :=
  match subs with
  | [] => ([], drops)
  | s :: subs' =>
      let '(c1, c2) := sched (sub_id s) in
      let '(_, buf, dropped) := offer c1 c2 update (sub_buf s) in
      let '(rest, drops') := notify_loop sched update subs' (u64 (drops + dropped)) in
      (mkSubscriber (sub_id s) buf :: rest, drops')
  end.

Definition notifySubscribers (sched : Z -> nat * nat) (state : PoolState) (prevPrice : float64)
    (o : OracleState) : OracleState :=
  match NewPriceUpdate (Some state) prevPrice with
  | None => o
  | Some update =>
      let '(subs, drops) := notify_loop sched update (o_subscribers o) (o_dropCount o) in
      set_subscribers subs drops o
  end.

Definition DroppedNotifications (o : OracleState) : Z := o_dropCount o.

(** ** Debt positions *)

Definition deleteCDPStateByID (cdpId : string) (o : OracleState) : OracleState * option CDPState :=
  match o_cdps o !! cdpId with
  | None => (o, None)
  | Some state => (set_cdps (delete cdpId (o_cdps o)) o, Some state)
  end.

(** One input of [deleteSpentCDPStates]; a failed deletion is only logged. *)
Definition delete_spent (parser : CDPParser) (o : OracleState) (input : string * Z) : OracleState :=
  let cdpId := CDPIdForOutput input.1 input.2 in
  let '(o, found) := deleteCDPStateByID cdpId o in
  match found with
  | None => o
  | Some state =>
      let net := if bool_decide (cs_Network state = "") then network else cs_Network state in
      let protocol := if bool_decide (cs_Protocol state = "") then CDP_Protocol else cs_Protocol state in
      set_db (DeleteCDPState net protocol cdpId (o_db o)).1 o
  end.
Definition deleteSpentCDPStates (parser : CDPParser) (inputs : list (string * Z)) (o : OracleState)
  : OracleState := foldl (delete_spent parser) o inputs.

Definition handleProducedCDPOutput (now : Z) (parser : CDPParser) (blockHash : string)
    (ctx : TransactionContext) (u : utxo) (o : OracleState) : OracleState :=
  match out_Datum (u_Output u) with
  | None => o
  | Some datum =>
      match ParseCDPDatum datum (tc_TransactionHash ctx) (u_Index u) (tc_SlotNumber ctx) now with
      | Err _ | Ok None => o
      | Ok (Some state) =>
          let state := set_cdp_meta network CDP_Protocol blockHash now state in
          let o := set_cdps (<[cs_CDPId state := state]> (o_cdps o)) o in
          set_db (SaveCDPState state (o_db o)).1 o
      end
  end.

(** ** Transactions *)

(** The pool of one output. *)
Definition handle_pool (now : Z) (sched : Z -> nat * nat) (blockHash : string)
    (parsed : PoolState) (o : OracleState) : OracleState * result oracle_error unit :=
  let state := set_pool_meta network blockHash now parsed in
  let prevState := o_pools o !! ps_PoolId state in
  let prevPrice := match prevState with Some prev => PriceXY prev | None => fzero end in
  match
    match o_activity o with
    | None => (o, Ok None)
    | Some t =>
        let '(t', r) := ObserveTransition prevState (Some state) t in
        (set_activity (Some t') o,
         match r with
         | Err e => Err (ActivityFailed (ps_PoolId state) e)
         | Ok (swap, recorded) => Ok (if recorded : bool then Some swap else None)
         end)
    end
  with
  | (o, Err e) => (o, Err e)
  | (o, Ok transition) =>
      let o := set_pools (<[ps_PoolId state := state]> (o_pools o)) o in
      let '(d, persisted) :=
        match o_activity o with
        | None =>
            let '(d, r) := SavePoolState state (o_db o) in
            (d, map_err (PersistRecordFailed (ps_PoolId state)) r)
        | Some t =>
            let '(d, r) := SavePoolStateAndActivity Sum256 maxCount maxSize (Some state) transition
                             (windowSlots t) (o_db o) in
            (d, map_err (PersistFailed (ps_PoolId state)) r)
        end in
      let o := set_db d o in
      match persisted with
      | Err e => (o, Err e)
      | Ok _ =>
          let o := set_mempool (UpdateConfirmedState (ps_PoolId state) (Some state) (o_mempool o)) o in
          (notifySubscribers sched state prevPrice o, Ok tt)
      end
  end.

(** The loop of [handleTransaction] over the produced outputs: an error ends it. *)
Fixpoint handle_utxos (now : Z) (sched : Z -> nat * nat) (blockHash : string)
    (ctx : TransactionContext) (utxos : list utxo) (o : OracleState)
  : OracleState * result oracle_error unit :=
  match utxos with
  | [] => (o, Ok tt)
  | u :: utxos' =>
      if negb (isPoolAddress (out_Address (u_Output u)))
      then handle_utxos now sched blockHash ctx utxos' o
      else
        match out_Datum (u_Output u) with
        | None => handle_utxos now sched blockHash ctx utxos' o
        | Some datum =>
            match (if synthetics then op_cdp else None) with
            | Some cdpParser =>
                handle_utxos now sched blockHash ctx utxos'
                  (handleProducedCDPOutput now cdpParser blockHash ctx u o)
            | None =>
                match op_ParsePoolDatum datum (out_Cbor (u_Output u)) (tc_TransactionHash ctx)
                        (u_Index u) (tc_SlotNumber ctx) now with
                | Err _ | Ok None => handle_utxos now sched blockHash ctx utxos' o
                | Ok (Some state) =>
                    match handle_pool now sched blockHash state o with
                    | (o, Err e) => (o, Err e)
                    | (o, Ok _) => handle_utxos now sched blockHash ctx utxos' o
                    end
                end
            end
        end
  end.

Definition handleTransaction (now : Z) (sched : Z -> nat * nat) (ctx : option TransactionContext)
    (txEvt : TransactionEvent) (o : OracleState) : OracleState * result oracle_error unit :=
  match ctx with
  | None => (o, Ok tt)
  | Some ctx =>
      let o :=
        match (if synthetics then op_cdp else None) with
        | Some cdpParser => deleteSpentCDPStates cdpParser (transactionInputs txEvt) o
        | None => o
        end in
      handle_utxos now sched (te_BlockHash txEvt) ctx
        (producedUTXOs txEvt (tc_TransactionHash ctx)) o
  end.

(** ** Rollbacks *)

(** [RollbackActivity] with one batch more than there are stored swaps, which is
    always enough. *)
Definition rollback_storage (slot : Z) (d : db) : db * result storage_error unit :=
  default (d, Ok tt)
    (RollbackActivity maxCount maxSize (S (length (Keys activityKeyPrefix d))) slot d).

Definition pools_from (slot : Z) (o : OracleState) : list PoolState :=
  filter (fun s => slot <= ps_Slot s) (range (map_to_list (o_pools o)).*2).
Definition cdps_from (slot : Z) (o : OracleState) : list CDPState :=
  filter (fun s => slot <= cs_Slot s) (range (map_to_list (o_cdps o)).*2).

Definition remove_pool (o : OracleState) (state : PoolState) : OracleState :=
  set_pools (delete (ps_PoolId state) (o_pools o)) o.
Definition remove_cdp (o : OracleState) (state : CDPState) : OracleState :=
  set_cdps (delete (cs_CDPId state) (o_cdps o)) o.

(** Deletions from the storage collect the errors. *)
Definition delete_stored_pool (oe : OracleState * list rollback_error) (state : PoolState)
  : OracleState * list rollback_error :=
  let '(o, errs) := oe in
  let '(d, r) := DeletePoolState state (o_db o) in
  (set_db d o, match r with Ok _ => errs | Err e => errs ++ [DeleteRolledBackPool (ps_PoolId state) e] end).
Definition delete_stored_cdp (oe : OracleState * list rollback_error) (state : CDPState)
  : OracleState * list rollback_error :=
  let '(o, errs) := oe in
  let '(d, r) := DeleteCDPState (cs_Network state) (cs_Protocol state) (cs_CDPId state) (o_db o) in
  (set_db d o, match r with Ok _ => errs | Err e => errs ++ [DeleteRolledBackCDP (cs_CDPId state) e] end).

Definition handleRollback (slot : Z) (o : OracleState) : OracleState * result (list rollback_error) unit :=
  let firstInvalidSlot := firstRolledBackSlot slot in
  let toDelete := pools_from firstInvalidSlot o in
  let o := foldl remove_pool o toDelete in
  let cdpsToDelete := cdps_from firstInvalidSlot o in
  let o := foldl remove_cdp o cdpsToDelete in
  let '(d, r) := rollback_storage firstInvalidSlot (o_db o) in
  let o := set_db d o in
  let errs := match r with Ok _ => [] | Err e => [RollbackPoolActivity e] end in
  let o :=
    match o_activity o with
    | Some t => if is_ok r then set_activity (Some (Rollback firstInvalidSlot t)) o else o
    | None => o
    end in
  let o := foldl (fun o state => set_mempool (RemovePoolState (ps_PoolId state) (o_mempool o)) o) o toDelete in
  let '(o, errs) := foldl delete_stored_pool (o, errs) toDelete in
  let '(o, errs) := foldl delete_stored_cdp (o, errs) cdpsToDelete in
  (o, match errs with [] => Ok tt | _ => Err errs end).

(** [HandleChainsyncEvent], keeping only whether it failed. *)
Definition HandleChainsyncEvent (now : Z) (sched : Z -> nat * nat) (evt : chain_event) (o : OracleState)
  : OracleState * bool :=
  match evt with
  | EvTransaction ctx txEvt => let '(o, r) := handleTransaction now sched ctx txEvt o in (o, is_ok r)
  | EvRollback slot => let '(o, r) := handleRollback slot o in (o, is_ok r)
  | EvOther => (o, true)
  end.

(** ** Loading *)

Inductive load_error :=
| LoadActivity (e : storage_error)
| RestoreActivity (e : activity_error).

Definition loadPersistedStates (o : OracleState) : OracleState * result load_error unit :=
  let states := LoadAllPoolStates (o_db o) in
  let cdpStates := LoadAllCDPStates (o_db o) in
  match LoadActivityState (o_db o) with
  | Err e => (o, Err (LoadActivity e))
  | Ok activityState =>
      let t := match o_activity o with
               | Some t => t
               | None => mkTracker defaultPoolActivityWindowSlots 0 ∅
               end in
      match (if as_WindowSlots activityState =? 0 then (t, Ok tt) else Restore activityState t) with
      | (t', Err e) => (set_activity (Some t') o, Err (RestoreActivity e))
      | (t', Ok _) =>
          let o := set_activity (Some t') o in
          let o := set_pools (foldl (fun m state => <[ps_PoolId state := state]> m) (o_pools o) states) o in
          let o := set_cdps (foldl (fun m state => <[cs_CDPId state := state]> m) (o_cdps o) cdpStates) o in
          (set_mempool
             (foldl (fun m state => UpdateConfirmedState (ps_PoolId state) (Some state) m)
                (o_mempool o) states) o, Ok tt)
      end
  end.

Inductive oracle_start_error :=
| StorageNotOpened
| StatesNotLoaded (e : load_error).

(** [Start], with the database that could be opened. The handler is registered when it
    succeeds; otherwise the storage is closed again. *)
Definition Start (stored : option db) (o : OracleState) : OracleState * result oracle_start_error unit :=
  match stored with
  | None => (o, Err StorageNotOpened)
  | Some d => let '(o, r) := loadPersistedStates (set_db d o) in (o, map_err StatesNotLoaded r)
  end.

(** ** Queries *)

Definition GetPoolState (poolId : string) (o : OracleState) : option PoolState := o_pools o !! poolId.

Definition GetPoolVolume (poolId : string) (atSlot : Z) (o : OracleState)
  : result activity_error (option PoolVolume) :=
  match GetPoolState poolId o, o_activity o with
  | Some state, Some t => Volume (ps_Network state) (ps_Protocol state) (ps_PoolId state) atSlot t
  | _, _ => Ok None
  end.

Definition GetAllPools (o : OracleState) : list PoolState := range (map_to_list (o_pools o)).*2.
Definition GetCDPState (cdpId : string) (o : OracleState) : option CDPState := o_cdps o !! cdpId.
Definition GetAllCDPs (o : OracleState) : list CDPState := range (map_to_list (o_cdps o)).*2.
Definition CDPCount (o : OracleState) : Z := Z.of_nat (size (o_cdps o)).
Definition PoolCount (o : OracleState) : Z := Z.of_nat (size (o_pools o)).
Definition GetPrice (poolId : string) (o : OracleState) : option float64 :=
  match o_pools o !! poolId with Some state => Some (PriceXY state) | None => None end.
End Oracle.
