(* ===== verification/OracleSync.v ===== *)
(** * OracleSync: the oracle in memory and the oracle on disk.

    The activity tracker in memory and the swaps on disk are two views of one
    history: [agrees] states it, and every observation that is persisted and every
    rollback keep it. *)
From S2P Require Import Prelude.
From S2P Require Import Text.
From S2P Require Import Common.
From S2P Require Import Pool.
From S2P Require Import Activity.
From S2P Require Import ActivityRestart.
From S2P Require Import KeyValue.
From S2P Require Import Table.
From S2P Require Import Indigo.
From S2P Require Import OracleStorage.
From S2P Require Import ActivityStorage.

Section Sync.
Context `{OrderedKV} `{!ActivityCodecs} (Sum256 : string -> list byte) (maxCount maxSize : Z).
(** The pools of one network and protocol, whose digests do not collide. *)
Context (network protocol : string) (w : Z).
Context (digest_inj : forall id id',
  Sum256 (network +:+ String nul (protocol +:+ String nul id)) =
  Sum256 (network +:+ String nul (protocol +:+ String nul id')) -> id = id').
Context (Hw : 0 < w) (Hwu : is_u64 w).
Abbreviation key := (poolActivityKey Sum256).

Record own_swap (s : SwapTransition) : Prop := {
  os_network : sw_Network s = network;
  os_protocol : sw_Protocol s = protocol;
  os_hash : char_free ":" (sw_TxHash s) = true;
  os_index : is_u64 (sw_TxIndex s);
}.

(** Two swaps with the same key are the same swap. *)
Lemma own_key_identity s s' :
  own_swap s -> own_swap s' -> is_u64 (sw_Slot s) -> is_u64 (sw_Slot s') ->
  key s = key s' -> swap_identity s = swap_identity s'.
Proof.
  intros [Hn Hp Hh Hi] [Hn' Hp' Hh' Hi'] Hs Hs' E. unfold poolActivityKey in E. cbv zeta in E.
  apply append_inj_l in E. unfold Format020d in E.
  apply append_sep_inj in E as [Eslot E]; [|by apply char_free_fixed..].
  apply append_sep_inj in E as [Ehash E]; [|done..].
  apply append_sep_inj in E as [Eidx E]; [|by apply char_free_FormatUint..].
  apply Format020d_inj in Eslot; [|done..]. apply FormatUint_inj in Eidx; [|done..].
  apply (f_equal hex_decode) in E. rewrite !hex_decode_encode in E. injection E as E.
  rewrite Hn, Hn', Hp, Hp' in E. apply digest_inj in E.
  unfold swap_identity. congruence.
Qed.

Record agrees (t : ActivityTracker) (d : db) (h : history) (M : gmap string SwapTransition) : Prop := {
  ag_tracks : tracks Sum256 w d h M;
  ag_wf : wf_tracker t;
  ag_window : windowSlots t = w;
  ag_latest : latestSlot t = default 0 (h_latest h);
  ag_own : Forall own_swap (h_log h);
  ag_log : forall k,
    filter (fun s => cutoff_at w (h_high h) <= sw_Slot s) (swaps_of t k) ≡ₚ
    window_swaps k (cutoff_at w (h_high h)) (h_log h);
}.

Lemma agrees_new d t :
  NewActivityTracker w = Ok t ->
  (forall k, String.prefix activityKeyPrefix k = true -> Get d k = None) ->
  Get d activityMetaKey = None -> agrees t d empty_history ∅.
Proof.
  intros Ht Hd Hm. pose proof (wf_new w t Ht ltac:(lia)) as Hwf.
  unfold NewActivityTracker in Ht. go_cases.
  split; cbn; [by apply tracks_empty | done | done | done | constructor|].
  intros k. unfold swaps_of. cbn. by rewrite lookup_empty.
Qed.

(** Whatever is not an activity record may change. *)
Lemma tracks_frame d d' h M :
  (forall k, String.prefix activityKeyPrefix k = true -> Get d' k = Get d k) ->
  Get d' activityMetaKey = Get d activityMetaKey ->
  tracks Sum256 w d h M -> tracks Sum256 w d' h M.
Proof.
  intros Hk Hm [[Ht Hs] ? ? ? ? Hg ?]. split; try done; [|by rewrite Hm].
  split; [by eapply table_frame | done].
Qed.

Lemma agrees_frame t d d' h M :
  (forall k, String.prefix activityKeyPrefix k = true -> Get d' k = Get d k) ->
  Get d' activityMetaKey = Get d activityMetaKey ->
  agrees t d h M -> agrees t d' h M.
Proof. intros Hk Hm []. split; try done. by eapply tracks_frame. Qed.

(** ** What both views report *)

Lemma agrees_volume t d h M net proto poolID atSlot :
  agrees t d h M -> h_high h <= atSlot ->
  totals (Volume net proto poolID atSlot t) =
  totals (volume_spec w net proto poolID atSlot (h_log h)).
Proof.
  intros [HT Hwf Hwin Hlat _ Hlog] Hat.
  pose proof (tk_latest _ _ _ _ _ HT) as Hl.
  assert (latestSlot t <= atSlot) as Hle.
  { rewrite Hlat. destruct (h_latest h); cbn; [lia|]. destruct Hl as [_ Hl]. lia. }
  rewrite Volume_retained, Hwin by done. apply totals_spec_window.
  set (k := pool_key net proto poolID).
  assert (cutoff_at w (h_high h) <= cutoff_at w atSlot) as Hc by (apply cutoff_mono; lia).
  pose proof (wt_swaps _ Hwf k) as Hk.
  rewrite <- (window_weaken k _ _ (h_log h) Hc), <- Hlog, filter_weaken by done.
  unfold window_swaps. erewrite filter_Forall_ext; [done|].
  eapply Forall_impl; [exact Hk|]. cbn. tauto.
Qed.

(** ** Observing a pool state *)

Record good_pool (p : PoolState) : Prop := {
  gp_wf : wf_pool p;
  gp_network : ps_Network p = network;
  gp_protocol : ps_Protocol p = protocol;
  gp_confirmed : ps_FromMempool p = false;
  gp_valid : valid_pool p;
  gp_hash : char_free ":" (ps_TxHash p) = true;
  gp_index : is_u64 (ps_TxIndex p);
  (** the state can be encoded *)
  gp_faithful : faithful p;
  gp_total : is_Some (Marshal p);
}.

Lemma InferSwapTransition_meta previous p tr :
  wf_state previous -> wf_pool p -> InferSwapTransition previous (Some p) = Ok (Some tr) ->
  sw_PoolID tr = ps_PoolId p /\ sw_Network tr = ps_Network p /\ sw_Protocol tr = ps_Protocol p /\
  sw_BlockHash tr = ps_BlockHash p /\ sw_TxHash tr = ps_TxHash p /\ sw_TxIndex tr = ps_TxIndex p /\
  sw_Slot tr = ps_Slot p /\ sw_AssetX tr = aa_Class (ps_AssetX p) /\ sw_AssetY tr = aa_Class (ps_AssetY p).
Proof.
  intros Hprev Hp E. destruct previous as [q|]; [|done].
  rewrite InferSwapTransition_classifies in E by done. cbn zeta in E. go_cases. done.
Qed.

Lemma inferred_swap_good previous p tr :
  wf_state previous -> good_pool p -> InferSwapTransition previous (Some p) = Ok (Some tr) ->
  let s := cloneSwapTransition tr in
  good_swap s /\ own_swap s /\ sw_Slot s = ps_Slot p /\ sw_Key s = Pool.Key p /\ sw_PoolID s = ps_PoolId p.
Proof.
  intros Hprev Hp E s. pose proof (gp_wf _ Hp) as Hwf.
  destruct (InferSwapTransition_meta previous p tr Hprev Hwf E)
    as (E1 & E2 & E3 & E4 & E5 & E6 & E7 & E8 & E9).
  destruct (InferSwapTransition_some previous p tr Hprev Hwf E) as (Hk & _ & Hsw).
  destruct Hp as [_ Hn Hpr _ Hv Hh Hi Hf _]. destruct Hv as (V1 & V2 & V3 & V4).
  assert (cloneSwapTransition s = s) as Hclone by apply cloneSwap_idemp.
  split; [|split_and!; [split; cbn; congruence | done | done | done]].
  split; cbn.
  - rewrite E7. apply Hwf.
  - apply (swap_faithful p); try done. by apply wf_cloneSwap.
  - done.
  - subst s. split_and!; [cbn; congruence..|]. cbn. by rewrite !cloneClass_equiv, E8, E9.
  - by apply wf_cloneSwap.
Qed.

Lemma window_log_put k c s l :
  (forall x, x ∈ l -> c <= sw_Slot x -> key x <> key s) ->
  window_swaps k c (log_put Sum256 s l) = window_swaps k c l ++ window_swaps k c [s].
Proof.
  intros Hx. unfold window_swaps, log_put. rewrite filter_app. f_equal.
  rewrite list_filter_filter. apply filter_Forall_ext, Forall_forall. intros x Hin.
  split; [tauto|]. intros [Hk Hc]. split; [by split | by apply Hx].
Qed.

(** Observing a confirmed state and persisting the outcome keeps the two views in
    agreement; an error changes neither. *)
Lemma agrees_observe previous p t d h M :
  wf_state previous -> good_pool p -> agrees t d h M ->
  let '(t', r) := ObserveTransition previous (Some p) t in
  match r with
  | Err _ => t' = t
  | Ok (s, recorded) =>
      let swap := if recorded : bool then Some s else None in
      exists d', SavePoolStateAndActivity Sum256 maxCount maxSize (Some p) swap w d = (d', Ok tt) /\
        (exists M', agrees t' d' (history_save Sum256 p swap h) M') /\
        (exists data, Marshal p = Some data /\ Get d' (pool_key_of p) = Some data) /\
        forall k, String.prefix activityKeyPrefix k = false -> k <> activityMetaKey ->
          k <> pool_key_of p -> Get d' k = Get d k
  end.
Proof.
  intros Hprev Hp HA. pose proof HA as [HT Hwf Hwin Hlat Hown Hlog].
  pose proof (gp_wf _ Hp) as Hwp. pose proof (wf_Slot _ Hwp) as Hslot.
  unfold ObserveTransition. rewrite (gp_confirmed _ Hp).
  destruct (Z.ltb_spec (ps_Slot p) (latestSlot t)) as [|Hle]; [done|].
  set (t1 := advance (ps_Slot p) t).
  assert (Hadv : forall k, swaps_of t1 k =
    filter (fun s => cutoff_at w (ps_Slot p) <= sw_Slot s) (swaps_of t k)).
  { intros k. rewrite <- Hwin. apply swaps_of_advance, Hwf. }
  assert (Hwf1 : wf_tracker t1) by by apply wf_advance.
  set (high' := Z.max (h_high h) (ps_Slot p)).
  assert (Hcut : cutoff_at w (h_high h) <= cutoff_at w high') by (apply cutoff_mono; lia).
  assert (Hcut' : cutoff_at w (ps_Slot p) <= cutoff_at w high') by (apply cutoff_mono; lia).
  assert (Hwin1 : forall k, filter (fun s => cutoff_at w high' <= sw_Slot s) (swaps_of t1 k) ≡ₚ
    window_swaps k (cutoff_at w high') (h_log h)).
  { intros k. rewrite Hadv, filter_weaken by done.
    rewrite <- (window_weaken k _ _ (h_log h) Hcut), <- Hlog, filter_weaken by done. done. }
  assert (Hlatest : Z.max (default 0 (h_latest h)) (ps_Slot p) = ps_Slot p) by lia.
  (* a save that succeeds keeps the agreement of what the tracker now holds *)
  assert (Hsave : forall swap t',
    (match swap with
     | Some s => good_swap s /\ own_swap s /\ sw_Slot s = ps_Slot p /\ sw_PoolID s = ps_PoolId p
     | None => True end) ->
    wf_tracker t' -> windowSlots t' = w -> latestSlot t' = ps_Slot p ->
    (forall k, filter (fun s => cutoff_at w high' <= sw_Slot s) (swaps_of t' k) ≡ₚ
      window_swaps k (cutoff_at w high')
        (match swap with Some s => log_put Sum256 s (h_log h) | None => h_log h end)) ->
    exists d', SavePoolStateAndActivity Sum256 maxCount maxSize (Some p) swap w d = (d', Ok tt) /\
      (exists M', agrees t' d' (history_save Sum256 p swap h) M') /\
      (exists data, Marshal p = Some data /\ Get d' (pool_key_of p) = Some data) /\
      forall k, String.prefix activityKeyPrefix k = false -> k <> activityMetaKey ->
        k <> pool_key_of p -> Get d' k = Get d k).
  { intros swap t' Hswap Hwf' Hw' Hl' Hlog'.
    destruct (SavePoolStateAndActivity Sum256 maxCount maxSize (Some p) swap w d) as [d' r] eqn:E.
    assert (if swap is Some s then good_swap s else True) as Hgs by (destruct swap; tauto).
    pose proof (save_tracks Sum256 maxCount maxSize w d h M p swap d' r Hw Hwu Hslot Hgs HT E) as Hr.
    destruct r as [[]|e].
    2:{ destruct Hr as [_ Hr]. destruct Hr. split; [apply Hp|].
        destruct swap as [s|]; [|done]. destruct Hswap as (_ & [? ? _ _] & ? & ?).
        destruct Hp. unfold swap_matches. split_and!; congruence. }
    destruct Hr as ([M' HT'] & Hpd & Hf). exists d'. split_and!; [done | | done | done].
    exists M'. split; cbn; [done | done | done | by rewrite Hl', Hlatest | | by rewrite Hlatest].
    destruct swap as [s|]; [|done]. unfold log_put. apply Forall_app.
    split; [by apply Forall_filter_sub | apply Forall_singleton; tauto]. }
  destruct (InferSwapTransition previous (Some p)) as [[tr|]|e] eqn:Einf; [| |done].
  2:{ by apply Hsave. }
  destruct (inferred_swap_good previous p tr Hprev Hp Einf) as (Hgs & Hos & Hss & Hsk & Hsp).
  destruct (find_duplicate tr (swaps_of t (Pool.Key p))) as [[]|e] eqn:Hdup; [by apply Hsave | | done].
  set (s := cloneSwapTransition tr) in *.
  apply Hsave; [done | | done | done |].
  { apply wf_append; [done | done | by rewrite Hss | apply Hgs]. }
  intros k. rewrite swaps_of_append, window_log_put.
  - rewrite <- Hwin1. unfold window_swaps. rewrite filter_cons, filter_nil.
    case_decide as Hk; [subst k|]; rewrite ?filter_app, ?filter_cons, ?filter_nil;
      repeat case_decide; rewrite ?app_nil_r; try done; naive_solver.
  - intros x Hx Hcx Hkey.
    rewrite Forall_forall in Hown. pose proof (tk_good _ _ _ _ _ HT) as Hgood.
    rewrite Forall_forall in Hgood. destruct (Hgood x Hx) as [[Hxu _ _ _ _] _].
    pose proof (own_key_identity x s (Hown x Hx) Hos Hxu (gs_slot _ Hgs) Hkey) as Hid.
    pose proof (identity_key _ _ Hid) as Hxk.
    assert (x ∈ window_swaps (Pool.Key p) (cutoff_at w (h_high h)) (h_log h)) as Hxw.
    { unfold window_swaps. apply list_elem_of_filter. split; [split; [congruence | lia] | done]. }
    rewrite <- Hlog in Hxw. apply list_elem_of_filter in Hxw as [_ Hxt].
    apply find_duplicate_false in Hdup. apply Hdup. rewrite <- (identity_clone tr). fold s.
    rewrite <- Hid. by apply list_elem_of_fmap_2.
Qed.

(** ** Rolling back *)

Lemma agrees_rollback slot t d d' h M M' :
  0 <= slot -> agrees t d h M -> tracks Sum256 w d' (history_cut slot h) M' ->
  agrees (Rollback slot t) d' (history_cut slot h) M'.
Proof.
  intros Hslot [HT Hwf Hwin Hlat Hown Hlog] HT'.
  pose proof (wf_rollback slot t Hwf Hslot) as Hwf'.
  pose proof (latestSlot_Rollback slot t Hslot) as Hl'.
  pose proof (tk_latest _ _ _ _ _ HT) as Hl.
  split; [done | done | done | | |]; cbn [history_cut h_log h_latest h_high].
  - rewrite Hl', Hlat. destruct (h_latest h); cbn; lia.
  - by apply Forall_filter_sub.
  - intros k. rewrite swaps_of_Rollback by apply Hwf. rewrite Hwin.
    rewrite filter_weaken.
    2:{ apply cutoff_mono; [done|]. rewrite Hl', Hlat. destruct (h_latest h); cbn in *; lia. }
    transitivity (filter (fun s => sw_Slot s < slot)
      (filter (fun s => cutoff_at w (h_high h) <= sw_Slot s) (swaps_of t k))).
    { rewrite !list_filter_filter. erewrite list_filter_iff; [done|]. cbn. tauto. }
    rewrite Hlog. unfold window_swaps. rewrite !list_filter_filter.
    erewrite list_filter_iff; [done|]. cbn. tauto.
Qed.
End Sync.
