(* ===== verification/OracleRestart.v ===== *)
(** * OracleRestart: the oracle keeps memory and disk in step.

    [synced] relates the maps of the oracle, its tracker, the confirmed states of
    the mempool manager and the database. Every event keeps it, so the oracle that
    a restart loads is the one that stopped. *)
From S2P Require Import Prelude.
From S2P Require Import Text.
From S2P Require Import Common.
From S2P Require Import Pool.
From S2P Require Import Activity.
From S2P Require Import ActivityRestart.
From S2P Require Import Cbor.
From S2P Require Import Ledger.
From S2P Require Import Mempool.
From S2P Require Import KeyValue.
From S2P Require Import Table.
From S2P Require Import Indigo.
From S2P Require Import OracleStorage.
From S2P Require Import JsonString.
From S2P Require Import JsonRecord.
From S2P Require Import PoolJson.
From S2P Require Import ActivityStorage.
From S2P Require Import Subscribers.
From S2P Require Import Oracle.
From S2P Require Import OracleSync.
From S2P Require Minswap.

(** ** The mempool manager's confirmed states *)

Lemma confirmed_RemovePendingTx h m : mp_confirmed (RemovePendingTx h m) = mp_confirmed m.
Proof. unfold RemovePendingTx. by case_match. Qed.

Lemma confirmed_SetConfirmedState s m :
  mp_confirmed (SetConfirmedState (Some s) m) = ClonePoolState (Some s).
Proof.
  unfold SetConfirmedState. destruct (poolReserves (mp_confirmed m)), (poolReserves (Some s)).
  case_match; cbn [mp_confirmed]; by rewrite confirmed_RemovePendingTx.
Qed.

Lemma confirmed_UpdateConfirmedState id s mgr i :
  UpdateConfirmedState id (Some s) mgr !! i ≫= mp_confirmed =
  if decide (id = i) then ClonePoolState (Some s) else mgr !! i ≫= mp_confirmed.
Proof.
  unfold UpdateConfirmedState, GetOrCreatePoolState.
  destruct (mgr !! id) as [ps|]; rewrite lookup_insert; case_decide as E; try done;
    try (apply confirmed_SetConfirmedState).
  by rewrite lookup_insert_ne.
Qed.

#[export] Instance poolStateKey_inj network protocol : Inj (=) (=) (poolStateKey network protocol).
Proof.
  intros a b E. unfold poolStateKey in E. do 2 apply append_inj_l in E. injection E as E.
  apply append_inj_l in E. by injection E.
Qed.
#[export] Instance cdpStateKey_inj network protocol : Inj (=) (=) (cdpStateKey network protocol).
Proof.
  intros a b E. unfold cdpStateKey in E. do 2 apply append_inj_l in E. injection E as E.
  apply append_inj_l in E. by injection E.
Qed.

Section Restart.
Context `{C : Cbor, L : Ledger, P : !OracleParser} `{OrderedKV} `{!ActivityCodecs} `{!RangeOrder}.
Context (Sum256 : string -> list byte) (maxCount maxSize : Z).
Context (network : string) (poolAddresses : gset string) (synthetics : bool).
Context (digest_inj : forall id id',
  Sum256 (network +:+ String nul (op_Protocol +:+ String nul id)) =
  Sum256 (network +:+ String nul (op_Protocol +:+ String nul id')) -> id = id').

Abbreviation w := defaultPoolActivityWindowSlots.
Abbreviation agree := (agrees Sum256 network op_Protocol w).
Abbreviation good_state := (good_pool network op_Protocol).

Definition cdp_protocol : string :=
  match op_cdp with Some parser => @CDP_Protocol _ parser | None => "" end.

Record good_cdp (s : CDPState) : Prop := {
  gc_network : cs_Network s = network;
  gc_protocol : cs_Protocol s = cdp_protocol;
  gc_faithful : faithful s;
  gc_total : is_Some (Marshal s);
}.

Record synced (o : OracleState) (h : history) : Prop := {
  sy_activity : exists t M, o_activity o = Some t /\ agree t (o_db o) h M;
  sy_pools : map_Forall (fun id p => ps_PoolId p = id /\ good_state p) (o_pools o);
  sy_pools_db : pools_stored (o_db o) (kmap (poolStateKey network op_Protocol) (o_pools o));
  sy_cdps : map_Forall (fun id s => cs_CDPId s = id /\ good_cdp s) (o_cdps o);
  sy_cdps_db : cdps_stored (o_db o) (kmap (cdpStateKey network cdp_protocol) (o_cdps o));
  sy_mempool : forall id,
    o_mempool o !! id ≫= mp_confirmed = o_pools o !! id ≫= fun p => ClonePoolState (Some p);
}.

Lemma w_positive : 0 < w.
Proof. done. Qed.
Lemma w_u64 : is_u64 w.
Proof. done. Qed.
Hint Resolve w_positive w_u64 : core.

Lemma synced_New d :
  (forall k, Get d k = None) -> synced (New d) empty_history.
Proof.
  intros Hd. split; cbn.
  - exists (mkTracker w 0 ∅), ∅. split; [done|]. by apply agrees_new.
  - apply map_Forall_empty.
  - rewrite kmap_empty. by apply table_empty.
  - apply map_Forall_empty.
  - rewrite kmap_empty. by apply table_empty.
  - intros id. by rewrite !lookup_empty.
Qed.

Lemma pool_key_good p : good_state p -> pool_key_of p = poolStateKey network op_Protocol (ps_PoolId p).
Proof. intros []. unfold pool_key_of. congruence. Qed.
Lemma cdp_key_good s : good_cdp s -> cdp_key_of s = cdpStateKey network cdp_protocol (cs_CDPId s).
Proof. intros []. unfold cdp_key_of. congruence. Qed.

Lemma prefixes_apart k :
  (String.prefix poolStateKeyPrefix k = true ->
    String.prefix activityKeyPrefix k = false /\ k <> activityMetaKey) /\
  (String.prefix cdpStateKeyPrefix k = true ->
    String.prefix activityKeyPrefix k = false /\ k <> activityMetaKey /\
    String.prefix poolStateKeyPrefix k = false).
Proof. split; intros [r ->]%prefix_strip; done. Qed.

(** ** A pool state is recorded *)

Lemma handle_pool_synced now sched blockHash parsed o h :
  good_state (set_pool_meta network blockHash now parsed) -> synced o h ->
  exists h', synced (handle_pool Sum256 maxCount maxSize network now sched blockHash parsed o).1 h' /\
    h_high h <= h_high h' <= Z.max (h_high h) (ps_Slot parsed).
Proof.
  intros Hp [(t & M & Hact & HA) Hpools Hpdb Hcdps Hcdb Hmem]. unfold handle_pool.
  set (p := set_pool_meta network blockHash now parsed) in *.
  assert (wf_state (o_pools o !! ps_PoolId p)) as Hprev.
  { destruct (o_pools o !! ps_PoolId p) as [q|] eqn:E; [|done]. by apply (Hpools _ _ E). }
  pose proof (agrees_observe Sum256 maxCount maxSize network op_Protocol w digest_inj w_positive w_u64
    _ p t (o_db o) h M Hprev Hp HA) as Hobs.
  rewrite Hact. destruct (ObserveTransition (o_pools o !! ps_PoolId p) (Some p) t) as [t' [[s rec]|e]].
  2:{ subst t'. exists h. cbn [fst]. split; [|lia]. split; try done. by exists t, M. }
  destruct Hobs as (d' & Hsave & [M' HA'] & (data & Hdata & Hget) & Hframe).
  cbn [o_activity set_pools set_activity o_db].
  rewrite (ag_window _ _ _ _ _ _ _ _ HA'), Hsave. cbn [map_err o_mempool set_db].
  set (swap := if rec then Some s else None) in *.
  exists (history_save Sum256 p swap h).
  pose proof (ag_tracks _ _ _ _ _ _ _ _ HA) as HT. pose proof (tk_latest _ _ _ _ _ HT) as Hl.
  split.
  2:{ cbn. change (ps_Slot p) with (ps_Slot parsed). destruct (h_latest h); cbn; [lia|].
      destruct Hl as [_ ->]. lia. }
  assert (forall o', o_activity o' = Some t' -> o_db o' = d' ->
    o_pools o' = <[ps_PoolId p := p]> (o_pools o) -> o_cdps o' = o_cdps o ->
    o_mempool o' = UpdateConfirmedState (ps_PoolId p) (Some p) (o_mempool o) ->
    synced o' (history_save Sum256 p swap h)) as Hsync.
  { intros o' E1 E2 E3 E4 E5. split; rewrite ?E1, ?E2, ?E3, ?E4, ?E5.
    - by exists t', M'.
    - apply map_Forall_insert_2; [by split | done].
    - rewrite kmap_insert, <- (pool_key_good p) by (done || apply _).
      eapply table_frame; [|apply (table_Set _ _ (o_db o) _ p data); [done | apply Hp | apply pool_key_prefix | exact Hpdb]].
      intros k Hk. destruct (decide (pool_key_of p = k)) as [<-|Hne]; [by rewrite Get_Set_eq|].
      rewrite Get_Set_ne by done. destruct (proj1 (prefixes_apart k) Hk).
      apply Hframe; [done..|]. congruence.
    - done.
    - eapply table_frame; [|exact Hcdb]. intros k Hk.
      destruct (proj2 (prefixes_apart k) Hk) as (? & ? & Hkp).
      apply Hframe; [done..|]. intros ->. by rewrite pool_key_prefix in Hkp.
    - intros id. rewrite confirmed_UpdateConfirmedState, lookup_insert. by case_decide. }
  unfold notifySubscribers. destruct (NewPriceUpdate _ _) as [u|]; [|by apply Hsync].
  destruct (notify_loop _ _ _ _) as [subs drops]. by apply Hsync.
Qed.

(** ** Debt positions *)

Lemma activity_frame t d d' h M :
  (forall k, String.prefix activityKeyPrefix k = true \/ k = activityMetaKey -> Get d' k = Get d k) ->
  agree t d h M -> agree t d' h M.
Proof. intros Hk. apply agrees_frame; [intros; apply Hk; by left | apply Hk; by right]. Qed.

Lemma handleProducedCDPOutput_synced now parser blockHash ctx u o h :
  op_cdp = Some parser ->
  (forall datum s, out_Datum (u_Output u) = Some datum ->
    ParseCDPDatum datum (tc_TransactionHash ctx) (u_Index u) (tc_SlotNumber ctx) now = Ok (Some s) ->
    good_cdp (set_cdp_meta network CDP_Protocol blockHash now s)) ->
  synced o h -> synced (handleProducedCDPOutput network now parser blockHash ctx u o) h.
Proof.
  intros Hparser Hgood Hs. unfold handleProducedCDPOutput.
  destruct (out_Datum (u_Output u)) as [datum|] eqn:Ed; [|done].
  destruct (ParseCDPDatum _ _ _ _ _) as [[s|]|] eqn:Ep; [|done..].
  specialize (Hgood datum s eq_refl Ep). set (c := set_cdp_meta _ _ _ _ s) in *.
  destruct Hs as [(t & M & Hact & HA) Hpools Hpdb Hcdps Hcdb Hmem].
  unfold SaveCDPState, save_record, Update. cbn [o_db set_cdps]. pose proof (gc_total _ Hgood) as [data Hd].
  rewrite Hd. split; cbn.
  - exists t, M. split; [done|]. eapply activity_frame; [|exact HA].
    intros k Hk. apply Get_Set_ne. intros <-. destruct Hk as [Hk|Hk]; done.
  - done.
  - by apply table_Set_other.
  - by apply map_Forall_insert_2.
  - rewrite kmap_insert by apply _.
    pose proof (cdp_key_good c Hgood : _ = cdpStateKey network cdp_protocol (cs_CDPId s)) as <-.
    apply table_Set; [done | apply Hgood | apply cdp_key_prefix | exact Hcdb].
  - done.
Qed.

Lemma delete_spent_synced parser o h input :
  op_cdp = Some parser -> synced o h -> synced (delete_spent network parser o input) h.
Proof.
  intros Hparser Hs. unfold delete_spent, deleteCDPStateByID.
  set (id := CDPIdForOutput input.1 input.2).
  destruct (o_cdps o !! id) as [s|] eqn:E; [|done].
  destruct Hs as [(t & M & Hact & HA) Hpools Hpdb Hcdps Hcdb Hmem].
  destruct (Hcdps _ _ E) as [Hid [Hn Hpr _ _]].
  assert (cdp_protocol = CDP_Protocol) as Hcp by (unfold cdp_protocol; by rewrite Hparser).
  assert ((if bool_decide (cs_Network s = "") then network else cs_Network s) = network) as ->
    by (rewrite Hn; by case_bool_decide).
  assert ((if bool_decide (cs_Protocol s = "") then CDP_Protocol else cs_Protocol s) = cdp_protocol) as ->
    by (rewrite Hpr, <- Hcp; by case_bool_decide).
  unfold DeleteCDPState, delete_record, Update. split; cbn.
  - exists t, M. split; [done|]. eapply activity_frame; [|exact HA].
    intros k Hk. apply Get_Delete_ne. intros <-. destruct Hk as [Hk|Hk]; done.
  - done.
  - by apply table_Delete_other.
  - by apply map_Forall_delete.
  - apply table_kmap_delete; [apply _ | exact Hcdb].
  - done.
Qed.

(** ** Transactions *)

(** A state that can be recorded: its identifiers are not empty and its assets
    differ, and it can be encoded. *)
Record recordable (p : PoolState) : Prop := {
  rc_valid : valid_pool p;
  rc_faithful : faithful p;
  rc_total : is_Some (Marshal p);
}.

Record good_output (now : Z) (blockHash : string) (ctx : TransactionContext) (u : utxo) : Prop := {
  go_index : is_u64 (u_Index u);
  go_pool : forall datum p, out_Datum (u_Output u) = Some datum ->
    op_ParsePoolDatum datum (out_Cbor (u_Output u)) (tc_TransactionHash ctx) (u_Index u)
      (tc_SlotNumber ctx) now = Ok (Some p) ->
    recordable (set_pool_meta network blockHash now p);
  go_cdp : forall parser datum s, op_cdp = Some parser -> out_Datum (u_Output u) = Some datum ->
    ParseCDPDatum datum (tc_TransactionHash ctx) (u_Index u) (tc_SlotNumber ctx) now = Ok (Some s) ->
    let s' := set_cdp_meta network CDP_Protocol blockHash now s in
    faithful s' /\ is_Some (Marshal s');
}.

Definition good_event (now : Z) (evt : chain_event) : Prop :=
  match evt with
  | EvTransaction (Some ctx) txEvt =>
      is_u64 (tc_SlotNumber ctx) /\ char_free ":" (tc_TransactionHash ctx) = true /\
      Forall (good_output now (te_BlockHash txEvt) ctx) (producedUTXOs txEvt (tc_TransactionHash ctx))
  | EvTransaction None _ => True
  | EvRollback slot => is_u64 slot
  | EvOther => True
  end.

Lemma parsed_good datum utxoValue txHash txIndex slot timestamp p blockHash now :
  is_u64 slot -> is_u64 txIndex -> char_free ":" txHash = true ->
  op_ParsePoolDatum datum utxoValue txHash txIndex slot timestamp = Ok (Some p) ->
  recordable (set_pool_meta network blockHash now p) ->
  good_state (set_pool_meta network blockHash now p) /\ ps_Slot p = slot.
Proof.
  intros Hslot Hidx Hhash (s & -> & Hs)%op_sound [].
  destruct Hs as [HX HY Hfee Hden (Hp & Hh & Hi & Hsl & _)].
  split; [|done]. split; cbn in *; try done; try congruence.
  split; unfold ps_X, ps_Y; cbn; try done; try int_lia.
Qed.

Lemma handle_utxos_synced now sched blockHash ctx utxos o h :
  is_u64 (tc_SlotNumber ctx) -> char_free ":" (tc_TransactionHash ctx) = true ->
  Forall (good_output now blockHash ctx) utxos -> synced o h ->
  exists h', synced (handle_utxos Sum256 maxCount maxSize network poolAddresses synthetics
      now sched blockHash ctx utxos o).1 h' /\
    h_high h <= h_high h' <= Z.max (h_high h) (tc_SlotNumber ctx).
Proof.
  intros Hslot Hhash Hu. revert o h. induction Hu as [|u utxos Hg _ IH]; intros o h Hs.
  { exists h. split; [done|lia]. }
  cbn [handle_utxos]. destruct (negb _); [by apply IH|].
  destruct (out_Datum (u_Output u)) as [datum|] eqn:Ed; [|by apply IH].
  destruct (if synthetics then op_cdp else None) as [parser|] eqn:Ec.
  - apply IH. assert (op_cdp = Some parser) as Hparser by (destruct synthetics; done).
    apply handleProducedCDPOutput_synced; [done | | done].
    intros datum' s Hd' Hps. destruct (go_cdp _ _ _ _ Hg parser datum' s Hparser Hd' Hps).
    split; [done | | done | done]. cbn. unfold cdp_protocol. by rewrite Hparser.
  - destruct (op_ParsePoolDatum _ _ _ _ _ _) as [[p|]|e] eqn:Ep; [|by apply IH..].
    destruct (parsed_good _ _ _ _ _ _ _ blockHash now Hslot (go_index _ _ _ _ Hg) Hhash Ep
      (go_pool _ _ _ _ Hg datum p Ed Ep)) as [Hgp Hps].
    destruct (handle_pool_synced now sched blockHash p o h Hgp Hs) as (h1 & Hs1 & Hh1).
    destruct (handle_pool _ _ _ _ _ _ _ p o) as [o1 [[]|e1]]; cbn [fst] in Hs1.
    + destruct (IH o1 h1 Hs1) as (h2 & Hs2 & Hh2). exists h2. split; [done|lia].
    + exists h1. split; [done|lia].
Qed.

Lemma deleteSpent_synced parser inputs o h :
  op_cdp = Some parser -> synced o h -> synced (deleteSpentCDPStates network parser inputs o) h.
Proof.
  intros Hp. revert o. induction inputs as [|i inputs IH]; intros o Hs; [done|].
  apply IH. by apply delete_spent_synced.
Qed.

Lemma handleTransaction_synced now sched ctx txEvt o h :
  good_event now (EvTransaction ctx txEvt) -> synced o h ->
  exists h', synced (handleTransaction Sum256 maxCount maxSize network poolAddresses synthetics
      now sched ctx txEvt o).1 h' /\
    h_high h <= h_high h' <= Z.max (h_high h) (if ctx is Some c then tc_SlotNumber c else 0).
Proof.
  intros Hg Hs. destruct ctx as [ctx|]; cbn [handleTransaction].
  2:{ exists h. split; [done|lia]. }
  destruct Hg as (Hslot & Hhash & Hu). apply handle_utxos_synced; [done..|].
  destruct (if synthetics then op_cdp else None) as [parser|] eqn:Ec; [|done].
  apply deleteSpent_synced; [by destruct synthetics | done].
Qed.

(** ** Rollbacks *)

Lemma foldl_remove_pool l (o : OracleState) :
  foldl remove_pool o l = set_pools (foldl (fun m s => delete (ps_PoolId s) m) (o_pools o) l) o.
Proof.
  revert o. induction l as [|p l IH]; intros o; cbn [foldl]; [by destruct o|]. by rewrite IH.
Qed.
Lemma foldl_remove_cdp l (o : OracleState) :
  foldl remove_cdp o l = set_cdps (foldl (fun m s => delete (cs_CDPId s) m) (o_cdps o) l) o.
Proof.
  revert o. induction l as [|p l IH]; intros o; cbn [foldl]; [by destruct o|]. by rewrite IH.
Qed.
Lemma foldl_remove_mempool (l : list PoolState) (o : OracleState) :
  foldl (fun o s => set_mempool (RemovePoolState (ps_PoolId s) (o_mempool o)) o) o l =
  set_mempool (foldl (fun m s => delete (ps_PoolId s) m) (o_mempool o) l) o.
Proof.
  revert o. induction l as [|p l IH]; intros o; cbn [foldl]; [by destruct o|]. by rewrite IH.
Qed.
Lemma foldl_delete_stored_pool l (o : OracleState) errs :
  foldl delete_stored_pool (o, errs) l = (set_db (delete_all (pool_key_of <$> l) (o_db o)) o, errs).
Proof.
  revert o. induction l as [|p l IH]; intros o; cbn [foldl]; [by destruct o|].
  unfold delete_stored_pool at 2, DeletePoolState, delete_record, Update. rewrite IH. done.
Qed.
Lemma foldl_delete_stored_cdp l (o : OracleState) errs :
  foldl delete_stored_cdp (o, errs) l = (set_db (delete_all (cdp_key_of <$> l) (o_db o)) o, errs).
Proof.
  revert o. induction l as [|p l IH]; intros o; cbn [foldl]; [by destruct o|].
  unfold delete_stored_cdp at 2, DeleteCDPState, delete_record, Update. rewrite IH. done.
Qed.

(** What a rollback leaves: see the theorem below. *)
Record rolled_back (first : Z) (o o' : OracleState) : Prop := {
  rb_pools : o_pools o' = filter (fun kv => ~ first <= ps_Slot kv.2) (o_pools o);
  rb_cdps : o_cdps o' = filter (fun kv => ~ first <= cs_Slot kv.2) (o_cdps o);
  rb_activity : o_activity o' = Rollback first <$> o_activity o;
  rb_subscribers : o_subscribers o' = o_subscribers o;
}.

Lemma handleRollback_synced slot o h :
  is_u64 slot -> synced o h ->
  exists o', handleRollback maxCount maxSize slot o = (o', Ok tt) /\
    synced o' (history_cut (firstRolledBackSlot slot) h) /\
    rolled_back (firstRolledBackSlot slot) o o'.
Proof.
  intros Hslot [(t & M & Hact & HA) Hpools Hpdb Hcdps Hcdb Hmem].
  pose proof (firstRolledBackSlot_u64 slot Hslot) as Hfirst.
  unfold handleRollback. set (first := firstRolledBackSlot slot) in *.
  set (lp := pools_from first o). rewrite foldl_remove_pool.
  set (o1 := set_pools _ o). change (cdps_from first o1) with (cdps_from first o).
  set (lc := cdps_from first o). rewrite foldl_remove_cdp.
  change (o_cdps o1) with (o_cdps o). change (o_db (set_cdps _ o1)) with (o_db o).
  pose proof (ag_tracks _ _ _ _ _ _ _ _ HA) as HT.
  destruct (RollbackActivity_result Sum256 maxCount maxSize w (S (length (rows (o_db o)))) first
    (o_db o) h M w_u64 Hfirst HT ltac:(lia)) as (d1 & Hrb & [M' HT'] & _ & Hframe).
  assert (rollback_storage maxCount maxSize first (o_db o) = (d1, Ok tt)) as Hstore.
  { unfold rollback_storage.
    rewrite (Keys_of_rows Sum256 (o_db o) M), length_fmap by apply HT. by rewrite Hrb. }
  rewrite Hstore. cbn [is_ok o_activity set_db set_cdps set_pools o1]. rewrite Hact.
  rewrite foldl_remove_mempool. rewrite foldl_delete_stored_pool. rewrite foldl_delete_stored_cdp.
  eexists. split; [done|].
  assert (map_Forall (fun i p => ps_PoolId p = i) (o_pools o)) as Hpid
    by (eapply map_Forall_impl; [exact Hpools | naive_solver]).
  assert (map_Forall (fun i s => cs_CDPId s = i) (o_cdps o)) as Hcid
    by (eapply map_Forall_impl; [exact Hcdps | naive_solver]).
  assert (lp ≡ₚ filter (fun s => first <= ps_Slot s) (map_to_list (o_pools o)).*2) as Hlp
    by apply range_filter_perm.
  assert (lc ≡ₚ filter (fun s => first <= cs_Slot s) (map_to_list (o_cdps o)).*2) as Hlc
    by apply range_filter_perm.
  pose proof (foldl_delete_filter ps_PoolId (fun s => first <= ps_Slot s) (o_pools o) lp Hpid Hlp) as Hfp.
  pose proof (foldl_delete_filter cs_CDPId (fun s => first <= cs_Slot s) (o_cdps o) lc Hcid Hlc) as Hfc.
  assert (Forall (fun s => pool_key_of s = poolStateKey network op_Protocol (ps_PoolId s)) lp) as Hkp.
  { rewrite Hlp. apply Forall_filter_sub, Forall_fmap, Forall_forall. intros [k p] Hk%elem_of_map_to_list.
    apply pool_key_good, (Hpools _ _ Hk). }
  assert (Forall (fun s => cdp_key_of s = cdpStateKey network cdp_protocol (cs_CDPId s)) lc) as Hkc.
  { rewrite Hlc. apply Forall_filter_sub, Forall_fmap, Forall_forall. intros [k p] Hk%elem_of_map_to_list.
    apply cdp_key_good, (Hcdps _ _ Hk). }
  set (d2 := delete_all (pool_key_of <$> lp) d1). set (d3 := delete_all (cdp_key_of <$> lc) d2).
  assert (forall k, String.prefix poolStateKeyPrefix k = false -> Get d2 k = Get d1 k) as Hd2.
  { intros k Hk. unfold d2. rewrite Get_delete_all, decide_False; [done|].
    intros (s & -> & _)%list_elem_of_fmap. by rewrite pool_key_prefix in Hk. }
  assert (forall k, String.prefix cdpStateKeyPrefix k = false -> Get d3 k = Get d2 k) as Hd3.
  { intros k Hk. unfold d3. rewrite Get_delete_all, decide_False; [done|].
    intros (s & -> & _)%list_elem_of_fmap. by rewrite cdp_key_prefix in Hk. }
  split.
  - split; cbn.
    + exists (Rollback first t), M'. split; [done|]. fold d2 d3.
      eapply activity_frame; [|eapply agrees_rollback; [apply w_positive | apply Hfirst | exact HA | exact HT']].
      intros k Hk. assert (String.prefix poolStateKeyPrefix k = false /\
        String.prefix cdpStateKeyPrefix k = false) as [Hk1 Hk2].
      { destruct Hk as [[r ->]%prefix_strip| ->]; done. }
      by rewrite Hd3, Hd2.
    + rewrite Hfp. intros i p [Hp _]%map_lookup_filter_Some. by apply Hpools.
    + fold d2 d3. eapply table_frame.
      * intros k Hk. apply Hd3. by apply prefix_apart.
      * apply (fun Ht => table_delete_rows poolStateKeyPrefix pool_key_of (poolStateKey network op_Protocol)
          ps_PoolId lp d1 (o_pools o) Hkp Ht).
        eapply table_frame; [|exact Hpdb]. intros k Hk.
        destruct (proj1 (prefixes_apart k) Hk) as [? ?]. by apply Hframe.
    + rewrite Hfc. intros i s [Hs _]%map_lookup_filter_Some. by apply Hcdps.
    + fold d2 d3. apply (fun Ht => table_delete_rows cdpStateKeyPrefix cdp_key_of (cdpStateKey network cdp_protocol)
          cs_CDPId lc d2 (o_cdps o) Hkc Ht).
      eapply table_frame; [|exact Hcdb]. intros k Hk.
      destruct (proj2 (prefixes_apart k) Hk) as (? & ? & ?). rewrite Hd2 by done. by apply Hframe.
    + intros id. rewrite !foldl_delete_lookup. case_decide; [done|]. apply Hmem.
  - split; cbn; [done | done | by rewrite Hact | done].
Qed.

(** ** Restarts *)

Lemma fold_confirmed l (mgr : gmap string MempoolPoolState) (m : gmap string PoolState) :
  (forall i, mgr !! i ≫= mp_confirmed = m !! i ≫= fun p => ClonePoolState (Some p)) ->
  forall i, foldl (fun m s => UpdateConfirmedState (ps_PoolId s) (Some s) m) mgr l !! i ≫= mp_confirmed =
    foldl (fun m s => <[ps_PoolId s := s]> m) m l !! i ≫= fun p => ClonePoolState (Some p).
Proof.
  revert mgr m. induction l as [|s l IH]; intros mgr m Hm; [done|]. cbn [foldl]. apply IH.
  intros i. rewrite confirmed_UpdateConfirmedState, lookup_insert. by case_decide.
Qed.

(** Loading what is stored gives an oracle in the same state. *)
Lemma loadPersistedStates_synced o h :
  synced o h ->
  exists o', loadPersistedStates (New (o_db o)) = (o', Ok tt) /\ synced o' h /\
    o_pools o' = o_pools o /\ o_cdps o' = o_cdps o /\ o_db o' = o_db o.
Proof.
  intros [(t & M & Hact & HA) Hpools Hpdb Hcdps Hcdb Hmem].
  pose proof (ag_tracks _ _ _ _ _ _ _ _ HA) as HT.
  pose proof (tk_latest _ _ _ _ _ HT) as Hl.
  unfold loadPersistedStates. cbn [New o_db o_activity o_pools o_cdps o_mempool].
  rewrite (LoadActivityState_result Sum256 w (o_db o) h M w_positive w_u64 HT).
  set (fresh := mkTracker w 0 ∅).
  assert (match NewActivityTracker w with Ok t => Some t | Err _ => None end = Some fresh) as ->
    by done.
  assert (exists t', (match h_latest h with
      | Some latest => Restore (mkActivityState w latest (rows (o_db o))) fresh
      | None => (fresh, Ok tt) end) = (t', Ok tt) /\ agree t' (o_db o) h M) as (t' & HR & HA').
  { destruct (h_latest h) as [latest|] eqn:El.
    - destruct (restore_tracks Sum256 w (o_db o) h M latest fresh)
        as (t' & HR & Hwf & Htw & Htl & HV); [done..|].
      exists t'. split; [done|]. split; [done..| by rewrite El | apply HA |].
      intros k. by apply HV.
    - exists fresh. split; [done|].
      split; try done; [by apply (wf_new w) | by rewrite El | apply HA |].
      intros k. destruct Hl as [Hlog _]. rewrite Hlog. unfold swaps_of, fresh. cbn.
      by rewrite lookup_empty. }
  assert ((if as_WindowSlots (match h_latest h with
      | Some latest => mkActivityState w latest (rows (o_db o))
      | None => mkActivityState 0 0 [] end) =? 0 then (fresh, Ok tt)
    else Restore (match h_latest h with
      | Some latest => mkActivityState w latest (rows (o_db o))
      | None => mkActivityState 0 0 [] end) fresh) = (t', Ok tt)) as ->
    by by destruct (h_latest h).
  eexists. split; [done|].
  assert (foldl (fun m s => <[ps_PoolId s := s]> m) ∅ (LoadAllPoolStates (o_db o)) = o_pools o) as Ep.
  { apply foldl_insert_values; [eapply map_Forall_impl; [exact Hpools | naive_solver]|].
    exact (load_all_kmap _ pool_key_of zeroPool (poolStateKey network op_Protocol) _ _ Hpdb). }
  assert (foldl (fun m s => <[cs_CDPId s := s]> m) ∅ (LoadAllCDPStates (o_db o)) = o_cdps o) as Ec.
  { apply foldl_insert_values; [eapply map_Forall_impl; [exact Hcdps | naive_solver]|].
    exact (load_all_kmap _ cdp_key_of zeroCDP (cdpStateKey network cdp_protocol) _ _ Hcdb). }
  split; [|by cbn; rewrite Ep, Ec]. split; cbn; rewrite ?Ep, ?Ec; try done.
  - by exists t', M.
  - intros i. rewrite fold_confirmed with (m := ∅); [by rewrite Ep|].
    intros j. unfold NewMempoolStateManager. by rewrite !lookup_empty.
Qed.

(** ** Runs *)

(** What happens to an oracle: an event is delivered, or the process is restarted
    over the same database. *)
Inductive oracle_action :=
| ActEvent (now : Z) (sched : Z -> nat * nat) (evt : chain_event)
| ActRestart.

Definition oracle_step (o : OracleState) (a : oracle_action) : OracleState :=
  match a with
  | ActEvent now sched evt =>
      (HandleChainsyncEvent Sum256 maxCount maxSize network poolAddresses synthetics now sched evt o).1
  | ActRestart => (loadPersistedStates (New (o_db o))).1
  end.
Definition run_oracle (acts : list oracle_action) (o : OracleState) : OracleState :=
  foldl oracle_step o acts.

Definition good_action (a : oracle_action) : Prop :=
  match a with ActEvent now _ evt => good_event now evt | ActRestart => True end.

Definition action_slot (a : oracle_action) : Z :=
  match a with ActEvent _ _ (EvTransaction (Some ctx) _) => tc_SlotNumber ctx | _ => 0 end.

Lemma oracle_step_synced a o h :
  good_action a -> synced o h ->
  exists h', synced (oracle_step o a) h' /\ h_high h <= h_high h' <= Z.max (h_high h) (action_slot a).
Proof.
  intros Hg Hs. destruct a as [now sched [ctx txEvt|slot|]|]; cbn [oracle_step HandleChainsyncEvent].
  - destruct (handleTransaction_synced now sched ctx txEvt o h Hg Hs) as (h' & Hs' & Hh).
    destruct (handleTransaction _ _ _ _ _ _ _ _ ctx txEvt o) as [o' r]. exists h'.
    split; [done|]. by destruct ctx.
  - destruct (handleRollback_synced slot o h Hg Hs) as (o' & -> & Hs' & _).
    eexists. split; [done|]. cbn. lia.
  - exists h. split; [done|]. cbn. lia.
  - destruct (loadPersistedStates_synced o h Hs) as (o' & -> & Hs' & _).
    exists h. split; [done|]. cbn. lia.
Qed.

Lemma run_oracle_synced acts o h :
  Forall good_action acts -> synced o h ->
  exists h', synced (run_oracle acts o) h' /\
    h_high h <= h_high h' <= foldl (fun m a => Z.max m (action_slot a)) (h_high h) acts.
Proof.
  intros Hg. revert o h. induction Hg as [|a acts Ha _ IH]; intros o h Hs.
  { exists h. cbn. split; [done|lia]. }
  destruct (oracle_step_synced a o h Ha Hs) as (h1 & Hs1 & Hh1).
  destruct (IH _ _ Hs1) as (h2 & Hs2 & Hh2). exists h2. split; [done|]. cbn [foldl].
  assert (forall l x y, x <= y -> foldl (fun m a => Z.max m (action_slot a)) x l <=
    foldl (fun m a => Z.max m (action_slot a)) y l) as Hmono.
  { intros l. induction l as [|b l IHl]; intros x y Hxy; [done|]. cbn. apply IHl. lia. }
  pose proof (Hmono acts _ _ (proj2 Hh1)). lia.
Qed.

Lemma synced_volume o o' h poolId atSlot :
  synced o h -> synced o' h -> o_pools o' = o_pools o -> h_high h <= atSlot ->
  totals (GetPoolVolume poolId atSlot o') = totals (GetPoolVolume poolId atSlot o).
Proof.
  intros [(t & M & Hact & HA) _ _ _ _ _] [(t' & M' & Hact' & HA') _ _ _ _ _] Hp Hat.
  unfold GetPoolVolume, GetPoolState. rewrite Hp, Hact, Hact'. destruct (o_pools o !! poolId) as [p|]; [|done].
  etrans; [|symmetry]; by eapply agrees_volume.
Qed.

Lemma foldl_max_slot acts m c :
  m <= c -> Forall (fun a => action_slot a <= c) acts ->
  foldl (fun m a => Z.max m (action_slot a)) m acts <= c.
Proof.
  intros Hm Ha. revert m Hm. induction Ha as [|a acts Ha _ IH]; intros m Hm; [done|].
  cbn. apply IH. lia.
Qed.

(** C1: a restart is invisible, for everything that can be recorded. Take any
    events, rollbacks and earlier restarts from an empty database, where every pool and
    debt position parsed from the events can be recorded ([good_action]): a pool has
    non-empty identifiers and two different assets, each state can be encoded, slots
    and output indexes fit 64 bits, and transaction hashes hold no colon. Then loading
    what is stored succeeds and gives the pools, the debt positions and the confirmed
    mempool states that were in memory, and every volume query at a slot no earlier
    than that of any of the events gets the same answer. The condition on the assets is
    needed: see [same_asset_pool_blocks_restart]. *)
Theorem oracle_survives_restart acts d0 :
  (forall k, Get d0 k = None) -> Forall good_action acts ->
  let o := run_oracle acts (New d0) in
  exists o', loadPersistedStates (New (o_db o)) = (o', Ok tt) /\
    o_pools o' = o_pools o /\ o_cdps o' = o_cdps o /\
    (forall id, (o_mempool o' !! id ≫= mp_confirmed) = (o_mempool o !! id ≫= mp_confirmed)) /\
    forall poolId atSlot, 0 <= atSlot -> Forall (fun a => action_slot a <= atSlot) acts ->
      totals (GetPoolVolume poolId atSlot o') = totals (GetPoolVolume poolId atSlot o).
Proof.
  intros Hd Hg o. destruct (run_oracle_synced acts (New d0) empty_history Hg (synced_New d0 Hd))
    as (h & Hs & Hh). fold o in Hs.
  destruct (loadPersistedStates_synced o h Hs) as (o' & E & Hs' & Hp & Hc & _).
  exists o'. split_and!; [done..| |].
  - intros id. by rewrite (sy_mempool _ _ Hs'), (sy_mempool _ _ Hs), Hp.
  - intros poolId atSlot Hat Hslots. apply (synced_volume o o' h); [done..|].
    pose proof (foldl_max_slot acts (h_high empty_history) atSlot Hat Hslots). lia.
Qed.

(** ** A pool of two equal assets *)

Lemma recorded_swap previous p t t' s :
  wf_state previous -> wf_pool p -> ObserveTransition previous (Some p) t = (t', Ok (s, true)) ->
  windowSlots t' = windowSlots t /\ wf_swap s /\ sw_Slot s = ps_Slot p /\
  (faithful p -> faithful s) /\
  same_asset (sw_AssetX s) (sw_AssetY s) =
    same_asset (aa_Class (ps_AssetX p)) (aa_Class (ps_AssetY p)).
Proof.
  intros Hprev Hp. unfold ObserveTransition.
  destruct (ps_FromMempool p); [done|]. destruct (_ <? _); [done|].
  destruct (InferSwapTransition previous (Some p)) as [[tr|]|e] eqn:E; [|done..].
  destruct (find_duplicate _ _) as [[]|]; [done| |done]. intros [= <- <-].
  destruct (InferSwapTransition_meta previous p tr Hprev Hp E)
    as (E1 & E2 & E3 & E4 & E5 & E6 & E7 & E8 & E9).
  destruct (InferSwapTransition_some previous p tr Hprev Hp E) as (_ & Hslot & Hwf).
  apply wf_cloneSwap in Hwf. split_and!; [done | done | done | | ].
  - intros Hf. by apply (swap_faithful p).
  - cbn. by rewrite !cloneClass_equiv, E8, E9.
Qed.

(** C10: one swap of a pool of two equal assets, and the oracle does not start again.
    Whatever the state of the oracle: when an output makes it record a swap of such a
    pool, and it stores the swap without an error, then loading what is stored fails
    from then on, and with it the start of the oracle. Neither the parsers nor the
    tracker look whether the two assets of a pool differ; [Restore] does. *)
Theorem same_asset_pool_blocks_restart now sched blockHash parsed t t' s o o' :
  let p := set_pool_meta network blockHash now parsed in
  same_asset (aa_Class (ps_AssetX p)) (aa_Class (ps_AssetY p)) = true ->
  o_activity o = Some t -> 0 < windowSlots t ->
  wf_pool p -> faithful p -> wf_state (o_pools o !! ps_PoolId p) ->
  (forall v m, Get (o_db o) activityMetaKey = Some v ->
     Unmarshal v (mkMeta (windowSlots t) (ps_Slot p)) = Some m -> am_LatestSlot m <= ps_Slot p) ->
  ObserveTransition (o_pools o !! ps_PoolId p) (Some p) t = (t', Ok (s, true)) ->
  handle_pool Sum256 maxCount maxSize network now sched blockHash parsed o = (o', Ok tt) ->
  exists e, (loadPersistedStates (New (o_db o'))).2 = Err e.
Proof.
  intros p Hsame Hact Hw Hp Hf Hprev Hmeta Hobs E.
  destruct (recorded_swap _ _ _ _ _ Hprev Hp Hobs) as (Hwin & Hwf & Hslot & Hfs & Hss).
  specialize (Hfs Hf). rewrite Hsame in Hss.
  unfold handle_pool in E. fold p in E. rewrite Hact, Hobs in E.
  cbn [o_activity set_pools set_activity o_db] in E. rewrite Hwin in E.
  destruct (SavePoolStateAndActivity _ _ _ _ _ _ _) as [d' [[]|e]] eqn:Es; [|done]. cbn [map_err] in E.
  assert (o_db o' = d') as ->.
  { unfold notifySubscribers in E. destruct (NewPriceUpdate _ _); [|by injection E as <-].
    destruct (notify_loop _ _ _ _). by injection E as <-. }
  destruct (saved_swap_is_stored _ _ _ _ _ _ _ _ Es) as (data & Hd & Hg);
    [rewrite Hslot; apply Hp | done | done |].
  unfold loadPersistedStates. cbn [New o_db o_activity].
  destruct (LoadActivityState d') as [state|e] eqn:El; [|by eexists].
  destruct (unrestorable_swap Sum256 d' s data state
    (match NewActivityTracker defaultPoolActivityWindowSlots with Ok t => t | Err _ => t end)
    Hg Hd Hfs Hss El) as [Hw0 [e He]].
  rewrite (proj2 (Z.eqb_neq _ _)) by done.
  destruct (Restore _ _) as [t1 [u|e1]]; [|by eexists]. discriminate He.
Qed.

(** C5: after a rollback nothing of the later blocks is left. From every state
    that events and restarts reach, the rollback to a slot succeeds; the pools and
    the debt positions of that slot and before are exactly what remains in memory,
    on disk and in the mempool manager, the tracker is rolled back, and no stored
    swap is later than the slot. *)
Theorem handleRollback_forgets acts d0 slot :
  (forall k, Get d0 k = None) -> Forall good_action acts -> is_u64 slot -> slot <> MaxUint64 ->
  let o := run_oracle acts (New d0) in
  exists o', handleRollback maxCount maxSize slot o = (o', Ok tt) /\
    o_pools o' = filter (fun kv => ps_Slot kv.2 <= slot) (o_pools o) /\
    o_cdps o' = filter (fun kv => cs_Slot kv.2 <= slot) (o_cdps o) /\
    LoadAllPoolStates (o_db o') ≡ₚ (map_to_list (o_pools o')).*2 /\
    LoadAllCDPStates (o_db o') ≡ₚ (map_to_list (o_cdps o')).*2 /\
    (forall id, o_mempool o' !! id ≫= mp_confirmed = o_pools o' !! id ≫= fun p => ClonePoolState (Some p)) /\
    o_activity o' = Rollback (slot + 1) <$> o_activity o /\
    exists state, LoadActivityState (o_db o') = Ok state /\
      Forall (fun s => sw_Slot s <= slot) (as_Swaps state).
Proof.
  intros Hd Hg Hu Hmax o. destruct (run_oracle_synced acts (New d0) empty_history Hg (synced_New d0 Hd))
    as (h & Hs & _). fold o in Hs.
  destruct (handleRollback_synced slot o h Hu Hs) as (o' & E & Hs' & [Hp Hc Ha _]).
  rewrite firstRolledBackSlot_next in Hp, Hc, Ha, Hs' by done.
  exists o'. split_and!; [done | | | | | apply Hs' | done |].
  - rewrite Hp. apply map_filter_ext. intros. lia.
  - rewrite Hc. apply map_filter_ext. intros. lia.
  - exact (load_all_kmap _ pool_key_of zeroPool (poolStateKey network op_Protocol) _ _ (sy_pools_db _ _ Hs')).
  - exact (load_all_kmap _ cdp_key_of zeroCDP (cdpStateKey network cdp_protocol) _ _ (sy_cdps_db _ _ Hs')).
  - destruct (sy_activity _ _ Hs') as (t & M & _ & HA). pose proof (ag_tracks _ _ _ _ _ _ _ _ HA) as HT.
    eexists. split; [exact (LoadActivityState_result Sum256 w _ _ M w_positive w_u64 HT)|].
    cbn. destruct (h_latest h); cbn; [|done]. apply Forall_forall. intros s Hrow.
    rewrite (elem_of_rows Sum256 _ M s (tk_stored _ _ _ _ _ HT)) in Hrow.
    apply (tk_sound _ _ _ _ _ HT) in Hrow. cbn in Hrow. apply list_elem_of_filter in Hrow. lia.
Qed.

(** ** What a transaction does to the debt positions *)

(** The debt position of an output, if it is at a watched address and decodes. *)
Definition produced_cdp (now : Z) (parser : CDPParser) (blockHash : string) (ctx : TransactionContext)
    (u : utxo) : option CDPState :=
  if isPoolAddress poolAddresses (out_Address (u_Output u)) then
    datum ← out_Datum (u_Output u);
    match ParseCDPDatum datum (tc_TransactionHash ctx) (u_Index u) (tc_SlotNumber ctx) now with
    | Ok (Some s) => Some (set_cdp_meta network CDP_Protocol blockHash now s)
    | _ => None
    end
  else None.

Lemma deleteSpent_cdps parser inputs o :
  o_cdps (deleteSpentCDPStates network parser inputs o) =
    filter (fun kv => kv.1 ∉ (fun i => CDPIdForOutput i.1 i.2) <$> inputs) (o_cdps o) /\
  o_pools (deleteSpentCDPStates network parser inputs o) = o_pools o.
Proof.
  clear digest_inj.
  revert o. induction inputs as [|i inputs IH]; intros o.
  { split; [|done]. symmetry. apply map_filter_id. intros k s _. apply not_elem_of_nil. }
  change (deleteSpentCDPStates network parser (i :: inputs) o) with
    (deleteSpentCDPStates network parser inputs (delete_spent network parser o i)).
  destruct (IH (delete_spent network parser o i)) as [-> ->].
  assert (o_cdps (delete_spent network parser o i) = delete (CDPIdForOutput i.1 i.2) (o_cdps o) /\
    o_pools (delete_spent network parser o i) = o_pools o) as [-> ->].
  { unfold delete_spent, deleteCDPStateByID. destruct (o_cdps o !! _) eqn:E; [done|].
    by rewrite delete_id. }
  split; [|done]. apply map_eq. intros k. rewrite !map_lookup_filter, lookup_delete.
  cbn [fmap list_fmap]. case_decide as Ek.
  - cbn. destruct (o_cdps o !! k); [|done]. cbn. case_guard as Hk; [|done].
    destruct Hk. subst k. by left.
  - destruct (o_cdps o !! k); [|done]. cbn. repeat case_guard; try done; exfalso; set_solver.
Qed.

Lemma handle_utxos_cdps now sched parser blockHash ctx utxos o :
  op_cdp = Some parser -> synthetics = true ->
  (handle_utxos Sum256 maxCount maxSize network poolAddresses synthetics now sched blockHash ctx utxos o).2 = Ok tt /\
  o_pools (handle_utxos Sum256 maxCount maxSize network poolAddresses synthetics now sched blockHash ctx utxos o).1 = o_pools o /\
  o_cdps (handle_utxos Sum256 maxCount maxSize network poolAddresses synthetics now sched blockHash ctx utxos o).1 =
    foldl (fun m s => <[cs_CDPId s := s]> m) (o_cdps o) (omap (produced_cdp now parser blockHash ctx) utxos).
Proof.
  clear digest_inj.
  intros Hp Hsyn. revert o. induction utxos as [|u utxos IH]; intros o; [done|].
  cbn [handle_utxos omap list_omap]. unfold produced_cdp at 1.
  destruct (isPoolAddress poolAddresses (out_Address (u_Output u))); cbn [negb]; [|apply IH].
  destruct (out_Datum (u_Output u)) as [datum|] eqn:Ed; [|apply IH].
  rewrite Hsyn, Hp. rewrite <- Hsyn.
  unfold handleProducedCDPOutput. rewrite Ed. cbn [mbind option_bind].
  destruct (ParseCDPDatum _ _ _ _ _) as [[s|]|]; [|apply IH..]. cbn [foldl].
  destruct (IH (set_db (SaveCDPState (set_cdp_meta network CDP_Protocol blockHash now s)
      (o_db (set_cdps (<[cs_CDPId (set_cdp_meta network CDP_Protocol blockHash now s) :=
        set_cdp_meta network CDP_Protocol blockHash now s]> (o_cdps o)) o))).1
      (set_cdps (<[cs_CDPId (set_cdp_meta network CDP_Protocol blockHash now s) :=
        set_cdp_meta network CDP_Protocol blockHash now s]> (o_cdps o)) o))) as (-> & -> & ->).
  done.
Qed.

(** C9: a transaction moves the debt positions of a synthetics oracle exactly as
    the ledger does: those of the outputs it spends are gone, those it produces at
    a watched address and that decode are there, whatever else fails to decode or
    to be stored is skipped without an error, and no pool changes. *)
Theorem handleTransaction_moves_cdps now sched parser ctx txEvt o :
  op_cdp = Some parser -> synthetics = true ->
  exists o', handleTransaction Sum256 maxCount maxSize network poolAddresses synthetics
      now sched (Some ctx) txEvt o = (o', Ok tt) /\
    o_pools o' = o_pools o /\
    o_cdps o' = foldl (fun m s => <[cs_CDPId s := s]> m)
      (filter (fun kv => kv.1 ∉ (fun i => CDPIdForOutput i.1 i.2) <$> transactionInputs txEvt) (o_cdps o))
      (omap (produced_cdp now parser (te_BlockHash txEvt) ctx)
        (producedUTXOs txEvt (tc_TransactionHash ctx))).
Proof.
  clear digest_inj.
  intros Hp Hsyn. cbn [handleTransaction]. rewrite Hsyn, Hp. rewrite <- Hsyn.
  destruct (deleteSpent_cdps parser (transactionInputs txEvt) o) as [Hc Hpool].
  destruct (handle_utxos_cdps now sched parser (te_BlockHash txEvt) ctx
    (producedUTXOs txEvt (tc_TransactionHash ctx))
    (deleteSpentCDPStates network parser (transactionInputs txEvt) o) Hp Hsyn) as (Er & Ep & Ec).
  destruct (handle_utxos _ _ _ _ _ _ _ _ _ _ _ _) as [o' r]. cbn [fst snd] in *. subst r.
  exists o'. split_and!; [done | congruence | congruence].
Qed.
End Restart.

(** ** A concrete run: a Minswap V2 pool *)

#[local] Existing Instance in_key_order.
#[local] Existing Instance Minswap.MinswapV2.

Definition sample_parser : @OracleParser PlutusData sample_ledger := pool_oracle_parser (P := Minswap.MinswapV2).
#[local] Existing Instance sample_parser.

Lemma sample_digest_inj (network protocol id id' : string) :
  sample_digest (network +:+ String nul (protocol +:+ String nul id)) =
  sample_digest (network +:+ String nul (protocol +:+ String nul id')) -> id = id'.
Proof.
  unfold sample_digest. intros E%(f_equal String.string_of_list_byte).
  rewrite !String.string_of_list_byte_of_string in E.
  apply append_inj_l in E. injection E as E. apply append_inj_l in E. by injection E.
Qed.

Definition pool_datum (assetB : Minswap.Asset) (x y : Z) : @raw PlutusData :=
  Minswap.encode_v2 (Minswap.mkV2PoolDatum (Minswap.mkCredential 1 (Some [x0a]))
    (Minswap.mkAsset (Some []) (Some [])) assetB 1000 x y (Minswap.mkBaseFee 30 50)
    (Minswap.mkOptionalUint64 true 1666) false).
Definition sample_assetB : Minswap.Asset := Minswap.mkAsset (Some [x01; x02]) (Some [x55]).

Definition pool_tx (assetB : Minswap.Asset) (slot : Z) (txHash : string) (x y : Z) : chain_event :=
  EvTransaction (Some (mkContext slot txHash))
    (mkTransactionEvent _ _ "b" [] [mkOutput _ _ "addr" (Some (pool_datum assetB x y))
      (mkTransactionOutput 0 None, ∅)] None).
Definition pool_act (assetB : Minswap.Asset) (slot : Z) (txHash : string) (x y : Z) :=
  ActEvent 1 (fun _ => (0%nat, 0%nat)) (pool_tx assetB slot txHash x y).

Definition sample_network : string := "mainnet".
Definition sample_oracle (synthetics : bool) (acts : list oracle_action) : OracleState :=
  run_oracle (H:=gmap_KV) sample_digest 1 1000 sample_network {[ "addr" ]} synthetics acts (New ∅).

(** A pool, a swap, a restart, another swap. *)
Definition sample_acts : list oracle_action :=
  [pool_act sample_assetB 7 "ab" 2000000 3000000; pool_act sample_assetB 9 "ac" 2000100 2999900;
   ActRestart; pool_act sample_assetB 12 "ad" 2000300 2999700].

Lemma pool_act_good assetB slot txHash x y :
  is_u64 slot -> char_free ":" txHash = true ->
  (forall p, op_ParsePoolDatum (OracleParser := sample_parser) (pool_datum assetB x y)
      (mkTransactionOutput 0 None, ∅) txHash 0 slot 1 = Ok (Some p) ->
    recordable (set_pool_meta sample_network "b" 1 p)) ->
  good_action sample_network (pool_act assetB slot txHash x y).
Proof.
  intros Hs Ht Hv. split; [done|]. split; [done|]. apply Forall_singleton. split.
  - cbn. int_lia.
  - intros datum p E Hp. cbn [out_Datum u_Output] in E. injection E as <-. by apply Hv.
  - intros parser datum s E. discriminate E.
Qed.

(** The texts of the samples are ASCII and their numbers small. *)
Definition ascii_pool (p : PoolState) : bool :=
  all_chars ascii_byte (ps_PoolId p) && all_chars ascii_byte (ps_Network p)
  && all_chars ascii_byte (ps_Protocol p) && all_chars ascii_byte (ps_BlockHash p)
  && all_chars ascii_byte (ps_TxHash p)
  && forallb (fun z => (0 <=? z) && (z <=? MaxUint32))
       [ps_X p; ps_Y p; ps_FeeNum p; ps_FeeDenom p; ps_Slot p; ps_TxIndex p].

Lemma printable_sample p : ascii_pool p = true -> faithful p.
Proof.
  unfold ascii_pool. rewrite !andb_true_iff. intros (((((H1 & H2) & H3) & H4) & H5) & H6).
  cbn [forallb] in H6. rewrite !andb_true_iff, !Z.leb_le in H6. unfold MaxUint32 in H6.
  apply pool_json_faithful. split; [split; int_lia | unfold MaxUint32; lia | by apply Utf8_ascii ..].
Qed.

Lemma sample_acts_good : Forall (good_action sample_network) sample_acts.
Proof.
  unfold sample_acts. rewrite !Forall_cons, Forall_nil. split_and!; try exact I;
    (apply pool_act_good; [done | done | intros p Hp; vm_compute in Hp; injection Hp as <-;
      split; [done | by apply printable_sample | eexists; vm_compute; reflexivity]]).
Qed.

Example sample_acts_volume :
  totals (GetPoolVolume "minswap_._0102.55" 12 (sample_oracle false sample_acts)) =
  Ok (Some (300, 300, 2)).
Proof. vm_compute. done. Qed.

Lemma oracle_survives_restart_witness :
  exists o', loadPersistedStates (New (o_db (sample_oracle false sample_acts))) = (o', Ok tt) /\
    totals (GetPoolVolume "minswap_._0102.55" 12 o') = Ok (Some (300, 300, 2)).
Proof.
  destruct (oracle_survives_restart (H:=gmap_KV) sample_digest 1 1000 sample_network {[ "addr" ]} false
    (sample_digest_inj _ _) sample_acts ∅ ltac:(done) sample_acts_good) as (o' & E & _ & _ & _ & HV).
  exists o'. split; [exact E|]. rewrite HV; [vm_compute; done | done |].
  by repeat constructor.
Defined.

Lemma handleRollback_forgets_witness :
  exists o', handleRollback 1 1000 9 (sample_oracle false sample_acts) = (o', Ok tt) /\
    o_pools o' = ∅ /\ LoadAllPoolStates (o_db o') = [].
Proof.
  destruct (handleRollback_forgets (H:=gmap_KV) sample_digest 1 1000 sample_network {[ "addr" ]} false
    (sample_digest_inj _ _) sample_acts ∅ 9 ltac:(done) sample_acts_good ltac:(done) ltac:(done))
    as (o' & E & Hp & _ & Hl & _).
  exists o'. split; [exact E|].
  assert (o_pools o' = ∅) as Hempty by (rewrite Hp; vm_compute; done).
  split; [exact Hempty|]. rewrite Hempty in Hl. by apply Permutation_nil_r in Hl.
Defined.

(** Anyone can bring that about: a Minswap V2 datum whose two assets are the same is
    accepted, and a second one with opposite changes of the reserves is a swap. *)
Lemma same_asset_pool_is_accepted d utxoValue txHash txIndex slot timestamp :
  Minswap.encodable_v2 d -> Minswap.v2_AssetA d = Minswap.v2_AssetB d ->
  Minswap.FeeANumerator (Minswap.v2_BaseFee d) + Minswap.FeeBNumerator (Minswap.v2_BaseFee d) <= Minswap.FeeDenom ->
  exists p, Minswap.minswap_ParsePoolDatum 2 (Minswap.encode_v2 d) utxoValue txHash txIndex slot timestamp = Ok p /\
    same_asset (aa_Class (pp_AssetX p)) (aa_Class (pp_AssetY p)) = true.
Proof.
  intros Hd HA Hfee. rewrite Minswap.parse_v2_datum by done. cbv zeta. set (fee := _ + _) in *.
  assert (Minswap.FeeDenom = 10000) as HD by done.
  rewrite (proj2 (Z.ltb_ge MaxUint64 fee)) by int_lia.
  assert (fee / 2 <= Minswap.FeeDenom) as H2 by (apply Z.div_le_upper_bound; lia).
  rewrite (proj2 (Z.ltb_ge _ _)) by done. eexists. split; [done|].
  cbn. rewrite HA. apply same_asset_refl.
Qed.

Definition ada_ada : Minswap.Asset := Minswap.mkAsset (Some []) (Some []).
Definition step_pool (slot : Z) (txHash : string) (x y : Z) (o : OracleState) : OracleState * bool :=
  HandleChainsyncEvent (H:=gmap_KV) sample_digest 1 1000 sample_network {[ "addr" ]} false 1
    (fun _ => (0%nat, 0%nat)) (pool_tx ada_ada slot txHash x y) o.

Example same_asset_events :
  let '(o1, ok1) := step_pool 7 "ab" 2000000 3000000 (New ∅) in
  let '(o2, ok2) := step_pool 9 "ac" 2000100 2999900 o1 in
  ok1 = true /\ ok2 = true /\ PoolCount o2 = 1 /\
  (loadPersistedStates (New (o_db o2))).2 = Err (RestoreActivity ErrInvalidActivityState).
Proof. vm_compute. done. Qed.

Definition ada_ada_parsed (slot : Z) (txHash : string) (x y : Z) : option PoolState :=
  match op_ParsePoolDatum (OracleParser := sample_parser) (pool_datum ada_ada x y)
      (mkTransactionOutput 0 None, ∅) txHash 0 slot 1 with
  | Ok p => p
  | Err _ => None
  end.

Definition second_parsed : PoolState := default zeroPool (ada_ada_parsed 9 "ac" 2000100 2999900).
Definition after_first : OracleState := (step_pool 7 "ab" 2000000 3000000 (New ∅)).1.

Lemma same_asset_pool_blocks_restart_witness :
  ada_ada_parsed 9 "ac" 2000100 2999900 = Some second_parsed /\
  exists o', handle_pool (H:=gmap_KV) sample_digest 1 1000 sample_network 1 (fun _ => (0%nat, 0%nat)) "b"
      second_parsed after_first = (o', Ok tt) /\
    exists e, (loadPersistedStates (New (o_db o'))).2 = Err e.
Proof.
  split; [vm_compute; reflexivity|]. set (p := set_pool_meta sample_network "b" 1 second_parsed).
  assert (exists t t' s, o_activity after_first = Some t /\ 0 < windowSlots t /\
    ObserveTransition (o_pools after_first !! ps_PoolId p) (Some p) t = (t', Ok (s, true)))
    as (t & t' & s & Ht & Hw & Hobs) by (vm_compute; eexists _, _, _; split_and!; reflexivity).
  assert ((handle_pool (H:=gmap_KV) sample_digest 1 1000 sample_network 1 (fun _ => (0%nat, 0%nat)) "b"
    second_parsed after_first).2 = Ok tt) as Hr by (vm_compute; reflexivity).
  destruct (handle_pool _ _ _ _ _ _ _ _ _) as [o' r] eqn:E. cbn [snd] in Hr. subst r.
  exists o'. split; [exact eq_refl|].
  assert (match Get (o_db after_first) activityMetaKey with
          | None => True
          | Some v => match Unmarshal v (mkMeta (windowSlots t) 9) with
                      | Some m => am_LatestSlot m <= 9
                      | None => True end end) as Hm.
  { assert (windowSlots t = defaultPoolActivityWindowSlots) as ->
      by (apply (f_equal (fmap windowSlots)) in Ht; vm_compute in Ht; injection Ht as Hw'; exact (eq_sym Hw')).
    vm_compute. discriminate. }
  apply (same_asset_pool_blocks_restart (H:=gmap_KV) sample_digest 1 1000 sample_network 1
    (fun _ => (0%nat, 0%nat)) "b" second_parsed t t' s after_first o'); fold p;
    [| exact Ht | exact Hw | | | | | exact Hobs | exact E].
  - vm_compute. reflexivity.
  - repeat constructor; vm_compute; first [reflexivity | discriminate].
  - apply printable_sample. vm_compute. reflexivity.
  - vm_compute. repeat constructor; first [reflexivity | discriminate].
  - change (ps_Slot p) with 9. intros v x Hv Hx. rewrite Hv, Hx in Hm. exact Hm.
Defined.

(** A debt position that is spent and replaced. *)
Definition cdp_parser : @OracleParser PlutusData sample_ledger := indigo_oracle_parser.

Definition cdp_event (inputs : list (string * Z)) (minted : Z) : @TransactionEvent PlutusData sample_ledger :=
  mkTransactionEvent _ _ "b" inputs [mkOutput _ _ "addr"
    (Some (Indigo.encode_cdp None [x69; x55; x53; x44] minted true 0 0)) (mkTransactionOutput 0 None, ∅)] None.

Definition cdp_oracle : OracleState :=
  run_oracle (P:=cdp_parser) (H:=gmap_KV) sample_digest 1 1000 sample_network {[ "addr" ]} true
    [ActEvent 1 (fun _ => (0%nat, 0%nat)) (EvTransaction (Some (mkContext 5 "aa")) (cdp_event [] 100))] (New ∅).

Lemma handleTransaction_moves_cdps_witness :
  exists o', handleTransaction (P:=cdp_parser) (H:=gmap_KV) sample_digest 1 1000 sample_network {[ "addr" ]} true 1
      (fun _ => (0%nat, 0%nat)) (Some (mkContext 8 "bb")) (cdp_event [("aa", 0)] 70) cdp_oracle = (o', Ok tt) /\
    map (fun s => (cs_CDPId s, cs_MintedAmount s)) (GetAllCDPs o') = [("indigo_cdp_bb#0", 70)].
Proof.
  destruct (handleTransaction_moves_cdps (P:=cdp_parser) (H:=gmap_KV) sample_digest 1 1000 sample_network
    {[ "addr" ]} true 1 (fun _ => (0%nat, 0%nat)) IndigoParser (mkContext 8 "bb")
    (cdp_event [("aa", 0)] 70) cdp_oracle
    ltac:(done) ltac:(done)) as (o' & E & _ & Hc).
  exists o'. split; [exact E|]. unfold GetAllCDPs. rewrite Hc. vm_compute. done.
Defined.
