(* ===== verification/Liqwid.v ===== *)
(** * Liqwid: the datums of the Liqwid lending protocol ([dex/liqwid]).

    Four kinds of datum live at the addresses of the protocol: markets, supply
    positions, borrow positions and price feeds. Each has a type, a decoder and a
    parser that turns it into a state; the four decoders never accept the same
    message, so that the order in which they are tried does not matter. *)
From S2P Require Import Prelude.
From S2P Require Import Text.
From S2P Require Import Float64.
From S2P Require Import Common.
From S2P Require Import Cbor.

Definition ProtocolName : string := "liqwid".
Definition BasisPointsDenom : Z := 10000.

(** ** Datum types ([models.go]) *)

Record Asset := mkAsset {
  PolicyId : option (list byte);
  AssetName : option (list byte);
}.

Record Credential := mkCredential {
  cr_Type : Z;
  cr_Hash : option (list byte);
}.

Record MarketDatum := mkMarketDatum {
  md_MarketNft : Asset;
  md_UnderlyingAsset : Asset;
  md_QTokenAsset : Asset;
  md_TotalSupply : Z;
  md_TotalBorrows : Z;
  md_ReserveAmount : Z;
  md_InterestRate : Z;
  md_CollateralFactor : Z;
}.

Record SupplyPositionDatum := mkSupplyPositionDatum {
  sd_Owner : Credential;
  sd_MarketNft : Asset;
  sd_QTokenAmount : Z;
  sd_DepositSlot : Z;
}.

Record BorrowPositionDatum := mkBorrowPositionDatum {
  bd_Owner : Credential;
  bd_MarketNft : Asset;
  bd_BorrowAmount : Z;
  bd_BorrowIndex : Z;
  bd_BorrowSlot : Z;
}.

Record OracleDatum := mkOracleDatum {
  od_Asset : Asset;
  od_Price : Z;
  od_Denominator : Z;
  od_ValidFrom : Z;
  od_ValidTo : Z;
}.

Record InterestRateModelDatum := mkInterestRateModelDatum {
  ir_BaseRatePerSlot : Z;
  ir_MultiplierPerSlot : Z;
  ir_JumpMultiplierPerSlot : Z;
  ir_Kink : Z;
}.

Definition ToCommonAssetClass (a : Asset) : AssetClass := mkAssetClass (PolicyId a) (AssetName a).
Definition Asset_IsLovelace (a : Asset) : bool :=
  Nat.eqb (length (contents (PolicyId a))) 0 && Nat.eqb (length (contents (AssetName a))) 0.

Definition IsPubKey (c : Credential) : bool := cr_Type c =? 0.
Definition IsScript (c : Credential) : bool := cr_Type c =? 1.

(** [%d] of an [int] *)
Definition FormatInt (z : Z) : string := if z <? 0 then "-" +:+ FormatUint (- z) else FormatUint z.

(** [%d] of a type that the decoder never lets through keeps the default branch. *)
Definition Identifier (c : Credential) : string :=
  if cr_Type c =? 0 then "pubkey:" +:+ EncodeToString (cr_Hash c)
  else if cr_Type c =? 1 then "script:" +:+ EncodeToString (cr_Hash c)
  else "credential" +:+ FormatInt (cr_Type c) +:+ String ":" (EncodeToString (cr_Hash c)).

(** Unsigned subtractions wrap; the guards keep them from it. *)
Definition availableLiquidity (totalSupply totalBorrows reserveAmount : Z) : Z :=
  if totalSupply <=? totalBorrows then 0
  else
    let liquid := u64 (totalSupply - totalBorrows) in
    if liquid <=? reserveAmount then 0 else u64 (liquid - reserveAmount).

Definition basisPointsFloat (value : Z) : float64 := fdiv (float_of_Z value) (float_of_Z BasisPointsDenom).

Definition ratio_float (num den : Z) : float64 :=
  if den =? 0 then fzero else fdiv (float_of_Z num) (float_of_Z den).

Definition UtilizationRate (d : MarketDatum) : float64 := ratio_float (md_TotalBorrows d) (md_TotalSupply d).
Definition AvailableLiquidity (d : MarketDatum) : Z :=
  availableLiquidity (md_TotalSupply d) (md_TotalBorrows d) (md_ReserveAmount d).
Definition CollateralFactorFloat (d : MarketDatum) : float64 := basisPointsFloat (md_CollateralFactor d).
Definition InterestRateFloat (d : MarketDatum) : float64 := basisPointsFloat (md_InterestRate d).
Definition od_PriceFloat (d : OracleDatum) : float64 := ratio_float (od_Price d) (od_Denominator d).
Definition KinkFloat (d : InterestRateModelDatum) : float64 :=
  fdiv (float_of_Z (ir_Kink d)) (float_of_Z BasisPointsDenom).

(** What can be borrowed: what was supplied, less what is borrowed or reserved. *)
Lemma availableLiquidity_exact s b r :
  is_u64 s -> is_u64 b -> is_u64 r -> availableLiquidity s b r = Z.max 0 (s - b - r).
Proof.
  intros Hs Hb Hr. unfold availableLiquidity. destruct (Z.leb_spec s b); [int_lia|].
  rewrite (u64_small (s - b)) by int_lia. destruct (Z.leb_spec (s - b) r); [lia|].
  rewrite u64_small by int_lia. lia.
Qed.

(** ** Decoding *)
Section Decode.
Context `{Cbor}.

Definition Asset_UnmarshalCBOR (d : raw) : option Asset :=
  fields ← tagged_struct d 0 2;
  match fields with
  | [f0; f1] => p ← decode_bytes f0; n ← decode_bytes f1; Some (mkAsset p n)
  | _ => None
  end.

Definition Credential_UnmarshalCBOR (d : raw) : option Credential :=
  '(tag, body) ← decode_constructor d;
  if negb (tag =? 0) && negb (tag =? 1) then None
  else
    fields ← struct_fields body 1;
    match fields with
    | [f0] => hash ← decode_bytes f0; Some (mkCredential tag hash)
    | _ => None
    end.

Definition MarketDatum_UnmarshalCBOR (d : raw) : option MarketDatum :=
  fields ← tagged_struct d 0 8;
  match fields with
  | [f0; f1; f2; f3; f4; f5; f6; f7] =>
      marketNft ← Asset_UnmarshalCBOR f0;
      underlying ← Asset_UnmarshalCBOR f1;
      qToken ← Asset_UnmarshalCBOR f2;
      totalSupply ← decode_uint f3;
      totalBorrows ← decode_uint f4;
      reserveAmount ← decode_uint f5;
      interestRate ← decode_uint f6;
      collateralFactor ← decode_uint f7;
      Some (mkMarketDatum marketNft underlying qToken totalSupply totalBorrows reserveAmount
              interestRate collateralFactor)
  | _ => None
  end.

Definition SupplyPositionDatum_UnmarshalCBOR (d : raw) : option SupplyPositionDatum :=
  fields ← tagged_struct d 0 4;
  match fields with
  | [f0; f1; f2; f3] =>
      owner ← Credential_UnmarshalCBOR f0;
      marketNft ← Asset_UnmarshalCBOR f1;
      qTokenAmount ← decode_uint f2;
      depositSlot ← decode_uint f3;
      Some (mkSupplyPositionDatum owner marketNft qTokenAmount depositSlot)
  | _ => None
  end.

Definition BorrowPositionDatum_UnmarshalCBOR (d : raw) : option BorrowPositionDatum :=
  fields ← tagged_struct d 0 5;
  match fields with
  | [f0; f1; f2; f3; f4] =>
      owner ← Credential_UnmarshalCBOR f0;
      marketNft ← Asset_UnmarshalCBOR f1;
      borrowAmount ← decode_uint f2;
      borrowIndex ← decode_uint f3;
      borrowSlot ← decode_uint f4;
      Some (mkBorrowPositionDatum owner marketNft borrowAmount borrowIndex borrowSlot)
  | _ => None
  end.

Definition OracleDatum_UnmarshalCBOR (d : raw) : option OracleDatum :=
  fields ← tagged_struct d 0 5;
  match fields with
  | [f0; f1; f2; f3; f4] =>
      asset ← Asset_UnmarshalCBOR f0;
      price ← decode_uint f1;
      denominator ← decode_uint f2;
      validFrom ← decode_int f3;
      validTo ← decode_int f4;
      Some (mkOracleDatum asset price denominator validFrom validTo)
  | _ => None
  end.

Definition InterestRateModelDatum_UnmarshalCBOR (d : raw) : option InterestRateModelDatum :=
  fields ← tagged_struct d 0 4;
  match fields with
  | [f0; f1; f2; f3] =>
      base ← decode_uint f0;
      multiplier ← decode_uint f1;
      jumpMultiplier ← decode_uint f2;
      kink ← decode_uint f3;
      Some (mkInterestRateModelDatum base multiplier jumpMultiplier kink)
  | _ => None
  end.

Lemma tagged_struct_length d tag n fields :
  tagged_struct d tag n = Some fields -> length fields = n.
Proof.
  unfold tagged_struct, struct_fields. intros E. decode_inv. by apply Nat.eqb_eq.
Qed.

Lemma tagged_struct_inj d tag n m fields fields' :
  tagged_struct d tag n = Some fields -> tagged_struct d tag m = Some fields' -> fields = fields'.
Proof. unfold tagged_struct, struct_fields. intros E E'. decode_inv; congruence. Qed.

(** A credential is never an asset. *)
Lemma credential_not_asset d c a :
  Credential_UnmarshalCBOR d = Some c -> Asset_UnmarshalCBOR d = Some a -> False.
Proof.
  unfold Credential_UnmarshalCBOR, Asset_UnmarshalCBOR. intros E E'.
  decode_inv. unfold tagged_struct, struct_fields in *. decode_inv; simplify_eq.
Qed.
End Decode.

(** ** States and parsing ([parser.go]) *)

Record MarketState := mkMarketState {
  ms_MarketId : string;
  ms_Protocol : string;
  ms_UnderlyingAsset : AssetAmount;
  ms_QTokenAsset : AssetClass;
  ms_TotalSupply : Z;
  ms_TotalBorrows : Z;
  ms_ReserveAmount : Z;
  ms_InterestRate : Z;
  ms_CollateralFactor : Z;
  ms_UtilizationRate : float64;
  ms_Slot : Z;
  ms_TxHash : string;
  ms_TxIndex : Z;
  ms_Timestamp : gotime;
}.

Record SupplyState := mkSupplyState {
  ss_PositionId : string;
  ss_Owner : string;
  ss_MarketId : string;
  ss_QTokenAmount : Z;
  ss_DepositSlot : Z;
  ss_Slot : Z;
  ss_TxHash : string;
  ss_TxIndex : Z;
  ss_Timestamp : gotime;
}.

Record BorrowState := mkBorrowState {
  bs_PositionId : string;
  bs_Owner : string;
  bs_MarketId : string;
  bs_BorrowAmount : Z;
  bs_BorrowIndex : Z;
  bs_BorrowSlot : Z;
  bs_Slot : Z;
  bs_TxHash : string;
  bs_TxIndex : Z;
  bs_Timestamp : gotime;
}.

Record OracleState := mkOracleState {
  os_Asset : AssetClass;
  os_Price : Z;
  os_Denominator : Z;
  os_ValidFrom : gotime;
  os_ValidTo : gotime;
  os_Slot : Z;
  os_TxHash : string;
  os_Timestamp : gotime;
}.

Definition ms_Key (m : MarketState) : string := "liqwid:" +:+ ms_MarketId m.
Definition ss_Key (s : SupplyState) : string := "liqwid:supply:" +:+ ss_PositionId s.
Definition bs_Key (b : BorrowState) : string := "liqwid:borrow:" +:+ bs_PositionId b.
Definition os_Key (o : OracleState) : string :=
  "liqwid:oracle:" +:+ EncodeToString (Common.PolicyId (os_Asset o)) +:+
    String "." (EncodeToString (Common.Name (os_Asset o))).

Definition ms_AvailableLiquidity (m : MarketState) : Z :=
  availableLiquidity (ms_TotalSupply m) (ms_TotalBorrows m) (ms_ReserveAmount m).
Definition ms_CollateralFactorFloat (m : MarketState) : float64 := basisPointsFloat (ms_CollateralFactor m).
Definition ms_InterestRateFloat (m : MarketState) : float64 := basisPointsFloat (ms_InterestRate m).
Definition os_PriceFloat (o : OracleState) : float64 := ratio_float (os_Price o) (os_Denominator o).

Definition GenerateMarketId (policyId assetName : option (list byte)) : string :=
  "liqwid_" +:+ EncodeToString policyId +:+ String "." (EncodeToString assetName).
Definition GeneratePositionId (txHash : string) (txIndex : Z) : string :=
  "liqwid_pos_" +:+ txHash +:+ String "#" (FormatUint txIndex).

Definition LQPolicyId : string := "da8c30857834c6ae7203935b89278c532b3995245295456f993e1d24".
Definition QADAPolicyId : string := "a04ce7a52545e5e33c2867e148898d9e667a69602285f6a1298f9d68".
Definition Charli3OracleAddress : string := "addr1wyd8cezjr0gcf8nfxuc9trd4hs7ec520jmkwkqzywx6l5jg0al0ya".
Definition MarketInboxAddress : string := "addr1w8dprfgfdxnlwu3948579jrwg0ferf5a63ln8xj0mqcdzegayxmqq".
Definition BatchFinalAddress : string := "addr1w9wjz8tjt87gldh2usu8t5mfe4nkmlngp30a387h8s94fyg5uup5n".
Definition DemandActionAddress : string := "addr1wyw3ap36lnepstpjadwg8cg73llvmju4y94kmfld23lkzjggq4hyj".
Definition SupplyActionAddress : string := "addr1wxrxa3ucywn3lqpkzlyucak0a7aavkudh49fqt06yc05sws4l4zs2".
Definition GetMarketAddresses : list string :=
  [MarketInboxAddress; BatchFinalAddress; DemandActionAddress; SupplyActionAddress].
Definition GetOracleAddresses : list string := [Charli3OracleAddress].

Inductive liqwid_error := DecodeMarket | DecodeSupply | DecodeBorrow | DecodeOracle.

(** [if _, err := cbor.Decode(...); err != nil { return nil, ... }] *)
Definition decoded {A} (e : liqwid_error) (r : option A) : result liqwid_error A :=
  match r with Some a => Ok a | None => Err e end.

Section Parse.
Context `{Cbor}.

Definition ParseMarketDatumSimple (datum : raw) : result liqwid_error MarketDatum :=
  decoded DecodeMarket (MarketDatum_UnmarshalCBOR datum).

Definition ParseMarketDatum (datum : raw) (txHash : string) (txIndex slot timestamp : Z)
  : result liqwid_error MarketState :=
  marketDatum ← decoded DecodeMarket (MarketDatum_UnmarshalCBOR datum);
  let marketId := GenerateMarketId (PolicyId (md_MarketNft marketDatum)) (AssetName (md_MarketNft marketDatum)) in
  let utilization := UtilizationRate marketDatum in
  Ok (mkMarketState marketId ProtocolName
        (mkAssetAmount (ToCommonAssetClass (md_UnderlyingAsset marketDatum)) (md_TotalSupply marketDatum))
        (ToCommonAssetClass (md_QTokenAsset marketDatum)) (md_TotalSupply marketDatum)
        (md_TotalBorrows marketDatum) (md_ReserveAmount marketDatum) (md_InterestRate marketDatum)
        (md_CollateralFactor marketDatum) utilization slot txHash txIndex timestamp).

Definition ParseSupplyPositionDatum (datum : raw) (txHash : string) (txIndex slot timestamp : Z)
  : result liqwid_error SupplyState :=
  supplyDatum ← decoded DecodeSupply (SupplyPositionDatum_UnmarshalCBOR datum);
  let positionId := GeneratePositionId txHash txIndex in
  let marketId := GenerateMarketId (PolicyId (sd_MarketNft supplyDatum)) (AssetName (sd_MarketNft supplyDatum)) in
  let owner := Identifier (sd_Owner supplyDatum) in
  Ok (mkSupplyState positionId owner marketId (sd_QTokenAmount supplyDatum)
        (sd_DepositSlot supplyDatum) slot txHash txIndex timestamp).

Definition ParseBorrowPositionDatum (datum : raw) (txHash : string) (txIndex slot timestamp : Z)
  : result liqwid_error BorrowState :=
  borrowDatum ← decoded DecodeBorrow (BorrowPositionDatum_UnmarshalCBOR datum);
  let positionId := GeneratePositionId txHash txIndex in
  let marketId := GenerateMarketId (PolicyId (bd_MarketNft borrowDatum)) (AssetName (bd_MarketNft borrowDatum)) in
  let owner := Identifier (bd_Owner borrowDatum) in
  Ok (mkBorrowState positionId owner marketId (bd_BorrowAmount borrowDatum)
        (bd_BorrowIndex borrowDatum) (bd_BorrowSlot borrowDatum) slot txHash txIndex timestamp).

Definition ParseOracleDatum (datum : raw) (txHash : string) (slot timestamp : Z)
  : result liqwid_error OracleState :=
  oracleDatum ← decoded DecodeOracle (OracleDatum_UnmarshalCBOR datum);
  Ok (mkOracleState (ToCommonAssetClass (od_Asset oracleDatum)) (od_Price oracleDatum)
        (od_Denominator oracleDatum) (UnixMilli (od_ValidFrom oracleDatum))
        (UnixMilli (od_ValidTo oracleDatum)) slot txHash timestamp).

Definition accepts {A} (r : option A) : Z := match r with Some _ => 1 | None => 0 end.

Ltac clear_none := repeat match goal with H : _ = None |- _ => clear H end.

(** A message is a datum of at most one kind. Whatever the message, at most
    one of the four decoders that the lending adapter tries accepts it, so that
    the order in which it tries them has no influence on the result. *)
Theorem datum_kinds_disjoint (datum : raw) :
  accepts (MarketDatum_UnmarshalCBOR datum) + accepts (SupplyPositionDatum_UnmarshalCBOR datum) +
  accepts (BorrowPositionDatum_UnmarshalCBOR datum) + accepts (OracleDatum_UnmarshalCBOR datum) <= 1.
Proof.
  destruct (MarketDatum_UnmarshalCBOR datum) eqn:E1, (SupplyPositionDatum_UnmarshalCBOR datum) eqn:E2,
    (BorrowPositionDatum_UnmarshalCBOR datum) eqn:E3, (OracleDatum_UnmarshalCBOR datum) eqn:E4;
    try done; exfalso;
    unfold MarketDatum_UnmarshalCBOR, SupplyPositionDatum_UnmarshalCBOR,
      BorrowPositionDatum_UnmarshalCBOR, OracleDatum_UnmarshalCBOR in *; clear_none; decode_inv;
    repeat match goal with
      | T : tagged_struct ?d _ _ = Some ?l, T' : tagged_struct ?d _ _ = Some ?l' |- _ =>
          pose proof (tagged_struct_inj _ _ _ _ _ _ T T'); clear T; simplify_eq
      end; try done; by eapply credential_not_asset.
Qed.

Lemma market_range `{!CborRange H} datum txHash txIndex slot timestamp m :
  ParseMarketDatum datum txHash txIndex slot timestamp = Ok m ->
  is_u64 (ms_TotalSupply m) /\ is_u64 (ms_TotalBorrows m) /\ is_u64 (ms_ReserveAmount m).
Proof.
  unfold ParseMarketDatum. destruct (MarketDatum_UnmarshalCBOR datum) as [d|] eqn:E; [|done].
  cbn. intros [= <-]. cbn. unfold MarketDatum_UnmarshalCBOR in E. decode_inv. cbn.
  split_and!; by eapply decode_uint_range.
Qed.
End Parse.

(** ** Identifiers *)

Lemma GeneratePositionId_inj h i h' i' :
  is_u64 i -> is_u64 i' -> char_free "#" h = true -> char_free "#" h' = true ->
  GeneratePositionId h i = GeneratePositionId h' i' -> h = h' /\ i = i'.
Proof.
  intros Hi Hi' Hh Hh' E. unfold GeneratePositionId in E. apply append_inj_l in E.
  apply append_sep_inj in E as [-> E]; [|done..]. split; [done|]. by apply FormatUint_inj.
Qed.

Lemma GenerateMarketId_inj p n p' n' :
  GenerateMarketId p n = GenerateMarketId p' n' -> contents p = contents p' /\ contents n = contents n'.
Proof.
  unfold GenerateMarketId. intros E%append_inj_l. apply append_sep_inj in E as [E E'].
  - split; by apply EncodeToString_inj.
  - by apply char_free_hex.
  - by apply char_free_hex.
Qed.

(** ** The contract's format *)
Section Encode.
Context `{C : Cbor, S : !CborSyntax C}.

Definition encode_asset (policyId assetName : list byte) : raw :=
  constr 0 [bytestring policyId; bytestring assetName].
Definition encode_credential (script : bool) (hash : list byte) : raw :=
  constr (if script then 1 else 0) [bytestring hash].

(** An asset of a datum in the contract's format, and a credential. *)
Definition asset_of (a : list byte * list byte) : Asset := mkAsset (Some a.1) (Some a.2).
Definition credential_of (c : bool * list byte) : Credential :=
  mkCredential (if c.1 then 1 else 0) (Some c.2).

Definition encode_market (nft underlying qToken : list byte * list byte)
    (supply borrows reserve rate factor : Z) : raw :=
  constr 0 [encode_asset nft.1 nft.2; encode_asset underlying.1 underlying.2;
    encode_asset qToken.1 qToken.2; uint supply; uint borrows; uint reserve; uint rate; uint factor].
Definition encode_supply (owner : bool * list byte) (nft : list byte * list byte) (amount slot : Z) : raw :=
  constr 0 [encode_credential owner.1 owner.2; encode_asset nft.1 nft.2; uint amount; uint slot].
Definition encode_borrow (owner : bool * list byte) (nft : list byte * list byte)
    (amount index slot : Z) : raw :=
  constr 0 [encode_credential owner.1 owner.2; encode_asset nft.1 nft.2; uint amount; uint index; uint slot].
Definition encode_oracle (asset : list byte * list byte) (price denominator from to : Z) : raw :=
  constr 0 [encode_asset asset.1 asset.2; uint price; uint denominator; integer from; integer to].

Lemma decode_liqwid_asset a : Asset_UnmarshalCBOR (encode_asset a.1 a.2) = Some (asset_of a).
Proof. unfold Asset_UnmarshalCBOR, encode_asset. by repeat decode_step. Qed.

Lemma decode_liqwid_credential c : Credential_UnmarshalCBOR (encode_credential c.1 c.2) = Some (credential_of c).
Proof.
  unfold Credential_UnmarshalCBOR, encode_credential.
  destruct (decode_constr (if c.1 then 1 else 0) [bytestring c.2]) as (body & -> & Hb); [by destruct c.1|].
  cbn [mbind option_bind].
  assert (negb ((if c.1 then 1 else 0) =? 0) && negb ((if c.1 then 1 else 0) =? 1) = false) as ->
    by by destruct c.1.
  unfold struct_fields. rewrite Hb. cbn. by rewrite decode_bytes_bytestring.
Qed.

Lemma decode_market nft und q supply borrows reserve rate factor :
  is_u64 supply -> is_u64 borrows -> is_u64 reserve -> is_u64 rate -> is_u64 factor ->
  MarketDatum_UnmarshalCBOR (encode_market nft und q supply borrows reserve rate factor) =
  Some (mkMarketDatum (asset_of nft) (asset_of und) (asset_of q) supply borrows reserve rate factor).
Proof.
  intros. unfold MarketDatum_UnmarshalCBOR, encode_market. decode_step.
  rewrite !decode_liqwid_asset. cbn [mbind option_bind]. by repeat decode_step.
Qed.

Lemma decode_supply owner nft amount slot :
  is_u64 amount -> is_u64 slot ->
  SupplyPositionDatum_UnmarshalCBOR (encode_supply owner nft amount slot) =
  Some (mkSupplyPositionDatum (credential_of owner) (asset_of nft) amount slot).
Proof.
  intros. unfold SupplyPositionDatum_UnmarshalCBOR, encode_supply. decode_step.
  rewrite decode_liqwid_credential, decode_liqwid_asset. cbn [mbind option_bind]. by repeat decode_step.
Qed.

Lemma decode_borrow owner nft amount index slot :
  is_u64 amount -> is_u64 index -> is_u64 slot ->
  BorrowPositionDatum_UnmarshalCBOR (encode_borrow owner nft amount index slot) =
  Some (mkBorrowPositionDatum (credential_of owner) (asset_of nft) amount index slot).
Proof.
  intros. unfold BorrowPositionDatum_UnmarshalCBOR, encode_borrow. decode_step.
  rewrite decode_liqwid_credential, decode_liqwid_asset. cbn [mbind option_bind]. by repeat decode_step.
Qed.

Lemma decode_oracle asset price denominator from to :
  is_u64 price -> is_u64 denominator -> is_i64 from -> is_i64 to ->
  OracleDatum_UnmarshalCBOR (encode_oracle asset price denominator from to) =
  Some (mkOracleDatum (asset_of asset) price denominator from to).
Proof.
  intros. unfold OracleDatum_UnmarshalCBOR, encode_oracle. decode_step.
  rewrite decode_liqwid_asset. cbn [mbind option_bind]. by repeat decode_step.
Qed.

(** Lengths of fields tell the other formats apart. *)
Lemma tagged_struct_other tag fields n :
  0 <= tag -> length fields <> n -> tagged_struct (constr tag fields) tag n = None.
Proof.
  intros Ht Hn. unfold tagged_struct, struct_fields.
  destruct (decode_constr tag fields Ht) as (body & -> & Hb). cbn [mbind option_bind].
  rewrite Z.eqb_refl. cbn [negb]. rewrite Hb. cbn [mbind option_bind].
  by rewrite (proj2 (Nat.eqb_neq _ _)).
Qed.
End Encode.
