(* ===== verification/Lending.v ===== *)
(** * Lending: the unified state of lending protocols and the Liqwid adapter
    ([internal/oracle/lending_oracle.go], [internal/oracle/lending_adapters.go]).

    [LendingParser] is the class through which the lending oracle reads datums;
    [LiqwidLendingAdapter] discharges it: whatever a datum decodes as, the state
    names the protocol and the output it came from, and its identifier tells
    markets, positions and price feeds apart. *)
From S2P Require Import Prelude.
From S2P Require Import Text.
From S2P Require Import Float64.
From S2P Require Import Common.
From S2P Require Import KeyValue.
From S2P Require Import Cbor.
From S2P Require Liqwid.

Inductive LendingStateType :=
| LendingStateTypeMarket
| LendingStateTypeLoan
| LendingStateTypeLoanOffer
| LendingStateTypePosition
| LendingStateTypeOracle.

#[export] Instance LendingStateType_eq_dec : EqDecision LendingStateType.
Proof. solve_decision. Defined.

Record LendingState := mkLendingState {
  ls_StateId : string;
  ls_StateType : LendingStateType;
  ls_Protocol : string;
  ls_Network : string;
  ls_TotalSupply : Z;
  ls_TotalBorrows : Z;
  ls_AvailableLiq : Z;
  ls_UtilizationRate : float64;
  ls_InterestRate : Z;
  ls_CollateralFactor : Z;
  ls_InterestRatePct : float64;
  ls_UnderlyingAsset : AssetClass;
  ls_CollateralAsset : AssetClass;
  ls_LpToken : AssetClass;
  ls_OraclePrice : Z;
  ls_OracleDenominator : Z;
  ls_OraclePriceValue : float64;
  ls_ValidFrom : gotime;
  ls_ValidTo : gotime;
  ls_LoanAmount : Z;
  ls_RepaymentAmount : Z;
  ls_StartTime : gotime;
  ls_DueDate : gotime;
  ls_Duration : duration;
  ls_IsOverdue : bool;
  ls_CanLiquidate : bool;
  ls_LoanStatus : string;
  ls_Lender : string;
  ls_Borrower : string;
  ls_Slot : Z;
  ls_TxHash : string;
  ls_TxIndex : Z;
  ls_Timestamp : gotime;
  ls_UpdatedAt : gotime;
}.

#[export] Instance LendingState_eq_dec : EqDecision LendingState.
Proof. solve_decision. Defined.

Definition Key (s : LendingState) : string :=
  ls_Network s +:+ String ":" (ls_Protocol s +:+ String ":" (ls_StateId s)).

Definition IsMarket (s : LendingState) : bool := bool_decide (ls_StateType s = LendingStateTypeMarket).
Definition IsLoan (s : LendingState) : bool := bool_decide (ls_StateType s = LendingStateTypeLoan).
Definition IsLoanOffer (s : LendingState) : bool := bool_decide (ls_StateType s = LendingStateTypeLoanOffer).

Record LendingUpdate := mkLendingUpdate {
  lu_StateId : string;
  lu_StateType : LendingStateType;
  lu_Protocol : string;
  lu_UtilizationRate : float64;
  lu_InterestRate : float64;
  lu_OraclePrice : float64;
  lu_TotalSupply : Z;
  lu_TotalBorrows : Z;
  lu_LoanStatus : string;
  lu_Slot : Z;
  lu_Timestamp : gotime;
}.

Definition NewLendingUpdate (state : LendingState) : LendingUpdate :=
  mkLendingUpdate (ls_StateId state) (ls_StateType state) (ls_Protocol state)
    (ls_UtilizationRate state) (ls_InterestRatePct state) (ls_OraclePriceValue state)
    (ls_TotalSupply state) (ls_TotalBorrows state) (ls_LoanStatus state) (ls_Slot state)
    (ls_Timestamp state).

(** ** The interface of the parsers *)

Record sound_lending (protocol txHash : string) (txIndex slot timestamp : Z) (s : LendingState) : Prop := {
  sl_protocol : ls_Protocol s = protocol;
  sl_network : ls_Network s = "";
  sl_tx : ls_TxHash s = txHash /\ ls_TxIndex s = txIndex;
  sl_slot : ls_Slot s = slot;
  sl_timestamp : ls_Timestamp s = timestamp;
}.

Class LendingParser `{Cbor} := {
  lp_error : Type;
  lp_Protocol : string;
  lp_ParseDatum : raw -> string -> Z -> Z -> Z -> result lp_error (option LendingState);
  lp_GetAddresses : list string;
  lp_sound : forall datum txHash txIndex slot timestamp s,
    lp_ParseDatum datum txHash txIndex slot timestamp = Ok (Some s) ->
    sound_lending lp_Protocol txHash txIndex slot timestamp s;
}.

(** ** The Liqwid adapter *)

(** Fields that a conversion leaves out have the zero value of their type. *)
Definition no_asset : AssetClass := mkAssetClass None None.

Definition marketToLendingState (m : Liqwid.MarketState) : LendingState :=
  mkLendingState (Liqwid.ms_MarketId m) LendingStateTypeMarket (Liqwid.ms_Protocol m) ""
    (Liqwid.ms_TotalSupply m) (Liqwid.ms_TotalBorrows m) (Liqwid.ms_AvailableLiquidity m)
    (Liqwid.ms_UtilizationRate m) (Liqwid.ms_InterestRate m) (Liqwid.ms_CollateralFactor m)
    (Liqwid.ms_InterestRateFloat m) (aa_Class (Liqwid.ms_UnderlyingAsset m)) no_asset
    (Liqwid.ms_QTokenAsset m) 0 0 fzero 0 0 0 0 0 0 0 false false "" "" ""
    (Liqwid.ms_Slot m) (Liqwid.ms_TxHash m) (Liqwid.ms_TxIndex m) (Liqwid.ms_Timestamp m) 0.

Definition supplyToLendingState (s : Liqwid.SupplyState) : LendingState :=
  mkLendingState (Liqwid.ss_PositionId s) LendingStateTypePosition Liqwid.ProtocolName ""
    (Liqwid.ss_QTokenAmount s) 0 0 fzero 0 0 fzero no_asset no_asset no_asset
    0 0 fzero 0 0 0 0 0 0 0 false false "" (Liqwid.ss_Owner s) ""
    (Liqwid.ss_Slot s) (Liqwid.ss_TxHash s) (Liqwid.ss_TxIndex s) (Liqwid.ss_Timestamp s) 0.

Definition borrowToLendingState (b : Liqwid.BorrowState) : LendingState :=
  mkLendingState (Liqwid.bs_PositionId b) LendingStateTypePosition Liqwid.ProtocolName ""
    0 0 0 fzero 0 0 fzero no_asset no_asset no_asset
    0 0 fzero 0 0 (Liqwid.bs_BorrowAmount b) 0 0 0 0 false false "" "" (Liqwid.bs_Owner b)
    (Liqwid.bs_Slot b) (Liqwid.bs_TxHash b) (Liqwid.bs_TxIndex b) (Liqwid.bs_Timestamp b) 0.

Definition oracleToLendingState (o : Liqwid.OracleState) (txIndex : Z) : LendingState :=
  mkLendingState (Liqwid.os_Key o) LendingStateTypeOracle Liqwid.ProtocolName ""
    0 0 0 fzero 0 0 fzero (Liqwid.os_Asset o) no_asset no_asset
    (Liqwid.os_Price o) (Liqwid.os_Denominator o) (Liqwid.os_PriceFloat o) (Liqwid.os_ValidFrom o)
    (Liqwid.os_ValidTo o) 0 0 0 0 0 false false "" "" ""
    (Liqwid.os_Slot o) (Liqwid.os_TxHash o) txIndex (Liqwid.os_Timestamp o) 0.

(** The parsers are tried in turn; the error is that of the first. *)
Definition liqwid_ParseDatum `{Cbor} (datum : raw) (txHash : string) (txIndex slot timestamp : Z)
  : result Liqwid.liqwid_error (option LendingState) :=
  match Liqwid.ParseMarketDatum datum txHash txIndex slot timestamp with
  | Ok marketState => Ok (Some (marketToLendingState marketState))
  | Err marketErr =>
      match Liqwid.ParseSupplyPositionDatum datum txHash txIndex slot timestamp with
      | Ok supplyState => Ok (Some (supplyToLendingState supplyState))
      | Err _ =>
          match Liqwid.ParseBorrowPositionDatum datum txHash txIndex slot timestamp with
          | Ok borrowState => Ok (Some (borrowToLendingState borrowState))
          | Err _ =>
              match Liqwid.ParseOracleDatum datum txHash slot timestamp with
              | Ok oracleState => Ok (Some (oracleToLendingState oracleState txIndex))
              | Err _ => Err marketErr
              end
          end
      end
  end.

(** What a parser of each kind builds, read off its result. *)
Lemma liqwid_ParseDatum_inv `{Cbor} datum txHash txIndex slot timestamp s :
  liqwid_ParseDatum datum txHash txIndex slot timestamp = Ok (Some s) ->
  sound_lending Liqwid.ProtocolName txHash txIndex slot timestamp s /\
  match ls_StateType s with
  | LendingStateTypeMarket => exists p n, ls_StateId s = Liqwid.GenerateMarketId p n
  | LendingStateTypePosition => ls_StateId s = Liqwid.GeneratePositionId txHash txIndex
  | LendingStateTypeOracle => exists a, ls_StateId s = "liqwid:oracle:" +:+ a
  | _ => False
  end.
Proof.
  unfold liqwid_ParseDatum, Liqwid.ParseMarketDatum, Liqwid.ParseSupplyPositionDatum,
    Liqwid.ParseBorrowPositionDatum, Liqwid.ParseOracleDatum, Liqwid.decoded.
  destruct (Liqwid.MarketDatum_UnmarshalCBOR datum); [|destruct (Liqwid.SupplyPositionDatum_UnmarshalCBOR datum);
    [|destruct (Liqwid.BorrowPositionDatum_UnmarshalCBOR datum); [|destruct (Liqwid.OracleDatum_UnmarshalCBOR datum)]]];
    cbn [mbind result_bind]; intros; simplify_eq; (split; [done|]);
    first [exact eq_refl | eexists _, _; exact eq_refl | eexists; exact eq_refl].
Qed.

#[export, program] Instance LiqwidLendingAdapter `{Cbor} : LendingParser := {|
  lp_error := Liqwid.liqwid_error;
  lp_Protocol := Liqwid.ProtocolName;
  lp_ParseDatum := liqwid_ParseDatum;
  lp_GetAddresses := Liqwid.GetMarketAddresses;
|}.
Next Obligation. by intros C datum txHash txIndex slot timestamp s [Hs _]%liqwid_ParseDatum_inv. Qed.

Definition GetLendingParser `{Cbor} (protocol : string) : option LendingParser :=
  if bool_decide (protocol = "liqwid") then Some LiqwidLendingAdapter else None.

(** A market identifier continues with a hexadecimal digit or a dot, the others do
    not. *)
Lemma market_id_char p n : exists c r, Liqwid.GenerateMarketId p n = "liqwid_" +:+ String c r /\
  c <> "p"%char.
Proof.
  unfold Liqwid.GenerateMarketId. assert (char_free "p" (EncodeToString p) = true) as Hp
    by by apply char_free_hex.
  destruct (EncodeToString p) as [|c r]; cbn [String.append].
  - eexists _, _. split; [done|]. done.
  - eexists c, _. split; [done|]. intros ->. by cbn in Hp.
Qed.

(** The lending states of one kind never overwrite those of another. Two
    parsed states with the same identifier are of the same type; two positions
    with the same identifier come from the same transaction output, so that each
    position is tracked on its own, while the states of a market or a price feed
    share the identifier of its asset. *)
Theorem StateId_tells_kinds_apart `{Cbor} datum txHash txIndex slot timestamp s
    datum' txHash' txIndex' slot' timestamp' s' :
  liqwid_ParseDatum datum txHash txIndex slot timestamp = Ok (Some s) ->
  liqwid_ParseDatum datum' txHash' txIndex' slot' timestamp' = Ok (Some s') ->
  is_u64 txIndex -> is_u64 txIndex' -> char_free "#" txHash = true -> char_free "#" txHash' = true ->
  ls_StateId s = ls_StateId s' ->
  ls_StateType s = ls_StateType s' /\
  (ls_StateType s = LendingStateTypePosition -> txHash = txHash' /\ txIndex = txIndex').
Proof.
  intros [_ H1]%liqwid_ParseDatum_inv [_ H2]%liqwid_ParseDatum_inv Hi Hi' Hh Hh' E.
  destruct (ls_StateType s), (ls_StateType s'); try done.
  - destruct H1 as (p & n & H1). destruct (market_id_char p n) as (c & r & Hc & Hne).
    exfalso. rewrite H1, H2, Hc in E. by injection E.
  - destruct H1 as (p & n & H1), H2 as (a & H2). exfalso. by rewrite H1, H2 in E.
  - destruct H2 as (p & n & H2). destruct (market_id_char p n) as (c & r & Hc & Hne).
    exfalso. rewrite H1, H2, Hc in E. by injection E.
  - split; [done|]. intros _. rewrite H1, H2 in E. by apply Liqwid.GeneratePositionId_inj in E.
  - destruct H2 as (a & H2). exfalso. by rewrite H1, H2 in E.
  - destruct H1 as (a & H1), H2 as (p & n & H2). exfalso. by rewrite H1, H2 in E.
  - destruct H1 as (a & H1). exfalso. by rewrite H1, H2 in E.
Qed.

(** ** The contract's format *)

Definition owner_id (owner : bool * list byte) : string :=
  (if owner.1 then "script:" else "pubkey:") +:+ hex_encode owner.2.

Section Encode.
Context `{C : Cbor, S : !CborSyntax C}.

Lemma not_market fields : length fields <> 8%nat -> Liqwid.MarketDatum_UnmarshalCBOR (constr 0 fields) = None.
Proof. intros Hn. unfold Liqwid.MarketDatum_UnmarshalCBOR. by rewrite Liqwid.tagged_struct_other. Qed.
Lemma not_supply fields :
  length fields <> 4%nat -> Liqwid.SupplyPositionDatum_UnmarshalCBOR (constr 0 fields) = None.
Proof. intros Hn. unfold Liqwid.SupplyPositionDatum_UnmarshalCBOR. by rewrite Liqwid.tagged_struct_other. Qed.
Lemma asset_not_credential a : Liqwid.Credential_UnmarshalCBOR (Liqwid.encode_asset a.1 a.2) = None.
Proof.
  destruct (Liqwid.Credential_UnmarshalCBOR _) eqn:E; [|done]. exfalso.
  eapply Liqwid.credential_not_asset; [exact E | apply Liqwid.decode_liqwid_asset].
Qed.
Lemma oracle_not_borrow asset price denominator from to :
  Liqwid.BorrowPositionDatum_UnmarshalCBOR (Liqwid.encode_oracle asset price denominator from to) = None.
Proof.
  unfold Liqwid.BorrowPositionDatum_UnmarshalCBOR, Liqwid.encode_oracle. decode_step.
  by rewrite asset_not_credential.
Qed.

(** C36: each of the four kinds of datum, written in the contract's format, is
    recognised as that kind, and the unified state carries exactly its contents:
    what is available for borrowing is what was supplied less what is borrowed and
    reserved, an owner is named with the kind of its credential, and the times of
    a price feed are the instants of its milliseconds. *)
Theorem liqwid_ParseDatum_encode nft und q owner a b c d e from to txHash txIndex slot timestamp :
  Forall is_u64 [a; b; c; d; e] -> is_i64 from -> is_i64 to ->
  let parse datum := liqwid_ParseDatum datum txHash txIndex slot timestamp in
  (exists s, parse (Liqwid.encode_market nft und q a b c d e) = Ok (Some s) /\
    ls_StateType s = LendingStateTypeMarket /\
    ls_StateId s = "liqwid_" +:+ hex_encode nft.1 +:+ String "." (hex_encode nft.2) /\
    ls_TotalSupply s = a /\ ls_TotalBorrows s = b /\ ls_AvailableLiq s = Z.max 0 (a - b - c) /\
    ls_InterestRate s = d /\ ls_CollateralFactor s = e /\
    ls_UnderlyingAsset s = mkAssetClass (Some und.1) (Some und.2) /\
    ls_LpToken s = mkAssetClass (Some q.1) (Some q.2)) /\
  (exists s, parse (Liqwid.encode_supply owner nft a b) = Ok (Some s) /\
    ls_StateType s = LendingStateTypePosition /\ ls_StateId s = Liqwid.GeneratePositionId txHash txIndex /\
    ls_TotalSupply s = a /\ ls_Lender s = owner_id owner /\ ls_Borrower s = "") /\
  (exists s, parse (Liqwid.encode_borrow owner nft a b c) = Ok (Some s) /\
    ls_StateType s = LendingStateTypePosition /\ ls_StateId s = Liqwid.GeneratePositionId txHash txIndex /\
    ls_LoanAmount s = a /\ ls_Borrower s = owner_id owner /\ ls_Lender s = "") /\
  (exists s, parse (Liqwid.encode_oracle und a b from to) = Ok (Some s) /\
    ls_StateType s = LendingStateTypeOracle /\
    ls_OraclePrice s = a /\ ls_OracleDenominator s = b /\
    ls_ValidFrom s = UnixMilli from /\ ls_ValidTo s = UnixMilli to).
Proof.
  rewrite !Forall_cons. intros (Ha & Hb & Hc & Hd & He & _) Hf Ht parse. subst parse. cbn beta.
  assert (Liqwid.Identifier (Liqwid.credential_of owner) = owner_id owner) as Hid
    by by destruct owner as [[] h].
  unfold liqwid_ParseDatum, Liqwid.ParseMarketDatum, Liqwid.ParseSupplyPositionDatum,
    Liqwid.ParseBorrowPositionDatum, Liqwid.ParseOracleDatum.
  split_and!; eexists.
  - rewrite Liqwid.decode_market by done. split; [reflexivity|]. split_and!; try reflexivity.
    cbn. unfold Liqwid.ms_AvailableLiquidity. cbn. by apply Liqwid.availableLiquidity_exact.
  - assert (Liqwid.MarketDatum_UnmarshalCBOR (Liqwid.encode_supply owner nft a b) = None) as ->
      by by apply not_market.
    rewrite Liqwid.decode_supply by done. split; [reflexivity|]. by split_and!.
  - assert (Liqwid.MarketDatum_UnmarshalCBOR (Liqwid.encode_borrow owner nft a b c) = None) as ->
      by by apply not_market.
    assert (Liqwid.SupplyPositionDatum_UnmarshalCBOR (Liqwid.encode_borrow owner nft a b c) = None) as ->
      by by apply not_supply.
    rewrite Liqwid.decode_borrow by done. split; [reflexivity|]. by split_and!.
  - assert (Liqwid.MarketDatum_UnmarshalCBOR (Liqwid.encode_oracle und a b from to) = None) as ->
      by by apply not_market.
    assert (Liqwid.SupplyPositionDatum_UnmarshalCBOR (Liqwid.encode_oracle und a b from to) = None) as ->
      by by apply not_supply.
    rewrite oracle_not_borrow, Liqwid.decode_oracle by done. split; [reflexivity|]. by split_and!.
Qed.
End Encode.

Definition ada : list byte * list byte := ([], []).
Definition lending_nft : list byte * list byte := ([x0a], [x4d]).

Lemma liqwid_ParseDatum_encode_witness :
  exists s, liqwid_ParseDatum (H := PlutusData)
      (Liqwid.encode_market lending_nft ada ([x0b], [x71]) 1000 400 100 350 7500) "ab" 0 5 1 = Ok (Some s) /\
    ls_AvailableLiq s = 500 /\ ls_StateId s = "liqwid_0a.4d".
Proof.
  destruct (liqwid_ParseDatum_encode (C := PlutusData) lending_nft ada ([x0b], [x71]) (false, [x01])
    1000 400 100 350 7500 0 0 "ab" 0 5 1) as ((s & E & _ & Hid & _ & _ & Hl & _) & _);
    [by repeat constructor | done | done |].
  exists s. split; [exact E|]. rewrite Hl, Hid. done.
Defined.

Lemma StateId_tells_kinds_apart_witness :
  exists s s', liqwid_ParseDatum (H := PlutusData)
      (Liqwid.encode_supply (false, [x01]) lending_nft 7 5) "ab" 0 5 1 = Ok (Some s) /\
    liqwid_ParseDatum (H := PlutusData)
      (Liqwid.encode_supply (false, [x01]) lending_nft 9 5) "ab" 1 5 1 = Ok (Some s') /\
    ls_StateId s <> ls_StateId s'.
Proof.
  eassert (liqwid_ParseDatum (H := PlutusData)
    (Liqwid.encode_supply (false, [x01]) lending_nft 7 5) "ab" 0 5 1 = Ok (Some _)) as E1
    by (vm_compute; reflexivity).
  eassert (liqwid_ParseDatum (H := PlutusData)
    (Liqwid.encode_supply (false, [x01]) lending_nft 9 5) "ab" 1 5 1 = Ok (Some _)) as E2
    by (vm_compute; reflexivity).
  do 2 eexists. split; [exact E1|]. split; [exact E2|]. intros E.
  destruct (StateId_tells_kinds_apart _ _ _ _ _ _ _ _ _ _ _ _ E1 E2
    ltac:(done) ltac:(done) ltac:(done) ltac:(done) E) as [_ H].
  by destruct (H eq_refl).
Defined.
