(* ===== verification/LendingJson.v ===== *)
(** * LendingJson: lending states as text, the encoding of the lending storage.

    Most fields of a [LendingState] have [omitempty]: a zero is not written, so a
    state can only be decoded into the zero value, as the storage does. A
    [time.Time] and an asset are structs, which [omitempty] never leaves out. *)
From S2P Require Import Prelude.
From S2P Require Import Text.
From S2P Require Import Float64.
From S2P Require Import Common.
From S2P Require Import KeyValue.
From S2P Require Import Lending.
From S2P Require Import JsonString.
From S2P Require Import JsonNumber.
From S2P Require Import Json.
From S2P Require Import JsonRecord.
From S2P Require Import PoolJson.

(** A [LendingStateType] is an [int]; numbers that name no state are refused here,
    the code would keep them. *)
Definition state_type_code (t : LendingStateType) : Z :=
  match t with
  | LendingStateTypeMarket => 0
  | LendingStateTypeLoan => 1
  | LendingStateTypeLoanOffer => 2
  | LendingStateTypePosition => 3
  | LendingStateTypeOracle => 4
  end.
Definition state_type_of (z : Z) : option LendingStateType :=
  match z with
  | 0 => Some LendingStateTypeMarket
  | 1 => Some LendingStateTypeLoan
  | 2 => Some LendingStateTypeLoanOffer
  | 3 => Some LendingStateTypePosition
  | 4 => Some LendingStateTypeOracle
  | _ => None
  end.
Definition state_type_json (t : LendingStateType) : option json := Some (JNum (of_int (state_type_code t))).
Definition read_state_type (j : json) : option LendingStateType := read_int j ≫= state_type_of.
#[program] Definition state_type_kind : kind LendingStateType := {|
  enc := state_type_json;
  dec := unless_null read_state_type;
  zero_value := LendingStateTypeMarket;
  is_empty := never_empty;
  good := always;
  into := always;
|}.
Next Obligation. intros t j _ [= <-]. constructor. apply wf_int_number. Qed.
Next Obligation. by intros [] j t0 _ [= <-] _. Qed.
Next Obligation. done. Qed.
Next Obligation. done. Qed.

Definition lending_fields : fields _ :=
  FCons "stateId" false string_kind (FCons "stateType" false state_type_kind
  (FCons "protocol" false string_kind (FCons "network" false string_kind
  (FCons "totalSupply" true uint64_kind (FCons "totalBorrows" true uint64_kind
  (FCons "availableLiquidity" true uint64_kind (FCons "utilizationRate" true float_kind
  (FCons "interestRate" true uint64_kind (FCons "collateralFactor" true uint64_kind
  (FCons "interestRatePercent" true float_kind
  (FCons "underlyingAsset" true asset_kind (FCons "collateralAsset" true asset_kind
  (FCons "lpToken" true asset_kind
  (FCons "oraclePrice" true uint64_kind (FCons "oracleDenominator" true uint64_kind
  (FCons "oraclePriceValue" true float_kind
  (FCons "validFrom" true time_kind (FCons "validTo" true time_kind
  (FCons "loanAmount" true uint64_kind (FCons "repaymentAmount" true uint64_kind
  (FCons "startTime" true time_kind (FCons "dueDate" true time_kind
  (FCons "duration" true int64_kind
  (FCons "isOverdue" true bool_kind (FCons "canLiquidate" true bool_kind
  (FCons "loanStatus" true string_kind (FCons "lender" true string_kind
  (FCons "borrower" true string_kind
  (FCons "slot" false uint64_kind (FCons "txHash" false string_kind
  (FCons "txIndex" false uint32_kind (FCons "timestamp" false time_kind
  (FCons "updatedAt" false time_kind FNil))))))))))))))))))))))))))))))))).

Definition lending_tuple (s : LendingState) :=
  (ls_StateId s, (ls_StateType s, (ls_Protocol s, (ls_Network s, (ls_TotalSupply s,
  (ls_TotalBorrows s, (ls_AvailableLiq s, (ls_UtilizationRate s, (ls_InterestRate s,
  (ls_CollateralFactor s, (ls_InterestRatePct s, (ls_UnderlyingAsset s, (ls_CollateralAsset s,
  (ls_LpToken s, (ls_OraclePrice s, (ls_OracleDenominator s, (ls_OraclePriceValue s,
  (ls_ValidFrom s, (ls_ValidTo s, (ls_LoanAmount s, (ls_RepaymentAmount s, (ls_StartTime s,
  (ls_DueDate s, (ls_Duration s, (ls_IsOverdue s, (ls_CanLiquidate s, (ls_LoanStatus s,
  (ls_Lender s, (ls_Borrower s, (ls_Slot s, (ls_TxHash s, (ls_TxIndex s, (ls_Timestamp s,
  (ls_UpdatedAt s, tt)))))))))))))))))))))))))))))))))).
Definition lending_of_tuple (r : _) : LendingState :=
  let '(a, (b, (c, (d, (e, (f, (g, (h, (i, (j, (k, (l, (m, (n, (o, (p, (q, (t, (u, (v, (w, (x, (y,
    (z, (a1, (b1, (c1, (d1, (e1, (f1, (g1, (h1, (i1, (j1, tt)))))))))))))))))))))))))))))))))) := r in
  mkLendingState a b c d e f g h i j k l m n o p q t u v w x y z a1 b1 c1 d1 e1 f1 g1 h1 i1 j1.

#[program] Definition lending_kind : kind LendingState :=
  struct_kind lending_fields lending_tuple lending_of_tuple _ no_extra eq_refl (no_extra_ok _) _.
Next Obligation. by intros []. Qed.
Next Obligation.
  by intros (? & ? & ? & ? & ? & ? & ? & ? & ? & ? & ? & ? & ? & ? & ? & ? & ? & ? & ? & ? & ? & ?
    & ? & ? & ? & ? & ? & ? & ? & ? & ? & ? & ? & ? & []).
Qed.

Definition lending_json : Codec LendingState := json_codec lending_kind.

(** ** What [omitempty] does and does not leave out *)

(** The members of a state that holds nothing: the times and the assets are
    written although their tags say that they may be left out. *)
Example empty_state_members :
  (map fst <$> encode lending_fields (zero_fields lending_fields)) =
  Some ["stateId"; "stateType"; "protocol"; "network"; "underlyingAsset"; "collateralAsset"; "lpToken";
        "validFrom"; "validTo"; "startTime"; "dueDate"; "slot"; "txHash"; "txIndex"; "timestamp"; "updatedAt"].
Proof. vm_compute. reflexivity. Qed.

(** A member that was left out keeps what the variable held: a state is only read
    back into the zero value. *)
Example left_out_member_is_kept :
  let stale := lending_of_tuple (zero_fields lending_fields) in
  let stale := mkLendingState (ls_StateId stale) (ls_StateType stale) (ls_Protocol stale) (ls_Network stale)
    7 0 0 fzero 0 0 fzero Lovelace Lovelace Lovelace 0 0 fzero 0 0 0 0 0 0 0 false false "" "" "" 0 "" 0 0 0 in
  (json_Marshal lending_kind (zero_value lending_kind) ≫= fun text =>
    ls_TotalSupply <$> json_Unmarshal lending_kind text stale) = Some 7.
Proof. vm_compute. reflexivity. Qed.
