(* ===== verification/LendingOracle.v ===== *)
(** * LendingOracle: the lending oracle and its storage
    ([internal/oracle/lending_oracle.go], [internal/oracle/lending_storage.go]).

    It follows the pool oracle: states in a map by scoped key, a record on disk for
    each, updates to the subscribers, rollback by slot. Every operation is a
    function on its state; [now] stands for the clock. *)
From S2P Require Import Prelude.
From S2P Require Import Text.
From S2P Require Import Float64.
From S2P Require Import Common.
From S2P Require Import Cbor.
From S2P Require Import Ledger.
From S2P Require Import KeyValue.
From S2P Require Import Table.
From S2P Require OracleStorage.
From S2P Require Import Subscribers.
From S2P Require Import Oracle.
From S2P Require Import Lending.
From S2P Require Import JsonString.
From S2P Require Import JsonNumber.
From S2P Require Import JsonRecord.
From S2P Require Import LendingJson.

(** ** Storage *)

Definition lendingStateKeyPrefix : string := "lending_state_".

Definition lendingStateKey (network protocol stateId : string) : string :=
  lendingStateKeyPrefix +:+ network +:+ String ":" (protocol +:+ String ":" stateId).

(** Empty parts are let through here. *)
Definition ParseLendingStateKey (key : string) : option (string * string * string) :=
  if negb (String.prefix lendingStateKeyPrefix key) then None
  else
    match OracleStorage.SplitN3 (TrimPrefix key lendingStateKeyPrefix) with
    | [p0; p1; p2] => Some (p0, p1, p2)
    | _ => None
    end.

Lemma ParseLendingStateKey_inverts key network protocol stateId :
  ParseLendingStateKey key = Some (network, protocol, stateId) <->
  key = lendingStateKey network protocol stateId /\
  char_free ":" network = true /\ char_free ":" protocol = true.
Proof.
  unfold ParseLendingStateKey. split.
  - destruct (String.prefix lendingStateKeyPrefix key) eqn:Hp; [|done]. apply prefix_strip in Hp as [r ->].
    rewrite TrimPrefix_app. cbn [negb].
    destruct (OracleStorage.SplitN3 r) as [|p0 [|p1 [|p2 [|]]]] eqn:E; try done.
    apply OracleStorage.SplitN3_spec in E as (-> & Ha & Hb). by intros [= -> -> ->].
  - intros (-> & Hn & Hpr). unfold lendingStateKey. rewrite prefix_app, TrimPrefix_app. cbn [negb].
    by rewrite OracleStorage.SplitN3_join.
Qed.

(** [LendingState{}] *)
Definition zeroLending : LendingState :=
  mkLendingState "" LendingStateTypeMarket "" "" 0 0 0 fzero 0 0 fzero no_asset no_asset no_asset
    0 0 fzero 0 0 0 0 0 0 0 false false "" "" "" 0 "" 0 0 0.

Definition lending_key_of (s : LendingState) : string :=
  lendingStateKey (ls_Network s) (ls_Protocol s) (ls_StateId s).

Section Storage.
Context `{OrderedKV} `{!Codec LendingState} `{!Target zeroLending}.

Definition SaveLendingState (state : LendingState) (d : db) : db * result record_error unit :=
  save_record lending_key_of state d.
Definition LoadLendingState (network protocol stateId : string) (d : db) : result record_error LendingState :=
  load_record zeroLending (lendingStateKey network protocol stateId) d.
Definition LoadAllLendingStates (d : db) : list LendingState :=
  load_prefix zeroLending lendingStateKeyPrefix d.
Definition DeleteLendingState (network protocol stateId : string) (d : db) : db * result record_error unit :=
  delete_record (lendingStateKey network protocol stateId) d.
Definition LoadLendingStatesByProtocol (network protocol : string) (d : db) : list LendingState :=
  load_prefix zeroLending (lendingStateKeyPrefix +:+ network +:+ String ":" (protocol +:+ ":")) d.
Definition LoadLendingStatesByType (stateType : LendingStateType) (d : db) : list LendingState :=
  filter (fun s => ls_StateType s = stateType) (load_prefix zeroLending lendingStateKeyPrefix d).
End Storage.

(** ** The state *)

Record LendingOracle `{KV} := mkLending {
  lo_states : gmap string LendingState;
  lo_subscribers : list (subscriber LendingUpdate);
  lo_nextChannel : Z;
  lo_addresses : list string;
  lo_storage : option db;
  lo_stopped : bool;
}.

Section Setters.
Context `{KV}.
Definition set_states (m : gmap string LendingState) (o : LendingOracle) : LendingOracle :=
  mkLending _ m (lo_subscribers o) (lo_nextChannel o) (lo_addresses o) (lo_storage o) (lo_stopped o).
Definition set_storage (d : option db) (o : LendingOracle) : LendingOracle :=
  mkLending _ (lo_states o) (lo_subscribers o) (lo_nextChannel o) (lo_addresses o) d (lo_stopped o).
Definition set_lending_subscribers (l : list (subscriber LendingUpdate)) (o : LendingOracle) : LendingOracle :=
  mkLending _ (lo_states o) l (lo_nextChannel o) (lo_addresses o) (lo_storage o) (lo_stopped o).
End Setters.

Inductive LendingProfile :=
| LendingProfileConfig (MarketAddresses OracleAddresses : list string)
| OtherProfile.

Definition set_lending_meta (network : string) (updatedAt : gotime) (s : LendingState) : LendingState :=
  mkLendingState (ls_StateId s) (ls_StateType s) (ls_Protocol s) network (ls_TotalSupply s)
    (ls_TotalBorrows s) (ls_AvailableLiq s) (ls_UtilizationRate s) (ls_InterestRate s)
    (ls_CollateralFactor s) (ls_InterestRatePct s) (ls_UnderlyingAsset s) (ls_CollateralAsset s)
    (ls_LpToken s) (ls_OraclePrice s) (ls_OracleDenominator s) (ls_OraclePriceValue s)
    (ls_ValidFrom s) (ls_ValidTo s) (ls_LoanAmount s) (ls_RepaymentAmount s) (ls_StartTime s)
    (ls_DueDate s) (ls_Duration s) (ls_IsOverdue s) (ls_CanLiquidate s) (ls_LoanStatus s)
    (ls_Lender s) (ls_Borrower s) (ls_Slot s) (ls_TxHash s) (ls_TxIndex s) (ls_Timestamp s) updatedAt.

Section LendingOracle.
Context `{C : Cbor, L : Ledger, P : !LendingParser} `{OrderedKV} `{!Codec LendingState} `{!Target zeroLending} `{!RangeOrder}.
Context (network : string).

Definition NewLendingOracle (profile : LendingProfile) (storage : option db) : LendingOracle :=
  let addresses :=
    match profile with
    | LendingProfileConfig markets oracles => lp_GetAddresses ++ markets ++ oracles
    | OtherProfile => lp_GetAddresses
    end in
  mkLending _ ∅ [] 0 addresses storage false.

Definition isLendingAddress (addr : string) (o : LendingOracle) : bool :=
  existsb (fun lendingAddr => bool_decide (addr = lendingAddr)) (lo_addresses o).

Definition loadPersistedStates (o : LendingOracle) : LendingOracle :=
  match lo_storage o with
  | None => o
  | Some d =>
      set_states (foldl (fun m state => <[Key state := state]> m) (lo_states o)
        (LoadLendingStatesByProtocol network lp_Protocol d)) o
  end.

(** [Start]; the registration with the indexer is outside. *)
Definition Start (o : LendingOracle) : LendingOracle * bool :=
  match lo_storage o with
  | None => (o, false)
  | Some _ => (loadPersistedStates o, true)
  end.

Definition Stop (o : LendingOracle) : LendingOracle :=
  if lo_stopped o then o
  else mkLending _ (lo_states o) [] (lo_nextChannel o) (lo_addresses o) (lo_storage o) true.

Definition Subscribe (o : LendingOracle) : LendingOracle * subscriber LendingUpdate :=
  let ch := mkSubscriber (lo_nextChannel o) [] in
  (mkLending _ (lo_states o) (lo_subscribers o ++ [ch]) (lo_nextChannel o + 1) (lo_addresses o)
     (lo_storage o) (lo_stopped o), ch).

Definition Unsubscribe (id : Z) (o : LendingOracle) : LendingOracle :=
  set_lending_subscribers (remove_subscriber id (lo_subscribers o)) o.

Definition notifySubscribers (update : LendingUpdate) (o : LendingOracle) : LendingOracle :=
  set_lending_subscribers
    (map (fun s => mkSubscriber (sub_id s) (offer_or_skip update (sub_buf s))) (lo_subscribers o)) o.

(** ** Events *)

(** A parsed state is recorded; a failed write is only logged. *)
Definition handle_state (now : gotime) (parsed : LendingState) (o : LendingOracle) : LendingOracle :=
  let state := set_lending_meta network now parsed in
  let o := set_states (<[Key state := state]> (lo_states o)) o in
  let o :=
    match lo_storage o with
    | None => o
    | Some d => set_storage (Some (SaveLendingState state d).1) o
    end in
  notifySubscribers (NewLendingUpdate state) o.

Definition handle_output (now : gotime) (ctx : TransactionContext) (o : LendingOracle) (u : utxo)
  : LendingOracle :=
  if negb (isLendingAddress (out_Address (u_Output u)) o) then o
  else
    match out_Datum (u_Output u) with
    | None => o
    | Some datum =>
        match lp_ParseDatum datum (tc_TransactionHash ctx) (u_Index u) (tc_SlotNumber ctx) now with
        | Err _ | Ok None => o
        | Ok (Some state) => handle_state now state o
        end
    end.

Definition handleTransaction (now : gotime) (ctx : option TransactionContext) (txEvt : TransactionEvent)
    (o : LendingOracle) : LendingOracle :=
  match ctx with
  | None => o
  | Some ctx =>
      foldl (handle_output now ctx) o (producedUTXOs txEvt (tc_TransactionHash ctx))
  end.

(** One deletion of the rollback, counting the failures. *)
Definition delete_rolled_back (oe : LendingOracle * Z) (state : LendingState) : LendingOracle * Z :=
  let '(o, errs) := oe in
  match lo_storage o with
  | None => (o, errs)
  | Some d =>
      let '(d, r) := DeleteLendingState (ls_Network state) (ls_Protocol state) (ls_StateId state) d in
      (set_storage (Some d) o, match r with Ok _ => errs | Err _ => errs + 1 end)
  end.

(** The entries of the map to delete; each is in the map under its key. *)
Definition rolled_back_entries (first : Z) (o : LendingOracle) : list (string * LendingState) :=
  filter (fun kv => first <= ls_Slot kv.2) (range (map_to_list (lo_states o))).

Definition handleRollback (slot : Z) (o : LendingOracle) : LendingOracle * bool :=
  let firstInvalidSlot := firstRolledBackSlot slot in
  let toDelete := rolled_back_entries firstInvalidSlot o in
  let o := set_states (foldl (fun m kv => delete kv.1 m) (lo_states o) toDelete) o in
  let '(o, errs) := foldl delete_rolled_back (o, 0) toDelete.*2 in
  (o, negb (0 <? errs)).

Definition HandleChainsyncEvent (now : gotime) (evt : chain_event) (o : LendingOracle)
  : LendingOracle * bool :=
  if lo_stopped o then (o, true)
  else
    match evt with
    | EvTransaction ctx txEvt => (handleTransaction now ctx txEvt o, true)
    | EvRollback slot => handleRollback slot o
    | EvOther => (o, true)
    end.

(** ** Queries *)

(** The loop of [GetState] over the map: nil as soon as a second state matches. *)
Fixpoint find_unscoped (stateId : string) (states : list LendingState) (matched : option LendingState)
  : option LendingState :=
  match states with
  | [] => matched
  | state :: states' =>
      if bool_decide (ls_StateId state = stateId) then
        match matched with
        | Some _ => None
        | None => find_unscoped stateId states' (Some state)
        end
      else find_unscoped stateId states' matched
  end.

Definition GetState (stateId : string) (o : LendingOracle) : option LendingState :=
  match lo_states o !! stateId with
  | Some state => Some state
  | None => find_unscoped stateId (range (map_to_list (lo_states o)).*2) None
  end.

Definition GetAllStates (o : LendingOracle) : list LendingState := range (map_to_list (lo_states o)).*2.
Definition GetMarkets (o : LendingOracle) : list LendingState :=
  filter (fun s => IsMarket s = true) (GetAllStates o).
Definition GetLoans (o : LendingOracle) : list LendingState :=
  filter (fun s => IsLoan s = true) (GetAllStates o).
Definition GetActiveLoans (o : LendingOracle) : list LendingState :=
  filter (fun s => IsLoan s = true /\ ls_LoanStatus s = "active") (GetAllStates o).
Definition GetOverdueLoans (o : LendingOracle) : list LendingState :=
  filter (fun s => IsLoan s = true /\ ls_IsOverdue s = true) (GetAllStates o).
Definition StateCount (o : LendingOracle) : Z := Z.of_nat (size (lo_states o)).

Definition GetUtilization (stateId : string) (o : LendingOracle) : option float64 :=
  match lo_states o !! stateId with
  | Some state => if IsMarket state then Some (ls_UtilizationRate state) else None
  | None => None
  end.
Definition GetInterestRate (stateId : string) (o : LendingOracle) : option float64 :=
  match GetState stateId o with
  | Some state => if IsMarket state then Some (ls_InterestRatePct state) else None
  | None => None
  end.
End LendingOracle.

(** ** Memory and disk *)

Definition scoped_key (k : string) : string := lendingStateKeyPrefix +:+ k.

#[export] Instance scoped_key_inj : Inj (=) (=) scoped_key.
Proof. intros a b E. by apply append_inj_l in E. Qed.

Lemma lending_key_scoped s : lending_key_of s = scoped_key (Key s).
Proof. done. Qed.

Lemma find_unscoped_matched stateId l m :
  find_unscoped stateId l (Some m) =
  match filter (fun s => ls_StateId s = stateId) l with [] => Some m | _ => None end.
Proof.
  induction l as [|s l IH]; [done|]. cbn [find_unscoped]. rewrite filter_cons.
  case_bool_decide as E; [by rewrite decide_True | by rewrite decide_False].
Qed.

(** The loop finds the only match, and nothing when there are several. *)
Lemma find_unscoped_unique stateId l :
  find_unscoped stateId l None =
  match filter (fun s => ls_StateId s = stateId) l with [s] => Some s | _ => None end.
Proof.
  induction l as [|s l IH]; [done|]. cbn [find_unscoped]. rewrite filter_cons.
  case_bool_decide as E; [rewrite decide_True by done | by rewrite decide_False].
  rewrite find_unscoped_matched. by destruct (filter _ l).
Qed.

Section Sync.
Context `{C : Cbor, L : Ledger, P : !LendingParser} `{OrderedKV} `{!Codec LendingState} `{!Target zeroLending} `{!RangeOrder}.
Context (network : string).

(** A query by identifier never depends on the order in which a map is
    walked. It returns the state with that scoped key if there is one, otherwise
    the only state with that raw identifier, and nothing when several networks or
    protocols have one. *)
Theorem GetState_unambiguous stateId (o : LendingOracle) s :
  GetState stateId o = Some s <->
  lo_states o !! stateId = Some s \/
  (lo_states o !! stateId = None /\
   filter (fun s => ls_StateId s = stateId) (map_to_list (lo_states o)).*2 = [s]).
Proof.
  unfold GetState. destruct (lo_states o !! stateId) as [s0|]; [naive_solver|].
  rewrite find_unscoped_unique.
  assert (filter (fun s => ls_StateId s = stateId) (range (map_to_list (lo_states o)).*2) ≡ₚ
    filter (fun s => ls_StateId s = stateId) (map_to_list (lo_states o)).*2) as Hp
    by apply range_filter_perm.
  set (l := filter _ (range _)) in *. set (l' := filter _ (map_to_list _).*2) in *.
  split.
  - intros Hs. right. split; [done|]. destruct l as [|x [|]]; [done | | done].
    injection Hs as ->. by apply Permutation_singleton_l in Hp.
  - intros [|[_ Hl]]; [done|]. rewrite Hl in Hp. apply Permutation_singleton_r in Hp. by rewrite Hp.
Qed.

Record good_lending (s : LendingState) : Prop := {
  gl_network : ls_Network s = network;
  gl_protocol : ls_Protocol s = lp_Protocol;
  gl_faithful : faithful s;
  gl_total : is_Some (Marshal s);
}.

Record lending_synced (o : LendingOracle) (d : db) : Prop := {
  ly_storage : lo_storage o = Some d;
  ly_states : map_Forall (fun k s => Key s = k /\ good_lending s) (lo_states o);
  ly_table : table lendingStateKeyPrefix lending_key_of d (kmap scoped_key (lo_states o));
}.

Definition good_lending_output (now : gotime) (ctx : TransactionContext) (u : utxo) : Prop :=
  forall datum s, out_Datum (u_Output u) = Some datum ->
    lp_ParseDatum datum (tc_TransactionHash ctx) (u_Index u) (tc_SlotNumber ctx) now = Ok (Some s) ->
    let s' := set_lending_meta network now s in faithful s' /\ is_Some (Marshal s').

Definition good_lending_event (now : gotime) (evt : chain_event) : Prop :=
  match evt with
  | EvTransaction (Some ctx) txEvt =>
      Forall (good_lending_output now ctx) (producedUTXOs txEvt (tc_TransactionHash ctx))
  | EvRollback slot => is_u64 slot
  | _ => True
  end.

Lemma handle_state_synced now s o d :
  good_lending (set_lending_meta network now s) -> lending_synced o d ->
  exists d', lending_synced (handle_state network now s o) d'.
Proof.
  intros Hg [Hst Hs Ht]. unfold handle_state. cbn [lo_storage set_states]. rewrite Hst.
  set (s' := set_lending_meta network now s) in *.
  destruct (table_save lendingStateKeyPrefix lending_key_of d _ s' (gl_faithful _ Hg) (gl_total _ Hg)
    (prefix_app _ _) Ht) as (d' & E & Ht').
  unfold SaveLendingState. rewrite E. exists d'. split; cbn; [done | by apply map_Forall_insert_2 |].
  rewrite kmap_insert by apply _. exact Ht'.
Qed.

Lemma handle_output_synced now ctx u o d :
  good_lending_output now ctx u -> lending_synced o d ->
  exists d', lending_synced (handle_output network now ctx o u) d'.
Proof.
  intros Hu Hs. unfold handle_output. destruct (negb _); [by exists d|].
  destruct (out_Datum (u_Output u)) as [datum|] eqn:Ed; [|by exists d].
  destruct (lp_ParseDatum _ _ _ _ _) as [[s|]|] eqn:Ep; [|by exists d..].
  apply (handle_state_synced now s o d); [|done]. destruct (Hu datum s Ed Ep) as [Hf Ht].
  pose proof (lp_sound _ _ _ _ _ _ Ep) as []. by split.
Qed.

Lemma handleTransaction_lending now ctx txEvt o d :
  good_lending_event now (EvTransaction ctx txEvt) -> lending_synced o d ->
  exists d', lending_synced (handleTransaction network now ctx txEvt o) d'.
Proof.
  destruct ctx as [ctx|]; cbn [good_lending_event handleTransaction]; [|by intros _ Hs; exists d].
  intros Hu. revert o d. induction Hu as [|u us Hu _ IH]; intros o d Hs; [by exists d|].
  cbn [foldl]. destruct (handle_output_synced now ctx u o d Hu Hs) as [d' Hs']. by apply (IH _ d').
Qed.

Lemma foldl_delete_rolled_back l o d errs :
  lo_storage o = Some d ->
  foldl delete_rolled_back (o, errs) l = (set_storage (Some (delete_all (lending_key_of <$> l) d)) o, errs).
Proof.
  revert o d. induction l as [|s l IH]; intros o d Hd; [by destruct o; cbn in *; subst|].
  cbn [foldl]. unfold delete_rolled_back at 2. rewrite Hd. unfold DeleteLendingState, delete_record, Update.
  by rewrite (IH _ (Delete (lendingStateKey (ls_Network s) (ls_Protocol s) (ls_StateId s)) d)).
Qed.

Lemma handleRollback_lending slot o d :
  is_u64 slot -> lending_synced o d ->
  exists o' d', handleRollback slot o = (o', true) /\ lending_synced o' d' /\
    lo_states o' = filter (fun kv => ~ firstRolledBackSlot slot <= ls_Slot kv.2) (lo_states o).
Proof.
  intros Hu [Hst Hs Ht]. unfold handleRollback. set (first := firstRolledBackSlot slot).
  set (l := rolled_back_entries first o).
  assert (map_Forall (fun k s => Key s = k) (lo_states o)) as Hkey
    by (eapply map_Forall_impl; [exact Hs | naive_solver]).
  assert (l ≡ₚ filter (fun kv => first <= ls_Slot kv.2) (map_to_list (lo_states o))) as Hl
    by apply range_filter_perm.
  assert (Forall (fun kv => Key kv.2 = kv.1) l) as Hkl.
  { rewrite Hl. apply Forall_filter_sub, Forall_forall. intros [k s] Hk%elem_of_map_to_list. by apply Hkey. }
  assert (forall (m : gmap string LendingState), foldl (fun m kv => delete kv.1 m) m l =
    foldl (fun m s => delete (Key s) m) m l.*2) as Hfold.
  { clear -Hkl. induction Hkl as [|kv l Hk _ IH]; intros m; [done|]. cbn. by rewrite Hk, IH. }
  rewrite Hfold, (foldl_delete_rolled_back _ _ d) by done.
  assert (l.*2 ≡ₚ filter (fun s => first <= ls_Slot s) (map_to_list (lo_states o)).*2) as Hl2.
  { rewrite Hl. clear. induction (map_to_list (lo_states o)) as [|kv q IH]; [done|].
    cbn [fmap list_fmap]. rewrite !filter_cons. case_decide; cbn; by rewrite IH. }
  pose proof (foldl_delete_filter Key (fun s => first <= ls_Slot s) (lo_states o) l.*2 Hkey Hl2) as Hdel.
  rewrite Hdel. eexists _, _. split; [done|]. split; [|done]. split; cbn; [done | |].
  - intros k s [Hk _]%map_lookup_filter_Some. by apply Hs.
  - rewrite <- Hdel. apply (fun HF => table_delete_rows lendingStateKeyPrefix lending_key_of scoped_key Key
      l.*2 d (lo_states o) HF Ht). by apply Forall_forall.
Qed.

Lemma Start_synced o d fresh :
  lending_synced o d -> lo_states fresh = ∅ -> lo_storage fresh = Some d ->
  exists o', Start network fresh = (o', true) /\ lending_synced o' d /\ lo_states o' = lo_states o.
Proof.
  intros [Hst Hs Ht] Hf Hd. unfold Start, loadPersistedStates. rewrite Hd, Hf.
  assert (foldl (fun m s => <[Key s := s]> m) ∅ (LoadLendingStatesByProtocol network lp_Protocol d) =
    lo_states o) as E.
  { apply foldl_insert_values; [eapply map_Forall_impl; [exact Hs | naive_solver]|].
    apply (fun Hp Hall => load_prefix_kmap lendingStateKeyPrefix _ lending_key_of zeroLending scoped_key
      d (lo_states o) Hp Hall Ht); [apply prefix_app|].
    intros k s Hk. destruct (Hs k s Hk) as [<- [Hn Hp _ _]]. unfold scoped_key, Key. rewrite Hn, Hp.
    assert (forall a b c i, a +:+ b +:+ String ":" (c +:+ String ":" i) =
      (a +:+ b +:+ String ":" (c +:+ ":")) +:+ i) as Happ.
    { intros a b c i. rewrite !append_assoc. do 2 f_equal.
      change (String ":" (c +:+ ":") +:+ i) with (String ":" ((c +:+ ":") +:+ i)).
      by rewrite append_assoc. }
    rewrite (Happ _ _ _ (ls_StateId s)). apply prefix_app. }
  rewrite E. eexists. split; [done|]. split; [|done]. split; cbn; [done.. | exact Ht].
Qed.

(** ** Runs *)

Inductive lending_action :=
| LActEvent (now : gotime) (evt : chain_event)
| LActStop
| LActRestart.

Definition lending_step (profile : LendingProfile) (o : LendingOracle) (a : lending_action) : LendingOracle :=
  match a with
  | LActEvent now evt => (HandleChainsyncEvent network now evt o).1
  | LActStop => Stop o
  | LActRestart => (Start network (NewLendingOracle profile (lo_storage o))).1
  end.
Definition run_lending (profile : LendingProfile) (acts : list lending_action) (o : LendingOracle)
  : LendingOracle := foldl (lending_step profile) o acts.

Definition good_lending_action (a : lending_action) : Prop :=
  match a with LActEvent now evt => good_lending_event now evt | _ => True end.

Lemma lending_step_synced profile a o d :
  good_lending_action a -> lending_synced o d -> exists d', lending_synced (lending_step profile o a) d'.
Proof.
  intros Hg Hs. destruct a as [now evt| |]; cbn [lending_step].
  - unfold HandleChainsyncEvent. destruct (lo_stopped o); [by exists d|].
    destruct evt as [ctx txEvt|slot|]; [by eapply handleTransaction_lending | | by exists d].
    destruct (handleRollback_lending slot o d Hg Hs) as (o' & d' & -> & Hs' & _). by exists d'.
  - exists d. unfold Stop. destruct (lo_stopped o); [done|]. destruct Hs. by split.
  - destruct (Start_synced o d (NewLendingOracle profile (lo_storage o)) Hs eq_refl (ly_storage _ _ Hs))
      as (o' & -> & Hs' & _). by exists d.
Qed.

Lemma run_lending_synced profile acts o d :
  Forall good_lending_action acts -> lending_synced o d ->
  exists d', lending_synced (run_lending profile acts o) d'.
Proof.
  intros Hg. revert o d. induction Hg as [|a acts Ha _ IH]; intros o d Hs; [by exists d|].
  destruct (lending_step_synced profile a o d Ha Hs) as [d1 Hs1]. by apply (IH _ d1).
Qed.

Lemma NewLendingOracle_synced profile d0 :
  (forall k, Get d0 k = None) -> lending_synced (NewLendingOracle profile (Some d0)) d0.
Proof.
  intros Hd. split; cbn; [done | apply map_Forall_empty | rewrite kmap_empty; by apply table_empty].
Qed.


(** ** What a transaction does to the states *)

Definition produced_state (now : gotime) (ctx : TransactionContext) (o : LendingOracle) (u : utxo)
  : option LendingState :=
  if isLendingAddress (out_Address (u_Output u)) o then
    datum ← out_Datum (u_Output u);
    match lp_ParseDatum datum (tc_TransactionHash ctx) (u_Index u) (tc_SlotNumber ctx) now with
    | Ok (Some s) => Some (set_lending_meta network now s)
    | _ => None
    end
  else None.

Lemma handle_output_states now ctx o u :
  lo_addresses (handle_output network now ctx o u) = lo_addresses o /\
  lo_states (handle_output network now ctx o u) =
    match produced_state now ctx o u with
    | Some s => <[Key s := s]> (lo_states o)
    | None => lo_states o
    end.
Proof.
  unfold handle_output, produced_state. destruct (isLendingAddress _ o); cbn [negb]; [|done].
  destruct (out_Datum _) as [datum|]; [|done]. cbn [mbind option_bind].
  destruct (lp_ParseDatum _ _ _ _ _) as [[s|]|]; [|done..].
  unfold handle_state. cbn [lo_storage set_states]. by destruct (lo_storage o).
Qed.

(** A transaction only ever adds to the lending states: each output at a
    watched address that decodes records the state under its scoped key, and no
    input is consulted. The position of an output that is spent, such as a supply
    that is withdrawn or a loan that is repaid, therefore stays among the states. *)
Theorem handleTransaction_only_adds now ctx txEvt (o : LendingOracle) :
  lo_states (handleTransaction network now (Some ctx) txEvt o) =
    foldl (fun m s => <[Key s := s]> m) (lo_states o)
      (omap (produced_state now ctx o) (producedUTXOs txEvt (tc_TransactionHash ctx))) /\
  forall k s, lo_states o !! k = Some s ->
    exists s', lo_states (handleTransaction network now (Some ctx) txEvt o) !! k = Some s'.
Proof.
  cbn [handleTransaction]. generalize (producedUTXOs txEvt (tc_TransactionHash ctx)) as us.
  assert (forall us o0, lo_addresses o0 = lo_addresses o ->
    lo_states (foldl (handle_output network now ctx) o0 us) =
    foldl (fun m s => <[Key s := s]> m) (lo_states o0) (omap (produced_state now ctx o) us)) as Hfold.
  { intros us. induction us as [|u us IH]; intros o0 Ho; [done|]. cbn [foldl omap list_omap].
    destruct (handle_output_states now ctx o0 u) as [Ha Hst].
    rewrite IH, Hst by congruence.
    assert (produced_state now ctx o0 u = produced_state now ctx o u) as ->
      by (unfold produced_state, isLendingAddress; by rewrite Ho).
    by destruct (produced_state now ctx o u). }
  intros us. split; [by apply Hfold|]. intros k s Hk. rewrite Hfold by done.
  assert (is_Some (lo_states o !! k)) as Hsome by done. clear Hk Hfold. revert Hsome.
  generalize (lo_states o) as m. generalize (omap (produced_state now ctx o) us) as l.
  intros l. induction l as [|s' l IH]; intros m Hm; [exact Hm|]. cbn [foldl]. apply IH.
  rewrite lookup_insert. by case_decide.
Qed.
End Sync.

(** ** A concrete run *)

#[local] Existing Instance lending_json.
#[local] Instance zeroLending_target : Target zeroLending.
Proof. by repeat split. Qed.
#[local] Existing Instance in_key_order.

Definition lending_tx (slot : Z) (txHash : string) (datum : @raw PlutusData)
  : @chain_event PlutusData sample_ledger :=
  EvTransaction (Some (mkContext slot txHash))
    (mkTransactionEvent _ _ "b" [] [mkOutput _ _ "market" (Some datum) (mkTransactionOutput 0 None, ∅)] None).

Definition lending_profile : LendingProfile := LendingProfileConfig ["market"] [].

(** A market, an update of it, a restart, and a position. *)
Definition lending_acts : list lending_action :=
  [LActEvent 1 (lending_tx 5 "aa" (Liqwid.encode_market lending_nft ada ada 1000 400 100 350 7500));
   LActEvent 1 (lending_tx 6 "ab" (Liqwid.encode_market lending_nft ada ada 1000 500 100 350 7500));
   LActRestart;
   LActEvent 1 (lending_tx 8 "ac" (Liqwid.encode_supply (false, [x01]) lending_nft 7 5))].

Definition sample_lending : LendingOracle :=
  run_lending (H:=gmap_KV) "mainnet" lending_profile lending_acts (NewLendingOracle lending_profile (Some ∅)).

Lemma lending_acts_good :
  Forall (good_lending_action (P:=LiqwidLendingAdapter) (C:=PlutusData) (L:=sample_ledger) "mainnet") lending_acts.
Proof.
  unfold lending_acts. rewrite !Forall_cons, Forall_nil. split_and!; try exact I;
    (apply Forall_singleton; intros datum s [= <-] Hs; vm_compute in Hs; injection Hs as <-; cbv zeta;
     split; [repeat split; try (by apply Utf8_ascii); try (by vm_compute) |
             eexists; vm_compute; reflexivity]).
Qed.

