(* ===== verification/TxRelay.v ===== *)
(** * TxRelay: the mempool of the node and the relay of its own transactions
    ([internal/node/txsubmission.go], [internal/node/localtxsubmission.go]).

    Transactions of other nodes enter a mempool whose handlers see each of them
    once; transactions of the program are queued on a channel for each outbound
    connection, announced to the peer by identifier and kept in a cache until the
    peer acknowledges them. The parsers of the ledger library are parameters. *)
From S2P Require Import Prelude.
From S2P Require Import Text.

(** A connection is known by its identifier. *)
Abbreviation conn := Z (only parsing).

(** ** The mempool *)

(** One hour *)
Definition txsubmissionMempoolExpiration : duration := 3600 * 1000000000.

Record mempoolTx := mkMempoolTx {
  mt_Hash : string;
  mt_Type : Z;
  mt_Cbor : list byte;
  mt_LastSeen : gotime;
}.

(** A registered handler is a number; what it does is outside. *)
Record mempool := mkMempool {
  mp_Transactions : gmap string mempoolTx;
  mp_handlers : list Z;
}.

Definition AddNewTransactionFunc (handler : Z) (t : mempool) : mempool :=
  mkMempool (mp_Transactions t) (mp_handlers t ++ [handler]).

Definition removeExpired (now : gotime) (t : mempool) : mempool :=
  let expiredBefore := Add now (- txsubmissionMempoolExpiration) in
  mkMempool (filter (fun kv => Before (mt_LastSeen kv.2) expiredBefore = false) (mp_Transactions t))
    (mp_handlers t).

Definition removeTransaction (hash : string) (t : mempool) : mempool :=
  mkMempool (delete hash (mp_Transactions t)) (mp_handlers t).

Section Mempool.
(** Whether a handler returns without an error. *)
Context (run : Z -> mempoolTx -> bool).

(** The loop over the handlers: an error ends it. The first component lists the
    handlers that were called. *)
Fixpoint call_handlers (tx : mempoolTx) (handlers : list Z) : list Z * bool :=
  match handlers with
  | [] => ([], true)
  | h :: handlers' =>
      if run h tx then let '(called, ok) := call_handlers tx handlers' in (h :: called, ok)
      else ([h], false)
  end.

Definition addTransaction (now : gotime) (tx : mempoolTx) (t : mempool) : mempool * list Z * bool :=
  match mp_Transactions t !! mt_Hash tx with
  | Some old =>
      (mkMempool (<[mt_Hash tx := mkMempoolTx (mt_Hash old) (mt_Type old) (mt_Cbor old) now]>
                    (mp_Transactions t)) (mp_handlers t), [], true)
  | None =>
      let t := mkMempool (<[mt_Hash tx := tx]> (mp_Transactions t)) (mp_handlers t) in
      let '(called, ok) := call_handlers tx (mp_handlers t) in
      (t, called, ok)
  end.

(** The ledger library: the hash of a transaction of an era, if it parses. *)
Context (NewTransactionFromCbor : Z -> list byte -> option string).

(** [localTxsubmissionServerSubmitTx]: errors are only logged. *)
Definition localTxsubmissionServerSubmitTx (now : gotime) (txEraId : Z) (txBytes : list byte) (t : mempool)
  : mempool * list Z :=
  match NewTransactionFromCbor txEraId txBytes with
  | None => (t, [])
  | Some hash =>
      let '(t, called, _) := addTransaction now (mkMempoolTx hash txEraId txBytes now) t in (t, called)
  end.

(** The bodies that one round of [txsubmissionServerInit] has received: the loop
    ends at the first that does not parse or whose handlers fail. *)
Fixpoint receive_txs (now : gotime) (txs : list (Z * list byte)) (t : mempool) : mempool * list Z * bool :=
  match txs with
  | [] => (t, [], true)
  | (era, body) :: txs' =>
      match NewTransactionFromCbor era body with
      | None => (t, [], false)
      | Some hash =>
          match addTransaction now (mkMempoolTx hash era body now) t with
          | (t, called, false) => (t, called, false)
          | (t, called, true) =>
              let '(t, called', ok) := receive_txs now txs' t in (t, called ++ called', ok)
          end
      end
  end.
End Mempool.

(** ** The relay *)

Definition maxOutboundTransactions : nat := 20.

Record ntnTransaction := mkNtn {
  nt_Hash : string;
  nt_Type : Z;
  nt_Cbor : list byte;
}.

Record relay := mkRelay {
  rl_chans : gmap conn (list ntnTransaction);
  rl_cache : gmap conn (gmap string ntnTransaction);
}.

(** [txChan <- tx] on every channel; [None] when one of them is full, so that the
    sender waits, with the lock, until its peer asks for transactions. *)
Definition broadcast (tx : ntnTransaction) (chans : gmap conn (list ntnTransaction))
  : option (gmap conn (list ntnTransaction)) :=
  if forallb (fun kv => (length kv.2 <? maxOutboundTransactions)%nat) (map_to_list chans)
  then Some ((fun ch => ch ++ [tx]) <$> chans) else None.

Inductive relay_error :=
| ErrTxType
| ErrTxCbor
| ErrTxHash
| PanicTxId.

(** A reference to a transaction on the wire: era, identifier and size. *)
Record TxIdAndSize := mkTxIdAndSize {
  ti_EraId : Z;
  ti_TxId : list byte;
  ti_Size : Z;
}.

Section Relay.
Context (DetermineTransactionType : list byte -> option Z)
        (NewTransactionFromCbor : Z -> list byte -> option string).

Definition AddOutboundTransaction (txBytes : list byte) (r : relay) : option (relay * result relay_error unit) :=
  match DetermineTransactionType txBytes with
  | None => Some (r, Err ErrTxType)
  | Some txType =>
      match NewTransactionFromCbor txType txBytes with
      | None => Some (r, Err ErrTxCbor)
      | Some hash =>
          chans ← broadcast (mkNtn hash txType txBytes) (rl_chans r);
          Some (mkRelay chans (rl_cache r), Ok tt)
      end
  end.

(** The loop over the collected transactions. *)
Fixpoint announce (c : conn) (txs : list ntnTransaction) (r : relay)
  : relay * result relay_error (list TxIdAndSize) :=
  match txs with
  | [] => (r, Ok [])
  | tx :: txs' =>
      match hex_decode (nt_Hash tx) with
      | None => (r, Err ErrTxHash)
      | Some id =>
          if (length id <? 32)%nat then (r, Err PanicTxId)
          else
            let cache :=
              match rl_cache r !! c with
              | Some cached => <[c := <[nt_Hash tx := tx]> cached]> (rl_cache r)
              | None => rl_cache r
              end in
            let '(r, ids) := announce c txs' (mkRelay (rl_chans r) cache) in
            (r, match ids with
                | Err e => Err e
                | Ok ids =>
                    Ok (mkTxIdAndSize (nt_Type tx mod 2 ^ 16) (take 32 id)
                          (Z.of_nat (length (nt_Cbor tx)) mod 2 ^ 32) :: ids)
                end)
      end
  end.

(** [txsubmissionClientRequestTxIds]; [None] while it waits for a transaction. The
    number of identifiers that the peer asks for is not consulted. *)
Definition txsubmissionClientRequestTxIds (c : conn) (blocking : bool) (ack req : Z) (r : relay)
  : relay * option (result relay_error (list TxIdAndSize)) :=
  let r := if 0 <? ack then mkRelay (rl_chans r) (<[c := ∅]> (rl_cache r)) else r in
  match rl_chans r !! c with
  | None => (r, Some (Ok []))
  | Some txs =>
      if blocking && Nat.eqb (length txs) 0 then (r, None)
      else
        let '(r, ids) := announce c txs (mkRelay (<[c := []]> (rl_chans r)) (rl_cache r)) in
        (r, Some ids)
  end.

Definition txsubmissionClientRequestTxs (c : conn) (txIds : list (list byte)) (r : relay)
  : list (Z * list byte) :=
  omap (fun id =>
    match rl_cache r !! c ≫= fun cached => cached !! hex_encode id with
    | Some tx => Some (nt_Type tx mod 2 ^ 16, nt_Cbor tx)
    | None => None
    end) txIds.
End Relay.

(** ** The mempool sees a transaction once *)

Lemma call_handlers_ok run tx handlers :
  Forall (fun h => run h tx = true) handlers -> call_handlers run tx handlers = (handlers, true).
Proof. induction 1 as [|h l Hh _ IH]; [done|]. cbn. by rewrite Hh, IH. Qed.

(** What is left after an hour's silence has been swept. *)
Lemma removeExpired_spec now t hash tx :
  mp_Transactions (removeExpired now t) !! hash = Some tx <->
  mp_Transactions t !! hash = Some tx /\ now <= mt_LastSeen tx + txsubmissionMempoolExpiration.
Proof.
  cbn. rewrite map_lookup_filter_Some. cbn. unfold Before, Add. rewrite Z.ltb_ge.
  apply and_iff_compat_l. lia.
Qed.

(** ** Announcing and fetching *)

(** A queued transaction as [AddOutboundTransaction] builds it: its hash is the
    text of 32 bytes. *)
Definition hash_of (id : list byte) (tx : ntnTransaction) : Prop :=
  nt_Hash tx = hex_encode id /\ length id = 32%nat.

Lemma announce_ids c txs ids r cached :
  rl_cache r !! c = Some cached -> Forall2 hash_of ids txs ->
  exists r', announce c txs r = (r', Ok (zip_with (fun id tx =>
      mkTxIdAndSize (nt_Type tx mod 2 ^ 16) id (Z.of_nat (length (nt_Cbor tx)) mod 2 ^ 32)) ids txs)) /\
    rl_chans r' = rl_chans r /\
    rl_cache r' = <[c := foldl (fun m tx => <[nt_Hash tx := tx]> m) cached txs]> (rl_cache r).
Proof.
  intros Hc Hall. revert r cached Hc. induction Hall as [|id tx ids txs [Hh Hl] _ IH]; intros r cached Hc.
  { exists r. split_and!; [done..|]. cbn. by rewrite insert_id. }
  cbn [announce]. rewrite Hh, hex_decode_encode. rewrite (proj2 (Nat.ltb_ge _ _)) by lia.
  rewrite Hc, <- Hh.
  destruct (IH (mkRelay (rl_chans r) (<[c := <[nt_Hash tx := tx]> cached]> (rl_cache r)))
    (<[nt_Hash tx := tx]> cached)) as (r' & -> & Hch & Hca); [cbn; by rewrite lookup_insert_eq|].
  exists r'. split_and!; [|done|].
  - cbn [zip_with]. by rewrite take_ge by lia.
  - rewrite Hca. cbn [rl_cache foldl]. by rewrite insert_insert_eq.
Qed.

Lemma foldl_cache_lookup (l : list ntnTransaction) (m : gmap string ntnTransaction) tx :
  NoDup (nt_Hash <$> l) -> tx ∈ l -> foldl (fun m tx => <[nt_Hash tx := tx]> m) m l !! nt_Hash tx = Some tx.
Proof.
  assert (forall (l : list ntnTransaction) (m : gmap string ntnTransaction) k, k ∉ nt_Hash <$> l ->
    foldl (fun m tx => <[nt_Hash tx := tx]> m) m l !! k = m !! k) as Hother.
  { intros l'. induction l' as [|x l' IH]; intros m' k Hk; [done|]. cbn in *.
    apply not_elem_of_cons in Hk as [Hk Hk']. rewrite IH by done. by rewrite lookup_insert_ne. }
  revert m. induction l as [|x l IH]; intros m Hnd Hin; [by apply elem_of_nil in Hin|].
  cbn in *. apply NoDup_cons in Hnd as [Hx Hnd]. apply elem_of_cons in Hin as [->|Hin]; [|by apply IH].
  rewrite Hother by done. by rewrite lookup_insert_eq.
Qed.

(** C26: what is announced can be fetched. When a peer asks for identifiers, it
    gets those of exactly the transactions queued for it, in order, and the queue
    is empty afterwards; asking for the bodies of these identifiers then returns
    exactly the bodies, in the same order. *)
Theorem announced_transactions_are_served c blocking ack req r txs ids :
  rl_chans r !! c = Some txs -> (0 < ack \/ is_Some (rl_cache r !! c)) -> txs <> [] ->
  NoDup (nt_Hash <$> txs) -> Forall2 hash_of ids txs ->
  exists r' answer, txsubmissionClientRequestTxIds c blocking ack req r = (r', Some (Ok answer)) /\
    ti_TxId <$> answer = ids /\ rl_chans r' !! c = Some [] /\
    txsubmissionClientRequestTxs c (ti_TxId <$> answer) r' =
      (fun tx => (nt_Type tx mod 2 ^ 16, nt_Cbor tx)) <$> txs.
Proof.
  intros Hch Hca Hne Hnd Hids. unfold txsubmissionClientRequestTxIds.
  set (r0 := if 0 <? ack then _ else r).
  assert (rl_chans r0 !! c = Some txs) as Hch0 by (unfold r0; by destruct (0 <? ack)).
  assert (exists cached, rl_cache r0 !! c = Some cached) as [cached Hca0].
  { unfold r0. destruct (Z.ltb_spec 0 ack); [exists ∅; cbn; by rewrite lookup_insert_eq|].
    destruct Hca as [|[cached Hc]]; [lia|]. by exists cached. }
  rewrite Hch0. assert (blocking && Nat.eqb (length txs) 0 = false) as ->
    by (destruct txs; [done | by destruct blocking]).
  destruct (announce_ids c txs ids (mkRelay (<[c := []]> (rl_chans r0)) (rl_cache r0)) cached Hca0 Hids)
    as (r' & -> & Hch' & Hca').
  assert (forall (f : list byte -> ntnTransaction -> TxIdAndSize), (forall i t, ti_TxId (f i t) = i) ->
    ti_TxId <$> zip_with f ids txs = ids) as Hti.
  { intros f Hf. clear -Hids Hf. induction Hids as [|i t ids txs _ _ IH]; [done|]. cbn. by rewrite Hf, IH. }
  eexists _, _. split; [done|]. rewrite Hti by done. split_and!; [done | |].
  - rewrite Hch'. cbn. by rewrite lookup_insert_eq.
  - unfold txsubmissionClientRequestTxs. rewrite Hca'. cbn [rl_cache]. rewrite lookup_insert_eq.
    cbn [mbind option_bind]. set (m := foldl _ _ _).
    assert (forall tx, tx ∈ txs -> m !! nt_Hash tx = Some tx) as Hm
      by (intros; by apply foldl_cache_lookup).
    clearbody m. clear -Hids Hm. induction Hids as [|i t ids txs [Hh _] _ IH]; [done|].
    cbn [omap list_omap fmap list_fmap]. rewrite <- Hh, (Hm t) by left. f_equal. apply IH.
    intros. apply Hm. by right.
Qed.

(** ** Concrete inputs *)

Definition sample_tx (b : byte) : ntnTransaction := mkNtn (hex_encode (replicate 32 b)) 6 [b; b].
Definition sample_relay : relay := mkRelay {[ 1 := [sample_tx x01; sample_tx x02] ]} {[ 1 := ∅ ]}.

Lemma announced_transactions_are_served_witness :
  exists r' answer, txsubmissionClientRequestTxIds 1 true 0 10 sample_relay = (r', Some (Ok answer)) /\
    txsubmissionClientRequestTxs 1 (ti_TxId <$> answer) r' = [(6, [x01; x01]); (6, [x02; x02])].
Proof.
  destruct (announced_transactions_are_served 1 true 0 10 sample_relay
    [sample_tx x01; sample_tx x02] [replicate 32 x01; replicate 32 x02])
    as (r' & answer & E & _ & _ & Hs);
    [done | right; by eexists | done | | by repeat constructor |].
  - apply NoDup_cons. split; [|apply NoDup_singleton]. intros H%list_elem_of_singleton. by vm_compute in H.
  - exists r', answer. split; [exact E|]. by rewrite Hs.
Defined.

(** Acknowledging one of several announced transactions makes the others
    unavailable, and the limit of a request is not respected. Two transactions are
    queued; a peer that asks for one identifier gets both; when it acknowledges
    the first one, asking for the body of the second returns nothing. *)
Theorem partial_acknowledgement_loses_transactions :
  let '(r1, ids) := txsubmissionClientRequestTxIds 1 true 0 1 sample_relay in
  let '(r2, _) := txsubmissionClientRequestTxIds 1 false 1 1 r1 in
  (match ids with Some (Ok ids) => length ids | _ => 0%nat end) = 2%nat /\
  txsubmissionClientRequestTxs 1 [replicate 32 x02] r1 = [(6, [x02; x02])] /\
  txsubmissionClientRequestTxs 1 [replicate 32 x02] r2 = [].
Proof. vm_compute. done. Qed.
