(* ===== verification/ChainSync.v ===== *)
(** * ChainSync: serving the chain to peers ([internal/node/chainsync.go]) and the
    bookkeeping of connections ([internal/node/node.go]).

    The node keeps the last blocks of the chain and copies every block and
    rollback into a buffered channel for each subscribed peer. The callbacks of the
    chain-sync protocol are functions on the state of the node that return the
    messages they send; [None] stands for a callback that waits for room in a
    channel. A reply that is sent later, by the goroutine that [RequestNext] starts,
    is a step of its own ([deliver]). *)
From S2P Require Import Prelude.
From S2P Require Import Text.
From S2P Require Import TxRelay.

Definition maxRecentBlocks : nat := 20.
Definition clientBlockBufferSize : nat := 50.

Record chainsyncTip := mkTip {
  SlotNumber : Z;
  BlockHash : string;
  BlockNumber : Z;
}.

(** [ocommon.Point], and the tip of the protocol: a point and a block number *)
Record Point := mkPoint {
  Slot : Z;
  Hash : list byte;
}.
Definition Tip : Type := Z * Point.

(** [hex.DecodeString] without its error: what was decoded before it. *)
Fixpoint hex_decoded (s : string) : list byte :=
  match s with
  | String c (String d s') =>
      match hex_value c, hex_value d with
      | Some h, Some l =>
          match Byte.of_N (16 * h + l) with Some b => b :: hex_decoded s' | None => [] end
      | _, _ => []
      end
  | _ => []
  end.

Definition ToTip (c : chainsyncTip) : Tip :=
  (BlockNumber c, mkPoint (SlotNumber c) (hex_decoded (BlockHash c))).

Record chainsyncBlock := mkBlock {
  bk_Tip : chainsyncTip;
  bk_Cbor : list byte;
  bk_Type : Z;
  bk_Rollback : bool;
}.
Definition slot_of (b : chainsyncBlock) : Z := SlotNumber (bk_Tip b).

(** ** The client side: recent blocks and subscribers *)

Record chainsyncClientState := mkClient {
  cl_tip : chainsyncTip;
  cl_recentBlocks : list chainsyncBlock;
  cl_subs : gmap conn (list chainsyncBlock);
}.

(** [ch <- block] *)
Definition send (ch : option (list chainsyncBlock)) (b : chainsyncBlock) : option (list chainsyncBlock) :=
  ch ← ch;
  if (length ch <? clientBlockBufferSize)%nat then Some (ch ++ [b]) else None.

(** The loop over the subscribers, which holds the lock. *)
Definition publish (b : chainsyncBlock) (subs : gmap conn (list chainsyncBlock))
  : option (gmap conn (list chainsyncBlock)) :=
  if forallb (fun kv => (length kv.2 <? clientBlockBufferSize)%nat) (map_to_list subs)
  then Some ((fun ch => ch ++ [b]) <$> subs) else None.

Definition Sub (key : conn) (c : chainsyncClientState) : option chainsyncClientState :=
  ch ← foldl send (Some []) (cl_recentBlocks c);
  Some (mkClient (cl_tip c) (cl_recentBlocks c) (<[key := ch]> (cl_subs c))).

Definition Unsub (key : conn) (c : chainsyncClientState) : chainsyncClientState :=
  mkClient (cl_tip c) (cl_recentBlocks c) (delete key (cl_subs c)).

Definition prune_recent (l : list chainsyncBlock) : list chainsyncBlock :=
  if (maxRecentBlocks <? length l)%nat then drop (length l - maxRecentBlocks) l else l.

Definition AddBlock (block : chainsyncBlock) (c : chainsyncClientState) : option chainsyncClientState :=
  let recent := prune_recent (cl_recentBlocks c ++ [block]) in
  subs ← publish block (cl_subs c);
  Some (mkClient (cl_tip c) recent subs).

(** The loop that removes the blocks after a slot: it cuts at the first one. *)
Fixpoint cut_after (slot : Z) (l : list chainsyncBlock) : list chainsyncBlock :=
  match l with
  | [] => []
  | b :: l' => if slot <? slot_of b then [] else b :: cut_after slot l'
  end.

Definition rollback_block (slot : Z) (hash : string) : chainsyncBlock :=
  mkBlock (mkTip slot hash 0) [] 0 true.

Definition Rollback (slot : Z) (hash : string) (c : chainsyncClientState) : option chainsyncClientState :=
  let recent := cut_after slot (cl_recentBlocks c) in
  subs ← publish (rollback_block slot hash) (cl_subs c);
  Some (mkClient (cl_tip c) recent subs).

(** ** The node *)

Record chainsyncServerState := mkServer {
  sv_cursor : chainsyncTip;
  sv_needsInitialRollback : bool;
  (** the goroutines that wait for the next block of the channel *)
  sv_waiting : nat;
}.

Record outboundPeer := mkPeer {
  op_Address : string;
  op_ReconnectCount : Z;
  op_ReconnectDelay : duration;
}.

Record Node := mkNode {
  nd_client : chainsyncClientState;
  nd_servers : gmap conn chainsyncServerState;
  nd_mempool : mempool;
  nd_outbound : gmap conn outboundPeer;
  nd_relay : relay;
}.

Definition set_client (c : chainsyncClientState) (n : Node) : Node :=
  mkNode c (nd_servers n) (nd_mempool n) (nd_outbound n) (nd_relay n).
Definition set_servers (s : gmap conn chainsyncServerState) (n : Node) : Node :=
  mkNode (nd_client n) s (nd_mempool n) (nd_outbound n) (nd_relay n).

Definition New : Node :=
  mkNode (mkClient (mkTip 0 "" 0) [] ∅) ∅ (mkMempool ∅ []) ∅ (mkRelay ∅ ∅).

Inductive node_event :=
| RollbackEvent (slot : Z) (hash : string)
| BlockEvent (slot blockNumber : Z) (hash : string) (cbor : list byte)
| TransactionEvent (hash : string)
| OtherEvent.

(** Messages to a peer *)
Inductive message :=
| RollBackward (point : Point) (tip : Tip)
| RollForward (blockType : Z) (block : list byte) (tip : Tip)
| AwaitReply.

Section Node.
(** [ledger.DetermineBlockType] *)
Context (DetermineBlockType : list byte -> option Z).

(** The tip moves before the type of the block is known. *)
Definition chainsyncClientHandleEvent (evt : node_event) (n : Node) : option (Node * bool) :=
  match evt with
  | RollbackEvent slot hash =>
      c ← Rollback slot hash (nd_client n);
      Some (set_client c n, true)
  | BlockEvent slot blockNumber hash cbor =>
      let tip := mkTip slot hash blockNumber in
      let c := mkClient tip (cl_recentBlocks (nd_client n)) (cl_subs (nd_client n)) in
      match DetermineBlockType cbor with
      | None => Some (set_client c n, false)
      | Some blockType =>
          c ← AddBlock (mkBlock tip cbor blockType false) c;
          Some (set_client c n, true)
      end
  | TransactionEvent hash =>
      Some (mkNode (nd_client n) (nd_servers n) (removeTransaction hash (nd_mempool n)) (nd_outbound n)
              (nd_relay n), true)
  | OtherEvent => Some (n, true)
  end.
End Node.

(** ** The server side *)

Definition chainsyncServerStateInit (c : conn) (cursor : chainsyncTip) (n : Node) : option Node :=
  match nd_servers n !! c with
  | Some _ => Some n
  | None =>
      cl ← Sub c (nd_client n);
      Some (set_servers (<[c := mkServer cursor true 0]> (nd_servers n)) (set_client cl n))
  end.

Definition point_matches (blockPoint : Point) (p : Point) : bool :=
  (Slot p =? Slot blockPoint) && bool_decide (Hash p = Hash blockPoint).

(** The two loops: the last recent block that is one of the points. *)
Fixpoint find_intersect (points : list Point) (blocks : list chainsyncBlock) (found : chainsyncTip)
  : chainsyncTip :=
  match blocks with
  | [] => found
  | b :: blocks' =>
      find_intersect points blocks'
        (if existsb (point_matches (ToTip (bk_Tip b)).2) points then bk_Tip b else found)
  end.

Definition chainsyncServerFindIntersect (c : conn) (points : list Point) (n : Node)
  : option (Node * result unit Point * Tip) :=
  let intersectTip := find_intersect points (cl_recentBlocks (nd_client n)) (mkTip 0 "" 0) in
  let retTip := ToTip (cl_tip (nd_client n)) in
  if SlotNumber intersectTip =? 0 then Some (n, Err tt, retTip)
  else
    n ← chainsyncServerStateInit c intersectTip n;
    Some (n, Ok (ToTip intersectTip).2, retTip).

Definition chainsyncServerSendNext (block : chainsyncBlock) (n : Node) : message :=
  let tip := ToTip (cl_tip (nd_client n)) in
  if bk_Rollback block then RollBackward (ToTip (bk_Tip block)).2 tip
  else RollForward (bk_Type block) (bk_Cbor block) tip.

(** The loop of [RequestNext] over the channel: blocks up to the cursor are
    ignored. *)
Fixpoint next_block (cursor : Z) (ch : list chainsyncBlock) : option (chainsyncBlock * list chainsyncBlock) :=
  match ch with
  | [] => None
  | b :: ch' => if slot_of b <=? cursor then next_block cursor ch' else Some (b, ch')
  end.

Definition set_chan (c : conn) (ch : list chainsyncBlock) (n : Node) : Node :=
  let cl := nd_client n in
  set_client (mkClient (cl_tip cl) (cl_recentBlocks cl) (<[c := ch]> (cl_subs cl))) n.
Definition set_server (c : conn) (sv : chainsyncServerState) (n : Node) : Node :=
  set_servers (<[c := sv]> (nd_servers n)) n.

(** The body of [RequestNext] once the state of the connection exists; a closed
    channel ends it without a message. *)
Definition request_next (c : conn) (sv : chainsyncServerState) (n : Node) : Node * list message :=
  if sv_needsInitialRollback sv then
    (set_server c (mkServer (sv_cursor sv) false (sv_waiting sv)) n,
     [RollBackward (ToTip (sv_cursor sv)).2 (ToTip (cl_tip (nd_client n)))])
  else
    match cl_subs (nd_client n) !! c with
    | None => (n, [])
    | Some ch =>
        match next_block (SlotNumber (sv_cursor sv)) ch with
        | Some (block, ch') =>
            let n := set_chan c ch' n in (n, [chainsyncServerSendNext block n])
        | None =>
            (set_server c (mkServer (sv_cursor sv) false (S (sv_waiting sv))) (set_chan c [] n),
             [AwaitReply])
        end
    end.

Definition chainsyncServerRequestNext (c : conn) (n : Node) : option (Node * list message) :=
  n ← chainsyncServerStateInit c (cl_tip (nd_client n)) n;
  sv ← nd_servers n !! c;
  Some (request_next c sv n).

(** A waiting goroutine takes the next block, whatever its slot. *)
Definition deliver (c : conn) (n : Node) : Node * list message :=
  match nd_servers n !! c, cl_subs (nd_client n) !! c with
  | Some sv, Some (block :: ch') =>
      match sv_waiting sv with
      | O => (n, [])
      | S w =>
          let n := set_server c (mkServer (sv_cursor sv) (sv_needsInitialRollback sv) w) (set_chan c ch' n) in
          (n, [chainsyncServerSendNext block n])
      end
  | _, _ => (n, [])
  end.

(** The blocks that [blockfetchServerRequestRange] sends. *)
Fixpoint block_range (first last : Z) (l : list chainsyncBlock) : list (Z * list byte) :=
  match l with
  | [] => []
  | b :: l' =>
      if slot_of b <? first then block_range first last l'
      else if last <? slot_of b then []
      else (bk_Type b, bk_Cbor b) :: block_range first last l'
  end.
Definition blockfetchServerRequestRange (start finish : Point) (n : Node) : list (Z * list byte) :=
  block_range (Slot start) (Slot finish) (cl_recentBlocks (nd_client n)).

(** ** Connections ([node.go]) *)

Definition initialReconnectDelay : duration := 1000000000.
Definition maxReconnectDelay : duration := 128 * 1000000000.

(** The delay before the next attempt of [reconnectOutboundConnection] *)
Definition next_delay (peer : outboundPeer) : outboundPeer :=
  let d := op_ReconnectDelay peer in
  mkPeer (op_Address peer) (op_ReconnectCount peer)
    (if d =? 0 then initialReconnectDelay else if d <? maxReconnectDelay then d * 2 else d).

(** What [createOutboundConnection] records of an established connection. *)
Definition register_outbound (c : conn) (peer : outboundPeer) (n : Node) : Node :=
  mkNode (nd_client n) (nd_servers n) (nd_mempool n) (<[c := peer]> (nd_outbound n))
    (mkRelay (<[c := []]> (rl_chans (nd_relay n))) (<[c := ∅]> (rl_cache (nd_relay n)))).

(** [connectionManagerConnClosed]: the peer to reconnect to, if any; [Err] is the
    panic of closing a channel that is not there. *)
Definition connectionManagerConnClosed (c : conn) (n : Node) : result unit (Node * option outboundPeer) :=
  let n :=
    match nd_servers n !! c with
    | Some _ => set_servers (delete c (nd_servers n)) (set_client (Unsub c (nd_client n)) n)
    | None => n
    end in
  match nd_outbound n !! c with
  | None => Ok (n, None)
  | Some peer =>
      match rl_chans (nd_relay n) !! c with
      | None => Err tt
      | Some _ =>
          Ok (mkNode (nd_client n) (nd_servers n) (nd_mempool n) (nd_outbound n)
                (mkRelay (delete c (rl_chans (nd_relay n))) (delete c (rl_cache (nd_relay n)))), Some peer)
      end
  end.

(** ** The recent blocks *)

Definition slots_sorted (l : list chainsyncBlock) : Prop := StronglySorted (fun a b => slot_of a < slot_of b) l.

Lemma slots_sorted_app l1 l2 :
  slots_sorted (l1 ++ l2) ->
  slots_sorted l1 /\ slots_sorted l2 /\ forall a b, a ∈ l1 -> b ∈ l2 -> slot_of a < slot_of b.
Proof.
  induction l1 as [|x l1 IH]; cbn; intros Hs.
  { split_and!; [constructor | done | intros a b Ha; by apply elem_of_nil in Ha]. }
  apply StronglySorted_inv in Hs as [Hs Hx]. destruct (IH Hs) as (H1 & H2 & H3).
  apply Forall_app in Hx as [Hx1 Hx2]. rewrite Forall_forall in Hx2. split_and!; [by constructor | done |].
  intros a b [->|Ha]%elem_of_cons Hb; [by apply Hx2 | by apply H3].
Qed.

Lemma slots_sorted_snoc l b :
  slots_sorted l -> Forall (fun a => slot_of a < slot_of b) l -> slots_sorted (l ++ [b]).
Proof.
  induction 1 as [|x l Hl IH Hx]; intros Hb; cbn; [repeat constructor|].
  apply Forall_cons in Hb as [Hxb Hb]. constructor; [by apply IH|].
  apply Forall_app. split; [done | by apply Forall_singleton].
Qed.

Lemma prune_recent_drop l : exists k, prune_recent l = drop k l.
Proof. unfold prune_recent. case_match; [by eexists | by exists 0%nat]. Qed.

Lemma length_prune_recent l : (length (prune_recent l) <= maxRecentBlocks)%nat.
Proof.
  unfold prune_recent. destruct (Nat.ltb_spec maxRecentBlocks (length l)); [|lia].
  rewrite length_drop. lia.
Qed.

(** On sorted blocks the cut is a filter. *)
Lemma cut_after_filter slot l : slots_sorted l -> cut_after slot l = filter (fun b => slot_of b <= slot) l.
Proof.
  induction 1 as [|b l Hl IH Hb]; [done|]. cbn [cut_after]. rewrite filter_cons.
  destruct (Z.ltb_spec slot (slot_of b)).
  - rewrite decide_False by lia. symmetry. apply filter_none. rewrite Forall_forall in *.
    intros x Hx. specialize (Hb x Hx). lia.
  - rewrite decide_True by lia. by rewrite IH.
Qed.

Lemma block_range_filter first last l :
  slots_sorted l ->
  block_range first last l =
    (fun b => (bk_Type b, bk_Cbor b)) <$> filter (fun b => first <= slot_of b <= last) l.
Proof.
  induction 1 as [|b l Hl IH Hb]; [done|]. cbn [block_range]. rewrite filter_cons.
  destruct (Z.ltb_spec (slot_of b) first); [rewrite decide_False by lia; done|].
  destruct (Z.ltb_spec last (slot_of b)).
  - rewrite decide_False by lia. rewrite filter_none; [done|]. rewrite Forall_forall in *.
    intros x Hx. specialize (Hb x Hx). lia.
  - rewrite decide_True by lia. cbn. by rewrite IH.
Qed.

(** ** A peer that follows the chain *)

Definition newer (cursor : Z) (l : list chainsyncBlock) : list chainsyncBlock :=
  filter (fun b => cursor < slot_of b) l.
Definition body (b : chainsyncBlock) : Z * list byte := (bk_Type b, bk_Cbor b).

Lemma newer_drop cursor l k :
  slots_sorted l -> (exists b, b ∈ drop k l /\ slot_of b <= cursor) -> newer cursor (drop k l) = newer cursor l.
Proof.
  intros Hs (b & Hb & Hc). unfold newer. rewrite <- (take_drop k l) at 2. rewrite filter_app.
  rewrite (filter_none _ (take k l)); [done|]. apply Forall_forall. intros a Ha.
  rewrite <- (take_drop k l) in Hs. apply slots_sorted_app in Hs as (_ & _ & Hs).
  specialize (Hs a b Ha Hb). lia.
Qed.

Lemma next_block_newer cursor ch :
  match next_block cursor ch with
  | Some (b, ch') => newer cursor ch = b :: newer cursor ch' /\ exists pre, ch = pre ++ b :: ch'
  | None => newer cursor ch = []
  end.
Proof.
  induction ch as [|b ch IH]; [done|]. cbn [next_block]. unfold newer in *. rewrite filter_cons.
  destruct (Z.leb_spec (slot_of b) cursor).
  - rewrite decide_False by lia. destruct (next_block cursor ch) as [[b' ch']|]; [|done].
    destruct IH as (-> & pre & ->). split; [done|]. by exists (b :: pre).
  - rewrite decide_True by lia. split; [done|]. by exists [].
Qed.

Lemma foldl_send l acc : (length acc + length l <= clientBlockBufferSize)%nat ->
  foldl send (Some acc) l = Some (acc ++ l).
Proof.
  revert acc. induction l as [|b l IH]; intros acc Hl; [by rewrite app_nil_r|]. cbn [length] in Hl.
  assert (send (Some acc) b = Some (acc ++ [b])) as Hb.
  { unfold send. cbn [mbind option_bind]. by rewrite (proj2 (Nat.ltb_lt _ _)) by lia. }
  cbn [foldl]. rewrite Hb, IH by (rewrite length_app; cbn [length]; lia). by rewrite <- app_assoc.
Qed.

Lemma publish_lookup b subs subs' c ch :
  publish b subs = Some subs' -> subs !! c = Some ch -> subs' !! c = Some (ch ++ [b]).
Proof. unfold publish. case_match; [|done]. intros [= <-] Hc. by rewrite lookup_fmap, Hc. Qed.

Section Peer.
Context (DetermineBlockType : list byte -> option Z) (c : conn).

(** What happens around one peer: a block arrives, the peer asks for the next
    message, or a reply that it waits for is sent. *)
Inductive peer_op :=
| PeerBlock (slot blockNumber : Z) (hash : string) (cbor : list byte)
| PeerRequest
| PeerDeliver.

Definition forwarded (msgs : list message) : list (Z * list byte) :=
  omap (fun m => match m with RollForward t b _ => Some (t, b) | _ => None end) msgs.

(** The state of the node and the blocks that the peer was sent. *)
Definition peer_step (st : option (Node * list (Z * list byte))) (op : peer_op)
  : option (Node * list (Z * list byte)) :=
  '(n, sent) ← st;
  match op with
  | PeerBlock slot number hash cbor =>
      '(n, _) ← chainsyncClientHandleEvent DetermineBlockType (BlockEvent slot number hash cbor) n;
      Some (n, sent)
  | PeerRequest =>
      '(n, msgs) ← chainsyncServerRequestNext c n;
      Some (n, sent ++ forwarded msgs)
  | PeerDeliver => let '(n, msgs) := deliver c n in Some (n, sent ++ forwarded msgs)
  end.

(** The block of an event, when its type can be determined. *)
Definition op_block (op : peer_op) : option chainsyncBlock :=
  match op with
  | PeerBlock slot number hash cbor =>
      t ← DetermineBlockType cbor; Some (mkBlock (mkTip slot hash number) cbor t false)
  | _ => None
  end.

Record following (chain : list chainsyncBlock) (cursor : Z) (n : Node) (sent : list (Z * list byte)) : Prop := {
  fo_sorted : slots_sorted chain;
  fo_server : exists sv ch, nd_servers n !! c = Some sv /\ cl_subs (nd_client n) !! c = Some ch /\
    SlotNumber (sv_cursor sv) = cursor /\ Forall (fun b => bk_Rollback b = false) ch /\
    (forall b, b ∈ ch -> b ∈ chain) /\
    ((0 < sv_waiting sv)%nat -> Forall (fun b => cursor < slot_of b) ch) /\
    sent ++ (body <$> newer cursor ch) = body <$> newer cursor chain;
  fo_cursor : exists b, b ∈ chain /\ cursor = slot_of b;
}.

Lemma forwarded_send b n : bk_Rollback b = false -> forwarded [chainsyncServerSendNext b n] = [body b].
Proof. intros Hb. unfold chainsyncServerSendNext. by rewrite Hb. Qed.

Lemma following_block chain cursor n sent slot number hash cbor n' ok b :
  following chain cursor n sent -> op_block (PeerBlock slot number hash cbor) = Some b ->
  Forall (fun a => slot_of a < slot_of b) chain ->
  chainsyncClientHandleEvent DetermineBlockType (BlockEvent slot number hash cbor) n = Some (n', ok) ->
  following (chain ++ [b]) cursor n' sent.
Proof.
  intros [Hs (sv & ch & Hsv & Hch & Hcur & Hnr & Hin & Hw & Hsent) (b0 & Hb0 & Hc0)] Hb Hnew E.
  cbn [op_block chainsyncClientHandleEvent] in *. destruct (DetermineBlockType cbor) as [t|]; [|done].
  cbn [mbind option_bind] in *. injection Hb as <-. set (b := mkBlock _ cbor t false) in *.
  unfold AddBlock in E. cbn [cl_subs] in E. destruct (publish b _) as [subs'|] eqn:Ep; [|done].
  cbn in E. injection E as <- <-. pose proof (publish_lookup _ _ _ c ch Ep Hch) as Hch'.
  assert (cursor < slot_of b) as Hcb.
  { rewrite Forall_forall in Hnew. rewrite Hc0. by apply Hnew. }
  split.
  - by apply slots_sorted_snoc.
  - exists sv, (ch ++ [b]). split_and!; try done.
    + apply Forall_app. split; [done | by apply Forall_singleton].
    + intros x [Hx|Hx]%elem_of_app; apply elem_of_app; [left; by apply Hin | by right].
    + intros Hwt. apply Forall_app. split; [by apply Hw | by apply Forall_singleton].
    + unfold newer in *. rewrite !filter_app, !filter_cons, filter_nil, decide_True by done.
      rewrite !fmap_app, app_assoc. by rewrite Hsent.
  - exists b0. split; [|done]. apply elem_of_app. by left.
Qed.

Lemma following_request chain cursor n sent n' msgs :
  following chain cursor n sent -> chainsyncServerRequestNext c n = Some (n', msgs) ->
  following chain cursor n' (sent ++ forwarded msgs).
Proof.
  intros [Hs (sv & ch & Hsv & Hch & Hcur & Hnr & Hin & Hw & Hsent) Hc0] E.
  unfold chainsyncServerRequestNext, chainsyncServerStateInit in E. rewrite Hsv in E.
  cbn [mbind option_bind] in E. rewrite Hsv in E. cbn [mbind option_bind] in E. injection E as E.
  unfold request_next in E. destruct (sv_needsInitialRollback sv).
  - injection E as <- <-. cbn [forwarded omap list_omap]. rewrite app_nil_r. split; [done | | done].
    exists (mkServer (sv_cursor sv) false (sv_waiting sv)), ch. cbn. rewrite lookup_insert_eq. by split_and!.
  - rewrite Hch, Hcur in E. pose proof (next_block_newer cursor ch) as Hn.
    destruct (next_block cursor ch) as [[b ch']|] eqn:En.
    + injection E as <- <-. destruct Hn as (Hn & pre & Hpre). subst ch.
      apply Forall_app in Hnr as [_ Hnr]. apply Forall_cons in Hnr as [Hb Hnr].
      rewrite forwarded_send by done. split; [done | | done].
      exists sv, ch'. cbn. rewrite lookup_insert_eq. split_and!; try done.
      * intros x Hx. apply Hin. apply elem_of_app. right. by right.
      * intros Hwt. specialize (Hw Hwt). apply Forall_app in Hw as [_ Hw]. by apply Forall_cons in Hw as [_ Hw].
      * rewrite <- Hsent, Hn. cbn. by rewrite <- app_assoc.
    + injection E as <- <-. cbn [forwarded omap list_omap]. rewrite app_nil_r. split; [done | | done].
      eexists _, []. cbn. rewrite !lookup_insert_eq. split_and!; try done.
      * intros x Hx. by apply elem_of_nil in Hx.
      * by rewrite <- Hsent, Hn.
Qed.

Lemma following_deliver chain cursor n sent :
  following chain cursor n sent ->
  following chain cursor (deliver c n).1 (sent ++ forwarded (deliver c n).2).
Proof.
  intros HF. pose proof HF as [Hs (sv & ch & Hsv & Hch & Hcur & Hnr & Hin & Hw & Hsent) Hc0].
  unfold deliver. rewrite Hsv, Hch. destruct ch as [|b ch']; [by rewrite app_nil_r|].
  destruct (sv_waiting sv) as [|k] eqn:Ek; [by rewrite app_nil_r|]. cbn [fst snd].
  apply Forall_cons in Hnr as [Hb Hnr]. rewrite forwarded_send by done.
  specialize (Hw ltac:(lia)). apply Forall_cons in Hw as [Hbc Hw].
  split; [done | | done]. eexists _, ch'. cbn. rewrite !lookup_insert_eq. split_and!; try done.
  - intros x Hx. apply Hin. by right.
  - rewrite <- Hsent. unfold newer. rewrite filter_cons, decide_True by done. cbn. by rewrite <- app_assoc.
Qed.

Lemma following_run ops chain cursor n sent n' sent' :
  following chain cursor n sent ->
  Forall (fun op => match op with PeerBlock _ _ _ _ => is_Some (op_block op) | _ => True end) ops ->
  slots_sorted (chain ++ omap op_block ops) ->
  foldl peer_step (Some (n, sent)) ops = Some (n', sent') ->
  following (chain ++ omap op_block ops) cursor n' sent'.
Proof.
  revert chain n sent. induction ops as [|op ops IH]; intros chain n sent HF Hops Hs E.
  { cbn in *. rewrite app_nil_r. by injection E as <- <-. }
  apply Forall_cons in Hops as [Hop Hops]. cbn [foldl] in E.
  assert (forall l, foldl peer_step None l = None) as Hnone by (intros l; by induction l).
  destruct (peer_step (Some (n, sent)) op) as [[n1 sent1]|] eqn:E1; [|by rewrite Hnone in E].
  destruct op as [slot number hash cbor| |]; cbn [omap list_omap] in *.
  - destruct (op_block (PeerBlock slot number hash cbor)) as [b|] eqn:Eb; [|by destruct Hop].
    change (chain ++ b :: omap op_block ops) with (chain ++ [b] ++ omap op_block ops) in *.
    rewrite app_assoc in *. apply (IH _ n1 sent1); [|done..].
    cbn [peer_step mbind option_bind] in E1.
    destruct (chainsyncClientHandleEvent _ _ n) as [[n2 ok]|] eqn:Ee; [|done]. cbn in E1.
    injection E1 as <- <-. eapply following_block; [done | exact Eb | | exact Ee].
    apply slots_sorted_app in Hs as (Hs & _ & _). apply slots_sorted_app in Hs as (_ & _ & Hs).
    apply Forall_forall. intros a Ha. apply Hs; [done | by left].
  - apply (IH _ n1 sent1); [|done..]. cbn [peer_step mbind option_bind] in E1.
    destruct (chainsyncServerRequestNext c n) as [[n2 msgs]|] eqn:Ee; [|done]. cbn in E1.
    injection E1 as <- <-. by eapply following_request.
  - apply (IH _ n1 sent1); [|done..]. cbn [peer_step mbind option_bind] in E1.
    pose proof (following_deliver _ _ _ _ HF) as HF'. destruct (deliver c n) as [n2 msgs].
    injection E1 as <- <-. exact HF'.
Qed.

(** The node before the peer connects: its recent blocks end the chain. *)
Lemma published_run hist :
  Forall (fun op => is_Some (op_block op)) hist ->
  exists n k, foldl peer_step (Some (New, [])) hist = Some (n, []) /\ nd_servers n = ∅ /\
    cl_subs (nd_client n) = ∅ /\ (length (cl_recentBlocks (nd_client n)) <= maxRecentBlocks)%nat /\
    (k <= length (omap op_block hist))%nat /\ cl_recentBlocks (nd_client n) = drop k (omap op_block hist).
Proof.
  induction hist as [|op hist IH] using rev_ind; intros Hh.
  { exists New, 0%nat. cbn. split_and!; (done || lia). }
  apply Forall_app in Hh as [Hh Hop]. apply Forall_cons in Hop as [Hop _].
  destruct (IH Hh) as (n & k & E & Hsv & Hsu & _ & Hk & Hr).
  rewrite foldl_app, E. cbn [foldl]. destruct op as [slot number hash cbor| |]; [|by destruct Hop as [? Hop]; discriminate Hop..].
  destruct Hop as [b Hb]. rewrite omap_app. cbn [omap list_omap]. rewrite Hb.
  cbn [op_block peer_step mbind option_bind chainsyncClientHandleEvent] in *.
  destruct (DetermineBlockType cbor) as [t|]; [|done]. cbn [mbind option_bind] in Hb. injection Hb as <-.
  unfold AddBlock. cbn [cl_subs cl_recentBlocks cl_tip]. rewrite Hsu. unfold publish.
  rewrite map_to_list_empty. cbn [forallb mbind option_bind]. rewrite fmap_empty, Hr.
  set (b := mkBlock _ cbor t false). set (l := omap op_block hist) in *.
  pose proof (length_prune_recent (drop k l ++ [b])) as Hlen.
  rewrite <- (drop_app_le l [b] k) in * by done.
  assert (exists k', (k' <= length (l ++ [b]))%nat /\ prune_recent (drop k (l ++ [b])) = drop k' (l ++ [b]))
    as (k' & Hk' & Hp).
  { unfold prune_recent. rewrite length_drop, length_app. cbn [length].
    destruct (Nat.ltb_spec maxRecentBlocks (length l + 1 - k)).
    - rewrite drop_drop. eexists. split; [|done]. lia.
    - exists k. split; [lia | done]. }
  eexists _, k'. split; [done|]. split_and!; [done | done | exact Hlen | done | exact Hp].
Qed.

Lemma find_intersect_found points blocks found :
  find_intersect points blocks found = found \/
  exists b, b ∈ blocks /\ find_intersect points blocks found = bk_Tip b.
Proof.
  revert found. induction blocks as [|b blocks IH]; intros found; [by left|]. cbn [find_intersect].
  destruct (IH (if existsb (point_matches (ToTip (bk_Tip b)).2) points then bk_Tip b else found))
    as [->|(b' & Hb' & ->)].
  - case_match; [right; exists b; split; [by left | done] | by left].
  - right. exists b'. split; [by right | done].
Qed.

Lemma intersect_following hist n0 points n1 p tip :
  Forall (fun op => is_Some (op_block op)) hist -> slots_sorted (omap op_block hist) ->
  foldl peer_step (Some (New, [])) hist = Some (n0, []) ->
  chainsyncServerFindIntersect c points n0 = Some (n1, Ok p, tip) ->
  following (omap op_block hist) (Slot p) n1 [].
Proof.
  intros Hh Hs E0 E. destruct (published_run hist Hh) as (n & k & E1 & Hsv & Hsu & Hlen & _ & Hr).
  rewrite E0 in E1. injection E1 as <-. unfold chainsyncServerFindIntersect in E.
  set (it := find_intersect _ _ _) in E. destruct (Z.eqb_spec (SlotNumber it) 0) as [|Hnz]; [done|].
  unfold chainsyncServerStateInit in E. rewrite Hsv, lookup_empty in E. unfold Sub in E.
  rewrite foldl_send in E by (unfold clientBlockBufferSize, maxRecentBlocks in *; cbn; lia).
  cbn in E. injection E as <- <- <-.
  assert (exists b, b ∈ cl_recentBlocks (nd_client n0) /\ it = bk_Tip b) as (b & Hb & Hit).
  { unfold it. destruct (find_intersect_found points (cl_recentBlocks (nd_client n0)) (mkTip 0 "" 0))
      as [Hf|Hf]; [|exact Hf].
    destruct Hnz. unfold it. by rewrite Hf. }
  assert (forall x, x ∈ cl_recentBlocks (nd_client n0) -> x ∈ omap op_block hist) as Hsub.
  { intros x. rewrite Hr. intros Hx. rewrite <- (take_drop k (omap op_block hist)). apply elem_of_app. by right. }
  split; [done | | exists b; split; [by apply Hsub | cbn; by rewrite Hit]].
  eexists _, _. cbn. rewrite !lookup_insert_eq. split_and!; try done; cbn [SlotNumber sv_cursor sv_waiting].
  - rewrite Forall_forall. intros x Hx. apply Hsub, list_elem_of_omap in Hx as (op & _ & Hop).
    destruct op; try done. cbn in Hop. destruct (DetermineBlockType _); [|done]. by injection Hop as <-.
  - intros Hw. lia.
  - cbn [app]. rewrite Hr, (newer_drop _ _ k Hs); [done|]. exists b. rewrite <- Hr. split; [done|].
    cbn. rewrite Hit. unfold slot_of. lia.
Qed.

(** C20: a peer that keeps up receives the chain. The node has seen some blocks, a
    peer finds an intersection among them, and then further blocks, requests of the
    peer and delayed replies happen in any order, without a rollback and without a
    full channel. At every moment the blocks that the peer was sent, followed by
    those after the intersection that are still in its channel, are all the blocks
    of the chain after the intersection, each once and in order. *)
Theorem peer_receives_every_block hist points ops n0 n1 p tip n2 sent :
  let chain := omap op_block (hist ++ ops) in
  Forall (fun op => is_Some (op_block op)) hist ->
  Forall (fun op => match op with PeerBlock _ _ _ _ => is_Some (op_block op) | _ => True end) ops ->
  slots_sorted chain ->
  foldl peer_step (Some (New, [])) hist = Some (n0, []) ->
  chainsyncServerFindIntersect c points n0 = Some (n1, Ok p, tip) ->
  foldl peer_step (Some (n1, [])) ops = Some (n2, sent) ->
  exists ch, cl_subs (nd_client n2) !! c = Some ch /\
    sent ++ (body <$> newer (Slot p) ch) = body <$> newer (Slot p) chain.
Proof.
  intros chain Hh Hops Hs E0 E1 E2. subst chain. rewrite omap_app in *.
  pose proof (slots_sorted_app _ _ Hs) as (Hs1 & _ & _).
  pose proof (intersect_following hist n0 points n1 p tip Hh Hs1 E0 E1) as HF.
  destruct (following_run ops _ _ _ _ _ _ HF Hops Hs E2) as [_ (sv & ch & _ & Hch & _ & _ & _ & _ & Hsent) _].
  by exists ch.
Qed.

(** ** Rollbacks and slow peers *)

(** A rollback to the intersection or before it is never sent: it is dropped from
    the channel together with the blocks up to the cursor. *)
Lemma old_rollback_dropped sv n slot hash rest :
  nd_servers n !! c = Some sv -> sv_needsInitialRollback sv = false ->
  cl_subs (nd_client n) !! c = Some (rollback_block slot hash :: rest) ->
  slot <= SlotNumber (sv_cursor sv) ->
  chainsyncServerRequestNext c n = chainsyncServerRequestNext c (set_chan c rest n).
Proof.
  intros Hsv Hn Hch Hle. unfold chainsyncServerRequestNext, chainsyncServerStateInit. cbn [nd_servers set_chan set_client].
  rewrite Hsv. cbn [mbind option_bind]. cbn [nd_servers set_chan set_client]. rewrite Hsv. cbn [mbind option_bind].
  unfold request_next. rewrite Hn, Hch. cbn [set_chan set_client nd_client cl_subs].
  rewrite lookup_insert_eq. cbn [next_block]. rewrite (proj2 (Z.leb_le (slot_of _) _)) by done.
  destruct (next_block _ rest) as [[b ch']|]; unfold set_chan, set_client, set_server, set_servers; cbn;
    by rewrite insert_insert_eq.
Qed.

(** What an event puts into the channel of every peer *)
Definition queued (evt : node_event) : list chainsyncBlock :=
  match evt with
  | RollbackEvent slot hash => [rollback_block slot hash]
  | BlockEvent slot number hash cbor => option_list (op_block (PeerBlock slot number hash cbor))
  | _ => []
  end.

Fixpoint handle_events (evts : list node_event) (n : Node) : option Node :=
  match evts with
  | [] => Some n
  | evt :: evts' => '(n, _) ← chainsyncClientHandleEvent DetermineBlockType evt n; handle_events evts' n
  end.

Lemma handle_event_queues evt n n' ok ch :
  chainsyncClientHandleEvent DetermineBlockType evt n = Some (n', ok) ->
  cl_subs (nd_client n) !! c = Some ch ->
  nd_servers n' = nd_servers n /\ cl_subs (nd_client n') !! c = Some (ch ++ queued evt).
Proof.
  intros E Hch. destruct evt as [slot hash|slot number hash cbor|hash|]; cbn [chainsyncClientHandleEvent] in E.
  - unfold Rollback in E. destruct (publish _ _) as [subs|] eqn:Ep; [|done]. cbn in E. injection E as <- <-.
    split; [done|]. by eapply publish_lookup.
  - cbn [queued op_block]. destruct (DetermineBlockType cbor) as [t|].
    + unfold AddBlock in E. cbn [cl_subs] in E. destruct (publish _ _) as [subs|] eqn:Ep; [|done]. cbn in E.
      injection E as <- <-. split; [done|]. by eapply publish_lookup.
    + injection E as <- <-. cbn. by rewrite app_nil_r.
  - injection E as <- <-. cbn. by rewrite app_nil_r.
  - injection E as <- <-. cbn. by rewrite app_nil_r.
Qed.

Lemma handle_events_queue evts n n' ch :
  handle_events evts n = Some n' -> cl_subs (nd_client n) !! c = Some ch ->
  nd_servers n' = nd_servers n /\ cl_subs (nd_client n') !! c = Some (ch ++ (evts ≫= queued)).
Proof.
  revert n ch. induction evts as [|evt evts IH]; intros n ch E Hch; cbn [handle_events] in E.
  { injection E as <-. cbn. by rewrite app_nil_r. }
  destruct (chainsyncClientHandleEvent _ _ _) as [[n1 ok]|] eqn:E1; [|done]. cbn in E.
  destruct (handle_event_queues _ _ _ _ _ E1 Hch) as [Hs1 Hch1].
  destruct (IH n1 _ E Hch1) as [-> ->]. cbn [mbind list_bind]. by rewrite Hs1, app_assoc.
Qed.

(** [k] requests of the peer, one after the other *)
Fixpoint ask (k : nat) (n : Node) : option (Node * list message) :=
  match k with
  | O => Some (n, [])
  | S k =>
      '(n, msgs) ← chainsyncServerRequestNext c n;
      '(n, rest) ← ask k n;
      Some (n, msgs ++ rest)
  end.

(** A peer that asks is sent what is newer than its intersection, in order, and is
    then told to wait. *)
Lemma ask_newer sv n ch :
  nd_servers n !! c = Some sv -> sv_needsInitialRollback sv = false ->
  cl_subs (nd_client n) !! c = Some ch ->
  let cursor := SlotNumber (sv_cursor sv) in
  Forall (fun b => bk_Rollback b = false) (newer cursor ch) ->
  exists n', ask (S (length (newer cursor ch))) n =
    Some (n', ((fun b => RollForward (bk_Type b) (bk_Cbor b) (ToTip (cl_tip (nd_client n)))) <$> newer cursor ch)
      ++ [AwaitReply]).
Proof.
  intros Hsv Hn. remember (length (newer (SlotNumber (sv_cursor sv)) ch)) as k eqn:Ek.
  revert n ch Hsv Ek. induction k as [|k IH]; intros n ch Hsv Ek Hch cursor Hr; cbn [ask];
    unfold chainsyncServerRequestNext at 1, chainsyncServerStateInit; rewrite Hsv; cbn [mbind option_bind];
    rewrite Hsv; cbn [mbind option_bind]; unfold request_next; rewrite Hn, Hch;
    pose proof (next_block_newer (SlotNumber (sv_cursor sv)) ch) as Hnb; fold cursor in Ek, Hnb |- *;
    destruct (next_block cursor ch) as [[b ch']|].
  - destruct Hnb as [Hnb _]. rewrite Hnb in Ek. discriminate Ek.
  - rewrite Hnb. eexists. reflexivity.
  - destruct Hnb as [Hnb _]. rewrite Hnb in Ek, Hr |- *. injection Ek as Ek.
    apply Forall_cons in Hr as [Hb Hr].
    destruct (IH (set_chan c ch' n) ch' Hsv Ek) as (n' & E); [cbn; apply lookup_insert_eq | exact Hr|].
    exists n'. fold cursor in E.
    change (ask (length (b :: newer cursor ch'))) with (ask (S (length (newer cursor ch')))). rewrite E.
    unfold chainsyncServerSendNext. rewrite Hb. reflexivity.
  - rewrite Hnb in Ek. discriminate Ek.
Qed.

(** C21: a rollback to the intersection of a peer or before it is never sent to the
    peer, unless a reply to it is outstanding when it arrives. Take a peer that has been
    sent everything and does not wait, and any events that include only such rollbacks.
    The next messages of the peer are the blocks after its intersection in the order of
    the events, each as if it followed the one before, and the request to wait; nothing
    tells it that blocks it was sent have been replaced. *)
Theorem rollback_before_intersection_is_lost evts n n' sv :
  nd_servers n !! c = Some sv -> sv_needsInitialRollback sv = false /\ sv_waiting sv = 0%nat ->
  cl_subs (nd_client n) !! c = Some [] ->
  let cursor := SlotNumber (sv_cursor sv) in
  Forall (fun evt => match evt with RollbackEvent slot _ => slot <= cursor | _ => True end) evts ->
  handle_events evts n = Some n' ->
  let blocks := newer cursor (evts ≫= queued) in
  exists n'', ask (S (length blocks)) n' =
    Some (n'', ((fun b => RollForward (bk_Type b) (bk_Cbor b) (ToTip (cl_tip (nd_client n')))) <$> blocks)
      ++ [AwaitReply]).
Proof.
  intros Hsv [Hn _] Hch cursor Hold E blocks.
  destruct (handle_events_queue evts n n' [] E Hch) as [Hsv' Hch'].
  apply (ask_newer sv n' (evts ≫= queued)); [by rewrite Hsv' | done | done |].
  apply Forall_forall. intros b [Hb (evt & Hq & Hevt)%list_elem_of_bind]%list_elem_of_filter.
  rewrite Forall_forall in Hold. specialize (Hold evt Hevt).
  destruct evt as [slot hash|slot number hash cbor|hash|]; cbn [queued] in Hq.
  - apply list_elem_of_singleton in Hq as ->. unfold cursor in Hold. cbn in Hb. lia.
  - cbn [op_block] in Hq. destruct (DetermineBlockType cbor); [|by apply elem_of_nil in Hq].
    by apply list_elem_of_singleton in Hq as ->.
  - by apply elem_of_nil in Hq.
  - by apply elem_of_nil in Hq.
Qed.

Lemma AddBlock_full b cl ch :
  cl_subs cl !! c = Some ch -> (clientBlockBufferSize <= length ch)%nat -> AddBlock b cl = None.
Proof.
  intros Hch Hfull. unfold AddBlock, publish.
  destruct (forallb _ _) eqn:E; [|done]. exfalso.
  assert ((c, ch) ∈ map_to_list (cl_subs cl)) as Hin by by apply elem_of_map_to_list.
  rewrite forallb_forall in E. apply list_elem_of_In in Hin. specialize (E _ Hin).
  change ((length ch <? clientBlockBufferSize)%nat = true) in E. apply Nat.ltb_lt in E. lia.
Qed.

(** One silent peer stops the node. Once a peer has subscribed and no longer
    asks for blocks, adding blocks succeeds only until its channel is full: with
    the fifty-first block at the latest the node waits, with the lock held, for
    that peer. *)
Theorem silent_peer_blocks_node blocks cl ch :
  cl_subs cl !! c = Some ch -> (length ch <= clientBlockBufferSize)%nat ->
  (clientBlockBufferSize < length ch + length blocks)%nat ->
  foldl (fun cl b => cl ≫= AddBlock b) (Some cl) blocks = None.
Proof.
  revert cl ch. induction blocks as [|b blocks IH]; intros cl ch Hch Hle Hlen; cbn [length foldl] in *; [lia|].
  cbn [mbind option_bind].
  destruct (decide (clientBlockBufferSize <= length ch)%nat) as [Hfull|Hroom].
  { rewrite (AddBlock_full b cl ch) by done. clear. by induction blocks. }
  destruct (AddBlock b cl) as [cl'|] eqn:E; [|clear; by induction blocks].
  apply (IH cl' (ch ++ [b])); rewrite ?length_app; cbn [length]; [|lia..].
  unfold AddBlock in E. destruct (publish b (cl_subs cl)) as [subs'|] eqn:Ep; [|done].
  cbn in E. injection E as <-. cbn. by eapply publish_lookup.
Qed.
End Peer.

(** ** Concrete runs *)

Definition any_type (cbor : list byte) : option Z := Some 6.
Definition sample_hist : list peer_op :=
  [PeerBlock 10 1 "0a" [x0a]; PeerBlock 20 2 "14" [x14]; PeerBlock 30 3 "1e" [x1e]].
(** The peer is sent the intersection, block 30, waits, gets block 40, and asks
    again only after block 50 has arrived. *)
Definition sample_ops : list peer_op :=
  [PeerRequest; PeerRequest; PeerRequest; PeerBlock 40 4 "28" [x28]; PeerDeliver;
   PeerBlock 50 5 "32" [x32]; PeerRequest].

Lemma sample_run_following :
  exists n0 n1 p tip n2, foldl (peer_step any_type 1) (Some (New, [])) sample_hist = Some (n0, []) /\
    chainsyncServerFindIntersect 1 [mkPoint 20 [x14]] n0 = Some (n1, Ok p, tip) /\ Slot p = 20 /\
    foldl (peer_step any_type 1) (Some (n1, [])) sample_ops = Some (n2, [(6, [x1e]); (6, [x28]); (6, [x32])]).
Proof.
  destruct (foldl (peer_step any_type 1) (Some (New, [])) sample_hist) as [[n0 s0]|] eqn:E0;
    [|by vm_compute in E0]. vm_compute in E0. injection E0 as <- <-.
  match goal with |- context [chainsyncServerFindIntersect] => idtac end.
  do 5 eexists. split; [reflexivity|]. split; [vm_compute; reflexivity|]. split; [reflexivity|].
  vm_compute. reflexivity.
Qed.

Lemma peer_receives_every_block_witness :
  exists n0 n1 p tip n2 ch, foldl (peer_step any_type 1) (Some (New, [])) sample_hist = Some (n0, []) /\
    chainsyncServerFindIntersect 1 [mkPoint 20 [x14]] n0 = Some (n1, Ok p, tip) /\
    foldl (peer_step any_type 1) (Some (n1, [])) sample_ops = Some (n2, [(6, [x1e]); (6, [x28]); (6, [x32])]) /\
    cl_subs (nd_client n2) !! 1 = Some ch /\ newer 20 ch = [].
Proof.
  destruct sample_run_following as (n0 & n1 & p & tip & n2 & E0 & E1 & Hp & E2).
  destruct (peer_receives_every_block any_type 1 sample_hist [mkPoint 20 [x14]] sample_ops n0 n1 p tip n2
    [(6, [x1e]); (6, [x28]); (6, [x32])]) as (ch & Hch & Hsent);
    [by repeat constructor | by repeat constructor | by repeat constructor | done..|].
  exists n0, n1, p, tip, n2, ch. split_and!; [done..|].
  rewrite Hp in Hsent. apply (f_equal length) in Hsent. rewrite length_app, !length_fmap in Hsent.
  vm_compute (length (newer 20 (omap _ _))) in Hsent. cbn [length] in Hsent.
  destruct (newer 20 ch); [done|]. cbn [length] in Hsent. lia.
Defined.

Lemma silent_peer_blocks_node_witness :
  foldl (fun cl b => cl ≫= AddBlock b) (Some (mkClient (mkTip 0 "" 0) [] {[ 1 := [] ]}))
    (replicate 51 (mkBlock (mkTip 1 "" 1) [] 6 false)) = None.
Proof.
  apply (silent_peer_blocks_node 1 _ _ []); [done | cbn; unfold clientBlockBufferSize; lia |].
  rewrite length_replicate. unfold clientBlockBufferSize. cbn. lia.
Defined.

(** The peer that intersected at slot 20 has been sent the block of slot 30; the chain
    rolls back to slot 10 and goes on with a block at slot 35. *)
Lemma rollback_before_intersection_is_lost_witness :
  exists n n' n'', handle_events any_type [RollbackEvent 10 "0a"; BlockEvent 35 2 "23" [x23]] n = Some n' /\
    ask 1 2 n' = Some (n'', [RollForward 6 [x23] (2, mkPoint 35 [x23]); AwaitReply]).
Proof.
  destruct (foldl (peer_step any_type 1) (Some (New, [])) sample_hist ≫= fun st =>
    chainsyncServerFindIntersect 1 [mkPoint 20 [x14]] st.1 ≫= fun x => ask 1 2 x.1.1) as [[n m]|] eqn:E;
    [|vm_compute in E; discriminate E].
  destruct (handle_events any_type [RollbackEvent 10 "0a"; BlockEvent 35 2 "23" [x23]] n) as [n'|] eqn:E';
    [|vm_compute in E; injection E as <- <-; vm_compute in E'; discriminate E'].
  destruct (rollback_before_intersection_is_lost any_type 1
    [RollbackEvent 10 "0a"; BlockEvent 35 2 "23" [x23]] n n' (mkServer (mkTip 20 "14" 2) false 0))
    as (n'' & Hask); [..|exact E'|].
  - vm_compute in E. injection E as <- <-. vm_compute. reflexivity.
  - split; reflexivity.
  - vm_compute in E. injection E as <- <-. vm_compute. reflexivity.
  - repeat constructor; vm_compute; discriminate.
  - exists n, n', n''. split; [exact E'|].
    vm_compute in E. injection E as <- <-. vm_compute in E'. injection E' as <-. exact Hask.
Defined.

(** ** Connections *)

(** The record of an outbound connection outlives it. When it closes, its
    channel and cache go and its peer is to be reconnected; if a connection with
    the same identifier then closes before an outbound one has been established,
    the callback closes the channel again and panics. *)
Theorem closed_connection_panics_again c peer n :
  exists n1, connectionManagerConnClosed c (register_outbound c peer n) = Ok (n1, Some peer) /\
    connectionManagerConnClosed c n1 = Err tt.
Proof.
  unfold connectionManagerConnClosed, register_outbound. cbn [nd_servers nd_outbound].
  destruct (nd_servers n !! c) as [sv|] eqn:Es; cbn; rewrite !lookup_insert_eq; cbn;
    (eexists; split; [reflexivity|]); cbn; rewrite ?Es, ?lookup_delete_eq; cbn;
    by rewrite ?lookup_insert_eq, ?lookup_delete_eq.
Qed.

(** The delays double from one second to 128 seconds and stay there. *)
Lemma reconnect_delay_bounds k peer :
  op_ReconnectDelay peer = 0 ->
  op_ReconnectDelay (Nat.iter (S k) next_delay peer) = Z.min (2 ^ Z.of_nat k) 128 * initialReconnectDelay.
Proof.
  intros Hp. induction k as [|k IH]; [cbn; by rewrite Hp|].
  change (Nat.iter (S (S k)) next_delay peer) with (next_delay (Nat.iter (S k) next_delay peer)).
  set (q := Nat.iter (S k) next_delay peer) in *. unfold next_delay. cbn [op_ReconnectDelay]. rewrite IH.
  unfold initialReconnectDelay, maxReconnectDelay in *. rewrite Nat2Z.inj_succ, Z.pow_succ_r by lia.
  assert (0 < 2 ^ Z.of_nat k) as Hpos by (apply Z.pow_pos_nonneg; lia).
  rewrite (proj2 (Z.eqb_neq _ _)) by lia. destruct (Z.ltb_spec (Z.min (2 ^ Z.of_nat k) 128 * 1000000000) (128 * 1000000000)).
  - destruct (Z.le_gt_cases (2 ^ Z.of_nat k) 64); [lia|].
    assert (exists j, 2 ^ Z.of_nat k = j) as [j Hj] by by eexists.
    destruct (Nat.le_gt_cases k 6) as [Hk|Hk].
    + do 7 (destruct k as [|k]; [cbn in *; lia|]). lia.
    + assert (2 ^ 7 <= 2 ^ Z.of_nat k) by (apply Z.pow_le_mono_r; lia). lia.
  - lia.
Qed.
