(* ===== verification/UtxoStore.v ===== *)
(** * UtxoStore: the key-value storage of the indexer ([internal/storage/storage.go]).

    The store is an external transactional key-value database, an instance of
    [KV]: a read of a missing key reports that it is missing, and a transaction
    whose function fails changes nothing. Keys and values are byte strings. The
    CBOR encoding of an entry is a parameter. *)
From S2P Require Import Prelude.
From S2P Require Import Text.
From S2P Require Import KeyValue.

(** ** Strings *)

(** [strings.Split] at a one-character separator, and [strings.Join] *)
Fixpoint Split (sep : ascii) (s : string) : list string :=
  match s with
  | EmptyString => [EmptyString]
  | String c s' =>
      if Ascii.eqb c sep then EmptyString :: Split sep s'
      else
        match Split sep s' with
        | part :: rest => String c part :: rest
        | [] => [String c EmptyString]
        end
  end.

Fixpoint Join (sep : ascii) (l : list string) : string :=
  match l with
  | [] => EmptyString
  | [s] => s
  | s :: l' => s +:+ String sep (Join sep l')
  end.

Definition comma : ascii := ",".

Inductive store_error :=
| ErrKeyNotFound
| ErrInvalidTxId
| ErrEncode
| ErrParse
| FingerprintMismatch
| NoAssetUtxo
| IndexOutOfRangePanic.

Definition chainsyncCursorKey : string := "chainsync_cursor".
Definition fingerprintKey : string := "config_fingerprint".

Definition utxo_id (txId : string) (txOutIdx : Z) : string :=
  txId +:+ String "."%char (IntString txOutIdx).
Definition utxo_key (utxoId : string) : string := "utxo_" +:+ utxoId.
Definition utxo_address_key (utxoId : string) : string := utxo_key utxoId +:+ "_address".
Definition address_key (address : string) : string := "address_" +:+ address.
Definition asset_key (keyPrefix : string) (policyId assetName : option (list byte)) : string :=
  keyPrefix +:+ "_asset_" +:+ EncodeToString policyId +:+ "_" +:+ EncodeToString assetName.

Section Store.
Context `{KV}.
(** [cbor.Encode] of the reference and the output. *)
Context (encode_utxo : list byte -> Z -> string -> option string).

Definition fingerprint_of (network : string) (profiles : list string) : string :=
  "network=" +:+ network +:+ ",profiles=" +:+ Join comma profiles.

Definition compareFingerprint (network : string) (profiles : list string) (d : db)
  : db * result store_error unit :=
  let fingerprint := fingerprint_of network profiles in
  Update (fun d =>
    match Get d fingerprintKey with
    | None => Ok (Set_ fingerprintKey fingerprint d)
    | Some v => if negb (bool_decide (v = fingerprint)) then Err FingerprintMismatch else Ok d
    end) d.

(** [Load], with the database that could be opened *)
Definition Load (opened : option db) (network : string) (profiles : list string)
  : option (db * result store_error unit) :=
  compareFingerprint network profiles <$> opened.

Definition UpdateCursor (slotNumber : Z) (blockHash : string) (d : db)
  : db * result store_error unit :=
  Update (fun d => Ok (Set_ chainsyncCursorKey (FormatUint slotNumber +:+ String comma blockHash) d)) d.

Definition GetCursor (d : db) : result store_error (Z * string) :=
  match Get d chainsyncCursorKey with
  | None => Ok (0, "")
  | Some v =>
      match Split comma v with
      | [] => Err IndexOutOfRangePanic
      | part0 :: rest =>
          match ParseUint part0 with
          | None => Err ErrParse
          | Some slotNumber =>
              match rest with
              | [] => Err IndexOutOfRangePanic
              | blockHash :: _ => Ok (slotNumber, blockHash)
              end
          end
      end
  end.

Definition AddUtxo (address txId : string) (txOutIdx : Z) (txOutBytes : string) (d : db)
  : db * result store_error unit :=
  let utxoId := utxo_id txId txOutIdx in
  Update (fun d =>
    match DecodeString txId with
    | None => Err ErrInvalidTxId
    | Some txIdBytes =>
        match encode_utxo (contents txIdBytes) txOutIdx txOutBytes with
        | None => Err ErrEncode
        | Some cborBytes =>
            let d := Set_ (utxo_key utxoId) cborBytes d in
            let d := Set_ (utxo_address_key utxoId) address d in
            let oldVal := default "" (Get d (address_key address)) in
            let newVal :=
              if Nat.eqb (String.length oldVal) 0 then utxoId
              else oldVal +:+ String comma utxoId in
            Ok (Set_ (address_key address) newVal d)
        end
    end) d.

Definition RemoveUtxo (txId : string) (utxoIdx : Z) (d : db) : db * result store_error unit :=
  let utxoId := utxo_id txId utxoIdx in
  Update (fun d =>
    match Get d (utxo_address_key utxoId) with
    | None => Ok d
    | Some addressVal =>
        let d := Delete (utxo_key utxoId) d in
        let d :=
          match Get d (address_key addressVal) with
          | None => d
          | Some utxosVal =>
              let newUtxos := filter (fun item => item <> utxoId) (Split comma utxosVal) in
              Set_ (address_key addressVal) (Join comma newUtxos) d
          end in
        Ok (Delete (utxo_address_key utxoId) d)
    end) d.

Definition GetUtxoById (utxoId : string) (d : db) : result store_error string :=
  match Get d (utxo_key utxoId) with
  | None => Err ErrKeyNotFound
  | Some v => Ok v
  end.

(** The loop over the identifiers stops at the first error. *)
Fixpoint get_all (utxoIds : list string) (d : db) : result store_error (list string) :=
  match utxoIds with
  | [] => Ok []
  | utxoId :: rest =>
      tmpUtxo ← GetUtxoById utxoId d;
      ret ← get_all rest d;
      Ok (tmpUtxo :: ret)
  end.

Definition GetUtxos (address : string) (d : db) : result store_error (list string) :=
  match Get d (address_key address) with
  | None => Err ErrKeyNotFound
  | Some v => get_all (Split comma v) d
  end.

Definition GetUtxoAddress (utxoId : string) (d : db) : result store_error string :=
  match Get d (utxo_address_key utxoId) with
  | None => Err ErrKeyNotFound
  | Some v => Ok v
  end.

Definition UpdateAssetUtxo (keyPrefix : string) (policyId assetName : option (list byte))
    (txId : string) (txOutIdx : Z) (d : db) : db * result store_error unit :=
  Update (fun d => Ok (Set_ (asset_key keyPrefix policyId assetName) (utxo_id txId txOutIdx) d)) d.

Definition GetAssetUtxoId (keyPrefix : string) (policyId assetName : option (list byte)) (d : db)
  : result store_error string :=
  match Get d (asset_key keyPrefix policyId assetName) with
  | None => Err NoAssetUtxo
  | Some utxoId => Ok utxoId
  end.

Definition GetAssetUtxo (keyPrefix : string) (policyId assetName : option (list byte)) (d : db)
  : result store_error string :=
  utxoId ← GetAssetUtxoId keyPrefix policyId assetName d;
  GetUtxoById utxoId d.
End Store.

(** ** Lemmas on strings *)

Lemma Split_free sep s : char_free sep s = true -> Split sep s = [s].
Proof.
  induction s as [|c s IH]; [done|]. cbn [char_free Split]. intros [Hc Hs]%andb_prop.
  rewrite IH by done. rewrite Ascii.eqb_sym. by destruct (Ascii.eqb sep c).
Qed.

Lemma Split_sep sep a b : char_free sep a = true -> Split sep (a +:+ String sep b) = a :: Split sep b.
Proof.
  induction a as [|c a IH]; intros Ha.
  - change ("" +:+ String sep b) with (String sep b). cbn [Split]. by rewrite Ascii.eqb_refl.
  - cbn [char_free] in Ha. apply andb_prop in Ha as [Hc Ha]. change (String c a +:+ String sep b)
      with (String c (a +:+ String sep b)). cbn [Split].
    rewrite IH by done. rewrite Ascii.eqb_sym. by destruct (Ascii.eqb sep c).
Qed.

Lemma Split_Join sep l :
  l <> [] -> Forall (fun s => char_free sep s = true) l -> Split sep (Join sep l) = l.
Proof.
  intros Hl HF. induction HF as [|s l Hs HF IH]; [done|].
  destruct l as [|t l]; [by apply Split_free|].
  change (Join sep (s :: t :: l)) with (s +:+ String sep (Join sep (t :: l))).
  rewrite Split_sep by done. by rewrite IH.
Qed.

Lemma Join_snoc sep l s : l <> [] -> Join sep (l ++ [s]) = Join sep l +:+ String sep s.
Proof.
  induction l as [|t l IH]; [done|]. intros _. destruct l as [|u l]; [done|].
  change (Join sep ((t :: u :: l) ++ [s])) with (t +:+ String sep (Join sep ((u :: l) ++ [s]))).
  rewrite IH by done.
  change (Join sep (t :: u :: l)) with (t +:+ String sep (Join sep (u :: l))).
  by rewrite append_assoc.
Qed.

Lemma Join_empty sep l : Forall (fun s => s <> "") l -> (Join sep l = "" <-> l = []).
Proof.
  intros HF. split; [|by intros ->]. destruct HF as [|s l Hs HF]; [done|].
  destruct l as [|t l]; [done|]. cbn. by destruct s.
Qed.

Lemma hex_decode_free c s l : hex_value c = None -> hex_decode s = Some l -> char_free c s = true.
Proof.
  intros Hc. revert l.
  assert (forall n s l, (String.length s <= n)%nat -> hex_decode s = Some l -> char_free c s = true)
    as Hn; [|intros l; by apply (Hn (String.length s))].
  induction n as [|n IH]; intros [|x [|y t]] l Hl E; try done; [cbn in Hl; lia|].
  cbn in E. destruct (hex_value x) eqn:Hx; [|done]. destruct (hex_value y) eqn:Hy; [|done].
  destruct (hex_decode t) eqn:Ht; [|done]. cbn [char_free].
  rewrite (IH t _ ltac:(cbn in Hl; lia) Ht).
  destruct (Ascii.eqb_spec c x) as [<-|]; [congruence|].
  destruct (Ascii.eqb_spec c y) as [<-|]; [congruence|]. done.
Qed.

(** ** The contract: a list of unspent outputs

    The store represents the outputs added and not removed since, in the order
    of their addition. *)
Record entry := mkEntry {
  en_id : string;
  en_address : string;
  en_cbor : string;
}.

Inductive store_op :=
| OpAddUtxo (address txId : string) (txOutIdx : Z) (txOutBytes : string)
| OpRemoveUtxo (txId : string) (utxoIdx : Z)
| OpUpdateCursor (slotNumber : Z) (blockHash : string).

Section Refinement.
Context `{KV} (encode_utxo : list byte -> Z -> string -> option string).

Definition store_step (d : db) (op : store_op) : db :=
  match op with
  | OpAddUtxo address txId txOutIdx txOutBytes => (AddUtxo encode_utxo address txId txOutIdx txOutBytes d).1
  | OpRemoveUtxo txId utxoIdx => (RemoveUtxo txId utxoIdx d).1
  | OpUpdateCursor slotNumber blockHash => (UpdateCursor slotNumber blockHash d).1
  end.

Definition spec_step (l : list entry) (op : store_op) : list entry :=
  match op with
  | OpAddUtxo address txId txOutIdx txOutBytes =>
      match DecodeString txId with
      | None => l
      | Some txIdBytes =>
          match encode_utxo (contents txIdBytes) txOutIdx txOutBytes with
          | None => l
          | Some cbor => l ++ [mkEntry (utxo_id txId txOutIdx) address cbor]
          end
      end
  | OpRemoveUtxo txId utxoIdx => filter (fun e => en_id e <> utxo_id txId utxoIdx) l
  | OpUpdateCursor _ _ => l
  end.

(** No output is added while it is stored, and indexes are unsigned. *)
Fixpoint well_ordered (l : list entry) (ops : list store_op) : Prop :=
  match ops with
  | [] => True
  | op :: ops' =>
      match op with
      | OpAddUtxo _ txId txOutIdx _ => 0 <= txOutIdx /\ utxo_id txId txOutIdx ∉ en_id <$> l
      | _ => True
      end /\ well_ordered (spec_step l op) ops'
  end.

(** The identifiers of the outputs of an address. *)
Definition ids_at (l : list entry) (address : string) : list string :=
  en_id <$> filter (fun e => en_address e = address) l.

Definition clean_id (id : string) : Prop :=
  id <> "" /\ char_free comma id = true /\ char_free "_"%char id = true.

Record represents (d : db) (l : list entry) : Prop := {
  rp_nodup : NoDup (en_id <$> l);
  rp_clean : Forall (fun e => clean_id (en_id e)) l;
  rp_cbor : forall e, e ∈ l -> Get d (utxo_key (en_id e)) = Some (en_cbor e);
  rp_address : forall e, e ∈ l -> Get d (utxo_address_key (en_id e)) = Some (en_address e);
  rp_absent : forall id, id ∉ en_id <$> l -> Get d (utxo_address_key id) = None;
  rp_gone : forall id, char_free "_"%char id = true -> id ∉ en_id <$> l -> Get d (utxo_key id) = None;
  rp_list : forall a, match Get d (address_key a) with
                      | Some v => v = Join comma (ids_at l a)
                      | None => ids_at l a = []
                      end;
}.

Lemma clean_utxo_id txId i s :
  DecodeString txId = Some s -> 0 <= i -> clean_id (utxo_id txId i).
Proof.
  intros E Hi. unfold DecodeString in E. destruct (hex_decode txId) as [l|] eqn:Hh; [|done].
  assert (forall c, hex_value c = None -> Ascii.eqb c "." = false ->
    char_free c (IntString i) = true -> char_free c (utxo_id txId i) = true) as Hc.
  { intros c Hv Hd Hi'. unfold utxo_id. rewrite char_free_app, (hex_decode_free c txId l Hv Hh).
    change (String "."%char (IntString i)) with ("." +:+ IntString i).
    rewrite char_free_app, Hi'. cbn [char_free]. by rewrite Hd. }
  assert (exists u, IntString i = DecimalString.NilEmpty.string_of_uint u) as [u Hu].
  { unfold IntString, DecimalString.NilZero.string_of_int. destruct (Z.to_int i) as [u|u] eqn:Hz.
    - unfold DecimalString.NilZero.string_of_uint. destruct u; [exists (Decimal.D0 Decimal.Nil)|..];
        try done; by eexists.
    - destruct i; try done; lia. }
  split; [|split].
  - unfold utxo_id. by destruct txId.
  - apply Hc; [done..|]. rewrite Hu. by apply char_free_digits.
  - apply Hc; [done..|]. rewrite Hu. by apply char_free_digits.
Qed.

(** ** Distinct keys *)

Lemma utxo_key_inj a b : utxo_key a = utxo_key b -> a = b.
Proof. apply append_inj_l. Qed.

Lemma utxo_address_key_inj a b : utxo_address_key a = utxo_address_key b -> a = b.
Proof. intros E%append_inj_r. by apply utxo_key_inj. Qed.

Lemma address_key_inj a b : address_key a = address_key b -> a = b.
Proof. apply append_inj_l. Qed.

Lemma utxo_key_address_key a b : utxo_key a <> address_key b.
Proof. done. Qed.

Lemma utxo_address_key_address_key a b : utxo_address_key a <> address_key b.
Proof. done. Qed.

Lemma utxo_key_not_address a b : char_free "_"%char a = true -> utxo_key a <> utxo_address_key b.
Proof.
  intros Ha E. unfold utxo_address_key, utxo_key in E. rewrite append_assoc in E.
  apply append_inj_l in E. subst a. rewrite char_free_app in Ha.
  apply andb_prop in Ha as [_ Ha]. done.
Qed.

Lemma empty_not_address b : utxo_key "" <> utxo_address_key b.
Proof. by apply utxo_key_not_address. Qed.

(** A write to another key is invisible. *)
Definition foreign (k : string) : Prop :=
  (forall id, k <> utxo_key id) /\ (forall id, k <> utxo_address_key id) /\ forall a, k <> address_key a.

Lemma foreign_represents d l k v : foreign k -> represents d l -> represents (Set_ k v d) l.
Proof.
  intros (Hu & Ha & Hk) []. split; try done; intros; rewrite ?Get_Set_ne by done; auto.
  specialize (rp_list0 a). by destruct (Get d (address_key a)).
Qed.

Ltac key_ne :=
  solve
    [ done
    | by apply utxo_key_not_address
    | by apply not_eq_sym, utxo_key_not_address
    | by apply not_eq_sym, utxo_address_key_address_key
    | by intros ?%utxo_key_inj
    | by intros ?%utxo_address_key_inj
    | by intros ?%address_key_inj ].
Ltac kv :=
  repeat first
    [ rewrite Get_Set_eq | rewrite Get_Delete_eq
    | rewrite Get_Set_ne by key_ne | rewrite Get_Delete_ne by key_ne ].

Lemma NoDup_fmap_elem {A B} (f : A -> B) l x y :
  NoDup (f <$> l) -> x ∈ l -> y ∈ l -> f x = f y -> x = y.
Proof.
  induction l as [|z l IH]; [by intros _ ?%not_elem_of_nil|]. cbn [fmap list_fmap].
  intros [Hz Hl]%NoDup_cons Hx Hy E. apply elem_of_cons in Hx as [->|Hx], Hy as [->|Hy]; auto.
  - destruct Hz. rewrite E. by apply list_elem_of_fmap_2.
  - destruct Hz. rewrite <- E. by apply list_elem_of_fmap_2.
Qed.

Lemma ids_at_snoc l e a :
  ids_at (l ++ [e]) a = ids_at l a ++ (if decide (en_address e = a) then [en_id e] else []).
Proof.
  unfold ids_at. rewrite filter_app, fmap_app. f_equal.
  case_decide as E; [by rewrite filter_cons_True | by rewrite filter_cons_False].
Qed.

Lemma ids_at_remove l id a :
  ids_at (filter (fun e => en_id e <> id) l) a = filter (fun i => i <> id) (ids_at l a).
Proof.
  unfold ids_at. induction l as [|e l IH]; [done|].
  destruct (decide (en_id e = id)) as [Hi|Hi].
  - rewrite filter_cons_False by tauto. rewrite IH.
    destruct (decide (en_address e = a)) as [Ha|Ha].
    + rewrite (filter_cons_True (fun e => en_address e = a)) by done. cbn [fmap list_fmap].
      by rewrite filter_cons_False by tauto.
    + by rewrite (filter_cons_False (fun e => en_address e = a)) by done.
  - rewrite (filter_cons_True (fun e => en_id e <> id)) by done.
    destruct (decide (en_address e = a)) as [Ha|Ha].
    + rewrite !(filter_cons_True (fun e => en_address e = a)) by done. cbn [fmap list_fmap].
      rewrite filter_cons_True by done. by rewrite IH.
    + by rewrite !(filter_cons_False (fun e => en_address e = a)) by done.
Qed.

Lemma ids_at_clean l a : Forall (fun e => clean_id (en_id e)) l -> Forall clean_id (ids_at l a).
Proof. intros HF. apply Forall_fmap. by apply Forall_filter_sub. Qed.

Lemma listed d l a :
  represents d l -> default "" (Get d (address_key a)) = Join comma (ids_at l a).
Proof.
  intros R. pose proof (rp_list _ _ R a) as Hl. destruct (Get d (address_key a)); [done|].
  by rewrite Hl.
Qed.

Lemma listed_value d l a v :
  represents d l -> Get d (address_key a) = Some v -> v = Join comma (ids_at l a).
Proof. intros R Hv. pose proof (rp_list _ _ R a) as Hl. by rewrite Hv in Hl. Qed.

Lemma append_id l a id :
  Forall (fun e => clean_id (en_id e)) l ->
  (if Nat.eqb (String.length (Join comma (ids_at l a))) 0 then id
   else Join comma (ids_at l a) +:+ String comma id) = Join comma (ids_at l a ++ [id]).
Proof.
  intros HF%(ids_at_clean _ a).
  assert (Forall (fun s => s <> "") (ids_at l a)) as Hne by (eapply Forall_impl; [done | by intros ? []]).
  destruct (decide (ids_at l a = [])) as [->|Hl]; [done|].
  rewrite Join_snoc by done. destruct (Nat.eqb_spec (String.length (Join comma (ids_at l a))) 0) as [E|]; [|done].
  destruct Hl. apply (Join_empty comma _ Hne). by destruct (Join comma (ids_at l a)).
Qed.

Lemma add_represents d l address txId i bytes :
  represents d l -> 0 <= i -> utxo_id txId i ∉ en_id <$> l ->
  represents (store_step d (OpAddUtxo address txId i bytes))
    (spec_step l (OpAddUtxo address txId i bytes)).
Proof.
  intros R Hi Hnew. cbn [store_step spec_step]. unfold AddUtxo, Update.
  destruct (DecodeString txId) as [s|] eqn:Hs; [|done].
  destruct (encode_utxo (contents s) i bytes) as [c|]; [|done]. cbn [fst].
  pose proof (clean_utxo_id txId i s Hs Hi) as Hid. set (id := utxo_id txId i) in *.
  rewrite !(Get_Set_ne _ _ (address_key address)) by key_ne.
  rewrite (listed d l address R), append_id by apply R.
  destruct R as [Hnd Hcl Hcb Had Hab Hem Hli].
  assert (forall e, e ∈ l -> en_id e <> id) as Hother.
  { intros e He E. apply Hnew. rewrite <- E. by apply list_elem_of_fmap_2. }
  split.
  - rewrite fmap_app. apply NoDup_app. split_and!; [done | | apply NoDup_singleton].
    intros x Hx. cbn. set_solver.
  - apply Forall_app. split; [done | by apply Forall_singleton].
  - intros e [He|He%list_elem_of_singleton]%elem_of_app.
    + pose proof (Hother e He) as Hne. pose proof (proj1 (Forall_forall _ _) Hcl e He) as (_ & _ & Hu).
      rewrite Get_Set_ne, Get_Set_ne, Get_Set_ne by (key_ne || (intros E%utxo_key_inj; congruence)).
      by apply Hcb.
    + subst e. cbn [en_id en_cbor]. destruct Hid as (_ & _ & Hu). by kv.
  - intros e [He|He%list_elem_of_singleton]%elem_of_app.
    + pose proof (Hother e He) as Hne. destruct Hid as (_ & _ & Hu).
      rewrite Get_Set_ne, Get_Set_ne, Get_Set_ne
        by (key_ne || (intros E%utxo_address_key_inj; congruence)).
      by apply Had.
    + subst e. cbn [en_id en_address]. by kv.
  - intros x Hx. rewrite fmap_app in Hx. cbn [fmap list_fmap en_id] in Hx.
    rewrite not_elem_of_app, list_elem_of_singleton in Hx.
    destruct Hx as [Hx Hne], Hid as (_ & _ & Hu).
    rewrite Get_Set_ne, Get_Set_ne, Get_Set_ne
      by (key_ne || (intros E%utxo_address_key_inj; congruence)).
    by apply Hab.
  - intros x Hf Hx. rewrite fmap_app in Hx. cbn [fmap list_fmap en_id] in Hx.
    rewrite not_elem_of_app, list_elem_of_singleton in Hx. destruct Hx as [Hx Hne].
    rewrite Get_Set_ne, Get_Set_ne, Get_Set_ne
      by (key_ne || (intros E%utxo_key_inj; congruence)). by apply Hem.
  - intros a. rewrite ids_at_snoc. cbn [en_address en_id]. case_decide as E.
    + subst a. by kv.
    + rewrite Get_Set_ne, Get_Set_ne, Get_Set_ne by (key_ne || (intros E'%address_key_inj; congruence)).
      rewrite app_nil_r. apply Hli.
Qed.

Lemma remove_represents d l txId i :
  represents d l -> represents (store_step d (OpRemoveUtxo txId i)) (spec_step l (OpRemoveUtxo txId i)).
Proof.
  intros R. cbn [store_step spec_step]. unfold RemoveUtxo, Update. set (id := utxo_id txId i).
  destruct (decide (id ∈ en_id <$> l)) as [Hin|Hout].
  2:{ rewrite (rp_absent _ _ R) by done. cbn [fst]. rewrite filter_all; [done|].
      apply Forall_forall. intros e He E. apply Hout. rewrite <- E. by apply list_elem_of_fmap_2. }
  apply list_elem_of_fmap in Hin as (e0 & -> & He0).
  rewrite (rp_address _ _ R e0 He0). cbn [fst].
  rewrite Get_Delete_ne by key_ne.
  destruct (Get d (address_key (en_address e0))) as [v|] eqn:Hv.
  2:{ pose proof (rp_list _ _ R (en_address e0)) as Hl. rewrite Hv in Hl.
      assert (en_id e0 ∈ ids_at l (en_address e0)) as Hx
        by (apply list_elem_of_fmap_2, list_elem_of_filter; done).
      rewrite Hl in Hx. by apply not_elem_of_nil in Hx. }
  apply (listed_value _ _ _ _ R) in Hv as ->.
  assert (Split comma (Join comma (ids_at l (en_address e0))) = ids_at l (en_address e0)) as ->.
  { apply Split_Join.
    - intros E. assert (en_id e0 ∈ ids_at l (en_address e0)) as Hx
        by (apply list_elem_of_fmap_2, list_elem_of_filter; done).
      rewrite E in Hx. by apply not_elem_of_nil in Hx.
    - eapply Forall_impl; [apply ids_at_clean, R | by intros ? (_ & ? & _)]. }
  rewrite <- ids_at_remove. set (l' := filter _ l).
  assert (forall e, e ∈ l' <-> en_id e <> en_id e0 /\ e ∈ l) as Hl' by (intros e; unfold l'; by rewrite list_elem_of_filter).
  assert (clean_id (en_id e0)) as (_ & _ & Hu0) by exact (proj1 (Forall_forall _ _) (rp_clean _ _ R) e0 He0).
  destruct R as [Hnd Hcl Hcb Had Hab Hem Hli].
  split.
  - eapply sublist_NoDup; [exact Hnd|]. apply fmap_sublist, sublist_filter.
  - by apply Forall_filter_sub.
  - intros e [Hne He]%Hl'. pose proof (proj1 (Forall_forall _ _) Hcl e He) as (_ & _ & Hu).
    rewrite Get_Delete_ne, Get_Set_ne, Get_Delete_ne
      by (key_ne || (intros E%utxo_key_inj; congruence)). by apply Hcb.
  - intros e [Hne He]%Hl'.
    rewrite Get_Delete_ne, Get_Set_ne, Get_Delete_ne
      by (key_ne || (intros E%utxo_address_key_inj; congruence)). by apply Had.
  - intros x Hx. destruct (decide (x = en_id e0)) as [->|Hne]; [by kv|].
    rewrite Get_Delete_ne, Get_Set_ne, Get_Delete_ne
      by (key_ne || (intros E%utxo_address_key_inj; congruence)).
    apply Hab. intros (e & -> & He)%list_elem_of_fmap. apply Hx, list_elem_of_fmap_2. by apply Hl'.
  - intros x Hf Hx. destruct (decide (x = en_id e0)) as [->|Hne].
    { rewrite Get_Delete_ne, Get_Set_ne by key_ne. by kv. }
    rewrite Get_Delete_ne, Get_Set_ne, Get_Delete_ne
      by (key_ne || (intros E%utxo_key_inj; congruence)).
    apply Hem; [done|]. intros (e & -> & He)%list_elem_of_fmap. apply Hx, list_elem_of_fmap_2. by apply Hl'.
  - intros a. destruct (decide (a = en_address e0)) as [->|Hne].
    + by kv.
    + rewrite Get_Delete_ne, Get_Set_ne, Get_Delete_ne
        by (key_ne || (intros E'%address_key_inj; congruence)).
      unfold l'. rewrite ids_at_remove. pose proof (Hli a) as Hla.
      assert (en_id e0 ∉ ids_at l a) as Hni.
      { intros (e & E & [Ha He]%list_elem_of_filter)%list_elem_of_fmap. destruct Hne.
        rewrite <- Ha. f_equal. by apply (NoDup_fmap_elem en_id l). }
      rewrite filter_all; [done|]. apply Forall_forall. by intros x Hx ->.
Qed.

Lemma store_step_represents d l op :
  represents d l ->
  match op with
  | OpAddUtxo _ txId i _ => 0 <= i /\ utxo_id txId i ∉ en_id <$> l
  | _ => True
  end ->
  represents (store_step d op) (spec_step l op).
Proof.
  intros R Hop. destruct op as [a txId i b|txId i|slot hash].
  - destruct Hop. by apply add_represents.
  - by apply remove_represents.
  - cbn [store_step spec_step]. unfold UpdateCursor, Update. cbn [fst].
    apply foreign_represents; [|done]. split; [|split]; by intros.
Qed.

Lemma store_run_represents ops d l :
  represents d l -> well_ordered l ops ->
  represents (foldl store_step d ops) (foldl spec_step l ops).
Proof.
  revert d l. induction ops as [|op ops IH]; intros d l R; [done|]. cbn [well_ordered foldl].
  intros [Hop Hops]. apply IH; [|done]. by apply store_step_represents.
Qed.

Lemma empty_represents d : (forall k, Get d k = None) -> represents d [].
Proof.
  intros Hd. split; try done; try (by intros ? ?%not_elem_of_nil); [constructor|..].
  intros a. by rewrite Hd.
Qed.

Lemma get_all_ok d l l' :
  represents d l -> (forall e, e ∈ l' -> e ∈ l) -> get_all (en_id <$> l') d = Ok (en_cbor <$> l').
Proof.
  intros R. induction l' as [|e l' IH]; intros Hl'; [done|]. cbn [fmap list_fmap get_all].
  unfold GetUtxoById. rewrite (rp_cbor _ _ R) by (apply Hl', list_elem_of_here).
  cbn [mbind result_bind]. by rewrite IH by (intros x Hx; apply Hl', list_elem_of_further, Hx).
Qed.

Lemma GetUtxos_represents d l address :
  represents d l ->
  GetUtxos address d =
  match filter (fun e => en_address e = address) l with
  | [] => Err ErrKeyNotFound
  | here => Ok (en_cbor <$> here)
  end.
Proof.
  intros R. unfold GetUtxos. pose proof (rp_list _ _ R address) as Hl.
  unfold ids_at in Hl. set (here := filter _ l) in *.
  assert (forall e, e ∈ here -> e ∈ l) as Hsub by (intros e; unfold here; rewrite list_elem_of_filter; tauto).
  destruct (Get d (address_key address)) as [v|].
  2:{ by apply fmap_nil_inv in Hl as ->. }
  subst v. destruct here as [|e here'] eqn:E.
  - cbn. unfold GetUtxoById. rewrite (rp_gone _ _ R); [done..|].
    intros (e & Ee & He)%list_elem_of_fmap. pose proof (proj1 (Forall_forall _ _) (rp_clean _ _ R) e He) as [Hn _].
    by rewrite <- Ee in Hn.
  - rewrite Split_Join; [by apply (get_all_ok d l) | done |].
    assert (Forall clean_id (en_id <$> (e :: here'))) as HF.
    { apply Forall_fmap, Forall_forall. intros x Hx.
      by apply (proj1 (Forall_forall _ _) (rp_clean _ _ R)), Hsub. }
    eapply Forall_impl; [exact HF | by intros ? (_ & ? & _)].
Qed.

(** Lookups by identifier. *)
Definition entry_of (l : list entry) (id : string) : option entry :=
  snd <$> list_find (fun e => en_id e = id) l.

Lemma lookup_represents d l id :
  represents d l -> clean_id id ->
  GetUtxoById id d = match entry_of l id with Some e => Ok (en_cbor e) | None => Err ErrKeyNotFound end /\
  GetUtxoAddress id d =
    match entry_of l id with Some e => Ok (en_address e) | None => Err ErrKeyNotFound end.
Proof.
  intros R (_ & _ & Hid). unfold GetUtxoById, GetUtxoAddress, entry_of.
  destruct (list_find (fun e => en_id e = id) l) as [[i e]|] eqn:E; cbn.
  - apply list_find_Some in E as (Hl & <- & _). apply list_elem_of_lookup_2 in Hl.
    by rewrite (rp_cbor _ _ R e Hl), (rp_address _ _ R e Hl).
  - apply list_find_None in E. assert (id ∉ en_id <$> l) as Hn.
    { intros (e & -> & He)%list_elem_of_fmap. by apply (proj1 (Forall_forall _ _) E e He). }
    by rewrite (rp_gone _ _ R), (rp_absent _ _ R).
Qed.

Lemma store_step_foreign k d op :
  foreign k -> k <> chainsyncCursorKey -> Get (store_step d op) k = Get d k.
Proof.
  intros (Hu & Ha & Hk) Hc. destruct op as [a txId i b|txId i|slot hash]; cbn [store_step].
  - unfold AddUtxo, Update. destruct (DecodeString txId); [|done].
    destruct (encode_utxo _ _ _); [|done]. cbn [fst].
    by rewrite !Get_Set_ne by (apply not_eq_sym; auto).
  - unfold RemoveUtxo, Update. destruct (Get d (utxo_address_key _)) as [v|]; [|done]. cbn [fst].
    destruct (Get _ (address_key v));
      by rewrite Get_Delete_ne, ?Get_Set_ne, Get_Delete_ne by (apply not_eq_sym; auto).
  - unfold UpdateCursor, Update. cbn [fst]. by rewrite Get_Set_ne by (by apply not_eq_sym).
Qed.

(** C32: the storage refines a list of unspent outputs. After any sequence of
    additions and removals (and cursor updates) from an empty database in which
    no stored output is added again, the outputs of an address are those added
    and not removed since, in order, or the key is not found when there are none;
    and each is found under its identifier, with its address. *)
Theorem store_refines_unspent_outputs d0 ops :
  (forall k, Get d0 k = None) -> well_ordered [] ops ->
  let d := foldl store_step d0 ops in
  let l := foldl spec_step [] ops in
  (forall address, GetUtxos address d =
     match filter (fun e => en_address e = address) l with
     | [] => Err ErrKeyNotFound
     | here => Ok (en_cbor <$> here)
     end) /\
  (forall e, e ∈ l -> GetUtxoById (en_id e) d = Ok (en_cbor e) /\
     GetUtxoAddress (en_id e) d = Ok (en_address e)) /\
  (forall id, id ∉ en_id <$> l -> GetUtxoAddress id d = Err ErrKeyNotFound).
Proof.
  intros Hd Hops d l.
  assert (represents d l) as R by (apply store_run_represents; [by apply empty_represents | done]).
  split; [|split].
  - intros address. by apply GetUtxos_represents.
  - intros e He. unfold GetUtxoById, GetUtxoAddress.
    by rewrite (rp_cbor _ _ R e He), (rp_address _ _ R e He).
  - intros id Hid. unfold GetUtxoAddress. by rewrite (rp_absent _ _ R id Hid).
Qed.

(** ** The cursor *)

(** The cursor that the operations leave behind. *)
Definition cursor_of (c : Z * string) (op : store_op) : Z * string :=
  match op with OpUpdateCursor slot hash => (slot, hash) | _ => c end.

Lemma FormatUint_free z : char_free comma (FormatUint z) = true.
Proof.
  unfold FormatUint, DecimalString.NilZero.string_of_uint.
  destruct (N.to_uint (Z.to_N z)) eqn:E; [done|..]; by apply char_free_digits.
Qed.

Lemma GetCursor_UpdateCursor slot hash d :
  is_u64 slot -> char_free comma hash = true ->
  GetCursor (UpdateCursor slot hash d).1 = Ok (slot, hash).
Proof.
  intros Hs Hh. unfold GetCursor, UpdateCursor, Update. cbn [fst]. rewrite Get_Set_eq.
  rewrite Split_sep by apply FormatUint_free. rewrite Split_free by done.
  by rewrite ParseUint_FormatUint.
Qed.

Lemma store_step_cursor op d :
  match op with
  | OpUpdateCursor slot hash => is_u64 slot /\ char_free comma hash = true
  | _ => True
  end ->
  GetCursor (store_step d op) =
  match op with OpUpdateCursor slot hash => Ok (slot, hash) | _ => GetCursor d end.
Proof.
  destruct op as [a txId i b|txId i|slot hash]; cbn [store_step]; intros Hop.
  - unfold AddUtxo, Update. destruct (DecodeString txId); [|done].
    destruct (encode_utxo _ _ _); [|done]. cbn [fst]. unfold GetCursor.
    by rewrite !Get_Set_ne by done.
  - unfold RemoveUtxo, Update. destruct (Get d (utxo_address_key _)) as [v|]; [|done]. cbn [fst].
    unfold GetCursor. destruct (Get _ (address_key v)); by rewrite Get_Delete_ne, ?Get_Set_ne, Get_Delete_ne by done.
  - destruct Hop. by apply GetCursor_UpdateCursor.
Qed.

(** A restart resumes where the last cursor update left the chain: whatever
    outputs were stored and removed in between, [GetCursor] reads back the slot
    and the block hash of the last update, and the origin when there was none. *)
Theorem cursor_is_last_update d0 ops :
  (forall k, Get d0 k = None) ->
  Forall (fun op => match op with
                    | OpUpdateCursor slot hash => is_u64 slot /\ char_free comma hash = true
                    | _ => True
                    end) ops ->
  GetCursor (foldl store_step d0 ops) = Ok (foldl cursor_of (0, "") ops).
Proof.
  intros Hd. assert (GetCursor d0 = Ok (0, "")) as Hc by (unfold GetCursor; by rewrite Hd).
  clear Hd. revert d0 Hc. generalize (0, ""). induction ops as [|op ops IH]; intros c d0 Hc HF; [done|].
  apply Forall_cons in HF as [Hop HF]. cbn [foldl]. apply IH; [|done].
  rewrite store_step_cursor by done. by destruct op.
Qed.

Lemma fingerprint_inj n ps n' ps' :
  char_free comma n = true -> char_free comma n' = true ->
  Forall (fun p => p <> "" /\ char_free comma p = true) ps ->
  Forall (fun p => p <> "" /\ char_free comma p = true) ps' ->
  fingerprint_of n ps = fingerprint_of n' ps' -> n = n' /\ ps = ps'.
Proof.
  intros Hn Hn' Hp Hp' E. unfold fingerprint_of in E. apply append_inj_l in E.
  change (n +:+ String comma ("profiles=" +:+ Join comma ps) = n' +:+ String comma ("profiles=" +:+ Join comma ps')) in E.
  apply append_sep_inj in E as [-> E]; [|done..]. apply append_inj_l in E. split; [done|].
  apply Forall_and in Hp as [Hne Hp], Hp' as [Hne' Hp'].
  destruct (decide (ps = [])) as [->|Hps]; [symmetry; by apply (Join_empty comma)|].
  destruct (decide (ps' = [])) as [->|Hps']; [by apply (Join_empty comma)|].
  rewrite <- (Split_Join comma ps), <- (Split_Join comma ps'), E by done. done.
Qed.

Lemma store_run_foreign ops k d :
  foreign k -> k <> chainsyncCursorKey -> Get (foldl store_step d ops) k = Get d k.
Proof.
  intros Hf Hc. revert d. induction ops as [|op ops IH]; intros d; [done|]. cbn [foldl].
  by rewrite IH, store_step_foreign.
Qed.

(** A database belongs to the configuration that first loaded it: whatever was stored
    since, it loads again exactly under the same network and the same profiles in the
    same order, and a load that is refused changes nothing. *)
Theorem database_keeps_its_configuration d ops n ps n' ps' :
  Get d fingerprintKey = None ->
  char_free comma n = true -> char_free comma n' = true ->
  Forall (fun p => p <> "" /\ char_free comma p = true) ps ->
  Forall (fun p => p <> "" /\ char_free comma p = true) ps' ->
  let stored := foldl store_step (compareFingerprint n ps d).1 ops in
  Load (Some stored) n' ps' =
    Some (stored, if bool_decide (n' = n /\ ps' = ps) then Ok tt else Err FingerprintMismatch).
Proof.
  intros Hd Hn Hn' Hp Hp' stored.
  assert (Get stored fingerprintKey = Some (fingerprint_of n ps)) as E.
  { unfold stored. rewrite store_run_foreign by done. unfold compareFingerprint, Update. rewrite Hd. apply Get_Set_eq. }
  unfold Load, compareFingerprint, Update. cbn [fmap option_fmap option_map]. rewrite E.
  case_bool_decide as H1; case_bool_decide as H2; cbn [negb]; try done.
  - destruct H2. symmetry in H1. by apply fingerprint_inj in H1 as [-> ->].
  - destruct H2 as [-> ->]. done.
Qed.
End Refinement.

(** ** A concrete database *)

Definition sample_encode (txId : list byte) (i : Z) (bytes : string) : option string :=
  Some (hex_encode txId +:+ "#" +:+ IntString i +:+ "=" +:+ bytes).
Definition sample_store_ops : list store_op :=
  [OpAddUtxo "addr1" "aa01" 0 "x"; OpAddUtxo "addr2" "aa01" 1 "y"; OpUpdateCursor 7 "beef";
   OpAddUtxo "addr1" "bb02" 0 "z"; OpRemoveUtxo "aa01" 0; OpRemoveUtxo "aa01" 1].
Definition empty_db : @db gmap_KV := (∅ : gmap string string).

Lemma store_refines_unspent_outputs_witness :
  GetUtxos "addr1" (foldl (store_step sample_encode) empty_db sample_store_ops) = Ok ["bb02#0=z"] /\
  GetUtxos "addr2" (foldl (store_step sample_encode) empty_db sample_store_ops) = Err ErrKeyNotFound.
Proof.
  destruct (store_refines_unspent_outputs sample_encode empty_db sample_store_ops) as (H & _ & _).
  - intros k. apply lookup_empty.
  - repeat split; try lia; apply (bool_decide_unpack _); vm_compute; exact I.
  - rewrite !H. split; vm_compute; reflexivity.
Defined.

Lemma cursor_is_last_update_witness :
  GetCursor (foldl (store_step sample_encode) empty_db sample_store_ops) = Ok (7, "beef").
Proof.
  apply (cursor_is_last_update sample_encode empty_db sample_store_ops).
  - intros k. apply lookup_empty.
  - repeat constructor; discriminate.
Defined.
