(* ===== verification/Indexer.v ===== *)
(** * Indexer: where the chain is followed from, and what an event does to the
    storage and the watches ([internal/indexer/indexer.go]).

    The pipeline that delivers events and the clock of the log timer are outside
    the model; the handler of an event is a step on the storage. *)
From S2P Require Import Prelude.
From S2P Require Import Text.
From S2P Require Import Watches.
From S2P Require Import KeyValue.
From S2P Require Import UtxoStore.

(** ** The intercept point *)

Record Profile := mkProfile {
  pr_Name : string;
  pr_InterceptSlot : Z;
  pr_InterceptHash : string;
}.

(** [config.GetProfiles] ranges over the profiles of the network. *)
Definition GetProfiles `{RangeOrder} (networkProfiles : gmap string Profile) (enabled : list string)
  : list Profile :=
  (filter (fun e => e.1 ∈ enabled) (range (map_to_list networkProfiles))).*2.

Definition intercept_step (acc : Z * string) (profile : Profile) : Z * string :=
  let '(interceptSlot, _) := acc in
  if (interceptSlot =? 0) || (pr_InterceptSlot profile <? interceptSlot)
  then (pr_InterceptSlot profile, pr_InterceptHash profile)
  else acc.

(** The point from which [Start] follows the chain: the stored cursor, and
    without one the earliest point of the enabled profiles. [None] is an error. *)
Definition start_point (cursor : result store_error (Z * string)) (profiles : list Profile)
  : option (Z * option (list byte)) :=
  match cursor with
  | Err _ => None
  | Ok (cursorSlotNumber, cursorBlockHash) =>
      if 0 <? cursorSlotNumber then
        match DecodeString cursorBlockHash with
        | None => None
        | Some hashBytes => Some (cursorSlotNumber, hashBytes)
        end
      else
        let '(interceptSlot, interceptHash) := foldl intercept_step (0, "") profiles in
        if interceptSlot =? 0 then None
        else
          match DecodeString interceptHash with
          | None => None
          | Some hashBytes => Some (interceptSlot, hashBytes)
          end
  end.

Lemma intercept_fold slot hash profiles :
  0 < slot -> Forall (fun p => 0 < pr_InterceptSlot p) profiles ->
  exists s h, foldl intercept_step (slot, hash) profiles = (s, h) /\ 0 < s <= slot /\
    Forall (fun p => s <= pr_InterceptSlot p) profiles /\
    ((s, h) = (slot, hash) \/
     exists p, p ∈ profiles /\ (s, h) = (pr_InterceptSlot p, pr_InterceptHash p)).
Proof.
  intros Hs HF. revert slot hash Hs.
  induction HF as [|p profiles Hp HF IH]; intros slot hash Hs.
  { exists slot, hash. repeat split; try lia; [constructor | by left]. }
  cbn [foldl]. unfold intercept_step at 2. rewrite (proj2 (Z.eqb_neq slot 0)) by lia. cbn [orb].
  destruct (Z.ltb_spec (pr_InterceptSlot p) slot) as [Hlt|Hge].
  - destruct (IH (pr_InterceptSlot p) (pr_InterceptHash p) Hp) as (s & h & -> & Hb & Hall & Hsh).
    exists s, h. split; [done|]. split; [lia|]. split; [constructor; [lia | done]|]. right.
    destruct Hsh as [E|(q & Hq & E)]; [exists p | exists q]; set_solver.
  - destruct (IH slot hash Hs) as (s & h & -> & Hb & Hall & Hsh).
    exists s, h. split; [done|]. split; [lia|]. split; [constructor; [lia | done]|].
    destruct Hsh as [E|(q & Hq & E)]; [by left | right; exists q; set_solver].
Qed.

(** Without a cursor the chain is followed from the earliest slot of the profiles, at
    the block of one of them. *)
Lemma start_point_first ps cursor hash0 slot hash :
  Forall (fun p => 0 < pr_InterceptSlot p) ps -> cursor <= 0 ->
  start_point (Ok (cursor, hash0)) ps = Some (slot, hash) ->
  (exists p, p ∈ ps /\ slot = pr_InterceptSlot p /\ DecodeString (pr_InterceptHash p) = Some hash) /\
  Forall (fun p => slot <= pr_InterceptSlot p) ps.
Proof.
  intros HF Hc. unfold start_point. rewrite (proj2 (Z.ltb_ge 0 cursor)) by done.
  destruct ps as [|p0 ps']; [done|].
  cbn [foldl]. unfold intercept_step at 2. cbn [Z.eqb orb].
  apply Forall_cons in HF as [Hp0 HF].
  destruct (intercept_fold _ (pr_InterceptHash p0) _ Hp0 HF) as (s & h & -> & Hb & Hall & Hsh).
  rewrite (proj2 (Z.eqb_neq s 0)) by lia.
  destruct (DecodeString h) as [bs|] eqn:Hh; [|done]. intros [= <- <-].
  split; [|constructor; [lia|done]].
  destruct Hsh as [[= -> ->]|(q & Hq & [= -> ->])]; [exists p0 | exists q]; set_solver.
Qed.

(** So it is for the enabled profiles of a network, in whatever order they are visited. *)
Lemma start_point_earliest `{RangeOrder} networkProfiles enabled slot hash :
  (forall k p, networkProfiles !! k = Some p -> 0 < pr_InterceptSlot p) ->
  start_point (Ok (0, "")) (GetProfiles networkProfiles enabled) = Some (slot, hash) ->
  (exists k p, networkProfiles !! k = Some p /\ k ∈ enabled /\ slot = pr_InterceptSlot p /\
     DecodeString (pr_InterceptHash p) = Some hash) /\
  forall k p, networkProfiles !! k = Some p -> k ∈ enabled -> slot <= pr_InterceptSlot p.
Proof.
  intros Hpos. set (ps := GetProfiles networkProfiles enabled).
  assert (forall p, p ∈ ps <-> exists k, networkProfiles !! k = Some p /\ k ∈ enabled) as Hin.
  { intros p. unfold ps, GetProfiles. rewrite list_elem_of_fmap. setoid_rewrite list_elem_of_filter.
    setoid_rewrite range_perm. setoid_rewrite elem_of_map_to_list'. split.
    - intros ([k q] & -> & Hk & Hq). by exists k.
    - intros (k & Hk & He). by exists (k, p). }
  assert (Forall (fun p => 0 < pr_InterceptSlot p) ps) as HF.
  { apply Forall_forall. intros p (k & Hk & _)%Hin. by eapply Hpos. }
  intros Hst. destruct (start_point_first _ _ _ _ _ HF (Z.le_refl 0) Hst) as [(p & Hp & -> & Hh) Hall].
  split.
  - apply Hin in Hp as (k & Hk & He). by exists k, p.
  - intros k p' Hk He. rewrite Forall_forall in Hall. apply Hall, Hin. by exists k.
Qed.

(** ** The chain-sync status *)

Record Status := mkStatus {
  cursorSlot : Z;
  cursorHash : string;
  tipSlot : Z;
  tipHash : string;
  tipReached : bool;
  syncLogDone : bool;
}.

Record ChainSyncStatus := mkChainSyncStatus {
  st_SlotNumber : Z;
  st_BlockHash : string;
  st_TipSlotNumber : Z;
  st_TipBlockHash : string;
  st_TipReached : bool;
}.

Definition applyStatus (status : ChainSyncStatus) (i : Status) : Status :=
  let reached := negb (tipReached i) && st_TipReached status in
  mkStatus (st_SlotNumber status) (st_BlockHash status) (st_TipSlotNumber status)
    (st_TipBlockHash status) (tipReached i || reached) (syncLogDone i || reached).

(** The cursor is stored with every status; a failed write is only logged. *)
Definition updateStatus `{KV} (status : ChainSyncStatus) (i : Status) (d : db) : Status * db :=
  (applyStatus status i, (UpdateCursor (st_SlotNumber status) (st_BlockHash status) d).1).

(** ** Events *)

(** What the handler reads of an event beyond what the watches read: the outputs
    that the transaction produces, with their address, index and CBOR. *)
Record IndexEvent := mkIndexEvent {
  ie_event : Event;
  ie_produced : list (string * Z * string);
}.

Inductive index_error :=
| StoreFailed (e : store_error)
| ContextPanic.  (** the unchecked assertion on the type of the context *)

Section Handler.
Context `{KV} (encode_utxo : list byte -> Z -> string -> option string).
Context {C : Type}.

Fixpoint remove_consumed (consumed : list (string * Z)) (d : db) : db * result index_error unit :=
  match consumed with
  | [] => (d, Ok tt)
  | (txId, index) :: rest =>
      match RemoveUtxo txId index d with
      | (d', Ok _) => remove_consumed rest d'
      | (d', Err e) => (d', Err (StoreFailed e))
      end
  end.

Fixpoint store_produced (wallet txHash : string) (produced : list (string * Z * string)) (d : db)
  : db * result index_error unit :=
  match produced with
  | [] => (d, Ok tt)
  | (address, index, cbor) :: rest =>
      if bool_decide (address = wallet) then
        match AddUtxo encode_utxo address txHash index cbor d with
        | (d', Ok _) => store_produced wallet txHash rest d'
        | (d', Err e) => (d', Err (StoreFailed e))
        end
      else store_produced wallet txHash rest d
  end.

(** [handleEvent]: the callbacks fired, the storage and the error. *)
Definition handleEvent (wallet : string) (m : WatchManager C) (evt : IndexEvent) (d : db)
  : list (string * C) * db * result index_error unit :=
  let fired := CheckEvent m (ie_event evt) in
  match ev_Payload (ie_event evt) with
  | None | Some None => (fired, d, Ok tt)
  | Some (Some consumed) =>
      match ev_TransactionHash (ie_event evt) with
      | None => (fired, d, Err ContextPanic)
      | Some txHash =>
          match remove_consumed consumed d with
          | (d, Err e) => (fired, d, Err e)
          | (d, Ok _) =>
              let '(d, r) := store_produced wallet txHash (ie_produced evt) d in (fired, d, r)
          end
      end
  end.

(** ** What an event does to the unspent outputs of the wallet *)

(** The operations of a transaction, in order. *)
Definition produced_ops (wallet txHash : string) (produced : list (string * Z * string)) : list store_op :=
  omap (fun '(address, index, cbor) =>
          if bool_decide (address = wallet) then Some (OpAddUtxo address txHash index cbor) else None)
    produced.
Definition event_ops (wallet txHash : string) (consumed : list (string * Z))
    (produced : list (string * Z * string)) : list store_op :=
  ((fun '(txId, index) => OpRemoveUtxo txId index) <$> consumed) ++ produced_ops wallet txHash produced.

Lemma remove_consumed_steps consumed d :
  remove_consumed consumed d =
  (foldl (store_step encode_utxo) d ((fun '(txId, index) => OpRemoveUtxo txId index) <$> consumed), Ok tt).
Proof.
  revert d. induction consumed as [|[txId i] rest IH]; intros d; [done|].
  cbn [remove_consumed fmap list_fmap foldl store_step].
  assert ((RemoveUtxo txId i d).2 = Ok tt) as Hok.
  { unfold RemoveUtxo, Update. by destruct (Get d _). }
  destruct (RemoveUtxo txId i d) as [d' r]. cbn [snd fst] in *. subst r. apply IH.
Qed.

(** The outputs that can be stored: those of the wallet have an encoding. *)
Definition storable (wallet txHash : string) (produced : list (string * Z * string)) : Prop :=
  Forall (fun '(address, index, cbor) => address = wallet ->
    exists bs c, DecodeString txHash = Some bs /\ encode_utxo (contents bs) index cbor = Some c) produced.

Lemma store_produced_steps wallet txHash produced d :
  storable wallet txHash produced ->
  store_produced wallet txHash produced d =
  (foldl (store_step encode_utxo) d (produced_ops wallet txHash produced), Ok tt).
Proof.
  intros HF. revert d. induction HF as [|[[a i] b] rest Hs HF IH]; intros d; [done|].
  unfold produced_ops. cbn [store_produced omap list_omap]. fold (produced_ops wallet txHash rest).
  case_bool_decide as E; [|apply IH]. destruct (Hs E) as (bs & c & Hbs & Hc).
  cbn [foldl store_step].
  assert ((AddUtxo encode_utxo a txHash i b d).2 = Ok tt) as Hok.
  { unfold AddUtxo, Update. by rewrite Hbs, Hc. }
  destruct (AddUtxo encode_utxo a txHash i b d) as [d' r]. cbn [snd fst] in *. subst r. apply IH.
Qed.

(** A transaction of the chain, and the unspent outputs that a sequence of them
    leaves the wallet with. *)
Record chain_tx := mkChainTx {
  ct_hash : string;
  ct_consumed : list (string * Z);
  ct_produced : list (string * Z * string);
}.

Definition tx_event (t : chain_tx) : IndexEvent :=
  mkIndexEvent (mkEvent (Some (ct_hash t)) (Some (Some (ct_consumed t)))) (ct_produced t).
Definition tx_ops (wallet : string) (t : chain_tx) : list store_op :=
  event_ops wallet (ct_hash t) (ct_consumed t) (ct_produced t).

Definition index_txs (wallet : string) (m : WatchManager C) (txs : list chain_tx) (d : db) : db :=
  foldl (fun d t => (handleEvent wallet m (tx_event t) d).1.2) d txs.

Lemma handleEvent_steps wallet m t d :
  storable wallet (ct_hash t) (ct_produced t) ->
  handleEvent wallet m (tx_event t) d =
  (CheckEvent m (ie_event (tx_event t)), foldl (store_step encode_utxo) d (tx_ops wallet t), Ok tt).
Proof.
  intros Hs. unfold handleEvent, tx_event, tx_ops, event_ops.
  cbn [ie_event ie_produced ev_Payload ev_TransactionHash].
  by rewrite remove_consumed_steps, store_produced_steps, foldl_app.
Qed.

(** C33: following the chain keeps the wallet. After the events of any sequence of
    transactions from an empty database, no event fails and the outputs stored
    for the wallet are exactly those that a transaction produced for it and none
    consumed since, in order; an event also fires the watches that it matches. *)
Theorem indexer_tracks_wallet wallet m txs d0 :
  (forall k, Get d0 k = None) ->
  Forall (fun t => storable wallet (ct_hash t) (ct_produced t)) txs ->
  well_ordered encode_utxo [] (txs ≫= tx_ops wallet) ->
  let unspent := foldl (spec_step encode_utxo) [] (txs ≫= tx_ops wallet) in
  GetUtxos wallet (index_txs wallet m txs d0) =
    match filter (fun e => en_address e = wallet) unspent with
    | [] => Err ErrKeyNotFound
    | here => Ok (en_cbor <$> here)
    end /\
  forall t d, t ∈ txs -> (handleEvent wallet m (tx_event t) d).2 = Ok tt /\
    (handleEvent wallet m (tx_event t) d).1.1 = CheckEvent m (ie_event (tx_event t)).
Proof.
  intros Hd HF Hops unspent. split.
  - assert (index_txs wallet m txs d0 = foldl (store_step encode_utxo) d0 (txs ≫= tx_ops wallet)) as ->.
    { clear Hops unspent Hd. unfold index_txs. revert d0.
      induction HF as [|t txs Ht HF IH]; intros d0; [done|]. cbn [foldl mbind list_bind].
      rewrite handleEvent_steps by done. cbn [fst snd]. by rewrite IH, foldl_app. }
    apply GetUtxos_represents.
    by apply store_run_represents; [apply empty_represents|].
  - intros t d Ht. pose proof (proj1 (Forall_forall _ _) HF t Ht) as Hs.
    by rewrite handleEvent_steps.
Qed.
End Handler.

(** ** A concrete chain *)

Definition sample_txs : list chain_tx :=
  [mkChainTx "aa01" [("0f", 3)] [("wallet", 0, "x"); ("other", 1, "y")];
   mkChainTx "bb02" [] [("wallet", 0, "z")];
   mkChainTx "cc03" [("aa01", 0)] [("other", 0, "w")]].
Definition no_watches : WatchManager nat := NewWatchManager.

Lemma indexer_tracks_wallet_witness :
  GetUtxos "wallet" (index_txs sample_encode "wallet" no_watches sample_txs empty_db) = Ok ["bb02#0=z"].
Proof.
  destruct (indexer_tracks_wallet sample_encode "wallet" no_watches sample_txs empty_db) as [H _].
  - intros k. apply lookup_empty.
  - repeat constructor; intros _; by repeat eexists.
  - repeat split; try lia; apply (bool_decide_unpack _); vm_compute; exact I.
  - rewrite H. vm_compute. reflexivity.
Defined.

(** A rollback is an event without a transaction, and the handler does nothing
    with it: what the abandoned blocks produced stays and what they consumed stays
    gone. When the transaction comes again on the new fork, its output is listed a
    second time. *)
Theorem replayed_output_is_listed_twice :
  let replayed := mkChainTx "aa01" [] [("wallet", 0, "x")] in
  let rollback := mkIndexEvent (mkEvent None None) [] in
  let d := index_txs sample_encode "wallet" no_watches [replayed] empty_db in
  (handleEvent sample_encode "wallet" no_watches rollback d).1.2 = d /\
  GetUtxos "wallet" (index_txs sample_encode "wallet" no_watches [replayed] d) =
    Ok ["aa01#0=x"; "aa01#0=x"].
Proof. vm_compute. done. Qed.
