(* ===== verification/SyncLog.v ===== *)
(** * SyncLog: the messages about the catch-up ([internal/indexer/indexer.go]).

    A timer calls [syncStatusLog] every thirty seconds until the tip is reached or
    the indexer is stopped. The callback takes the lock twice, and prints in between:
    a [tick] is one step of the timer, of a callback, of the chain synchronisation
    or of [Stop], and [steps] any interleaving. *)
From S2P Require Import Prelude.
From S2P Require Import Text.
From S2P Require Import UtxoStore.
From S2P Require Import Indexer.

Definition syncStatusLogInterval : duration := 30 * 1000000000.

(** What a message says: the cursor and the slot of the tip *)
Definition progress : Type := Z * string * Z.

Record SyncLog := mkSyncLog {
  sl_status : Status;
  (** [syncLogTimer] is set and has not fired *)
  sl_armed : bool;
  (** callbacks before the first section of their lock, *)
  sl_fired : nat;
  (** between the sections, with what they will print, *)
  sl_printing : list progress;
  (** and before the second section *)
  sl_again : nat;
  sl_printed : list progress;
}.

Definition set_armed (b : bool) (s : SyncLog) : SyncLog :=
  mkSyncLog (sl_status s) b (sl_fired s) (sl_printing s) (sl_again s) (sl_printed s).
Definition set_status (i : Status) (s : SyncLog) : SyncLog :=
  mkSyncLog i (sl_armed s) (sl_fired s) (sl_printing s) (sl_again s) (sl_printed s).
Definition done (s : SyncLog) : bool := syncLogDone (sl_status s).

Definition log_done (i : Status) : Status :=
  mkStatus (cursorSlot i) (cursorHash i) (tipSlot i) (tipHash i) (tipReached i) true.

(** A stopped timer does not fire; a callback that has begun goes on. *)
Definition stopSyncLogTimerLocked (s : SyncLog) : SyncLog :=
  set_armed false (set_status (log_done (sl_status s)) s).

(** [Stop], the watches left out *)
Definition Stop (s : SyncLog) : SyncLog := stopSyncLogTimerLocked s.

Definition scheduleSyncStatusLogLocked (s : SyncLog) : SyncLog := if done s then s else set_armed true s.
Definition scheduleSyncStatusLog (s : SyncLog) : SyncLog := scheduleSyncStatusLogLocked s.

(** [applyStatus] with its effect on the timer *)
Definition apply_status (status : ChainSyncStatus) (s : SyncLog) : SyncLog :=
  let s' := if negb (tipReached (sl_status s)) && st_TipReached status then stopSyncLogTimerLocked s else s in
  set_status (applyStatus status (sl_status s)) s'.

(** The first section of [syncStatusLog], *)
Definition snapshot (s : SyncLog) : SyncLog :=
  let i := sl_status s in
  if done s then mkSyncLog i (sl_armed s) (pred (sl_fired s)) (sl_printing s) (sl_again s) (sl_printed s)
  else mkSyncLog i (sl_armed s) (pred (sl_fired s)) ((cursorSlot i, cursorHash i, tipSlot i) :: sl_printing s)
         (sl_again s) (sl_printed s).
(** the message, *)
Definition print (k : nat) (m : progress) (s : SyncLog) : SyncLog :=
  mkSyncLog (sl_status s) (sl_armed s) (sl_fired s) (delete k (sl_printing s)) (S (sl_again s)) (sl_printed s ++ [m]).
(** and the second section *)
Definition reschedule (s : SyncLog) : SyncLog :=
  scheduleSyncStatusLog
    (mkSyncLog (sl_status s) (sl_armed s) (sl_fired s) (sl_printing s) (pred (sl_again s)) (sl_printed s)).

Inductive tick :=
| Fires
| Snapshots
| Prints (k : nat)
| Reschedules
| Receives (status : ChainSyncStatus)
| Stops.

Definition tick_step (e : tick) (s : SyncLog) : option SyncLog :=
  match e with
  | Fires =>
      if sl_armed s
      then Some (mkSyncLog (sl_status s) false (S (sl_fired s)) (sl_printing s) (sl_again s) (sl_printed s))
      else None
  | Snapshots => if (0 <? sl_fired s)%nat then Some (snapshot s) else None
  | Prints k => m ← sl_printing s !! k; Some (print k m s)
  | Reschedules => if (0 <? sl_again s)%nat then Some (reschedule s) else None
  | Receives status => Some (apply_status status s)
  | Stops => Some (Stop s)
  end.

Fixpoint steps (es : list tick) (s : SyncLog) : option SyncLog :=
  match es with
  | [] => Some s
  | e :: es' => s' ← tick_step e s; steps es' s'
  end.

(** The indexer at the end of [Start] *)
Definition started (i : Status) : SyncLog := scheduleSyncStatusLog (mkSyncLog i false 0 [] 0 []).

(** ** One message at a time *)

(** What keeps the messages going: the timer or one callback *)
Definition pending (s : SyncLog) : nat :=
  (if sl_armed s then 1 else 0) + sl_fired s + length (sl_printing s) + sl_again s.

(** It is never more than one, and one until the end. *)
Definition single (s : SyncLog) : Prop :=
  (pending s <= 1)%nat /\ (done s = false -> pending s = 1%nat) /\ (done s = true -> sl_armed s = false).

Lemma apply_done status s :
  done (apply_status status s) = done s || (negb (tipReached (sl_status s)) && st_TipReached status) /\
  sl_armed (apply_status status s) = sl_armed s && negb (negb (tipReached (sl_status s)) && st_TipReached status).
Proof. unfold apply_status, done, applyStatus. destruct s as [[? ? ? ? [] []] []]; cbn; by destruct (st_TipReached status). Qed.

Lemma length_delete_some {A} (l : list A) k x : l !! k = Some x -> length (delete k l) = (length l - 1)%nat.
Proof. intros H. by rewrite length_delete by eauto. Qed.

Lemma tick_single e s s' : tick_step e s = Some s' -> single s -> single s'.
Proof.
  unfold single, pending. destruct e as [| |k| |status|]; cbn; intros E (H1 & H2 & H3).
  - destruct (sl_armed s) eqn:Ea; [|easy]. injection E as <-. unfold done in *. cbn. split_and!; [lia..|easy].
  - destruct (sl_fired s) as [|n] eqn:E0; [easy|]. injection E as <-. unfold snapshot.
    destruct (done s) eqn:Ed; unfold done in *; cbn; rewrite ?Ed, ?E0; cbn; (split_and!; [lia| |easy]); [easy|lia].
  - destruct (sl_printing s !! k) as [m|] eqn:Ek; [|easy]. injection E as <-. unfold done, print in *. cbn.
    rewrite (length_delete_some _ _ _ Ek). apply lookup_lt_Some in Ek. split_and!; [lia..|easy].
  - destruct (sl_again s) as [|n] eqn:E0; [easy|]. injection E as <-.
    unfold reschedule, scheduleSyncStatusLog, scheduleSyncStatusLogLocked. unfold done in *; cbn.
    rewrite E0. destruct (syncLogDone (sl_status s)) eqn:Ed; cbn; rewrite ?Ed; cbn; (split_and!; [|try easy..]).
    + rewrite H3 by easy. lia.
    + destruct (sl_armed s); lia.
    + destruct (sl_armed s); lia.
  - injection E as <-. destruct (apply_done status s) as [-> ->].
    assert (sl_fired (apply_status status s) = sl_fired s /\ sl_printing (apply_status status s) = sl_printing s /\
      sl_again (apply_status status s) = sl_again s) as (-> & -> & ->) by (unfold apply_status; by destruct (negb _ && _)).
    destruct (negb _ && _); rewrite ?orb_true_r, ?orb_false_r, ?andb_true_r, ?andb_false_r; [|easy].
    split_and!; [|easy|easy]. destruct (sl_armed s); lia.
  - injection E as <-. unfold done in *. cbn. split_and!; [|easy|easy]. destruct (sl_armed s); lia.
Qed.

(** Once logging is stopped it stays so: no timer is armed, no message is prepared,
    and every step of a callback brings it closer to its end. *)
Definition rest (s : SyncLog) : nat := 3 * sl_fired s + 2 * length (sl_printing s) + sl_again s.

Lemma tick_done e s s' :
  tick_step e s = Some s' -> done s = true -> sl_armed s = false ->
  done s' = true /\ sl_armed s' = false /\
  (exists l, sl_printed s' = sl_printed s ++ l /\ sl_printing s ≡ₚ l ++ sl_printing s') /\
  match e with Receives _ | Stops => rest s' = rest s | _ => (rest s' < rest s)%nat end.
Proof.
  unfold rest. intros E Hd Ha. destruct e as [| |k| |status|]; cbn in E.
  - by rewrite Ha in E.
  - destruct (sl_fired s) as [|n] eqn:E0; [easy|]. injection E as <-. unfold snapshot. rewrite Hd, E0. cbn.
    split_and!; [easy|easy| |lia]. exists []. by rewrite app_nil_r.
  - destruct (sl_printing s !! k) as [m|] eqn:Ek; [|easy]. injection E as <-. cbn.
    rewrite (length_delete_some _ _ _ Ek). pose proof (lookup_lt_Some _ _ _ Ek).
    split_and!; [easy|easy| |lia]. exists [m]. split; [easy|]. exact (delete_Permutation _ _ _ Ek).
  - destruct (sl_again s) as [|n] eqn:E0; [easy|]. injection E as <-.
    unfold reschedule, scheduleSyncStatusLog, scheduleSyncStatusLogLocked. unfold done in *; cbn. rewrite Hd, E0. cbn.
    split_and!; [easy|easy| |lia]. exists []. by rewrite app_nil_r.
  - injection E as <-. destruct (apply_done status s) as [-> ->]. rewrite Hd, Ha.
    assert (sl_fired (apply_status status s) = sl_fired s /\ sl_printing (apply_status status s) = sl_printing s /\
      sl_again (apply_status status s) = sl_again s /\ sl_printed (apply_status status s) = sl_printed s)
      as (-> & -> & -> & ->) by (unfold apply_status; by destruct (negb _ && _)).
    split_and!; try easy. exists []. by rewrite app_nil_r.
  - injection E as <-. cbn. split_and!; try easy. exists []. by rewrite app_nil_r.
Qed.

Lemma steps_single es s s' : steps es s = Some s' -> single s -> single s'.
Proof.
  revert s. induction es as [|e es IH]; cbn; intros s E; [by injection E as <-|].
  destruct (tick_step e s) as [s1|] eqn:E1; [|easy]. intros H. apply (IH s1 E). by eapply tick_single.
Qed.

Lemma steps_done es s s' :
  steps es s = Some s' -> done s = true -> sl_armed s = false ->
  done s' = true /\ sl_armed s' = false /\
  exists l, sl_printed s' = sl_printed s ++ l /\ sl_printing s ≡ₚ l ++ sl_printing s'.
Proof.
  revert s. induction es as [|e es IH]; cbn; intros s E Hd Ha.
  - injection E as <-. split_and!; [easy|easy|]. exists []. by rewrite app_nil_r.
  - destruct (tick_step e s) as [s1|] eqn:E1; [|easy].
    destruct (tick_done _ _ _ E1 Hd Ha) as (Hd1 & Ha1 & (l1 & Hl1 & Hp1) & _).
    destruct (IH s1 E Hd1 Ha1) as (Hd' & Ha' & l & Hl & Hp). split_and!; [easy|easy|].
    exists (l1 ++ l). rewrite Hl, Hl1, Hp1, Hp. by rewrite !app_assoc.
Qed.

Lemma started_single i : syncLogDone i = false -> single (started i).
Proof. intros H. unfold single, pending, started, scheduleSyncStatusLog, scheduleSyncStatusLogLocked, done. cbn. rewrite H. cbn. by rewrite H. Qed.

(** The catch-up is reported by one callback at a time, and without end until the tip is
    reached or the indexer is stopped. From then on at most one message is printed, the
    one that a callback had already prepared, and nothing is scheduled. *)
Theorem catch_up_messages_stop i es s es' s' :
  syncLogDone i = false -> steps es (started i) = Some s -> steps es' s = Some s' ->
  (done s = false -> pending s = 1%nat) /\
  (done s = true -> sl_armed s' = false /\
     exists l, sl_printed s' = sl_printed s ++ l /\ (length l <= length (sl_printing s) <= 1)%nat).
Proof.
  intros Hi E E'. destruct (steps_single _ _ _ E (started_single i Hi)) as (H1 & H2 & H3). split; [easy|].
  intros Hd. destruct (steps_done _ _ _ E' Hd (H3 Hd)) as (_ & Ha & l & Hl & Hp). split; [easy|].
  exists l. split; [easy|]. rewrite Hp, length_app. unfold pending in H1. rewrite Hp, length_app in H1. lia.
Qed.

(** A stopped indexer still prints what a callback had prepared. *)
Example stale_message :
  sl_printed <$> steps [Fires; Receives (mkChainSyncStatus 5 "aa" 9 "bb" false); Snapshots; Stops; Prints 0; Reschedules]
    (started (mkStatus 0 "" 0 "" false false)) = Some [(5, "aa", 9)].
Proof. reflexivity. Qed.
