(* ===== verification/SpectrumDatum.v ===== *)
(** * SpectrumDatum: the datums of the Spectrum contracts
    ([internal/spectrum/models.go]): orders to swap, deposit and redeem, and the
    configuration of a pool, with their decoders and encoders.

    The decoders check the number of fields and their types; the tag of the
    constructor is not checked, except for the optional staking key. *)
From S2P Require Import Prelude.
From S2P Require Import Text.
From S2P Require Import Common.
From S2P Require Import Cbor.
From S2P Require Import Spectrum.

Record DepositConfig := mkDepositConfig {
  dc_PoolId : AssetClass;
  dc_X : AssetClass;
  dc_Y : AssetClass;
  dc_Lq : AssetClass;
  dc_ExFee : Z;
  dc_RewardPkh : option (list byte);
  dc_StakePkh : option (list byte);
  dc_CollateralAda : Z;
}.

Record RedeemConfig := mkRedeemConfig {
  rc_PoolId : AssetClass;
  rc_X : AssetClass;
  rc_Y : AssetClass;
  rc_Lq : AssetClass;
  rc_ExFee : Z;
  rc_RewardPkh : option (list byte);
  rc_StakePkh : option (list byte);
}.

(** The message that a pool datum was decoded from is kept with it. *)
Record PoolConfig `{C : Cbor} := mkPoolConfig {
  pc_Nft : AssetClass;
  pc_X : AssetClass;
  pc_Y : AssetClass;
  pc_Lq : AssetClass;
  pc_FeeNum : Z;
  pc_AdminPolicy : list (option (list byte));
  pc_LqBound : Z;
  pc_Cbor : raw;
}.
#[global] Arguments PoolConfig C : clear implicits.
#[global] Arguments mkPoolConfig {C}.

(** ** Decoding *)
Section Decode.
Context `{C : Cbor, N : !CborNumbers C}.

Definition AssetClass_UnmarshalCBOR (d : raw) : option AssetClass :=
  fields ← untagged_struct d 2;
  match fields with
  | [f0; f1] =>
      policyId ← decode_bytes f0;
      name ← decode_bytes f1;
      Some (mkAssetClass policyId name)
  | _ => None
  end.

(** What is not a constructor, or has another tag, leaves the key empty without an
    error. *)
Definition WrappedPkh_UnmarshalCBOR (d : raw) : option (option (list byte)) :=
  match decode_constructor d with
  | None => Some None
  | Some (tag, body) =>
      if negb (tag =? 0) then Some None
      else
        fields ← struct_fields body 1;
        match fields with [f0] => decode_bytes f0 | _ => None end
  end.

Definition SwapConfig_UnmarshalCBOR (d : raw) : option SwapConfig :=
  fields ← untagged_struct d 10;
  match fields with
  | [f0; f1; f2; f3; f4; f5; f6; f7; f8; f9] =>
      base ← AssetClass_UnmarshalCBOR f0;
      quote ← AssetClass_UnmarshalCBOR f1;
      poolId ← AssetClass_UnmarshalCBOR f2;
      feeNum ← decode_uint f3;
      feePerTokenNum ← decode_bigint f4;
      feePerTokenDen ← decode_bigint f5;
      rewardPkh ← decode_bytes f6;
      stakePkh ← WrappedPkh_UnmarshalCBOR f7;
      baseAmount ← decode_uint f8;
      minQuoteAmount ← decode_uint f9;
      Some (mkSwapConfig base quote poolId feeNum feePerTokenNum feePerTokenDen rewardPkh stakePkh
              baseAmount minQuoteAmount)
  | _ => None
  end.

Definition DepositConfig_UnmarshalCBOR (d : raw) : option DepositConfig :=
  fields ← untagged_struct d 8;
  match fields with
  | [f0; f1; f2; f3; f4; f5; f6; f7] =>
      poolId ← AssetClass_UnmarshalCBOR f0;
      x ← AssetClass_UnmarshalCBOR f1;
      y ← AssetClass_UnmarshalCBOR f2;
      lq ← AssetClass_UnmarshalCBOR f3;
      exFee ← decode_uint f4;
      rewardPkh ← decode_bytes f5;
      stakePkh ← WrappedPkh_UnmarshalCBOR f6;
      collateralAda ← decode_uint f7;
      Some (mkDepositConfig poolId x y lq exFee rewardPkh stakePkh collateralAda)
  | _ => None
  end.

Definition RedeemConfig_UnmarshalCBOR (d : raw) : option RedeemConfig :=
  fields ← untagged_struct d 7;
  match fields with
  | [f0; f1; f2; f3; f4; f5; f6] =>
      poolId ← AssetClass_UnmarshalCBOR f0;
      x ← AssetClass_UnmarshalCBOR f1;
      y ← AssetClass_UnmarshalCBOR f2;
      lq ← AssetClass_UnmarshalCBOR f3;
      exFee ← decode_uint f4;
      rewardPkh ← decode_bytes f5;
      stakePkh ← WrappedPkh_UnmarshalCBOR f6;
      Some (mkRedeemConfig poolId x y lq exFee rewardPkh stakePkh)
  | _ => None
  end.

Definition PoolConfig_UnmarshalCBOR (d : raw) : option (PoolConfig C) :=
  fields ← untagged_struct d 7;
  match fields with
  | [f0; f1; f2; f3; f4; f5; f6] =>
      nft ← AssetClass_UnmarshalCBOR f0;
      x ← AssetClass_UnmarshalCBOR f1;
      y ← AssetClass_UnmarshalCBOR f2;
      lq ← AssetClass_UnmarshalCBOR f3;
      feeNum ← decode_uint f4;
      adminPolicy ← decode_bytes_list f5;
      lqBound ← decode_uint f6;
      Some (mkPoolConfig nft x y lq feeNum adminPolicy lqBound d)
  | _ => None
  end.
End Decode.

(** ** Encoding *)
Section Encode.
Context `{C : Cbor, N : !CborNumbers C, S : !CborSyntax C, W : !CborWriter C}.

Definition AssetClass_MarshalCBOR (a : AssetClass) : raw :=
  constr 0 [bytes_of (PolicyId a); bytes_of (Name a)].

Definition WrappedPkh_MarshalCBOR (w : option (list byte)) : raw :=
  match w with
  | Some pkh => constr 0 [bytestring pkh]
  | None => constr 1 []
  end.

Definition SwapConfig_MarshalCBOR (s : SwapConfig) : raw :=
  constr 0
    [AssetClass_MarshalCBOR (sw_Base s); AssetClass_MarshalCBOR (sw_Quote s);
     AssetClass_MarshalCBOR (sw_PoolId s); uint (sw_FeeNum s); bigint (sw_FeePerTokenNum s);
     bigint (sw_FeePerTokenDen s); bytes_of (sw_RewardPkh s); WrappedPkh_MarshalCBOR (sw_StakePkh s);
     uint (sw_BaseAmount s); uint (sw_MinQuoteAmount s)].

Definition DepositConfig_MarshalCBOR (d : DepositConfig) : raw :=
  constr 0
    [AssetClass_MarshalCBOR (dc_PoolId d); AssetClass_MarshalCBOR (dc_X d);
     AssetClass_MarshalCBOR (dc_Y d); AssetClass_MarshalCBOR (dc_Lq d); uint (dc_ExFee d);
     bytes_of (dc_RewardPkh d); WrappedPkh_MarshalCBOR (dc_StakePkh d); uint (dc_CollateralAda d)].

Definition RedeemConfig_MarshalCBOR (r : RedeemConfig) : raw :=
  constr 0
    [AssetClass_MarshalCBOR (rc_PoolId r); AssetClass_MarshalCBOR (rc_X r);
     AssetClass_MarshalCBOR (rc_Y r); AssetClass_MarshalCBOR (rc_Lq r); uint (rc_ExFee r);
     bytes_of (rc_RewardPkh r); WrappedPkh_MarshalCBOR (rc_StakePkh r)].

Definition PoolConfig_MarshalCBOR (p : PoolConfig C) : raw :=
  let tmpAdminPolicy := bytes_list (pc_AdminPolicy p) in
  constr 0
    [AssetClass_MarshalCBOR (pc_Nft p); AssetClass_MarshalCBOR (pc_X p);
     AssetClass_MarshalCBOR (pc_Y p); AssetClass_MarshalCBOR (pc_Lq p); uint (pc_FeeNum p);
     tmpAdminPolicy; uint (pc_LqBound p)].

(** ** Round trips *)

(** Nothing is nil but the staking key, and amounts have 64 bits: true of whatever
    was decoded from the chain. *)
Definition filled_asset (a : AssetClass) : Prop := is_Some (PolicyId a) /\ is_Some (Name a).
Record filled_swap (s : SwapConfig) : Prop := {
  fs_assets : Forall filled_asset [sw_Base s; sw_Quote s; sw_PoolId s];
  fs_numbers : Forall is_u64 [sw_FeeNum s; sw_BaseAmount s; sw_MinQuoteAmount s];
  fs_fee : is_Some (sw_FeePerTokenNum s) /\ is_Some (sw_FeePerTokenDen s);
  fs_key : is_Some (sw_RewardPkh s);
}.
Record filled_deposit (d : DepositConfig) : Prop := {
  fd_assets : Forall filled_asset [dc_PoolId d; dc_X d; dc_Y d; dc_Lq d];
  fd_numbers : Forall is_u64 [dc_ExFee d; dc_CollateralAda d];
  fd_key : is_Some (dc_RewardPkh d);
}.
Record filled_redeem (r : RedeemConfig) : Prop := {
  fr_assets : Forall filled_asset [rc_PoolId r; rc_X r; rc_Y r; rc_Lq r];
  fr_number : is_u64 (rc_ExFee r);
  fr_key : is_Some (rc_RewardPkh r);
}.
Record filled_pool (p : PoolConfig C) : Prop := {
  fp_assets : Forall filled_asset [pc_Nft p; pc_X p; pc_Y p; pc_Lq p];
  fp_numbers : Forall is_u64 [pc_FeeNum p; pc_LqBound p];
  fp_policies : Forall is_Some (pc_AdminPolicy p);
}.

Lemma AssetClass_round a : filled_asset a -> AssetClass_UnmarshalCBOR (AssetClass_MarshalCBOR a) = Some a.
Proof.
  intros []. unfold AssetClass_UnmarshalCBOR, AssetClass_MarshalCBOR. repeat encode_step. by destruct a.
Qed.

Lemma WrappedPkh_round w : WrappedPkh_UnmarshalCBOR (WrappedPkh_MarshalCBOR w) = Some w.
Proof.
  unfold WrappedPkh_UnmarshalCBOR, WrappedPkh_MarshalCBOR. destruct w as [pkh|].
  - destruct (decode_constr 0 [bytestring pkh]) as (body & -> & Hb); [done|]. cbn [Z.eqb negb].
    unfold struct_fields. rewrite Hb. cbn. apply decode_bytes_bytestring.
  - by destruct (decode_constr 1 []) as (body & -> & _).
Qed.

Ltac config_round :=
  repeat match goal with H : Forall _ (_ :: _) |- _ => apply Forall_cons in H as [? H] end;
  repeat first [ encode_step | rewrite AssetClass_round by done | rewrite WrappedPkh_round ];
  cbn [mbind option_bind].

Lemma SwapConfig_round s :
  filled_swap s -> SwapConfig_UnmarshalCBOR (SwapConfig_MarshalCBOR s) = Some s.
Proof.
  intros [? ? [] ?]. unfold SwapConfig_UnmarshalCBOR, SwapConfig_MarshalCBOR. config_round. by destruct s.
Qed.

Lemma DepositConfig_round d :
  filled_deposit d -> DepositConfig_UnmarshalCBOR (DepositConfig_MarshalCBOR d) = Some d.
Proof.
  intros []. unfold DepositConfig_UnmarshalCBOR, DepositConfig_MarshalCBOR. config_round. by destruct d.
Qed.

Lemma RedeemConfig_round r :
  filled_redeem r -> RedeemConfig_UnmarshalCBOR (RedeemConfig_MarshalCBOR r) = Some r.
Proof.
  intros []. unfold RedeemConfig_UnmarshalCBOR, RedeemConfig_MarshalCBOR. config_round. by destruct r.
Qed.

(** The configuration of a pool is read back with the message it was read from. *)
Lemma PoolConfig_round p :
  filled_pool p ->
  PoolConfig_UnmarshalCBOR (PoolConfig_MarshalCBOR p) =
    Some (mkPoolConfig (pc_Nft p) (pc_X p) (pc_Y p) (pc_Lq p) (pc_FeeNum p) (pc_AdminPolicy p)
            (pc_LqBound p) (PoolConfig_MarshalCBOR p)).
Proof.
  intros [? ? Hl]. unfold PoolConfig_UnmarshalCBOR.
  eassert (untagged_struct (PoolConfig_MarshalCBOR p) 7 = Some _) as ->
    by (by apply untagged_struct_constr).
  cbn [mbind option_bind]. by config_round.
Qed.
End Encode.

(** An order whose staking key cannot be read is an order without one. *)
Lemma unreadable_stake_key `{C : Cbor} d :
  decode_constructor d = None -> WrappedPkh_UnmarshalCBOR d = Some None.
Proof. unfold WrappedPkh_UnmarshalCBOR. by intros ->. Qed.
