(* ===== verification/Batcher.v ===== *)
(** * Batcher: the Spectrum batcher's handling of transaction outputs
    ([internal/spectrum/spectrum.go]) and the assembly of the swap transaction
    ([internal/spectrum/tx.go], [internal/storage/utxo.go]).

    An output of the chain at a pool address is stored, and the identity token that
    its datum names is pointed at it. An output of the mempool at the swap address
    is an order: the pool it asks for is looked up in the storage, and a
    transaction is built that spends both. The libraries that decode outputs and
    addresses and build and sign transactions are the class [Libraries]. *)
From S2P Require Import Prelude.
From S2P Require Import Text.
From S2P Require Import Common.
From S2P Require Import Cbor.
From S2P Require Import Spectrum.
From S2P Require Import SpectrumDatum.
From S2P Require Import KeyValue.
From S2P Require Import UtxoStore.
From S2P Require Import Indexer.

(** A reference to an output: the transaction and the index. *)
Abbreviation txref := (string * Z)%type (only parsing).

(** What the code asks of a transaction output. Asking the amount of an asset
    calls a method of the output's assets, which may be nil: [None] is a panic. *)
Record TxOutput `{C : Cbor} := mkTxOutput {
  to_Address : string;
  to_AddressType : Z;
  to_PaymentAddress : option string;
  to_Amount : option Z;
  to_HasAssets : bool;
  to_Asset : option (list byte) -> option (list byte) -> option Z;
  to_Datum : option raw;
  to_Cbor : string;
}.
#[global] Arguments TxOutput C : clear implicits.

(** [storage.Utxo] and [common.Utxo] *)
Record LedgerUtxo `{C : Cbor} := mkLedgerUtxo {
  lu_Id : txref;
  lu_Output : TxOutput C;
}.
#[global] Arguments LedgerUtxo C : clear implicits.

(** A [Pool] with the configuration it was read from. *)
Record ChainPool `{C : Cbor} := mkChainPool {
  cp_Pool : Pool;
  cp_Datum : PoolConfig C;
}.
#[global] Arguments ChainPool C : clear implicits.

(** What the builder of the transaction is told, [datum] being the library's type
    of Plutus data: a unit of an asset is its policy in hexadecimal, its name and
    an amount; a spent output comes with its redeemer and execution units. *)
Definition unit_of (a : AssetAmount) : string * string * Z :=
  (EncodeToString (PolicyId (aa_Class a)), string_of_bytes (Name (aa_Class a)), aa_Amount a).

Record SwapTx `{C : Cbor} {datum : Type} := mkSwapTx {
  st_ChangeAddress : string;
  st_Collateral : LedgerUtxo C;
  st_Ttl : Z;
  st_PoolOutput : string * datum * Z * list (string * string * Z);
  st_RewardOutput : string * Z * list (string * string * Z);
  st_Change : Z;
  st_ReferenceInputs : list txref;
  st_Inputs : list (LedgerUtxo C * datum * (Z * Z));
  st_Fee : Z;
}.
#[global] Arguments SwapTx C datum : clear implicits.

Class Libraries (C : Cbor) := {
  (** a stored byte string as a message *)
  of_bytes : string -> raw;
  decode_input : raw -> option txref;
  decode_output : raw -> option (TxOutput C);
  (** [cbor.Encode] of a reference and an output *)
  encode_utxo : list byte -> Z -> string -> option string;
  (** [NewAddress] and the payment part of the address, which may be missing *)
  parse_address : string -> option (option string);
  address_from_parts : Z -> Z -> option (list byte) -> option (list byte) -> option string;
  NetworkByName : string -> option Z;
  (** [apollo.SortInputs] *)
  SortInputs : list (LedgerUtxo C) -> list (LedgerUtxo C);
  CollateralPercent : option Z;
  datum : Type;
  decode_datum : raw -> option datum;
  (** [cbor.Encode] of constructor 0 with a list of integers *)
  encode_constructor : list Z -> option raw;
  SetWalletFromMnemonic : string -> bool;
  AddReferenceInput : string -> Z -> bool;
  (** the inputs of the completed transaction *)
  Complete : SwapTx C datum -> option (list txref);
  (** signing it and [GetTxCbor] *)
  Sign : SwapTx C datum -> option string;
  (** the inputs of a transaction decoded from its bytes *)
  tx_inputs : string -> option (list txref);
  (** the hash and the outputs of a transaction of an era *)
  NewTransactionFromCbor : Z -> string -> option (string * list (TxOutput C));
}.

Inductive batch_error :=
| DatumError
| BadTransactionId
| EncodeError
| StoreError (e : store_error)
| UtxoError
| UtxoPanic  (** an index out of the range of the decoded list *)
| NoDatumError
| AssetPanic
| PoolAddressError
| NoPaymentPart
| DivisionPanic.  (** in the arithmetic of a swap *)

(** A panic is not an error that the handlers log: it ends the process. *)
Definition panics (e : batch_error) : bool :=
  match e with UtxoPanic | AssetPanic | DivisionPanic => true | _ => false end.

Inductive build_error :=
| InvalidReferenceId
| UnknownReference
| InvalidScript
| UtxoDecodeError
| UtxoStructure
| WalletStoreError (e : store_error)
| NoProtocolParams
| AmountError (e : tx_error)
| RewardAddressError
| PoolAddressInvalid
| ChangeAddressError
| PoolDatumError
| RedeemerError
| MnemonicError
| ReferenceError
| BuildError
| SignError
| DecodeBuiltError.

Record InputRef := mkInputRef { ir_TxId : string; ir_OutputIdx : Z }.

Record SpectrumProfileConfig := mkSpectrumProfile {
  SwapHash : string;
  DepositHash : string;
  RedeemHash : string;
  PoolV1Hash : string;
  PoolV2Hash : string;
  SwapInputRef : InputRef;
  DepositInputRef : InputRef;
  RedeemInputRef : InputRef;
  PoolV1InputRef : InputRef;
  PoolV2InputRef : InputRef;
}.

Record NetworkParams := mkNetwork { ShelleyOffsetSlot : Z; ShelleyOffsetTime : Z }.

(** [config.Networks] *)
Definition Networks (name : string) : NetworkParams :=
  if bool_decide (name = "preprod") then mkNetwork 0 1654041600
  else if bool_decide (name = "preview") then mkNetwork 0 1666656000
  else if bool_decide (name = "mainnet") then mkNetwork 4924800 1596491091
  else mkNetwork 0 0.

(** What the process is configured with: the name of its network, its wallet, the
    known reference scripts ([reference_scripts.go]) and the time in seconds. *)
Record Environment := mkEnvironment {
  Network : string;
  PaymentAddress : string;
  Mnemonic : string;
  knownReferenceScriptHex : string -> option string;
  now : Z;
}.

(** [Spectrum]: a profile with its addresses, in the textual form. *)
Record Batcher := mkBatcher {
  bt_name : string;
  bt_config : SpectrumProfileConfig;
  bt_swapAddress : string;
  bt_depositAddress : string;
  bt_redeemAddress : string;
  bt_poolV1Address : string;
  bt_poolV2Address : string;
}.

Definition swapTxTtlSlots : Z := 30.
Definition AddressTypeScriptNone : Z := 7.

Section Batcher.
Context `{C : Cbor, N : !CborNumbers C, L : !Libraries C}.

(** ** Outputs and pools *)

(** [storage.Utxo.UnmarshalCBOR] indexes the list without looking at its length. *)
Definition Utxo_UnmarshalCBOR (d : raw) : result batch_error (LedgerUtxo C) :=
  match decode_list d with
  | None => Err UtxoError
  | Some l =>
      match l !! 0%nat with
      | None => Err UtxoPanic
      | Some ref =>
          match decode_input ref with
          | None => Err UtxoError
          | Some r =>
              match l !! 1%nat with
              | None => Err UtxoPanic
              | Some out =>
                  match decode_output out with
                  | None => Err UtxoError
                  | Some o => Ok (mkLedgerUtxo _ r o)
                  end
              end
          end
      end
  end.

Definition getAssetAmountFromTransactionOutput (assetClass : AssetClass) (txOutput : TxOutput C)
  : result batch_error Z :=
  let amount :=
    if Nat.eqb (length (contents (PolicyId assetClass))) 0 then to_Amount txOutput
    else to_Asset txOutput (PolicyId assetClass) (Name assetClass) in
  match amount with
  | None => Err AssetPanic
  | Some a => Ok (u64 a)
  end.

Definition NewPoolFromTransactionOutput (txOutput : TxOutput C) : result batch_error (ChainPool C) :=
  match to_Datum txOutput with
  | None => Err NoDatumError
  | Some datum =>
      match PoolConfig_UnmarshalCBOR datum with
      | None => Err DatumError
      | Some poolConfig =>
          x ← getAssetAmountFromTransactionOutput (pc_X poolConfig) txOutput;
          y ← getAssetAmountFromTransactionOutput (pc_Y poolConfig) txOutput;
          lq ← getAssetAmountFromTransactionOutput (pc_Lq poolConfig) txOutput;
          Ok (mkChainPool _
                (mkPool (pc_Nft poolConfig) (mkAssetAmount (pc_X poolConfig) x)
                   (mkAssetAmount (pc_Y poolConfig) y) (mkAssetAmount (pc_Lq poolConfig) lq)
                   (pc_FeeNum poolConfig))
                poolConfig)
      end
  end.

Definition NewPoolFromUtxoBytes (utxoBytes : string) : result batch_error (ChainPool C) :=
  utxo ← Utxo_UnmarshalCBOR (of_bytes utxoBytes);
  NewPoolFromTransactionOutput (lu_Output utxo).

Definition decodeUtxo (utxoBytes : string) : result build_error (LedgerUtxo C) :=
  match decode_list (of_bytes utxoBytes) with
  | None => Err UtxoDecodeError
  | Some [ref; out] =>
      match decode_input ref with
      | None => Err UtxoDecodeError
      | Some r =>
          match decode_output out with
          | None => Err UtxoDecodeError
          | Some o => Ok (mkLedgerUtxo _ r o)
          end
      end
  | Some _ => Err UtxoStructure
  end.

Fixpoint decode_all (utxosBytes : list string) : result build_error (list (LedgerUtxo C)) :=
  match utxosBytes with
  | [] => Ok []
  | utxoBytes :: rest =>
      utxo ← decodeUtxo utxoBytes;
      utxos ← decode_all rest;
      Ok (utxo :: utxos)
  end.

(** What the arithmetic of [Spectrum] reads of an output. *)
Definition view (u : LedgerUtxo C) : Utxo :=
  let o := lu_Output u in
  mkUtxo (lu_Id u) (Some (mkOutput (to_HasAssets o) (to_AddressType o) (to_Amount o))).

(** [selectCollateralUtxo] on the outputs themselves *)
Definition select_collateral (utxos : list (LedgerUtxo C)) (minLovelace : Z)
  : result tx_error (LedgerUtxo C) :=
  select_smallest (fun u => collateral_amount minLovelace (view u)) utxos.

(** ** Addresses and slots *)

(** A failure gives the empty address. *)
Definition scriptAddressFromHash (env : Environment) (scriptHashHex : string) : string :=
  match NetworkByName (Network env) with
  | None => ""
  | Some network =>
      match DecodeString scriptHashHex with
      | None => ""
      | Some scriptHash => default "" (address_from_parts AddressTypeScriptNone network scriptHash None)
      end
  end.

Definition addressFromKeys (env : Environment) (paymentKey stakeKey : option (list byte)) : string :=
  match NetworkByName (Network env) with
  | None => ""
  | Some network =>
      let addrType :=
        if (0 <? length (contents stakeKey))%nat then AddressTypeKeyKey else AddressTypeKeyNone in
      default "" (address_from_parts addrType network paymentKey stakeKey)
  end.

Definition NewSpectrum (env : Environment) (name : string) (config : SpectrumProfileConfig) : Batcher :=
  mkBatcher name config
    (scriptAddressFromHash env (SwapHash config)) (scriptAddressFromHash env (DepositHash config))
    (scriptAddressFromHash env (RedeemHash config)) (scriptAddressFromHash env (PoolV1Hash config))
    (scriptAddressFromHash env (PoolV2Hash config)).

Definition unixTimeToSlot (env : Environment) (unixTime : Z) : Z :=
  let networkCfg := Networks (Network env) in
  u64 (ShelleyOffsetSlot networkCfg + u64 (i64 (unixTime - ShelleyOffsetTime networkCfg))).

(** ** The swap transaction *)

(** One reference input of [newSwapTxChainContext]. *)
Definition known_reference (env : Environment) (ref : InputRef) : result build_error unit :=
  match hex_decode (ir_TxId ref) with
  | None => Err InvalidReferenceId
  | Some txHashBytes =>
      if negb (Nat.eqb (length txHashBytes) 32) then Err InvalidReferenceId
      else
        match knownReferenceScriptHex env
                (ToLower (ir_TxId ref) +:+ "." +:+ FormatUint (ir_OutputIdx ref)) with
        | None => Err UnknownReference
        | Some scriptHex =>
            if bool_decide (scriptHex = "") then Ok tt
            else match hex_decode scriptHex with None => Err InvalidScript | Some _ => Ok tt end
        end
  end.

Fixpoint newSwapTxChainContext (env : Environment) (refs : list InputRef) : result build_error unit :=
  match refs with
  | [] => Ok tt
  | ref :: rest => _ ← known_reference env ref; newSwapTxChainContext env rest
  end.

Definition sortedInputIndex (utxos : list (LedgerUtxo C)) (txInput : txref) : Z :=
  transactionInputIndex (lu_Id <$> SortInputs utxos) txInput.

(** [plutusDatum] of constructor 0 *)
Definition plutusDatum (fields : list Z) : option datum :=
  cborBytes ← encode_constructor fields;
  decode_datum cborBytes.

Definition or_fail {E A} (e : E) (o : option A) : result E A :=
  match o with Some a => Ok a | None => Err e end.

Record createSwapTxOpts := mkSwapTxOpts {
  poolUtxoBytes : string;
  pool : ChainPool C;
  swapUtxoBytes : string;
  swapConfig : SwapConfig;
  outputPoolAddress : string;
  poolInputRef : InputRef;
}.

(** The calls on the builder, once every amount and index is known. *)
Definition swap_tx (env : Environment) (s : Batcher) (opts : createSwapTxOpts) (poolUtxo swapUtxo : LedgerUtxo C)
    (collateral : LedgerUtxo C) (amounts : swap_outputs) (rewardAddress : string) (poolDatum : datum)
    (poolRedeemer swapRedeemer : datum) : SwapTx C datum :=
  let currentSlot := unixTimeToSlot env (now env) in
  {| st_ChangeAddress := PaymentAddress env;
     st_Collateral := collateral;
     st_Ttl := i64 (u64 (currentSlot + swapTxTtlSlots));
     st_PoolOutput := (outputPoolAddress opts, poolDatum, so_poolLovelace amounts,
                       unit_of <$> so_poolUnits amounts);
     st_RewardOutput := (rewardAddress, so_rewardLovelace amounts, unit_of <$> so_rewardUnits amounts);
     st_Change := so_matcherChange amounts;
     st_ReferenceInputs :=
       [(ir_TxId (poolInputRef opts), ir_OutputIdx (poolInputRef opts));
        (ir_TxId (SwapInputRef (bt_config s)), ir_OutputIdx (SwapInputRef (bt_config s)))];
     st_Inputs := [(poolUtxo, poolRedeemer, (530000, 165000000));
                   (swapUtxo, swapRedeemer, (270000, 140000000))];
     st_Fee := swapTxFee |}.

(** The address of the reward, when the addresses of all outputs are addresses *)
Definition swap_addresses (env : Environment) (opts : createSwapTxOpts) : result build_error string :=
  let rewardAddress :=
    addressFromKeys env (sw_RewardPkh (swapConfig opts)) (sw_StakePkh (swapConfig opts)) in
  _ ← or_fail RewardAddressError (parse_address rewardAddress);
  _ ← or_fail PoolAddressInvalid (parse_address (outputPoolAddress opts));
  _ ← or_fail ChangeAddressError (parse_address (PaymentAddress env));
  Ok rewardAddress.

(** The places of the pool and of the order among the sorted inputs *)
Definition input_indexes (poolUtxo swapUtxo : LedgerUtxo C) : result build_error (Z * Z) :=
  let poolIdx := sortedInputIndex [poolUtxo; swapUtxo] (lu_Id poolUtxo) in
  let swapIdx := sortedInputIndex [poolUtxo; swapUtxo] (lu_Id swapUtxo) in
  _ ← reject_if ((poolIdx <? 0) || (swapIdx <? 0)) (AmountError UnsortedInputs);
  Ok (poolIdx, swapIdx).

(** The datum that the pool is given back, and the redeemers of the two inputs *)
Definition swap_datums (pool : ChainPool C) (poolIdx swapIdx : Z)
  : result build_error (datum * datum * datum) :=
  poolDatum ← or_fail PoolDatumError (decode_datum (pc_Cbor (cp_Datum pool)));
  poolRedeemer ← or_fail RedeemerError (plutusDatum [2; poolIdx]);
  swapRedeemer ← or_fail RedeemerError (plutusDatum [poolIdx; swapIdx; 1; 0]);
  Ok (poolDatum, poolRedeemer, swapRedeemer).

(** Completing the transaction, with the two checks of its inputs: as built, and
    as decoded from the signed bytes. *)
Definition finish_tx (tx : SwapTx C datum) (poolId swapId : txref)
    (poolIdx swapIdx : Z) : result build_error string :=
  inputs ← or_fail BuildError (Complete tx);
  _ ← map_err AmountError (validateSwapTxInputs inputs poolId swapId poolIdx swapIdx);
  txBytes ← or_fail SignError (Sign tx);
  decoded ← or_fail DecodeBuiltError (tx_inputs txBytes);
  _ ← map_err AmountError (validateSwapTxInputs decoded poolId swapId poolIdx swapIdx);
  Ok txBytes.

Definition createSwapTx `{KV} (env : Environment) (s : Batcher) (opts : createSwapTxOpts) (d : db)
  : result build_error string :=
  _ ← newSwapTxChainContext env [poolInputRef opts; SwapInputRef (bt_config s)];
  poolUtxo ← decodeUtxo (poolUtxoBytes opts);
  swapUtxo ← decodeUtxo (swapUtxoBytes opts);
  utxosBytes ← map_err WalletStoreError (GetUtxos (PaymentAddress env) d);
  utxos ← decode_all utxosBytes;
  percent ← or_fail NoProtocolParams CollateralPercent;
  requiredCollateral ← map_err AmountError (requiredCollateralLovelace percent swapTxFee);
  collateralUtxo ← map_err AmountError (select_collateral utxos requiredCollateral);
  amounts ← map_err AmountError (swap_amounts (cp_Pool (pool opts)) (swapConfig opts) (view swapUtxo));
  rewardAddress ← swap_addresses env opts;
  '(poolIdx, swapIdx) ← input_indexes poolUtxo swapUtxo;
  '(poolDatum, poolRedeemer, swapRedeemer) ← swap_datums (pool opts) poolIdx swapIdx;
  _ ← reject_if (negb (SetWalletFromMnemonic (Mnemonic env))) MnemonicError;
  _ ← reject_if (negb (AddReferenceInput (ir_TxId (poolInputRef opts)) (ir_OutputIdx (poolInputRef opts))))
        ReferenceError;
  _ ← reject_if (negb (AddReferenceInput (ir_TxId (SwapInputRef (bt_config s)))
                         (ir_OutputIdx (SwapInputRef (bt_config s))))) ReferenceError;
  finish_tx
    (swap_tx env s opts poolUtxo swapUtxo collateralUtxo amounts rewardAddress poolDatum poolRedeemer
       swapRedeemer)
    (lu_Id poolUtxo) (lu_Id swapUtxo) poolIdx swapIdx.

(** ** Orders *)

(** Which script of the profile an output is locked by; an output without a payment
    part has the empty payment address. The cases are tried in order. *)
Inductive output_kind := SwapOrder | DepositOrder | RedeemOrder | PoolV1Output | PoolV2Output | OtherOutput.

Definition payment_kind (s : Batcher) (paymentAddr : string) : output_kind :=
  if bool_decide (paymentAddr = bt_swapAddress s) then SwapOrder
  else if bool_decide (paymentAddr = bt_depositAddress s) then DepositOrder
  else if bool_decide (paymentAddr = bt_redeemAddress s) then RedeemOrder
  else if bool_decide (paymentAddr = bt_poolV1Address s) then PoolV1Output
  else if bool_decide (paymentAddr = bt_poolV2Address s) then PoolV2Output
  else OtherOutput.
Definition output_kind_of (s : Batcher) (txOutput : TxOutput C) : output_kind :=
  payment_kind s (default "" (to_PaymentAddress txOutput)).

Definition u32 (z : Z) : Z := z mod 2 ^ 32.

Definition wrapTxOutput (txId : string) (txOutputIdx : Z) (txOutBytes : string) : result batch_error string :=
  match DecodeString txId with
  | None => Err BadTransactionId
  | Some txIdBytes => or_fail EncodeError (encode_utxo (contents txIdBytes) (u32 txOutputIdx) txOutBytes)
  end.

(** The reference input that holds the script of a pool at this address: none for
    a pool that is at neither address. *)
Definition pool_input_ref (s : Batcher) (paymentAddr : string) : InputRef :=
  if bool_decide (paymentAddr = bt_poolV1Address s) then PoolV1InputRef (bt_config s)
  else if bool_decide (paymentAddr = bt_poolV2Address s) then PoolV2InputRef (bt_config s)
  else mkInputRef "" 0.

Context `{K : KV}.

(** A swap order: the attempt to build its transaction, whose failure is only
    logged. *)
Definition handle_order (env : Environment) (s : Batcher) (txId : string) (txOutputIdx : Z)
    (txOutput : TxOutput C) (order : raw) (d : db) : result batch_error (result build_error string) :=
  sc ← or_fail DatumError (SwapConfig_UnmarshalCBOR order);
  swapUtxo ← wrapTxOutput txId txOutputIdx (to_Cbor txOutput);
  poolUtxoId ← map_err StoreError (GetAssetUtxoId (bt_name s) (PolicyId (sw_PoolId sc)) (Name (sw_PoolId sc)) d);
  poolUtxo ← map_err StoreError (GetUtxoById poolUtxoId d);
  pool ← NewPoolFromUtxoBytes poolUtxo;
  poolAddr ← map_err StoreError (GetUtxoAddress poolUtxoId d);
  tmpPoolAddr ← or_fail PoolAddressError (parse_address poolAddr);
  poolPaymentAddr ← or_fail NoPaymentPart tmpPoolAddr;
  Ok (createSwapTx env s
        (mkSwapTxOpts poolUtxo pool swapUtxo sc poolAddr (pool_input_ref s poolPaymentAddr)) d).

(** An output of a pool: stored before its datum is known to decode. *)
Definition handle_pool_output (s : Batcher) (txId : string) (txOutputIdx : Z) (txOutput : TxOutput C)
    (datum : raw) (d : db) : db * result batch_error unit :=
  match AddUtxo encode_utxo (to_Address txOutput) txId (u32 txOutputIdx) (to_Cbor txOutput) d with
  | (d, Err e) => (d, Err (StoreError e))
  | (d, Ok _) =>
      match PoolConfig_UnmarshalCBOR datum with
      | None => (d, Err DatumError)
      | Some poolConfig =>
          let nft := pc_Nft poolConfig in
          match UpdateAssetUtxo (bt_name s) (PolicyId nft) (Name nft) txId (u32 txOutputIdx) d with
          | (d, Err e) => (d, Err (StoreError e))
          | (d, Ok _) => (d, Ok tt)
          end
      end
  end.

(** The second component is the transaction submitted, if any. *)
Definition handleTransactionOutput (env : Environment) (s : Batcher) (txId : string) (txOutputIdx : Z)
    (txOutput : TxOutput C) (fromMempool : bool) (d : db) : db * result batch_error (option string) :=
  match to_Datum txOutput with
  | None => (d, Ok None)
  | Some datum =>
      match output_kind_of s txOutput, fromMempool with
      | SwapOrder, true =>
          (d, match handle_order env s txId txOutputIdx txOutput datum d with
              | Err e => Err e
              | Ok (Err (AmountError DivisionByZero)) => Err DivisionPanic
              | Ok (Err _) => Ok None
              | Ok (Ok txBytes) => Ok (Some txBytes)
              end)
      | DepositOrder, true =>
          (d, match DepositConfig_UnmarshalCBOR datum with None => Err DatumError | Some _ => Ok None end)
      | PoolV1Output, false | PoolV2Output, false =>
          let '(d, r) := handle_pool_output s txId txOutputIdx txOutput datum d in
          (d, r ≫= fun _ => Ok None)
      | _, _ => (d, Ok None)
      end
  end.

(** The loops over the outputs of a transaction: errors are logged. The result holds
    the transactions submitted and whether the process lives. *)
Fixpoint handle_outputs (env : Environment) (s : Batcher) (txId : string) (idx : Z)
    (outputs : list (TxOutput C)) (fromMempool : bool) (d : db) : db * list string * bool :=
  match outputs with
  | [] => (d, [], true)
  | txOutput :: rest =>
      let '(d, r) := handleTransactionOutput env s txId idx txOutput fromMempool d in
      if match r with Err e => panics e | Ok _ => false end then (d, [], false)
      else
        let submitted := match r with Ok (Some txBytes) => [txBytes] | _ => [] end in
        let '(d, rest_submitted, alive) := handle_outputs env s txId (idx + 1) rest fromMempool d in
        (d, submitted ++ rest_submitted, alive)
  end.

Definition handleChainsyncEvent (env : Environment) (s : Batcher) (transactionHash : string)
    (outputs : list (TxOutput C)) (d : db) : db * list string * bool :=
  handle_outputs env s transactionHash 0 outputs false d.

Definition handleMempoolNewTransaction (env : Environment) (s : Batcher) (era : Z) (txCbor : string) (d : db)
  : option (db * list string * bool) :=
  match NewTransactionFromCbor era txCbor with
  | None => None
  | Some (hash, outputs) => Some (handle_outputs env s hash 0 outputs true d)
  end.

(** ** A submitted transaction *)

(** The two decoders of a stored output agree. *)
Lemma decodeUtxo_Unmarshal utxoBytes u :
  decodeUtxo utxoBytes = Ok u -> Utxo_UnmarshalCBOR (of_bytes utxoBytes) = Ok u.
Proof.
  unfold decodeUtxo, Utxo_UnmarshalCBOR. destruct (decode_list _) as [[|a [|b [|]]]|]; try done. cbn.
  intros H. destruct (decode_input a); [|done]. destruct (decode_output b); [|done]. by injection H as <-.
Qed.

Lemma or_fail_ok {E A} (e : E) (o : option A) a : or_fail e o = Ok a <-> o = Some a.
Proof. destruct o; cbn; naive_solver. Qed.

Lemma map_err_ok {E F A} (f : E -> F) (r : result E A) a : map_err f r = Ok a <-> r = Ok a.
Proof. destruct r; cbn; naive_solver. Qed.

(** What is true of the transaction [tx], whose signed bytes are [txBytes], that
    executes an order against a pool. *)
Record executes (env : Environment) (s : Batcher) (d : db) (sc : SwapConfig)
    (poolUtxo swapUtxo : LedgerUtxo C) (tx : SwapTx C datum) (txBytes : string) : Prop := {
  (** The pool is the stored output of the identity token that the order names, and
      its address is the one stored with it. *)
  ex_pool : exists poolId poolBytes pool poolAddr amounts poolDatum,
    GetAssetUtxoId (bt_name s) (PolicyId (sw_PoolId sc)) (Name (sw_PoolId sc)) d = Ok poolId /\
    GetUtxoById poolId d = Ok poolBytes /\ decodeUtxo poolBytes = Ok poolUtxo /\
    GetUtxoAddress poolId d = Ok poolAddr /\
    NewPoolFromTransactionOutput (lu_Output poolUtxo) = Ok pool /\
    (** The amounts are those of the swap, and the pool gets its own datum back. *)
    swap_amounts (cp_Pool pool) sc (view swapUtxo) = Ok amounts /\
    decode_datum (pc_Cbor (cp_Datum pool)) = Some poolDatum /\
    st_PoolOutput tx = (poolAddr, poolDatum, so_poolLovelace amounts, unit_of <$> so_poolUnits amounts) /\
    st_RewardOutput tx = (addressFromKeys env (sw_RewardPkh sc) (sw_StakePkh sc),
                          so_rewardLovelace amounts, unit_of <$> so_rewardUnits amounts) /\
    st_Change tx = so_matcherChange amounts /\ st_ChangeAddress tx = PaymentAddress env /\
    st_Fee tx = swapTxFee;
  (** The signed transaction spends the pool and the order, two different outputs,
      and nothing else, at the indexes that the redeemers hold. *)
  ex_inputs : exists inputs poolIdx swapIdx poolRedeemer swapRedeemer,
    Sign tx = Some txBytes /\ tx_inputs txBytes = Some inputs /\
    (lu_Id poolUtxo <> lu_Id swapUtxo ->
     inputs ≡ₚ [lu_Id poolUtxo; lu_Id swapUtxo] /\
     inputs !! Z.to_nat poolIdx = Some (lu_Id poolUtxo) /\
     inputs !! Z.to_nat swapIdx = Some (lu_Id swapUtxo)) /\
    plutusDatum [2; poolIdx] = Some poolRedeemer /\
    plutusDatum [poolIdx; swapIdx; 1; 0] = Some swapRedeemer /\
    st_Inputs tx = [(poolUtxo, poolRedeemer, (530000, 165000000));
                    (swapUtxo, swapRedeemer, (270000, 140000000))];
  (** The collateral is an output of the wallet, in lovelace only, at a key address,
      that covers the required part of the fee. *)
  ex_collateral : exists stored bytes percent required amount,
    GetUtxos (PaymentAddress env) d = Ok stored /\ bytes ∈ stored /\
    decodeUtxo bytes = Ok (st_Collateral tx) /\
    CollateralPercent = Some percent /\ requiredCollateralLovelace percent swapTxFee = Ok required /\
    eligible required (view (st_Collateral tx)) amount;
}.

Lemma decode_all_elem l us u : decode_all l = Ok us -> u ∈ us -> exists b, b ∈ l /\ decodeUtxo b = Ok u.
Proof.
  revert us. induction l as [|b l IH]; intros us; cbn [decode_all].
  { intros [= <-] Hu. by apply elem_of_nil in Hu. }
  intros (x & Hx & H)%bind_ok. apply bind_ok in H as (xs & Hxs & [= <-]).
  intros [->|Hu]%elem_of_cons; [exists b; split; [apply list_elem_of_here | done]|].
  destruct (IH _ Hxs Hu) as (b' & ? & ?). exists b'. split; [by apply list_elem_of_further | done].
Qed.

Lemma finish_tx_ok tx poolId swapId poolIdx swapIdx txBytes :
  finish_tx tx poolId swapId poolIdx swapIdx = Ok txBytes ->
  Sign tx = Some txBytes /\
  exists inputs, tx_inputs txBytes = Some inputs /\
    validateSwapTxInputs inputs poolId swapId poolIdx swapIdx = Ok tt.
Proof.
  unfold finish_tx. intros (i & _ & H)%bind_ok. apply bind_ok in H as ([] & _ & H).
  apply bind_ok in H as (b & Hb%or_fail_ok & H). apply bind_ok in H as (i' & Hi%or_fail_ok & H).
  apply bind_ok in H as ([] & Hv%map_err_ok & [= <-]). split; [done|]. by exists i'.
Qed.

(** The steps of [createSwapTx] up to its end. *)
Lemma createSwapTx_ok env s opts d txBytes :
  createSwapTx env s opts d = Ok txBytes ->
  exists poolUtxo swapUtxo stored utxos percent required collateral amounts poolDatum pr sr,
    let poolIdx := sortedInputIndex [poolUtxo; swapUtxo] (lu_Id poolUtxo) in
    let swapIdx := sortedInputIndex [poolUtxo; swapUtxo] (lu_Id swapUtxo) in
    decodeUtxo (poolUtxoBytes opts) = Ok poolUtxo /\ decodeUtxo (swapUtxoBytes opts) = Ok swapUtxo /\
    GetUtxos (PaymentAddress env) d = Ok stored /\ decode_all stored = Ok utxos /\
    CollateralPercent = Some percent /\ requiredCollateralLovelace percent swapTxFee = Ok required /\
    select_collateral utxos required = Ok collateral /\
    swap_amounts (cp_Pool (pool opts)) (swapConfig opts) (view swapUtxo) = Ok amounts /\
    decode_datum (pc_Cbor (cp_Datum (pool opts))) = Some poolDatum /\
    plutusDatum [2; poolIdx] = Some pr /\ plutusDatum [poolIdx; swapIdx; 1; 0] = Some sr /\
    finish_tx (swap_tx env s opts poolUtxo swapUtxo collateral amounts
                 (addressFromKeys env (sw_RewardPkh (swapConfig opts)) (sw_StakePkh (swapConfig opts)))
                 poolDatum pr sr) (lu_Id poolUtxo) (lu_Id swapUtxo) poolIdx swapIdx = Ok txBytes.
Proof.
  unfold createSwapTx. intros H.
  apply bind_ok in H as ([] & _ & H). apply bind_ok in H as (pu & Hpu & H).
  apply bind_ok in H as (su & Hsu & H). apply bind_ok in H as (bs & Hbs%map_err_ok & H).
  apply bind_ok in H as (us & Hus & H). apply bind_ok in H as (pc & Hpc%or_fail_ok & H).
  apply bind_ok in H as (rq & Hrq%map_err_ok & H). apply bind_ok in H as (co & Hco%map_err_ok & H).
  apply bind_ok in H as (am & Ham%map_err_ok & H). cbv zeta in H.
  apply bind_ok in H as (ra & Hra & H). unfold swap_addresses in Hra.
  do 3 (apply bind_ok in Hra as (? & _ & Hra)). injection Hra as <-.
  apply bind_ok in H as ([pi si] & Hix & H). apply bind_ok in Hix as ([] & _ & [= <- <-]).
  apply bind_ok in H as ([[pd pr] sr] & Hds & H).
  apply bind_ok in Hds as (pd' & Hpd%or_fail_ok & Hds). apply bind_ok in Hds as (pr' & Hpr%or_fail_ok & Hds).
  apply bind_ok in Hds as (sr' & Hsr%or_fail_ok & [= <- <- <-]). do 3 (apply bind_ok in H as ([] & _ & H)).
  exists pu, su, bs, us, pc, rq, co, am, pd', pr', sr'. cbv zeta. by split_and!.
Qed.

Lemma handle_order_ok env s txId idx out order d r :
  handle_order env s txId idx out order d = Ok r ->
  exists sc swapBytes poolId poolBytes pool poolAddr ref,
    SwapConfig_UnmarshalCBOR order = Some sc /\ wrapTxOutput txId idx (to_Cbor out) = Ok swapBytes /\
    GetAssetUtxoId (bt_name s) (PolicyId (sw_PoolId sc)) (Name (sw_PoolId sc)) d = Ok poolId /\
    GetUtxoById poolId d = Ok poolBytes /\ NewPoolFromUtxoBytes poolBytes = Ok pool /\
    GetUtxoAddress poolId d = Ok poolAddr /\
    r = createSwapTx env s (mkSwapTxOpts poolBytes pool swapBytes sc poolAddr ref) d.
Proof.
  unfold handle_order. intros (sc & Hsc%or_fail_ok & H)%bind_ok.
  apply bind_ok in H as (sb & Hsb & H). apply bind_ok in H as (pi & Hpi%map_err_ok & H).
  apply bind_ok in H as (pb & Hpb%map_err_ok & H). apply bind_ok in H as (pl & Hpl & H).
  apply bind_ok in H as (pa & Hpa%map_err_ok & H). apply bind_ok in H as (ta & _ & H).
  apply bind_ok in H as (pp & _ & [= <-]). by exists sc, sb, pi, pb, pl, pa, (pool_input_ref s pp).
Qed.

(** C16: whatever the libraries do, a transaction is submitted only for an order of
    the mempool at the swap address, and it executes that order against the pool
    that the storage holds for it: it spends exactly these two outputs, at the
    indexes that its redeemers name, pays the amounts of the swap, returns the pool
    its datum at its address, and is backed by a sufficient collateral of the
    wallet. The storage does not change. *)
Theorem submitted_swap_executes_order env s txId idx out fromMempool d d' txBytes :
  handleTransactionOutput env s txId idx out fromMempool d = (d', Ok (Some txBytes)) ->
  fromMempool = true /\ d' = d /\ output_kind_of s out = SwapOrder /\
  exists order sc swapBytes poolUtxo swapUtxo tx,
    to_Datum out = Some order /\ SwapConfig_UnmarshalCBOR order = Some sc /\
    wrapTxOutput txId idx (to_Cbor out) = Ok swapBytes /\ decodeUtxo swapBytes = Ok swapUtxo /\
    executes env s d sc poolUtxo swapUtxo tx txBytes.
Proof.
  unfold handleTransactionOutput. destruct (to_Datum out) as [order|]; [|done].
  destruct (output_kind_of s out) eqn:Ek, fromMempool; try done; intros H.
  2:{ by destruct (DepositConfig_UnmarshalCBOR order). }
  2,3: by destruct (handle_pool_output s txId idx out order d) as [? []].
  destruct (handle_order env s txId idx out order d) as [[b|[]]|e] eqn:Eo; try done.
  2:{ by destruct e. }
  injection H as <- <-. split_and!; try done.
  apply handle_order_ok in Eo as (sc & sb & pi & pb & pl & pa & ref & Hsc & Hsb & Hpi & Hpb & Hpl & Hpa & E).
  symmetry in E. apply createSwapTx_ok in E as (pu & su & bs & us & pc & rq & co & am & pd & pr & sr &
    Hpu & Hsu & Hbs & Hus & Hpc & Hrq & Hco & Ham & Hpd & Hpr & Hsr & Hfin). cbn in *.
  apply finish_tx_ok in Hfin as (Hsign & inputs & Hin & Hval).
  exists order, sc, sb, pu, su, (swap_tx env s (mkSwapTxOpts pb pl sb sc pa ref) pu su co am
    (addressFromKeys env (sw_RewardPkh sc) (sw_StakePkh sc)) pd pr sr).
  split_and!; [done..|]. split.
  - exists pi, pb, pl, pa, am, pd. split_and!; try done.
    unfold NewPoolFromUtxoBytes in Hpl. by rewrite (decodeUtxo_Unmarshal _ _ Hpu) in Hpl.
  - eexists inputs, _, _, pr, sr. split_and!; try done.
    intros Hne. by apply validateSwapTxInputs_sound in Hval.
  - apply select_smallest_ok in Hco as (Hco & a & Ha & _).
    destruct (decode_all_elem _ _ _ Hus Hco) as (b' & Hb' & Hdec).
    by exists bs, b', pc, rq, a.
Qed.

(** ** The pool of a token *)

(** The storage a chain of transactions leaves: the unspent outputs, and for each
    identity token the output that was last seen to name it. *)
Abbreviation token := (string * string)%type (only parsing).
Definition token_key (policyId name : option (list byte)) : token :=
  (string_of_bytes policyId, string_of_bytes name).
Definition token_of (a : AssetClass) : token := token_key (PolicyId a) (Name a).

Definition is_pool_output (s : Batcher) (out : TxOutput C) : option raw :=
  match to_Datum out, output_kind_of s out with
  | Some datum, PoolV1Output | Some datum, PoolV2Output => Some datum
  | _, _ => None
  end.

Definition pool_config_of (s : Batcher) (out : TxOutput C) : option (PoolConfig C) :=
  match is_pool_output s out with
  | Some datum => PoolConfig_UnmarshalCBOR datum
  | None => None
  end.

(** The operations of the outputs of a transaction on the list of unspent outputs,
    and on the tokens. *)
Fixpoint pool_ops (s : Batcher) (txId : string) (idx : Z) (outputs : list (TxOutput C)) : list store_op :=
  match outputs with
  | [] => []
  | out :: rest =>
      match is_pool_output s out with
      | Some _ => [OpAddUtxo (to_Address out) txId (u32 idx) (to_Cbor out)]
      | None => []
      end ++ pool_ops s txId (idx + 1) rest
  end.

Fixpoint pool_tokens (s : Batcher) (txId : string) (idx : Z) (outputs : list (TxOutput C))
    (tokens : gmap token string) : gmap token string :=
  match outputs with
  | [] => tokens
  | out :: rest =>
      pool_tokens s txId (idx + 1) rest
        (match pool_config_of s out with
         | Some cfg => <[token_of (pc_Nft cfg) := utxo_id txId (u32 idx)]> tokens
         | None => tokens
         end)
  end.

(** The keys of the tokens are their own: no profile is named after a table. *)
Definition own_keys (name : string) : Prop :=
  forall x, foreign (name +:+ "_asset_" +:+ x) /\ name +:+ "_asset_" +:+ x <> chainsyncCursorKey.

Record tracks (name : string) (d : db) (l : list entry) (tokens : gmap token string) : Prop := {
  tr_store : represents d l;
  tr_tokens : forall p n, Get d (asset_key name p n) = tokens !! token_key p n;
  tr_clean : forall t id, tokens !! t = Some id -> clean_id id;
}.

Lemma asset_key_inj name p n p' n' :
  asset_key name p n = asset_key name p' n' <-> token_key p n = token_key p' n'.
Proof.
  unfold asset_key, token_key. split.
  - intros H. do 2 apply append_inj_l in H.
    apply append_sep_inj in H as [Hp Hn]; [|by apply char_free_hex..].
    apply EncodeToString_inj in Hp, Hn. f_equal; by apply string_of_bytes_eq.
  - intros [= Hp Hn]. apply string_of_bytes_eq in Hp, Hn. unfold EncodeToString. by rewrite Hp, Hn.
Qed.

Lemma tracks_step name d l tokens op :
  own_keys name -> tracks name d l tokens -> well_ordered encode_utxo l [op] ->
  tracks name (store_step encode_utxo d op) (spec_step encode_utxo l op) tokens.
Proof.
  intros Hn [R Ht Hc] [Hop _]. split; [|intros p n|done].
  - by apply store_step_represents.
  - rewrite store_step_foreign; [apply Ht | apply Hn..].
Qed.

Lemma tracks_run name d l tokens ops :
  own_keys name -> tracks name d l tokens -> well_ordered encode_utxo l ops ->
  tracks name (foldl (store_step encode_utxo) d ops) (foldl (spec_step encode_utxo) l ops) tokens.
Proof.
  intros Hn. revert d l. induction ops as [|op ops IH]; intros d l R; [done|]. intros [Hop Hops].
  cbn [foldl]. apply IH; [|done]. by apply tracks_step.
Qed.

Lemma tracks_token name d l tokens p n txId i bs :
  own_keys name -> tracks name d l tokens -> DecodeString txId = Some bs -> 0 <= i ->
  tracks name (UpdateAssetUtxo name p n txId i d).1 l (<[token_key p n := utxo_id txId i]> tokens).
Proof.
  intros Hn [R Ht Hc] Hd Hi. unfold UpdateAssetUtxo, Update. cbn [fst]. split.
  - apply foreign_represents; [apply Hn | done].
  - intros p' n'. destruct (decide (token_key p' n' = token_key p n)) as [E|Hne].
    + rewrite E, lookup_insert_eq. rewrite (proj2 (asset_key_inj name p' n' p n) E). apply Get_Set_eq.
    + rewrite lookup_insert_ne by done. rewrite Get_Set_ne; [apply Ht|].
      by intros E%asset_key_inj.
  - intros t id. rewrite lookup_insert_Some. intros [[_ <-]|[_ H]]; [|by eapply Hc].
    by eapply clean_utxo_id.
Qed.

(** The outputs of a transaction whose pool outputs the library can encode. *)
Definition encodable (s : Batcher) (txId : string) (idx : Z) (outputs : list (TxOutput C)) : Prop :=
  Forall (fun op => match op with
                    | OpAddUtxo _ txId i bytes =>
                        exists bs c, DecodeString txId = Some bs /\ encode_utxo (contents bs) i bytes = Some c
                    | _ => True
                    end) (pool_ops s txId idx outputs).

Lemma handle_outputs_tracks env s txId idx outputs d l tokens :
  own_keys (bt_name s) -> tracks (bt_name s) d l tokens ->
  encodable s txId idx outputs -> well_ordered encode_utxo l (pool_ops s txId idx outputs) ->
  exists d', handle_outputs env s txId idx outputs false d = (d', [], true) /\
    tracks (bt_name s) d' (foldl (spec_step encode_utxo) l (pool_ops s txId idx outputs))
      (pool_tokens s txId idx outputs tokens).
Proof.
  intros Hn. revert idx d l tokens. induction outputs as [|out outs IH]; intros idx d l tokens R He Ho.
  { by exists d. }
  cbn [pool_ops handle_outputs pool_tokens] in *. unfold encodable in He. cbn [pool_ops] in He.
  apply Forall_app in He as [He1 He2].
  assert (exists d1 r, handleTransactionOutput env s txId idx out false d = (d1, r) /\
    match r with Err e => panics e | Ok _ => false end = false /\
    match r with Ok (Some txBytes) => [txBytes] | _ => [] end = [] /\
    tracks (bt_name s) d1
      (foldl (spec_step encode_utxo) l
         match is_pool_output s out with
         | Some _ => [OpAddUtxo (to_Address out) txId (u32 idx) (to_Cbor out)]
         | None => []
         end)
      match pool_config_of s out with
      | Some cfg => <[token_of (pc_Nft cfg) := utxo_id txId (u32 idx)]> tokens
      | None => tokens
      end) as (d1 & r & -> & -> & -> & R1).
  2:{ set (ops := match is_pool_output s out with Some _ => _ | None => _ end) in *.
      destruct (IH (idx + 1) d1 _ _ R1 He2) as (d2 & -> & R2).
      - clear -Ho. revert l Ho. induction ops as [|op ops IH]; [done|]. intros l [_ Ho]. by apply IH.
      - exists d2. split; [done|]. by rewrite foldl_app. }
  assert (forall r, match is_pool_output s out with
    | None => handleTransactionOutput env s txId idx out false d = (d, Ok None)
    | Some datum => handle_pool_output s txId idx out datum d = r ->
        handleTransactionOutput env s txId idx out false d = (r.1, r.2 ≫= fun _ => Ok None)
    end) as Hh.
  { intros r. unfold is_pool_output, handleTransactionOutput. destruct (to_Datum out) as [datum|]; [|done].
    destruct (output_kind_of s out); try done; intros ->; by destruct r. }
  unfold pool_config_of. destruct (is_pool_output s out) as [datum|]; [|exists d, (Ok None); by rewrite (Hh (d, Ok tt))].
  specialize (Hh _ eq_refl). rewrite Hh. clear Hh. apply Forall_singleton in He1 as (bs & c & Hbs & Hc).
  unfold handle_pool_output. cbn [foldl mbind option_bind].
  assert (tracks (bt_name s) (AddUtxo encode_utxo (to_Address out) txId (u32 idx) (to_Cbor out) d).1
            (spec_step encode_utxo l (OpAddUtxo (to_Address out) txId (u32 idx) (to_Cbor out))) tokens) as R1
    by (apply (tracks_step _ _ _ _ (OpAddUtxo _ _ _ _)); [done..|]; by destruct Ho).
  assert ((AddUtxo encode_utxo (to_Address out) txId (u32 idx) (to_Cbor out) d).2 = Ok tt) as Hok
    by (unfold AddUtxo, Update; by rewrite Hbs, Hc).
  destruct (AddUtxo _ _ _ _ _ _) as [d1 r1]. cbn [fst snd] in *. subst r1.
  destruct (PoolConfig_UnmarshalCBOR datum) as [cfg|]; [|by exists d1, (Err DatumError)].
  assert (0 <= u32 idx) as Hi by (unfold u32; by apply Z.mod_pos_bound).
  pose proof (tracks_token _ _ _ _ (PolicyId (pc_Nft cfg)) (Name (pc_Nft cfg)) txId (u32 idx) bs Hn R1 Hbs Hi) as R2.
  destruct (UpdateAssetUtxo _ _ _ _ _ _) as [d2 r2] eqn:Eu. unfold UpdateAssetUtxo, Update in Eu.
  injection Eu as <- <-. by eexists _, (Ok None).
Qed.

(** ** The pipeline of the indexer *)

(** A transaction of the chain, with its outputs as the batcher sees them. *)
Record batch_tx := mkBatchTx {
  bx_tx : chain_tx;
  bx_outputs : list (TxOutput C);
}.

(** The handlers in the order in which they were registered: the batcher's, then
    the indexer's own. *)
Definition pipeline {A} (env : Environment) (s : Batcher) (m : Watches.WatchManager A) (d : db) (t : batch_tx) : db :=
  let '(d, _, _) := handleChainsyncEvent env s (ct_hash (bx_tx t)) (bx_outputs t) d in
  (handleEvent encode_utxo (PaymentAddress env) m (tx_event (bx_tx t)) d).1.2.

Definition batch_ops (env : Environment) (s : Batcher) (t : batch_tx) : list store_op :=
  pool_ops s (ct_hash (bx_tx t)) 0 (bx_outputs t) ++ tx_ops (PaymentAddress env) (bx_tx t).
Definition batch_tokens (s : Batcher) (tokens : gmap token string) (t : batch_tx) : gmap token string :=
  pool_tokens s (ct_hash (bx_tx t)) 0 (bx_outputs t) tokens.

Definition good_tx (env : Environment) (s : Batcher) (t : batch_tx) : Prop :=
  encodable s (ct_hash (bx_tx t)) 0 (bx_outputs t) /\
  storable encode_utxo (PaymentAddress env) (ct_hash (bx_tx t)) (ct_produced (bx_tx t)).

Lemma well_ordered_app l ops1 ops2 :
  well_ordered encode_utxo l (ops1 ++ ops2) <->
  well_ordered encode_utxo l ops1 /\ well_ordered encode_utxo (foldl (spec_step encode_utxo) l ops1) ops2.
Proof.
  revert l. induction ops1 as [|op ops1 IH]; intros l; cbn [app well_ordered foldl]; [tauto|].
  rewrite IH. tauto.
Qed.

Lemma pipeline_tracks {A} env s (m : Watches.WatchManager A) t d l tokens :
  own_keys (bt_name s) -> tracks (bt_name s) d l tokens -> good_tx env s t ->
  well_ordered encode_utxo l (batch_ops env s t) ->
  tracks (bt_name s) (pipeline env s m d t) (foldl (spec_step encode_utxo) l (batch_ops env s t))
    (batch_tokens s tokens t).
Proof.
  intros Hn R [He Hs] [Ho1 Ho2]%well_ordered_app.
  destruct (handle_outputs_tracks env s _ _ _ _ _ _ Hn R He Ho1) as (d1 & Hd1 & R1).
  unfold pipeline, handleChainsyncEvent. rewrite Hd1, handleEvent_steps by done. cbn [fst snd].
  unfold batch_ops, batch_tokens. rewrite foldl_app. by apply tracks_run.
Qed.

(** C17: an order finds the pool of the chain. After any sequence of transactions
    from an empty database, in which no stored output is added again, the identity
    token of a pool leads to the last output at a pool address whose datum named it:
    the output that is stored under its identifier if it is unspent, with its
    address, and no output if it was spent; a token that no output named is not
    found. *)
Theorem pool_of_token_follows_chain {A} env s (m : Watches.WatchManager A) d0 txs :
  own_keys (bt_name s) -> (forall k, Get d0 k = None) ->
  Forall (good_tx env s) txs -> well_ordered encode_utxo [] (txs ≫= batch_ops env s) ->
  let d := foldl (pipeline env s m) d0 txs in
  let unspent := foldl (spec_step encode_utxo) [] (txs ≫= batch_ops env s) in
  forall policyId name,
    match foldl (batch_tokens s) ∅ txs !! token_key policyId name with
    | None => GetAssetUtxoId (bt_name s) policyId name d = Err NoAssetUtxo
    | Some id =>
        GetAssetUtxoId (bt_name s) policyId name d = Ok id /\
        GetUtxoById id d =
          match entry_of unspent id with Some e => Ok (en_cbor e) | None => Err ErrKeyNotFound end /\
        GetUtxoAddress id d =
          match entry_of unspent id with Some e => Ok (en_address e) | None => Err ErrKeyNotFound end
    end.
Proof.
  intros Hn Hd Hg Ho d unspent p n.
  assert (tracks (bt_name s) d unspent (foldl (batch_tokens s) ∅ txs)) as [R Ht Hc].
  { assert (tracks (bt_name s) d0 [] ∅) as R0.
    { split; [by apply empty_represents|..].
      - intros p' n'. by rewrite Hd, lookup_empty.
      - intros t id. by rewrite lookup_empty. }
    unfold d, unspent. clear d unspent Hd. revert d0 R0 Ho.
    generalize (∅ : gmap token string), (@nil entry).
    induction Hg as [|t txs Ht Hg IH]; intros tokens l d0 R0 Ho; [done|].
    cbn [foldl mbind list_bind] in *. rewrite foldl_app. apply well_ordered_app in Ho as [Ho1 Ho2].
    apply IH; [|done]. by apply pipeline_tracks. }
  specialize (Ht p n). unfold GetAssetUtxoId. rewrite Ht.
  destruct (_ !! token_key p n) as [id|] eqn:E; [|done]. split; [done|].
  apply lookup_represents; [done|]. by eapply Hc.
Qed.

(** C18: a pool is known by its datum alone. An output at a pool address that holds
    none of an identity token, but whose datum names it, becomes the pool of that
    token: orders for the token are executed against it from then on. *)
Theorem forged_pool_takes_token env s txId idx out datum cfg d bs c :
  is_pool_output s out = Some datum -> PoolConfig_UnmarshalCBOR datum = Some cfg ->
  to_Asset out (PolicyId (pc_Nft cfg)) (Name (pc_Nft cfg)) = Some 0 ->
  DecodeString txId = Some bs -> encode_utxo (contents bs) (u32 idx) (to_Cbor out) = Some c ->
  own_keys (bt_name s) ->
  let d' := (handleTransactionOutput env s txId idx out false d).1 in
  GetAssetUtxo (bt_name s) (PolicyId (pc_Nft cfg)) (Name (pc_Nft cfg)) d' = Ok c.
Proof.
  intros Hp Hcfg _ Hd Hc Hn d'.
  assert (clean_id (utxo_id txId (u32 idx))) as (_ & _ & Hid).
  { eapply clean_utxo_id; [exact Hd|]. unfold u32. by apply Z.mod_pos_bound. }
  assert (d' = (handle_pool_output s txId idx out datum d).1) as ->.
  { unfold d', handleTransactionOutput. unfold is_pool_output in Hp.
    destruct (to_Datum out); [|done]. destruct (output_kind_of s out); try done; injection Hp as ->;
      by destruct (handle_pool_output _ _ _ _ _ _). }
  unfold handle_pool_output, AddUtxo, Update. rewrite Hd, Hc, Hcfg. cbn [fst snd].
  unfold UpdateAssetUtxo, Update. cbn [fst]. unfold GetAssetUtxo, GetAssetUtxoId.
  rewrite Get_Set_eq. cbn [mbind result_bind]. unfold GetUtxoById.
  destruct (Hn (EncodeToString (PolicyId (pc_Nft cfg)) +:+ "_" +:+ EncodeToString (Name (pc_Nft cfg))))
    as [(Hu & _) _].
  rewrite Get_Set_ne by apply Hu. rewrite Get_Set_ne by done.
  rewrite Get_Set_ne by (by apply not_eq_sym, utxo_key_not_address). by rewrite Get_Set_eq.
Qed.
End Batcher.

(** ** A concrete chain *)

(** The pool and the order of the mainnet transaction quoted in the source, with a
    coin of the wallet, and an output that only claims to be the pool. *)
Definition sample_config : PoolConfig PlutusData :=
  mkPoolConfig (mkAssetClass (Some [xd8]) (Some [x4e])) (mkAssetClass (Some []) (Some []))
    (mkAssetClass (Some [xf6; x6d]) (Some [x69; x42; x54; x43]))
    (mkAssetClass (Some [x47]) (Some [x4c])) 997 [] 20000000000 (DInt 0).
Definition sample_pool_datum : data := PoolConfig_MarshalCBOR sample_config.
Definition sample_order_datum : data :=
  SwapConfig_MarshalCBOR
    (mkSwapConfig (pc_X sample_config) (pc_Y sample_config) (pc_Nft sample_config) 997
       (Some 16129032258064517) (Some 1000000000000) (Some [x71]) (Some [x78]) 10000000 93).

Definition pool_assets (nft : Z) (policyId name : option (list byte)) : option Z :=
  if bool_decide (policyId = Some [xf6; x6d]) then Some 144751
  else if bool_decide (policyId = Some [xd8]) then Some nft
  else Some 9223372036808097915.
Definition no_assets (policyId name : option (list byte)) : option Z := None.

Definition sample_pool_out : TxOutput PlutusData :=
  mkTxOutput _ "pool" 1 (Some "pool") (Some 15052614004) true (pool_assets 1) (Some sample_pool_datum) "P".
Definition forged_pool_out : TxOutput PlutusData :=
  mkTxOutput _ "pool" 1 (Some "pool") (Some 2000000) true (pool_assets 0) (Some sample_pool_datum) "F".
Definition sample_order_out : TxOutput PlutusData :=
  mkTxOutput _ "swap" 7 (Some "swap") (Some 12950770) false no_assets (Some sample_order_datum) "O".
Definition sample_coin_out : TxOutput PlutusData :=
  mkTxOutput _ "wallet" 0 (Some "wallet") (Some 5000000) false no_assets None "W".

Definition sample_output_of (cbor : string) : option (TxOutput PlutusData) :=
  if bool_decide (cbor = "P") then Some sample_pool_out
  else if bool_decide (cbor = "F") then Some forged_pool_out
  else if bool_decide (cbor = "O") then Some sample_order_out
  else if bool_decide (cbor = "W") then Some sample_coin_out
  else None.

Definition data_of_text (s : string) : data := DBytes (String.list_byte_of_string s).
Definition text_of_data (d : data) : string :=
  match d with DBytes l => String.string_of_list_byte l | _ => "" end.

(** Stored outputs are text, "transaction#index=output". *)
#[export] Instance sample_libraries : Libraries PlutusData := {|
  of_bytes s := DList (data_of_text <$> Split "=" s);
  decode_input d :=
    match Split "#" (text_of_data d) with
    | [txId; i] => i ← ParseUint i; Some (txId, i)
    | _ => None
    end;
  decode_output d := sample_output_of (text_of_data d);
  encode_utxo := sample_encode;
  parse_address a := Some (Some a);
  address_from_parts _ _ hash _ := Some (EncodeToString hash);
  NetworkByName _ := Some 1;
  SortInputs l := l;
  CollateralPercent := Some 150;
  datum := data;
  decode_datum := Some;
  encode_constructor l := Some (Constr 0 (DInt <$> l));
  SetWalletFromMnemonic _ := true;
  AddReferenceInput _ _ := true;
  Complete tx := Some ((fun i => lu_Id i.1.1) <$> st_Inputs tx);
  Sign _ := Some "signed";
  tx_inputs _ := Some [("aa01", 0); ("bb02", 0)];
  NewTransactionFromCbor _ _ := None;
|}.

Definition sample_reference : InputRef := mkInputRef "0000000000000000000000000000000000000000000000000000000000000000" 0.
Definition sample_profile : SpectrumProfileConfig :=
  mkSpectrumProfile "" "" "" "" "" sample_reference sample_reference sample_reference sample_reference
    sample_reference.
Definition sample_batcher : Batcher := mkBatcher "spectrum" sample_profile "swap" "deposit" "redeem" "pool" "poolV2".
Definition sample_env : Environment := mkEnvironment "mainnet" "wallet" "" (fun _ => Some "") 1700000000.

Definition sample_batch_txs : list batch_tx :=
  [mkBatchTx (mkChainTx "aa01" [] []) [sample_pool_out];
   mkBatchTx (mkChainTx "cc03" [] [("wallet", 1, "W")]) [];
   mkBatchTx (mkChainTx "dd04" [("cc03", 0)] []) []].
Definition sample_db : @db gmap_KV := foldl (pipeline sample_env sample_batcher no_watches) empty_db sample_batch_txs.

Lemma spectrum_own_keys : own_keys "spectrum".
Proof. intros x. repeat split; by intros. Qed.

Lemma submitted_swap_executes_order_witness :
  exists sc poolUtxo swapUtxo tx,
    sw_MinQuoteAmount sc = 93 /\ executes sample_env sample_batcher sample_db sc poolUtxo swapUtxo tx "signed".
Proof.
  destruct (submitted_swap_executes_order sample_env sample_batcher "bb02" 0 sample_order_out true sample_db
    sample_db "signed") as (_ & _ & _ & order & sc & sb & pu & su & tx & Ho & Hsc & _ & _ & Hex).
  - vm_compute. reflexivity.
  - exists sc, pu, su, tx. split; [|exact Hex]. injection Ho as <-. vm_compute in Hsc. by injection Hsc as <-.
Defined.

Lemma pool_of_token_follows_chain_witness :
  GetAssetUtxoId "spectrum" (Some [xd8]) (Some [x4e]) sample_db = Ok "aa01.0".
Proof.
  pose proof (pool_of_token_follows_chain sample_env sample_batcher no_watches empty_db sample_batch_txs
    spectrum_own_keys) as H.
  specialize (H (fun k => lookup_empty k)).
  assert (Forall (good_tx sample_env sample_batcher) sample_batch_txs) as Hg
    by (repeat constructor; repeat (intros _ || eexists)).
  assert (well_ordered encode_utxo [] (sample_batch_txs ≫= batch_ops sample_env sample_batcher)) as Ho
    by (repeat split; try lia; apply (bool_decide_unpack _); vm_compute; exact I).
  destruct (H Hg Ho (Some [xd8]) (Some [x4e])) as [Hid _]. exact Hid.
Defined.

Lemma forged_pool_takes_token_witness :
  GetAssetUtxo "spectrum" (Some [xd8]) (Some [x4e]) sample_db = Ok "aa01#0=P" /\
  GetAssetUtxo "spectrum" (Some [xd8]) (Some [x4e])
    (handleTransactionOutput sample_env sample_batcher "ee05" 0 forged_pool_out false sample_db).1 = Ok "ee05#0=F".
Proof.
  split; [vm_compute; reflexivity|].
  assert (PoolConfig_UnmarshalCBOR sample_pool_datum =
    Some (mkPoolConfig (pc_Nft sample_config) (pc_X sample_config) (pc_Y sample_config) (pc_Lq sample_config)
            997 [] 20000000000 sample_pool_datum)) as Hcfg by reflexivity.
  assert (is_pool_output sample_batcher forged_pool_out = Some sample_pool_datum) as Hp
    by (vm_compute; reflexivity).
  assert (encode_utxo (contents (Some [xee; x05])) (u32 0) (to_Cbor forged_pool_out) = Some "ee05#0=F") as Hc
    by (vm_compute; reflexivity).
  generalize sample_db. intros d.
  exact (forged_pool_takes_token sample_env sample_batcher "ee05" 0 forged_pool_out _ _ d _ _ Hp Hcfg eq_refl
    eq_refl Hc spectrum_own_keys).
Defined.

(** With an invalid script hash in the profile an address is empty, and an output
    without a payment part is taken for one of that script. *)
Lemma empty_address_matches `{C : Cbor, L : !Libraries C} s (out : TxOutput C) :
  bt_poolV1Address s = "" -> to_PaymentAddress out = None ->
  bt_swapAddress s <> "" -> bt_depositAddress s <> "" -> bt_redeemAddress s <> "" ->
  output_kind_of s out = PoolV1Output.
Proof.
  intros H1 H2 H3 H4 H5. unfold output_kind_of, payment_kind. rewrite H1, H2. cbn [default].
  by rewrite !bool_decide_eq_false_2 by (by apply not_eq_sym).
Qed.
