(* ===== verification/TxSubmit.v ===== *)
(** * TxSubmit: from a built transaction to the network ([internal/txsubmit]), and
    the order in which the program starts its parts ([cmd/shai/main.go]).

    [SubmitTx] puts a transaction into a channel of twenty; one goroutine takes it out
    and gives it to the relay of the node or posts it to a web interface. A step of
    that goroutine is a function on the state; the network, and the parsers of the
    ledger library, are parameters. *)
From S2P Require Import Prelude.
From S2P Require Import Text.
From S2P Require Import TxRelay.

(** ** Start *)

Record TopologyHost := mkHost {
  th_Address : string;
  th_Port : Z;
}.

(** What [Start] reads of the configuration. *)
Record SubmitConfig := mkSubmitConfig {
  sc_Hosts : list TopologyHost;
  sc_Url : string;
}.

(** The goroutine that is started *)
Inductive submit_mode :=
| Ntn
| Api (url : string).

Inductive start_error :=
| UnknownNetwork
| NoBootstrapPeerPanic.

Record TxSubmit := mkTxSubmit {
  ts_mode : submit_mode;
  ts_chan : list (list byte);
  (** whether the goroutine has not returned *)
  ts_running : bool;
}.

(** The network of the configuration, by its bootstrap peers. *)
Definition Start (network : option (list TopologyHost)) (cfg : SubmitConfig)
  : result start_error (SubmitConfig * TxSubmit) :=
  if (0 <? length (sc_Hosts cfg))%nat then Ok (cfg, mkTxSubmit Ntn [] true)
  else if negb (bool_decide (sc_Url cfg = "")) then Ok (cfg, mkTxSubmit (Api (sc_Url cfg)) [] true)
  else
    match network with
    | None => Err UnknownNetwork
    | Some [] => Err NoBootstrapPeerPanic
    | Some (peer :: _) => Ok (mkSubmitConfig [peer] (sc_Url cfg), mkTxSubmit Ntn [] true)
    end.

(** The peers that [Node.Start] connects to. *)
Definition node_peers (cfg : SubmitConfig) : list string :=
  (fun h => JoinHostPort (th_Address h) (FormatUint (th_Port h))) <$> sc_Hosts cfg.

(** [main]: the node is started, and then the submission. *)
Definition start_program (network : option (list TopologyHost)) (cfg : SubmitConfig)
  : result start_error (list string * SubmitConfig * TxSubmit) :=
  let peers := node_peers cfg in
  '(cfg, t) ← Start network cfg;
  Ok (peers, cfg, t).

(** ** Submission *)

Inductive submit_result :=
| Submitted (t : TxSubmit)
| Waits        (** until there is room in the channel *)
| NotStarted.  (** the panic of a submission before [Start] *)

Definition SubmitTx (txRawBytes : list byte) (t : option TxSubmit) : submit_result :=
  match t with
  | None => NotStarted
  | Some t =>
      if (length (ts_chan t) <? maxOutboundTransactions)%nat
      then Submitted (mkTxSubmit (ts_mode t) (ts_chan t ++ [txRawBytes]) (ts_running t))
      else Waits
  end.

Inductive http_error :=
| CreateRequest
| SendRequest
| ReadResponse
| UnexpectedResponse (status : Z).

(** The response to a POST: its status, and whether its body can be read. *)
Definition submitTxApi (response : result http_error (Z * bool)) : result http_error unit :=
  '(status, body) ← response;
  if negb body then Err ReadResponse
  else if status =? 202 then Ok tt
  else Err (UnexpectedResponse status).

Section Worker.
Context (DetermineTransactionType : list byte -> option Z)
        (NewTransactionFromCbor : Z -> list byte -> option string).

(** One turn of the goroutine of [startNtn]; [None] while it waits, for a
    transaction or for room in the channel of a peer. *)
Definition ntn_step (t : TxSubmit) (r : relay) : option (TxSubmit * relay) :=
  match ts_chan t with
  | [] => None
  | txBytes :: rest =>
      '(r, _) ← AddOutboundTransaction DetermineTransactionType NewTransactionFromCbor txBytes r;
      Some (mkTxSubmit (ts_mode t) rest (ts_running t), r)
  end.

(** One turn of the goroutine of [startApi], with the transactions it posts. A
    transaction that cannot be parsed ends the goroutine; a failed request is only
    logged. *)
Definition api_step (t : TxSubmit) : option (TxSubmit * list (list byte)) :=
  if negb (ts_running t) then None
  else
    match ts_chan t with
    | [] => None
    | txBytes :: rest =>
        let parsed := txType ← DetermineTransactionType txBytes; NewTransactionFromCbor txType txBytes in
        match parsed with
        | None => Some (mkTxSubmit (ts_mode t) rest false, [])
        | Some _ => Some (mkTxSubmit (ts_mode t) rest true, [txBytes])
        end
    end.

(** ** What reaches the network *)

(** Submissions and turns of the goroutine, in any order. *)
Inductive submit_act :=
| ActSubmit (txBytes : list byte)
| ActTurn.

(** A run against the web interface: the state, and what was accepted for
    submission and what was posted. A submission that waits is tried again later. *)
Fixpoint run_api (acts : list submit_act) (t : TxSubmit) : TxSubmit * list (list byte) * list (list byte) :=
  match acts with
  | [] => (t, [], [])
  | ActSubmit txBytes :: acts =>
      match SubmitTx txBytes (Some t) with
      | Submitted t => let '(t, accepted, posted) := run_api acts t in (t, txBytes :: accepted, posted)
      | _ => run_api acts t
      end
  | ActTurn :: acts =>
      match api_step t with
      | Some (t, sent) => let '(t, accepted, posted) := run_api acts t in (t, accepted, sent ++ posted)
      | None => run_api acts t
      end
  end.

Definition parses (txBytes : list byte) : Prop :=
  is_Some (txType ← DetermineTransactionType txBytes; NewTransactionFromCbor txType txBytes).

Lemma run_api_fifo acts t t' accepted posted :
  ts_running t = true -> Forall parses (ts_chan t) ->
  Forall (fun a => match a with ActSubmit txBytes => parses txBytes | ActTurn => True end) acts ->
  run_api acts t = (t', accepted, posted) ->
  ts_chan t ++ accepted = posted ++ ts_chan t' /\ ts_running t' = true.
Proof.
  intros Hr Hp Ha. revert t t' accepted posted Hr Hp.
  induction Ha as [|a acts Ha HF IH]; intros t t' accepted posted Hr Hp; cbn [run_api].
  { intros [= <- <- <-]. by rewrite app_nil_r. }
  destruct a as [txBytes|].
  - unfold SubmitTx. destruct (_ <? _)%nat; [|by apply IH].
    destruct (run_api acts _) as [[t1 acc] pos] eqn:E. intros [= <- <- <-].
    apply IH in E as [E1 E2]; cbn [ts_chan ts_running] in *; [|done|].
    + split; [|done]. by rewrite <- E1, <- app_assoc.
    + apply Forall_app. split; [done | by apply Forall_singleton].
  - unfold api_step. rewrite Hr. cbn [negb]. destruct (ts_chan t) as [|txBytes rest] eqn:Ec.
    + intros E. rewrite <- Ec. apply IH; [done | by rewrite Ec | done].
    + apply Forall_cons in Hp as [[h Hh] Hp]. rewrite Hh.
      destruct (run_api acts _) as [[t1 acc] pos] eqn:E. intros [= <- <- <-].
      apply IH in E as [E1 E2]; [|done..]. cbn [ts_chan] in E1. split; [|done].
      cbn [app]. by rewrite E1.
Qed.

Lemma run_api_stopped acts t t' accepted posted :
  ts_running t = false -> run_api acts t = (t', accepted, posted) ->
  posted = [] /\ ts_chan t' = ts_chan t ++ accepted /\ ts_running t' = false.
Proof.
  revert t t' accepted posted. induction acts as [|a acts IH]; intros t t' accepted posted Hr; cbn [run_api].
  { intros [= <- <- <-]. by rewrite app_nil_r. }
  destruct a as [txBytes|].
  - unfold SubmitTx. destruct (_ <? _)%nat; [|by apply IH].
    destruct (run_api acts _) as [[t1 acc] pos] eqn:E. intros [= <- <- <-].
    apply IH in E as (-> & E2 & E3); [|done]. cbn [ts_chan] in E2. by rewrite E2, <- app_assoc.
  - unfold api_step. rewrite Hr. cbn [negb]. by apply IH.
Qed.

(** Transactions are posted in the order in which they were submitted, none twice
    and none lost, as long as the ledger library can parse each of them: what was
    posted and what still waits are together what was accepted. *)
Theorem api_posts_in_order acts url t' accepted posted :
  Forall (fun a => match a with ActSubmit txBytes => parses txBytes | ActTurn => True end) acts ->
  run_api acts (mkTxSubmit (Api url) [] true) = (t', accepted, posted) ->
  accepted = posted ++ ts_chan t'.
Proof. intros Ha E. by apply run_api_fifo in E as [E _]. Qed.

(** The first transaction that the library cannot parse ends the goroutine: nothing
    is posted after it, and once twenty submissions have filled the channel every
    further one waits forever. *)
Theorem unparseable_transaction_ends_api txBytes rest url acts t' accepted posted :
  ~ parses txBytes ->
  run_api (ActTurn :: acts) (mkTxSubmit (Api url) (txBytes :: rest) true) = (t', accepted, posted) ->
  posted = [] /\ ts_chan t' = rest ++ accepted /\ api_step t' = None /\
  (length (rest ++ accepted) = maxOutboundTransactions -> forall b, SubmitTx b (Some t') = Waits).
Proof.
  intros Hn. cbn [run_api]. unfold api_step at 1. cbn [ts_running ts_chan negb].
  unfold parses in Hn. destruct (DetermineTransactionType txBytes ≫= _); [by destruct Hn|].
  destruct (run_api acts _) as [[t1 acc] pos] eqn:E. intros [= <- <- <-].
  apply run_api_stopped in E as (-> & Hc & Hr); [|done]. cbn [ts_chan] in Hc.
  split_and!; [done..| |].
  - unfold api_step. by rewrite Hr.
  - intros Hl b. unfold SubmitTx. by rewrite Hc, Hl.
Qed.

(** With neither peers nor a web interface configured, nothing that is submitted
    is ever sent. The bootstrap peer of the network enters the configuration when
    the submission starts, after the node has connected to the peers of the
    configuration, of which there were none; the relay accepts each transaction for
    no connection at all, and reports success. *)
Theorem default_configuration_sends_nothing peer others txBytes txType hash :
  DetermineTransactionType txBytes = Some txType -> NewTransactionFromCbor txType txBytes = Some hash ->
  exists t t',
    start_program (Some (peer :: others)) (mkSubmitConfig [] "") = Ok ([], mkSubmitConfig [peer] "", t) /\
    SubmitTx txBytes (Some t) = Submitted t' /\
    AddOutboundTransaction DetermineTransactionType NewTransactionFromCbor txBytes (mkRelay ∅ ∅) =
      Some (mkRelay ∅ ∅, Ok tt) /\
    ntn_step t' (mkRelay ∅ ∅) = Some (t, mkRelay ∅ ∅).
Proof.
  intros Ht Hh.
  assert (AddOutboundTransaction DetermineTransactionType NewTransactionFromCbor txBytes (mkRelay ∅ ∅) =
    Some (mkRelay ∅ ∅, Ok tt)) as Ha.
  { unfold AddOutboundTransaction. rewrite Ht, Hh. unfold broadcast. cbn [rl_chans rl_cache].
    rewrite map_to_list_empty. cbn. by rewrite fmap_empty. }
  eexists (mkTxSubmit Ntn [] true), (mkTxSubmit Ntn [txBytes] true). split_and!; [done..|].
  unfold ntn_step. cbn [ts_chan]. by rewrite Ha.
Qed.
End Worker.

(** ** Concrete runs *)

Definition sample_type (b : list byte) : option Z := match b with [] => None | _ => Some 6 end.
Definition sample_hash (era : Z) (b : list byte) : option string := Some (hex_encode b).

Lemma default_configuration_sends_nothing_witness :
  exists t', ntn_step sample_type sample_hash t' (mkRelay ∅ ∅) = Some (mkTxSubmit Ntn [] true, mkRelay ∅ ∅) /\
    ts_chan t' = [[x01]].
Proof.
  destruct (default_configuration_sends_nothing sample_type sample_hash (mkHost "backbone" 3001) [] [x01] 6 "01"
    eq_refl eq_refl) as (t & t' & Hs & Hsub & _ & Hn).
  injection Hs as <-. injection Hsub as <-. by eexists.
Defined.

Lemma api_posts_in_order_witness :
  [[x01]; [x02]] = [[x01]] ++ [[x02]].
Proof.
  apply (api_posts_in_order sample_type sample_hash [ActSubmit [x01]; ActSubmit [x02]; ActTurn] "http"
    (mkTxSubmit (Api "http") [[x02]] true) [[x01]; [x02]] [[x01]]).
  - repeat constructor; by eexists.
  - vm_compute. reflexivity.
Defined.

Lemma unparseable_transaction_ends_api_witness :
  run_api sample_type sample_hash [ActTurn; ActSubmit [x01]; ActTurn] (mkTxSubmit (Api "http") [[]] true) =
    (mkTxSubmit (Api "http") [[x01]] false, [[x01]], []) /\
  api_step sample_type sample_hash (mkTxSubmit (Api "http") [[x01]] false) = None.
Proof.
  split; [vm_compute; reflexivity|].
  apply (unparseable_transaction_ends_api sample_type sample_hash [] [] "http" [ActSubmit [x01]; ActTurn]
    (mkTxSubmit (Api "http") [[x01]] false) [[x01]] []).
  - intros [h Hh]. discriminate Hh.
  - vm_compute. reflexivity.
Defined.
