(* ===== verification/TwapStorage.v ===== *)
(** * TwapStorage: the persisted state of the TWAP engines
    ([internal/storage/twap.go]), which share the database of the indexer. *)
From S2P Require Import Prelude.
From S2P Require Import Text.
From S2P Require Import Twap.
From S2P Require Import KeyValue.
From S2P Require Import UtxoStore.
From S2P Require Import JsonString.
From S2P Require Import Json.
From S2P Require Import JsonRecord.
From S2P Require Import PoolJson.

Definition twapStateKeyPrefix : string := "price_twap_".

Inductive twap_store_error :=
| NameRequired
| MarshalTWAP
| ErrTWAPStateNotFound
| LoadTWAP.

Section TwapStorage.
(** [price.TWAPState{}] *)
Definition no_state : TWAPState := mkTWAPState (mkTWAPConfig 0 0 0 0) [] false.

Context `{KV} `{!Codec TWAPState} `{!Target no_state}.
Definition SaveTWAPState (name : string) (state : TWAPState) (d : db) : db * result twap_store_error unit :=
  if bool_decide (name = "") then (d, Err NameRequired)
  else
    match Marshal state with
    | None => (d, Err MarshalTWAP)
    | Some data => Update (fun d => Ok (Set_ (twapStateKeyPrefix +:+ name) data d)) d
    end.

Definition LoadTWAPState (name : string) (d : db) : result twap_store_error TWAPState :=
  if bool_decide (name = "") then Err NameRequired
  else
    match Get d (twapStateKeyPrefix +:+ name) with
    | None => Err ErrTWAPStateNotFound
    | Some value =>
        match Unmarshal value no_state with
        | None => Err LoadTWAP
        | Some state => Ok state
        end
    end.

(** What else happens to the database meanwhile: the indexer stores and removes
    outputs, and other engines are saved. *)
Inductive db_act :=
| ActStore (op : store_op)
| ActSave (name : string) (state : TWAPState).

Context (encode_utxo : list byte -> Z -> string -> option string).

Definition db_step (d : db) (a : db_act) : db :=
  match a with
  | ActStore op => store_step encode_utxo d op
  | ActSave name state => (SaveTWAPState name state d).1
  end.

Lemma twap_key_foreign name : foreign (twapStateKeyPrefix +:+ name).
Proof. repeat split; by intros. Qed.

Lemma db_step_state name d a :
  match a with ActSave other _ => other <> name | ActStore _ => True end ->
  Get (db_step d a) (twapStateKeyPrefix +:+ name) = Get d (twapStateKeyPrefix +:+ name).
Proof.
  destruct a as [op|other state]; intros Ha; cbn [db_step].
  - apply store_step_foreign; [apply twap_key_foreign | done].
  - unfold SaveTWAPState. case_bool_decide; [done|]. destruct (Marshal state); [|done].
    unfold Update. cbn [fst]. apply Get_Set_ne. intros E%append_inj_l. by apply Ha.
Qed.

(** The average survives a restart. An engine that satisfies its invariant and
    whose state the encoding can express is rebuilt exactly from the storage,
    whatever the indexer stored and removed and whatever other engines were saved
    since, so that it reports the same average at every time; a name that was never
    saved is reported as not found. *)
Theorem twap_survives_restart name e d acts data :
  name <> "" -> wf_engine e -> faithful (Snapshot e) -> Marshal (Snapshot e) = Some data ->
  Forall (fun a => match a with ActSave other _ => other <> name | ActStore _ => True end) acts ->
  let d' := foldl db_step (SaveTWAPState name (Snapshot e) d).1 acts in
  (exists s, LoadTWAPState name d' = Ok s /\ NewTWAPEngineFromState s = Ok e) /\
  forall other, other <> "" -> Get d (twapStateKeyPrefix +:+ other) = None -> other <> name ->
    Forall (fun a => match a with ActSave x _ => x <> other | ActStore _ => True end) acts ->
    LoadTWAPState other d' = Err ErrTWAPStateNotFound.
Proof.
  intros Hn Hwf Hf Hm Ha d'.
  assert (forall x, Forall (fun a => match a with ActSave y _ => y <> x | ActStore _ => True end) acts ->
    Get d' (twapStateKeyPrefix +:+ x) = Get (SaveTWAPState name (Snapshot e) d).1 (twapStateKeyPrefix +:+ x))
    as Hget.
  { intros x Hx. unfold d'. clear Ha. generalize (SaveTWAPState name (Snapshot e) d).1. intros d0. revert d0.
    induction Hx as [|a acts Ha Hx IH]; intros d0; [done|]. cbn [foldl]. by rewrite IH, db_step_state. }
  assert ((SaveTWAPState name (Snapshot e) d).1 = Set_ (twapStateKeyPrefix +:+ name) data d) as E
    by (unfold SaveTWAPState; by rewrite bool_decide_eq_false_2, Hm by done).
  split.
  - exists (Snapshot e). split; [|by apply restore_Snapshot].
    unfold LoadTWAPState. rewrite bool_decide_eq_false_2 by done. rewrite Hget, E, Get_Set_eq by done.
    by rewrite (Unmarshal_Marshal _ _ _ is_target Hf Hm).
  - intros other Ho Hd Hne Hx. unfold LoadTWAPState. rewrite bool_decide_eq_false_2 by done.
    rewrite Hget, E, Get_Set_ne by (done || by intros ?%append_inj_l). by rewrite Hd.
Qed.
End TwapStorage.

(** ** The encoding, and a concrete run *)

#[export] Instance TWAPConfig_eq_dec : EqDecision TWAPConfig.
Proof. solve_decision. Defined.
#[export] Instance TWAPObservation_eq_dec : EqDecision TWAPObservation.
Proof. solve_decision. Defined.
#[export] Instance TWAPState_eq_dec : EqDecision TWAPState.
Proof. solve_decision. Defined.
(** The JSON of a snapshot: the configuration has no tags. *)
Definition config_fields : fields _ :=
  FCons "Window" false int64_kind (FCons "MinCoverage" false int64_kind
  (FCons "MaxStaleness" false int64_kind (FCons "MaxObservations" false int64_kind FNil))).
#[program] Definition config_kind : kind TWAPConfig :=
  struct_kind config_fields
    (fun c => (Window c, (MinCoverage c, (MaxStaleness c, (MaxObservations c, tt)))))
    (fun r => mkTWAPConfig r.1 r.2.1 r.2.2.1 r.2.2.2.1) _ no_extra eq_refl (no_extra_ok _) _.
Next Obligation. by intros []. Qed.
Next Obligation. by intros (? & ? & ? & ? & []). Qed.

Definition observation_fields : fields _ :=
  FCons "slot" false uint64_kind (FCons "observedAt" false time_kind
  (FCons "priceNumerator" false string_kind (FCons "priceDenominator" false string_kind FNil))).
#[program] Definition observation_kind : kind TWAPObservation :=
  struct_kind observation_fields
    (fun o => (po_Slot o, (po_At o, (po_PriceNum o, (po_PriceDen o, tt)))))
    (fun r => mkTWAPObservation r.1 r.2.1 r.2.2.1 r.2.2.2.1) _ no_extra eq_refl (no_extra_ok _) _.
Next Obligation. by intros []. Qed.
Next Obligation. by intros (? & ? & ? & ? & []). Qed.

Definition twap_fields : fields _ :=
  FCons "config" false config_kind (FCons "observations" false (slice_kind observation_kind)
  (FCons "historyPruned" false bool_kind FNil)).
#[program] Definition twap_kind : kind TWAPState :=
  struct_kind twap_fields
    (fun t => (ts_Config t, (ts_Observations t, (ts_HistoryPruned t, tt))))
    (fun r => mkTWAPState r.1 r.2.1 r.2.2.1) _ no_extra eq_refl (no_extra_ok _) _.
Next Obligation. by intros []. Qed.
Next Obligation. by intros (? & ? & ? & []). Qed.

Definition twap_json : Codec TWAPState := json_codec twap_kind.
#[local] Existing Instance twap_json.
#[local] Instance no_state_target : Target no_state.
Proof. repeat split; done || constructor. Qed.

Definition sample_acts : list db_act :=
  [ActStore (OpAddUtxo "addr1" "aa01" 0 "x"); ActSave "other" (Snapshot sample_engine);
   ActStore (OpRemoveUtxo "aa01" 0)].

Lemma twap_survives_restart_witness :
  let d := foldl (db_step sample_encode) (SaveTWAPState "ada-usd" (Snapshot sample_engine) empty_db).1 sample_acts in
  (exists s, LoadTWAPState "ada-usd" d = Ok s /\ NewTWAPEngineFromState s = Ok sample_engine) /\
  LoadTWAPState "missing" d = Err ErrTWAPStateNotFound.
Proof.
  destruct (twap_survives_restart sample_encode "ada-usd" sample_engine empty_db sample_acts
    (default "" (Marshal (Snapshot sample_engine)))) as [H1 H2].
  - done.
  - apply sample_engine_wf.
  - let v := eval vm_compute in (Snapshot sample_engine) in
      replace (Snapshot sample_engine) with v by (vm_compute; reflexivity).
    split; [by repeat split | split; [|by split]].
    repeat (apply Forall_cons; split); try apply Forall_nil_2;
      repeat split; cbn; try (by apply Utf8_ascii); int_lia.
  - vm_compute. reflexivity.
  - by repeat constructor.
  - split; [exact H1|]. apply H2; [done | reflexivity | done | by repeat constructor].
Defined.
