(* ===== verification/Connections.v ===== *)
(** * Connections: who owns a socket, and who a peer ([internal/node/node.go]).

    The node dials every peer of its topology, accepts connections on two
    listeners, and hands each connection to the connection manager, which calls
    back when it has closed one; the peer of a closed outbound connection is dialed
    again. Dialing, the accept loops, the manager and its callbacks run
    concurrently: an [event] is one step of one of them, with what the libraries
    and the peers answer, and [run] is any interleaving. A connection is known by
    its pair of addresses, which the system keeps distinct among open sockets. *)
From S2P Require Import Prelude.
From S2P Require Import Text.
From S2P Require Import TxRelay.
From S2P Require Import ChainSync.

#[export] Instance outboundPeer_eq_dec : EqDecision outboundPeer.
Proof. solve_decision. Defined.

(** What a goroutine that dials is about to do: [createOutboundConnection], cut
    between the sections of its locks, and the sleep of [reconnectOutboundConnection]. *)
Inductive task :=
| Dialing (peer : outboundPeer)
| Dialed (peer : outboundPeer) (c : conn)
| Managed (peer : outboundPeer) (c : conn)
| Tracked (peer : outboundPeer) (c : conn)
| WithChan (c : conn)
| Sleeping (peer : outboundPeer)
| Finished.

Record network := mkNetwork {
  nw_node : Node;
  nw_tasks : list task;
  (** the connection that each accept loop is setting up, if any *)
  nw_accept : option conn;
  nw_acceptNtc : option conn;
  (** the registry of the connection manager *)
  nw_managed : list conn;
  (** connections that are closed and not yet reported *)
  nw_closing : list conn;
  nw_open : list conn;
}.

Definition set_node (n : Node) (s : network) : network :=
  mkNetwork n (nw_tasks s) (nw_accept s) (nw_acceptNtc s) (nw_managed s) (nw_closing s) (nw_open s).
Definition set_tasks (l : list task) (s : network) : network :=
  mkNetwork (nw_node s) l (nw_accept s) (nw_acceptNtc s) (nw_managed s) (nw_closing s) (nw_open s).
Definition set_managed (l : list conn) (s : network) : network :=
  mkNetwork (nw_node s) (nw_tasks s) (nw_accept s) (nw_acceptNtc s) l (nw_closing s) (nw_open s).
Definition set_closing (l : list conn) (s : network) : network :=
  mkNetwork (nw_node s) (nw_tasks s) (nw_accept s) (nw_acceptNtc s) (nw_managed s) l (nw_open s).
Definition set_open (l : list conn) (s : network) : network :=
  mkNetwork (nw_node s) (nw_tasks s) (nw_accept s) (nw_acceptNtc s) (nw_managed s) (nw_closing s) l.
Definition set_accept (ntc : bool) (h : option conn) (s : network) : network :=
  if ntc then mkNetwork (nw_node s) (nw_tasks s) (nw_accept s) h (nw_managed s) (nw_closing s) (nw_open s)
  else mkNetwork (nw_node s) (nw_tasks s) h (nw_acceptNtc s) (nw_managed s) (nw_closing s) (nw_open s).

Definition open_socket (c : conn) (s : network) : network := set_open (c :: nw_open s) s.
Definition close_socket (c : conn) (s : network) : network := set_open (filter (fun d => d <> c) (nw_open s)) s.
Definition manage (c : conn) (s : network) : network := set_managed (c :: nw_managed s) s.

(** ** Establishing a connection *)

(** The three sections that record an established connection *)
Definition track (c : conn) (peer : outboundPeer) (n : Node) : Node :=
  mkNode (nd_client n) (nd_servers n) (nd_mempool n) (<[c := peer]> (nd_outbound n)) (nd_relay n).
Definition make_chan (c : conn) (n : Node) : Node :=
  mkNode (nd_client n) (nd_servers n) (nd_mempool n) (nd_outbound n)
    (mkRelay (<[c := []]> (rl_chans (nd_relay n))) (rl_cache (nd_relay n))).
Definition make_cache (c : conn) (n : Node) : Node :=
  mkNode (nd_client n) (nd_servers n) (nd_mempool n) (nd_outbound n)
    (mkRelay (rl_chans (nd_relay n)) (<[c := ∅]> (rl_cache (nd_relay n)))).

(** Without anything in between they are [register_outbound]. *)
Lemma register_outbound_sections c peer n :
  make_cache c (make_chan c (track c peer n)) = register_outbound c peer n.
Proof. done. Qed.

(** What the network or a library answers. The configuration of block fetch and the
    set-up of the connection fail alike. A connection that the manager rejects has
    been closed by it. *)
Inductive answer :=
| ConnectFails
| ConnectOk (c : conn)
| SetupFails
| Rejects
| Adds
| Continues.

(** [reconnectOutboundConnection], up to its sleep *)
Definition reconnectOutboundConnection (peer : outboundPeer) : task := Sleeping (next_delay peer).

(** A step of [createOutboundConnection] and of the goroutine that called it *)
Definition createOutboundConnection (a : answer) (t : task) (s : network) : option (task * network) :=
  match t, a with
  | Dialing peer, ConnectFails => Some (reconnectOutboundConnection peer, s)
  | Dialing peer, ConnectOk c =>
      if bool_decide (c ∈ nw_open s) then None else Some (Dialed peer c, open_socket c s)
  | Dialed peer c, SetupFails => Some (reconnectOutboundConnection peer, close_socket c s)
  | Dialed peer c, Rejects => Some (reconnectOutboundConnection peer, close_socket c s)
  | Dialed peer c, Adds => Some (Managed peer c, manage c s)
  | Managed peer c, Continues => Some (Tracked peer c, set_node (track c peer (nw_node s)) s)
  | Tracked peer c, Continues => Some (WithChan c, set_node (make_chan c (nw_node s)) s)
  | WithChan c, Continues => Some (Finished, set_node (make_cache c (nw_node s)) s)
  | Sleeping peer, Continues => Some (Dialing peer, s)
  | _, _ => None
  end.

(** A step of an accept loop that holds [h]: a failed accept and a failed connection
    leave it at the next accept. *)
Definition acceptConnections (a : answer) (h : option conn) (s : network) : option (option conn * network) :=
  match h, a with
  | None, ConnectFails => Some (None, s)
  | None, ConnectOk c => if bool_decide (c ∈ nw_open s) then None else Some (Some c, open_socket c s)
  | Some c, SetupFails => Some (None, close_socket c s)
  | Some c, Rejects => Some (None, close_socket c s)
  | Some c, Adds => Some (None, manage c s)
  | _, _ => None
  end.

(** The loop of the second listener differs in the protocols of its connections only. *)
Definition acceptConnectionsNtc (a : answer) (h : option conn) (s : network) : option (option conn * network) :=
  acceptConnections a h s.

(** ** The steps of the node *)

Inductive event :=
| Outbound (i : nat) (a : answer)
| Inbound (ntc : bool) (a : answer)
| Ends (i : nat)       (** the manager closes and removes a connection *)
| Reports (i : nat)    (** and calls back *)
| Serves (n : Node).   (** any other callback of the node *)

(** The other callbacks do not touch the tables of the connections. *)
Definition same_connections (n n' : Node) : bool :=
  bool_decide (nd_outbound n' = nd_outbound n) &&
  bool_decide (dom (rl_chans (nd_relay n')) = dom (rl_chans (nd_relay n))).

(** The other callbacks of the node are such steps. *)
Section Serving.
Context (DetermineBlockType : list byte -> option Z) (DetermineTransactionType : list byte -> option Z)
        (NewTransactionFromCbor : Z -> list byte -> option string).

Definition keeps (n n' : Node) : Prop := nd_outbound n' = nd_outbound n /\ nd_relay n' = nd_relay n.

Lemma keeps_same n n' : keeps n n' -> same_connections n n' = true.
Proof. intros [E1 E2]. unfold same_connections. rewrite E1, E2. by rewrite !bool_decide_eq_true_2. Qed.

Lemma client_event_keeps evt n n' b :
  chainsyncClientHandleEvent DetermineBlockType evt n = Some (n', b) -> keeps n n'.
Proof.
  destruct evt as [slot hash|slot num hash cbor|hash|]; cbn.
  - destruct (Rollback _ _ _); cbn; [|done]. by intros [= <- _].
  - destruct (DetermineBlockType cbor); [|by intros [= <- _]]. destruct (AddBlock _ _); cbn; [|done]. by intros [= <- _].
  - by intros [= <- _].
  - by intros [= <- _].
Qed.

Lemma server_init_keeps c cursor n n' : chainsyncServerStateInit c cursor n = Some n' -> keeps n n'.
Proof.
  unfold chainsyncServerStateInit. destruct (nd_servers n !! c); [by intros [= <-]|].
  destruct (Sub c (nd_client n)); cbn; [|done]. by intros [= <-].
Qed.

Lemma find_intersect_keeps c points n n' r t :
  chainsyncServerFindIntersect c points n = Some (n', r, t) -> keeps n n'.
Proof.
  unfold chainsyncServerFindIntersect. case_match; [by intros [= <- _ _]|].
  destruct (chainsyncServerStateInit _ _ _) as [n1|] eqn:E; cbn; [|done]. intros [= <- _ _]. by eapply server_init_keeps.
Qed.

Lemma request_next_keeps c n n' ms : chainsyncServerRequestNext c n = Some (n', ms) -> keeps n n'.
Proof.
  unfold chainsyncServerRequestNext. destruct (chainsyncServerStateInit _ _ _) as [n1|] eqn:E; cbn; [|done].
  apply server_init_keeps in E. destruct (nd_servers n1 !! c) as [sv|]; cbn; [|done].
  unfold request_next. repeat case_match; intros [= <- _]; exact E.
Qed.

Lemma deliver_keeps c n : keeps n (deliver c n).1.
Proof. unfold deliver. repeat case_match; done. Qed.

(** Announcing and requesting transactions changes what the channels hold. *)
Lemma broadcast_dom tx ch ch' : broadcast tx ch = Some ch' -> dom ch' = dom ch.
Proof. unfold broadcast. case_match; [|done]. intros [= <-]. apply dom_fmap_L. Qed.

Lemma AddOutboundTransaction_dom tx r r' x :
  AddOutboundTransaction DetermineTransactionType NewTransactionFromCbor tx r = Some (r', x) ->
  dom (rl_chans r') = dom (rl_chans r).
Proof.
  unfold AddOutboundTransaction. repeat case_match; try (by intros [= <- _]).
  destruct (broadcast _ _) eqn:E; cbn; [|done]. intros [= <- _]. by eapply broadcast_dom.
Qed.

Lemma announce_chans c txs r : rl_chans (announce c txs r).1 = rl_chans r.
Proof.
  revert r. induction txs as [|tx txs IH]; intros r; [done|]. cbn [announce]. cbv zeta.
  destruct (hex_decode _); [|done]. case_match; [done|].
  match goal with |- context [announce c txs ?x] => specialize (IH x); destruct (announce c txs x) end. exact IH.
Qed.

Lemma RequestTxIds_dom c blocking ack req r :
  dom (rl_chans (txsubmissionClientRequestTxIds c blocking ack req r).1) = dom (rl_chans r).
Proof.
  unfold txsubmissionClientRequestTxIds.
  assert (rl_chans (if 0 <? ack then mkRelay (rl_chans r) (<[c:=∅]> (rl_cache r)) else r) = rl_chans r) as E by by case_match.
  cbv zeta. set (r1 := if 0 <? ack then _ else r) in *. rewrite <- E.
  destruct (rl_chans r1 !! c) as [txs|] eqn:Ec; [|done]. case_match; [done|].
  pose proof (announce_chans c txs (mkRelay (<[c:=[]]> (rl_chans r1)) (rl_cache r1))) as Ea.
  destruct (announce _ _ _) as [r2 ids]. cbn in *. rewrite Ea. apply dom_insert_lookup_L. by rewrite Ec.
Qed.
End Serving.

(** [None] for what cannot happen, [Err] for a panic *)
Definition step (e : event) (s : network) : option (result unit network) :=
  match e with
  | Outbound i a =>
      t ← nw_tasks s !! i;
      '(t', s') ← createOutboundConnection a t s;
      Some (Ok (set_tasks (<[i := t']> (nw_tasks s')) s'))
  | Inbound ntc a =>
      '(h, s') ← (if ntc then acceptConnectionsNtc a (nw_acceptNtc s) s else acceptConnections a (nw_accept s) s);
      Some (Ok (set_accept ntc h s'))
  | Ends i =>
      c ← nw_managed s !! i;
      Some (Ok (set_closing (c :: nw_closing s) (close_socket c (set_managed (delete i (nw_managed s)) s))))
  | Reports i =>
      c ← nw_closing s !! i;
      Some
        match connectionManagerConnClosed c (nw_node s) with
        | Err e => Err e
        | Ok (n, peer) =>
            Ok (set_tasks (nw_tasks s ++ match peer with
                                         | Some p => [reconnectOutboundConnection p]
                                         | None => []
                                         end)
                  (set_closing (delete i (nw_closing s)) (set_node n s)))
        end
  | Serves n => if same_connections (nw_node s) n then Some (Ok (set_node n s)) else None
  end.

Fixpoint run (events : list event) (s : network) : option (result unit network) :=
  match events with
  | [] => Some (Ok s)
  | e :: events' =>
      match step e s with
      | Some (Ok s') => run events' s'
      | r => r
      end
  end.

(** [Start]: the listeners, whether they can be opened, and a goroutine for each
    peer of the topology. When the second listener fails the first loop goes on. *)
Inductive start_result := ListenFailed | ListenNtcFailed | Started (s : network).

Definition Start (listen listenNtc : bool) (peers : list string) (n : Node) : start_result :=
  if negb listen then ListenFailed
  else if negb listenNtc then ListenNtcFailed
  else Started (mkNetwork n ((fun a => Dialing (mkPeer a 0 0)) <$> peers) None None [] [] []).

(** ** Sockets *)

(** Connections that a goroutine is setting up *)
Definition dialed (t : task) : option conn := match t with Dialed _ c => Some c | _ => None end.
Definition in_setup (s : network) : list conn :=
  omap dialed (nw_tasks s) ++ option_list (nw_accept s) ++ option_list (nw_acceptNtc s).

(** Every open socket has one owner. *)
Definition owned (s : network) : Prop :=
  NoDup (nw_open s) /\ nw_open s ≡ₚ nw_managed s ++ in_setup s.

Lemma omap_update {A B} (f : A -> option B) (l : list A) (i : nat) (t t' : A) :
  l !! i = Some t ->
  omap f l ≡ₚ option_list (f t) ++ omap f (delete i l) /\
  omap f (<[i := t']> l) ≡ₚ option_list (f t') ++ omap f (delete i l).
Proof.
  revert i. induction l as [|x l IH]; [done|]. intros [|i] Hi; cbn in Hi |- *.
  - injection Hi as ->. split; [destruct (f t) | destruct (f t')]; done.
  - destruct (IH i Hi) as [E1 E2]. destruct (f x); cbn; [|done].
    rewrite E1, E2. split; apply Permutation_middle.
Qed.

Lemma filter_other (c : conn) (l : list conn) : c ∉ l -> filter (fun d => d <> c) l = l.
Proof.
  induction l as [|x l IH]; [done|]. rewrite not_elem_of_cons. intros [Hx Hl].
  rewrite filter_cons_True by done. by rewrite IH.
Qed.

Lemma close_perm (c : conn) (l rest : list conn) : NoDup l -> l ≡ₚ c :: rest -> filter (fun d => d <> c) l ≡ₚ rest.
Proof.
  intros Hl E. rewrite E in Hl |- *. apply NoDup_cons in Hl as [Hc Hl].
  rewrite filter_cons_False by (intros H; by apply H). by rewrite filter_other.
Qed.

Lemma inbound_loop (ntc : bool) a s :
  acceptConnections a (if ntc then nw_acceptNtc s else nw_accept s) s =
  if ntc then acceptConnections a (nw_acceptNtc s) s else acceptConnections a (nw_accept s) s.
Proof. by destruct ntc. Qed.

Lemma step_owned e s s' : step e s = Some (Ok s') -> owned s -> owned s'.
Proof.
  intros E [Hnd Hp]. destruct e as [i a|ntc a|i|i|n]; cbn in E.
  - destruct (nw_tasks s !! i) as [t|] eqn:Et; [|done]. cbn in E.
    destruct (createOutboundConnection a t s) as [[t' s1]|] eqn:Ec; [|done]. injection E as <-.
    destruct (omap_update dialed _ _ _ t' Et) as [E1 E2].
    unfold owned, in_setup in *.
    destruct t, a; cbn in Ec; try done; try (case_bool_decide; [done|]); injection Ec as <- <-;
      cbn in E1, E2 |- *; rewrite E1 in Hp; rewrite ?E2;
      try (split; [done|]; rewrite Hp; solve_Permutation).
    + split; [by apply NoDup_cons|]. rewrite Hp. solve_Permutation.
    + split; [by apply NoDup_filter|]. apply close_perm; [done|]. rewrite Hp. solve_Permutation.
    + split; [by apply NoDup_filter|]. apply close_perm; [done|]. rewrite Hp. solve_Permutation.
  - unfold acceptConnectionsNtc in E. rewrite <- inbound_loop in E.
    destruct (acceptConnections _ _ s) as [[h s1]|] eqn:Ec; cbn in E; [|done]. injection E as <-.
    unfold owned, in_setup in *.
    destruct ntc; [destruct (nw_acceptNtc s), a | destruct (nw_accept s), a]; cbn in Ec; try done;
      try (case_bool_decide; [done|]); injection Ec as <- <-; cbn in Hp |- *;
      first [split; [by apply NoDup_cons|] | split; [by apply NoDup_filter|]; apply close_perm; [done|] | split; [done|]];
      rewrite Hp; solve_Permutation.
  - destruct (nw_managed s !! i) as [c|] eqn:Ei; [|done]. injection E as <-. unfold owned, in_setup in *. cbn.
    split; [by apply NoDup_filter|]. apply close_perm; [done|].
    rewrite Hp. apply (Permutation_app_tail _ (delete_Permutation _ _ _ Ei)).
  - destruct (nw_closing s !! i) as [c|]; [|done]. cbn in E.
    destruct (connectionManagerConnClosed c (nw_node s)) as [[n [q|]]|]; [| |done]; injection E as <-;
      unfold owned, in_setup in *; cbn; [|by rewrite app_nil_r]. split; [done|]. rewrite omap_app. cbn.
    by rewrite app_nil_r.
  - destruct (same_connections _ _); [|done]. by injection E as <-.
Qed.

(** ** Peers *)

Definition chans (s : network) : gmap conn (list ntnTransaction) := rl_chans (nd_relay (nw_node s)).
Definition outbound (s : network) : gmap conn outboundPeer := nd_outbound (nw_node s).
(** Connections whose end is still to be reported *)
Definition unreported (s : network) : list conn := nw_managed s ++ nw_closing s.

(** The connection that a goroutine is recording, and the peer it works for until the
    channel of the connection, and with it the connection, stands for the peer *)
Definition recording (t : task) : option conn :=
  match t with Managed _ c | Tracked _ c | WithChan c => Some c | _ => None end.
Definition peer_of (t : task) : option outboundPeer :=
  match t with
  | Dialing p | Dialed p _ | Managed p _ | Tracked p _ | Sleeping p => Some p
  | _ => None
  end.
Definition tended (s : network) : list outboundPeer :=
  omap peer_of (nw_tasks s) ++ omap (fun c => outbound s !! c) (elements (dom (chans s))).

(** What becomes of the peers, connections left out: one of them waits longer. *)
Inductive tend : list outboundPeer -> list outboundPeer -> Prop :=
| tend_on l l' : l ≡ₚ l' -> tend l l'
| tend_again p l l1 l' : l ≡ₚ p :: l1 -> l' ≡ₚ next_delay p :: l1 -> tend l l'.

(** Steps that do not disturb the recording of a connection: no identifier is used
    again before the end of its connection is reported, or by a peer that connects
    from where the node had connected to, and no connection ends so early that its
    end is reported while it is being recorded. *)
Definition undisturbed (e : event) (s : network) : bool :=
  match e with
  | Outbound _ (ConnectOk c) => bool_decide (c ∉ nw_closing s)
  | Inbound _ (ConnectOk c) => bool_decide (c ∉ nw_closing s) && bool_decide (outbound s !! c = None)
  | Reports i =>
      match nw_closing s !! i with
      | Some c => bool_decide (c ∉ omap recording (nw_tasks s))
      | None => true
      end
  | _ => true
  end.

Fixpoint undisturbed_run (events : list event) (s : network) : bool :=
  match events with
  | [] => true
  | e :: events' =>
      undisturbed e s && match step e s with Some (Ok s') => undisturbed_run events' s' | _ => true end
  end.

(** What a goroutine may rely on *)
Definition task_ok (s : network) (t : task) : Prop :=
  match t with
  | Managed _ c => chans s !! c = None
  | Tracked p c => chans s !! c = None /\ outbound s !! c = Some p
  | WithChan c => is_Some (chans s !! c)
  | _ => True
  end.

Record settled (s : network) : Prop := mkSettled {
  st_owned : owned s;
  st_closing : NoDup (nw_open s ++ nw_closing s);
  st_recording : NoDup (omap recording (nw_tasks s));
  st_recorded : forall c, c ∈ omap recording (nw_tasks s) -> c ∈ unreported s;
  st_task : Forall (task_ok s) (nw_tasks s);
  st_chan : forall c, is_Some (chans s !! c) -> is_Some (outbound s !! c) /\ c ∈ unreported s;
  st_tracked : forall c, c ∈ unreported s -> is_Some (outbound s !! c) ->
    is_Some (chans s !! c) \/ c ∈ omap recording (nw_tasks s);
  st_accept : forall c, nw_accept s = Some c \/ nw_acceptNtc s = Some c -> outbound s !! c = None;
}.

Lemma setup_not_unreported s c : owned s -> NoDup (nw_open s ++ nw_closing s) -> c ∈ in_setup s -> c ∉ unreported s.
Proof.
  intros [Hnd Hp] Hcl Hc. rewrite Hp in Hcl. unfold unreported.
  apply NoDup_app in Hcl as (H1 & H2 & _). apply NoDup_app in H1 as (_ & H3 & _).
  rewrite elem_of_app. intros [Hm|Hm]; [by eapply H3 | apply (H2 c); [apply elem_of_app; by right|done]].
Qed.

Lemma update_perm {A} (l : list A) (i : nat) (t t' : A) :
  l !! i = Some t -> l ≡ₚ t :: delete i l /\ <[i := t']> l ≡ₚ t' :: delete i l.
Proof.
  revert i. induction l as [|x l IH]; [done|]. intros [|i] Hi; cbn in Hi |- *; [by injection Hi as ->|].
  destruct (IH i Hi) as [E1 E2]. rewrite E1 at 1. rewrite E2. split; apply perm_swap.
Qed.

Lemma recording_in t (ts : list task) c : t ∈ ts -> recording t = Some c -> c ∈ omap recording ts.
Proof. intros Ht E. apply list_elem_of_omap. eauto. Qed.

(** A task does not see what happens to other connections. *)
Lemma task_ok_other c s s' t :
  recording t <> Some c ->
  (forall d, d <> c -> chans s' !! d = chans s !! d /\ outbound s' !! d = outbound s !! d) ->
  task_ok s t -> task_ok s' t.
Proof.
  intros Ht Hs. destruct t as [|p d|p d|p d|d| |]; cbn; try done; cbn in Ht;
    (destruct (Hs d) as [E1 E2]; [congruence|]; by rewrite ?E1, ?E2).
Qed.

Lemma tasks_ok_other c s s' (ts : list task) :
  c ∉ omap recording ts ->
  (forall d, d <> c -> chans s' !! d = chans s !! d /\ outbound s' !! d = outbound s !! d) ->
  Forall (task_ok s) ts -> Forall (task_ok s') ts.
Proof.
  rewrite !Forall_forall. intros Hc Hs Hok t Ht. apply (task_ok_other c s); [|done|by apply Hok].
  intros E. by eapply Hc, recording_in.
Qed.

(** Steps that leave the tables and the recorded connections alone *)
Lemma settled_frame s s' :
  settled s -> owned s' -> NoDup (nw_open s' ++ nw_closing s') ->
  outbound s' = outbound s -> dom (chans s') = dom (chans s) ->
  (forall c, c ∈ unreported s ->
     c ∈ unreported s' \/ c ∉ omap recording (nw_tasks s) /\ chans s !! c = None) ->
  (forall c, c ∈ unreported s' -> c ∈ unreported s \/ outbound s !! c = None) ->
  omap recording (nw_tasks s') ≡ₚ omap recording (nw_tasks s) ->
  Forall (task_ok s) (nw_tasks s') ->
  (forall c, nw_accept s' = Some c \/ nw_acceptNtc s' = Some c -> outbound s !! c = None) ->
  settled s'.
Proof.
  intros [Hown Hcl Hr Hrd Ht Hc Htr Ha] Hown' Hcl' Eo Ed Hu Hu' Er Ht' Ha'.
  assert (forall c, is_Some (chans s' !! c) <-> is_Some (chans s !! c)) as Es.
  { intros c. by rewrite <- !elem_of_dom, Ed. }
  split; try done.
  - by rewrite Er.
  - intros c Hin. rewrite Er in Hin. by destruct (Hu c (Hrd c Hin)) as [|[]].
  - eapply Forall_impl; [exact Ht'|]. intros [|p d|p d|p d|d| |]; cbn; try done; rewrite ?Eo.
    + rewrite !eq_None_not_Some, Es. done.
    + rewrite !eq_None_not_Some, Es. done.
    + by rewrite Es.
  - intros c. rewrite Es, Eo. intros Hs. destruct (Hc c Hs) as [H1 H2]. split; [done|].
    destruct (Hu c H2) as [|[_ E]]; [done|]. rewrite E in Hs. by destruct Hs.
  - intros c Hin Hs. rewrite Eo in Hs. rewrite Es, Er. apply Htr; [|done].
    destruct (Hu' c Hin) as [|E]; [done|]. rewrite E in Hs. by destruct Hs.
  - intros c H. rewrite Eo. by apply Ha'.
Qed.

(** The manager takes a connection over. *)
Lemma settled_add p c rest ts s :
  settled s -> nw_tasks s ≡ₚ Dialed p c :: rest -> ts ≡ₚ Managed p c :: rest ->
  owned (set_tasks ts (manage c s)) -> settled (set_tasks ts (manage c s)).
Proof.
  intros [Hown Hcl Hr Hrd Ht Hc Htr Ha] E E' Hown'.
  assert (c ∉ unreported s) as Hnew.
  { apply setup_not_unreported; [done..|]. unfold in_setup. rewrite E. cbn. by left. }
  assert (omap recording ts ≡ₚ c :: omap recording (nw_tasks s)) as Er by by rewrite E', E.
  split; try done; cbn [nw_tasks nw_accept nw_acceptNtc set_tasks manage set_managed].
  - rewrite Er. apply NoDup_cons. split; [|done]. intros H. by apply Hnew, Hrd.
  - intros d. rewrite Er. unfold unreported; cbn. rewrite !elem_of_cons. intros [->|H]; [by left|right]. by apply Hrd.
  - assert (Forall (task_ok s) ts) as Hts; [|exact Hts].
    rewrite E'. rewrite E in Ht. apply Forall_cons in Ht as [_ Ht]. apply Forall_cons. split; [|exact Ht]. cbn.
    apply eq_None_not_Some. intros H. by apply Hnew, Hc.
  - intros d H. destruct (Hc d H). split; [done|]. unfold unreported; cbn. apply elem_of_cons. by right.
  - intros d Hin Hs. rewrite Er. unfold unreported in Hin; cbn in Hin. apply elem_of_cons in Hin as [->|Hin].
    + right. by left.
    + destruct (Htr d Hin Hs); [by left|right]. by right.
Qed.

(** The peer of a connection is noted. *)
Lemma settled_track p c rest ts s :
  settled s -> nw_tasks s ≡ₚ Managed p c :: rest -> ts ≡ₚ Tracked p c :: rest ->
  settled (set_tasks ts (set_node (track c p (nw_node s)) s)) /\
  tended (set_tasks ts (set_node (track c p (nw_node s)) s)) ≡ₚ tended s.
Proof.
  intros [Hown Hcl Hr Hrd Ht Hc Htr Ha] E E'.
  assert (omap recording ts ≡ₚ omap recording (nw_tasks s)) as Er by by rewrite E', E.
  assert (chans s !! c = None) as Hnone by (rewrite E in Ht; by apply Forall_cons in Ht as [Ht _]).
  set (s' := set_tasks ts (set_node (track c p (nw_node s)) s)).
  assert (forall d, d <> c -> outbound s' !! d = outbound s !! d) as Ho.
  { intros d Hd. unfold s', outbound, track. cbn. by rewrite lookup_insert_ne. }
  assert (outbound s' !! c = Some p) as Hoc by (unfold s', outbound, track; cbn; by rewrite lookup_insert_eq).
  assert (c ∈ unreported s) as Hlive by (apply Hrd; rewrite E; cbn; by left).
  split; [split|].
  - unfold owned, in_setup in *. cbn. split; [apply Hown|]. rewrite E'. cbn. destruct Hown as [_ Hp].
    rewrite E in Hp. exact Hp.
  - done.
  - cbn. by rewrite Er.
  - intros d. cbn. rewrite Er. apply Hrd.
  - cbn [nw_tasks s' set_tasks]. rewrite E'. rewrite E in Ht, Hr. apply Forall_cons in Ht as [_ Ht].
    cbn in Hr. apply NoDup_cons in Hr as [Hcr _]. apply Forall_cons. split; [done|].
    by apply (tasks_ok_other c s); [|intros d Hd; split; [done|by apply Ho]|].
  - intros d Hd. destruct (Hc d Hd) as [H1 H2]. split; [|done]. destruct (decide (d = c)) as [->|Hne].
    + by rewrite Hoc.
    + by rewrite Ho.
  - intros d Hd Hs. cbn [nw_tasks s' set_tasks]. rewrite Er. destruct (decide (d = c)) as [->|Hne].
    + right. rewrite E. cbn. by left.
    + rewrite Ho in Hs by done. by apply Htr.
  - intros d Hd. rewrite Ho; [by apply Ha|]. intros ->. eapply setup_not_unreported; [exact Hown|done| |exact Hlive].
    unfold in_setup. rewrite !elem_of_app. cbn in Hd. right. destruct Hd as [-> | ->]; [left|right]; by left.
  - unfold tended. cbn [nw_tasks s' set_tasks]. rewrite E', E. cbn. apply perm_skip, Permutation_app_head.
    change (chans s') with (chans s). erewrite list_omap_ext; [reflexivity|].
    apply Forall2_same_length_lookup. split; [done|]. intros j d d' Hd Hd'. assert (d' = d) as -> by congruence.
    apply Ho. intros ->. apply list_elem_of_lookup_2, elem_of_elements, elem_of_dom in Hd. rewrite Hnone in Hd.
    by destruct Hd.
Qed.

Lemma elements_insert (c : conn) (X : gset conn) : c ∉ X -> elements ({[c]} ∪ X) ≡ₚ c :: elements X.
Proof. intros Hc. by apply elements_union_singleton. Qed.

(** Its channel is made, and the connection stands for the peer. *)
Lemma settled_chan p c rest ts s :
  settled s -> nw_tasks s ≡ₚ Tracked p c :: rest -> ts ≡ₚ WithChan c :: rest ->
  settled (set_tasks ts (set_node (make_chan c (nw_node s)) s)) /\
  tended (set_tasks ts (set_node (make_chan c (nw_node s)) s)) ≡ₚ tended s.
Proof.
  intros [Hown Hcl Hr Hrd Ht Hc Htr Ha] E E'.
  assert (omap recording ts ≡ₚ omap recording (nw_tasks s)) as Er by by rewrite E', E.
  assert (chans s !! c = None /\ outbound s !! c = Some p) as [Hnone Hp]
    by (rewrite E in Ht; by apply Forall_cons in Ht as [Ht _]).
  assert (c ∈ unreported s) as Hlive by (apply Hrd; rewrite E; cbn; by left).
  set (s' := set_tasks ts (set_node (make_chan c (nw_node s)) s)).
  assert (chans s' = <[c := []]> (chans s)) as Ech by done.
  split; [split|].
  - unfold owned, in_setup in *. cbn. split; [apply Hown|]. rewrite E'. cbn. destruct Hown as [_ Hp'].
    rewrite E in Hp'. exact Hp'.
  - done.
  - cbn. by rewrite Er.
  - intros d. cbn. rewrite Er. apply Hrd.
  - cbn [nw_tasks s' set_tasks]. rewrite E'. rewrite E in Ht, Hr. apply Forall_cons in Ht as [_ Ht].
    cbn in Hr. apply NoDup_cons in Hr as [Hcr _]. apply Forall_cons. split.
    + change (is_Some (chans s' !! c)). by rewrite Ech, lookup_insert_eq.
    + apply (tasks_ok_other c s s'); [done| |done]. intros d Hd. by rewrite Ech, lookup_insert_ne.
  - intros d. rewrite Ech. intros Hd. change (is_Some (outbound s !! d) /\ d ∈ unreported s).
    destruct (decide (d = c)) as [->|Hne]; [by rewrite Hp|]. rewrite lookup_insert_ne in Hd by done. by apply Hc.
  - intros d Hd Hs. rewrite Ech. destruct (decide (d = c)) as [->|Hne]; [left; by rewrite lookup_insert_eq|].
    rewrite lookup_insert_ne by done. cbn [nw_tasks s' set_tasks]. rewrite Er. by apply Htr.
  - exact Ha.
  - unfold tended. rewrite Ech, dom_insert, elements_insert by by apply not_elem_of_dom.
    cbn [nw_tasks s' set_tasks omap list_omap]. rewrite E', E.
    change (outbound s') with (outbound s). cbn. rewrite Hp. solve_Permutation.
Qed.

(** Its cache is made; the goroutine ends. *)
Lemma settled_cache c rest ts s :
  settled s -> nw_tasks s ≡ₚ WithChan c :: rest -> ts ≡ₚ Finished :: rest ->
  settled (set_tasks ts (set_node (make_cache c (nw_node s)) s)) /\
  tended (set_tasks ts (set_node (make_cache c (nw_node s)) s)) ≡ₚ tended s.
Proof.
  intros [Hown Hcl Hr Hrd Ht Hc Htr Ha] E E'.
  assert (omap recording (nw_tasks s) ≡ₚ c :: omap recording ts) as Er by by rewrite E', E.
  assert (is_Some (chans s !! c)) as Hsome by (rewrite E in Ht; by apply Forall_cons in Ht as [Ht _]).
  set (s' := set_tasks ts (set_node (make_cache c (nw_node s)) s)).
  split; [split|].
  - unfold owned, in_setup in *. cbn. split; [apply Hown|]. rewrite E'. cbn. destruct Hown as [_ Hp].
    rewrite E in Hp. exact Hp.
  - done.
  - cbn. rewrite Er in Hr. by apply NoDup_cons in Hr as [_ Hr].
  - intros d Hd. apply Hrd. rewrite Er. by right.
  - assert (Forall (task_ok s) ts) as Hts; [|exact Hts]. rewrite E'. rewrite E in Ht.
    apply Forall_cons in Ht as [_ Ht]. by apply Forall_cons.
  - done.
  - intros d Hd Hs. destruct (Htr d Hd Hs) as [|H]; [by left|]. rewrite Er in H.
    apply elem_of_cons in H as [->|H]; [by left|by right].
  - exact Ha.
  - unfold tended. cbn [nw_tasks s' set_tasks]. by rewrite E', E.
Qed.

Lemma elements_remove (c : conn) (X : gset conn) : c ∈ X -> elements X ≡ₚ c :: elements (X ∖ {[c]}).
Proof.
  intros Hc. rewrite (union_difference_singleton_L c X Hc) at 1. apply elements_insert. set_solver.
Qed.

(** The callback leaves the table of the peers alone, and what it does to the channels
    depends on that table. *)
Lemma closed_callback c n :
  match nd_outbound n !! c, rl_chans (nd_relay n) !! c with
  | None, _ => exists n', connectionManagerConnClosed c n = Ok (n', None) /\
      nd_outbound n' = nd_outbound n /\ nd_relay n' = nd_relay n
  | Some p, Some _ => exists n', connectionManagerConnClosed c n = Ok (n', Some p) /\
      nd_outbound n' = nd_outbound n /\ rl_chans (nd_relay n') = delete c (rl_chans (nd_relay n))
  | Some _, None => connectionManagerConnClosed c n = Err tt
  end.
Proof.
  unfold connectionManagerConnClosed. destruct (nd_servers n !! c); cbn;
    destruct (nd_outbound n !! c); cbn; [|by eauto| |by eauto];
    (destruct (rl_chans (nd_relay n) !! c); cbn; [by eauto|done]).
Qed.

Definition reported (i : nat) (n : Node) (more : list task) (s : network) : network :=
  set_tasks (nw_tasks s ++ more) (set_closing (delete i (nw_closing s)) (set_node n s)).

(** What is left to be reported *)
Lemma unreported_delete c i s :
  settled s -> nw_closing s !! i = Some c ->
  unreported s ≡ₚ c :: (nw_managed s ++ delete i (nw_closing s)) /\
  NoDup (nw_open s ++ delete i (nw_closing s)) /\ c ∉ nw_managed s ++ delete i (nw_closing s).
Proof.
  intros Hs Ei. pose proof (delete_Permutation _ _ _ Ei) as Ecl.
  pose proof (st_closing s Hs) as Hcl. rewrite Ecl, <- Permutation_middle in Hcl.
  apply NoDup_cons in Hcl as [Hc Hcl]. split_and!; [|done|].
  - unfold unreported. rewrite Ecl at 1. symmetry. apply Permutation_middle.
  - destruct (st_owned s Hs) as [_ Hp]. rewrite Hp in Hc. set_solver.
Qed.

(** The end of a connection is reported that no goroutine is recording. *)
Lemma settled_report c i s :
  settled s -> nw_closing s !! i = Some c -> c ∉ omap recording (nw_tasks s) ->
  exists s', step (Reports i) s = Some (Ok s') /\ settled s' /\ tend (tended s) (tended s').
Proof.
  intros Hs Ei Hc. pose proof (closed_callback c (nw_node s)) as Hcall. cbn [step]. rewrite Ei. cbn.
  change (nd_outbound (nw_node s)) with (outbound s) in Hcall.
  change (rl_chans (nd_relay (nw_node s))) with (chans s) in Hcall.
  destruct (unreported_delete c i s Hs Ei) as (Eu & Hcl & Hgone).
  assert (c ∈ unreported s) as Hlive by (rewrite Eu; by left).
  destruct (outbound s !! c) as [p|] eqn:Ep.
  - destruct (st_tracked s Hs c Hlive) as [[txs Hch]|]; [by rewrite Ep| |done]. rewrite Hch in Hcall.
    destruct Hcall as (n & -> & Eo & Er). exists (reported i n [reconnectOutboundConnection p] s). split; [done|].
    set (s' := reported i n [reconnectOutboundConnection p] s).
    assert (outbound s' = outbound s) as Eo' by exact Eo.
    assert (chans s' = delete c (chans s)) as Ec' by exact Er.
    assert (nw_tasks s' ≡ₚ Sleeping (next_delay p) :: nw_tasks s) as Et by (symmetry; apply Permutation_cons_append).
    assert (omap recording (nw_tasks s') ≡ₚ omap recording (nw_tasks s)) as Eomap by by rewrite Et.
    destruct Hs as [[Hnd Hp] _ Hr Hrd Ht Hchan Htr Ha].
    split; [split|].
    + split; [done|]. unfold in_setup. by rewrite Et.
    + exact Hcl.
    + by rewrite Eomap.
    + intros d. rewrite Eomap. intros Hd. pose proof (Hrd d Hd) as Hu. rewrite Eu in Hu.
      apply elem_of_cons in Hu as [->|Hu]; [done|exact Hu].
    + rewrite Et. apply Forall_cons. split; [done|]. apply (tasks_ok_other c s s'); [done| |done].
      intros d Hd. by rewrite Ec', Eo', lookup_delete_ne.
    + intros d. rewrite Ec', Eo'. intros [x Hd]. apply lookup_delete_Some in Hd as [Hne Hd].
      destruct (Hchan d) as [H1 H2]; [by eauto|]. split; [done|]. rewrite Eu in H2.
      apply elem_of_cons in H2 as [->|H2]; [done|exact H2].
    + intros d Hd Hso. change (d ∈ nw_managed s ++ delete i (nw_closing s)) in Hd.
      rewrite Eo' in Hso. rewrite Ec', Eomap, lookup_delete_ne by (intros ->; done). apply Htr; [|done]. rewrite Eu. by right.
    + by rewrite Eo'.
    + apply (tend_again p _ (omap peer_of (nw_tasks s) ++
        omap (fun d => outbound s !! d) (elements (dom (chans s) ∖ {[c]})))).
      * unfold tended. rewrite (elements_remove c (dom (chans s))) by (apply elem_of_dom; eauto). cbn. rewrite Ep. solve_Permutation.
      * unfold tended. by rewrite Ec', Eo', dom_delete_L, Et.
  - destruct Hcall as (n & -> & Eo & Er). exists (reported i n [] s). split; [done|].
    assert (chans (reported i n [] s) = chans s) as Ec' by (unfold chans; cbn; by rewrite Er).
    assert (nw_tasks (reported i n [] s) = nw_tasks s) as Et by apply app_nil_r. split.
    + apply (settled_frame s); [done| |exact Hcl|exact Eo|by rewrite Ec'| | |by rewrite Et|rewrite Et; apply Hs|apply Hs].
      * destruct (st_owned s Hs). split; [done|]. unfold in_setup. by rewrite Et.
      * intros d Hd. rewrite Eu in Hd. apply elem_of_cons in Hd as [->|Hd]; [right|by left]. split; [done|].
        apply eq_None_not_Some. intros H. destruct (st_chan s Hs c H) as [Ho _]. rewrite Ep in Ho. by destruct Ho.
      * intros d Hd. left. rewrite Eu. by right.
    + apply tend_on. unfold tended. rewrite Et, Ec'. change (outbound (reported i n [] s)) with (nd_outbound n).
      by rewrite Eo.
Qed.

Lemma filter_app_NoDup (c : conn) (l k : list conn) : NoDup (l ++ k) -> NoDup (filter (fun d => d <> c) l ++ k).
Proof.
  rewrite !NoDup_app. intros (H1 & H2 & H3). split_and!; [by apply NoDup_filter| |done].
  intros x Hx. apply list_elem_of_filter in Hx as [_ Hx]. by apply H2.
Qed.

Lemma frame_same s : forall c, c ∈ unreported s -> c ∈ unreported s \/ c ∉ omap recording (nw_tasks s) /\ chans s !! c = None.
Proof. intros c Hc. by left. Qed.

Lemma frame_same' s : forall c, c ∈ unreported s -> c ∈ unreported s \/ outbound s !! c = None.
Proof. intros c Hc. by left. Qed.

Lemma tended_frame s s' :
  chans s' = chans s -> outbound s' = outbound s ->
  tend (omap peer_of (nw_tasks s)) (omap peer_of (nw_tasks s')) -> tend (tended s) (tended s').
Proof.
  intros Ec Eo H. unfold tended. rewrite Ec, Eo.
  inversion H as [? ? E | p ? l1 ? E E']; subst.
  - apply tend_on. by rewrite E.
  - eapply (tend_again p); [rewrite E | rewrite E']; cbn; reflexivity.
Qed.

Lemma tend_perm l l' l1 l1' : l ≡ₚ l1 -> l' ≡ₚ l1' -> tend l1 l1' -> tend l l'.
Proof.
  intros E E' H. inversion H as [? ? E1 | p ? l2 ? E1 E1']; subst.
  - apply tend_on. by rewrite E, E1.
  - apply (tend_again p _ l2); [rewrite E | rewrite E']; done.
Qed.

Lemma outbound_settled i a s r :
  settled s -> undisturbed (Outbound i a) s = true -> step (Outbound i a) s = Some r ->
  exists s', r = Ok s' /\ settled s' /\ tend (tended s) (tended s').
Proof.
  intros Hs Hu E. pose proof (fun s' => step_owned (Outbound i a) s s') as Hown. rewrite E in Hown. cbn in E.
  destruct (nw_tasks s !! i) as [t|] eqn:Et; [|done]. cbn in E.
  destruct (createOutboundConnection a t s) as [[t' s1]|] eqn:Ec; [|done]. injection E as <-.
  destruct (update_perm _ _ _ t' Et) as [E1 E2]. revert E1 E2. generalize (delete i (nw_tasks s)) as rest. intros rest E1 E2.
  specialize (Hown _ eq_refl (st_owned s Hs)). exists (set_tasks (<[i:=t']> (nw_tasks s1)) s1). split; [done|].
  pose proof (st_task s Hs) as Hok. rewrite E1 in Hok. apply Forall_cons in Hok as [_ Hok].
  destruct t as [p|p c|p c|p c|c|p|], a as [|c'| | | |]; cbn in Ec; try done;
    try (case_bool_decide as Hopen; [done|]); injection Ec as <- <-; cbn [nw_tasks open_socket close_socket set_open
      manage set_managed set_node] in Hown |- *.
  (* steps of a goroutine that leave the tables alone *)
  1-4, 9: split; [apply (settled_frame s); [done|exact Hown| |done|done|exact (frame_same s)|exact (frame_same' s)| | |apply Hs];
      [|cbn; by rewrite E2, E1|cbn; rewrite E2; by apply Forall_cons]|
    apply tended_frame; [done..|]; cbn; eapply tend_perm; [by rewrite E1|by rewrite E2|];
    cbn; first [by apply tend_on | eapply tend_again; reflexivity]].
  - apply Hs.
  - cbn in Hu. apply bool_decide_eq_true in Hu. cbn. apply NoDup_cons. split; [set_solver|apply Hs].
  - apply filter_app_NoDup, Hs.
  - apply filter_app_NoDup, Hs.
  - apply Hs.
  - split; [by eapply settled_add|]. apply tended_frame; [done..|]. apply tend_on. cbn. by rewrite E2, E1.
  - destruct (settled_track p c _ _ s Hs E1 E2). split; [done|]. by apply tend_on.
  - destruct (settled_chan p c _ _ s Hs E1 E2). split; [done|]. by apply tend_on.
  - destruct (settled_cache c _ _ s Hs E1 E2). split; [done|]. by apply tend_on.
Qed.

Lemma inbound_settled ntc a s r :
  settled s -> undisturbed (Inbound ntc a) s = true -> step (Inbound ntc a) s = Some r ->
  exists s', r = Ok s' /\ settled s' /\ tend (tended s) (tended s').
Proof.
  intros Hs Hu E. pose proof (fun s' => step_owned (Inbound ntc a) s s') as Hown. rewrite E in Hown. cbn in E.
  unfold acceptConnectionsNtc in E. rewrite <- inbound_loop in E.
  destruct (acceptConnections a _ s) as [[h s1]|] eqn:Ec; cbn in E; [|done]. injection E as <-.
  specialize (Hown _ eq_refl (st_owned s Hs)). exists (set_accept ntc h s1). split; [done|].
  assert (nw_node s1 = nw_node s /\ nw_tasks s1 = nw_tasks s /\ nw_closing s1 = nw_closing s /\
    nw_accept s1 = nw_accept s /\ nw_acceptNtc s1 = nw_acceptNtc s /\
    (forall c, c ∈ unreported s -> c ∈ unreported s1) /\
    (forall c, c ∈ unreported s1 -> c ∈ unreported s \/ outbound s !! c = None) /\
    NoDup (nw_open s1 ++ nw_closing s) /\ (forall c, h = Some c -> outbound s !! c = None))
    as (En & Et & Ecl & Ea & Ea' & Hin & Hin' & Hnd & Hh).
  { pose proof (st_accept s Hs) as Ha. cbn in Hu.
    assert (forall c, (if ntc then nw_acceptNtc s else nw_accept s) = Some c -> outbound s !! c = None) as Ha'
      by (intros c H; apply Ha; destruct ntc; auto).
    destruct (if ntc then nw_acceptNtc s else nw_accept s) as [d|], a as [|c'| | | |]; cbn in Ec; try done;
      try (case_bool_decide as Hopen; [done|]); injection Ec as <- <-; cbn; split_and!; try done;
      try exact (fun c H => H); try exact (fun c H => or_introl H); try apply Hs;
      try (apply filter_app_NoDup, Hs).
    - intros c Hc. by right.
    - intros c Hc. apply elem_of_cons in Hc as [->|Hc]; [right; by apply Ha'|by left].
    - apply andb_prop in Hu as [H1%bool_decide_eq_true _]. apply NoDup_cons. split; [set_solver|apply Hs].
    - intros c [= <-]. by apply andb_prop in Hu as [_ H2%bool_decide_eq_true]. }
  assert (nw_tasks (set_accept ntc h s1) = nw_tasks s) as Et' by by destruct ntc.
  assert (nw_node (set_accept ntc h s1) = nw_node s) as En' by by destruct ntc.
  assert (unreported (set_accept ntc h s1) = unreported s1) as Eu by by destruct ntc.
  split.
  - apply (settled_frame s); try done; unfold outbound, chans; rewrite ?En', ?Et', ?Eu; try done; [| |apply Hs|].
    + destruct ntc; cbn; by rewrite Ecl.
    + intros c Hc. left. by apply Hin.
    + intros c. pose proof (st_accept s Hs c) as Ha. destruct ntc; cbn; rewrite ?Ea, ?Ea'; intros [H|H]; auto.
  - apply tended_frame; unfold outbound, chans; rewrite ?En', ?Et'; try done. by apply tend_on.
Qed.

Lemma ends_settled i s r :
  settled s -> step (Ends i) s = Some r ->
  exists s', r = Ok s' /\ settled s' /\ tend (tended s) (tended s').
Proof.
  intros Hs E. pose proof (fun s' => step_owned (Ends i) s s') as Hown. rewrite E in Hown. cbn in E.
  destruct (nw_managed s !! i) as [c|] eqn:Ei; [|done]. injection E as <-.
  specialize (Hown _ eq_refl (st_owned s Hs)). eexists. split; [reflexivity|].
  pose proof (delete_Permutation _ _ _ Ei) as Em.
  match type of Hown with owned ?x => set (s' := x) in * end.
  assert (unreported s' ≡ₚ unreported s) as Eu.
  { unfold unreported. rewrite Em at 1. cbn. symmetry. apply Permutation_middle. }
  split; [|apply tended_frame; [done..|by apply tend_on]].
  apply (settled_frame s); try done; try apply Hs.
  - cbn. destruct (st_owned s Hs) as [Hnd Hp].
    assert (nw_open s ≡ₚ c :: (delete i (nw_managed s) ++ in_setup s)) as Eo.
    { rewrite Hp. apply (Permutation_app_tail _ Em). }
    rewrite (close_perm c _ _ Hnd Eo), <- Permutation_middle.
    pose proof (st_closing s Hs) as Hcl. rewrite Eo in Hcl. exact Hcl.
  - intros d Hd. left. by rewrite Eu.
  - intros d Hd. left. by rewrite <- Eu.
Qed.

Lemma serves_settled n s r :
  settled s -> step (Serves n) s = Some r ->
  exists s', r = Ok s' /\ settled s' /\ tend (tended s) (tended s').
Proof.
  intros Hs E. cbn in E. destruct (same_connections (nw_node s) n) eqn:Ec; [|done]. injection E as <-.
  apply andb_prop in Ec as [Eo%bool_decide_eq_true Ed%bool_decide_eq_true].
  exists (set_node n s). split; [done|]. split.
  - apply (settled_frame s); try done; try apply Hs; [exact (frame_same s)|exact (frame_same' s)].
  - apply tend_on. unfold tended, chans, outbound. cbn. by rewrite Eo, Ed.
Qed.

Lemma step_settled e s r :
  settled s -> undisturbed e s = true -> step e s = Some r ->
  exists s', r = Ok s' /\ settled s' /\ tend (tended s) (tended s').
Proof.
  intros Hs Hu E. destruct e as [i a|ntc a|i|i|n].
  - by eapply outbound_settled.
  - by eapply inbound_settled.
  - by eapply ends_settled.
  - cbn in Hu. destruct (nw_closing s !! i) as [c|] eqn:Ei; [|cbn in E; by rewrite Ei in E].
    apply bool_decide_eq_true in Hu. destruct (settled_report c i s Hs Ei Hu) as (s' & E' & H).
    rewrite E' in E. injection E as <-. by exists s'.
  - by eapply serves_settled.
Qed.

(** ** Runs of the node *)

(** The peers that a goroutine works for or that a connection stands for whose end
    will be reported *)
Definition served (s : network) : list outboundPeer :=
  omap peer_of (nw_tasks s) ++
  omap (fun c => outbound s !! c) (filter (fun c => is_Some (chans s !! c)) (unreported s)).

Lemma served_tended s : settled s -> served s ≡ₚ tended s.
Proof.
  intros Hs. unfold served, tended. apply Permutation_app_head.
  enough (filter (fun c => is_Some (chans s !! c)) (unreported s) ≡ₚ elements (dom (chans s))) as E by by rewrite E.
  pose proof (st_closing s Hs) as Hcl. destruct (st_owned s Hs) as [_ Hp]. rewrite Hp in Hcl.
  apply NoDup_Permutation.
  - apply NoDup_filter. unfold unreported. apply NoDup_app in Hcl as (H1 & H2 & H3).
    apply NoDup_app in H1 as (H1 & _ & _). apply NoDup_app. split_and!; [done| |done].
    intros c Hc. apply H2, elem_of_app. by left.
  - apply NoDup_elements.
  - intros c. rewrite list_elem_of_filter, elem_of_elements, elem_of_dom. split; [by intros []|].
    intros H. split; [done|]. by apply (st_chan s Hs).
Qed.

Definition seconds (k : Z) : duration := k * 1000000000.
Definition waits : list duration := seconds <$> [0; 1; 2; 4; 8; 16; 32; 64; 128].

Lemma waits_cases d :
  d ∈ waits ->
  d = seconds 0 \/ d = seconds 1 \/ d = seconds 2 \/ d = seconds 4 \/ d = seconds 8 \/ d = seconds 16 \/
  d = seconds 32 \/ d = seconds 64 \/ d = seconds 128.
Proof. unfold waits. cbn [fmap list_fmap]. rewrite !elem_of_cons, elem_of_nil. intuition. Qed.

Lemma next_delay_waits p : op_ReconnectDelay p ∈ waits -> op_ReconnectDelay (next_delay p) ∈ waits.
Proof.
  unfold next_delay. cbn [op_ReconnectDelay]. generalize (op_ReconnectDelay p). intros d Hd.
  apply waits_cases in Hd. destruct_or! Hd; subst d; by apply (bool_decide_unpack _); vm_compute.
Qed.

Lemma tend_addresses l l' :
  tend l l' -> Forall (fun p => op_ReconnectDelay p ∈ waits) l ->
  op_Address <$> l' ≡ₚ op_Address <$> l /\ Forall (fun p => op_ReconnectDelay p ∈ waits) l'.
Proof.
  intros H Hl. inversion H as [? ? E | p ? l1 ? E E']; subst; [by rewrite <- E|].
  rewrite E in Hl |- *. rewrite E'. apply Forall_cons in Hl as [Hp Hl]. split; [done|].
  apply Forall_cons. split; [by apply next_delay_waits|done].
Qed.

Lemma run_settled events s r :
  settled s -> Forall (fun p => op_ReconnectDelay p ∈ waits) (tended s) ->
  undisturbed_run events s = true -> run events s = Some r ->
  exists s', r = Ok s' /\ settled s' /\ op_Address <$> tended s' ≡ₚ op_Address <$> tended s /\
    Forall (fun p => op_ReconnectDelay p ∈ waits) (tended s').
Proof.
  revert s. induction events as [|e events IH]; cbn; intros s Hs Hw Hu E; [injection E as <-; by exists s|].
  apply andb_prop in Hu as [Hu Hu']. destruct (step e s) as [[s1|]|] eqn:Es; [| |done].
  - destruct (step_settled _ _ _ Hs Hu Es) as (? & [= <-] & Hs1 & Ht).
    destruct (tend_addresses _ _ Ht Hw) as [Ha Hw1].
    destruct (IH s1 Hs1 Hw1 Hu' E) as (s' & -> & Hs' & Ha' & Hw'). exists s'. split_and!; try done. by rewrite Ha'.
  - by destruct (step_settled _ _ _ Hs Hu Es) as (? & ? & _).
Qed.

Lemma run_owned events s s' : run events s = Some (Ok s') -> owned s -> owned s'.
Proof.
  revert s. induction events as [|e events IH]; cbn; intros s E; [by injection E as <-|].
  destruct (step e s) as [[s1|]|] eqn:Es; try done. intros H. apply (IH s1); [done|]. by eapply step_owned.
Qed.

Definition dialing (peers : list string) : list task := (fun a => Dialing (mkPeer a 0 0)) <$> peers.

Lemma omap_dialing (f : task -> option conn) peers :
  (forall p, f (Dialing p) = None) -> omap f (dialing peers) = [].
Proof. intros Hf. induction peers as [|a l IH]; [done|]. cbn. by rewrite Hf. Qed.

Lemma peers_dialing peers : omap peer_of (dialing peers) = (fun a => mkPeer a 0 0) <$> peers.
Proof. induction peers as [|a l IH]; [done|]. cbn. f_equal. exact IH. Qed.

Lemma started_settled peers s :
  Start true true peers New = Started s ->
  settled s /\ op_Address <$> tended s = peers /\ Forall (fun p => op_ReconnectDelay p ∈ waits) (tended s).
Proof.
  intros [= <-].
  change ((fun a => Dialing (mkPeer a 0 0)) <$> peers) with (dialing peers).
  set (s := mkNetwork New (dialing peers) None None [] [] []).
  assert (tended s = (fun a => mkPeer a 0 0) <$> peers) as Et.
  { unfold tended. change (nw_tasks s) with (dialing peers). rewrite peers_dialing. apply app_nil_r. }
  assert (omap recording (nw_tasks s) = []) as Er by by apply omap_dialing.
  split_and!.
  - assert (forall c, c ∉ unreported s) as Hu by (intros c Hc; by apply elem_of_nil in Hc).
    assert (forall c, ~ is_Some (chans s !! c)) as Hc by (intros c [x Hx]; done).
    split; rewrite ?Er.
    + split; [constructor|]. unfold in_setup. change (nw_tasks s) with (dialing peers). by rewrite omap_dialing.
    + constructor.
    + constructor.
    + intros c H. by apply elem_of_nil in H.
    + by apply Forall_fmap, Forall_true.
    + intros c H. by destruct (Hc c).
    + intros c H. by destruct (Hu c).
    + by intros c [].
  - rewrite Et, <- list_fmap_compose. apply list_fmap_id.
  - rewrite Et. apply Forall_fmap, Forall_true. intros a. cbn. by apply (bool_decide_unpack _); vm_compute.
Qed.

(** C23: no socket is leaked or shared, whatever the interleaving of dialing, accepting,
    failing and closing: at any time the open connections are exactly those in the
    registry of the manager and those that one goroutine is setting up, each once. *)
Theorem open_connections_have_one_owner peers events s s' :
  Start true true peers New = Started s -> run events s = Some (Ok s') ->
  NoDup (nw_open s') /\ nw_open s' ≡ₚ nw_managed s' ++ in_setup s'.
Proof. intros Hs E. eapply run_owned; [exact E|]. apply (started_settled peers), Hs. Qed.

(** C22: no peer of the topology is given up or dialed twice. When no step disturbs the
    recording of a connection, the node does not panic, and at any time each peer has
    exactly one goroutine at work for it or one connection whose end will be reported;
    no peer waits longer than 128 seconds between two attempts. *)
Theorem peers_are_never_given_up peers events s r :
  Start true true peers New = Started s ->
  undisturbed_run events s = true -> run events s = Some r ->
  exists s', r = Ok s' /\ op_Address <$> served s' ≡ₚ peers /\
    Forall (fun p => op_ReconnectDelay p <= maxReconnectDelay) (served s').
Proof.
  intros Hs Hu E. destruct (started_settled _ _ Hs) as (Hset & Ha & Hw).
  destruct (run_settled _ _ _ Hset Hw Hu E) as (s' & -> & Hs' & Ha' & Hw'). exists s'. split; [done|].
  rewrite (served_tended s' Hs'), Ha', Ha. split; [done|]. eapply Forall_impl; [exact Hw'|].
  intros p Hp. apply waits_cases in Hp. unfold maxReconnectDelay, seconds in *. lia.
Qed.

(** ** A connection that ends early *)

Lemma step_continues i t t' s s1 :
  nw_tasks s !! i = Some t -> createOutboundConnection Continues t s = Some (t', s1) -> nw_tasks s1 = nw_tasks s ->
  step (Outbound i Continues) s = Some (Ok (set_tasks (<[i := t']> (nw_tasks s)) s1)).
Proof. intros Et Ec E. cbn. rewrite Et. cbn. rewrite Ec. cbn. by rewrite E. Qed.

(** When a connection ends, and this is reported, after the manager has taken it over
    and before the node has noted its peer, there are two cases. If it is the first
    connection to this peer, the callback finds nothing; the goroutine then records the
    connection that is gone, and ends: neither a goroutine nor a connection is left for
    the peer, which is not dialed again. If the peer was connected before, its old
    record is still there, and the callback closes a channel that does not exist: the
    node panics. *)
Theorem early_end_gives_peer_up p c i j s :
  nw_tasks s !! i = Some (Managed p c) -> nw_closing s !! j = Some c ->
  (outbound s !! c = None ->
   exists s', run [Reports j; Outbound i Continues; Outbound i Continues; Outbound i Continues] s = Some (Ok s') /\
     omap peer_of (nw_tasks s) ≡ₚ p :: omap peer_of (nw_tasks s') /\
     nw_managed s' = nw_managed s /\ nw_closing s ≡ₚ c :: nw_closing s' /\ outbound s' !! c = Some p) /\
  (is_Some (outbound s !! c) -> chans s !! c = None -> run [Reports j] s = Some (Err tt)).
Proof.
  intros Et Ej. pose proof (closed_callback c (nw_node s)) as Hcall.
  change (nd_outbound (nw_node s)) with (outbound s) in Hcall.
  change (rl_chans (nd_relay (nw_node s))) with (chans s) in Hcall. split.
  - intros Ho. rewrite Ho in Hcall. destruct Hcall as (n & Hcall & _ & _).
    set (s1 := reported j n [] s).
    assert (nw_tasks s1 = nw_tasks s) as E1 by apply app_nil_r.
    assert (step (Reports j) s = Some (Ok s1)) as H1 by (cbn; rewrite Ej; cbn; by rewrite Hcall).
    pose proof (lookup_lt_Some _ _ _ Et) as Hi. rewrite <- E1 in Et, Hi.
    pose proof (step_continues i _ _ s1 _ Et eq_refl eq_refl) as H2.
    match type of H2 with _ = Some (Ok ?x) => set (s2 := x) in * end.
    assert (nw_tasks s2 !! i = Some (Tracked p c)) as Et2 by by apply list_lookup_insert_eq.
    pose proof (step_continues i _ _ s2 _ Et2 eq_refl eq_refl) as H3.
    match type of H3 with _ = Some (Ok ?x) => set (s3 := x) in * end.
    assert (nw_tasks s3 !! i = Some (WithChan c)) as Et3 by (apply list_lookup_insert_eq; cbn; by rewrite length_insert).
    pose proof (step_continues i _ _ s3 _ Et3 eq_refl eq_refl) as H4.
    match type of H4 with _ = Some (Ok ?x) => set (s4 := x) in * end.
    exists s4. cbn [run]. rewrite H1, H2, H3, H4. split; [done|].
    assert (nw_tasks s4 = <[i := Finished]> (nw_tasks s)) as E4.
    { unfold s4, s3, s2. cbn [nw_tasks set_tasks]. by rewrite !list_insert_insert_eq, E1. }
    split_and!; [|done| |].
    + rewrite E4. rewrite E1 in Et. by destruct (omap_update peer_of _ _ _ Finished Et) as [-> ->].
    + exact (delete_Permutation _ _ _ Ej).
    + apply lookup_insert_eq.
  - intros [q Ho] Hc. rewrite Ho, Hc in Hcall. cbn [run step]. rewrite Ej. cbn. by rewrite Hcall.
Qed.

(** ** Examples *)

Definition one_peer : list string := ["10.0.0.1:3001"].
Definition ran (events : list event) (s : network) : network :=
  match run events s with Some (Ok s') => s' | _ => s end.
Definition start_one : network := mkNetwork New (dialing one_peer) None None [] [] [].
(** Connected, accepted from another address, ended, reported, and connected again *)
Definition reconnects : list event :=
  [Outbound 0 (ConnectOk 7); Inbound false (ConnectOk 9); Outbound 0 Adds; Outbound 0 Continues; Inbound false Adds;
   Outbound 0 Continues; Outbound 0 Continues; Ends 1; Reports 0; Outbound 1 Continues; Outbound 1 ConnectFails;
   Outbound 1 Continues; Outbound 1 (ConnectOk 7)].
Definition ends_early : list event := [Outbound 0 (ConnectOk 7); Outbound 0 Adds; Ends 0].
Definition again_ends_early : list event :=
  [Outbound 0 (ConnectOk 7); Outbound 0 Adds; Outbound 0 Continues; Outbound 0 Continues; Outbound 0 Continues;
   Ends 0; Reports 0; Outbound 1 Continues; Outbound 1 (ConnectOk 7); Outbound 1 Adds; Ends 0].

Lemma open_connections_have_one_owner_witness :
  nw_open (ran reconnects start_one) = [7; 9] /\
  nw_open (ran reconnects start_one) ≡ₚ [9; 7].
Proof.
  assert (run reconnects start_one = Some (Ok (ran reconnects start_one))) as E by (vm_compute; reflexivity).
  split; [vm_compute; reflexivity|].
  destruct (open_connections_have_one_owner one_peer reconnects start_one _ eq_refl E) as [_ H]. exact H.
Defined.

(** The peer is being dialed again, and has waited for two seconds. *)
Lemma peers_are_never_given_up_witness :
  op_ReconnectDelay <$> served (ran reconnects start_one) = [seconds 2] /\
  op_Address <$> served (ran reconnects start_one) ≡ₚ one_peer.
Proof.
  assert (run reconnects start_one = Some (Ok (ran reconnects start_one))) as E by (vm_compute; reflexivity).
  split; [vm_compute; reflexivity|].
  assert (undisturbed_run reconnects start_one = true) as Hu by (vm_compute; reflexivity).
  revert E. generalize (ran reconnects start_one) as s. intros s E.
  destruct (peers_are_never_given_up one_peer reconnects start_one _ eq_refl Hu E) as (s' & [= <-] & H & _). exact H.
Defined.

Lemma early_end_gives_peer_up_witness :
  (exists s', run (ends_early ++ [Reports 0; Outbound 0 Continues; Outbound 0 Continues; Outbound 0 Continues])
      start_one = Some (Ok s') /\ served s' = [] /\ nw_open s' = []) /\
  run (again_ends_early ++ [Reports 0]) start_one = Some (Err tt) /\
  run [Reports 0] (ran again_ends_early start_one) = Some (Err tt).
Proof.
  split; [|split; [vm_compute; reflexivity|]].
  - destruct (early_end_gives_peer_up (mkPeer "10.0.0.1:3001" 0 0) 7 0 0 (ran ends_early start_one)) as [H _];
      [vm_compute; reflexivity..|]. destruct H as (s' & _); [vm_compute; reflexivity|].
    eexists. split; [vm_compute; reflexivity|]. split; vm_compute; reflexivity.
  - apply (early_end_gives_peer_up (mkPeer "10.0.0.1:3001" 0 1000000000) 7 1 0 (ran again_ends_early start_one));
      [vm_compute; reflexivity..|eexists; vm_compute; reflexivity|vm_compute; reflexivity].
Defined.
