(* ===== verification/Endpoint.v ===== *)
(** * Endpoint: addresses of remote services, as the clients of [batch/strike] and
    [dex/saturnswap] and the web interface use them.

    [url.Parse] is a parameter wherever it is called: what it makes of a text is a
    record of the parts that the program reads. *)
From S2P Require Import Prelude.
From S2P Require Import Text.

Record URL := mkURL {
  u_Scheme : string;
  u_User : bool;         (** whether there is user information *)
  u_Host : string;
  u_Path : string;
  u_RawQuery : string;
  u_Fragment : string;
}.

(** The address of a host alone *)
Definition host_url (scheme host : string) : URL := mkURL scheme false host "" "" "".

(** [URL.Hostname]: without a port, and without brackets *)
Definition is_digit (c : ascii) : bool :=
  let n := Ascii.nat_of_ascii c in (48 <=? n)%nat && (n <=? 57)%nat.
Definition strip_brackets (host : string) : string :=
  match host with
  | String "[" rest =>
      match split_last "]" rest with
      | Some (inside, EmptyString) => inside
      | _ => host
      end
  | _ => host
  end.
Definition Hostname (u : URL) : string :=
  strip_brackets
    match split_last ":" (u_Host u) with
    | Some (host, port) => if all_chars is_digit port then host else u_Host u
    | None => u_Host u
    end.

(** [strings.EqualFold] *)
Definition EqualFold (a b : string) : bool := bool_decide (ToLower a = ToLower b).

(** [strings.ToUpper] on ASCII *)
Definition upper_char (c : ascii) : ascii :=
  let n := Ascii.nat_of_ascii c in
  if (97 <=? n)%nat && (n <=? 122)%nat then Ascii.ascii_of_nat (n - 32) else c.
Fixpoint ToUpper (s : string) : string :=
  match s with
  | EmptyString => EmptyString
  | String c s' => String (upper_char c) (ToUpper s')
  end.

(** [strings.TrimSpace], on the white space of ASCII *)
Definition is_space (c : ascii) : bool :=
  let n := Ascii.nat_of_ascii c in (n =? 32)%nat || ((9 <=? n)%nat && (n <=? 13)%nat).
Definition TrimSpace : string -> string := Trim is_space.

Section Endpoint.
(** [net.ParseIP(hostname).IsLoopback()] *)
Context (is_loopback_ip : string -> bool).

(** [isAllowedEndpoint], the same in both clients *)
Definition isAllowedEndpoint (endpoint : URL) (allowLoopbackHTTP : bool) : bool :=
  if bool_decide (u_Scheme endpoint = "https") then true
  else if negb allowLoopbackHTTP || negb (bool_decide (u_Scheme endpoint = "http")) then false
  else EqualFold (Hostname endpoint) "localhost" || is_loopback_ip (Hostname endpoint).

(** Without the option for tests only encrypted endpoints are allowed. *)
Lemma isAllowedEndpoint_https endpoint :
  isAllowedEndpoint endpoint false = true <-> u_Scheme endpoint = "https".
Proof. unfold isAllowedEndpoint. case_bool_decide; [done|]. by split. Qed.
End Endpoint.

(** [joinURLPath] *)
Definition slash (c : ascii) : bool := Ascii.eqb c "/".
Definition set_path (path : string) (u : URL) : URL :=
  mkURL (u_Scheme u) (u_User u) (u_Host u) path (u_RawQuery u) (u_Fragment u).
Definition set_query (query : string) (u : URL) : URL :=
  mkURL (u_Scheme u) (u_User u) (u_Host u) (u_Path u) query (u_Fragment u).
Definition joinURLPath (baseURL : URL) (path : string) : URL :=
  let basePath := trim_right slash (u_Path baseURL) in
  let nextPath := trim_left slash path in
  set_path
    (if bool_decide (basePath = "") then "/" +:+ nextPath
     else if bool_decide (nextPath = "") then basePath
     else basePath +:+ "/" +:+ nextPath) baseURL.

(** A slash at the end of the base or at the start of the path changes nothing, and
    the service and its host stay those of the base. *)
Lemma joinURLPath_slashes baseURL path :
  joinURLPath (set_path (trim_right slash (u_Path baseURL)) baseURL) (trim_left slash path) =
  joinURLPath baseURL path.
Proof.
  unfold joinURLPath. cbn. rewrite trim_right_idem.
  assert (trim_left slash (trim_left slash path) = trim_left slash path) as ->; [|done].
  induction path as [|c path IH]; [done|]. cbn. destruct (slash c) eqn:Hc; [done|]. cbn. by rewrite Hc.
Qed.
