(* ===== verification/Origin.v ===== *)
(** * Origin: which pages may open a price stream ([checkWebSocketOrigin] and
    [normalizeHostPort] of [internal/oracle/api.go]).

    A request is what the check reads of it. [url.Parse] is a parameter: an origin, or
    nothing when it is no URL. Letter case is that of ASCII, in which host names are
    written. *)
From S2P Require Import Prelude.
From S2P Require Import Text.
From S2P Require Import Endpoint.

Record Request := mkRequest {
  r_Origin : string;
  r_Host : string;
  r_URL : URL;
  r_TLS : bool;
}.

Definition is_bracket (c : ascii) : bool := Ascii.eqb c "[" || Ascii.eqb c "]".

Definition default_port (scheme : string) : string :=
  let s := ToLower scheme in
  if bool_decide (s = "http") || bool_decide (s = "ws") then "80"
  else if bool_decide (s = "https") || bool_decide (s = "wss") then "443"
  else "".

Definition normalizeHostPort (hostPort scheme : string) : string :=
  let '(host, port) := default (hostPort, "") (SplitHostPort hostPort) in
  let host := ToLower (Trim is_bracket host) in
  if bool_decide (host = "") then ""
  else if bool_decide (port = "") || bool_decide (port = default_port scheme) then host
  else JoinHostPort host port.

Definition is_local (host : string) : bool :=
  bool_decide (host = "localhost") || bool_decide (host = "127.0.0.1") || bool_decide (host = "::1").

(** The scheme of the request, as far as it is known *)
Definition requestScheme (r : Request) : string :=
  if bool_decide (u_Scheme (r_URL r) = "") then (if r_TLS r then "https" else "http")
  else u_Scheme (r_URL r).

Section Check.
Context (url_Parse : string -> option URL).

Definition checkWebSocketOrigin (r : Request) : bool :=
  if bool_decide (r_Origin r = "") then true
  else
    match url_Parse (r_Origin r) with
    | None => false
    | Some originURL =>
        if bool_decide (u_Host originURL = "") then false
        else if is_local (Hostname originURL) then true
        else
          let host := if bool_decide (r_Host r = "") then u_Host (r_URL r) else r_Host r in
          if bool_decide (host = "") then false
          else
            let originHostPort := normalizeHostPort (u_Host originURL) (u_Scheme originURL) in
            let requestHostPort := normalizeHostPort host (requestScheme r) in
            if bool_decide (originHostPort = "") || bool_decide (requestHostPort = "") then false
            else EqualFold originHostPort requestHostPort
    end.
End Check.

(** ** What it accepts *)

(** A host name, and a name with a port *)
Definition plain_char (c : ascii) : bool :=
  negb (Ascii.eqb c ":" || Ascii.eqb c "%" || is_bracket c).
Record plain_host (h : string) : Prop := {
  ph_chars : all_chars plain_char h = true;
  ph_nonempty : h <> "";
}.
Definition with_port (host port : string) : string :=
  if bool_decide (port = "") then host else host +:+ String ":" port.

(** The port that a client connects to, written only when the scheme does not
    imply it. *)
Definition shown_port (port scheme : string) : string :=
  if bool_decide (port = default_port scheme) then "" else port.

Lemma plain_free c h : plain_char c = false -> all_chars plain_char h = true -> char_free c h = true.
Proof. apply all_chars_free. Qed.
Lemma digits_free c p : is_digit c = false -> all_chars is_digit p = true -> char_free c p = true.
Proof. apply all_chars_free. Qed.

Lemma digits_ToLower p : all_chars is_digit p = true -> ToLower p = p.
Proof.
  induction p as [|c p IH]; [done|]. cbn. intros [Hc Hp]%andb_prop. rewrite IH by done.
  by destruct c as [[] [] [] [] [] [] [] []].
Qed.

Lemma plain_ToLower h : plain_host h -> plain_host (ToLower h).
Proof.
  intros [Hc Hn]. split; [|by destruct h].
  apply all_chars_ToLower; [|done]. intros c. by destruct c as [[] [] [] [] [] [] [] []].
Qed.

Lemma plain_Trim h : plain_host h -> Trim is_bracket h = h.
Proof.
  intros [Hc _]. apply Trim_none. revert Hc. induction h as [|c h IH]; [done|]. cbn.
  intros [Hc Hh]%andb_prop. rewrite IH by done. unfold plain_char in Hc.
  by destruct (is_bracket c); rewrite ?orb_true_r in Hc.
Qed.

Lemma split_with_port h p :
  plain_host h -> all_chars is_digit p = true ->
  default (with_port h p, "") (SplitHostPort (with_port h p)) = (h, p).
Proof.
  intros [Hc Hn] Hp. unfold with_port, SplitHostPort. case_bool_decide as E.
  - subst p. by rewrite split_last_free by (by apply plain_free).
  - rewrite split_last_app by (by apply digits_free).
    assert (forall c, plain_char c = false -> is_digit c = false -> Ascii.eqb c ":" = false ->
      char_free c (h +:+ String ":" p) = true) as Hfree.
    { intros c H1 H2 H3. rewrite char_free_app. cbn. rewrite H3, (plain_free c), (digits_free c) by done. done. }
    pose proof (Hfree "["%char eq_refl eq_refl eq_refl) as Hl.
    pose proof (Hfree "]"%char eq_refl eq_refl eq_refl) as Hr.
    pose proof (plain_free ":" h eq_refl Hc) as Hcol.
    destruct h as [|c h]; [done|].
    change (String c h +:+ String ":" p) with (String c (h +:+ String ":" p)) in *.
    rewrite Hcol, Hl, Hr.
    destruct (Ascii.eqb_spec c "[") as [->|Hne]; [done|].
    clear -Hne. destruct c as [[] [] [] [] [] [] [] []]; done.
Qed.

Lemma default_port_digits s : all_chars is_digit (default_port s) = true.
Proof. unfold default_port. repeat case_bool_decide; done. Qed.

Lemma shown_port_digits p s : all_chars is_digit p = true -> all_chars is_digit (shown_port p s) = true.
Proof. unfold shown_port. by case_bool_decide. Qed.

Lemma with_port_ToLower h p :
  all_chars is_digit p = true -> ToLower (with_port h p) = with_port (ToLower h) p.
Proof.
  intros Hp. unfold with_port. case_bool_decide; [done|].
  rewrite ToLower_app. f_equal. cbn. by rewrite digits_ToLower.
Qed.

Lemma with_port_inj h p h' p' :
  plain_host h -> plain_host h' -> with_port h p = with_port h' p' -> h = h' /\ p = p'.
Proof.
  intros [Hc _] [Hc' _]. apply (plain_free ":") in Hc; [|done]. apply (plain_free ":") in Hc'; [|done].
  unfold with_port. repeat case_bool_decide; subst; intros E.
  - done.
  - subst h. rewrite char_free_app in Hc. cbn in Hc. by rewrite andb_false_r in Hc.
  - subst h'. rewrite char_free_app in Hc'. cbn in Hc'. by rewrite andb_false_r in Hc'.
  - by apply append_sep_inj in E.
Qed.

(** A host is compared in lower case, without the port that its scheme implies. *)
Lemma normalizeHostPort_plain h p s :
  plain_host h -> all_chars is_digit p = true ->
  normalizeHostPort (with_port h p) s = with_port (ToLower h) (shown_port p s).
Proof.
  intros Hh Hp. unfold normalizeHostPort. rewrite split_with_port, plain_Trim by done.
  pose proof (plain_ToLower h Hh) as [Hc Hn]. rewrite bool_decide_false by done.
  unfold with_port, shown_port, JoinHostPort.
  repeat case_bool_decide; subst; try done; try tauto.
  by rewrite !(plain_free _ (ToLower h)) by done.
Qed.

Lemma Hostname_plain u h p :
  plain_host h -> all_chars is_digit p = true -> u_Host u = with_port h p -> Hostname u = h.
Proof.
  intros [Hc _] Hp Hu. unfold Hostname. rewrite !Hu. unfold with_port.
  assert (strip_brackets h = h) as Hs.
  { destruct h as [|c h]; [done|]. cbn in Hc. apply andb_prop in Hc as [Hc _].
    by destruct c as [[] [] [] [] [] [] [] []]. }
  case_bool_decide.
  - by rewrite split_last_free by (by apply plain_free).
  - rewrite split_last_app by (by apply digits_free). by rewrite Hp.
Qed.

(** The price stream is open to pages of the same host and to local ones. When
    the origin and the host of the request are names with or without a port, the
    check accepts exactly the local hosts and the origins whose host is that of the
    request, whatever the case of the letters, with the same port once the port that
    the scheme implies is left out. *)
Theorem checkWebSocketOrigin_accepts url_Parse r u h p h' p' :
  r_Origin r <> "" -> url_Parse (r_Origin r) = Some u -> u_Host u = with_port h p ->
  r_Host r = with_port h' p' -> plain_host h -> plain_host h' ->
  all_chars is_digit p = true -> all_chars is_digit p' = true ->
  checkWebSocketOrigin url_Parse r = true <->
  is_local h = true \/
  (ToLower h = ToLower h' /\ shown_port p (u_Scheme u) = shown_port p' (requestScheme r)).
Proof.
  intros Ho Hu Eu Hr Hh Hh' Hp Hp'. unfold checkWebSocketOrigin.
  assert (forall a b, plain_host a -> with_port a b <> "") as Hne.
  { intros [|c a] b [_ Hn]; [done|]. unfold with_port. by case_bool_decide. }
  rewrite bool_decide_false, Hu, (Hostname_plain u h p), !Eu by done.
  rewrite (bool_decide_false (with_port h p = "")) by auto.
  destruct (is_local h); [split; auto|].
  rewrite Hr, !(bool_decide_false (with_port h' p' = "")), !normalizeHostPort_plain by auto.
  rewrite !bool_decide_false by (auto using plain_ToLower). cbn [orb].
  unfold EqualFold. rewrite !with_port_ToLower, !ToLower_idem, bool_decide_eq_true by (by apply shown_port_digits).
  split.
  - intros E%with_port_inj; auto using plain_ToLower.
  - intros [|[-> ->]]; [done|done].
Qed.

(** A page of the same site in other letters and with the port written out *)
Definition sample_request : Request :=
  mkRequest "https://api.example.com:443" "API.example.com" (host_url "" "") true.

Lemma checkWebSocketOrigin_accepts_witness :
  let parse origin :=
    if bool_decide (origin = "https://api.example.com:443") then Some (host_url "https" "api.example.com:443")
    else None in
  checkWebSocketOrigin parse sample_request = true /\
  checkWebSocketOrigin parse (mkRequest (r_Origin sample_request) "evil.com" (host_url "" "") true) = false.
Proof.
  intros parse. split; [|done].
  apply (checkWebSocketOrigin_accepts parse sample_request
    (host_url "https" "api.example.com:443") "api.example.com" "443" "API.example.com" "");
    first [by split | by right | done].
Defined.
