(* ===== verification/OracleApi.v ===== *)
(** * OracleApi: the web interfaces of the oracles ([internal/oracle/api.go],
    [lending_api.go]).

    A handler is a function of the oracles it serves and of what it reads of the
    request. A response is its status and its body before it is written as JSON, which
    [ApiJson] does. Go writes a nil slice as [null], so a listing tells it apart from
    an empty one. The registry of open streams is a state of its own: the
    goroutines that serve a stream, publish, ping and stop interleave under its
    lock. Sockets are outside: whether a write succeeds is an argument. *)
From S2P Require Import Prelude.
From S2P Require Import Text.
From S2P Require Import Float64.
From S2P Require Import Common.
From S2P Require Import Pool.
From S2P Require Import Activity.
From S2P Require Import ActivityRestart.
From S2P Require Import AdaUsd.
From S2P Require Import Cbor.
From S2P Require Import Ledger.
From S2P Require Import Mempool.
From S2P Require Import KeyValue.
From S2P Require Import Table.
From S2P Require Import Indigo.
From S2P Require Import OracleStorage.
From S2P Require Import ActivityStorage.
From S2P Require Import Subscribers.
From S2P Require Import Oracle.
From S2P Require Import OracleSync.
From S2P Require Import OracleRestart.
From S2P Require Import Lending.
From S2P Require LendingOracle.
From S2P Require Liqwid.
From S2P Require Minswap.

(** ** Responses *)

(** [http.Error], or a status and a value that is encoded as JSON *)
Inductive response (A : Type) :=
| HttpError (status : Z) (message : string)
| Json (status : Z) (body : A).
Arguments HttpError {A}.
Arguments Json {A}.

Definition status {A} (r : response A) : Z :=
  match r with HttpError s _ | Json s _ => s end.

Definition StatusOK : Z := 200.
Definition StatusBadRequest : Z := 400.
Definition StatusNotFound : Z := 404.
Definition StatusInternalServerError : Z := 500.
Definition StatusServiceUnavailable : Z := 503.

(** A list under a name, with its count; nothing for a nil slice *)
Record listing (A : Type) := mkListing {
  li_items : option (list A);
  li_count : Z;
}.
Arguments mkListing {A}.
Arguments li_items {A}.
Arguments li_count {A}.

(** What [append] to a nil slice gives *)
Definition merged {A} (l : list A) : option (list A) :=
  match l with [] => None | _ => Some l end.

Definition list_response {A} (l : option (list A)) : response (listing A) :=
  Json StatusOK (mkListing l (Z.of_nat (length (default [] l)))).

(** The filter of a listing by a parameter of the query, which is off when the
    parameter is empty and otherwise makes a new slice *)
Definition filter_by {A} (field : A -> string) (param : string) (l : option (list A)) : option (list A) :=
  if bool_decide (param = "") then l
  else Some (filter (fun a => field a = param) (default [] l)).

Lemma list_response_count {A} (l : option (list A)) :
  exists items, list_response l = Json StatusOK (mkListing items (Z.of_nat (length (default [] items)))).
Proof. by exists l. Qed.

Record PriceEntry := mkPriceEntry {
  pe_PoolId : string;
  pe_Protocol : string;
  pe_AssetX : string;
  pe_AssetY : string;
  pe_PriceXY : float64;
  pe_PriceYX : float64;
  pe_ReserveX : Z;
  pe_ReserveY : Z;
}.

Definition price_entry (pool : PoolState) : PriceEntry :=
  mkPriceEntry (ps_PoolId pool) (ps_Protocol pool) (Fingerprint (aa_Class (ps_AssetX pool)))
    (Fingerprint (aa_Class (ps_AssetY pool))) (PriceXY pool) (PriceYX pool) (ps_X pool) (ps_Y pool).

(** The body of the volume response: [apiErrorResponse], or the volume *)
Inductive volume_body :=
| VolumeError (Code Error : string)
| VolumeOf (v : PoolVolume).

Inductive ada_usd_body :=
| PriceError (e : usd_error) (r : Result)
| PriceOf (r : Result).

(** ** The pool oracle's interface *)

Section Api.
Context `{KV} `{!RangeOrder}.

(** [NewMultiOracleAPI] leaves out nil oracles. *)
Definition NewMultiOracleAPI {O} (oracles : list (option O)) : list O := omap id oracles.

Definition getAllPools (oracles : list OracleState) : option (list PoolState) :=
  merged (oracles ≫= GetAllPools).
Definition getAllCDPs (oracles : list OracleState) : option (list CDPState) :=
  merged (oracles ≫= GetAllCDPs).

(** The first oracle that knows the identifier *)
Fixpoint first_some {O A} (f : O -> option A) (oracles : list O) : option A :=
  match oracles with
  | [] => None
  | o :: oracles' => match f o with Some a => Some a | None => first_some f oracles' end
  end.
Definition getPoolState (poolId : string) : list OracleState -> option PoolState :=
  first_some (GetPoolState poolId).
Definition getCDPState (cdpId : string) : list OracleState -> option CDPState :=
  first_some (GetCDPState cdpId).

(** The newest slot of the confirmed pools, from that of the queried one *)
Definition newer_slot (atSlot : Z) (pool : PoolState) : Z :=
  if negb (ps_FromMempool pool) && (atSlot <? ps_Slot pool) then ps_Slot pool else atSlot.
Definition newest_slot (atSlot : Z) (pools : list PoolState) : Z := foldl newer_slot atSlot pools.

(** Nothing when no oracle knows the pool; the volume may be unavailable. *)
Fixpoint getPoolVolume (poolID : string) (oracles : list OracleState)
  : option (result activity_error (option PoolVolume)) :=
  match oracles with
  | [] => None
  | o :: oracles' =>
      match GetPoolState poolID o with
      | None => getPoolVolume poolID oracles'
      | Some state => Some (GetPoolVolume poolID (newest_slot (ps_Slot state) (GetAllPools o)) o)
      end
  end.

Definition HandleListPools (protocol : string) (oracles : list OracleState) : response (listing PoolState) :=
  list_response (filter_by ps_Protocol protocol (getAllPools oracles)).

Definition HandleGetPool (poolId : string) (oracles : list OracleState) : response PoolState :=
  if bool_decide (poolId = "") then HttpError StatusBadRequest "Pool ID required"
  else
    match getPoolState poolId oracles with
    | None => HttpError StatusNotFound "Pool not found"
    | Some pool => Json StatusOK pool
    end.

Definition HandleGetPoolVolume (poolID : string) (oracles : list OracleState) : response volume_body :=
  if bool_decide (poolID = "") then
    Json StatusBadRequest (VolumeError "pool_id_required" "pool ID required")
  else
    match getPoolVolume poolID oracles with
    | Some (Err _) =>
        Json StatusInternalServerError (VolumeError "volume_error" "failed to compute pool volume")
    | None => Json StatusNotFound (VolumeError "pool_not_found" "pool not found")
    | Some (Ok None) =>
        Json StatusServiceUnavailable
          (VolumeError "volume_unavailable" "confirmed pool volume is unavailable")
    | Some (Ok (Some volume)) => Json StatusOK (VolumeOf volume)
    end.

Definition HandleListCDPs (protocol : string) (oracles : list OracleState) : response (listing CDPState) :=
  list_response (filter_by cs_Protocol protocol (getAllCDPs oracles)).

Definition HandleGetCDP (cdpId : string) (oracles : list OracleState) : response CDPState :=
  if bool_decide (cdpId = "") then HttpError StatusBadRequest "CDP ID required"
  else
    match getCDPState cdpId oracles with
    | None => HttpError StatusNotFound "CDP not found"
    | Some cdp => Json StatusOK cdp
    end.

Definition HandleListPrices (oracles : list OracleState) : response (listing PriceEntry) :=
  list_response (Some (price_entry <$> default [] (getAllPools oracles))).

Definition HandleADAUSDPrice (now : Z) (oracles : list OracleState) : response ada_usd_body :=
  match AggregateADAUSDAt (Some <$> default [] (getAllPools oracles)) DefaultConfig now with
  | (result, Some err) => Json StatusServiceUnavailable (PriceError err result)
  | (result, None) => Json StatusOK (PriceOf result)
  end.
End Api.

(** ** The lending oracle's interface *)

Record RateEntry := mkRateEntry {
  rt_StateId : string;
  rt_Protocol : string;
  rt_Asset : string;
  rt_InterestRate : float64;
  rt_BasisPoints : Z;
}.
Record UtilEntry := mkUtilEntry {
  ut_StateId : string;
  ut_Protocol : string;
  ut_Asset : string;
  ut_UtilizationRate : float64;
  ut_TotalSupply : Z;
  ut_TotalBorrows : Z;
  ut_Available : Z;
}.

Module Lending.
Import LendingOracle.
Section Api.
Context `{KV} `{!RangeOrder}.

(** [NewMultiLendingOracleAPI] leaves out nil oracles. *)
Definition NewMultiLendingOracleAPI (oracles : list (option LendingOracle)) : list LendingOracle := omap id oracles.

Definition getMarkets (oracles : list LendingOracle) : option (list LendingState) :=
  merged (oracles ≫= GetMarkets).
Definition getLoans (oracles : list LendingOracle) : option (list LendingState) :=
  merged (oracles ≫= GetLoans).
Definition getOverdueLoans (oracles : list LendingOracle) : option (list LendingState) :=
  merged (oracles ≫= GetOverdueLoans).

(** The loop of [getState]: a state under its own key ends it, a second state with
    the same raw identifier makes it ambiguous. *)
Fixpoint getState_loop (stateId : string) (oracles : list LendingOracle) (matched : option LendingState)
  : option LendingState :=
  match oracles with
  | [] => matched
  | o :: oracles' =>
      match GetState stateId o with
      | None => getState_loop stateId oracles' matched
      | Some state =>
          if bool_decide (Key state = stateId) then Some state
          else
            match matched with
            | Some _ => None
            | None => getState_loop stateId oracles' (Some state)
            end
      end
  end.
Definition getState (stateId : string) (oracles : list LendingOracle) : option LendingState :=
  getState_loop stateId oracles None.

Definition HandleListMarkets (protocol : string) (oracles : list LendingOracle)
  : response (listing LendingState) :=
  list_response (filter_by ls_Protocol protocol (getMarkets oracles)).

Definition HandleGetMarket (marketId : string) (oracles : list LendingOracle) : response LendingState :=
  if bool_decide (marketId = "") then HttpError StatusBadRequest "Market ID required"
  else
    match getState marketId oracles with
    | Some state => if IsMarket state then Json StatusOK state else HttpError StatusNotFound "Market not found"
    | None => HttpError StatusNotFound "Market not found"
    end.

Definition HandleListLoans (status : string) (oracles : list LendingOracle)
  : response (listing LendingState) :=
  list_response (filter_by ls_LoanStatus status (getLoans oracles)).

Definition HandleGetLoan (loanId : string) (oracles : list LendingOracle) : response LendingState :=
  if bool_decide (loanId = "") then HttpError StatusBadRequest "Loan ID required"
  else
    match getState loanId oracles with
    | Some state => if IsLoan state then Json StatusOK state else HttpError StatusNotFound "Loan not found"
    | None => HttpError StatusNotFound "Loan not found"
    end.

Definition rate_entry (market : LendingState) : RateEntry :=
  mkRateEntry (Key market) (ls_Protocol market) (Fingerprint (ls_UnderlyingAsset market))
    (ls_InterestRatePct market) (ls_InterestRate market).
Definition HandleListRates (oracles : list LendingOracle) : response (listing RateEntry) :=
  list_response (Some (rate_entry <$> default [] (getMarkets oracles))).

Definition util_entry (market : LendingState) : UtilEntry :=
  mkUtilEntry (Key market) (ls_Protocol market) (Fingerprint (ls_UnderlyingAsset market))
    (ls_UtilizationRate market) (ls_TotalSupply market) (ls_TotalBorrows market) (ls_AvailableLiq market).
Definition HandleListUtilization (oracles : list LendingOracle) : response (listing UtilEntry) :=
  list_response (Some (util_entry <$> default [] (getMarkets oracles))).

Definition HandleListOverdueLoans (oracles : list LendingOracle) : response (listing LendingState) :=
  list_response (getOverdueLoans oracles).

(** A stream subscribes to every oracle when it opens, and when it ends gives every
    subscription back. *)
Definition open_stream (oracles : list LendingOracle) : list LendingOracle * list Z :=
  let opened := Subscribe <$> oracles in
  (opened.*1, (fun r => sub_id r.2) <$> opened).
Definition close_stream (subs : list Z) (oracles : list LendingOracle) : list LendingOracle :=
  zip_with Unsubscribe subs oracles.
Lemma remove_last {A} id (subs : list (subscriber A)) buf :
  id ∉ sub_id <$> subs -> remove_subscriber id (subs ++ [mkSubscriber id buf]) = subs.
Proof.
  induction subs as [|s subs IH]; cbn; [by rewrite Z.eqb_refl|].
  rewrite not_elem_of_cons. intros [Hne Hni]. destruct (Z.eqb_spec (sub_id s) id); [congruence|].
  by rewrite IH.
Qed.

(** A stream that opens and ends leaves every oracle with the subscribers it had,
    provided that the identifiers of channels are not reused. *)
Theorem stream_returns_its_subscriptions oracles :
  Forall (fun o => lo_nextChannel o ∉ sub_id <$> lo_subscribers o) oracles ->
  let '(oracles', subs) := open_stream oracles in
  lo_subscribers <$> close_stream subs oracles' = lo_subscribers <$> oracles.
Proof.
  intros Hf. unfold open_stream, close_stream. induction Hf as [|o oracles Ho _ IH]; [done|].
  cbn. f_equal; [by apply remove_last|]. exact IH.
Qed.

(** What a query returns is the answer of one of the oracles. *)
Lemma getState_loop_exact stateId oracles matched state :
  getState_loop stateId oracles matched = Some state ->
  matched = Some state \/ exists o, o ∈ oracles /\ GetState stateId o = Some state.
Proof.
  revert matched. induction oracles as [|o oracles IH]; intros matched; cbn [getState_loop]; [by left|].
  destruct (GetState stateId o) as [s|] eqn:E.
  - case_bool_decide.
    + intros [= <-]. right. exists o. split; [by left|done].
    + destruct matched; [done|]. intros [[= <-]|(o' & Ho' & Hs)]%IH; right.
      * exists o. split; [by left|done].
      * exists o'. split; [by right|done].
  - intros [|(o' & Ho' & Hs)]%IH; [by left|]. right. exists o'. split; [by right|done].
Qed.
End Api.
End Lending.

(** ** The registry of open streams

    A connection is a number. [serving] holds the connections whose read loop runs,
    [leaving] those that a handler has taken out of the registry and not closed yet,
    [failing] the batches that a publisher has collected and not removed yet. *)
Record hub := mkHub {
  wsConns : gset Z;
  serving : gset Z;
  leaving : gset Z;
  closed : gset Z;
  opened : Z;
  failing : list (list Z);
}.
Definition new_hub : hub := mkHub ∅ ∅ ∅ ∅ 0 [].

(** The handler registers its connection. *)
Definition connect (h : hub) : hub :=
  mkHub ({[opened h]} ∪ wsConns h) ({[opened h]} ∪ serving h) (leaving h) (closed h) (opened h + 1) (failing h).
(** Its read loop ends: the deferred function deletes the connection under the lock
    and closes it without. *)
Definition reader_deletes (c : Z) (h : hub) : hub :=
  mkHub (wsConns h ∖ {[c]}) (serving h ∖ {[c]}) ({[c]} ∪ leaving h) (closed h) (opened h) (failing h).
Definition reader_closes (c : Z) (h : hub) : hub :=
  mkHub (wsConns h) (serving h) (leaving h ∖ {[c]}) ({[c]} ∪ closed h) (opened h) (failing h).
(** [Stop] *)
Definition stop (h : hub) : hub :=
  mkHub ∅ (serving h) (leaving h) (wsConns h ∪ closed h) (opened h) (failing h).
(** A round of [broadcastPriceUpdatesFromOracle] or [pingLoop]: the registered
    connections are copied, then written to; [ok] tells which writes succeed. *)
Definition publish (ok : Z -> bool) (h : hub) : hub :=
  mkHub (wsConns h) (serving h) (leaving h) (closed h) (opened h)
    (failing h ++ [filter (fun c => ok c = false) (elements (wsConns h))]).
(** [removeConns] *)
Definition removeConns (conns : list Z) (h : hub) : hub :=
  mkHub (wsConns h ∖ list_to_set conns) (serving h) (leaving h) (list_to_set conns ∪ closed h)
    (opened h) (failing h).
Definition set_failing (l : list (list Z)) (h : hub) : hub :=
  mkHub (wsConns h) (serving h) (leaving h) (closed h) (opened h) l.
(** A failed write of a lending stream closes the connection, so that its read
    loop ends. *)
Definition writer_closes (c : Z) (h : hub) : hub :=
  mkHub (wsConns h) (serving h) (leaving h) ({[c]} ∪ closed h) (opened h) (failing h).
(** [WebSocketClientCount] *)
Definition WebSocketClientCount (h : hub) : Z := Z.of_nat (size (wsConns h)).

(** The steps that both interfaces make, in any order *)
Inductive stream_step (h : hub) : hub -> Prop :=
| step_connect : stream_step h (connect h)
| step_reader_deletes c : c ∈ serving h -> stream_step h (reader_deletes c h)
| step_reader_closes c : c ∈ leaving h -> stream_step h (reader_closes c h)
| step_stop : stream_step h (stop h).

(** The pool oracle's interface also publishes and removes failing connections. *)
Inductive price_step (h : hub) : hub -> Prop :=
| price_stream h' : stream_step h h' -> price_step h h'
| price_publish ok : price_step h (publish ok h)
| price_remove l1 conns l2 :
    failing h = l1 ++ conns :: l2 -> price_step h (set_failing (l1 ++ l2) (removeConns conns h)).

(** The lending oracle's writes for each stream on its own. *)
Inductive lending_stream_step (h : hub) : hub -> Prop :=
| lending_stream h' : stream_step h h' -> lending_stream_step h h'
| lending_write_fails c : c ∈ serving h -> lending_stream_step h (writer_closes c h).

Record wf_hub (h : hub) : Prop := {
  wh_opened : 0 <= opened h;
  wh_known : forall c, c ∈ wsConns h \/ c ∈ serving h \/ c ∈ leaving h \/ c ∈ closed h -> 0 <= c < opened h;
  wh_failing : forall conns c, conns ∈ failing h -> c ∈ conns -> 0 <= c < opened h;
  wh_served : wsConns h ⊆ serving h;
  wh_left : forall c, 0 <= c < opened h -> c ∈ wsConns h \/ c ∈ leaving h \/ c ∈ closed h;
}.

Lemma stream_step_wf h h' : stream_step h h' -> wf_hub h -> wf_hub h'.
Proof.
  intros Hstep [Ho Hk Hf Hs Hl]. destruct Hstep as [|c Hc|c Hc|]; split; cbn; try done.
  - lia.
  - intros c. rewrite !elem_of_union, !elem_of_singleton. intros Hc.
    destruct (decide (c = opened h)) as [->|]; [lia|].
    enough (0 <= c < opened h) by lia. apply Hk. tauto.
  - intros conns c Hin Hc. specialize (Hf _ _ Hin Hc). lia.
  - set_solver.
  - intros c Hc. rewrite elem_of_union, elem_of_singleton. destruct (decide (c = opened h)); [tauto|].
    destruct (Hl c) as [|[|]]; [lia|tauto..].
  - intros c'. set_unfold. intros Hc'. apply Hk. naive_solver.
  - set_solver.
  - intros c' Hc'. set_unfold. destruct (decide (c' = c)); [tauto|]. specialize (Hl c' Hc'). tauto.
  - intros c'. set_unfold. intros Hc'. apply Hk. naive_solver.
  - intros c' Hc'. set_unfold. destruct (decide (c' = c)); [tauto|]. specialize (Hl c' Hc'). tauto.
  - intros c'. set_unfold. intros Hc'. apply Hk. naive_solver.
  - intros c' Hc'. set_unfold. specialize (Hl c' Hc'). tauto.
Qed.

Lemma price_step_wf h h' : price_step h h' -> wf_hub h -> wf_hub h'.
Proof.
  intros Hstep Hwf. destruct Hstep as [h' Hs|ok|l1 conns l2 E].
  - by eapply stream_step_wf.
  - destruct Hwf as [Ho Hk Hf Hs Hl]. split; cbn; try done.
    intros conns c. rewrite elem_of_app, list_elem_of_singleton. intros [Hin| ->]; [by apply Hf|].
    rewrite list_elem_of_filter, elem_of_elements. intros [_ Hc]. apply Hk. tauto.
  - destruct Hwf as [Ho Hk Hf Hs Hl]. rewrite E in Hf. split; cbn; try done.
    + intros c. set_unfold. intros Hc.
      destruct (decide (c ∈ conns)) as [Hin|]; [eapply Hf; [|exact Hin]; set_solver|].
      apply Hk. naive_solver.
    + intros conns' c Hin. apply Hf. set_solver.
    + set_solver.
    + intros c Hc. set_unfold. destruct (decide (c ∈ conns)); [tauto|]. specialize (Hl c Hc). tauto.
Qed.

Lemma lending_step_wf h h' : lending_stream_step h h' -> wf_hub h -> wf_hub h'.
Proof.
  intros Hstep Hwf. destruct Hstep as [h' Hs|c Hc]; [by eapply stream_step_wf|].
  destruct Hwf as [Ho Hk Hf Hs Hl]. split; cbn; try done.
  - intros c'. set_unfold. intros Hc'. apply Hk. naive_solver.
  - intros c' Hc'. set_unfold. specialize (Hl c' Hc'). tauto.
Qed.

(** In the pool oracle's interface whatever takes a connection out of the registry
    also closes it, in that order. *)
Definition open_hub (h : hub) : Prop := wf_hub h /\ wsConns h ## closed h /\ wsConns h ## leaving h.

Lemma price_step_open h h' : price_step h h' -> open_hub h -> open_hub h'.
Proof.
  intros Hstep (Hwf & Hc & Hl). split; [by eapply price_step_wf|].
  destruct Hwf as [Ho Hk Hf _ _].
  assert (opened h ∉ closed h /\ opened h ∉ leaving h) as [Hn1 Hn2].
  { split; intros Hin; pose proof (Hk (opened h) ltac:(tauto)); lia. }
  destruct Hstep as [h' []|ok|l1 conns l2 E]; cbn; set_solver.
Qed.

(** A registered price stream is open and served, and one that was opened
    stays registered until it is closed or about to be, however the handlers, the
    publishers, the pings and [Stop] interleave. *)
Theorem price_streams_do_not_leak h c :
  rtc price_step new_hub h ->
  (c ∈ wsConns h -> c ∉ closed h /\ c ∈ serving h) /\
  (0 <= c < opened h -> c ∈ wsConns h \/ c ∈ leaving h \/ c ∈ closed h).
Proof.
  intros Hr. assert (open_hub h) as ([_ _ _ Hs Hl] & Hc & _).
  { assert (forall h0, rtc price_step h0 h -> open_hub h0 -> open_hub h) as Hind.
    { intros h0. induction 1 as [|h0 h1 h2 Hstep _ IH]; [done|]. intros Ho. eapply IH, price_step_open; done. }
    apply (Hind _ Hr). split; [|set_solver]. split; cbn; try done; set_solver by lia. }
  split; [|auto]. set_solver.
Qed.

(** A lending stream that was opened is registered, leaving or closed too. *)
Theorem lending_streams_do_not_leak h c :
  rtc lending_stream_step new_hub h ->
  0 <= c < opened h -> c ∈ wsConns h \/ c ∈ leaving h \/ c ∈ closed h.
Proof.
  intros Hr. assert (wf_hub h) as [_ _ _ _ Hl]; [|auto].
  assert (forall h0, rtc lending_stream_step h0 h -> wf_hub h0 -> wf_hub h) as Hind.
  { intros h0. induction 1 as [|h0 h1 h2 Hstep _ IH]; [done|]. intros Ho. eapply IH, lending_step_wf; done. }
  apply (Hind _ Hr). split; cbn; try done; set_solver by lia.
Qed.

(** ** Volume queries *)

Lemma newest_slot_bounds pools atSlot :
  atSlot <= newest_slot atSlot pools /\
  Forall (fun p => ps_FromMempool p = false -> ps_Slot p <= newest_slot atSlot pools) pools.
Proof.
  revert atSlot. induction pools as [|p pools IH]; intros atSlot; [by split; [|constructor]|].
  unfold newest_slot. cbn [foldl]. fold (newest_slot (newer_slot atSlot p) pools).
  destruct (IH (newer_slot atSlot p)) as [H1 H2].
  assert (atSlot <= newer_slot atSlot p /\
          (ps_FromMempool p = false -> ps_Slot p <= newer_slot atSlot p)) as [Ha Hp].
  { unfold newer_slot. destruct (ps_FromMempool p); cbn; [lia|].
    destruct (Z.ltb_spec atSlot (ps_Slot p)); lia. }
  split; [lia|]. constructor; [|done]. intros Hm. specialize (Hp Hm). lia.
Qed.

Lemma Volume_in_order network protocol poolID atSlot t :
  latestSlot t <= atSlot -> Volume network protocol poolID atSlot t <> Err ErrOutOfOrderActivity.
Proof.
  intros Hl. unfold Volume. rewrite (proj2 (Z.ltb_ge _ _) Hl). cbv zeta.
  generalize (mkVolume poolID network protocol Lovelace Lovelace 0 0 0 (windowSlots t) atSlot 0 0).
  generalize (cutoff_at (windowSlots t) atSlot).
  intros c. induction (swaps_of t (pool_key network protocol poolID)) as [|s l IH]; intros v; cbn [volume_loop].
  - by destruct (pv_SwapCount v =? 0).
  - destruct (sw_Slot s <? c); [apply IH|]. destruct (_ || _ || _); [done|]. apply IH.
Qed.

Section Volume.
Context `{C : Cbor, L : Ledger, P : !OracleParser} `{OrderedKV} `{!ActivityCodecs} `{!RangeOrder}.
Context (Sum256 : string -> list byte) (maxCount maxSize : Z).
Context (network : string) (poolAddresses : gset string) (synthetics : bool).
Context (digest_inj : forall id id',
  Sum256 (network +:+ String nul (op_Protocol +:+ String nul id)) =
  Sum256 (network +:+ String nul (op_Protocol +:+ String nul id')) -> id = id').

(** Some tracked pool is as new as the tracker. *)
Definition led (o : OracleState) : Prop :=
  forall t, o_activity o = Some t -> latestSlot t = 0 \/
    exists id p, o_pools o !! id = Some p /\ latestSlot t <= ps_Slot p.

Lemma led_same o o' : o_activity o' = o_activity o -> o_pools o' = o_pools o -> led o -> led o'.
Proof. unfold led. by intros -> ->. Qed.

Lemma ObserveTransition_latest prev c t :
  ps_FromMempool c = false ->
  match ObserveTransition prev (Some c) t with
  | (t', Err _) => t' = t
  | (t', Ok _) => latestSlot t' = ps_Slot c
  end.
Proof.
  intros Hm. unfold ObserveTransition. rewrite Hm. destruct (_ <? _); [done|].
  destruct (InferSwapTransition _ _) as [[tr|]|]; [|done|done].
  by destruct (find_duplicate _ _) as [[]|].
Qed.

Lemma handle_pool_led now sched blockHash parsed o :
  ps_FromMempool parsed = false -> led o ->
  led (handle_pool Sum256 maxCount maxSize network now sched blockHash parsed o).1.
Proof.
  intros Hm Ho. unfold handle_pool. set (state := set_pool_meta _ _ _ _).
  assert (ps_FromMempool state = false) as Hs by done.
  destruct (o_activity o) as [t|] eqn:Ht.
  - pose proof (ObserveTransition_latest (o_pools o !! ps_PoolId state) state t Hs) as Hl.
    destruct (ObserveTransition _ _ _) as [t' [[swap recorded]|e]].
    + cbn [o_activity set_activity set_pools]. destruct (SavePoolStateAndActivity _ _ _ _ _ _ _) as [d r].
      assert (forall o', o_activity o' = Some t' ->
                o_pools o' = <[ps_PoolId state := state]> (o_pools o) -> led o') as Hdone.
      { intros o' Ha Hp t0. rewrite Ha, Hp. intros [= <-]. right. exists (ps_PoolId state), state.
        rewrite lookup_insert_eq, Hl. split; [done|lia]. }
      destruct r; [|by apply Hdone]. cbn [map_err fst]. unfold notifySubscribers.
      destruct (NewPriceUpdate _ _); [|by apply Hdone].
      destruct (notify_loop _ _ _ _). by apply Hdone.
    + subst t'. by apply (led_same o).
  - assert (forall o', o_activity o' = None -> led o') as Hdone by (intros o' Ha t; by rewrite Ha).
    cbn [o_activity set_pools]. rewrite Ht. destruct (SavePoolState _ _) as [d r].
    destruct r; [|by apply Hdone]. cbn [map_err fst]. unfold notifySubscribers.
    destruct (NewPriceUpdate _ _); [|by apply Hdone].
    destruct (notify_loop _ _ _ _). by apply Hdone.
Qed.

Lemma handle_utxos_led now sched blockHash ctx utxos o :
  led o ->
  led (handle_utxos Sum256 maxCount maxSize network poolAddresses synthetics now sched blockHash ctx utxos o).1.
Proof.
  revert o. induction utxos as [|u utxos IH]; intros o Ho; [done|]. cbn [handle_utxos].
  destruct (negb _); [by apply IH|]. destruct (out_Datum (u_Output u)) as [datum|] eqn:Hd; [|by apply IH].
  destruct (if synthetics then op_cdp else None) as [parser|].
  { apply IH. revert Ho. apply led_same; unfold handleProducedCDPOutput; rewrite Hd;
      by destruct (ParseCDPDatum _ _ _ _ _) as [[]|]. }
  destruct (op_ParsePoolDatum _ _ _ _ _ _) as [[state|]|] eqn:E; [|by apply IH|by apply IH].
  destruct (op_sound _ _ _ _ _ _ _ E) as (s & -> & _).
  pose proof (handle_pool_led now sched blockHash (wrap_state s) o eq_refl Ho) as Hp.
  destruct (handle_pool _ _ _ _ _ _ _ _ o) as [o' []]; [by apply IH|done].
Qed.

Lemma handleTransaction_led now sched ctx txEvt o :
  led o ->
  led (handleTransaction Sum256 maxCount maxSize network poolAddresses synthetics now sched ctx txEvt o).1.
Proof.
  intros Ho. unfold handleTransaction. destruct ctx as [ctx|]; [|done]. apply handle_utxos_led.
  destruct (if synthetics then op_cdp else None) as [parser|]; [|done].
  unfold deleteSpentCDPStates. induction (transactionInputs txEvt) as [|i l IH] using rev_ind; [done|].
  rewrite foldl_app. cbn [foldl]. revert IH. set (o1 := foldl _ o l). apply led_same;
    unfold delete_spent, deleteCDPStateByID; by destruct (o_cdps o1 !! _).
Qed.

Definition no_rollback (a : oracle_action) : Prop :=
  match a with ActEvent _ _ (EvRollback _) => False | _ => True end.

Abbreviation run := (run_oracle Sum256 maxCount maxSize network poolAddresses synthetics).

Lemma run_led acts d0 :
  (forall k, Get d0 k = None) -> Forall (good_action network) acts -> Forall no_rollback acts ->
  led (run acts (New d0)).
Proof.
  intros Hd. induction acts as [|a acts IH] using rev_ind; intros Hg Hn.
  { intros t [= <-]. by left. }
  apply Forall_app in Hg as [Hg _]. rewrite Forall_app, Forall_singleton in Hn. destruct Hn as [Hn Ha].
  destruct (run_oracle_synced Sum256 maxCount maxSize network poolAddresses synthetics digest_inj
    acts (New d0) empty_history Hg (synced_New _ _ d0 Hd)) as (h & Hs & _).
  specialize (IH Hg Hn). unfold run_oracle. rewrite foldl_app. cbn [foldl].
  change (foldl _ (New d0) acts) with (run acts (New d0)). revert Hs IH. set (o := run acts (New d0)).
  intros Hs IH. destruct a as [now sched [ctx txEvt|slot|]|]; cbn [oracle_step HandleChainsyncEvent] in *.
  - pose proof (handleTransaction_led now sched ctx txEvt o IH) as Hl.
    by destruct (handleTransaction _ _ _ _ _ _ _ _ _ _ o).
  - by destruct Ha.
  - done.
  - destruct (loadPersistedStates_synced Sum256 network o h Hs) as (o' & -> & Hs' & Hp & _). cbn [fst].
    destruct (sy_activity _ _ _ _ Hs) as (t & M & Et & HA).
    destruct (sy_activity _ _ _ _ Hs') as (t' & M' & Et' & HA').
    intros t0. rewrite Et'. intros [= <-]. rewrite (ag_latest _ _ _ _ _ _ _ _ HA').
    rewrite <- (ag_latest _ _ _ _ _ _ _ _ HA), Hp. by apply IH.
Qed.

(** As long as nothing is rolled back, a volume query is never refused for the
    slot it is made at. After any transactions and restarts from an empty database,
    the slot of the newest tracked pool is not before the latest slot of the tracker,
    so that the query is answered or fails only by the overflow of a sum. *)
Theorem volume_is_in_order_without_rollbacks acts d0 poolID :
  (forall k, Get d0 k = None) -> Forall (good_action network) acts -> Forall no_rollback acts ->
  let o := run acts (New d0) in
  getPoolVolume poolID [o] = None /\ GetPoolState poolID o = None \/
  exists r, getPoolVolume poolID [o] = Some r /\ r <> Err ErrOutOfOrderActivity.
Proof.
  intros Hd Hg Hn o. pose proof (run_led acts d0 Hd Hg Hn) as Hl. fold o in Hl.
  destruct (run_oracle_synced Sum256 maxCount maxSize network poolAddresses synthetics digest_inj
    acts (New d0) empty_history Hg (synced_New _ _ d0 Hd)) as (h & Hs & _). fold o in Hs.
  cbn [getPoolVolume]. destruct (GetPoolState poolID o) as [state|] eqn:E; [right|by left].
  eexists. split; [done|]. unfold GetPoolVolume. rewrite E.
  destruct (sy_activity _ _ _ _ Hs) as (t & M & Et & _). rewrite Et. apply Volume_in_order.
  destruct (newest_slot_bounds (GetAllPools o) (ps_Slot state)) as [Hge Hall].
  destruct (sy_pools _ _ _ _ Hs _ _ E) as [_ Hgood].
  destruct (Hl t Et) as [->|(id & p & Hp & Hle)].
  - pose proof (wf_Slot _ (gp_wf _ _ _ Hgood)) as [? _]. lia.
  - destruct (sy_pools _ _ _ _ Hs _ _ Hp) as [_ Hgp].
    rewrite Forall_forall in Hall. enough (ps_Slot p <= newest_slot (ps_Slot state) (GetAllPools o)) by lia.
    apply Hall; [|apply Hgp]. unfold GetAllPools. rewrite range_perm.
    apply list_elem_of_fmap. exists (id, p). split; [done|]. by apply elem_of_map_to_list.
Qed.
End Volume.


(** ** A concrete run: two Minswap V2 pools *)

#[local] Existing Instance in_key_order.
#[local] Existing Instance Minswap.MinswapV2.
#[local] Existing Instance sample_parser.

Definition other_assetB : Minswap.Asset := Minswap.mkAsset (Some [x01; x03]) (Some [x56]).

(** A pool, a swap of it, and a later transaction of another pool *)
Definition two_pools : list oracle_action :=
  [pool_act sample_assetB 40 "ab" 2000000 3000000; pool_act sample_assetB 50 "ac" 2000100 2999900;
   ActRestart; pool_act other_assetB 100 "ad" 500000 700000].

(** The status of the volume response, and the two volumes if there are any *)
Definition volume_summary (r : response volume_body) : Z * option (Z * Z) :=
  (status r, match r with Json _ (VolumeOf v) => Some (pv_VolumeX v, pv_VolumeY v) | _ => None end).

Lemma two_pools_good : Forall (good_action sample_network) two_pools.
Proof.
  unfold two_pools. rewrite !Forall_cons, Forall_nil. split_and!; try exact I;
    (apply pool_act_good; [done | done | intros p Hp; vm_compute in Hp; injection Hp as <-;
      split; [done | by apply printable_sample | eexists; vm_compute; reflexivity]]).
Qed.

Lemma volume_is_in_order_without_rollbacks_witness :
  let o := sample_oracle false two_pools in
  (exists r, getPoolVolume "minswap_._0102.55" [o] = Some r /\ r <> Err ErrOutOfOrderActivity) /\
  volume_summary (HandleGetPoolVolume "minswap_._0102.55" [o]) = (StatusOK, Some (100, 100)).
Proof.
  intros o. split; [|vm_compute; reflexivity].
  destruct (volume_is_in_order_without_rollbacks (H:=gmap_KV) sample_digest 1 1000 sample_network
    {[ "addr" ]} false (sample_digest_inj _ _) two_pools ∅ "minswap_._0102.55" ltac:(done) two_pools_good
    ltac:(by repeat constructor)) as [[E _]|Hr]; [|exact Hr].
  vm_compute in E. discriminate E.
Defined.

(** After a rollback the volume of every pool can be refused. The tracker keeps
    the slot that the chain was rolled back to, but a pool last changed after that
    slot is no longer tracked, so the newest tracked slot, at which the handler makes
    its query, can be earlier; the query is then out of order and the handler answers
    with an internal error, for a pool that the rollback did not touch and whose volume
    at the slot rolled back to is known. *)
Theorem volume_refused_after_rollback :
  let pool := "minswap_._0102.55" in
  let o := sample_oracle false two_pools in
  let o' := sample_oracle false
    (two_pools ++ [ActEvent 1 (fun _ => (0%nat, 0%nat)) (EvRollback 80)]) in
  volume_summary (HandleGetPoolVolume pool [o]) = (StatusOK, Some (100, 100)) /\
  GetPoolState pool o' = GetPoolState pool o /\
  volume_summary (HandleGetPoolVolume pool [o']) = (StatusInternalServerError, None) /\
  totals (GetPoolVolume pool 80 o') = Ok (Some (100, 100, 1)).
Proof. vm_compute. done. Qed.

(** A database outlives the profile that wrote it: an oracle for debt positions that is
    started after one for Minswap loads its pools, whose protocol it does not follow,
    and its interface serves them from then on. *)
Example other_profile_inherits_pools :
  let stored := o_db (sample_oracle false two_pools) in
  let '(o, r) := loadPersistedStates (New stored) in
  let '(o, _) := HandleChainsyncEvent (P := cdp_parser) (H := gmap_KV) sample_digest 1 1000 sample_network
    {[ "addr" ]} true 1 (fun _ => (0%nat, 0%nat))
    (EvTransaction (Some (mkContext 120 "ae")) (cdp_event [] 100)) o in
  r = Ok tt /\
  match HandleListPools "" [o] with
  | Json _ body => map ps_Protocol (default [] (li_items body))
  | _ => []
  end = ["minswap-v2"; "minswap-v2"].
Proof. vm_compute. done. Qed.
