(* ===== verification/ApiJson.v ===== *)
(** * ApiJson: the bodies of the responses and of the streams as text.

    Every value that a handler or a stream writes, with the names of its members.
    These are only written, never read: a value is a list of members. *)
From S2P Require Import Prelude.
From S2P Require Import Text.
From S2P Require Import Float64.
From S2P Require Import Pool.
From S2P Require Import Activity.
From S2P Require Import AdaUsd.
From S2P Require Import Indigo.
From S2P Require Import Lending.
From S2P Require Import JsonString.
From S2P Require Import JsonNumber.
From S2P Require Import Json.
From S2P Require Import JsonRecord.
From S2P Require Import PoolJson.
From S2P Require Import LendingJson.
From S2P Require Import Subscribers.
From S2P Require Import OracleApi.

(** [Encoder.Encode]: the text and a line feed; nothing when the value cannot be
    written, an error that the handlers ignore. *)
Definition newline : string := String "010" "".
Definition Encode (j : option json) : string :=
  match j with Some j => render j +:+ newline | None => "" end.

(** A client reads back what was encoded. *)
Lemma json_Unmarshal_Encode {A} (k : kind A) a a0 :
  good k a -> into k a0 -> is_Some (enc k a) -> json_Unmarshal k (Encode (enc k a)) a0 = Some a.
Proof.
  intros Hg Hi [j E]. unfold json_Unmarshal, Encode. rewrite E.
  rewrite parse_render_space by (done || by eapply enc_wf). cbn. by eapply dec_enc.
Qed.

(** ** Prices *)

Definition price_entry_fields : fields _ :=
  FCons "poolId" false string_kind (FCons "protocol" false string_kind
  (FCons "assetX" false string_kind (FCons "assetY" false string_kind
  (FCons "priceXY" false float_kind (FCons "priceYX" false float_kind
  (FCons "reserveX" false uint64_kind (FCons "reserveY" false uint64_kind FNil))))))).
Definition price_entry_json (p : PriceEntry) : option json :=
  JObj <$> encode price_entry_fields
    (pe_PoolId p, (pe_Protocol p, (pe_AssetX p, (pe_AssetY p, (pe_PriceXY p, (pe_PriceYX p,
    (pe_ReserveX p, (pe_ReserveY p, tt)))))))).

Definition price_update_fields : fields _ :=
  FCons "poolId" false string_kind (FCons "protocol" false string_kind
  (FCons "assetX" false string_kind (FCons "assetY" false string_kind
  (FCons "priceXY" false float_kind (FCons "priceYX" false float_kind
  (FCons "reserveX" false uint64_kind (FCons "reserveY" false uint64_kind
  (FCons "slot" false uint64_kind (FCons "timestamp" false time_kind
  (FCons "prevPriceXY" true float_kind (FCons "priceChangeX" true float_kind FNil))))))))))).
Definition price_update_json (u : PriceUpdate) : option json :=
  JObj <$> encode price_update_fields
    (pu_PoolId u, (pu_Protocol u, (pu_AssetX u, (pu_AssetY u, (pu_PriceXY u, (pu_PriceYX u,
    (pu_ReserveX u, (pu_ReserveY u, (pu_Slot u, (pu_Timestamp u, (pu_PrevPriceXY u,
    (pu_PriceChangeX u, tt)))))))))))).

(** ** Volumes *)

Definition volume_fields : fields _ :=
  FCons "poolId" false string_kind (FCons "network" false string_kind
  (FCons "protocol" false string_kind
  (FCons "assetX" false asset_kind (FCons "assetY" false asset_kind
  (FCons "volumeX" false uint64_kind (FCons "volumeY" false uint64_kind
  (FCons "swapCount" false uint64_kind (FCons "windowSlots" false uint64_kind
  (FCons "windowEndSlot" false uint64_kind
  (FCons "firstSwapSlot" true uint64_kind (FCons "lastSwapSlot" true uint64_kind FNil))))))))))).
Definition volume_json (v : PoolVolume) : option json :=
  JObj <$> encode volume_fields
    (pv_PoolID v, (pv_Network v, (pv_Protocol v, (pv_AssetX v, (pv_AssetY v, (pv_VolumeX v,
    (pv_VolumeY v, (pv_SwapCount v, (pv_WindowSlots v, (pv_WindowEnd v, (pv_FirstSwapSlot v,
    (pv_LastSwapSlot v, tt)))))))))))).

Definition error_fields : fields _ :=
  FCons "code" false string_kind (FCons "error" false string_kind FNil).
Definition volume_body_json (b : volume_body) : option json :=
  match b with
  | VolumeError code error => JObj <$> encode error_fields (code, (error, tt))
  | VolumeOf v => volume_json v
  end.

(** ** The ADA/USD estimate *)

Definition validation_text (v : validation) : string :=
  match v with
  | ValidationNone => ""
  | ValidationQualified => "qualified"
  | ValidationUnavailable => "unavailable"
  end.
Definition age_member (age : option Z) : option (string * json) :=
  j ← pointer_json int64_kind age; Some (quote "ageSeconds", j).

(** The members before the age of an observation, and those after it *)
Definition observation_head : fields _ :=
  FCons "poolId" false string_kind (FCons "protocol" false string_kind
  (FCons "stablecoin" false string_kind
  (FCons "adaReserve" false uint64_kind (FCons "stableReserve" false uint64_kind
  (FCons "stableMicros" false uint64_kind
  (FCons "priceNumerator" false string_kind (FCons "priceDenominator" false string_kind
  (FCons "price" false float_kind (FCons "slot" false uint64_kind
  (FCons "blockHash" false string_kind (FCons "txHash" false string_kind
  (FCons "txIndex" false uint32_kind (FCons "observedAt" false time_kind FNil))))))))))))).
Definition observation_tail : fields _ :=
  FCons "validation" false string_kind
  (FCons "stableVolumeMicros" true uint64_kind (FCons "swapCount" true uint64_kind
  (FCons "activityWindowSlots" true uint64_kind FNil))).
Definition observation_json (o : PoolObservation) : option json :=
  head ← encode observation_head
    (ob_PoolID o, (ob_Protocol o, (ob_Stablecoin o, (ob_ADAReserve o, (ob_StableReserve o,
    (ob_StableMicros o, (ob_PriceNum o, (ob_PriceDen o, (ob_Price o, (ob_Slot o, (ob_BlockHash o,
    (ob_TxHash o, (ob_TxIndex o, (ob_ObservedAt o, tt))))))))))))));
  age ← age_member (ob_AgeSeconds o);
  tail ← encode observation_tail
    (validation_text (ob_Validation o), (ob_StableVolumeMicros o, (ob_SwapCount o, (ob_ActivitySlots o, tt))));
  Some (JObj (head ++ age :: tail)).

Definition result_head : fields _ :=
  FCons "pair" false string_kind (FCons "source" false string_kind (FCons "method" false string_kind
  (FCons "validation" false string_kind (FCons "observedAt" false time_kind FNil)))).
Definition result_tail : fields _ :=
  FCons "priceNumerator" false string_kind (FCons "priceDenominator" false string_kind
  (FCons "price" false float_kind (FCons "spread" false float_kind FNil))).
(** The observations are appended to a nil slice. *)
Definition result_json (r : Result) : option json :=
  head ← encode result_head
    (re_Pair r, (re_Source r, (re_Method r, (validation_text (re_Validation r), (re_ObservedAt r, tt)))));
  age ← age_member (re_AgeSeconds r);
  tail ← encode result_tail (re_PriceNum r, (re_PriceDen r, (re_Price r, (re_Spread r, tt))));
  observations ← nullable_json observation_json (merged (re_Observations r));
  Some (JObj (head ++ age :: tail ++ [(quote "observations", observations)])).

(** The messages of the errors *)
Definition usd_error_text (e : usd_error) : string :=
  match e with
  | ErrInsufficientObservations => "price: insufficient qualified ADA/stablecoin pools"
  | ErrInsufficientDiversity => "price: insufficient stablecoin diversity"
  | ErrConcentratedLiquidity => "price: one pool dominates qualified liquidity"
  | ErrDivergentPrices => "price: qualified pool prices diverge"
  | ErrNonFinitePrice => "price: non-finite floating-point price"
  | ErrInvalidActivityConfig => "price: invalid pool activity configuration"
  | ErrInvalidPoolActivity => "price: invalid pool activity"
  | NoStablecoinsConfigured => "price: no stablecoins configured"
  | MinimumCountsNotPositive => "price: minimum counts must be positive"
  | MaxPoolShareRange => "price: max pool share must be in (0,1]"
  | MaxDivergenceNegative => "price: max divergence must be non-negative"
  | InvalidObservationPrice => "price: invalid pool observation price"
  | LiquidityOverflow => "price: aggregate liquidity overflows uint64"
  end.
Definition ada_usd_json (b : ada_usd_body) : option json :=
  match b with
  | PriceError e r => map_json [("error", enc string_kind (usd_error_text e)); ("result", result_json r)]
  | PriceOf r => result_json r
  end.

(** ** Lending *)

Definition rate_entry_fields : fields _ :=
  FCons "stateId" false string_kind (FCons "protocol" false string_kind
  (FCons "asset" false string_kind (FCons "interestRate" false float_kind
  (FCons "basisPoints" false uint64_kind FNil)))).
Definition rate_entry_json (r : RateEntry) : option json :=
  JObj <$> encode rate_entry_fields
    (rt_StateId r, (rt_Protocol r, (rt_Asset r, (rt_InterestRate r, (rt_BasisPoints r, tt))))).

Definition util_entry_fields : fields _ :=
  FCons "stateId" false string_kind (FCons "protocol" false string_kind
  (FCons "asset" false string_kind (FCons "utilizationRate" false float_kind
  (FCons "totalSupply" false uint64_kind (FCons "totalBorrows" false uint64_kind
  (FCons "availableLiquidity" false uint64_kind FNil)))))).
Definition util_entry_json (u : UtilEntry) : option json :=
  JObj <$> encode util_entry_fields
    (ut_StateId u, (ut_Protocol u, (ut_Asset u, (ut_UtilizationRate u, (ut_TotalSupply u,
    (ut_TotalBorrows u, (ut_Available u, tt))))))).

Definition lending_update_fields : fields _ :=
  FCons "stateId" false string_kind (FCons "stateType" false state_type_kind
  (FCons "protocol" false string_kind
  (FCons "utilizationRate" true float_kind (FCons "interestRate" true float_kind
  (FCons "oraclePrice" true float_kind
  (FCons "totalSupply" true uint64_kind (FCons "totalBorrows" true uint64_kind
  (FCons "loanStatus" true string_kind
  (FCons "slot" false uint64_kind (FCons "timestamp" false time_kind FNil)))))))))).
Definition lending_update_json (u : LendingUpdate) : option json :=
  JObj <$> encode lending_update_fields
    (lu_StateId u, (lu_StateType u, (lu_Protocol u, (lu_UtilizationRate u, (lu_InterestRate u,
    (lu_OraclePrice u, (lu_TotalSupply u, (lu_TotalBorrows u, (lu_LoanStatus u, (lu_Slot u,
    (lu_Timestamp u, tt))))))))))).

(** ** Listings *)

Definition listing_json {A} (name : string) (f : A -> option json) (l : listing A) : option json :=
  map_json [(name, nullable_json f (li_items l)); ("count", int_json (li_count l))].

(** ** What is sent *)

(** Status, content type and body *)
Record http_response := mkHttpResponse {
  hr_Status : Z;
  hr_ContentType : string;
  hr_Body : string;
}.

Definition text_plain : string := "text/plain; charset=utf-8".
Definition application_json : string := "application/json".

(** [http.Error], or the status and the encoded body *)
Definition send {A} (f : A -> option json) (r : response A) : http_response :=
  match r with
  | HttpError s message => mkHttpResponse s text_plain (message +:+ newline)
  | Json s body => mkHttpResponse s application_json (Encode (f body))
  end.

(** The keys of a listing are written in their order, whatever that of the source. *)
Example empty_pools : hr_Body (send (listing_json "pools" (enc pool_kind)) (list_response None)) =
  "{" +:+ quoted "count" +:+ ":0," +:+ quoted "pools" +:+ ":null}" +:+ newline.
Proof. vm_compute. reflexivity. Qed.
Example filtered_cdps : hr_Body (send (listing_json "cdps" (enc cdp_kind)) (list_response (Some []))) =
  "{" +:+ quoted "cdps" +:+ ":[]," +:+ quoted "count" +:+ ":0}" +:+ newline.
Proof. vm_compute. reflexivity. Qed.
