(* ===== verification/Routes.v ===== *)
(** * Routes: which request reaches which handler ([RegisterHandlers] of both
    interfaces, [StartAPIServer]), and the response it gets.

    A handler is named by an [endpoint]; [serve] runs it on the oracles as they are
    when the request arrives. *)
From S2P Require Import Prelude.
From S2P Require Import Text.
From S2P Require Import Float64.
From S2P Require Import Common.
From S2P Require Import Pool.
From S2P Require Import Cbor.
From S2P Require Import Ledger.
From S2P Require Import KeyValue.
From S2P Require Import OracleStorage.
From S2P Require Import ActivityStorage.
From S2P Require Import Oracle.
From S2P Require Import OracleSync.
From S2P Require Import OracleRestart.
From S2P Require Minswap.
From S2P Require Import Lending.
From S2P Require LendingOracle.
From S2P Require Import JsonString.
From S2P Require Import ServeMux.
From S2P Require Import Json.
From S2P Require Import JsonRecord.
From S2P Require Import Rfc3339.
From S2P Require Import PoolJson.
From S2P Require Import LendingJson.
From S2P Require Import OracleApi.
From S2P Require Import ApiJson.

(** ** Endpoints *)

Inductive endpoint :=
| ListPools | GetPool | GetPoolVolume | ListCDPs | GetCDP | ListPrices | ADAUSDPrice | PriceStream
| ListMarkets | GetMarket | ListLoans | GetLoan | ListRates | ListUtilization | ListOverdueLoans
| LendingStream.
#[export] Instance endpoint_eq_dec : EqDecision endpoint.
Proof. solve_decision. Defined.

(** The interfaces that can be registered *)
Inductive interface := PoolInterface | LendingInterface.

Definition pool_routes : list (string * endpoint) :=
  [("GET /api/v1/pools", ListPools);
   ("GET /api/v1/pools/{poolId}", GetPool);
   ("GET /api/v1/pools/{poolId}/volume", GetPoolVolume);
   ("GET /api/v1/cdps", ListCDPs);
   ("GET /api/v1/cdps/{cdpId}", GetCDP);
   ("GET /api/v1/prices", ListPrices);
   ("GET /api/v1/prices/ada-usd", ADAUSDPrice);
   ("/ws/prices", PriceStream)].

Definition lending_routes : list (string * endpoint) :=
  [("GET /api/v1/lending/markets", ListMarkets);
   ("GET /api/v1/lending/markets/{marketId}", GetMarket);
   ("GET /api/v1/lending/loans", ListLoans);
   ("GET /api/v1/lending/loans/{loanId}", GetLoan);
   ("GET /api/v1/lending/rates", ListRates);
   ("GET /api/v1/lending/utilization", ListUtilization);
   ("GET /api/v1/lending/overdue", ListOverdueLoans);
   ("GET /ws/lending", LendingStream)].

Definition routes (i : interface) : list (string * endpoint) :=
  match i with PoolInterface => pool_routes | LendingInterface => lending_routes end.

Fixpoint register (l : list (string * endpoint)) (m : mux endpoint) : option (mux endpoint) :=
  match l with
  | [] => Some m
  | (s, e) :: l' => m' ← HandleFunc s e m; register l' m'
  end.

(** [RegisterHandlers]; [None] is a panic. *)
Definition RegisterHandlers (i : interface) : mux endpoint -> option (mux endpoint) := register (routes i).

(** The multiplexer that [StartAPIServer] listens with; nil registrars are skipped. *)
Fixpoint register_all (registrars : list (option interface)) (m : mux endpoint) : option (mux endpoint) :=
  match registrars with
  | [] => Some m
  | None :: l => register_all l m
  | Some i :: l => m' ← RegisterHandlers i m; register_all l m'
  end.
Definition StartAPIServer (registrars : list (option interface)) : option (mux endpoint) :=
  register_all registrars [].

(** ** The publishers of the pool interface

    [RegisterHandlers] also starts a goroutine for every oracle and one that pings,
    but only the first time. *)
Inductive routine := BroadcastFrom (oracle : nat) | PingLoop.
Definition startBroadcastPriceUpdates (oracles : nat) (started : bool) : bool * list routine :=
  if started then (true, []) else (true, (BroadcastFrom <$> seq 0 oracles) ++ [PingLoop]).

(** ** Serving *)

Inductive reply :=
| Respond (r : http_response)
(** the handler of a stream asks for the upgrade of the connection *)
| Upgrade (e : endpoint)
(** the multiplexer answers *)
| Redirect (path : string)
| Refuse (status : Z) (allow : list string).

Definition StatusMethodNotAllowed : Z := 405.

Section Serve.
Context `{KV} `{!RangeOrder}.

Record world := mkWorld {
  w_oracles : list OracleState;
  w_lending : list LendingOracle.LendingOracle;
  w_now : Z;
}.

(** A wildcard's value, by [PathValue] *)
Definition path_value (vars : list string) : string := List.hd "" vars.

Definition serve (e : endpoint) (vars : list string) (query : string) (w : world) : reply :=
  let id := path_value vars in
  match e with
  | ListPools =>
      Respond (send (listing_json "pools" (enc pool_kind))
        (HandleListPools (query_get "protocol" query) (w_oracles w)))
  | GetPool => Respond (send (enc pool_kind) (HandleGetPool id (w_oracles w)))
  | GetPoolVolume => Respond (send volume_body_json (HandleGetPoolVolume id (w_oracles w)))
  | ListCDPs =>
      Respond (send (listing_json "cdps" (enc cdp_kind))
        (HandleListCDPs (query_get "protocol" query) (w_oracles w)))
  | GetCDP => Respond (send (enc cdp_kind) (HandleGetCDP id (w_oracles w)))
  | ListPrices => Respond (send (listing_json "prices" price_entry_json) (HandleListPrices (w_oracles w)))
  | ADAUSDPrice => Respond (send ada_usd_json (HandleADAUSDPrice (w_now w) (w_oracles w)))
  | ListMarkets =>
      Respond (send (listing_json "markets" (enc lending_kind))
        (Lending.HandleListMarkets (query_get "protocol" query) (w_lending w)))
  | GetMarket => Respond (send (enc lending_kind) (Lending.HandleGetMarket id (w_lending w)))
  | ListLoans =>
      Respond (send (listing_json "loans" (enc lending_kind))
        (Lending.HandleListLoans (query_get "status" query) (w_lending w)))
  | GetLoan => Respond (send (enc lending_kind) (Lending.HandleGetLoan id (w_lending w)))
  | ListRates => Respond (send (listing_json "rates" rate_entry_json) (Lending.HandleListRates (w_lending w)))
  | ListUtilization =>
      Respond (send (listing_json "utilization" util_entry_json) (Lending.HandleListUtilization (w_lending w)))
  | ListOverdueLoans =>
      Respond (send (listing_json "overdueLoans" (enc lending_kind))
        (Lending.HandleListOverdueLoans (w_lending w)))
  | PriceStream | LendingStream => Upgrade e
  end.

(** A request for an escaped path and a raw query; the server drops the body of the
    answer to a HEAD request. *)
Definition handle (m : mux endpoint) (method path query : string) (w : world) : reply :=
  match route m method path with
  | Handled e vars =>
      match serve e vars query w with
      | Respond r =>
          Respond (if bool_decide (method = "HEAD")
                   then mkHttpResponse (hr_Status r) (hr_ContentType r) "" else r)
      | other => other
      end
  | RedirectedTo p => Redirect p
  | MethodNotAllowed allow => Refuse StatusMethodNotAllowed allow
  | NotFound => Refuse StatusNotFound []
  end.

(** *** A lending oracle's own interface: made when it is first used, for the oracle
    alone *)

Definition lendingAPI (api : option hub) : option hub := Some (default new_hub api).
Definition stopAPI (api : option hub) : option hub := stop <$> api.

Definition own_RegisterHandlers (api : option hub) (m : mux endpoint) : option hub * option (mux endpoint) :=
  (lendingAPI api, RegisterHandlers LendingInterface m).
Definition own_StartAPIServer (api : option hub) : option hub * option (mux endpoint) :=
  (lendingAPI api, StartAPIServer [Some LendingInterface]).
Definition own_serve (api : option hub) (e : endpoint) (vars : list string) (query : string)
    (o : LendingOracle.LendingOracle) : option hub * reply :=
  (lendingAPI api, serve e vars query (mkWorld [] [o] 0)).
End Serve.
(** ** The server starts if and only if no interface is registered twice *)

#[export] Instance interface_eq_dec : EqDecision interface.
Proof. solve_decision. Defined.

Definition own_mux (i : interface) : mux endpoint := default [] (RegisterHandlers i []).
Definition mux_of (done : list interface) : mux endpoint := concat (map own_mux done).

(** The five multiplexers of a server. *)
Lemma mux_cases (P : list interface -> Prop) :
  P [] -> P [PoolInterface] -> P [LendingInterface] -> P [PoolInterface; LendingInterface] ->
  P [LendingInterface; PoolInterface] -> forall done, NoDup done -> P done.
Proof.
  intros H0 H1 H2 H3 H4 done Hd. destruct done as [|a [|b [|c done]]]; [done|by destruct a| |].
  - apply NoDup_cons in Hd as [Ha _]. destruct a, b; done || set_solver.
  - exfalso. apply NoDup_cons in Hd as [Ha [Hb _]%NoDup_cons]. destruct a, b, c; set_solver.
Qed.

Lemma RegisterHandlers_spec i done :
  NoDup done ->
  RegisterHandlers i (mux_of done) = if decide (i ∈ done) then None else Some (mux_of (done ++ [i])).
Proof.
  intros Hd. revert done Hd. apply mux_cases; by destruct i.
Qed.

Lemma register_all_spec registrars done :
  NoDup done ->
  register_all registrars (mux_of done) =
    if decide (NoDup (done ++ omap id registrars)) then Some (mux_of (done ++ omap id registrars)) else None.
Proof.
  revert done. induction registrars as [|[i|] l IH]; intros done Hd; cbn [register_all omap list_omap id].
  - rewrite app_nil_r. by rewrite decide_True.
  - rewrite RegisterHandlers_spec by done. destruct (decide (i ∈ done)) as [Hi|Hi].
    + rewrite decide_False; [done|]. intros [_ [Hn _]]%NoDup_app. apply (Hn i Hi). set_solver.
    + cbn [mbind option_bind]. rewrite IH; [by rewrite <- app_assoc|].
      apply NoDup_app. split; [done|]. split; [set_solver|apply NoDup_singleton].
  - by apply IH.
Qed.

(** The server comes up exactly when no interface is registered twice. Nil
    registrars are skipped; registering an interface a second time panics, because its
    patterns conflict with themselves; the two interfaces together do not conflict in
    either order, and the multiplexer then holds the routes of the registered
    interfaces and nothing else. *)
Theorem StartAPIServer_starts registrars :
  StartAPIServer registrars =
    if decide (NoDup (omap id registrars)) then Some (mux_of (omap id registrars)) else None.
Proof. exact (register_all_spec registrars [] (NoDup_nil_2)). Qed.

(** ** Every endpoint is reached, whatever the identifier *)

Definition interface_of (e : endpoint) : interface :=
  match e with
  | ListPools | GetPool | GetPoolVolume | ListCDPs | GetCDP | ListPrices | ADAUSDPrice | PriceStream =>
      PoolInterface
  | _ => LendingInterface
  end.
(** The segments of the path at which an endpoint serves the identifier [id] *)
Definition segments_of (e : endpoint) (id : string) : list string :=
  match e with
  | ListPools => ["api"; "v1"; "pools"]
  | GetPool => ["api"; "v1"; "pools"; id]
  | GetPoolVolume => ["api"; "v1"; "pools"; id; "volume"]
  | ListCDPs => ["api"; "v1"; "cdps"]
  | GetCDP => ["api"; "v1"; "cdps"; id]
  | ListPrices => ["api"; "v1"; "prices"]
  | ADAUSDPrice => ["api"; "v1"; "prices"; "ada-usd"]
  | PriceStream => ["ws"; "prices"]
  | ListMarkets => ["api"; "v1"; "lending"; "markets"]
  | GetMarket => ["api"; "v1"; "lending"; "markets"; id]
  | ListLoans => ["api"; "v1"; "lending"; "loans"]
  | GetLoan => ["api"; "v1"; "lending"; "loans"; id]
  | ListRates => ["api"; "v1"; "lending"; "rates"]
  | ListUtilization => ["api"; "v1"; "lending"; "utilization"]
  | ListOverdueLoans => ["api"; "v1"; "lending"; "overdue"]
  | LendingStream => ["ws"; "lending"]
  end.
Definition variables_of (e : endpoint) (id : string) : list string :=
  match e with GetPool | GetPoolVolume | GetCDP | GetMarket | GetLoan => [id] | _ => [] end.

(** An identifier that can be a segment of a path *)
Definition path_id (id : string) : Prop := proper id /\ id <> "/".

Lemma segments_proper e id : path_id id -> segments_of e id <> [] /\ Forall proper (segments_of e id).
Proof. intros [Hp _]. destruct e; (split; [done|]); repeat constructor; done || apply Hp. Qed.

(** What a concrete list of candidates makes of segments with a variable one. *)
Ltac closed_candidates :=
  match goal with |- context [with_method ?meth (mux_of ?done)] =>
    let l := eval vm_compute in (with_method meth (mux_of done)) in
    change (with_method meth (mux_of done)) with l
  end.
Ltac case_segments :=
  repeat match goal with
  | |- Forall _ _ => constructor
  | |- forall _, _ => intro
  | H : Some _ = Some _ |- _ => injection H as <-
  | _ => progress cbn in *
  | H : context [bool_decide (?id = "/")] |- _ => rewrite (bool_decide_false (id = "/")) in H by done
  | H : context [bool_decide (?x = ?x)] |- _ => rewrite (bool_decide_true (x = x)) in H by done
  | |- context [bool_decide (?id = "/")] => rewrite (bool_decide_false (id = "/")) by done
  | _ => done
  end.

Definition pattern_of (e : endpoint) : list seg :=
  default [] ((fun r => pt_segs r.2.1) <$> list_find (fun x => x.2 = e) (own_mux (interface_of e))).

Lemma GET_candidates e id done :
  NoDup done -> interface_of e ∈ done -> path_id id -> e <> PriceStream ->
  match_path (segments_of e id) (with_method "GET" (mux_of done)) [] = Some (e, variables_of e id).
Proof.
  intros Hd Hi [_ Hid] He. revert Hi. pattern done. revert done Hd.
  apply mux_cases; intros Hi; destruct e; cbn [interface_of] in Hi; try done; try (exfalso; set_solver);
    closed_candidates;
    match goal with |- _ = Some (?e, _) =>
      let p := eval vm_compute in (pattern_of e) in apply (match_path_unique _ _ p) end;
    lazymatch goal with |- _ ∈ _ => repeat first [left; reflexivity | right] | _ => case_segments end.
Qed.

Definition GET_or_any (e : pattern * endpoint) : Prop := pt_method e.1 = "GET" \/ pt_method e.1 = "".
Lemma mux_methods done : Forall GET_or_any (mux_of done).
Proof.
  unfold mux_of. apply Forall_concat, Forall_fmap, Forall_true. intros i.
  destruct i; vm_compute;
    repeat (constructor; [first [left; reflexivity | right; reflexivity]|]); constructor.
Qed.
Lemma with_other_method method done :
  method <> "GET" -> method <> "" -> with_method method (mux_of done) = [].
Proof.
  intros Hg He. unfold with_method. pose proof (mux_methods done) as H.
  induction H as [|e m Hm _ IH]; [done|]. cbn. rewrite bool_decide_false; [done|].
  destruct Hm as [-> | ->]; congruence.
Qed.

Lemma find_handler_segments e key done method :
  NoDup done -> interface_of e ∈ done -> path_id key -> method = "GET" \/ method = "HEAD" ->
  find_handler (mux_of done) method (segments_of e key) = Some (e, variables_of e key).
Proof.
  intros Hd Hi Hk Hm. destruct (decide (e = PriceStream)) as [->|He].
  - destruct Hm as [-> | ->]; revert Hi; pattern done; revert done Hd;
      apply mux_cases; intros Hi; try (exfalso; cbn in Hi; set_solver); reflexivity.
  - unfold find_handler. destruct Hm as [-> | ->]; [by rewrite GET_candidates|].
    rewrite (with_other_method "HEAD") by done. rewrite (match_path_none _ []) by constructor.
    rewrite bool_decide_true by done. by rewrite GET_candidates.
Qed.

(** The multiplexer of a server that came up *)
Lemma server_mux registrars m :
  StartAPIServer registrars = Some m ->
  exists done, NoDup done /\ m = mux_of done /\ forall i, Some i ∈ registrars -> i ∈ done.
Proof.
  intros Hs. pose proof (register_all_spec registrars [] NoDup_nil_2) as H.
  change (register_all registrars (mux_of [])) with (StartAPIServer registrars) in H. rewrite Hs in H.
  cbn [app] in H. destruct (decide _) as [Hd|]; [|done]. injection H as ->.
  exists (omap id registrars). split; [done|]. split; [done|]. intros i Hi. apply list_elem_of_omap. eauto.
Qed.

(** C27: every endpoint of a registered interface is reached. A GET or HEAD request for
    its path, with the identifier escaped by [url.PathEscape], runs that endpoint's
    handler with that identifier, whatever the identifier is: slashes, percent signs and
    bytes that are no text included. The only identifiers that cannot be asked for are
    the empty one, [.], [..] and [/]. *)
Theorem endpoints_are_reached registrars m e key method :
  StartAPIServer registrars = Some m -> Some (interface_of e) ∈ registrars ->
  path_id key -> method = "GET" \/ method = "HEAD" ->
  route m method (path_of (PathEscape <$> segments_of e key)) = Handled e (variables_of e key).
Proof.
  intros Hs Hi Hk Hm. destruct (server_mux registrars m Hs) as (done & Hd & -> & Hin).
  destruct (segments_proper e key Hk) as [Hne Hp]. rewrite route_path_of by done.
  rewrite find_handler_segments; auto.
Qed.

Lemma any_candidates done :
  NoDup done ->
  Forall (fun e => e = ([Lit "ws"; Lit "prices"], PriceStream)) (with_method "" (mux_of done)).
Proof. revert done. apply mux_cases; vm_compute; repeat constructor. Qed.

Lemma find_handler_other method done path e vars :
  NoDup done -> method ∉ ["GET"; "HEAD"; ""] ->
  find_handler (mux_of done) method path = Some (e, vars) -> e = PriceStream /\ path = ["ws"; "prices"].
Proof.
  intros Hd Hm. assert (method <> "GET" /\ method <> "HEAD" /\ method <> "") as (Hg & Hh & He) by set_solver.
  unfold find_handler. rewrite with_other_method, (match_path_none _ []) by (done || constructor).
  rewrite bool_decide_false by done. intros (segs & v & Hin & Hp & _)%match_path_sound.
  pose proof (any_candidates done Hd) as H. rewrite Forall_forall in H. injection (H _ Hin) as -> ->.
  destruct path as [|a [|b []]]; cbn in Hp; repeat case_bool_decide; by subst.
Qed.

Lemma allowed_GET done segs r :
  NoDup done -> match_path segs (with_method "GET" (mux_of done)) [] = Some r ->
  allowed_methods (mux_of done) segs = ["GET"; "HEAD"].
Proof.
  intros Hd Hm. unfold allowed_methods.
  assert (filter (fun method => method <> "") (remove_dups ((fun e => pt_method e.1) <$> mux_of done))
    = match done with [] => [] | _ => ["GET"] end) as ->.
  { clear Hm. revert done Hd. apply mux_cases; vm_compute; reflexivity. }
  destruct done as [|i done].
  { change (with_method "GET" (mux_of [])) with (@nil (list seg * endpoint)) in Hm.
    by rewrite match_path_none in Hm by constructor. }
  rewrite filter_cons_True, filter_nil by by rewrite Hm. reflexivity.
Qed.

(** C28: the interfaces cannot be written to. A request with a method other than GET and
    HEAD reaches no handler but that of the price stream, whose pattern names no method;
    for the path of any other endpoint the answer is 405 with the methods that are
    allowed. *)
Theorem other_methods_are_refused registrars m method :
  StartAPIServer registrars = Some m -> method ∉ ["GET"; "HEAD"; ""] ->
  (forall path e vars, route m method path = Handled e vars -> e = PriceStream) /\
  (forall e key, Some (interface_of e) ∈ registrars -> path_id key -> e <> PriceStream ->
     route m method (path_of (PathEscape <$> segments_of e key)) = MethodNotAllowed ["GET"; "HEAD"]).
Proof.
  intros Hs Hm.
  assert (method <> "GET" /\ method <> "HEAD" /\ method <> "") as (Hg & Hh & He) by set_solver.
  split.
  - intros path e vars. destruct (server_mux registrars m Hs) as (done & Hd & -> & _). unfold route.
    destruct (_ && _); [done|]. destruct (find_handler _ _ _) as [[h v]|] eqn:E.
    + intros [= -> ->]. by apply (find_handler_other method done _ _ _ Hd Hm) in E as [-> _].
    + by destruct (allowed_methods _ _).
  - intros e key Hi Hk Hp. destruct (server_mux registrars m Hs) as (done & Hd & -> & Hin).
    destruct (segments_proper e key Hk) as [Hne Hpr]. rewrite route_path_of by done.
    destruct (find_handler _ _ _) as [[h v]|] eqn:E.
    + apply (find_handler_other method done _ _ _ Hd Hm) in E as [_ E]. by destruct e.
    + by rewrite (allowed_GET _ _ _ Hd (GET_candidates e key done Hd (Hin _ Hi) Hk Hp)).
Qed.

(** ** A pool, from the chain to the client *)

Lemma handle_reached `{KV} `{!RangeOrder} registrars m e key query w :
  StartAPIServer registrars = Some m -> Some (interface_of e) ∈ registrars -> path_id key ->
  e <> PriceStream -> e <> LendingStream ->
  handle m "GET" (path_of (PathEscape <$> segments_of e key)) query w = serve e (variables_of e key) query w.
Proof.
  intros Hs Hi Hk H1 H2. unfold handle. destruct (server_mux registrars m Hs) as (done & Hd & -> & Hin).
  destruct (segments_proper e key Hk) as [Hne Hp]. rewrite route_path_of by done.
  rewrite find_handler_segments by auto. by destruct e.
Qed.

Section EndToEnd.
Context `{C : Cbor, L : Ledger, P : !OracleParser} `{OrderedKV} `{!RangeOrder}.
Context (Sum256 : string -> list byte) (maxCount maxSize : Z).
Context (network : string) (poolAddresses : gset string) (synthetics : bool).
Context (digest_inj : forall id id',
  Sum256 (network +:+ String nul (op_Protocol +:+ String nul id)) =
  Sum256 (network +:+ String nul (op_Protocol +:+ String nul id')) -> id = id').

Abbreviation run := (run_oracle Sum256 maxCount maxSize network poolAddresses synthetics).

(** C13: the interface serves what the chain says. After any blocks, rollbacks and
    restarts from an empty database, a client that asks the server for a pool by its
    escaped identifier is given the state that the oracle tracks: the answer is 200, and
    its body is JSON that decodes into exactly that state. For a pool that is not
    tracked the answer is 404. *)
Theorem tracked_pool_is_served acts d0 registrars m key query lending now p0 :
  (forall k, Get d0 k = None) -> Forall (good_action network) acts ->
  StartAPIServer registrars = Some m -> Some PoolInterface ∈ registrars -> path_id key ->
  let o := run acts (New d0) in
  let reply := handle m "GET" (path_of (PathEscape <$> segments_of GetPool key)) query
    (mkWorld [o] lending now) in
  match GetPoolState key o with
  | Some pool => exists body,
      reply = Respond (mkHttpResponse StatusOK application_json body) /\
      json_Unmarshal pool_kind body p0 = Some pool
  | None => reply = Respond (mkHttpResponse StatusNotFound text_plain ("Pool not found" +:+ newline))
  end.
Proof.
  intros Hd Hg Hs Hi Hk o reply. subst reply. rewrite (handle_reached registrars) by done.
  cbn [serve variables_of path_value List.hd w_oracles]. unfold HandleGetPool, getPoolState.
  destruct Hk as ((Hne & _) & _). rewrite bool_decide_false by done. cbn [first_some].
  destruct (GetPoolState key o) as [pool|] eqn:E; [|done].
  destruct (run_oracle_synced Sum256 maxCount maxSize network poolAddresses synthetics digest_inj
    acts (New d0) empty_history Hg (synced_New _ _ d0 Hd)) as (h & Hsy & _). fold o in Hsy.
  destruct (sy_pools _ _ _ _ Hsy _ _ E) as [_ Hgood]. eexists. split; [done|].
  destruct (gp_total _ _ _ Hgood) as [v Hv]. apply fmap_Some in Hv as (j & Hj & _).
  apply json_Unmarshal_Encode; [apply Hgood | apply (pool_json_target p0) | by exists j].
Qed.
End EndToEnd.

(** ** The concrete run *)

#[local] Existing Instance in_key_order.
#[local] Existing Instance Minswap.MinswapV2.
#[local] Existing Instance sample_parser.

Lemma tracked_pool_is_served_witness :
  exists m body,
    StartAPIServer [None; Some LendingInterface; Some PoolInterface] = Some m /\
    handle (H := gmap_KV) m "GET" "/api/v1/pools/minswap_._0102.55" "" (mkWorld [sample_oracle false sample_acts] [] 7)
      = Respond (mkHttpResponse StatusOK application_json body) /\
    json_Unmarshal pool_kind body zeroPool = GetPoolState "minswap_._0102.55" (sample_oracle false sample_acts).
Proof.
  pose proof (tracked_pool_is_served (H := gmap_KV) sample_digest 1 1000 sample_network {[ "addr" ]} false
    (sample_digest_inj _ _) sample_acts ∅ [None; Some LendingInterface; Some PoolInterface]
    (mux_of [LendingInterface; PoolInterface]) "minswap_._0102.55" "" [] 7 zeroPool ltac:(done)
    sample_acts_good ltac:(reflexivity) ltac:(set_solver) ltac:(by split_and!)) as H.
  cbv zeta in H. fold (sample_oracle false sample_acts) in H.
  destruct (GetPoolState "minswap_._0102.55" (sample_oracle false sample_acts)) as [pool|] eqn:E.
  - destruct H as (body & Hr & Hu). exists (mux_of [LendingInterface; PoolInterface]), body.
    split; [reflexivity|]. split; [exact Hr | exact Hu].
  - vm_compute in E. discriminate E.
Defined.

Lemma endpoints_are_reached_witness :
  route (mux_of [PoolInterface]) "HEAD" "/api/v1/pools/a%2Fb%3F/volume" = Handled GetPoolVolume ["a/b?"].
Proof.
  exact (endpoints_are_reached [Some PoolInterface] (mux_of [PoolInterface]) GetPoolVolume "a/b?" "HEAD"
    eq_refl ltac:(left) ltac:(by split_and!) (or_intror eq_refl)).
Defined.

Lemma other_methods_are_refused_witness :
  route (mux_of [PoolInterface; LendingInterface]) "POST" "/api/v1/lending/loans/x%25"
    = MethodNotAllowed ["GET"; "HEAD"].
Proof.
  exact (proj2 (other_methods_are_refused [Some PoolInterface; Some LendingInterface]
    (mux_of [PoolInterface; LendingInterface]) "POST" eq_refl ltac:(set_solver)) GetLoan "x%"
    ltac:(set_solver) ltac:(by split_and!) ltac:(done)).
Defined.

(** What the multiplexer makes of other paths *)
Example routing_edges :
  let m := mux_of [PoolInterface; LendingInterface] in
  (route m "GET" "/api/v1/pools/", route m "GET" "/api//v1/cdps", route m "GET" "/api/v1/pools/..",
   route m "DELETE" "/ws/prices", route m "GET" "/api/v1/prices/usd") =
  (NotFound, RedirectedTo "/api/v1/cdps", RedirectedTo "/api/v1", Handled PriceStream [], NotFound).
Proof. vm_compute. reflexivity. Qed.
