(* ===== verification/Profiles.v ===== *)
(** * Profiles: what the program can be configured to follow
    ([internal/config/profiles.go], [profile_addresses.go], [config.go],
    [dex/locator.go]).

    The tables are those of the source. An address that the source computes from
    script hashes goes through a parameter, the address constructor of the ledger
    library; a panic during initialisation is [None]. *)
From S2P Require Import Prelude.
From S2P Require Import Text.
From S2P Require Import Cbor.
From S2P Require Import Ledger.
From S2P Require Import Parsers.
From S2P Require Import Lending.
From S2P Require Import Batcher.
From S2P Require Import TxSubmit.
From S2P Require Indexer Indigo.

(** ** Where pools are ([dex/locator.go]) *)

Record PoolLocator := mkPoolLocator {
  pl_Protocol : string;
  pl_Network : string;
  pl_Addresses : list string;
  pl_PoolNFTPolicy : string;
}.

Definition mainnetLocators : gmap string PoolLocator := list_to_map
  [("minswap-v1", mkPoolLocator "minswap-v1" "mainnet"
      ["addr1z8snz7c4974vzdpxu65ruphl3zjdvtxw8strf2c2tmqnxzfgf2ypu62xjxel6aqdmr333p0ds377t4phv8098c8s8fmqffc3l3"] "");
   ("minswap-v2", mkPoolLocator "minswap-v2" "mainnet"
      ["addr1z8snz7c4974vzdpxu65ruphl3zjdvtxw8strf2c2tmqnxz2j2c79gy9l76sdg0xwhd7r0c0kna0tycz4y5s6mlenh8pq0xmsha"] "");
   ("sundaeswap-v1", mkPoolLocator "sundaeswap-v1" "mainnet"
      ["addr1wyx22z2s4kasd3w976pnjf9xdty88epjqfvgkmfnfpsdacqe7utc8"] "");
   ("sundaeswap-v3", mkPoolLocator "sundaeswap-v3" "mainnet"
      ["addr1x8srqftqemf0mjlukfszd97ljuxdp44r372txfcr75wrz26rnxqnmtv3hdu2t6chcfhl2zzjh36a87nmd6dwsu3jenqsslnz7e"] "");
   ("splash-v1", mkPoolLocator "splash-v1" "mainnet"
      ["addr1w94ec3t25egvhqy2n265xfhq882jxhkknurfe9ny4rl9k6g03d4zz"] "");
   ("wingriders-v2", mkPoolLocator "wingriders-v2" "mainnet"
      ["addr1w8nvjzjeydcn4atcd93aac8allvrpjn7pjr2qsweukpnayghhwcpj"] "");
   ("vyfi", mkPoolLocator "vyfi" "mainnet"
      ["addr1z9vgl40qezca5s8ajz6wnpuwevt98l3jqx2ce5nlu8h8nnw60wckas4haxwwclas0g39cc8cvt2r8yalrfa9e8vxx92qsss9sx"] "");
   ("cswap", mkPoolLocator "cswap" "mainnet"
      ["addr1z8ke0c9p89rjfwmuh98jpt8ky74uy5mffjft3zlcld9h7ml3lmln3mwk0y3zsh3gs3dzqlwa9rjzrxawkwm4udw9axhs6fuu6e"] "")].

Definition Locator (protocol : string) : option PoolLocator := mainnetLocators !! protocol.
Definition Locators `{RangeOrder} : list PoolLocator := range (map_to_list mainnetLocators).*2.
Definition PoolAddresses (protocol : string) : option (list string) :=
  match mainnetLocators !! protocol with
  | None => None
  | Some loc => Some (pl_Addresses loc)
  end.

(** ** Profiles *)

Inductive ProfileType :=
| ProfileTypeNone | ProfileTypeSpectrum | ProfileTypeOracle | ProfileTypeSynthetics | ProfileTypeLending.

#[export] Instance ProfileType_eq_dec : EqDecision ProfileType.
Proof. solve_decision. Defined.

(** What the field [Config] holds *)
Inductive ProfileConfig :=
| SpectrumConfig (c : SpectrumProfileConfig)
| OracleConfig (Protocol : string) (PoolAddresses : list string) (InputRefs : list InputRef)
| SyntheticsConfig (Protocol : string) (CDPAddresses : list string)
| LendingConfig (Protocol : string) (MarketAddresses OracleAddresses : list string) (InputRefs : list InputRef).

Record Profile := mkProfile {
  Name : string;
  Type_ : ProfileType;
  InterceptSlot : Z;
  InterceptHash : string;
  Config_ : ProfileConfig;
}.

Definition poolAddrs (protocol : string) : list string := default [] (PoolAddresses protocol).

Definition preprod_minswap_v2 (addr : string) : Profile :=
  mkProfile "minswap-v2" ProfileTypeOracle 62910357
    "42d965bbc11668723b3bc3741a969c2750d2df0d16714a0af63b4ef2ee221eb1"
    (OracleConfig "minswap-v2"
    [addr]
    [mkInputRef "9f30b1c3948a009ceebda32d0b1d25699674b2eaf8b91ef029a43bfc1073ce28" 0]).
Definition preview_sundaeswap_v3 (addr : string) : Profile :=
  mkProfile "sundaeswap-v3" ProfileTypeOracle 48535234
    "311319fd4889453ddbba6fde8b085cd1ec8d7d341e6128c003ad8cbbfbf09043"
    (OracleConfig "sundaeswap-v3"
    [addr]
    [mkInputRef "92ec2274938de291d3837b7facf9eddfaed57cd6ff97e26af57cb7a9978e3887" 0; mkInputRef "8036a88a61427262aba964a42d0b9924739ffc3214de9a07c54b5a09af7f0d7d" 0]).
Definition preview_teddyswap : Profile :=
  mkProfile "teddyswap" ProfileTypeSpectrum 32045163
    "825568a8f7272fa8662c5a1fee156fe5dfb932ae8a47c8526b737399c9b3e836"
    (SpectrumConfig (mkSpectrumProfile
    "4ab17afc9a19a4f06b6fe229f9501e727d3968bff03acb1a8f86acf5"
    "0c70d8047139103546f0e76aafecfdf0667cbb397c8976f40ae8fcb3"
    "ab658d65b5717bf07bd3b1a9ad28d31c183811bba4076aeace9feb8e"
    ""
    "28bbd1f7aebb3bc59e13597f333aeefb8f5ab78eda962de1d605b388"
    (mkInputRef "81bdfd89f3c8ff1a23dbe70af2db399ad0ed028b36a41974662a2cf8cda3c7c3" 0)
    (mkInputRef "77186dc10826227acd5e4a48e636bd3b11d5f39cc051d794540a7125903e157c" 0)
    (mkInputRef "2266866d4d85cd582a34d27638a6eeb885cc4fb96fee230c86720e1f3f9eb0a0" 0)
    (mkInputRef "" 0)
    (mkInputRef "64747d26baba95016a42c078360a431bb74d603f3f2582eb1b77d5dcfd53f128" 0))).
Definition mainnet_minswap_v1 : Profile :=
  mkProfile "minswap-v1" ProfileTypeOracle 51340496
    "ba74da9715acfd2a01c88b52e41b574621c65c91e8eda35c9c3cd8e8c5f64d4c"
    (OracleConfig "minswap-v1"
    (poolAddrs "minswap-v1")
    []).
Definition mainnet_minswap_v2 : Profile :=
  mkProfile "minswap-v2" ProfileTypeOracle 72316896
    "3e86a51cdabb354e5fe4b2511f91c4e8e323af5e50ef5eb2d5f3d5a7dab1f3b1"
    (OracleConfig "minswap-v2"
    (poolAddrs "minswap-v2")
    [mkInputRef "2536194d2a976370a932174c10975493ab58fd7c16395d50e62b7c0e1949baea" 0]).
Definition mainnet_sundaeswap_v1 : Profile :=
  mkProfile "sundaeswap-v1" ProfileTypeOracle 51337110
    "d1423d7eb6fc87d7ad1a54e44dd8cb70483370877346f3178dd507d7609046c8"
    (OracleConfig "sundaeswap-v1"
    (poolAddrs "sundaeswap-v1")
    []).
Definition mainnet_sundaeswap_v3 : Profile :=
  mkProfile "sundaeswap-v3" ProfileTypeOracle 123703740
    "c43d1bb5308d1ad7baa11120291ed2ba620784ebd96ae02a63c5511b3346581a"
    (OracleConfig "sundaeswap-v3"
    (poolAddrs "sundaeswap-v3")
    []).
Definition mainnet_splash_v1 : Profile :=
  mkProfile "splash-v1" ProfileTypeOracle 98823654
    "4666f26d15f4802c0d4c81b841583ea6d90d623d168c77f1e45200eda1f82638"
    (OracleConfig "splash-v1"
    (poolAddrs "splash-v1")
    [mkInputRef "fc9e99fd12a13a137725da61e57a410e36747d513b965993d92c32c67df9259a" 0]).
Definition mainnet_wingriders_v2 : Profile :=
  mkProfile "wingriders-v2" ProfileTypeOracle 61318994
    "c1c2c3d4e5f6a1b2c3d4e5f6a1b2c3d4e5f6a1b2c3d4e5f6a1b2c3d4e5f6c1c2"
    (OracleConfig "wingriders-v2"
    (poolAddrs "wingriders-v2")
    []).
Definition mainnet_vyfi : Profile :=
  mkProfile "vyfi" ProfileTypeOracle 92346471
    "b0ce8bc8fbdcb803287e2b67d8eca865ef93be7e3d2473bfa81d89a8d58b7ee3"
    (OracleConfig "vyfi"
    (poolAddrs "vyfi")
    []).
Definition mainnet_cswap : Profile :=
  mkProfile "cswap" ProfileTypeOracle 149650740
    "76e1965f49d2ed87150045666c4a9abec1b9439338b87eb50331797b8f37205b"
    (OracleConfig "cswap"
    (poolAddrs "cswap")
    []).
Definition mainnet_indigo : Profile :=
  mkProfile "indigo" ProfileTypeSynthetics 75599947
    "5af43c107055e2339c0d8d931c10679adb0b39ae0322cc521d7c327dcc6d816f"
    (SyntheticsConfig "indigo"
    ["addr1z8jd97ct35n4s5ss8lt4sq0zclw0dmf7yak8fj46m0jm3dhzfjvtm0pg7ms9fvw5luec6euwzku8wqjpt5gv0q86052qv9nxuw";
     "addr1w80ptp0qgmcklhmeweesqgeurtlma8fsxsr9dt8au30fzss0czhl9"]).
Definition mainnet_liqwid : Profile :=
  mkProfile "liqwid" ProfileTypeLending 82999969
    "67c0cfdb05dc04f9a0887f862b477b6c921d77bd357ea71aba1512742d7cfc90"
    (LendingConfig "liqwid"
    ["addr1w8dprfgfdxnlwu3948579jrwg0ferf5a63ln8xj0mqcdzegayxmqq";
     "addr1w9wjz8tjt87gldh2usu8t5mfe4nkmlngp30a387h8s94fyg5uup5n";
     "addr1wyw3ap36lnepstpjadwg8cg73llvmju4y94kmfld23lkzjggq4hyj";
     "addr1wxrxa3ucywn3lqpkzlyucak0a7aavkudh49fqt06yc05sws4l4zs2"]
    ["addr1wyd8cezjr0gcf8nfxuc9trd4hs7ec520jmkwkqzywx6l5jg0al0ya"] []).
Definition mainnet_spectrum : Profile :=
  mkProfile "spectrum" ProfileTypeSpectrum 98823654
    "4666f26d15f4802c0d4c81b841583ea6d90d623d168c77f1e45200eda1f82638"
    (SpectrumConfig (mkSpectrumProfile
    "2618e94cdb06792f05ae9b1ec78b0231f4b7f4215b1b4cf52e6342de"
    "075e09eb0fa89e1dc34691b3c56a7f437e60ac5ea67b338f2e176e20"
    "83da79f531c19f9ce4d85359f56968a742cf05cc25ed3ca48c302dee"
    "e628bfd68c07a7a38fcd7d8df650812a9dfdbee54b1ed4c25c87ffbf"
    "6b9c456aa650cb808a9ab54326e039d5235ed69f069c9664a8fe5b69"
    (mkInputRef "fc9e99fd12a13a137725da61e57a410e36747d513b965993d92c32c67df9259a" 2)
    (mkInputRef "fc9e99fd12a13a137725da61e57a410e36747d513b965993d92c32c67df9259a" 0)
    (mkInputRef "fc9e99fd12a13a137725da61e57a410e36747d513b965993d92c32c67df9259a" 1)
    (mkInputRef "31a497ef6b0033e66862546aa2928a1987f8db3b8f93c59febbe0f47b14a83c6" 0)
    (mkInputRef "c8c93656e8bce07fabe2f42d703060b7c71bfa2e48a2956820d1bd81cc936faa" 0))).
Definition mainnet_teddyswap : Profile :=
  mkProfile "teddyswap" ProfileTypeSpectrum 109076993
    "328bac757d1b100c68e0fd8f346a1bd53ee415b94271b8b7353866a22063f7bf"
    (SpectrumConfig (mkSpectrumProfile
    "4ab17afc9a19a4f06b6fe229f9501e727d3968bff03acb1a8f86acf5"
    "0c70d8047139103546f0e76aafecfdf0667cbb397c8976f40ae8fcb3"
    "ab658d65b5717bf07bd3b1a9ad28d31c183811bba4076aeace9feb8e"
    ""
    "28bbd1f7aebb3bc59e13597f333aeefb8f5ab78eda962de1d605b388"
    (mkInputRef "fb6906c2bc39777086036f9c46c297e9d8a41ede154b398d85245a2549b4bf04" 0)
    (mkInputRef "570f810fe5f8cef730587fb832bb70d8783bad711064d70fc1a378cbefdd7c94" 0)
    (mkInputRef "e33584ade2b47fb0ab697b63585fb4be935852131643981ba95acde09fe31f41" 0)
    (mkInputRef "" 0)
    (mkInputRef "cdafc4e33524e767c4d0ffde094d56fa42105dcfc9b62857974f86fd0e443c32" 0))).

(** The networks that the source names, with the number that the ledger library
    gives them, and the construction of an address from a type, that number and the
    hashes of a payment and a staking script. *)
Section Tables.
Context (NetworkId : string -> option Z)
        (NewAddressFromParts : bool -> Z -> slice -> slice -> option string).

(** [mustScriptAddress]; the type is whether there is a staking script. *)
Definition mustScriptAddress (networkName : string) (scriptScript : bool)
    (paymentHashHex stakingHashHex : string) : option string :=
  network ← NetworkId networkName;
  paymentHash ← DecodeString paymentHashHex;
  stakingHash ← (if bool_decide (stakingHashHex = "") then Some None else DecodeString stakingHashHex);
  NewAddressFromParts scriptScript network paymentHash stakingHash.

Definition mustScriptEnterpriseAddress (networkName paymentHashHex : string) : option string :=
  mustScriptAddress networkName false paymentHashHex "".
Definition mustScriptScriptAddress (networkName paymentHashHex stakingHashHex : string) : option string :=
  mustScriptAddress networkName true paymentHashHex stakingHashHex.

(** The profiles of each network, given the two addresses that are computed *)
Definition profile_table (preprodMinswap previewSundae : string) : list (string * list (string * Profile)) :=
  [("preprod", [("minswap-v2", preprod_minswap_v2 preprodMinswap)]);
   ("preview", [("sundaeswap-v3", preview_sundaeswap_v3 previewSundae); ("teddyswap", preview_teddyswap)]);
   ("mainnet",
     [("minswap-v1", mainnet_minswap_v1); ("minswap-v2", mainnet_minswap_v2);
      ("sundaeswap-v1", mainnet_sundaeswap_v1); ("sundaeswap-v3", mainnet_sundaeswap_v3);
      ("splash-v1", mainnet_splash_v1); ("wingriders-v2", mainnet_wingriders_v2);
      ("vyfi", mainnet_vyfi); ("cswap", mainnet_cswap); ("indigo", mainnet_indigo);
      ("liqwid", mainnet_liqwid); ("spectrum", mainnet_spectrum); ("teddyswap", mainnet_teddyswap)])].

Definition table_of (l : list (string * list (string * Profile))) : gmap string (gmap string Profile) :=
  list_to_map ((fun e => (e.1, list_to_map e.2)) <$> l).

Definition Profiles : option (gmap string (gmap string Profile)) :=
  preprodMinswap ← mustScriptEnterpriseAddress "preprod"
    "d6ba9b7509eac866288ff5072d2a18205ac56f744bc82dcd808cb8fe";
  previewSundae ← mustScriptScriptAddress "preview"
    "44a1eb2d9f58add4eb1932bd0048e6a1947e85e3fe4f32956a110414"
    "cc27980a8557fe9db2c9ac0a2677f4d1306dbf10689983758f0b8dbe";
  Some (table_of (profile_table preprodMinswap previewSundae)).
End Tables.

(** ** Configuration *)

(** The fields that the program reads; the nested structs are written out. *)
Record Config := mkConfig {
  LoggingLevel : string;
  DebugListenAddress : string;
  DebugListenPort : Z;
  Submit : string * (string * string);   (** address, socket path, URL *)
  TopologyConfigFile : string;
  TopologyHosts : list TopologyHost;
  StorageDirectory : string;
  IndexerAddress : string * string;      (** address, socket path *)
  WalletMnemonic : string;
  OracleAPIEnabled : bool;
  OracleAPIAddress : string;
  cfg_Network : string;
  cfg_Profiles : list string;
  ListenAddress : string;
  ListenAddressNtc : string;
  ListenPort : Z;
  ListenPortNtc : Z;
  NetworkMagic : Z;
}.

(** [globalConfig] *)
Definition globalConfig : Config :=
  mkConfig "info" "localhost" 0 ("", ("", "")) "" [] "./.shai" ("", "") "" false ":8090"
    "mainnet" ["spectrum"; "teddyswap"] "" "" 3000 3099 0.

Definition set_hosts (hosts : list TopologyHost) (c : Config) : Config :=
  mkConfig (LoggingLevel c) (DebugListenAddress c) (DebugListenPort c) (Submit c) (TopologyConfigFile c)
    hosts (StorageDirectory c) (IndexerAddress c) (WalletMnemonic c) (OracleAPIEnabled c)
    (OracleAPIAddress c) (cfg_Network c) (cfg_Profiles c) (ListenAddress c) (ListenAddressNtc c)
    (ListenPort c) (ListenPortNtc c) (NetworkMagic c).
Definition set_magic (magic : Z) (c : Config) : Config :=
  mkConfig (LoggingLevel c) (DebugListenAddress c) (DebugListenPort c) (Submit c) (TopologyConfigFile c)
    (TopologyHosts c) (StorageDirectory c) (IndexerAddress c) (WalletMnemonic c) (OracleAPIEnabled c)
    (OracleAPIAddress c) (cfg_Network c) (cfg_Profiles c) (ListenAddress c) (ListenAddressNtc c)
    (ListenPort c) (ListenPortNtc c) magic.

(** A topology file, as the library reads it: the access points of each root *)
Record Topology := mkTopology {
  LocalRoots : list (list TopologyHost);
  PublicRoots : list (list TopologyHost);
}.

Inductive config_error :=
| ReadingConfigFile | ParsingConfigFile | ProcessingEnvironment | TopologyError
| UnknownNetworkName (name : string) | UnknownProfile (name : string).

Section Config.
(** The table of profiles *)
Context (profiles : gmap string (gmap string Profile)).

Definition GetProfiles `{RangeOrder} (c : Config) : list Profile :=
  match profiles !! cfg_Network c with
  | None => []
  | Some networkProfiles =>
      (filter (fun e => e.1 ∈ cfg_Profiles c) (range (map_to_list networkProfiles))).*2
  end.

Definition GetAvailableProfiles `{RangeOrder} (c : Config) : list string :=
  match profiles !! cfg_Network c with
  | None => []
  | Some networkProfiles => (range (map_to_list networkProfiles)).*1
  end.

Lemma elem_of_GetProfiles `{RangeOrder} c p :
  p ∈ GetProfiles c <->
  exists m k, profiles !! cfg_Network c = Some m /\ m !! k = Some p /\ k ∈ cfg_Profiles c.
Proof.
  unfold GetProfiles. destruct (profiles !! cfg_Network c) as [m|]; [|set_solver].
  rewrite list_elem_of_fmap. setoid_rewrite list_elem_of_filter. setoid_rewrite range_perm.
  setoid_rewrite elem_of_map_to_list'. split.
  - intros ([k q] & -> & Hk & Hq). by exists m, k.
  - intros (m' & k & [= <-] & Hk & He). by exists (k, p).
Qed.

(** The files, the YAML and environment decoders, the topology reader and the network
    magic of a network name *)
Context (ReadFile : string -> option string) (yaml_Unmarshal : string -> Config -> option Config)
        (envconfig_Process : Config -> option Config) (NewTopologyConfigFromFile : string -> option Topology)
        (NetworkByName : string -> option Z).

Definition loadTopologyConfig (c : Config) : result config_error Config :=
  match NewTopologyConfigFromFile (TopologyConfigFile c) with
  | None => Err TopologyError
  | Some topology =>
      Ok (set_hosts (TopologyHosts c ++ mjoin (LocalRoots topology) ++ mjoin (PublicRoots topology)) c)
  end.

(** The loop over the configured profiles *)
Fixpoint check_profiles (available configured : list string) : result config_error unit :=
  match configured with
  | [] => Ok tt
  | profile :: configured' =>
      if bool_decide (profile ∈ available) then check_profiles available configured'
      else Err (UnknownProfile profile)
  end.

Definition Load `{RangeOrder} (configFile : string) (c : Config) : result config_error Config :=
  c ← (if bool_decide (configFile = "") then Ok c
       else
         match ReadFile configFile with
         | None => Err ReadingConfigFile
         | Some buf =>
             match yaml_Unmarshal buf c with None => Err ParsingConfigFile | Some c => Ok c end
         end);
  c ← match envconfig_Process c with None => Err ProcessingEnvironment | Some c => Ok c end;
  c ← (if bool_decide (TopologyConfigFile c = "") then Ok c else loadTopologyConfig c);
  c ← match NetworkByName (cfg_Network c) with
      | None => Err (UnknownNetworkName (cfg_Network c))
      | Some magic => Ok (set_magic magic c)
      end;
  _ ← check_profiles (GetAvailableProfiles c) (cfg_Profiles c);
  Ok c.

Lemma check_profiles_ok available configured :
  check_profiles available configured = Ok tt <-> Forall (fun p => p ∈ available) configured.
Proof.
  induction configured as [|p configured IH]; [by split; [constructor|]|].
  cbn [check_profiles]. rewrite Forall_cons. case_bool_decide; [tauto|].
  split; [done|]. by intros [? _].
Qed.

(** A configuration that loads selects a profile for every name it lists: the
    network is known, its magic is recorded, and the profiles of the names are what
    the program starts. *)
Lemma Load_selects `{RangeOrder} configFile c0 c :
  Load configFile c0 = Ok c ->
  NetworkByName (cfg_Network c) = Some (NetworkMagic c) /\
  forall name, name ∈ cfg_Profiles c ->
    exists m p, profiles !! cfg_Network c = Some m /\ m !! name = Some p /\ p ∈ GetProfiles c.
Proof.
  unfold Load. intros E. repeat match type of E with
    | (mbind _ ?r) = Ok _ => destruct r as [?|] eqn:?; cbn [mbind result_bind] in E; [|done]
    end.
  injection E as <-.
  match goal with H : match NetworkByName ?n with _ => _ end = Ok _ |- _ =>
    destruct (NetworkByName n) as [magic|] eqn:Hn; [|done]; injection H as <- end.
  split; [done|]. intros name Hname.
  match goal with H : check_profiles _ _ = Ok ?u |- _ => destruct u; apply check_profiles_ok in H as Hc end.
  rewrite Forall_forall in Hc. specialize (Hc _ Hname). revert Hc. unfold GetAvailableProfiles.
  destruct (profiles !! _) as [m|] eqn:Hm; [|set_solver].
  rewrite list_elem_of_fmap. intros ([k p] & -> & Hk). rewrite range_perm, elem_of_map_to_list in Hk.
  exists m, p. split; [done|]. split; [done|]. apply elem_of_GetProfiles. by exists m, k.
Qed.
End Config.

(** ** The tables are sound *)

(** The addresses that the oracle of a profile watches *)
Definition watched (c : ProfileConfig) : list string :=
  match c with
  | OracleConfig _ l _ | SyntheticsConfig _ l => l
  | LendingConfig _ l l' _ => l ++ l'
  | SpectrumConfig _ => []
  end.

(** What the program relies on for a profile: it has the name it is listed under,
    a configuration of its type for a protocol that has a parser, watched addresses,
    and a point on the chain: a slot and a hash of 32 bytes. *)
Section Sound.
Context `{C : Cbor, L : Ledger, O : RangeOrder, R : !CborRange C}.

Definition config_sound (t : ProfileType) (c : ProfileConfig) : Prop :=
  match t, c with
  | ProfileTypeSpectrum, SpectrumConfig _ => True
  | ProfileTypeOracle, OracleConfig protocol _ _ =>
      exists P, getOracleParser (C := C) (L := L) protocol = Some P /\ @Protocol _ _ P = protocol
  | ProfileTypeSynthetics, SyntheticsConfig protocol _ => protocol = Indigo.ProtocolName
  | ProfileTypeLending, LendingConfig protocol _ _ _ =>
      exists P, GetLendingParser protocol = Some P /\ @lp_Protocol _ P = protocol
  | _, _ => False
  end.

Definition hash_sound (h : string) : bool :=
  match DecodeString h with Some s => (length (contents s) =? 32)%nat | None => false end.

Record profile_sound (name : string) (p : Profile) : Prop := {
  ps_name : Name p = name;
  ps_config : config_sound (Type_ p) (Config_ p);
  ps_point : 0 < InterceptSlot p /\ hash_sound (InterceptHash p) = true;
  ps_addresses : Type_ p = ProfileTypeSpectrum \/ watched (Config_ p) <> [];
}.

Lemma known_profile_sound a b network l name p :
  (network, l) ∈ profile_table a b -> (name, p) ∈ l -> profile_sound name p.
Proof.
  intros Hl Hp. unfold profile_table in Hl.
  repeat match type of Hl with
    | _ ∈ _ :: _ => apply elem_of_cons in Hl as [Hl|Hl]
    | _ ∈ [] => by apply elem_of_nil in Hl
    end; injection Hl as -> ->;
  repeat match type of Hp with
    | _ ∈ _ :: _ => apply elem_of_cons in Hp as [Hp|Hp]
    | _ ∈ [] => by apply elem_of_nil in Hp
    end; injection Hp as -> ->;
    (split; [reflexivity | first [exact I | reflexivity | by eexists] | split; reflexivity
            | first [by left | right; discriminate]]).
Qed.

(** Whatever a configuration selects from the tables is sound. *)
Lemma selected_profiles_sound a b c :
  Forall (fun p => profile_sound (Name p) p) (GetProfiles (table_of (profile_table a b)) c).
Proof.
  apply Forall_forall. intros p (m & k & Hm & Hk & _)%elem_of_GetProfiles. unfold table_of in Hm.
  apply elem_of_list_to_map_2, list_elem_of_fmap in Hm as ([network l] & E & Hl).
  injection E as E ->.
  apply elem_of_list_to_map_2 in Hk. pose proof (known_profile_sound a b _ l k p Hl Hk) as Hs.
  by rewrite (ps_name _ _ Hs).
Qed.

(** The locator of a protocol is the one of its parser, on mainnet. *)
Lemma Locator_sound protocol loc :
  Locator protocol = Some loc ->
  pl_Protocol loc = protocol /\ pl_Network loc = "mainnet" /\ pl_Addresses loc <> [] /\
  exists P, getOracleParser (C := C) (L := L) protocol = Some P /\ @Protocol _ _ P = protocol.
Proof.
  unfold Locator, mainnetLocators. rewrite <- elem_of_list_to_map by (vm_compute; by apply (bool_decide_unpack _)).
  intros Hl.
  repeat match type of Hl with
    | _ ∈ _ :: _ => apply elem_of_cons in Hl as [Hl|Hl]
    | _ ∈ [] => by apply elem_of_nil in Hl
    end; injection Hl as -> ->; (split; [done|]; split; [done|]; split; [discriminate|]; by eexists).
Qed.
End Sound.

(** No two profiles of a network watch the same address, so an output belongs to one
    oracle, and no profile is listed twice. *)
Lemma mainnet_addresses_disjoint a b :
  match list_to_map (M := gmap string _) (profile_table a b) !! "mainnet" with
  | Some l => NoDup (mjoin ((fun e => watched (Config_ e.2)) <$> l)) /\ NoDup l.*1
  | None => False
  end.
Proof.
  set (r := list_to_map _ !! _). vm_compute in r. subst r. cbn.
  split; apply (bool_decide_unpack _); vm_compute; exact I.
Qed.
