(* ===== verification/Wrappers.v ===== *)
(** * Wrappers: the parsers that package [dex] exports ([dex/minswap.go],
    [sundaeswap.go], [splash.go], [wingriders.go], [vyfi.go], [cswap.go]).

    A wrapper holds a parser of a protocol, reports its name, looks up the addresses
    of its pools, and copies what it parses into a [dex.PoolState]. *)
From S2P Require Import Prelude.
From S2P Require Import Text.
From S2P Require Import Common.
From S2P Require Import Pool.
From S2P Require Import Cbor.
From S2P Require Import Ledger.
From S2P Require Import Parsers.
From S2P Require Minswap SundaeSwap Splash WingRiders CSwap VyFi Profiles.

Record wrapper `{Cbor, Ledger} := mkWrapper {
  wr_Protocol : string;
  (** nothing for an unknown protocol *)
  wr_PoolAddresses : option (list string);
  wr_ParsePoolDatum : raw -> value -> string -> Z -> Z -> Z -> result parse_error PoolState;
}.

Section Wrappers.
Context `{C : Cbor, L : Ledger, O : RangeOrder, R : !CborRange C}.

Definition wrap (P : PoolParser) : wrapper :=
  mkWrapper C L Protocol (Profiles.PoolAddresses Protocol) dex_ParsePoolDatum.

Definition NewMinswapV1Parser : wrapper := wrap Minswap.MinswapV1.
Definition NewMinswapV2Parser : wrapper := wrap Minswap.MinswapV2.
Definition NewSundaeSwapV1Parser : wrapper := wrap SundaeSwap.SundaeSwapV1.
Definition NewSundaeSwapV3Parser : wrapper := wrap SundaeSwap.SundaeSwapV3.
Definition NewSplashV1Parser : wrapper := wrap Splash.SplashV1.
Definition NewWingRidersV2Parser : wrapper := wrap WingRiders.WingRidersV2.
Definition NewVyFiParser : wrapper := wrap VyFi.VyFiParser.
Definition NewCSwapParser : wrapper := wrap CSwap.CSwapParser.

Definition wrappers : list wrapper :=
  [NewMinswapV1Parser; NewMinswapV2Parser; NewSundaeSwapV1Parser; NewSundaeSwapV3Parser;
   NewSplashV1Parser; NewWingRidersV2Parser; NewVyFiParser; NewCSwapParser].

(** Every protocol that the oracle can be configured for has the wrapper of its
    parser, and every wrapper knows an address; the locators name no other protocol. *)
Lemma wrappers_locate_every_protocol :
  (forall protocol P, getOracleParser protocol = Some P -> wrap P ∈ wrappers) /\
  Forall (fun w => exists a l, wr_PoolAddresses w = Some (a :: l)) wrappers /\
  dom Profiles.mainnetLocators = list_to_set (wr_Protocol <$> wrappers).
Proof.
  split_and!.
  - intros protocol P. unfold getOracleParser, wrappers. intros E.
    repeat match type of E with (if ?b then _ else _) = _ => destruct b end; simplify_eq;
      repeat (left; reflexivity) || right; left; reflexivity.
  - repeat constructor; vm_compute; by eexists _, _.
  - apply set_eq. intros x. vm_compute. done.
Qed.
End Wrappers.
