(* ===== verification/Process.v ===== *)
(** * Process: the wallet ([internal/wallet]), the logger ([internal/logging]), the
    version ([internal/version]) and the tool that computes the address of a script
    ([cmd/mk-script-address]). *)
From S2P Require Import Prelude.
From S2P Require Import Text.

(** ** The wallet *)
Module Wallet.

(** [seed.txt] *)
Inductive seed_file :=
| Missing
| Holds (data : string)
| Unreadable.

Inductive panic := GenerateFailed | CreateFailed | WriteFailed | CloseFailed | ReadFailed | NewWalletFailed.

Section Wallet.
(** The wallet library, and what goes wrong with the file: its creation, the write,
    after which the file has part of the text, and its closing *)
Context {wallet : Type} (GenerateMnemonic : option string) (NewWallet : string -> string -> option wallet).
Context (create_ok close_ok : bool) (written : string -> string * bool).

Definition load_wallet (mnemonic network : string) : result panic wallet :=
  match NewWallet mnemonic network with Some w => Ok w | None => Err NewWalletFailed end.

(** [Setup], with the file as it leaves it. *)
Definition Setup (mnemonic network : string) (seed : seed_file) : seed_file * result panic wallet :=
  if negb (bool_decide (mnemonic = "")) then (seed, load_wallet mnemonic network)
  else
    match seed with
    | Holds data => (seed, load_wallet data network)
    | Missing =>
        match GenerateMnemonic with
        | None => (seed, Err GenerateFailed)
        | Some mnemonic =>
            if negb create_ok then (seed, Err CreateFailed)
            else
              let '(data, write_ok) := written mnemonic in
              (Holds data,
               if negb write_ok then Err WriteFailed
               else if negb close_ok then Err CloseFailed
               else load_wallet mnemonic network)
        end
    | Unreadable => (seed, Err ReadFailed)
    end.
End Wallet.

(** The wallet of a process is that of the next one, whatever mnemonic this one would
    generate: a write that succeeds writes everything. *)
Theorem wallet_survives_restart {wallet} gen gen' (NewWallet : string -> string -> option wallet) create close
    create' close' written written' mnemonic network seed seed' w :
  (forall m, (written m).2 = true -> (written m).1 = m) ->
  Setup gen NewWallet create close written mnemonic network seed = (seed', Ok w) ->
  Setup gen' NewWallet create' close' written' mnemonic network seed' = (seed', Ok w).
Proof.
  intros Hw. unfold Setup. destruct (bool_decide (mnemonic = "")) eqn:Em; cbn [negb]; [|by intros [= <- ->]].
  destruct seed as [|data|]; [|by intros [= <- ->]|done].
  destruct gen as [m|]; [|done]. destruct create; [|done]. specialize (Hw m).
  destruct (written m) as [data []]; cbn in *; [|done]. rewrite (Hw eq_refl).
  destruct close; [|done]. by intros [= <- ->].
Qed.

(** A process that fails while it writes leaves a file that the next one takes for the
    mnemonic: nothing is generated again. *)
Lemma failed_write_is_kept {wallet} m (NewWallet : string -> string -> option wallet) close written network data gen' create' close' written' :
  written m = (data, false) ->
  Setup (Some m) NewWallet true close written "" network Missing = (Holds data, Err WriteFailed) /\
  Setup gen' NewWallet create' close' written' "" network (Holds data) = (Holds data, load_wallet NewWallet data network).
Proof. intros Hw. unfold Setup. cbn. by rewrite Hw. Qed.
End Wallet.

(** ** The logger *)
Module Logging.

Inductive level := LevelDebug | LevelInfo | LevelWarn | LevelError.

(** The level of [buildLogger] *)
Definition level_of (s : string) : level :=
  if bool_decide (s = "debug") then LevelDebug
  else if bool_decide (s = "info") then LevelInfo
  else if bool_decide (s = "warn") then LevelWarn
  else if bool_decide (s = "error") then LevelError
  else LevelInfo.

(** A logger that was built: which one, and its level *)
Definition logger : Type := nat * level.

(** A goroutine in [GetLogger]: before the read lock, before the write lock, and at the
    end; or in [Configure], before and after it has built a logger. *)
Inductive caller :=
| Reads
| Locks
| Returns (l : logger)
| Builds
| Stores (l : logger)
| Configured.

Record state := mkState {
  globalLogger : option logger;
  built : nat;
  callers : list caller;
}.

Definition buildLogger (levelText : string) (s : state) : logger * state :=
  ((built s, level_of levelText), mkState (globalLogger s) (S (built s)) (callers s)).

(** The next section of [GetLogger] *)
Definition GetLogger (levelText : string) (c : caller) (s : state) : option (caller * state) :=
  match c with
  | Reads =>
      Some (match globalLogger s with Some l => Returns l | None => Locks end, s)
  | Locks =>
      match globalLogger s with
      | Some l => Some (Returns l, s)
      | None =>
          let '(l, s) := buildLogger levelText s in
          Some (Returns l, mkState (Some l) (built s) (callers s))
      end
  | _ => None
  end.

(** The next section of [Configure] *)
Definition Configure (levelText : string) (c : caller) (s : state) : option (caller * state) :=
  match c with
  | Builds => let '(l, s) := buildLogger levelText s in Some (Stores l, s)
  | Stores l => Some (Configured, mkState (Some l) (built s) (callers s))
  | _ => None
  end.

Definition call_step (levelText : string) (c : caller) (s : state) : option (caller * state) :=
  match c with
  | Reads | Locks | Returns _ => GetLogger levelText c s
  | _ => Configure levelText c s
  end.

Definition log_step (levelText : string) (i : nat) (s : state) : option state :=
  c ← callers s !! i;
  '(c, s) ← call_step levelText c s;
  Some (mkState (globalLogger s) (built s) (<[i := c]> (callers s))).

Fixpoint log_run (schedule : list (nat * string)) (s : state) : option state :=
  match schedule with
  | [] => Some s
  | (i, levelText) :: rest => s ← log_step levelText i s; log_run rest s
  end.

(** As long as nobody configures it, everybody is given the same logger. *)
Definition first_use (c : caller) : Prop := match c with Builds | Stores _ | Configured => False | _ => True end.
Definition agree (s : state) : Prop :=
  Forall first_use (callers s) /\
  forall l, Returns l ∈ callers s -> globalLogger s = Some l.

Lemma log_step_agree t i s s' : log_step t i s = Some s' -> agree s -> agree s'.
Proof.
  unfold log_step, agree. intros E [Hf Ha]. destruct (callers s !! i) as [c|] eqn:Ei; [|done]. cbn in E.
  pose proof (Forall_lookup_1 _ _ _ _ Hf Ei) as Hc.
  destruct c as [| |l| | |]; cbn in E, Hc; try done; destruct (globalLogger s) as [g|] eqn:Eg; cbn in E; injection E as <-;
    cbn; (split; [by apply Forall_insert|]); intros l Hl; apply list_elem_of_lookup in Hl as [j Hj];
    apply list_lookup_insert_Some in Hj as [(_ & Hj & _)|[_ Hj]]; try congruence;
    apply list_elem_of_lookup_2, Ha in Hj; congruence.
Qed.

Theorem first_logger_is_shared schedule n s l l' :
  log_run schedule (mkState None 0 (repeat Reads n)) = Some s ->
  Returns l ∈ callers s -> Returns l' ∈ callers s -> l = l' /\ built s = 1%nat.
Proof.
  assert (forall sch s0, agree s0 -> (built s0 = match globalLogger s0 with Some _ => 1 | None => 0 end)%nat ->
    log_run sch s0 = Some s -> agree s /\ (built s = match globalLogger s with Some _ => 1 | None => 0 end)%nat) as Hrun.
  { induction sch as [|[i t] sch IH]; cbn; intros s0 Hs Hb E; [by injection E as <-|].
    destruct (log_step t i s0) as [s1|] eqn:E1; [|done]. apply (IH s1); [by eapply log_step_agree| |done].
    unfold log_step in E1. destruct (callers s0 !! i) as [c|] eqn:Ei; [|done]. cbn in E1.
    pose proof (Forall_lookup_1 _ _ _ _ (proj1 Hs) Ei) as Hc.
    destruct c; cbn in E1, Hc; try done; destruct (globalLogger s0) as [g|] eqn:Eg; cbn in E1; injection E1 as <-;
      cbn; rewrite ?Eg; congruence. }
  intros E Hl Hl'. destruct (Hrun schedule (mkState None 0 (repeat Reads n))) as [[_ Ha] Hb]; [|done|done|].
  - split; [|intros m Hm]; cbn in *.
    + apply Forall_forall. intros c Hc. apply list_elem_of_In, repeat_spec in Hc. by subst.
    + apply list_elem_of_In, repeat_spec in Hm. done.
  - pose proof (Ha l Hl) as E1. pose proof (Ha l' Hl') as E2. rewrite E1 in Hb. split; [congruence|done].
Qed.
End Logging.

(** ** The version *)
Definition GetVersionString (Version CommitHash : string) : string :=
  if negb (bool_decide (Version = "")) then Version +:+ " (commit " +:+ CommitHash +:+ ")"
  else "devel (commit " +:+ CommitHash +:+ ")".

(** ** The address of a script *)
Module ScriptAddress.

Record flags := mkFlags {
  fl_network : string;
  fl_scriptData : string;
  fl_scriptPath : string;
  fl_plutusVersion : Z;
}.
Definition default_flags : flags := mkFlags "mainnet" "" "" 2.

Inductive failure := NothingGiven | UnknownNetwork | ScriptUnreadable | HashFailed.

Section Tool.
Context {address : Type} (NetworkByName : string -> option Z) (ReadFile : string -> option (list byte))
        (Blake2b224 : option (list byte -> list byte)) (NewAddress : Z -> list byte -> address).

Definition byte_of (z : Z) : byte := default x00 (Byte.of_N (Z.to_N (z mod 256))).

(** [main]: the hash and the address that are printed, or why the tool gives up *)
Definition main (f : flags) : result failure (string * address) :=
  if (bool_decide (fl_scriptPath f = "") && bool_decide (fl_scriptData f = "")) || bool_decide (fl_network f = "")
  then Err NothingGiven
  else
    match NetworkByName (fl_network f) with
    | None => Err UnknownNetwork
    | Some networkId =>
        match (if negb (bool_decide (fl_scriptData f = "")) then hex_decode (fl_scriptData f)
               else ReadFile (fl_scriptPath f)) with
        | None => Err ScriptUnreadable
        | Some scriptData =>
            match Blake2b224 with
            | None => Err HashFailed
            | Some Sum =>
                let scriptHash := Sum (byte_of (fl_plutusVersion f) :: scriptData) in
                Ok (hex_encode scriptHash, NewAddress networkId scriptHash)
            end
        end
    end.

(** The version of the language is not checked: it counts modulo 256. *)
Lemma version_wraps f v :
  main (mkFlags (fl_network f) (fl_scriptData f) (fl_scriptPath f) (v + 256)) =
  main (mkFlags (fl_network f) (fl_scriptData f) (fl_scriptPath f) v).
Proof. unfold main, byte_of. cbn. by rewrite <- Z.add_mod_idemp_r, Z.mod_same, Z.add_0_r. Qed.
End Tool.
End ScriptAddress.
