(* ===== verification/Startup.v ===== *)
(** * Startup: how the configured profiles are started ([cmd/shai/main.go]).

    [main] opens the storage, sets up the wallet, starts every profile in turn, then
    the web interface, the node and the submission; whatever fails ends the process.
    The databases are directories that are opened: [Open] tells whether a directory
    can be, given those that the process has open. What loading a started oracle finds
    on disk, and how the wallet and the node fared, are parameters. The way from the
    command line to here, and from here to the indexer, is in [Pipeline]. *)
From S2P Require Import Prelude.
From S2P Require Import Text.
From S2P Require Import Cbor.
From S2P Require Import Ledger.
From S2P Require Import Parsers.
From S2P Require Import Lending.
From S2P Require Import Batcher.
From S2P Require Import TxSubmit.
From S2P Require Import Profiles.
From S2P Require Import Routes.
From S2P Require Oracle Indigo Minswap Process.

(** Why the process ends *)
Inductive exit_reason :=
| StorageFailed
| WalletPanic (p : Process.Wallet.panic)
| InvalidProfileConfig (profile : string)
| ConfigPanic (profile : string)  (** the type assertion of a Spectrum profile *)
| UnknownProtocol (profile : string)
| OpenOracleStorage (profile : string)
| LoadOracleStates (profile : string)
| OpenLendingStorage (profile : string)
| StartLendingOracle (profile : string)
| ProfileTypeNoneGiven
| NodeFailed
| StartTxSubmit (e : start_error).

(** What is running: the directories that are open, the profiles of the batchers and
    the oracles, in the order of their start. *)
Record Running := mkRunning {
  rn_open : gset string;
  rn_spectrum : list string;
  rn_oracles : list string;
  rn_lending : list string;
  rn_lendingStorage : bool;
}.

(** The interfaces that [StartAPIServer] is given *)
Inductive APIHandler :=
| PoolAPI (oracles : list string)
| LendingAPI (oracles : list string).

Section Startup.
Context `{C : Cbor, L : Ledger, O : RangeOrder, R : !CborRange C, RI : !CborIntRange C}.
Context (Open : gset string -> string -> bool) (loads : string -> bool).
(** The storage directory and its subdirectories ([filepath.Join]) *)
Context (storageDir oracleDir lendingDir : string).

(** [getOracleParser], as the oracle takes it, and [getSyntheticsParser] *)
Definition oracleParser (protocol : string) : option (@Oracle.OracleParser C L) :=
  (fun P => Oracle.pool_oracle_parser (P := P)) <$> getOracleParser protocol.
Definition getSyntheticsParser (protocol : string) : option (@Oracle.OracleParser C L) :=
  if bool_decide (protocol = "indigo") then Some Oracle.indigo_oracle_parser else None.

Definition open_dir (dir : string) (s : Running) : Running :=
  mkRunning ({[dir]} ∪ rn_open s) (rn_spectrum s) (rn_oracles s) (rn_lending s) (rn_lendingStorage s).
Definition add_oracle (name : string) (s : Running) : Running :=
  mkRunning (rn_open s) (rn_spectrum s) (rn_oracles s ++ [name]) (rn_lending s) (rn_lendingStorage s).
Definition add_spectrum (name : string) (s : Running) : Running :=
  mkRunning (rn_open s) (rn_spectrum s ++ [name]) (rn_oracles s) (rn_lending s) (rn_lendingStorage s).
Definition add_lending (name : string) (s : Running) : Running :=
  mkRunning (rn_open s) (rn_spectrum s) (rn_oracles s) (rn_lending s ++ [name]) (rn_lendingStorage s).
Definition lending_opened (s : Running) : Running :=
  mkRunning (rn_open s) (rn_spectrum s) (rn_oracles s) (rn_lending s) true.

(** [startOracleProfile], and [Oracle.Start], which opens the storage of the oracle
    for each of them *)
Definition startOracleProfile (profile : Profile) (parser : option (@Oracle.OracleParser C L)) (s : Running)
  : result exit_reason Running :=
  match parser with
  | None => Err (UnknownProtocol (Name profile))
  | Some _ =>
      if negb (Open (rn_open s) oracleDir) then Err (OpenOracleStorage (Name profile))
      else if negb (loads (Name profile)) then Err (LoadOracleStates (Name profile))
      else Ok (add_oracle (Name profile) (open_dir oracleDir s))
  end.

(** The case of a lending profile: its storage is opened once. *)
Definition startLendingProfile (profile : Profile) (protocol : string) (s : Running)
  : result exit_reason Running :=
  match GetLendingParser protocol with
  | None => Err (UnknownProtocol (Name profile))
  | Some _ =>
      s ← (if rn_lendingStorage s then Ok s
           else if negb (Open (rn_open s) lendingDir) then Err (OpenLendingStorage (Name profile))
           else Ok (lending_opened (open_dir lendingDir s)));
      if negb (loads (Name profile)) then Err (StartLendingOracle (Name profile))
      else Ok (add_lending (Name profile) s)
  end.

(** The loop of [main] over the profiles *)
Definition startProfile (s : Running) (profile : Profile) : result exit_reason Running :=
  match Type_ profile with
  | ProfileTypeSpectrum =>
      match Config_ profile with
      | SpectrumConfig _ => Ok (add_spectrum (Name profile) s)
      | _ => Err (ConfigPanic (Name profile))
      end
  | ProfileTypeOracle =>
      match Config_ profile with
      | OracleConfig protocol _ _ =>
          startOracleProfile profile (oracleParser protocol) s
      | _ => Err (InvalidProfileConfig (Name profile))
      end
  | ProfileTypeSynthetics =>
      match Config_ profile with
      | SyntheticsConfig protocol _ => startOracleProfile profile (getSyntheticsParser protocol) s
      | _ => Err (InvalidProfileConfig (Name profile))
      end
  | ProfileTypeLending =>
      match Config_ profile with
      | LendingConfig protocol _ _ _ => startLendingProfile profile protocol s
      | _ => Err (InvalidProfileConfig (Name profile))
      end
  | ProfileTypeNone => Err ProfileTypeNoneGiven
  end.

Fixpoint startProfiles (profiles : list Profile) (s : Running) : result exit_reason Running :=
  match profiles with
  | [] => Ok s
  | profile :: profiles' => s ← startProfile s profile; startProfiles profiles' s
  end.

(** Whether the web interface is started, and with which handlers *)
Definition apiHandlers (c : Config) (s : Running) : option (list APIHandler) :=
  if OracleAPIEnabled c then
    match rn_oracles s, rn_lending s with
    | [], [] => None
    | oracles, lending =>
        Some ((match oracles with [] => [] | _ => [PoolAPI oracles] end) ++
              (match lending with [] => [] | _ => [LendingAPI lending] end))
    end
  else None.

(** [main] after the configuration is loaded, up to the submission; [wallet] is how the
    set-up of the wallet ended, [node_starts] whether the node could listen, and
    [network] are the bootstrap peers of the network. *)
Definition main {W} (profiles : list Profile) (c : Config) (wallet : result Process.Wallet.panic W)
    (node_starts : bool) (network : option (list TopologyHost))
  : result exit_reason (Running * option (list APIHandler) * (list string * SubmitConfig * TxSubmit)) :=
  if negb (Open ∅ storageDir) then Err StorageFailed
  else
    _ ← map_err WalletPanic wallet;
    s ← startProfiles profiles (mkRunning {[storageDir]} [] [] [] false);
    if negb node_starts then Err NodeFailed
    else
      match start_program network (mkSubmitConfig (TopologyHosts c) (Submit c).2.2) with
      | Err e => Err (StartTxSubmit e)
      | Ok started => Ok (s, apiHandlers c s, started)
      end.

(** What an interface is registered as *)
Definition interface_of_handler (h : APIHandler) : interface :=
  match h with PoolAPI _ => PoolInterface | LendingAPI _ => LendingInterface end.
Definition registrar (h : APIHandler) : option interface := Some (interface_of_handler h).

(** The server of the program comes up: it registers each interface at most once. *)
Lemma program_server_starts c s handlers :
  apiHandlers c s = Some handlers ->
  exists m, StartAPIServer (registrar <$> handlers) = Some m /\
    forall h, h ∈ handlers -> forall e, e ∈ own_mux (interface_of_handler h) -> e ∈ m.
Proof.
  intros E. assert (NoDup (omap id (registrar <$> handlers))) as Hd.
  { revert E. unfold apiHandlers. destruct (OracleAPIEnabled c); [|done].
    destruct (rn_oracles s), (rn_lending s); try done; intros [= <-]; cbn; repeat constructor; set_solver. }
  exists (mux_of (omap id (registrar <$> handlers))). split.
  - unfold StartAPIServer. change (@nil (ServeMux.pattern * endpoint)) with (mux_of []).
    rewrite register_all_spec by constructor. by rewrite decide_True.
  - intros h Hh e He.
    apply list_elem_of_In, in_concat. exists (own_mux (interface_of_handler h)).
    split; [|by apply list_elem_of_In]. apply in_map, list_elem_of_In, list_elem_of_omap.
    exists (registrar h). split; [by apply list_elem_of_fmap_2 | by destruct h].
Qed.

(** ** What starts *)

(** A profile that is served by an oracle of pools or of debt positions *)
Definition oracle_like (p : Profile) : bool :=
  match Type_ p with ProfileTypeOracle | ProfileTypeSynthetics => true | _ => false end.

Lemma startProfile_open s p s' :
  startProfile s p = Ok s' ->
  rn_open s ⊆ rn_open s' /\ (oracle_like p = true -> oracleDir ∈ rn_open s') /\
  (oracle_like p = true -> Open (rn_open s) oracleDir = true).
Proof.
  unfold startProfile, oracle_like, startOracleProfile, startLendingProfile.
  destruct (Type_ p), (Config_ p); try done; intros E.
  - injection E as <-. done.
  - destruct (oracleParser Protocol); [|done].
    destruct (Open (rn_open s) oracleDir); [|done]. destruct (loads (Name p)); [|done].
    injection E as <-. cbn. set_solver.
  - destruct (getSyntheticsParser Protocol); [|done].
    destruct (Open (rn_open s) oracleDir); [|done]. destruct (loads (Name p)); [|done].
    injection E as <-. cbn. set_solver.
  - destruct (GetLendingParser Protocol); [|done].
    destruct (rn_lendingStorage s); [|destruct (Open (rn_open s) lendingDir); [|done]];
      cbn [mbind result_bind] in E; (destruct (loads (Name p)); [|done]);
      injection E as <-; cbn; set_solver.
Qed.

Lemma startProfiles_open profiles s s' :
  startProfiles profiles s = Ok s' -> rn_open s ⊆ rn_open s'.
Proof.
  revert s. induction profiles as [|p profiles IH]; intros s; cbn [startProfiles]; [by intros [= <-]|].
  destruct (startProfile s p) as [s1|] eqn:E; [|done]. cbn. intros H%IH.
  apply startProfile_open in E. set_solver.
Qed.

(** *** A machine on which nothing goes wrong

    The database locks its directory, which cannot be opened while it is open, and
    otherwise opens; what is on disk loads. *)
Section Sane.
Context (exclusive : forall open dir, dir ∈ open -> Open open dir = false)
        (free : forall open dir, dir ∉ open -> Open open dir = true)
        (loads_all : forall name, loads name = true)
        (lending_apart : lendingDir <> oracleDir).

Lemma startProfiles_locked profiles s :
  oracleDir ∈ rn_open s -> filter (fun p => oracle_like p = true) profiles <> [] ->
  is_ok (startProfiles profiles s) = false.
Proof.
  revert s. induction profiles as [|p profiles IH]; intros s Hd; [done|].
  cbn [startProfiles]. rewrite filter_cons.
  destruct (startProfile s p) as [s1|] eqn:E; [|done]. cbn.
  apply startProfile_open in E as (Hsub & _ & Hopen). case_decide as Ho.
  - specialize (Hopen Ho). by rewrite exclusive in Hopen.
  - apply IH. set_solver.
Qed.

Lemma startProfile_sane s p :
  profile_sound (C := C) (L := L) (Name p) p ->
  (lendingDir ∈ rn_open s -> rn_lendingStorage s = true) ->
  (oracle_like p = true -> oracleDir ∉ rn_open s) ->
  exists s', startProfile s p = Ok s' /\
    (oracleDir ∈ rn_open s' <-> oracle_like p = true \/ oracleDir ∈ rn_open s) /\
    (lendingDir ∈ rn_open s' -> rn_lendingStorage s' = true) /\
    rn_oracles s' = rn_oracles s ++ (if oracle_like p then [Name p] else []) /\
    rn_spectrum s' = rn_spectrum s ++ (if bool_decide (Type_ p = ProfileTypeSpectrum) then [Name p] else []) /\
    rn_lending s' = rn_lending s ++ (if bool_decide (Type_ p = ProfileTypeLending) then [Name p] else []).
Proof.
  intros [_ Hc _ _] Hl Ho. unfold startProfile, oracle_like, startOracleProfile, startLendingProfile in *.
  destruct (Type_ p), (Config_ p); try done; cbn [config_sound] in Hc.
  - eexists. split; [done|]. cbn. rewrite !app_nil_r. naive_solver.
  - destruct Hc as (P & HP & _). unfold oracleParser. rewrite HP. cbn [fmap option_fmap option_map].
    rewrite free by auto. rewrite loads_all. eexists. split; [done|]. cbn. rewrite !app_nil_r. set_solver.
  - subst Protocol. cbn [getSyntheticsParser bool_decide]. change (getSyntheticsParser "indigo") with
      (Some (@Oracle.indigo_oracle_parser C L RI)). cbn.
    rewrite free by auto. rewrite loads_all. eexists. split; [done|]. cbn. rewrite !app_nil_r. set_solver.
  - destruct Hc as (P & -> & _). destruct (rn_lendingStorage s) eqn:Hs; cbn [mbind result_bind].
    + rewrite loads_all. eexists. split; [done|]. cbn. rewrite !app_nil_r. naive_solver.
    + rewrite free by (intros Hin; by specialize (Hl Hin)). rewrite loads_all.
      eexists. split; [done|]. cbn. rewrite !app_nil_r. set_solver.
Qed.

Definition oracle_profiles (profiles : list Profile) : list Profile :=
  filter (fun p => oracle_like p = true) profiles.
Definition names_of (t : ProfileType) (profiles : list Profile) : list string :=
  Name <$> filter (fun p => Type_ p = t) profiles.

Definition locked (s : Running) : nat := if decide (oracleDir ∈ rn_open s) then 1 else 0.

Lemma startProfiles_sane profiles s :
  Forall (fun p => profile_sound (C := C) (L := L) (Name p) p) profiles ->
  (lendingDir ∈ rn_open s -> rn_lendingStorage s = true) ->
  (locked s + length (oracle_profiles profiles) <= 1)%nat ->
  exists s', startProfiles profiles s = Ok s' /\
    rn_oracles s' = rn_oracles s ++ (Name <$> oracle_profiles profiles) /\
    rn_spectrum s' = rn_spectrum s ++ names_of ProfileTypeSpectrum profiles /\
    rn_lending s' = rn_lending s ++ names_of ProfileTypeLending profiles.
Proof.
  intros Hs. revert s. induction Hs as [|p profiles Hp _ IH]; intros s Hl Hn.
  { exists s. cbn. by rewrite !app_nil_r. }
  cbn [startProfiles]. unfold oracle_profiles, names_of in *. rewrite !filter_cons. rewrite filter_cons in Hn.
  destruct (startProfile_sane s p Hp Hl) as (s1 & -> & Hd & Hl1 & Ho & Hsp & Hle).
  { intros Hol Hin. unfold locked in Hn. rewrite (decide_True (P := oracleDir ∈ _)), decide_True in Hn by done.
    cbn in Hn. lia. }
  cbn [mbind result_bind]. destruct (IH s1 Hl1) as (s2 & -> & Ho2 & Hsp2 & Hle2).
  { unfold locked in *. revert Hn. repeat case_decide; cbn; try lia; tauto. }
  exists s2. split; [done|]. rewrite Ho2, Hsp2, Hle2, Ho, Hsp, Hle, <- !app_assoc.
  split_and!; f_equal.
  - by destruct (oracle_like p).
  - by destruct (Type_ p).
  - by destruct (Type_ p).
Qed.

Lemma startProfiles_two profiles s :
  (2 <= locked s + length (oracle_profiles profiles))%nat -> is_ok (startProfiles profiles s) = false.
Proof.
  revert s. induction profiles as [|p profiles IH]; intros s Hn.
  { unfold locked in Hn. revert Hn. case_decide; cbn; lia. }
  destruct (decide (oracleDir ∈ rn_open s)) as [Hin|Hnin].
  { apply startProfiles_locked; [done|]. intros E. unfold locked, oracle_profiles in Hn.
    rewrite decide_True, E in Hn by done. cbn in Hn. lia. }
  cbn [startProfiles]. destruct (startProfile s p) as [s1|] eqn:E; [|done]. cbn.
  apply startProfile_open in E as (_ & Hd & _). apply IH. revert Hn. unfold locked, oracle_profiles.
  rewrite filter_cons. repeat case_decide; cbn; first [lia | tauto].
Qed.

(** C29: the program runs at most one oracle of pools or debt positions. With sound
    profiles, as those of the tables are, on a machine where every database opens that
    is not already open and what is stored loads, the configured profiles start exactly
    when at most one of them is of that kind, and then all of them run. With two, the
    second finds the one directory in which each of them keeps its database locked by
    the first, and the process ends, although the interface that is started afterwards
    takes any number of oracles. *)
Theorem profiles_start_iff_one_oracle profiles :
  storageDir <> oracleDir -> storageDir <> lendingDir ->
  Forall (fun p => profile_sound (C := C) (L := L) (Name p) p) profiles ->
  match startProfiles profiles (mkRunning {[storageDir]} [] [] [] false) with
  | Ok s =>
      (length (oracle_profiles profiles) <= 1)%nat /\
      rn_oracles s = Name <$> oracle_profiles profiles /\
      rn_spectrum s = names_of ProfileTypeSpectrum profiles /\
      rn_lending s = names_of ProfileTypeLending profiles
  | Err _ => (2 <= length (oracle_profiles profiles))%nat
  end.
Proof.
  intros H1 H2 Hs. set (s0 := mkRunning _ _ _ _ _).
  assert (locked s0 = 0%nat) as Hk by (unfold locked; rewrite decide_False; [done|cbn; set_solver]).
  destruct (decide (length (oracle_profiles profiles) <= 1)%nat) as [Hle|Hgt].
  - destruct (startProfiles_sane profiles s0 Hs) as (s' & -> & ? & ? & ?); [cbn; set_solver | lia | done].
  - pose proof (startProfiles_two profiles s0 ltac:(lia)) as Hno.
    destruct (startProfiles profiles s0); [done|lia].
Qed.
End Sane.
End Startup.

(** ** Concrete configurations *)

#[local] Existing Instance in_key_order.

Definition sample_open (open : gset string) (dir : string) : bool := bool_decide (dir ∉ open).
Definition select_config (names : list string) : Config :=
  (mkConfig "info" "localhost" 0 ("", ("", "")) "" [] "./.shai" ("", "") "" false ":8090"
     "mainnet" names "" "" 3000 3099 0).
Definition select (names : list string) : list Profile :=
  GetProfiles (table_of (profile_table "a" "b")) (select_config names).

Abbreviation sample_start := (startProfiles (C := PlutusData) (L := Ledger.sample_ledger) sample_open
  (fun _ => true) "./.shai/oracle" "./.shai/lending").

(** Minswap and SundaeSwap together, and Minswap with profiles of other kinds *)
Lemma profiles_start_iff_one_oracle_witness :
  is_ok (sample_start (select ["minswap-v2"; "sundaeswap-v3"]) (mkRunning {["./.shai"]} [] [] [] false)) = false /\
  exists s, sample_start (select ["minswap-v2"; "liqwid"; "spectrum"])
      (mkRunning {["./.shai"]} [] [] [] false) = Ok s /\
    rn_oracles s = ["minswap-v2"] /\ rn_lending s = ["liqwid"] /\ rn_spectrum s = ["spectrum"].
Proof.
  assert (forall ps, Forall (fun p => profile_sound (C := PlutusData) (L := Ledger.sample_ledger) (Name p) p) ps ->
    match sample_start ps (mkRunning {["./.shai"]} [] [] [] false) with
    | Ok s => (length (oracle_profiles ps) <= 1)%nat /\ rn_oracles s = Name <$> oracle_profiles ps /\
        rn_spectrum s = names_of ProfileTypeSpectrum ps /\ rn_lending s = names_of ProfileTypeLending ps
    | Err _ => (2 <= length (oracle_profiles ps))%nat
    end) as Hst.
  { intros ps Hps. apply (profiles_start_iff_one_oracle (C := PlutusData) (L := Ledger.sample_ledger) sample_open
      (fun _ => true) "./.shai" "./.shai/oracle" "./.shai/lending");
      [ intros open dir Hd; unfold sample_open; by rewrite bool_decide_false by tauto
      | intros open dir Hd; unfold sample_open; by rewrite bool_decide_true
      | done | discriminate | discriminate | discriminate | done ]. }
  split.
  - specialize (Hst _ (selected_profiles_sound "a" "b" (select_config ["minswap-v2"; "sundaeswap-v3"]))).
    destruct (sample_start _ _); [|done]. destruct Hst as [Hst _]. vm_compute in Hst. lia.
  - specialize (Hst _ (selected_profiles_sound "a" "b" (select_config ["minswap-v2"; "liqwid"; "spectrum"]))).
    destruct (sample_start _ _) as [s|]; [|vm_compute in Hst; lia].
    exists s. destruct Hst as (_ & -> & -> & ->). split; [done|]. by vm_compute.
Defined.
