(* ===== verification/Pipeline.v ===== *)
(** * Pipeline: the program from its command line to the events of the chain
    ([cmd/shai/main.go], [internal/indexer/indexer.go]).

    [main] reads the configuration, starts what [Startup] describes, and then the
    indexer, which is given a point of the chain and hands every event to the handlers
    that the node, the profiles and finally the indexer itself registered. The library
    that follows the chain is outside the model: what it is configured with is data. *)
From S2P Require Import Prelude.
From S2P Require Import Text.
From S2P Require Import Cbor.
From S2P Require Import Ledger.
From S2P Require Import KeyValue.
From S2P Require Import UtxoStore.
From S2P Require Import Lending.
From S2P Require Import TxSubmit.
From S2P Require Import Profiles.
From S2P Require Import Startup.
From S2P Require Parsers Indexer Batcher Watches Process.

(** ** The handlers of events *)
Section Events.
Context {event state error : Type}.

Definition EventFunc : Type := event -> state -> state * option error.

Definition AddEventFunc (eventFunc : EventFunc) (eventFuncs : list EventFunc) : list EventFunc :=
  eventFuncs ++ [eventFunc].

(** What the output of the pipeline calls: the handlers in turn, up to the first that
    fails. *)
Fixpoint callback (eventFuncs : list EventFunc) (evt : event) (s : state) : state * option error :=
  match eventFuncs with
  | [] => (s, None)
  | eventFunc :: eventFuncs' =>
      match eventFunc evt s with
      | (s', Some err) => (s', Some err)
      | (s', None) => callback eventFuncs' evt s'
      end
  end.

(** Events, one after the other; an error comes out of the pipeline, and the process
    ends. *)
Fixpoint follow (eventFuncs : list EventFunc) (evts : list event) (s : state) : state * option error :=
  match evts with
  | [] => (s, None)
  | evt :: evts' =>
      match callback eventFuncs evt s with
      | (s', Some err) => (s', Some err)
      | (s', None) => follow eventFuncs evts' s'
      end
  end.

Lemma callback_app fs1 fs2 evt s :
  callback (fs1 ++ fs2) evt s =
  match callback fs1 evt s with
  | (s', Some err) => (s', Some err)
  | (s', None) => callback fs2 evt s'
  end.
Proof.
  revert s. induction fs1 as [|f fs1 IH]; intros s; [done|]. cbn [app callback].
  destruct (f evt s) as [s' [err|]]; [done|apply IH].
Qed.

(** A handler that was registered later sees no event at which an earlier one fails,
    and none of the events after it. *)
Lemma failure_stops_later_handlers fs1 fs2 evts evt rest s s1 s2 err :
  follow (fs1 ++ fs2) evts s = (s1, None) -> callback fs1 evt s1 = (s2, Some err) ->
  follow (fs1 ++ fs2) (evts ++ evt :: rest) s = (s2, Some err).
Proof.
  intros Hf Hc. revert s Hf. induction evts as [|e evts IH]; intros s.
  - intros [= ->]. cbn [app follow]. by rewrite callback_app, Hc.
  - cbn [app follow]. destruct (callback _ e s) as [s' [?|]]; [done|apply IH].
Qed.

(** A property of the state that every handler keeps is kept. *)
Lemma callback_keeps (P : state -> Prop) fs evt s :
  Forall (fun f : EventFunc => forall s, P s -> P (f evt s).1) fs -> P s -> P (callback fs evt s).1.
Proof.
  intros HF. revert s. induction HF as [|f fs Hf _ IH]; intros s Hs; [done|]. cbn [callback].
  specialize (Hf s Hs). destruct (f evt s) as [s' [err|]]; [done|by apply IH].
Qed.
End Events.
Arguments EventFunc : clear implicits.

(** ** The handlers of a batcher and of the indexer

    They share the database of the indexer; the other handlers have a state of their
    own. *)
Section Composition.
Context `{C : Cbor, N : !CborNumbers C, L : !Batcher.Libraries C} `{K : KV} {other A error : Type}.
Context (env : Batcher.Environment) (b : Batcher.Batcher) (m : Watches.WatchManager A).
Context (panics : error) (failed : Indexer.index_error -> error).

Definition batcher_handler : EventFunc Batcher.batch_tx (other * db) error :=
  fun t s =>
    let '(d, _, alive) := Batcher.handleChainsyncEvent env b (Indexer.ct_hash (Batcher.bx_tx t))
                            (Batcher.bx_outputs t) s.2 in
    ((s.1, d), if alive : bool then None else Some panics).

Definition indexer_handler : EventFunc Batcher.batch_tx (other * db) error :=
  fun t s =>
    let '(_, d, r) := Indexer.handleEvent Batcher.encode_utxo (Batcher.PaymentAddress env) m
                        (Indexer.tx_event (Batcher.bx_tx t)) s.2 in
    ((s.1, d), match r with Ok _ => None | Err e => Some (failed e) end).

(** As long as the process lives, the database is that of the two handlers alone,
    whatever is registered before them. *)
Theorem database_follows_chain others txs o d o' d' :
  Forall (fun f : EventFunc _ _ _ => forall t s, (f t s).1.2 = s.2) others ->
  follow (others ++ [batcher_handler; indexer_handler]) txs (o, d) = ((o', d'), None) ->
  d' = foldl (Batcher.pipeline env b m) d txs.
Proof.
  intros Ho. revert o d. induction txs as [|t txs IH]; intros o d; cbn [follow foldl].
  { intros E. by simplify_eq. }
  rewrite callback_app.
  assert ((callback others t (o, d)).1.2 = d) as Hd.
  { apply (callback_keeps (fun s => s.2 = d)); [|done]. eapply Forall_impl; [exact Ho|].
    cbn. intros f Hf s <-. apply Hf. }
  destruct (callback others t (o, d)) as [[o1 d1] [err|]]; [done|]. cbn in Hd. subst d1.
  cbn [callback]. set (go := follow (others ++ _)) in *.
  unfold batcher_handler, indexer_handler, Batcher.pipeline at 2. cbn [fst snd].
  destruct (Batcher.handleChainsyncEvent _ _ _ _ d) as [[d1 sub] alive].
  destruct alive; [cbn [fst snd]|done].
  destruct (Indexer.handleEvent _ _ _ _ d1) as [[fired d2] [u|e]]; [|discriminate].
  apply IH.
Qed.
End Composition.

(** ** The start of the indexer *)

(** What the input of the pipeline is configured with *)
Record InputOptions := mkInputOptions {
  AutoReconnect : bool;
  NetworkName : string;
  IncludeCbor : bool;
  Address : option string;
  IntersectPoints : list (Z * slice);
}.

Inductive index_failure :=
| NoStartPoint     (** no cursor and no profile, or a hash that does not decode *)
| PipelineFailed.

Definition input_options (c : Config) (point : Z * slice) : InputOptions :=
  mkInputOptions true (cfg_Network c) true
    (if bool_decide ((IndexerAddress c).1 = "") then None else Some (IndexerAddress c).1) [point].

Definition point_of (p : Profile) : Indexer.Profile :=
  Indexer.mkProfile (Name p) (InterceptSlot p) (InterceptHash p).

(** [Start]: the options of the input, and the handlers, to which it adds its own. *)
Definition Start `{KV} {F} (profiles : list Profile) (c : Config) (pipeline_starts : bool)
    (own : F) (eventFuncs : list F) (d : db) : result index_failure (InputOptions * list F) :=
  match Indexer.start_point (GetCursor d) (point_of <$> profiles) with
  | None => Err NoStartPoint
  | Some point =>
      if pipeline_starts then Ok (input_options c point, eventFuncs ++ [own]) else Err PipelineFailed
  end.

(** The chain is followed on from the last status, whatever the profiles are now. *)
Lemma Start_resumes `{KV} {F} profiles c (own : F) fs status i d :
  is_u64 (Indexer.st_SlotNumber status) -> 0 < Indexer.st_SlotNumber status ->
  char_free comma (Indexer.st_BlockHash status) = true ->
  Start profiles c true own fs (Indexer.updateStatus status i d).2 =
  match DecodeString (Indexer.st_BlockHash status) with
  | None => Err NoStartPoint
  | Some hash => Ok (input_options c (Indexer.st_SlotNumber status, hash), fs ++ [own])
  end.
Proof.
  intros Hs Hp Hh. unfold Start, Indexer.updateStatus. cbn [snd].
  rewrite GetCursor_UpdateCursor by done. unfold Indexer.start_point.
  rewrite (proj2 (Z.ltb_lt 0 _)) by done. by destruct (DecodeString _).
Qed.

(** ** The program *)

(** Who has registered a handler *)
Inductive handler :=
| NodeHandler
| SpectrumHandler (profile : string)
| OracleHandler (profile : string)
| LendingHandler (profile : string)
| IndexerHandler.

(** [node.New] registers first, then [spectrum.New], [Oracle.Start] and
    [LendingOracle.Start] of the profiles. *)
Definition profile_handler (p : Profile) : list handler :=
  match Type_ p with
  | ProfileTypeSpectrum => [SpectrumHandler (Name p)]
  | ProfileTypeOracle | ProfileTypeSynthetics => [OracleHandler (Name p)]
  | ProfileTypeLending => [LendingHandler (Name p)]
  | ProfileTypeNone => []
  end.
Definition registered (profiles : list Profile) : list handler :=
  NodeHandler :: (profiles ≫= profile_handler).

Inductive ending :=
| VersionShown (line : string)
| ConfigFailed (e : config_error)
| Exited (e : exit_reason)
| IndexerFailed (e : index_failure).

Record program := mkProgram {
  pg_config : Config;
  pg_debug : option string;  (** where the debug listener is *)
  pg_running : Running;
  pg_api : option (list APIHandler);
  pg_peers : list string;
  pg_input : InputOptions;
  pg_handlers : list handler;
}.

Definition debugListener (c : Config) : option string :=
  if 0 <? DebugListenPort c
  then Some (DebugListenAddress c +:+ ":" +:+ FormatUint (DebugListenPort c)) else None.

Section Program.
Context `{C : Cbor, L : Ledger, R : !CborRange C, RI : !CborIntRange C, K : KV}.
(** The order in which profiles are visited is chosen anew by each loop over them. *)
Context (O_load O_start O_index : RangeOrder).
Context (table : gmap string (gmap string Profile)) (ReadFile : string -> option string)
        (yaml_Unmarshal : string -> Config -> option Config) (envconfig_Process : Config -> option Config)
        (NewTopologyConfigFromFile : string -> option Topology) (NetworkByName : string -> option Z)
        (bootstrap : string -> option (list TopologyHost)).
Context (Open : gset string -> string -> bool) (loads : string -> bool) (oracleDir lendingDir : string)
        {wallet : Type} (setup : Config -> result Process.Wallet.panic wallet)
        (node_starts pipeline_starts : bool).

(** [main]: from the flags to the point at which it waits forever. *)
Definition Main (version : bool) (configFile Version CommitHash : string) (d : db) : result ending program :=
  if version then Err (VersionShown ("shai " +:+ Process.GetVersionString Version CommitHash))
  else
    c ← map_err ConfigFailed (Load (H := O_load) table ReadFile yaml_Unmarshal envconfig_Process
          NewTopologyConfigFromFile NetworkByName configFile globalConfig);
    let profiles := GetProfiles (H := O_start) table c in
    '(s, api, (peers, _, _)) ← map_err Exited (main (C := C) (L := L) (RI := RI) Open loads (StorageDirectory c)
          oracleDir lendingDir profiles c (setup c) node_starts (bootstrap (cfg_Network c)));
    '(input, handlers) ← map_err IndexerFailed
          (Start (GetProfiles (H := O_index) table c) c pipeline_starts IndexerHandler (registered profiles) d);
    Ok (mkProgram c (debugListener c) s api peers input handlers).

(** A profile that starts has registered its handler, and is listed as running. *)
Lemma startProfile_registers s p s' :
  startProfile (C := C) (L := L) (RI := RI) Open loads oracleDir lendingDir s p = Ok s' ->
  exists h, profile_handler p = [h].
Proof. unfold startProfile, profile_handler. by destruct (Type_ p); eauto. Qed.

Lemma startProfiles_register ps s s' :
  startProfiles (C := C) (L := L) (RI := RI) Open loads oracleDir lendingDir ps s = Ok s' ->
  forall p, p ∈ ps -> exists h, profile_handler p = [h] /\ h ∈ registered ps.
Proof.
  revert s. induction ps as [|q ps IH]; intros s E p Hp; [set_solver|]. cbn [startProfiles] in E.
  destruct (startProfile _ _ _ _ s q) as [s1|] eqn:E1; [|done]. cbn in E.
  unfold registered in *. cbn [mbind list_bind].
  apply elem_of_cons in Hp as [->|Hp].
  - destruct (startProfile_registers _ _ _ E1) as [h Hh]. exists h. rewrite Hh. set_solver.
  - destruct (IH s1 E p Hp) as (h & Hh & Hin). exists h. set_solver.
Qed.

(** C30: a program that comes up follows the chain for every profile it was told to: each
    name in its configuration is a profile of its network whose handler is registered;
    the indexer's handler is the last, so that it sees an event only when the others
    have handled it; and the one point that the input is given is the stored cursor,
    or, without one, a point no later than that of any configured profile. *)
Theorem program_follows_chain version configFile Version CommitHash d g :
  (forall n m k p, table !! n = Some m -> m !! k = Some p -> 0 < InterceptSlot p) ->
  Main version configFile Version CommitHash d = Ok g ->
  let c := pg_config g in
  (forall name, name ∈ cfg_Profiles c -> exists m p h,
     table !! cfg_Network c = Some m /\ m !! name = Some p /\ profile_handler p = [h] /\ h ∈ pg_handlers g) /\
  last (pg_handlers g) = Some IndexerHandler /\
  NetworkName (pg_input g) = cfg_Network c /\
  exists slot hash cursor cursorHash, IntersectPoints (pg_input g) = [(slot, hash)] /\
    GetCursor d = Ok (cursor, cursorHash) /\
    (0 < cursor -> slot = cursor /\ DecodeString cursorHash = Some hash) /\
    (cursor <= 0 -> forall m name p, table !! cfg_Network c = Some m -> m !! name = Some p ->
       name ∈ cfg_Profiles c -> slot <= InterceptSlot p).
Proof.
  intros Hpos. unfold Main. destruct version; [done|].
  destruct (Load _ _ _ _ _ _ _ _) as [c|] eqn:El; [|done]. cbn [map_err mbind result_bind].
  unfold main. destruct (negb (Open ∅ _)); [done|]. destruct (setup c); [|done].
  cbn [map_err mbind result_bind].
  destruct (startProfiles _ _ _ _ _ _) as [s|] eqn:Es; [|done]. cbn [map_err mbind result_bind].
  destruct node_starts; [cbn [negb]|done].
  destruct (start_program _ _) as [[[peers sc] t]|]; [|done]. cbn [map_err mbind result_bind].
  unfold Start. destruct (Indexer.start_point _ _) as [[slot hash]|] eqn:Ep; [|done].
  destruct pipeline_starts; [|done]. cbn [map_err mbind result_bind].
  intros [= <-]. cbn [pg_config pg_handlers pg_input input_options NetworkName IntersectPoints].
  pose proof (fun p => elem_of_GetProfiles (H := O_index) table c p) as Hin.
  split_and!; [| by rewrite app_comm_cons, last_snoc | done |].
  - intros name Hn. apply Load_selects in El as [_ Hl].
    destruct (Hl name Hn) as (m & p & Hm & Hp & _).
    destruct (startProfiles_register _ _ _ Es p) as (h & Hh & Hr).
    { apply elem_of_GetProfiles. by exists m, name. }
    exists m, p, h. set_solver.
  - destruct (GetCursor d) as [[cursor cursorHash]|] eqn:Ec; [|done].
    exists slot, hash, cursor, cursorHash. split; [done|]. split; [done|]. split.
    + intros Hc. unfold Indexer.start_point in Ep. rewrite (proj2 (Z.ltb_lt 0 cursor)) in Ep by done.
      destruct (DecodeString cursorHash); [|done]. by injection Ep as -> ->.
    + intros Hc m name p Hm Hp Hn.
      apply Indexer.start_point_first in Ep as [_ Hall]; [|by apply Forall_fmap, Forall_forall; intros q (? & ? & ? & ? & _)%Hin; eapply Hpos|done].
      rewrite Forall_fmap, Forall_forall in Hall. apply (Hall p), Hin. by exists m, name.
Qed.
End Program.

(** ** A concrete start *)

#[local] Existing Instance in_key_order.

Lemma table_slots_positive a b n m k p :
  table_of (profile_table a b) !! n = Some m -> m !! k = Some p -> 0 < InterceptSlot p.
Proof.
  unfold table_of. intros Hm Hk.
  apply elem_of_list_to_map_2, list_elem_of_fmap in Hm as ([network l] & E & Hl). injection E as E ->.
  apply elem_of_list_to_map_2 in Hk.
  apply (ps_point _ _ (known_profile_sound (C := PlutusData) (L := Ledger.sample_ledger) a b _ l k p Hl Hk)).
Qed.

(** The default configuration on an empty database, with a wallet and a bootstrap peer *)
Definition sample_main : result ending program :=
  Main (C := PlutusData) (L := Ledger.sample_ledger) (K := gmap_KV) in_key_order in_key_order in_key_order
    (table_of (profile_table "a" "b")) (fun _ => None) (fun _ _ => None) Some (fun _ => None)
    (fun _ => Some 764824073) (fun _ => Some [mkHost "backbone" 3001])
    sample_open (fun _ => true) "./.shai/oracle" "./.shai/lending" (fun _ => Ok tt) true true
    false "" "" "c0ffee" empty_db.

Lemma program_follows_chain_witness :
  exists g, sample_main = Ok g /\ SpectrumHandler "teddyswap" ∈ pg_handlers g /\
    last (pg_handlers g) = Some IndexerHandler.
Proof.
  assert (match sample_main with
          | Ok g => cfg_Network (pg_config g) = "mainnet" /\ cfg_Profiles (pg_config g) = ["spectrum"; "teddyswap"]
          | Err _ => False end) as Hs by (vm_compute; split; reflexivity).
  destruct sample_main as [g|] eqn:E; [|exact (False_ind _ Hs)]. destruct Hs as [E1 E2].
  exists g. split; [exact eq_refl|]. unfold sample_main in E.
  apply program_follows_chain in E as (Hn & Hl & _); [|exact (table_slots_positive "a" "b")].
  split; [|exact Hl].
  destruct (Hn "teddyswap") as (m & p & h & Hm & Hp & Hh & Hin); [rewrite E2; set_solver|].
  assert ((table_of (profile_table "a" "b") !! "mainnet" ≫= fun m => m !! "teddyswap") =
    Some mainnet_teddyswap) as Hp' by (vm_compute; reflexivity).
  rewrite E1 in Hm. rewrite Hm in Hp'. cbn [mbind option_bind] in Hp'.
  rewrite Hp' in Hp. apply Some_inj in Hp. subst p. apply (f_equal head) in Hh. apply Some_inj in Hh.
  change (SpectrumHandler "teddyswap" = h) in Hh. subst h. exact Hin.
Defined.
