(* ===== verification/Strike.v ===== *)
(** * Strike: the targets and the client of the Strike service
    ([dex/strike], [batch/strike]).

    The targets say what of the protocol on the chain is verified; until all of it is,
    nothing of it may run. The client talks to the service over HTTP: it is off by
    default, signs the requests that need it and keeps to the configured hosts. A call
    returns the requests that it sends and the text that is decoded into its result, of
    which a member of an envelope is in compact form. The network, the texts of URLs,
    SHA-256 and Ed25519 are parameters. *)
From S2P Require Import Prelude.
From S2P Require Import Text.
From S2P Require Import JsonString.
From S2P Require Import Json.
From S2P Require Import JsonRecord.
From S2P Require Import Endpoint.

Definition ProtocolName : string := "strike-finance".
Definition ProductName : string := "perpetuals".
Definition IntegrationName : string := ProtocolName +:+ "-" +:+ ProductName.
Definition MainnetNetwork : string := "mainnet".
Definition TestnetNetwork : string := "testnet".
Definition DefaultExternalAPIEnabled : bool := false.
Definition MainnetAPIBaseURL : string := "https://api.strikefinance.org".
Definition MainnetPriceAPIBaseURL : string := MainnetAPIBaseURL +:+ "/price".
Definition TestnetAPIBaseURL : string := "https://api-v2-testnet.strikefinance.org".
Definition TestnetPriceAPIBaseURL : string := TestnetAPIBaseURL +:+ "/price".

(** The parts of a message that wraps [ErrInvalidExternalAPIConfig] *)
Inductive config_fault :=
| HTTPClientIsNil | ClockIsNil | NonceGeneratorIsNil | BaseURLRequired | InvalidBaseURL | BaseURLNotHTTPS
| InvalidPriceBaseURL | PriceBaseURLNotHTTPS | SymbolRequired | BaseURLIsNil
| PublicKeySize | PrivateKeySize | KeysDoNotMatch.

Inductive strike_error :=
| ErrUnsupported (subject : string)
| ErrVerificationRequired (missing : list string)
| ErrExternalAPIDisabled
| ErrInvalidExternalAPIConfig (fault : config_fault)
| ErrMissingSigner
| APIError (StatusCode : Z) (Body : string)
| MarshalRequestBody
| InvalidRequest
| NonceFailed
| RequestFailed
| ReadFailed
| ResponseTooLarge
| DecodeFailed
| NilClientPanic.

(** ** Targets ([dex/strike/models.go]) *)

Record ExternalAPIConfig := mkAPIConfig {
  Enabled : bool;
  BaseURL : string;
  PriceBaseURL : string;
}.

Record VerificationStatus := mkVerification {
  ScriptAddresses : bool;
  InterceptPoint : bool;
  DatumSchema : bool;
  RedeemerSchema : bool;
  StateTransitions : bool;
}.

Definition Complete (s : VerificationStatus) : bool :=
  ScriptAddresses s && InterceptPoint s && DatumSchema s && RedeemerSchema s && StateTransitions s.

Record OnChainTargets := mkTargets {
  Network : string;
  MarketStateScriptAddress : string;
  OrderScriptAddress : string;
  PositionScriptAddress : string;
  InterceptSlot : Z;
  InterceptHash : string;
  Verification : VerificationStatus;
  ExternalAPI : ExternalAPIConfig;
}.

Definition unverified : VerificationStatus := mkVerification false false false false false.
Definition MainnetTargets : OnChainTargets :=
  mkTargets MainnetNetwork "" "" "" 0 "" unverified
    (mkAPIConfig DefaultExternalAPIEnabled MainnetAPIBaseURL MainnetPriceAPIBaseURL).
Definition TestnetTargets : OnChainTargets :=
  mkTargets TestnetNetwork "" "" "" 0 "" unverified
    (mkAPIConfig DefaultExternalAPIEnabled TestnetAPIBaseURL TestnetPriceAPIBaseURL).
Definition KnownTargets : list OnChainTargets := [MainnetTargets; TestnetTargets].

(** The loop of [TargetsForNetwork] *)
Fixpoint find_targets (network : string) (l : list OnChainTargets) : option OnChainTargets :=
  match l with
  | [] => None
  | targets :: l' =>
      if bool_decide (Network targets = network) then Some targets else find_targets network l'
  end.
Definition TargetsForNetwork (network : string) : option OnChainTargets := find_targets network KnownTargets.

Definition missing_if (b : bool) (what : string) : list string := if b then [what] else [].

Definition MissingVerification (t : OnChainTargets) : list string :=
  missing_if (bool_decide (Network t = "")) "network" ++
  missing_if (bool_decide (MarketStateScriptAddress t = "") || bool_decide (OrderScriptAddress t = "")
              || bool_decide (PositionScriptAddress t = "") || negb (ScriptAddresses (Verification t)))
    "verified script addresses" ++
  missing_if ((InterceptSlot t =? 0) || bool_decide (InterceptHash t = "")
              || negb (InterceptPoint (Verification t)))
    "verified intercept slot" ++
  missing_if (negb (DatumSchema (Verification t))) "verified datum schema" ++
  missing_if (negb (RedeemerSchema (Verification t))) "verified redeemer schema" ++
  missing_if (negb (StateTransitions (Verification t))) "verified state transitions".

Definition RuntimeReady (t : OnChainTargets) : bool :=
  match MissingVerification t with [] => true | _ => false end.

Definition ValidateRuntimeEnablement (t : OnChainTargets) : result strike_error unit :=
  if RuntimeReady t then Ok tt else Err (ErrVerificationRequired (MissingVerification t)).

Lemma missing_if_nil b what : missing_if b what = [] <-> b = false.
Proof. by destruct b. Qed.

(** Targets are ready exactly when everything about them is given and verified. *)
Lemma RuntimeReady_iff t :
  RuntimeReady t = true <->
  Network t <> "" /\ MarketStateScriptAddress t <> "" /\ OrderScriptAddress t <> "" /\
  PositionScriptAddress t <> "" /\ InterceptSlot t <> 0 /\ InterceptHash t <> "" /\
  Complete (Verification t) = true.
Proof.
  unfold RuntimeReady. assert (forall l : list string, match l with [] => true | _ => false end = true <-> l = [])
    as -> by (by intros []).
  unfold MissingVerification, Complete. rewrite !app_nil, !missing_if_nil, !orb_false_iff, !andb_true_iff,
    !negb_false_iff, !bool_decide_eq_false, Z.eqb_neq. tauto.
Qed.

(** None of the targets that the program knows is ready. *)
Lemma known_targets_not_ready : Forall (fun t => RuntimeReady t = false) KnownTargets.
Proof. by repeat constructor. Qed.

(** *** The parser ([parser.go]) refuses everything. *)

Definition unverifiedSchemaError (subject : string) : strike_error := ErrUnsupported subject.
Definition ParseMarketDatum {A} (datum : list byte) : result strike_error A :=
  Err (unverifiedSchemaError "market datum").
Definition ParsePositionDatum {A} (datum : list byte) : result strike_error A :=
  Err (unverifiedSchemaError "position datum").
Definition ParseRedeemer {A} (redeemer : list byte) : result strike_error A :=
  Err (unverifiedSchemaError "redeemer").

(** ** Configuration of the client *)

Section Config.
Context (url_Parse : string -> option URL).

Definition ParseBaseURL (rawURL : string) : option URL :=
  match url_Parse rawURL with
  | None => None
  | Some parsed =>
      if negb (bool_decide (u_Scheme parsed = "http")) && negb (bool_decide (u_Scheme parsed = "https")) then None
      else if bool_decide (u_Host parsed = "") then None
      else if u_User parsed then None
      else if negb (bool_decide (u_RawQuery parsed = "")) then None
      else if negb (bool_decide (u_Fragment parsed = "")) then None
      else Some parsed
  end.

Definition Validate (c : ExternalAPIConfig) : result strike_error unit :=
  if negb (Enabled c) then Ok tt
  else if bool_decide (BaseURL c = "") then Err (ErrInvalidExternalAPIConfig BaseURLRequired)
  else
    match ParseBaseURL (BaseURL c) with
    | None => Err (ErrInvalidExternalAPIConfig InvalidBaseURL)
    | Some _ =>
        if negb (bool_decide (PriceBaseURL c = "")) && negb (bool_decide (is_Some (ParseBaseURL (PriceBaseURL c))))
        then Err (ErrInvalidExternalAPIConfig InvalidPriceBaseURL)
        else Ok tt
    end.
End Config.

(** ** Signatures ([batch/strike/signer.go]) *)

Record Ed25519Signer := mkSigner {
  publicKey : list byte;
  privateKey : list byte;
}.

Definition PublicKeySize_ : nat := 32.
Definition SeedSize : nat := 32.
Definition PrivateKeySize_ : nat := 64.

(** A request as it is sent *)
Record Request := mkRequest {
  rq_Method : string;
  rq_URL : URL;
  rq_Body : option (list byte);
  rq_Headers : gmap string string;
}.

Definition HeaderWalletPublicKey : string := "X-API-Wallet-Public-Key".
Definition HeaderWalletSignature : string := "X-API-Wallet-Signature".
Definition HeaderWalletTimestamp : string := "X-API-Wallet-Timestamp".
Definition HeaderWalletNonce : string := "X-API-Wallet-Nonce".

Definition set_header (k v : string) (r : Request) : Request :=
  mkRequest (rq_Method r) (rq_URL r) (rq_Body r) (<[k := v]> (rq_Headers r)).

Section Signer.
Context (NewKeyFromSeed : list byte -> list byte) (Sign : list byte -> string -> list byte)
        (Sum256 : list byte -> list byte) (EscapedPath : URL -> string).

(** [PrivateKey.Public]: the last 32 bytes of a private key are its public key. *)
Definition Public (key : list byte) : list byte := drop 32 key.

Definition NewEd25519Signer (publicKey privateKey : list byte) : result strike_error Ed25519Signer :=
  if negb (length publicKey =? PublicKeySize_)%nat then Err (ErrInvalidExternalAPIConfig PublicKeySize)
  else
    signingKey ← (if (length privateKey =? SeedSize)%nat then Ok (NewKeyFromSeed privateKey)
                  else if (length privateKey =? PrivateKeySize_)%nat then Ok privateKey
                  else Err (ErrInvalidExternalAPIConfig PrivateKeySize));
    if negb (bool_decide (Public signingKey = publicKey)) then Err (ErrInvalidExternalAPIConfig KeysDoNotMatch)
    else Ok (mkSigner publicKey signingKey).

Definition PublicKeyHex (s : Ed25519Signer) : string := hex_encode (publicKey s).
Definition SignPayload (payload : string) (s : Ed25519Signer) : string :=
  hex_encode (Sign (privateKey s) payload).

Definition SignaturePayload (method path timestamp nonce bodyHash : string) : string :=
  ToUpper method +:+ ":" +:+ path +:+ ":" +:+ timestamp +:+ ":" +:+ nonce +:+ ":" +:+ bodyHash.

Definition BodyHash (body : list byte) : string := hex_encode (Sum256 body).

Definition CanonicalRequestPath (reqURL : URL) : string :=
  let path := if bool_decide (EscapedPath reqURL = "") then "/" else EscapedPath reqURL in
  if negb (bool_decide (u_RawQuery reqURL = "")) then path +:+ "?" +:+ u_RawQuery reqURL else path.

(** [SignRequest]; the body is the one that is sent. *)
Definition SignRequest (req : Request) (body : list byte) (timestamp nonce : string)
    (s : option Ed25519Signer) : result strike_error Request :=
  match s with
  | None => Err ErrMissingSigner
  | Some s =>
      let payload := SignaturePayload (rq_Method req) (CanonicalRequestPath (rq_URL req)) timestamp nonce
                       (BodyHash body) in
      Ok (set_header HeaderWalletNonce nonce
           (set_header HeaderWalletTimestamp timestamp
             (set_header HeaderWalletSignature (SignPayload payload s)
               (set_header HeaderWalletPublicKey (PublicKeyHex s) req))))
  end.
End Signer.

(** [randomNonce], from the 16 bytes read: a UUID of version 4 *)
Definition mask (i : nat) (b : byte) : byte :=
  let z := Z.of_N (Byte.to_N b) in
  let z := if (i =? 6)%nat then Z.lor (Z.land z 15) 64
           else if (i =? 8)%nat then Z.lor (Z.land z 63) 128 else z in
  default x00 (Byte.of_N (Z.to_N z)).
Definition randomNonce (nonce : list byte) : string :=
  let encoded := hex_encode (imap mask nonce) in
  String.substring 0 8 encoded +:+ "-" +:+ String.substring 8 4 encoded +:+ "-" +:+ String.substring 12 4 encoded +:+ "-" +:+
  String.substring 16 4 encoded +:+ "-" +:+ String.substring 20 12 encoded.

(** ** The client ([batch/strike/client.go]) *)

(** An HTTP client, by whether it follows redirects *)
Record HTTPClient := mkHTTPClient {
  hc_id : Z;
  hc_redirects : bool;
}.

Record Response := mkResponse {
  StatusCode_ : Z;
  rs_Body : option string;   (** nothing when it cannot be read *)
}.

(** The clock and the nonce generator are functions of the number of the call. *)
Record Client := mkClient {
  enabled : bool;
  baseURL : option URL;
  priceBaseURL : option URL;
  httpClient : HTTPClient;
  signer : option Ed25519Signer;
  now : unit -> Z;
  nonce : unit -> option string;
}.

Record clientOptions := mkOptions {
  op_httpClient : option HTTPClient;
  op_signer : option Ed25519Signer;
  op_now : option (unit -> Z);
  op_nonce : option (unit -> option string);
  op_allowInsecureHTTPForTests : bool;
}.

Inductive ClientOption :=
| WithHTTPClient (c : option HTTPClient)
| WithSigner (s : option Ed25519Signer)
| WithClock (f : option (unit -> Z))
| WithNonce (f : option (unit -> option string))
| WithInsecureHTTPForTests.

Definition apply_option (o : clientOptions) (opt : ClientOption) : clientOptions :=
  match opt with
  | WithHTTPClient c => mkOptions c (op_signer o) (op_now o) (op_nonce o) (op_allowInsecureHTTPForTests o)
  | WithSigner s => mkOptions (op_httpClient o) s (op_now o) (op_nonce o) (op_allowInsecureHTTPForTests o)
  | WithClock f => mkOptions (op_httpClient o) (op_signer o) f (op_nonce o) (op_allowInsecureHTTPForTests o)
  | WithNonce f => mkOptions (op_httpClient o) (op_signer o) (op_now o) f (op_allowInsecureHTTPForTests o)
  | WithInsecureHTTPForTests => mkOptions (op_httpClient o) (op_signer o) (op_now o) (op_nonce o) true
  end.

(** The clock as text ([strconv.FormatInt] of the seconds) *)
Definition timestamp_of (c : Client) : string := IntString (now c tt).

Definition maxResponseBodySize : nat := Z.to_nat 1048576.

Definition set_redirects (b : bool) (c : HTTPClient) : HTTPClient := mkHTTPClient (hc_id c) b.

Section Client.
Context (url_Parse : string -> option URL) (url_String : URL -> string) (is_loopback_ip : string -> bool)
        (EscapedPath : URL -> string) (values_Encode : list (string * string) -> string)
        (valid_method : string -> bool)
        (request_url : URL -> option URL)
        (Sign : list byte -> string -> list byte) (Sum256 : list byte -> list byte)
        (Do : HTTPClient -> Request -> option Response)
        (default_client : HTTPClient) (default_now : unit -> Z) (default_nonce : unit -> option string).

Definition default_options : clientOptions :=
  mkOptions (Some default_client) None (Some default_now) (Some default_nonce) false.

(** The endpoint of a text, if it is one that is allowed *)
Definition parse_endpoint (rawURL : string) (allow : bool) (invalid notHTTPS : config_fault)
  : result strike_error URL :=
  match ParseBaseURL url_Parse rawURL with
  | None => Err (ErrInvalidExternalAPIConfig invalid)
  | Some u =>
      if isAllowedEndpoint is_loopback_ip u allow then Ok u else Err (ErrInvalidExternalAPIConfig notHTTPS)
  end.

Definition NewClient (config : ExternalAPIConfig) (opts : list ClientOption) : result strike_error Client :=
  let options := foldl apply_option default_options opts in
  match op_httpClient options, op_now options, op_nonce options with
  | None, _, _ => Err (ErrInvalidExternalAPIConfig HTTPClientIsNil)
  | _, None, _ => Err (ErrInvalidExternalAPIConfig ClockIsNil)
  | _, _, None => Err (ErrInvalidExternalAPIConfig NonceGeneratorIsNil)
  | Some hc, Some clock, Some gen =>
      if negb (Enabled config) then Ok (mkClient false None None hc (op_signer options) clock gen)
      else
        _ ← Validate url_Parse config;
        let allow := op_allowInsecureHTTPForTests options in
        baseURL ← parse_endpoint (BaseURL config) allow InvalidBaseURL BaseURLNotHTTPS;
        let priceURL :=
          if bool_decide (PriceBaseURL config = "") then url_String (joinURLPath baseURL "/price")
          else PriceBaseURL config in
        priceBaseURL ← parse_endpoint priceURL allow InvalidPriceBaseURL PriceBaseURLNotHTTPS;
        Ok (mkClient true (Some baseURL) (Some priceBaseURL) hc (op_signer options) clock gen)
  end.

(** The two members of an envelope, as text *)
Definition envelope_fields : fields _ := FCons "data" false raw_kind (FCons "result" false raw_kind FNil).
Definition filled (raw : option string) : bool :=
  match raw with
  | None => false
  | Some text => negb (bool_decide (TrimSpace text = "")) && negb (bool_decide (TrimSpace text = "null"))
  end.

(** [decodeJSONEnvelope]: the text that is decoded into the result *)
Definition decodeJSONEnvelope (body : string) : result strike_error string :=
  match j ← parse body; read_struct envelope_fields id id j (zero_fields envelope_fields) with
  | None => Err DecodeFailed
  | Some (data, (result, _)) =>
      if filled data then Ok (default "" data)
      else if filled result then Ok (default "" result)
      else Ok body
  end.

Example envelopes :
  let member name value := quoted name +:+ ":" +:+ value in
  map decodeJSONEnvelope
    ["{" +:+ member "result" "1" +:+ "," +:+ member "Data" " [2, 3]" +:+ "}";
     "{" +:+ member "data" "null" +:+ "," +:+ member "result" "1" +:+ "}";
     "{" +:+ member "price" "1" +:+ "}"; "null"; "[1]"; "{"] =
  [Ok "[2,3]"; Ok "1"; Ok ("{" +:+ member "price" "1" +:+ "}"); Ok "null"; Err DecodeFailed; Err DecodeFailed].
Proof. vm_compute. reflexivity. Qed.

(** What [doJSON] makes of a response; nothing when there is no value to decode. *)
Definition read_response (wanted : bool) (resp : Response) : result strike_error (option string) :=
  match rs_Body resp with
  | None => Err ReadFailed
  | Some respBody =>
      if (maxResponseBodySize <? String.length respBody)%nat then Err ResponseTooLarge
      else if (StatusCode_ resp <? 200) || (300 <=? StatusCode_ resp)
      then Err (APIError (StatusCode_ resp) (TrimSpace respBody))
      else if negb wanted || bool_decide (TrimSpace respBody = "") then Ok None
      else
        Some <$> decodeJSONEnvelope respBody
  end.

(** The body of a call: none, or one that is encoded, which may fail *)
Definition body_bytes (body : option (option (list byte))) : result strike_error (option (list byte)) :=
  match body with
  | None => Ok None
  | Some None => Err MarshalRequestBody
  | Some (Some b) => Ok (Some b)
  end.

(** [http.NewRequestWithContext], which reads the URL again from its text: [request_url]
    is what it makes of a URL. *)
Definition newRequest (method : string) (u : URL) (body : option (list byte)) : result strike_error Request :=
  match (if valid_method method then request_url u else None) with
  | None => Err InvalidRequest
  | Some reqURL =>
      let headers : gmap string string := {[ "Accept" := "application/json" ]} in
      Ok (mkRequest method reqURL body
            (match body with Some _ => <["Content-Type" := "application/json"]> headers | None => headers end))
  end.

(** [doJSON] up to the sending of the request *)
Definition build_request (c : Client) (base : option URL) (method path : string)
    (query : list (string * string)) (body : option (option (list byte))) (authenticated : bool)
  : result strike_error (HTTPClient * Request) :=
  if negb (enabled c) then Err ErrExternalAPIDisabled
  else
    match base with
    | None => Err (ErrInvalidExternalAPIConfig BaseURLIsNil)
    | Some base =>
        bodyBytes ← body_bytes body;
        req ← newRequest method (set_query (values_Encode query) (joinURLPath base path)) bodyBytes;
        if authenticated then
          match nonce c tt with
          | None => Err NonceFailed
          | Some n =>
              req ← SignRequest Sign Sum256 EscapedPath req (default [] bodyBytes) (timestamp_of c) n (signer c);
              Ok (set_redirects false (httpClient c), req)
          end
        else Ok (httpClient c, req)
    end.

(** The requests that are sent, and the result *)
Definition doJSON (c : Client) (base : option URL) (method path : string)
    (query : list (string * string)) (body : option (option (list byte))) (wanted authenticated : bool)
  : list (HTTPClient * Request) * result strike_error (option string) :=
  match build_request c base method path query body authenticated with
  | Err e => ([], Err e)
  | Ok (hc, req) =>
      ([(hc, req)],
       match Do hc req with
       | None => Err RequestFailed
       | Some resp => read_response wanted resp
       end)
  end.

(** The calls. A call on a nil client panics: its base URL is read first. *)
Definition Ping (c : option Client) : list (HTTPClient * Request) * result strike_error (option string) :=
  match c with
  | None => ([], Err NilClientPanic)
  | Some c => doJSON c (baseURL c) "GET" "/v2/ping" [] None false false
  end.
Definition ServerTime (c : option Client) : list (HTTPClient * Request) * result strike_error (option string) :=
  match c with
  | None => ([], Err NilClientPanic)
  | Some c => doJSON c (baseURL c) "GET" "/v2/time" [] None true false
  end.
Definition MarkPrice (symbol : string) (c : option Client)
  : list (HTTPClient * Request) * result strike_error (option string) :=
  let symbol := ToUpper (TrimSpace symbol) in
  if bool_decide (symbol = "") then ([], Err (ErrInvalidExternalAPIConfig SymbolRequired))
  else
    match c with
    | None => ([], Err NilClientPanic)
    | Some c => doJSON c (priceBaseURL c) "GET" "/v2/markPrice" [("symbol", symbol)] None true false
    end.
Definition DoAuthenticated (method path : string) (query : list (string * string))
    (body : option (option (list byte))) (wanted : bool) (c : option Client)
  : list (HTTPClient * Request) * result strike_error (option string) :=
  match c with
  | None => ([], Err NilClientPanic)
  | Some c => doJSON c (baseURL c) method path query body wanted true
  end.

(** A call of the interface *)
Inductive call :=
| CallPing
| CallServerTime
| CallMarkPrice (symbol : string)
| CallAuthenticated (method path : string) (query : list (string * string))
    (body : option (option (list byte))) (wanted : bool).
Definition run_call (k : call) (c : option Client)
  : list (HTTPClient * Request) * result strike_error (option string) :=
  match k with
  | CallPing => Ping c
  | CallServerTime => ServerTime c
  | CallMarkPrice symbol => MarkPrice symbol c
  | CallAuthenticated method path query body wanted => DoAuthenticated method path query body wanted c
  end.

(** [Client.Enabled], which a nil client answers *)
Definition ClientEnabled (c : option Client) : bool :=
  match c with Some c => enabled c | None => false end.
(** ** Where requests go *)

Section Sent.
Context (request_url_keeps : forall u u', request_url u = Some u' ->
  u_Scheme u' = u_Scheme u /\ Hostname u' = Hostname u).

Definition opts_insecure (opts : list ClientOption) : bool :=
  op_allowInsecureHTTPForTests (foldl apply_option default_options opts).

Lemma insecure_only_by_option opts :
  WithInsecureHTTPForTests ∉ opts -> opts_insecure opts = false.
Proof.
  unfold opts_insecure. generalize (eq_refl : op_allowInsecureHTTPForTests default_options = false).
  generalize default_options. induction opts as [|opt opts IH]; intros o Ho Hni; [done|].
  rewrite not_elem_of_cons in Hni. destruct Hni as [Hne Hni]. cbn. apply IH; [|done]. by destruct opt.
Qed.

Record built (config : ExternalAPIConfig) (c : Client) : Prop := {
  bu_enabled : enabled c = Enabled config;
  bu_base : forall base, baseURL c = Some base ->
    ParseBaseURL url_Parse (BaseURL config) = Some base /\ u_Scheme base = "https";
  bu_price : forall base, priceBaseURL c = Some base -> u_Scheme base = "https";
}.

Lemma parse_endpoint_ok rawURL invalid notHTTPS u :
  parse_endpoint rawURL false invalid notHTTPS = Ok u ->
  ParseBaseURL url_Parse rawURL = Some u /\ u_Scheme u = "https".
Proof.
  unfold parse_endpoint. destruct (ParseBaseURL url_Parse rawURL) as [v|]; [|done].
  destruct (isAllowedEndpoint is_loopback_ip v false) eqn:E; [|done]. intros [= <-].
  split; [done|]. by apply isAllowedEndpoint_https in E.
Qed.

Lemma NewClient_built config opts c :
  NewClient config opts = Ok c -> WithInsecureHTTPForTests ∉ opts -> built config c.
Proof.
  intros E Hopts%insecure_only_by_option. unfold NewClient in E. unfold opts_insecure in Hopts.
  set (o := foldl apply_option default_options opts) in *.
  destruct (op_httpClient o) as [hc|]; [|done]. destruct (op_now o) as [clock|]; [|done].
  destruct (op_nonce o) as [gen|]; [|done].
  destruct (Enabled config) eqn:He; cbn [negb] in E; [|injection E as <-; by split].
  destruct (Validate url_Parse config) as [[]|]; [|done]. cbn [mbind result_bind] in E. rewrite Hopts in E.
  destruct (parse_endpoint (BaseURL config) _ _ _) as [base|] eqn:Hb; [|done]. cbn in E.
  destruct (parse_endpoint _ false InvalidPriceBaseURL _) as [price|] eqn:Hp; [|done]. injection E as <-.
  apply parse_endpoint_ok in Hb. apply parse_endpoint_ok in Hp.
  split; cbn; [done | by intros ? [= <-] | intros ? [= <-]; apply Hp].
Qed.

Lemma joinURLPath_host base path :
  u_Scheme (joinURLPath base path) = u_Scheme base /\ Hostname (joinURLPath base path) = Hostname base.
Proof. done. Qed.

Lemma newRequest_ok method u body req :
  newRequest method u body = Ok req ->
  rq_Method req = method /\ rq_Body req = body /\
  u_Scheme (rq_URL req) = u_Scheme u /\ Hostname (rq_URL req) = Hostname u.
Proof.
  unfold newRequest. destruct (valid_method method); [|done].
  destruct (request_url u) as [u'|] eqn:Hu; [|done]. intros [= <-]. cbn.
  by destruct (request_url_keeps u u' Hu).
Qed.

(** The signature that a signer puts on a request *)
Definition signature_of (s : Ed25519Signer) (req : Request) (timestamp nonce : string) : string :=
  SignPayload Sign
    (SignaturePayload (rq_Method req) (CanonicalRequestPath EscapedPath (rq_URL req)) timestamp nonce
       (BodyHash Sum256 (default [] (rq_Body req)))) s.

(** Sent with a signature of the client, which no redirection repeats *)
Definition signed (c : Client) (hr : HTTPClient * Request) : Prop :=
  hc_redirects hr.1 = false /\
  exists s n, signer c = Some s /\ nonce c tt = Some n /\
    rq_Headers hr.2 !! HeaderWalletPublicKey = Some (PublicKeyHex s) /\
    rq_Headers hr.2 !! HeaderWalletTimestamp = Some (timestamp_of c) /\
    rq_Headers hr.2 !! HeaderWalletNonce = Some n /\
    rq_Headers hr.2 !! HeaderWalletSignature = Some (signature_of s hr.2 (timestamp_of c) n).

Lemma build_request_sent c base method path query body authenticated hc req :
  build_request c base method path query body authenticated = Ok (hc, req) ->
  enabled c = true /\
  (exists b, base = Some b /\ u_Scheme (rq_URL req) = u_Scheme b /\ Hostname (rq_URL req) = Hostname b) /\
  (authenticated = true -> signed c (hc, req)).
Proof.
  unfold build_request. destruct (enabled c) eqn:He; cbn [negb]; [|done].
  destruct base as [b|]; [|done]. destruct (body_bytes body) as [bytes|]; [|done]. cbn [mbind result_bind].
  destruct (newRequest _ _ _) as [req0|] eqn:Hr; [|done]. cbn.
  apply newRequest_ok in Hr as (Hm & Hb & Hs & Hh).
  destruct authenticated.
  - destruct (nonce c tt) as [n|] eqn:Hn; [|done]. unfold SignRequest.
    destruct (signer c) as [s|] eqn:Hsig; [|done]. cbn. intros [= <- <-].
    split; [done|]. split; [by exists b|]. intros _. split; [done|]. exists s, n.
    unfold signature_of. cbn. rewrite Hm, Hb.
    split_and!; [done | done | | | |]; repeat first [rewrite lookup_insert_eq | rewrite lookup_insert_ne by done]; done.
  - intros [= <- <-]. split; [done|]. split; [by exists b|]. done.
Qed.

(** C38: every request is encrypted and goes to a configured service. Of a client that
    was made without the option for tests, whatever call is made, a request is sent only
    if the client is enabled, over HTTPS, and to the configured host, or for a mark price
    to that of the price service; an authenticated one carries the signature of the
    signer over its method, path, query, time, nonce and body, and is sent by an HTTP
    client that does not follow redirects. *)
Theorem requests_stay_on_configured_services config opts c k :
  NewClient config opts = Ok c -> WithInsecureHTTPForTests ∉ opts ->
  Forall (fun hr =>
      Enabled config = true /\ u_Scheme (rq_URL hr.2) = "https" /\
      match k with
      | CallMarkPrice _ => exists price, priceBaseURL c = Some price /\ Hostname (rq_URL hr.2) = Hostname price
      | _ => exists base, ParseBaseURL url_Parse (BaseURL config) = Some base /\
               Hostname (rq_URL hr.2) = Hostname base
      end /\
      match k with CallAuthenticated _ _ _ _ _ => signed c hr | _ => True end)
    (run_call k (Some c)).1.
Proof.
  intros Hc Hopts. pose proof (NewClient_built config opts c Hc Hopts) as [He Hb Hp].
  assert (forall base method path query body wanted auth,
    Forall (fun hr => Enabled config = true /\
        (exists b, base = Some b /\ u_Scheme (rq_URL hr.2) = u_Scheme b /\ Hostname (rq_URL hr.2) = Hostname b) /\
        (auth = true -> signed c hr))
      (doJSON c base method path query body wanted auth).1) as Hdo.
  { intros. unfold doJSON. destruct (build_request _ _ _ _ _ _ _) as [[hc req]|] eqn:E; [|constructor].
    apply build_request_sent in E as (H1 & H2 & H3). apply Forall_singleton. cbn. by rewrite <- He. }
  destruct k as [| |symbol|method path query body wanted]; cbn [run_call Ping ServerTime MarkPrice DoAuthenticated];
    [| |unfold MarkPrice; destruct (bool_decide (ToUpper _ = "")); [constructor|]|];
    (eapply Forall_impl; [apply Hdo|]); intros hr (H1 & (b & Eb & H2 & H3) & H4);
    first [pose proof (Hb _ Eb) as [Hbase Hscheme] | pose proof (Hp _ Eb) as Hscheme];
    rewrite Hscheme in H2; (split; [done|]); (split; [done|]); (split; [by exists b|auto]).
Qed.
End Sent.
End Client.

Record ServerTimes := mkServerTime { st_ServerTime : Z; st_Time : Z; st_Timestamp : Z }.
Definition UnixMilliseconds (t : ServerTimes) : Z :=
  if negb (st_ServerTime t =? 0) then st_ServerTime t
  else if negb (st_Timestamp t =? 0) then st_Timestamp t else st_Time t.

(** ** What a signature says *)

Lemma randomNonce_free bytes : char_free ":" (randomNonce bytes) = true.
Proof.
  unfold randomNonce. cbv zeta. repeat (rewrite char_free_app; cbn [char_free Ascii.eqb Bool.eqb negb andb]).
  rewrite !char_free_substring; [done | apply char_free_hex; done ..].
Qed.

(** C39: a signature speaks for one request. When the payloads of two requests with the
    client's own times and nonces are the same, so are their methods up to letter case,
    their paths with the query, whatever characters these contain, their times, their
    nonces and, SHA-256 having no collision on them, their bodies. *)
Theorem signature_payload_is_unambiguous Sum256 m p t n b m' p' t' n' b' :
  char_free ":" m = true -> char_free ":" m' = true ->
  (Sum256 b = Sum256 b' -> b = b') ->
  SignaturePayload m p (IntString t) (randomNonce n) (BodyHash Sum256 b) =
  SignaturePayload m' p' (IntString t') (randomNonce n') (BodyHash Sum256 b') ->
  ToUpper m = ToUpper m' /\ p = p' /\ t = t' /\ randomNonce n = randomNonce n' /\ b = b'.
Proof.
  intros Hm Hm' Hcol E. unfold SignaturePayload in E.
  assert (forall s, char_free ":" s = true -> char_free ":" (ToUpper s) = true) as Hup.
  { intros s. induction s as [|c s IH]; [done|]. cbn. intros [Hc Hs]%andb_prop. rewrite IH by done.
    rewrite andb_true_r. by destruct c as [[] [] [] [] [] [] [] []]. }
  apply append_sep_inj in E as [Em E]; [|by apply Hup..]. split; [done|].
  assert ((((p +:+ String ":" (IntString t)) +:+ String ":" (randomNonce n)) +:+ String ":" (BodyHash Sum256 b)) =
    (((p' +:+ String ":" (IntString t')) +:+ String ":" (randomNonce n')) +:+ String ":" (BodyHash Sum256 b')))
    as E' by (rewrite !append_assoc; exact E).
  clear E. rename E' into E.
  apply append_sep_inj_r in E as [E Eh]; [|by apply char_free_hex..].
  apply append_sep_inj_r in E as [E En]; [|apply randomNonce_free..].
  apply append_sep_inj_r in E as [Ep Et]; [|apply IntString_free..].
  apply IntString_inj in Et. split_and!; [done..|]. apply Hcol.
  unfold BodyHash in Eh. apply (f_equal hex_decode) in Eh. rewrite !hex_decode_encode in Eh. by injection Eh.
Qed.

(** A request whose path has a colon of its own *)
Lemma signature_payload_is_unambiguous_witness :
  SignaturePayload "get" "/v2/orders/a:1" (IntString 1700000000) (randomNonce (repeat x41 16))
    (BodyHash (fun b => b) []) =
  "GET:/v2/orders/a:1:1700000000:41414141-4141-4141-8141-414141414141:" /\
  forall p t, SignaturePayload "GET" p (IntString t) (randomNonce (repeat x41 16)) (BodyHash (fun b => b) []) =
    SignaturePayload "get" "/v2/orders/a:1" (IntString 1700000000) (randomNonce (repeat x41 16))
      (BodyHash (fun b => b) []) -> p = "/v2/orders/a:1" /\ t = 1700000000.
Proof.
  split; [vm_compute; reflexivity|]. intros p t E.
  destruct (signature_payload_is_unambiguous (fun b => b) "GET" p t (repeat x41 16) [] "get" "/v2/orders/a:1"
    1700000000 (repeat x41 16) [] eq_refl eq_refl (fun H => H) E) as (_ & Hp & Ht & _).
  split; [exact Hp | exact Ht].
Defined.

(** ** A concrete client *)

Definition sample_parse (s : string) : option URL :=
  if bool_decide (s = MainnetAPIBaseURL) then Some (host_url "https" "api.strikefinance.org")
  else if bool_decide (s = MainnetPriceAPIBaseURL)
  then Some (mkURL "https" false "api.strikefinance.org" "/price" "" "")
  else if bool_decide (s = "http://localhost") then Some (host_url "http" "localhost") else None.
Definition sample_signer : Ed25519Signer := mkSigner (repeat x01 32) (repeat x02 32 ++ repeat x01 32).
Definition sample_config : ExternalAPIConfig := mkAPIConfig true MainnetAPIBaseURL "".

Abbreviation sample_new := (NewClient sample_parse (fun u => "https://" +:+ u_Host u +:+ u_Path u) (fun _ => false)
  (mkHTTPClient 0 true) (fun _ => 1700000000) (fun _ => Some "n")).
Abbreviation sample_run := (run_call (fun u => u_Path u) (fun q => String.concat "&" (fmap (M := list) fst q))
  (fun _ => true) Some (fun key payload => String.list_byte_of_string payload) (fun b => b)
  (fun _ _ => Some (mkResponse 200 (Some "")))).

(** An encrypted service is accepted and an unencrypted one is not; the authenticated
    request of the client is sent where it should. *)
Lemma requests_stay_on_configured_services_witness :
  is_ok (sample_new (mkAPIConfig true "http://localhost" "") []) = false /\
  exists c, sample_new sample_config [WithSigner (Some sample_signer)] = Ok c /\
    let k := CallAuthenticated "POST" "v2/order" [("a", "")] (Some (Some [x7b; x7d])) true in
    map (fun hr => (hc_redirects hr.1, Hostname (rq_URL hr.2), u_Path (rq_URL hr.2))) (sample_run k (Some c)).1 =
      [(false, "api.strikefinance.org", "/v2/order")] /\
    Forall (fun hr => u_Scheme (rq_URL hr.2) = "https") (sample_run k (Some c)).1.
Proof.
  split; [vm_compute; reflexivity|].
  destruct (sample_new sample_config [WithSigner (Some sample_signer)]) as [c|] eqn:E;
    [|vm_compute in E; discriminate E].
  exists c. split; [done|]. intros k. split; [vm_compute in E; injection E as <-; vm_compute; reflexivity|].
  assert (WithInsecureHTTPForTests ∉ [WithSigner (Some sample_signer)]) as Hopts.
  { rewrite list_elem_of_singleton. discriminate. }
  eapply Forall_impl;
    [apply (requests_stay_on_configured_services sample_parse _ _ _ _ _ Some _ _ _ _ _ _
              (fun u u' H => ltac:(by injection H as ->)) sample_config _ c k E Hopts)|].
  intros hr (_ & Hs & _). exact Hs.
Defined.
