(* ===== verification/Saturn.v ===== *)
(** * Saturn: pools and orders of the SaturnSwap service ([dex/saturnswap]).

    The parser of the protocol is off until it is verified. The client asks the
    service over GraphQL and turns the pools it lists into pool states: its decimals
    arrive as text, its fees as percentages. The HTTP transport is a parameter; the
    JSON of the requests and the responses is a parameter here, for which [SaturnJson]
    gives the program's own. White space is that of ASCII. *)
From S2P Require Import Prelude.
From S2P Require Import Text.
From S2P Require Import Float64.
From S2P Require Import Common.
From S2P Require Import GoFloat.
From S2P Require Import Endpoint.

Definition ProtocolName : string := "saturnswap".
Definition IntegrationStatusUnverified : string := "unverified".
Definition MainnetNetwork : string := "mainnet".
Definition DefaultGraphQLEndpoint : string := "https://api.saturnswap.io/v1/graphql/".

(** ** Decimals ([api_models.go]) *)

Inductive decimal_error := MissingDecimal | InvalidDecimal | OutOfRange | NotAnInteger.

(** [DecimalString.UnmarshalJSON]: a JSON string, or a number as it is written *)
Definition quote : ascii := Ascii.ascii_of_nat 34.
Definition DecimalString_UnmarshalJSON (Unmarshal_string : string -> option string) (data : string)
  : option string :=
  let data := TrimSpace data in
  if bool_decide (data = "null") then Some ""
  else
    match data with
    | EmptyString => None
    | String c _ => if Ascii.eqb c quote then Unmarshal_string data else Some data
    end.

(** [strings.Cut] at the first dot *)
Definition cut_dot (value : string) : option (string * string) := split_first "." value.
Definition is_zero (c : ascii) : bool := Ascii.eqb c "0".

Definition Uint64 (d : string) : result decimal_error Z :=
  let value := TrimSpace d in
  if bool_decide (value = "") then Err MissingDecimal
  else if String.prefix "-" value then Err OutOfRange
  else
    value ← match cut_dot value with
            | Some (before, after) =>
                if negb (bool_decide (trim_right is_zero after = "")) then Err NotAnInteger else Ok before
            | None => Ok value
            end;
    match ParseUint value with
    | None => Err InvalidDecimal
    | Some n => Ok n
    end.

(** ** Tokens and pools *)

Record TokenProject := mkToken {
  tk_ID : string;
  tk_Name : string;
  tk_Image : string;
  tk_PolicyID : string;
  tk_AssetName : string;
  tk_Decimals : Z;
  tk_Precision : Z;
  tk_Ticker : string;
  tk_Price : string;
  tk_IsVerified : bool;
  tk_IsActive : bool;
}.

Definition trim_prefix (p s : string) : string :=
  if String.prefix p s then String.substring (String.length p) (String.length s - String.length p) s else s.
Definition cleanHex (value : string) : string :=
  ToLower (trim_prefix "0X" (trim_prefix "0x" (TrimSpace value))).

Inductive saturn_error :=
| PoolIDRequired
| AssetNameWithoutPolicy
| TokenAssetClass (e : asset_error)
| ReserveOne (e : decimal_error)
| ReserveTwo (e : decimal_error)
| LPFee (e : decimal_error)
| ProtocolFee (e : decimal_error)
| ProtocolFeeOutOfRange
| EffectiveFeeOutOfRange.

Definition TokenProject_AssetClass (t : TokenProject) : result saturn_error AssetClass :=
  let policyID := cleanHex (tk_PolicyID t) in
  let assetName := cleanHex (tk_AssetName t) in
  if bool_decide (policyID = "") && bool_decide (assetName = "") then Ok Lovelace
  else if bool_decide (policyID = "") then Err AssetNameWithoutPolicy
  else
    match NewAssetClass policyID assetName with
    | Err e => Err (TokenAssetClass e)
    | Ok asset => Ok asset
    end.

(** The statistics of a pool; decimals are text. *)
Record PoolStats := mkStats {
  st_PoolID : string;
  st_Price : string;
  st_HighestBid : string;
  st_LowestAsk : string;
  ReserveTokenOne : string;
  ReserveTokenTwo : string;
  st_TVL : string;
  st_Volume1D : string;
  st_BuyVolume1D : string;
  st_SellVolume1D : string;
  st_Transactions1D : Z;
  st_Buys1D : Z;
  st_Sells1D : Z;
  st_UserFeesEarned1D : string;
  st_Volume7D : string;
  st_BuyVolume7D : string;
  st_SellVolume7D : string;
  st_Transactions7D : Z;
  st_Buys7D : Z;
  st_Sells7D : Z;
  st_UserFeesEarned7D : string;
  st_VolumeAll : string;
  st_BuyVolumeAll : string;
  st_SellVolumeAll : string;
  st_TransactionsAll : Z;
  st_BuysAll : Z;
  st_SellsAll : Z;
  st_UserFeesEarnedAll : string;
  st_AverageAPY1D : string;
  st_AverageAPY7D : string;
  st_AverageAPY30D : string;
  st_Volume30D : string;
  st_BuyVolume30D : string;
  st_SellVolume30D : string;
  st_Transactions30D : Z;
  st_Buys30D : Z;
  st_Sells30D : Z;
  st_UserFeesEarned30D : string;
}.
(** Statistics of which only the reserves are known *)
Definition stats_of (one two : string) : PoolStats :=
  mkStats "" "" "" "" one two "" "" "" "" 0 0 0 "" "" "" "" 0 0 0 "" "" "" "" 0 0 0 "" "" "" "" "" "" "" 0 0 0 "".

Record Pool := mkPool {
  po_ID : string;
  po_Name : string;
  po_Ticker : string;
  LPFeePercent : string;
  ProtocolFeePercent : string;
  IsSwapActive : bool;
  IsLiquidityActive : bool;
  IsVerified : bool;
  TokenProjectOne : TokenProject;
  TokenProjectTwo : TokenProject;
  Stats : PoolStats;
}.

Record PoolState := mkSaturnState {
  ss_PoolId : string;
  ss_Protocol : string;
  ss_AssetX : AssetAmount;
  ss_AssetY : AssetAmount;
  ss_FeeNum : Z;
  ss_FeeDenom : Z;
  ss_Slot : Z;
  ss_TxHash : string;
  ss_TxIndex : Z;
  ss_Timestamp : Z;
}.

Definition FeeDenom : Z := 10000.

(** [math.Round]: the nearest integer, half away from zero. The sign of a zero is
    not kept; the program only compares the result and converts it. *)
Definition Round (f : float64) : float64 :=
  match f with
  | S754_finite s m e =>
      let q := Q_of_float (S754_finite false m e) in
      let n := (2 * Qnum q + Zpos (Qden q)) / (2 * Zpos (Qden q)) in
      float_of_Z (if s then - n else n)
  | _ => f
  end.

Section Pools.
(** [uint64(f)] of a value that is none of a 64-bit integer depends on the machine. *)
Context (uint64_outside : float64 -> Z).

Definition uint64_of_float (f : float64) : Z :=
  if IsNaN f || IsInf f then uint64_outside f
  else
    let n := int64_of_float f in
    if (0 <=? n) && (n <=? MaxUint64) then n else uint64_outside f.

(** [DecimalString.Float64] *)
Definition Float64_ (d : string) : result decimal_error float64 :=
  let value := TrimSpace d in
  if bool_decide (value = "") then Err MissingDecimal
  else match strconv_ParseFloat value with None => Err InvalidDecimal | Some f => Ok f end.

Definition fhundred : float64 := float_of_Z 100.

(** The protocol's share of the LP fee, nothing when the field is left out *)
Definition protocol_percent (p : Pool) : result saturn_error float64 :=
  if negb (bool_decide (TrimSpace (ProtocolFeePercent p) = "")) then
    match Float64_ (ProtocolFeePercent p) with Err e => Err (ProtocolFee e) | Ok f => Ok f end
  else Ok fzero.

Definition EffectiveFeeParts (p : Pool) : result saturn_error (Z * Z) :=
  match Float64_ (LPFeePercent p) with
  | Err e => Err (LPFee e)
  | Ok lpPercent =>
      protocolPercent ← protocol_percent p;
      if SFltb protocolPercent fzero || fgt protocolPercent fhundred then Err ProtocolFeeOutOfRange
      else
        let percent := fdiv (fmul lpPercent protocolPercent) fhundred in
        let feeBasisPoints := Round (fmul percent fhundred) in
        if SFltb feeBasisPoints fzero || fgt feeBasisPoints (float_of_Z FeeDenom) then Err EffectiveFeeOutOfRange
        else Ok (u64 (FeeDenom - uint64_of_float feeBasisPoints), FeeDenom)
  end.

Definition reserve (d : string) (err : decimal_error -> saturn_error) : result saturn_error Z :=
  match Uint64 d with Err e => Err (err e) | Ok n => Ok n end.

Definition ToPoolState (p : Pool) (slot timestamp : Z) : result saturn_error PoolState :=
  if bool_decide (TrimSpace (po_ID p) = "") then Err PoolIDRequired
  else
    assetX ← TokenProject_AssetClass (TokenProjectOne p);
    assetY ← TokenProject_AssetClass (TokenProjectTwo p);
    reserveX ← reserve (ReserveTokenOne (Stats p)) ReserveOne;
    reserveY ← reserve (ReserveTokenTwo (Stats p)) ReserveTwo;
    '(feeNum, feeDenom) ← EffectiveFeeParts p;
    Ok (mkSaturnState (po_ID p) ProtocolName (mkAssetAmount assetX reserveX) (mkAssetAmount assetY reserveY)
          feeNum feeDenom slot "" 0 timestamp).
End Pools.

(** [PoolConnection.Pools]: the nodes, or those of the edges when there are none *)
Record PoolConnection := mkConnection {
  Nodes : list Pool;
  Edges : list (string * Pool);
  TotalCount : Z;
}.
Definition Pools (c : PoolConnection) : list Pool :=
  match Nodes c with [] => (Edges c).*2 | nodes => nodes end.

(** ** What the conversions guarantee *)

(** [Uint64] accepts exactly the decimal digits of an unsigned 64-bit integer, with a
    fraction of zeros or none, between white space; in particular it never wraps. *)
Lemma Uint64_exact d n :
  Uint64 d = Ok n <->
  exists whole, ParseUint whole = Some n /\
    (TrimSpace d = whole /\ char_free "." whole = true \/
     exists zeros, TrimSpace d = whole +:+ String "." zeros /\ char_free "." whole = true /\
       all_chars is_zero zeros = true) /\ TrimSpace d <> "" /\ String.prefix "-" (TrimSpace d) = false.
Proof.
  unfold Uint64, cut_dot. set (v := TrimSpace d). case_bool_decide as Hv.
  { split; [done|]. intros (w & _ & _ & Hne & _). done. }
  destruct (String.prefix "-" v); [split; [done|]; intros (w & _ & _ & _ & Hm); done|].
  assert (forall s, char_free "." s = false -> exists a b, split_first "." s = Some (a, b)) as Hsome.
  { intros s. induction s as [|c s IH]; [done|]. cbn [char_free split_first].
    destruct (Ascii.eqb "." c); [by eexists _, _|]. cbn. intros (a & b & ->)%IH. by eexists _, _. }
  assert (forall s a b, split_first "." s = Some (a, b) -> char_free "." a = true) as Hfree.
  { intros s. induction s as [|c s IH]; [done|]. intros a b. cbn [split_first].
    destruct (Ascii.eqb "." c) eqn:Hc; [by intros [= <- <-]|].
    destruct (split_first "." s) as [[a' b']|] eqn:E; [|done]. intros [= <- <-]. cbn [char_free]. rewrite Hc.
    by apply (IH a' b'). }
  destruct (split_first "." v) as [[a b]|] eqn:E.
  - pose proof (split_first_some _ _ _ _ E) as Ev. pose proof (Hfree _ _ _ E) as Ha.
    rewrite Ev. case_bool_decide as Hz; cbn.
    + apply trim_right_all in Hz. split.
      * destruct (ParseUint a) as [k|] eqn:Hk; [|done]. intros [= <-]. exists a. split; [done|].
        split; [right; by exists b|]. rewrite <- Ev. done.
      * intros (w & Hw & [[E1 E2]|(z & E1 & E2 & E3)] & _).
        -- rewrite <- E1, char_free_app in E2. cbn in E2. by rewrite andb_false_r in E2.
        -- apply append_sep_inj in E1 as [-> ->]; [|done..]. by rewrite Hw.
    + split; [done|]. intros (w & Hw & [[E1 E2]|(z & E1 & E2 & E3)] & _).
      * rewrite <- E1, char_free_app in E2. cbn in E2. by rewrite andb_false_r in E2.
      * apply append_sep_inj in E1 as [-> ->]; [|done..]. by apply trim_right_all in E3.
  - cbn. split.
    + destruct (ParseUint v) as [k|] eqn:Hk; [|done]. intros [= <-]. exists v. split; [done|].
      split; [|done]. left. split; [done|]. destruct (char_free "." v) eqn:Hf; [done|].
      destruct (Hsome _ Hf) as (a & b & E'). congruence.
    + intros (w & Hw & [[-> _]|(z & E1 & E2 & _)] & _); [by rewrite Hw|].
      rewrite E1, split_first_app in E by done. done.
Qed.

(** A pool state is made of the pool as the service lists it: the protocol, the
    identifier, the reserves that the two decimals spell, and the two assets. *)
Lemma ToPoolState_ok outside p slot timestamp s :
  ToPoolState outside p slot timestamp = Ok s ->
  ss_PoolId s = po_ID p /\ ss_Protocol s = ProtocolName /\ ss_Slot s = slot /\ ss_Timestamp s = timestamp /\
  Uint64 (ReserveTokenOne (Stats p)) = Ok (aa_Amount (ss_AssetX s)) /\
  Uint64 (ReserveTokenTwo (Stats p)) = Ok (aa_Amount (ss_AssetY s)) /\
  TokenProject_AssetClass (TokenProjectOne p) = Ok (aa_Class (ss_AssetX s)) /\
  TokenProject_AssetClass (TokenProjectTwo p) = Ok (aa_Class (ss_AssetY s)) /\
  EffectiveFeeParts outside p = Ok (ss_FeeNum s, ss_FeeDenom s).
Proof.
  unfold ToPoolState, reserve. case_bool_decide; [done|].
  destruct (TokenProject_AssetClass (TokenProjectOne p)) as [x|]; [|done].
  destruct (TokenProject_AssetClass (TokenProjectTwo p)) as [y|]; [|done]. cbn [mbind result_bind].
  destruct (Uint64 (ReserveTokenOne (Stats p))) as [rx|]; [|done].
  destruct (Uint64 (ReserveTokenTwo (Stats p))) as [ry|]; [|done]. cbn [mbind result_bind].
  destruct (EffectiveFeeParts _ p) as [[num den]|]; [|done]. cbn. by intros [= <-].
Qed.

(** The checks of the range of a fee do not refuse a NaN, which [strconv.ParseFloat]
    reads from its name: the comparisons with it are false, and what is subtracted from
    the denominator is whatever the machine makes of a NaN. *)
Lemma nan_fee_is_accepted outside p lp :
  Float64_ (LPFeePercent p) = Ok lp -> TrimSpace (ProtocolFeePercent p) = "NaN" ->
  EffectiveFeeParts outside p = Ok (u64 (FeeDenom - outside S754_nan), FeeDenom).
Proof.
  intros Hlp Hp. unfold EffectiveFeeParts, protocol_percent, Float64_ at 2.
  rewrite Hlp, Hp. cbn. by destruct lp as [[]|[]| |[] ? ?].
Qed.

(** A pool with an LP fee of half a percent, of which the protocol takes thirty: the
    charge is 15 hundredths of a percent. *)
Definition sample_token (policy name : string) : TokenProject :=
  mkToken "" "" "" policy name 0 0 "" "" true true.
Definition sample_pool (protocolFee : string) : Pool :=
  mkPool "p1" "" "" "0.5" protocolFee true true true (sample_token "" "") (sample_token "0xAB" "cd")
    (stats_of "1000.000" " 250 ").

Example sample_pool_state :
  ToPoolState (fun _ => 0) (sample_pool "30") 7 9 =
  Ok (mkSaturnState "p1" "saturnswap" (mkAssetAmount Lovelace 1000)
        (mkAssetAmount (mkAssetClass (Some [xab]) (Some [xcd])) 250) 9985 10000 7 "" 0 9).
Proof. vm_compute. done. Qed.

(** On a machine that turns a NaN into 2^63, the numerator exceeds the denominator. *)
Example sample_nan_fee :
  EffectiveFeeParts (fun _ => 2 ^ 63) (sample_pool "NaN") = Ok (9223372036854785808, 10000).
Proof. vm_compute. done. Qed.

(** ** The client ([api.go]) *)

Record APIConfig := mkSaturnConfig {
  ac_Enabled : bool;
  ac_Endpoint : string;
  ac_Timeout : Z;
}.

Definition defaultAPITimeout : Z := 15 * 1000000000.
Definition DefaultAPIConfig : APIConfig := mkSaturnConfig false DefaultGraphQLEndpoint defaultAPITimeout.

Inductive client_error :=
| ErrExternalAPIDisabled
| NegativeTimeout | UnparsableEndpoint | UnsupportedScheme (scheme : string) | HostRequired
| HTTPClientIsNil | EndpointNotHTTPS
| ClientIsNil | QueryRequired | EncodeRequest | CreateRequest | RequestFailed
| HTTPStatus (code : Z) (body : string) | ReadResponse | ResponseTooLarge | DecodeResponse
| GraphQLErrors (messages : list string) | MissingData | DecodeData
| TickerRequired | TokenOneNeedsPolicy | TokenTwoNeedsPolicy | TokensMustDiffer | NoPool
| ServiceError (code message : string).

Inductive ClientOption :=
| WithHTTPClient (isNil : bool)
| WithInsecureHTTPForTests.

Record Client := mkSaturnClient {
  cl_endpoint : string;
  cl_timeout : option Z;      (** of the client's own; nothing with the caller's client *)
  cl_hasClient : bool;
  cl_allowInsecure : bool;
}.

Definition apply_option (c : Client) (o : ClientOption) : Client :=
  match o with
  | WithHTTPClient isNil => mkSaturnClient (cl_endpoint c) None (negb isNil) (cl_allowInsecure c)
  | WithInsecureHTTPForTests => mkSaturnClient (cl_endpoint c) (cl_timeout c) (cl_hasClient c) true
  end.

(** What the service answers: its status, and the body unless it cannot be read *)
Record Response := mkSaturnResponse {
  rp_status : Z;
  rp_body : option string;
}.
(** [graphQLResponse]: the text of the data, nothing when it is left out, and the
    messages of the errors *)
Record graphQLResponse := mkGraphQL {
  gr_Data : option string;
  gr_Errors : list string;
}.

Definition maxGraphQLResponseBodySize : nat := Z.to_nat 1048576.

(** [graphQLErrors.Error] *)
Definition graphQLErrors_Error (messages : list string) : string :=
  match filter (fun m => m <> "") messages with
  | [] => "SaturnSwap GraphQL error"
  | parts => "SaturnSwap GraphQL error: " +:+ String.concat "; " parts
  end.

Definition endpoint_of (cfg : APIConfig) : string :=
  let endpoint := TrimSpace (ac_Endpoint cfg) in
  if bool_decide (endpoint = "") then DefaultGraphQLEndpoint else endpoint.

Section Client.
Context (url_Parse : string -> option URL) (is_loopback_ip : string -> bool).

Definition Validate (cfg : APIConfig) : result client_error unit :=
  if ac_Timeout cfg <? 0 then Err NegativeTimeout
  else if negb (ac_Enabled cfg) then Ok tt
  else
    match url_Parse (endpoint_of cfg) with
    | None => Err UnparsableEndpoint
    | Some u =>
        if negb (bool_decide (u_Scheme u = "http")) && negb (bool_decide (u_Scheme u = "https"))
        then Err (UnsupportedScheme (u_Scheme u))
        else if bool_decide (u_Host u = "") then Err HostRequired
        else Ok tt
    end.

Definition NewClient (cfg : APIConfig) (opts : list ClientOption) : result client_error Client :=
  if negb (ac_Enabled cfg) then Err ErrExternalAPIDisabled
  else
    _ ← Validate cfg;
    let timeout := if ac_Timeout cfg =? 0 then defaultAPITimeout else ac_Timeout cfg in
    let client := foldl apply_option (mkSaturnClient (endpoint_of cfg) (Some timeout) true false) opts in
    if negb (cl_hasClient client) then Err HTTPClientIsNil
    else
      match url_Parse (cl_endpoint client) with
      | None => Err UnparsableEndpoint
      | Some u =>
          if negb (isAllowedEndpoint is_loopback_ip u (cl_allowInsecure client)) then Err EndpointNotHTTPS
          else Ok client
      end.

(** [Client.Endpoint], which a nil client answers *)
Definition Endpoint (c : option Client) : string :=
  match c with None => "" | Some c => cl_endpoint c end.

Context {vars : Type} (Marshal : string -> vars -> option string)
        (Do : string -> string -> option Response) (Unmarshal : string -> option graphQLResponse).

(** [Query], up to the data that is decoded. [request_ok] tells whether the endpoint
    is one that a request can be made for. *)
Context (request_ok : string -> bool).

Definition is_2xx (status : Z) : bool := (200 <=? status) && (status <? 300).
Definition first_bytes (n : nat) (s : string) : string := String.substring 0 n s.

Definition read_response (resp : Response) : result client_error graphQLResponse :=
  if negb (is_2xx (rp_status resp))
  then Err (HTTPStatus (rp_status resp) (TrimSpace (first_bytes 4096 (default "" (rp_body resp)))))
  else
    match rp_body resp with
    | None => Err ReadResponse
    | Some body =>
        if (maxGraphQLResponseBodySize <? String.length body)%nat then Err ResponseTooLarge
        else match Unmarshal body with None => Err DecodeResponse | Some r => Ok r end
    end.

Definition Query {A} (decode : option (string -> option A)) (query : string) (variables : vars)
    (c : option Client) : result client_error (option A) :=
  match c with
  | None => Err ClientIsNil
  | Some c =>
      let query := TrimSpace query in
      if bool_decide (query = "") then Err QueryRequired
      else
        match Marshal query variables with
        | None => Err EncodeRequest
        | Some reqBody =>
            if negb (request_ok (cl_endpoint c)) then Err CreateRequest
            else
              match Do (cl_endpoint c) reqBody with
              | None => Err RequestFailed
              | Some resp =>
                  r ← read_response resp;
                  if (0 <? length (gr_Errors r))%nat then Err (GraphQLErrors (gr_Errors r))
                  else
                    match decode with
                    | None => Ok None
                    | Some decode =>
                        match gr_Data r with
                        | None | Some EmptyString => Err MissingData
                        | Some data =>
                            if bool_decide (data = "null") then Err MissingData
                            else match decode data with None => Err DecodeData | Some a => Ok (Some a) end
                        end
                    end
              end
        end
  end.

(** A query that gives a value: a response of success that is not too long, without
    errors, and with data that decode to it. *)
Lemma Query_ok {A} (decode : string -> option A) query variables c a :
  Query (Some decode) query variables (Some c) = Ok (Some a) ->
  exists reqBody resp body r data,
    Marshal (TrimSpace query) variables = Some reqBody /\ Do (cl_endpoint c) reqBody = Some resp /\
    200 <= rp_status resp < 300 /\ rp_body resp = Some body /\
    (String.length body <= maxGraphQLResponseBodySize)%nat /\
    Unmarshal body = Some r /\ gr_Errors r = [] /\ gr_Data r = Some data /\ data <> "null" /\
    decode data = Some a.
Proof.
  unfold Query. case_bool_decide; [done|]. destruct (Marshal _ _) as [reqBody|]; [|done].
  destruct (request_ok _); [|done]. cbn [negb]. destruct (Do _ _) as [resp|] eqn:Hdo; [|done].
  unfold read_response. destruct (is_2xx (rp_status resp)) eqn:Hs; [|done]. cbn [negb].
  destruct (rp_body resp) as [body|] eqn:Hbody; [|done]. destruct (Nat.ltb_spec maxGraphQLResponseBodySize (String.length body));
    [done|].
  destruct (Unmarshal body) as [r|] eqn:Hu; [|done]. cbn [mbind result_bind].
  destruct (gr_Errors r) as [|e l] eqn:He; [|done]. cbn [length Nat.ltb Nat.leb].
  destruct (gr_Data r) as [[|ch data]|] eqn:Hd; [done| |done]. case_bool_decide; [done|].
  destruct (decode _) as [a'|] eqn:Ha; [|done]. intros [= <-].
  exists reqBody, resp, body, r, (String ch data).
  unfold is_2xx in Hs. apply andb_prop in Hs as [Hlo%Z.leb_le Hhi%Z.ltb_lt].
  by split_and!.
Qed.

(** A client exists only when the service is enabled, and without the option for tests
    only for an encrypted endpoint. *)
Lemma NewClient_encrypted cfg opts c :
  NewClient cfg opts = Ok c -> WithInsecureHTTPForTests ∉ opts ->
  ac_Enabled cfg = true /\ cl_endpoint c = endpoint_of cfg /\
  exists u, url_Parse (cl_endpoint c) = Some u /\ u_Scheme u = "https".
Proof.
  unfold NewClient. destruct (ac_Enabled cfg); [|done]. cbn [negb].
  destruct (Validate cfg) as [[]|]; [|done]. cbn [mbind result_bind].
  set (c0 := mkSaturnClient _ _ true false).
  assert (forall l c1, cl_endpoint (foldl apply_option c1 l) = cl_endpoint c1 /\
    (WithInsecureHTTPForTests ∉ l -> cl_allowInsecure (foldl apply_option c1 l) = cl_allowInsecure c1)) as Hf.
  { intros l. induction l as [|o l IH]; intros c1; [done|]. cbn. destruct (IH (apply_option c1 o)) as [-> H2].
    split; [by destruct o|]. rewrite not_elem_of_cons. intros [Hne Hni]. rewrite H2 by done. by destruct o. }
  destruct (Hf opts c0) as [He Hi]. destruct (cl_hasClient _); [|done]. cbn [negb].
  destruct (url_Parse _) as [u|] eqn:Hu; [|done].
  destruct (isAllowedEndpoint _ _ _) eqn:Ha; [|done]. intros [= <-] Hni. rewrite Hi in Ha by done.
  apply isAllowedEndpoint_https in Ha. rewrite He. split; [done|]. split; [done|]. exists u. by rewrite <- He.
Qed.
End Client.

(** *** The operations *)

Definition poolFields : string := "
	id
	name
	ticker
	lp_fee_percent
	protocol_fee_percent
	is_swap_active
	is_liquidity_active
	is_verified
	token_project_one {
		id
		name
		image
		policy_id
		asset_name
		decimals
		precision
		ticker
		price
	}
	token_project_two {
		id
		name
		image
		policy_id
		asset_name
		decimals
		precision
		ticker
		price
	}
	pool_stats {
		pool_id
		price
		highest_bid
		lowest_ask
		reserve_token_one
		reserve_token_two
		tvl
		volume_1d
		volume_7d
		volume_all
	}
".

Definition poolsByTickerQuery : string := "
query SaturnPoolsByTicker($ticker: String!) {
	pools(where: { ticker: { eq: $ticker } }) {
		nodes {
" +:+ poolFields +:+ "
		}
		totalCount
	}
}".

Definition poolByTokensQuery : string := "
query SaturnPoolByTokens($input: GetPoolByTokensInput!) {
	poolByTokens(input: $input) {
" +:+ poolFields +:+ "
	}
}".

Definition createOrderTransactionMutation : string := "
mutation SaturnCreateOrder($input: CreateOrderTransactionInput!) {
	createOrderTransaction(input: $input) {
		successTransactions {
			transactionId
			hexTransaction
		}
		failTransactions {
			error {
				message
				code
			}
		}
		error {
			message
			code
		}
	}
}".

Definition submitOrderTransactionMutation : string := "
mutation SaturnSubmitOrder($input: SubmitOrderTransactionInput!) {
	submitOrderTransaction(input: $input) {
		transactionIds
		error {
			message
			code
			link
		}
	}
}".

Record PoolByTokensInput := mkByTokens {
  PolicyIDOne : string;
  AssetNameOne : string;
  PolicyIDTwo : string;
  AssetNameTwo : string;
}.

Inductive PoolUtxoType :=
| LimitBuyOrder | LimitSellOrder | MarketBuyOrder | MarketSellOrder | Cancel.

Record OrderTransaction := mkOrderTransaction {
  TransactionID : string;
  HexTransaction : string;
}.
Record MarketOrderComponent := mkMarketOrder {
  mo_PoolID : string;
  mo_TokenAmountSell : float64;
  mo_TokenAmountBuy : float64;
  mo_MarketOrderType : PoolUtxoType;
  mo_Slippage : float64;
  mo_Version : Z;
}.
Record LimitOrderComponent := mkLimitOrder {
  lo_PoolID : string;
  lo_TokenAmountSell : float64;
  lo_TokenAmountBuy : float64;
  lo_LimitOrderType : PoolUtxoType;
  lo_Version : Z;
}.
Record CreateOrderTransactionInput := mkCreateOrder {
  co_PaymentAddress : string;
  MarketOrderComponents : list MarketOrderComponent;
  LimitOrderComponents : list LimitOrderComponent;
  CancelComponents : list string;
}.
Record SubmitOrderTransactionInput := mkSubmitOrder {
  so_PaymentAddress : string;
  (** nothing for a nil slice *)
  SuccessTransactions : option (list OrderTransaction);
}.

Record SaturnAPIError := mkAPIError {
  ae_Message : string;
  ae_Code : string;
  ae_Link : string;
}.
(** [SaturnAPIError.Error] *)
Definition SaturnAPIError_Error (e : SaturnAPIError) : string :=
  if bool_decide (ae_Code e = "") then ae_Message e else ae_Code e +:+ ": " +:+ ae_Message e.

Record CreateOrderTransactionResult := mkCreateResult {
  cr_SuccessTransactions : list OrderTransaction;
  cr_FailTransactions : list (option SaturnAPIError);
  cr_Error : option SaturnAPIError;
}.
Record SubmitOrderTransactionResult := mkSubmitResult {
  sr_TransactionIDs : list string;
  sr_Error : option SaturnAPIError;
}.

(** The variables of a request *)
Inductive variables :=
| VarTicker (ticker : string)
| VarByTokens (input : PoolByTokensInput)
| VarCreate (input : CreateOrderTransactionInput)
| VarSubmit (input : SubmitOrderTransactionInput).

Definition validatePoolByTokensInput (input : PoolByTokensInput) : result client_error unit :=
  if bool_decide (PolicyIDOne input = "") && negb (bool_decide (AssetNameOne input = ""))
  then Err TokenOneNeedsPolicy
  else if bool_decide (PolicyIDTwo input = "") && negb (bool_decide (AssetNameTwo input = ""))
  then Err TokenTwoNeedsPolicy
  else if bool_decide (PolicyIDOne input = PolicyIDTwo input)
          && bool_decide (AssetNameOne input = AssetNameTwo input)
  then Err TokensMustDiffer
  else Ok tt.

(** What an operation returns when the service reports an error of its own: the result
    as well as the error *)
Definition with_service_error {A} (error : A -> option SaturnAPIError) (a : A)
  : option A * option client_error :=
  (Some a, match error a with None => None | Some e => Some (ServiceError (ae_Code e) (ae_Message e)) end).

Section Operations.
Context (Marshal : string -> variables -> option string)
        (Do : string -> string -> option Response) (Unmarshal : string -> option graphQLResponse)
        (request_ok : string -> bool)
        (decode_pools : string -> option PoolConnection) (decode_pool : string -> option (option Pool))
        (decode_create : string -> option CreateOrderTransactionResult)
        (decode_submit : string -> option SubmitOrderTransactionResult).

Abbreviation query := (Query Marshal Do Unmarshal request_ok).

(** A query whose result is always decoded *)
Definition query_value {A} (decode : string -> option A) (text : string) (v : variables) (c : option Client)
  : result client_error A :=
  r ← query (Some decode) text v c;
  match r with Some a => Ok a | None => Err MissingData end.

Definition PoolsByTicker (ticker : string) (c : option Client) : result client_error (list Pool) :=
  let ticker := TrimSpace ticker in
  if bool_decide (ticker = "") then Err TickerRequired
  else Pools <$> query_value decode_pools poolsByTickerQuery (VarTicker ticker) c.

Definition PoolByTokens (input : PoolByTokensInput) (c : option Client) : result client_error Pool :=
  _ ← validatePoolByTokensInput input;
  r ← query_value decode_pool poolByTokensQuery (VarByTokens input) c;
  match r with None => Err NoPool | Some p => Ok p end.

Definition CreateOrderTransaction (input : CreateOrderTransactionInput) (c : option Client)
  : option CreateOrderTransactionResult * option client_error :=
  match query_value decode_create createOrderTransactionMutation (VarCreate input) c with
  | Err e => (None, Some e)
  | Ok r => with_service_error cr_Error r
  end.

Definition SubmitOrderTransaction (input : SubmitOrderTransactionInput) (c : option Client)
  : option SubmitOrderTransactionResult * option client_error :=
  match query_value decode_submit submitOrderTransactionMutation (VarSubmit input) c with
  | Err e => (None, Some e)
  | Ok r => with_service_error sr_Error r
  end.

(** A request for a pool names two different tokens. *)
Lemma PoolByTokens_different input c p :
  PoolByTokens input c = Ok p ->
  (PolicyIDOne input, AssetNameOne input) <> (PolicyIDTwo input, AssetNameTwo input) /\
  (PolicyIDOne input = "" -> AssetNameOne input = "") /\ (PolicyIDTwo input = "" -> AssetNameTwo input = "").
Proof.
  unfold PoolByTokens, validatePoolByTokensInput. repeat case_bool_decide; cbn; try done; intros _; naive_solver.
Qed.

(** An operation that reports no error has a result in which the service reports none. *)
Lemma CreateOrderTransaction_no_error input c r :
  CreateOrderTransaction input c = (r, None) -> exists a, r = Some a /\ cr_Error a = None.
Proof.
  unfold CreateOrderTransaction, with_service_error. destruct (query_value _ _ _ _) as [a|]; [|done].
  destruct (cr_Error a) eqn:E; [done|]. intros [= <-]. by exists a.
Qed.
End Operations.

(** ** Targets ([models.go]) *)

Record VerificationItem := mkItem {
  vi_Key : string;
  vi_Description : string;
  vi_RequiredBeforeRuntime : bool;
}.
Definition VerificationChecklist : list VerificationItem :=
  [mkItem "script-addresses"
     "verify SaturnSwap pool, order, and related script addresses/hashes for each supported network" true;
   mkItem "intercept-point"
     "verify the earliest intercept slot and block hash for the first relevant pool-script transaction" true;
   mkItem "datum-redeemer-schema"
     "verify pool datum and order/redeemer schema constructors, field ordering, and asset encoding" true;
   mkItem "pool-id-rules"
     "verify pool ID rules, including the NFT/LP token or datum fields that make a pool unique" true;
   mkItem "reserve-extraction-rules"
     "verify reserve extraction rules from UTxO values, including which assets are reserves and which markers are excluded" true].

Record IntegrationTarget := mkTarget {
  it_Protocol : string;
  it_Status : string;
  it_Network : string;
  it_ExternalAPIConfig : APIConfig;
  it_ExternalAPIs : bool * bool * string;  (** optional, enabled by default, note *)
  it_VerificationItems : list VerificationItem;
}.
Definition Target : IntegrationTarget :=
  mkTarget ProtocolName IntegrationStatusUnverified MainnetNetwork DefaultAPIConfig
    (true, false, "the public GraphQL API may be enabled explicitly for pool discovery and transaction build/submit; on-chain parser support remains disabled until verification is complete")
    VerificationChecklist.

(** [Parser.ParsePoolDatum] refuses everything. *)
Inductive parser_error := ErrIntegrationUnverified.
Definition ParsePoolDatum (datum utxoValue : list byte) (txHash : string) (txIndex slot timestamp : Z)
  : result parser_error PoolState := Err ErrIntegrationUnverified.

(** Out of the box nothing is asked of the service. *)
Example disabled_by_default url_Parse is_loopback_ip opts :
  NewClient url_Parse is_loopback_ip (it_ExternalAPIConfig Target) opts = Err ErrExternalAPIDisabled.
Proof. done. Qed.
