(* ===== verification/SaturnJson.v ===== *)
(** * SaturnJson: the JSON of the SaturnSwap service ([dex/saturnswap/api_models.go],
    [api.go]).

    The records of the responses with their members, the requests, and the operations
    of the client with the program's own encoding. A decimal is a string or a number
    as it is written; a decimal that is neither keeps the compact form of its text,
    and so does raw data. *)
From S2P Require Import Prelude.
From S2P Require Import Text.
From S2P Require Import Float64.
From S2P Require Import Common.
From S2P Require Import KeyValue.
From S2P Require Import JsonString.
From S2P Require Import JsonNumber.
From S2P Require Import FloatText.
From S2P Require Import Json.
From S2P Require Import JsonRecord.
From S2P Require Import PoolJson.
From S2P Require Import Endpoint.
From S2P Require Import Saturn.

#[local] Obligation Tactic := idtac.

(** ** Decimals *)

Definition read_string_text (data : string) : option string := json_Unmarshal string_kind data "".
Definition read_decimal (j : json) (_ : string) : option string :=
  DecimalString_UnmarshalJSON read_string_text (render j).

Lemma trim_right_last p s c : p c = false -> trim_right p (s +:+ String c "") = s +:+ String c "".
Proof.
  intros Hc. induction s as [|d s IH].
  - rewrite app_Empty, trim_right_cons. cbn. by rewrite Hc.
  - rewrite app_String, trim_right_cons, IH. by destruct s.
Qed.
Lemma TrimSpace_quoted raw : TrimSpace (quoted raw) = quoted raw.
Proof.
  unfold TrimSpace, Trim, quoted. change (trim_left is_space (String dquote (raw +:+ String dquote "")))
    with (String dquote raw +:+ String dquote ""). by apply trim_right_last.
Qed.

#[program] Definition decimal_kind : kind string := {|
  enc s := Some (JStr (JsonString.quote s));
  dec := read_decimal;
  zero_value := "";
  is_empty s := String.eqb s "";
  good := Utf8;
  into := always;
|}.
Next Obligation. intros t j _ [= <-]. constructor. apply raw_ok_quote. Qed.
Next Obligation.
  intros t j t0 Ht [= <-] _. unfold read_decimal, DecimalString_UnmarshalJSON. cbn [render].
  rewrite TrimSpace_quoted, bool_decide_false by done.
  change (read_string_text (quoted (JsonString.quote t)) = Some t).
  by apply (json_Unmarshal_Marshal string_kind).
Qed.
Next Obligation. intros t _ H. by apply String.eqb_eq. Qed.
Next Obligation. done. Qed.

(** ** Tokens, statistics and pools *)

Definition token_fields : fields _ :=
  FCons "id" true string_kind (FCons "name" true string_kind (FCons "image" true string_kind
  (FCons "policy_id" true string_kind (FCons "asset_name" true string_kind
  (FCons "decimals" true uint32_kind (FCons "precision" true uint32_kind
  (FCons "ticker" true string_kind (FCons "price" true decimal_kind
  (FCons "is_verified" true bool_kind (FCons "is_active" true bool_kind FNil)))))))))).
Definition token_tuple (t : TokenProject) :=
  (tk_ID t, (tk_Name t, (tk_Image t, (tk_PolicyID t, (tk_AssetName t, (tk_Decimals t,
  (tk_Precision t, (tk_Ticker t, (tk_Price t, (tk_IsVerified t, (tk_IsActive t, tt))))))))))).
Definition token_of_tuple (r : _) : TokenProject :=
  let '(y0, (y1, (y2, (y3, (y4, (y5, (y6, (y7, (y8, (y9, (y10, tt))))))))))) := r in
  mkToken y0 y1 y2 y3 y4 y5 y6 y7 y8 y9 y10.
#[program] Definition token_kind : kind TokenProject :=
  struct_kind token_fields token_tuple token_of_tuple _ no_extra eq_refl (no_extra_ok _) _.
Next Obligation. by intros []. Qed.
Next Obligation.
  by intros (? & ? & ? & ? & ? & ? & ? & ? & ? & ? & ? & []).
Qed.

Definition stats_fields : fields _ :=
  FCons "pool_id" true string_kind (FCons "price" true decimal_kind
  (FCons "highest_bid" true decimal_kind (FCons "lowest_ask" true decimal_kind
  (FCons "reserve_token_one" true decimal_kind (FCons "reserve_token_two" true decimal_kind
  (FCons "tvl" true decimal_kind (FCons "volume_1d" true decimal_kind
  (FCons "buy_volume_1d" true decimal_kind (FCons "sell_volume_1d" true decimal_kind
  (FCons "transactions_1d" true uint64_kind (FCons "buys_1d" true uint64_kind
  (FCons "sells_1d" true uint64_kind (FCons "user_fees_earned_1d" true decimal_kind
  (FCons "volume_7d" true decimal_kind (FCons "buy_volume_7d" true decimal_kind
  (FCons "sell_volume_7d" true decimal_kind (FCons "transactions_7d" true uint64_kind
  (FCons "buys_7d" true uint64_kind (FCons "sells_7d" true uint64_kind
  (FCons "user_fees_earned_7d" true decimal_kind (FCons "volume_all" true decimal_kind
  (FCons "buy_volume_all" true decimal_kind (FCons "sell_volume_all" true decimal_kind
  (FCons "transactions_all" true uint64_kind (FCons "buys_all" true uint64_kind
  (FCons "sells_all" true uint64_kind (FCons "user_fees_earned_all" true decimal_kind
  (FCons "average_apy_1d" true decimal_kind (FCons "average_apy_7d" true decimal_kind
  (FCons "average_apy_30d" true decimal_kind (FCons "volume_30d" true decimal_kind
  (FCons "buy_volume_30d" true decimal_kind (FCons "sell_volume_30d" true decimal_kind
  (FCons "transactions_30d" true uint64_kind (FCons "buys_30d" true uint64_kind
  (FCons "sells_30d" true uint64_kind (FCons "user_fees_earned_30d" true decimal_kind FNil))))))))))))))))))))))))))))))))))))).
Definition stats_tuple (s : PoolStats) :=
  (st_PoolID s, (st_Price s, (st_HighestBid s, (st_LowestAsk s, (ReserveTokenOne s,
  (ReserveTokenTwo s, (st_TVL s, (st_Volume1D s, (st_BuyVolume1D s, (st_SellVolume1D s,
  (st_Transactions1D s, (st_Buys1D s, (st_Sells1D s, (st_UserFeesEarned1D s, (st_Volume7D s,
  (st_BuyVolume7D s, (st_SellVolume7D s, (st_Transactions7D s, (st_Buys7D s, (st_Sells7D s,
  (st_UserFeesEarned7D s, (st_VolumeAll s, (st_BuyVolumeAll s, (st_SellVolumeAll s,
  (st_TransactionsAll s, (st_BuysAll s, (st_SellsAll s, (st_UserFeesEarnedAll s,
  (st_AverageAPY1D s, (st_AverageAPY7D s, (st_AverageAPY30D s, (st_Volume30D s, (st_BuyVolume30D s,
  (st_SellVolume30D s, (st_Transactions30D s, (st_Buys30D s, (st_Sells30D s,
  (st_UserFeesEarned30D s, tt)))))))))))))))))))))))))))))))))))))).
Definition stats_of_tuple (r : _) : PoolStats :=
  let '(y0, (y1, (y2, (y3, (y4, (y5, (y6, (y7, (y8, (y9, (y10, (y11, (y12, (y13, (y14, (y15, (y16,
    (y17, (y18, (y19, (y20, (y21, (y22, (y23, (y24, (y25, (y26, (y27, (y28, (y29, (y30, (y31, (y32,
    (y33, (y34, (y35, (y36, (y37, tt)))))))))))))))))))))))))))))))))))))) := r in
  mkStats y0 y1 y2 y3 y4 y5 y6 y7 y8 y9 y10 y11 y12 y13 y14 y15 y16 y17 y18 y19 y20 y21 y22 y23 y24
  y25 y26 y27 y28 y29 y30 y31 y32 y33 y34 y35 y36 y37.
#[program] Definition stats_kind : kind PoolStats :=
  struct_kind stats_fields stats_tuple stats_of_tuple _ no_extra eq_refl (no_extra_ok _) _.
Next Obligation. by intros []. Qed.
Next Obligation.
  by intros (? & ? & ? & ? & ? & ? & ? & ? & ? & ? & ? & ? & ? & ? & ? & ? & ? & ? & ? & ? & ? &
  ? & ? & ? & ? & ? & ? & ? & ? & ? & ? & ? & ? & ? & ? & ? & ? & ? & []).
Qed.

Definition saturn_pool_fields : fields _ :=
  FCons "id" false string_kind (FCons "name" true string_kind (FCons "ticker" true string_kind
  (FCons "lp_fee_percent" true decimal_kind (FCons "protocol_fee_percent" true decimal_kind
  (FCons "is_swap_active" true bool_kind (FCons "is_liquidity_active" true bool_kind
  (FCons "is_verified" true bool_kind (FCons "token_project_one" true token_kind
  (FCons "token_project_two" true token_kind (FCons "pool_stats" true stats_kind FNil)))))))))).
Definition saturn_pool_tuple (p : Pool) :=
  (po_ID p, (po_Name p, (po_Ticker p, (LPFeePercent p, (ProtocolFeePercent p, (IsSwapActive p,
  (IsLiquidityActive p, (IsVerified p, (TokenProjectOne p, (TokenProjectTwo p, (Stats p,
  tt))))))))))).
Definition saturn_pool_of_tuple (r : _) : Pool :=
  let '(y0, (y1, (y2, (y3, (y4, (y5, (y6, (y7, (y8, (y9, (y10, tt))))))))))) := r in
  mkPool y0 y1 y2 y3 y4 y5 y6 y7 y8 y9 y10.
#[program] Definition saturn_pool_kind : kind Pool :=
  struct_kind saturn_pool_fields saturn_pool_tuple saturn_pool_of_tuple _ no_extra eq_refl (no_extra_ok _) _.
Next Obligation. by intros []. Qed.
Next Obligation.
  by intros (? & ? & ? & ? & ? & ? & ? & ? & ? & ? & ? & []).
Qed.

Definition edge_fields : fields _ :=
  FCons "cursor" true string_kind (FCons "node" false saturn_pool_kind FNil).
#[program] Definition edge_kind : kind (string * Pool) :=
  struct_kind edge_fields (fun e => (e.1, (e.2, tt))) (fun r => (r.1, r.2.1)) _ no_extra eq_refl (no_extra_ok _) _.
Next Obligation. by intros []. Qed.
Next Obligation. by intros (? & ? & []). Qed.

Definition connection_fields : fields _ :=
  FCons "nodes" true (slice_kind saturn_pool_kind) (FCons "edges" true (slice_kind edge_kind)
  (FCons "totalCount" true uint64_kind FNil)).

Definition connection_tuple (c : PoolConnection) :=
  (Nodes c, (Edges c, (TotalCount c, tt))).
Definition connection_of_tuple (r : _) : PoolConnection :=
  let '(y0, (y1, (y2, tt))) := r in
  mkConnection y0 y1 y2.
#[program] Definition connection_kind : kind PoolConnection :=
  struct_kind connection_fields connection_tuple connection_of_tuple _ no_extra eq_refl (no_extra_ok _) _.
Next Obligation. by intros []. Qed.
Next Obligation.
  by intros (? & ? & ? & []).
Qed.

(** *** A decimal is the same written as a number or as a string *)

Definition number_char (c : ascii) : bool := JsonNumber.is_digit c || is_exp c || is_sign c || Ascii.eqb c ".".
Lemma number_chars c :
  (JsonNumber.is_digit c = true -> number_char c = true) /\ (is_exp c = true -> number_char c = true) /\
  (is_sign c = true -> number_char c = true).
Proof. by destruct c as [[] [] [] [] [] [] [] []]. Qed.
Lemma number_char_plain c : number_char c = true ->
  negb (is_space c) = true /\ ascii_byte c = true /\ Ascii.eqb c dquote = false /\ Ascii.eqb c "n" = false.
Proof. by destruct c as [[] [] [] [] [] [] [] []]. Qed.
Lemma all_chars_impl p q s : (forall c, p c = true -> q c = true) ->
  all_chars p s = true -> all_chars q s = true.
Proof.
  intros Hpq. induction s as [|c s IH]; [done|]. cbn [all_chars]. intros [Hc Hs]%andb_prop.
  by rewrite Hpq, IH.
Qed.
Lemma digits_number_chars s : all_chars JsonNumber.is_digit s = true -> all_chars number_char s = true.
Proof. apply all_chars_impl. intros c. apply (number_chars c). Qed.

Lemma number_text_chars n : wf_number n -> all_chars number_char (number_text n) = true.
Proof.
  intros [Hi%digits_number_chars _ Hf Hx]. unfold number_text. rewrite !all_chars_app, Hi.
  assert (all_chars number_char (if nb_neg n then "-" else "") = true) as -> by by destruct (nb_neg n).
  assert (all_chars number_char match nb_frac n with Some f => String "." f | None => "" end = true) as ->.
  { destruct (nb_frac n) as [f|]; [|done]. destruct Hf as [Hf%digits_number_chars _]. cbn. exact Hf. }
  destruct (nb_exp n) as [[[e sg] x]|]; [|done].
  destruct Hx as (He & Hx%digits_number_chars & _ & Hsg).
  apply (number_chars e) in He. destruct sg as [sg|]; cbn [all_chars andb].
  - apply (number_chars sg) in Hsg. by rewrite He, Hsg, Hx.
  - by rewrite He, Hx.
Qed.

(** What the service writes as the number [n] and as the string of its digits is the
    same decimal. *)
Lemma decimal_of_number n old : wf_number n -> dec decimal_kind (JNum n) old = Some (number_text n).
Proof.
  intros Hn. pose proof (number_text_chars n Hn) as Hc. cbn [dec decimal_kind].
  unfold read_decimal, DecimalString_UnmarshalJSON. cbn [render]. unfold TrimSpace. rewrite Trim_none.
  - destruct (number_text_nonempty n Hn) as (c & r & E & _). rewrite E in *. cbn [all_chars] in Hc.
    apply andb_prop in Hc as [(_ & _ & Hq & Hnull)%number_char_plain _].
    rewrite bool_decide_false by (intros [= -> _]; done).
    change quote with dquote. by rewrite Hq.
  - revert Hc. apply all_chars_impl. intros c. apply number_char_plain.
Qed.
Lemma decimal_number_or_string n old : wf_number n ->
  dec decimal_kind (JNum n) old = dec decimal_kind (JStr (JsonString.quote (number_text n))) old.
Proof.
  intros Hn. rewrite decimal_of_number by done. symmetry. apply (dec_enc decimal_kind); [|done|done].
  apply Utf8_ascii. generalize (number_text_chars n Hn). apply all_chars_impl. intros c. apply number_char_plain.
Qed.

(** ** Values of any type *)

(** What decoding into an [any] refuses: a number out of the range of a [float64]. *)
Fixpoint any_ok (j : json) : bool :=
  match j with
  | JNum n => match ParseFloat n with Some _ => true | None => false end
  | JStr raw => match unquote raw with Some _ => true | None => false end
  | JArr l => forallb any_ok l
  | JObj l => forallb (fun m => match unquote m.1 with Some _ => any_ok m.2 | None => false end) l
  | _ => true
  end.

(** A [map[string]any] that nothing looks into *)
Definition read_extensions (j : json) (_ : unit) : option unit :=
  match j with
  | JNull => Some tt
  | JObj _ => if any_ok j then Some tt else None
  | _ => None
  end.
#[program] Definition extensions_kind : kind unit := {|
  enc _ := Some JNull;
  dec := read_extensions;
  zero_value := tt;
  is_empty _ := true;
  good := always;
  into := always;
|}.
Next Obligation. intros t j _ [= <-]. constructor. Qed.
Next Obligation. intros [] j t0 _ H _. by injection H as <-. Qed.
Next Obligation. by intros []. Qed.
Next Obligation. done. Qed.

(** ** Responses *)

(** [GraphQLError], of which only the message is used *)
Definition graphql_error_fields : fields _ :=
  FCons "message" false string_kind (FCons "extensions" true extensions_kind FNil).
#[program] Definition graphql_error_kind : kind string :=
  struct_kind graphql_error_fields (fun m => (m, (tt, tt))) fst _ no_extra eq_refl (no_extra_ok _) _.
Next Obligation. done. Qed.
Next Obligation. by intros (? & [] & []). Qed.

Definition graphql_fields : fields _ :=
  FCons "data" false raw_kind (FCons "errors" true (slice_kind graphql_error_kind) FNil).
#[program] Definition graphql_kind : kind graphQLResponse :=
  struct_kind graphql_fields (fun r => (gr_Data r, (gr_Errors r, tt))) (fun r => mkGraphQL r.1 r.2.1) _
    no_extra eq_refl (no_extra_ok _) _.
Next Obligation. by intros []. Qed.
Next Obligation. by intros (? & ? & []). Qed.

Definition Unmarshal_response (body : string) : option graphQLResponse :=
  json_Unmarshal graphql_kind body (mkGraphQL None []).

(** A struct of one field *)
Definition one_field {A} (name : string) (k : kind A) : fields (A * unit) := FCons name false k FNil.
Definition read_field {A} (name : string) (k : kind A) (data : string) : option A :=
  j ← parse data; fst <$> read_struct (one_field name k) id id j (zero_fields (one_field name k)).

Definition order_fields : fields _ :=
  FCons "transactionId" false string_kind (FCons "hexTransaction" false string_kind FNil).
#[program] Definition order_kind : kind OrderTransaction :=
  struct_kind order_fields (fun t => (TransactionID t, (HexTransaction t, tt)))
    (fun r => mkOrderTransaction r.1 r.2.1) _ no_extra eq_refl (no_extra_ok _) _.
Next Obligation. by intros []. Qed.
Next Obligation. by intros (? & ? & []). Qed.

Definition api_error_fields : fields _ :=
  FCons "message" false string_kind (FCons "code" true string_kind (FCons "link" true string_kind FNil)).
#[program] Definition api_error_kind : kind SaturnAPIError :=
  struct_kind api_error_fields (fun e => (ae_Message e, (ae_Code e, (ae_Link e, tt))))
    (fun r => mkAPIError r.1 r.2.1 r.2.2.1) _ no_extra eq_refl (no_extra_ok _) _.
Next Obligation. by intros []. Qed.
Next Obligation. by intros (? & ? & ? & []). Qed.

Lemma struct_not_null {A R} (fs : fields R) (to : A -> R) extra a j :
  struct_json fs to extra a = Some j -> j <> JNull.
Proof. unfold struct_json. destruct (encode _ _), (extra a); cbn; try done. by intros [= <-]. Qed.

Definition error_pointer_kind : kind (option SaturnAPIError) :=
  pointer_kind api_error_kind (struct_not_null _ _ _).
Definition pool_pointer_kind : kind (option Pool) :=
  pointer_kind saturn_pool_kind (struct_not_null _ _ _).

(** [FailedTransaction] *)
Definition failed_fields : fields _ := FCons "error" true error_pointer_kind FNil.
#[program] Definition failed_kind : kind (option SaturnAPIError) :=
  struct_kind failed_fields (fun e => (e, tt)) fst _ no_extra eq_refl (no_extra_ok _) _.
Next Obligation. done. Qed.
Next Obligation. by intros (? & []). Qed.

Definition create_result_fields : fields _ :=
  FCons "successTransactions" false (slice_kind order_kind)
  (FCons "failTransactions" false (slice_kind failed_kind) (FCons "error" true error_pointer_kind FNil)).
#[program] Definition create_result_kind : kind CreateOrderTransactionResult :=
  struct_kind create_result_fields
    (fun r => (cr_SuccessTransactions r, (cr_FailTransactions r, (cr_Error r, tt))))
    (fun r => mkCreateResult r.1 r.2.1 r.2.2.1) _ no_extra eq_refl (no_extra_ok _) _.
Next Obligation. by intros []. Qed.
Next Obligation. by intros (? & ? & ? & []). Qed.

Definition submit_result_fields : fields _ :=
  FCons "transactionIds" false (slice_kind string_kind) (FCons "error" true error_pointer_kind FNil).
#[program] Definition submit_result_kind : kind SubmitOrderTransactionResult :=
  struct_kind submit_result_fields (fun r => (sr_TransactionIDs r, (sr_Error r, tt)))
    (fun r => mkSubmitResult r.1 r.2.1) _ no_extra eq_refl (no_extra_ok _) _.
Next Obligation. by intros []. Qed.
Next Obligation. by intros (? & ? & []). Qed.

(** ** Requests *)

Definition utxo_type_text (t : PoolUtxoType) : string :=
  match t with
  | LimitBuyOrder => "LIMIT_BUY_ORDER"
  | LimitSellOrder => "LIMIT_SELL_ORDER"
  | MarketBuyOrder => "MARKET_BUY_ORDER"
  | MarketSellOrder => "MARKET_SELL_ORDER"
  | Cancel => "CANCEL"
  end.

Definition by_tokens_json (input : PoolByTokensInput) : option json :=
  JObj <$> encode
    (FCons "policyIdOne" false string_kind (FCons "assetNameOne" false string_kind
    (FCons "policyIdTwo" false string_kind (FCons "assetNameTwo" false string_kind FNil))))
    (PolicyIDOne input, (AssetNameOne input, (PolicyIDTwo input, (AssetNameTwo input, tt)))).

Definition market_order_json (m : MarketOrderComponent) : option json :=
  JObj <$> encode
    (FCons "poolId" false string_kind (FCons "tokenAmountSell" false float_kind
    (FCons "tokenAmountBuy" false float_kind (FCons "marketOrderType" false string_kind
    (FCons "slippage" true float_kind (FCons "version" true int64_kind FNil))))))
    (mo_PoolID m, (mo_TokenAmountSell m, (mo_TokenAmountBuy m, (utxo_type_text (mo_MarketOrderType m),
    (mo_Slippage m, (mo_Version m, tt)))))).
Definition limit_order_json (l : LimitOrderComponent) : option json :=
  JObj <$> encode
    (FCons "poolId" false string_kind (FCons "tokenAmountSell" false float_kind
    (FCons "tokenAmountBuy" false float_kind (FCons "limitOrderType" false string_kind
    (FCons "version" true int64_kind FNil)))))
    (lo_PoolID l, (lo_TokenAmountSell l, (lo_TokenAmountBuy l, (utxo_type_text (lo_LimitOrderType l),
    (lo_Version l, tt))))).
Definition cancel_json (poolUtxoId : string) : option json :=
  JObj <$> encode (FCons "poolUtxoId" false string_kind FNil) (poolUtxoId, tt).

(** A slice that is left out when it is empty *)
Definition nonempty_member {A} (name : string) (f : A -> option json) (l : list A)
  : option (list (string * json)) :=
  match l with
  | [] => Some []
  | _ => js ← mapM f l; Some [(JsonString.quote name, JArr js)]
  end.
Definition address_member (address : string) : list (string * json) :=
  [(JsonString.quote "paymentAddress", JStr (JsonString.quote address))].

Definition create_order_json (c : CreateOrderTransactionInput) : option json :=
  market ← nonempty_member "marketOrderComponents" market_order_json (MarketOrderComponents c);
  limit ← nonempty_member "limitOrderComponents" limit_order_json (LimitOrderComponents c);
  cancel ← nonempty_member "cancelComponents" cancel_json (CancelComponents c);
  Some (JObj (address_member (co_PaymentAddress c) ++ market ++ limit ++ cancel)).
Definition submit_order_json (s : SubmitOrderTransactionInput) : option json :=
  orders ← nullable_json (enc order_kind) (SuccessTransactions s);
  Some (JObj (address_member (so_PaymentAddress s) ++ [(JsonString.quote "successTransactions", orders)])).

Definition variables_json (v : variables) : option json :=
  match v with
  | VarTicker ticker => map_json [("ticker", enc string_kind ticker)]
  | VarByTokens input => map_json [("input", by_tokens_json input)]
  | VarCreate input => map_json [("input", create_order_json input)]
  | VarSubmit input => map_json [("input", submit_order_json input)]
  end.

(** [graphQLRequest] *)
Definition Marshal_request (query : string) (v : variables) : option string :=
  vars ← variables_json v;
  Some (render (JObj [(JsonString.quote "query", JStr (JsonString.quote query));
                      (JsonString.quote "variables", vars)])).

(** ** The order book *)

Record OrderBookPoolUtxo := mkOrderBook {
  ob_ID : string;
  ob_PoolID : string;
  ob_PoolUtxoID : string;
  ob_TxHash : string;
  ob_TxIndex : Z;
  ob_Type : string;
  ob_Price : string;
  ob_TokenAmountBuy : string;
  ob_TokenAmountSell : string;
  ob_Raw : string;
}.
Definition order_book_fields : fields _ :=
  FCons "id" true string_kind (FCons "pool_id" true string_kind (FCons "pool_utxo_id" true string_kind
  (FCons "tx_hash" true string_kind (FCons "tx_index" true uint32_kind
  (FCons "pool_utxo_type" true string_kind (FCons "price" true decimal_kind
  (FCons "token_amount_buy" true decimal_kind (FCons "token_amount_sell" true decimal_kind FNil)))))))).
(** [OrderBookPoolUtxo.UnmarshalJSON]: a new value is decoded, and keeps the text. *)
Definition OrderBookPoolUtxo_UnmarshalJSON (data : string) : option OrderBookPoolUtxo :=
  j ← parse data;
  '(a, (b, (c, (d, (e, (f, (g, (h, (i, tt))))))))) ←
    read_struct order_book_fields id id j (zero_fields order_book_fields);
  Some (mkOrderBook a b c d e f g h i data).

(** ** The operations *)

Section Operations.
Context (Do : string -> string -> option Response) (request_ok : string -> bool).

Definition ask_pools_by_ticker : string -> option Client -> result client_error (list Pool) :=
  PoolsByTicker Marshal_request Do Unmarshal_response request_ok
    (read_field "pools" connection_kind).
Definition ask_pool_by_tokens : PoolByTokensInput -> option Client -> result client_error Pool :=
  PoolByTokens Marshal_request Do Unmarshal_response request_ok
    (read_field "poolByTokens" pool_pointer_kind).
Definition create_order : CreateOrderTransactionInput -> option Client ->
    option CreateOrderTransactionResult * option client_error :=
  CreateOrderTransaction Marshal_request Do Unmarshal_response request_ok
    (read_field "createOrderTransaction" create_result_kind).
Definition submit_order : SubmitOrderTransactionInput -> option Client ->
    option SubmitOrderTransactionResult * option client_error :=
  SubmitOrderTransaction Marshal_request Do Unmarshal_response request_ok
    (read_field "submitOrderTransaction" submit_result_kind).
End Operations.

(** ** What the service lists is what the client returns *)

(** The body of an answer whose data have one field *)
Definition answer (name : string) (j : json) : string :=
  render (JObj [(JsonString.quote "data", JObj [(JsonString.quote name, j)])]).

Lemma read_answer name j :
  wf_json j -> Utf8 name ->
  Unmarshal_response (answer name j) =
    Some (mkGraphQL (Some (render (JObj [(JsonString.quote name, j)]))) []).
Proof.
  intros Hj Hu. set (data := JObj [(JsonString.quote name, j)]).
  assert (wf_json data) as Hd by (constructor; apply Forall_singleton; split; [apply raw_ok_quote|done]).
  apply (json_Unmarshal_Marshal graphql_kind).
  - split; [by exists data|]. split; [constructor|done].
  - cbn. by split_and!.
  - unfold json_Marshal. cbn [enc graphql_kind struct_kind]. unfold struct_json.
    cbn [encode graphql_fields gr_Data gr_Errors fst snd enc raw_kind slice_kind is_empty andb].
    unfold raw_json. by rewrite parse_render.
Qed.

Lemma read_field_encoded {A} name (k : kind A) a j :
  good k a -> enc k a = Some j -> Utf8 name ->
  read_field name k (render (JObj [(JsonString.quote name, j)])) = Some a.
Proof.
  intros Hg He Hu. unfold read_field. rewrite parse_render.
  2:{ constructor. apply Forall_singleton. split; [apply raw_ok_quote | by eapply enc_wf]. }
  cbn [mbind option_bind read_struct one_field decode zero_fields id].
  rewrite unquote_quote by done. cbn [mbind option_bind]. unfold assign, one_field. cbn [has].
  rewrite String.eqb_refl. cbn [orb set_first fst snd]. rewrite String.eqb_refl.
  by rewrite (dec_enc k a j (zero_value k) Hg He (into_zero k)).
Qed.

(** C37: the client returns the pools that the service lists. When the service answers
    the query for a ticker with the JSON of a connection, and the answer is of success
    and not longer than a megabyte, the client returns exactly the pools of that
    connection: those of its nodes, or of its edges when there are no nodes, with every
    statistic and decimal as it was written. *)
Theorem pools_by_ticker_reads Do request_ok c ticker status conn jc :
  TrimSpace ticker <> "" -> request_ok (cl_endpoint c) = true -> 200 <= status < 300 ->
  good connection_kind conn -> enc connection_kind conn = Some jc ->
  (String.length (answer "pools" jc) <= maxGraphQLResponseBodySize)%nat ->
  (exists request, Marshal_request (TrimSpace poolsByTickerQuery) (VarTicker (TrimSpace ticker)) = Some request /\
     Do (cl_endpoint c) request = Some (mkSaturnResponse status (Some (answer "pools" jc)))) ->
  ask_pools_by_ticker Do request_ok ticker (Some c) = Ok (Pools conn).
Proof.
  intros Ht Hok Hs Hg He Hlen (request & Hm & Hdo).
  pose proof (enc_wf connection_kind conn jc Hg He) as Hj.
  assert (Utf8 "pools") as Hu by by apply Utf8_ascii.
  unfold ask_pools_by_ticker, PoolsByTicker. rewrite bool_decide_false by done.
  unfold query_value, Query. rewrite bool_decide_false by by vm_compute.
  rewrite Hm, Hok, Hdo. unfold read_response, is_2xx. cbn [rp_status rp_body negb].
  rewrite (proj2 (Z.leb_le _ _)), (proj2 (Z.ltb_lt _ _)) by lia. cbn [andb negb].
  rewrite (proj2 (Nat.ltb_ge _ _)) by done. rewrite read_answer by done. cbn [mbind result_bind gr_Errors length].
  cbn [Nat.ltb Nat.leb gr_Data]. rewrite (read_field_encoded "pools" connection_kind conn jc) by done.
  done.
Qed.

(** ** Concrete answers *)

Definition sample_connection : PoolConnection := mkConnection [sample_pool "30"] [("c", sample_pool "NaN")] 1.
Definition sample_client : Client := mkSaturnClient "https://api.example/graphql" (Some 1) true false.
Definition sample_Do (body : string) (_ _ : string) : option Response := Some (mkSaturnResponse 200 (Some body)).

Ltac good_sample :=
  repeat first [exact I | apply Forall_nil_2 | apply Forall_cons_2 | apply conj | apply Utf8_ascii; reflexivity
    | discriminate | progress cbn].
Lemma sample_connection_good : good connection_kind sample_connection.
Proof. cbn. good_sample. Qed.

(** Its text, which is far shorter than the limit *)
Definition sample_json : json := default JNull (enc connection_kind sample_connection).
Lemma sample_length : (String.length (answer "pools" sample_json) <= maxGraphQLResponseBodySize)%nat.
Proof.
  apply (Nat.le_trans _ 2000); [by apply Nat.leb_le; vm_compute|].
  unfold maxGraphQLResponseBodySize. lia.
Qed.

Lemma pools_by_ticker_reads_witness :
  ask_pools_by_ticker (sample_Do (answer "pools" sample_json)) (fun _ => true) " ADA " (Some sample_client)
    = Ok [sample_pool "30"].
Proof.
  apply (pools_by_ticker_reads (sample_Do (answer "pools" sample_json)) (fun _ => true) sample_client " ADA " 200
    sample_connection sample_json);
    [done|done|lia|apply sample_connection_good|vm_compute; reflexivity|apply sample_length|].
  eexists. split; reflexivity.
Defined.

(** A pool whose decimals are numbers, and one whose fee is no number at all: the first
    has the state of the pool that spells them, the second is accepted. *)
Definition member (name value : string) : string := quoted name +:+ ":" +:+ value.
Definition listed (fee : string) : string :=
  "{" +:+ member "nodes" ("[{" +:+ member "id" (quoted "p1") +:+ "," +:+ member "lp_fee_percent" "0.5" +:+ "," +:+
  member "protocol_fee_percent" fee +:+ "," +:+ member "token_project_two" ("{" +:+
    member "policy_id" (quoted "0xAB") +:+ "," +:+ member "asset_name" (quoted "cd") +:+ "}") +:+ "," +:+
  member "pool_stats" ("{" +:+ member "reserve_token_one" "1000.000" +:+ "," +:+
    member "reserve_token_two" (quoted " 250 ") +:+ "," +:+ member "buys_1d" "3" +:+ "}")
  +:+ "}]") +:+ "}".
Definition listed_states (fee : string) : option (list (result saturn_error PoolState)) :=
  conn ← json_Unmarshal connection_kind (listed fee) (zero_value connection_kind);
  Some (map (fun p => ToPoolState (fun _ => 2 ^ 63) p 7 9) (Pools conn)).
Example listed_number :
  listed_states "30" = Some [ToPoolState (fun _ => 2 ^ 63) (sample_pool "30") 7 9].
Proof. vm_compute. reflexivity. Qed.
Example listed_nan :
  (map (fun r => match r with Ok s => Some (ss_FeeNum s, ss_FeeDenom s) | Err _ => None end)
    <$> listed_states (quoted "NaN")) = Some [Some (9223372036854785808, 10000)].
Proof. vm_compute. reflexivity. Qed.
